(* ===== verification/_CoqProject ===== *)
-Q . S2P
Prelude.v
Integer.v
Mem.v
Types.v
Value.v
View.v
Iterator.v
IteratorSafe.v
Codec.v
Parse.v
Alloc.v
Str.v
Doc.v
Mut.v
MutSpec.v
MutElem.v
MutRefine.v
Wire.v
WireSpec.v
WireClient.v
Uri.v
Pool.v
Status.v
Reply.v
ReplySpec.v
Handshake.v
HandshakeSpec.v
Make.v
Hello.v
StrMut.v
Vec.v
OwnedValue.v
Collection.v
CollectionParse.v
CollectionSpec.v
Stop.v
StopList.v
StopInv.v
StopSteps.v
StopSpec.v
Tls.v
TlsSpec.v
Race.v
RaceSpec.v
Box.v
Emitter.v
EmitterSpec.v
DefaultAlloc.v
Events.v
Coroutine.v
CoroutineSpec.v
Nano.v
Sender.v
Loop.v
Format.v
Client.v
Tcp.v
Trace.v
Equal.v
Ownership.v
Stream.v
