(* ===== verification/Prelude.v ===== *)
(** * Verification of the asynchronous MongoDB C driver ([amongoc])

    A shallow embedding of the driver's own logic, with the theorems that make
    it correct.  Paths are relative to [src/].

    ** The program

    The BSON library ([include/bson]) keeps documents as raw bytes: a view is
    validated once, an iterator delimits and reads the elements of a view, a
    document owns a growable buffer, a mutator edits a document in place (and
    documents inside documents), the construction rules build documents through a
    mutator, and the parse combinators take documents apart.
    It stands on the C support library ([include/mlib]): checked integer
    arithmetic, allocators, strings and vectors.  The driver ([src/amongoc]) sends
    commands as OP_MSG messages over a stream and receives the replies; client
    adaptors number, retry and check the requests.  A connection string gives
    the options, and a pool of connections, shared by its users under a mutex,
    lends connections to lazy clients; a connection opens with the [hello]
    exchange.  The operations on collections build a command, send it with such a
    client, take the reply apart and resolve with a status and a value.  Stop
    sources cancel what is in progress.

    Asynchronous operations come in three forms.  The C interface has emitters,
    operations and handlers, which keep their state in boxes ([box.h]) and are
    composed by the functions of [async.h].  C++ has nanosenders, composed by
    [just], [then], [let] and results, and raced or joined by
    [nano/first.hpp] and [nano/all.hpp].  Coroutines await both, and are
    emitters or senders in their turn.  The default event loop adapts Asio to
    handlers, a TCP connection adapts the loop to Asio's streams, and a TLS stream
    puts OpenSSL between two of these.

    ** Files

    - [Prelude.v]: machine integers, outcomes, bytes, addressed memory.
    - [Integer.v]: [include/mlib/integer.h], the overflow predicates, integers
      with error flags ([Module mlibMath]: the expression macros).
    - [Mem.v]: [include/bson/detail/mem.h], little-endian access, the
      [constexpr] [memcpy] family.
    - [Types.v]: the type tags and the tagged value of [include/bson/types.h]
      and [value_ref.h].
    - [Value.v]: the coercions of [include/bson/value_ref.h], with [double] as
      its 64 bits.
    - [View.v]: [include/bson/view.h], the validation of a document.
    - [Iterator.v]: [include/bson/iterator.h] and [detail/iter.h], element
      sizes, iteration, keys, lookup, values.
    - [IteratorSafe.v]: safety of iteration on arbitrary validated bytes,
      termination and soundness of lookup.
    - [Codec.v]: the encoding of abstract documents, and that the iterator reads
      it back.
    - [Parse.v]: [include/bson/parse.hpp], every rule and combinator.
    - [Alloc.v]: [include/mlib/alloc.h], the allocator interface ([Allocator])
      and its documented laws ([AllocatorOk]).
    - [Str.v]: string views of [include/mlib/str.h] and [cstring.h].
    - [Doc.v]: [include/bson/doc.h], owned documents, growth, copies.
    - [Mut.v]: [include/bson/mut.h], the mutator.
    - [MutSpec.v], [MutElem.v], [MutRefine.v]: splicing, element insertion, and
      the refinement of the mutator to lists of elements.
    - [Wire.v]: [src/mlib/bytes.hpp] and [src/amongoc/wire]: [integer.hpp],
      [buffer.hpp], [message.hpp], [message.cpp], [proto.hpp].
    - [WireSpec.v]: the abstract parser of OP_MSG, the refinement of
      [recv_message] to it, the round trip with [send_message].
    - [WireClient.v]: [src/amongoc/wire/client.hpp] and [error.cpp].
    - [Uri.v]: [src/amongoc/uri.hpp] and [uri.cpp], connection strings.
    - [Pool.v]: [src/amongoc/pool.hpp] ([Module ObjectPool]);
      [connection_pool.hpp] and [connection_pool.cpp] ([Module
      ConnectionPool]).
    - [Status.v]: [include/amongoc/status.h] and [status.cpp], the categories of
      statuses with their tables of messages, and the conversions.
    - [Reply.v]: the rules of [Parse.v] over the bytes of a view, that store in an
      object and may throw; [ReplySpec.v]: what a rule stores when its parts look
      at different keys ([reader], [parse_reads]).
    - [Handshake.v]: the reply to [hello] ([src/amongoc/handshake.cpp]);
      [HandshakeSpec.v]: which replies are accepted, and the fields.
    - [Make.v]: [include/bson/make.hpp], the rules, their sizes, the build.
    - [Hello.v]: the command and the exchange of the handshake.
    - [Collection.v]: [src/amongoc/collection.cpp], [collection.hpp],
      [database.cpp], [client.cpp], and the exceptions of an emitter
      ([coroutine.cpp]); [CollectionParse.v]: what the operations read from a
      reply; [CollectionSpec.v]: the abstract operations and the refinement.
    - [Stop.v]: [src/amongoc/nano/stop.hpp], the stop source as a step relation on
      threads, its spin lock and its list of callbacks; [StopList.v]: the doubly
      linked list; [StopInv.v], [StopSteps.v]: the invariant and every step;
      [StopSpec.v]: safety, what callbacks run, progress.
    - [Tls.v]: [src/amongoc/tls], a TLS stream over an engine and a BIO;
      [TlsSpec.v]: the invariant of its steps, order of the ciphertext, what is
      transferred, verification.
    - [StrMut.v]: the owned strings of [include/mlib/str.h]; [Vec.v]:
      [include/mlib/vec.t.h].
    - [OwnedValue.v]: [include/bson/value.h], values that own their contents.
    - [Race.v]: [src/amongoc/nano/first.hpp] ([Module First]) and [all.hpp]
      ([Module All]), the handlers of sub-operations that interleave;
      [RaceSpec.v]: results, progress.
    - [Box.v]: [include/amongoc/box.h], [box.hpp] and
      [src/amongoc/box.compress.hpp].
    - [Emitter.v]: [include/amongoc/emitter.h], [handler.h], [operation.h],
      [async.h] and [src/amongoc/async*.cpp]; [EmitterSpec.v]: what a composition
      of emitters means, and the refinement.
    - [DefaultAlloc.v]: [src/mlib/alloc.cpp].
    - [Events.v]: [src/amongoc/event_emitter.hpp], listeners in a linked list.
    - [Coroutine.v]: [src/amongoc/coroutine.hpp] and [coroutine.cpp], a machine
      of frames, promises and finishers; [CoroutineSpec.v]: the direct meaning of a
      body, and the refinement.
    - [Nano.v]: [src/amongoc/nano/result.hpp], [just.hpp], [then.detail.hpp],
      [let.detail.hpp], [tie.hpp], [asio/as_sender.hpp]: senders as a class;
      [Sender.v]: the operation states that connecting [just], [then] and [let]
      makes, and their receivers.
    - [Loop.v]: [src/amongoc/default_loop.cpp] and the completions of
      [tcp_conn.hpp].
    - [Format.v]: [src/bson/format.cpp]; [Trace.v]: the tracing of messages
      ([wire/proto.cpp], [proto.hpp]) with it; [Stream.v]: the streams it prints
      to ([include/mlib/stream.h], [src/mlib/stream.cpp]).
    - [Client.v]: [src/amongoc/client.cpp] and [client.hpp], the creation of a
      client over [Uri.v] and [Pool.v], the TLS context of [connection_pool.cpp],
      [src/mlib/lazy_init.hpp], and the handles of databases and collections.
    - [Tcp.v]: [src/amongoc/tcp_conn.hpp] over [Loop.v].
    - [Equal.v]: the conversions and the equality of values
      ([bson/value_ref.h], [iterator.h], [src/bson/value_ref.cpp],
      [types.cpp], [view.cpp]).
    - [Ownership.v]: the class [document] of [bson/doc.h] and
      [include/mlib/unique.hpp], over a store of regions.

    ** How the code is modelled

    A C function is a function into [outcome]: it returns ([Done]), stops the
    process ([Abort]: a failed [BV_ASSERT] in the default checked mode, an
    exception that leaves a [noexcept] function), or has undefined behaviour
    ([Undef]: an access outside the addressable bytes, a store into a constant
    object, a signed overflow where one can happen).  Memory is a [block]: a base
    address and bytes; pointers are addresses, the null pointer is 0.  Integers
    are [Z] with the wrap-around of their width written out ([u32], [s32],
    [u64], [s64]).  The error jump of the checked-arithmetic macros is the
    record of the first failure that [mlib_math_catch] inspects.  A C++
    coroutine is a [co_task]: a function of the state that returns or throws an
    [exn].  The document and the mutators that point into it are passed and
    returned together, so that a reallocation is seen through every mutator of
    the chain.  An emitter of the collections is a function of the state of the
    client that always resolves; the body of its coroutine may throw ([body]).

    The asynchronous files model the machinery below that.  A handler of the C
    interface is a function of the state of the program, with what it owns; an
    operation returns what is left to be destroyed.  A body of a coroutine
    ([Coroutine.body]) is data: what it awaits, and how it goes on; the machine keeps
    its frames in a map, so that an access to a destroyed one is undefined, and
    counts their bytes.  A nanosender is what connecting it to a receiver and
    starting it does to the state ([Nano.Nanosender]); clients use only the laws
    ([Sends], [Immediate]) that each sender proves.  The objects behind that, with
    what is moved, started and invoked, are trees of operations and receivers
    ([Sender.operation]).

    Loops over iterators have fuel; [IteratorSafe.loop_fuel] (the size of the
    document) is enough, which the termination theorem of lookup states.  The
    section loop of [recv_message] has one more unit of fuel than the content
    has bytes, and [WireSpec.recv_refines] shows that it never runs out; the
    retry loop has one more than its number of tries.  The calls between receivers
    and operations of a sender have the fuel that [Sender.sender_runs] shows to
    exist.

    Code outside the repository is a parameter: the allocator behind its
    interface, Asio streams ([Stream], with the laws [StreamOk]), Asio's
    dynamic string buffer (the argument [dynamic_buffer], with
    [DynamicBufferOk]), the splitting of a URL and the percent-decoding of
    Boost.URL, the resolving and connecting of a socket, and the constants and
    messages of the platform, Asio and OpenSSL ([Status.externals]), the engine of
    TLS, the files that it loads, the C library's [realloc], the formatting of
    strings and numbers by fmt, and the texts of exceptions.  Each has a
    concrete instance for the witnesses: an arena, an exhausted allocator and one
    that never refuses, a pipe, the buffer class of the repository itself, split URLs, a network that
    counts its connections.

    The users of the connection pool interleave at the critical sections of its
    mutex and at the completions of their operations
    ([Pool.ConnectionPool.step]).  The threads that use a stop source interleave
    at every atomic access and at every access to a node of its list
    ([Stop.step]); a callback may register, remove and request in its turn.  The
    sub-operations of a race interleave at the mutex of its handler and between the
    statements that it guards ([Race.First.step]), those of [when_all] at the
    atomic counter.  A TLS stream takes a step when the program starts an operation
    or the wrapped stream completes one ([Tls.step]); the event loop when the program
    calls it or Asio completes, cancels or destroys an operation ([Loop.act]).

    The printing of documents has the height of the document as fuel; the machine of
    coroutines runs as long as the fuel that [task_refines] and [emitter_refines]
    show to exist.

    ** What is shown

    - Arithmetic: expressions are exact or flagged, but for one subtraction at the
      edge of the range; the overflow predicates.
    - Reading: validation is exact, iteration over any validated bytes stays
      inside them (but for the value of a DBPointer, of which four bytes too many are
      read), lookup terminates and is sound, encoded documents read back unless
      a string is empty, which stops the process.
    - Values: integers survive the coercion to [double] and back below [2^53].
    - Parsing: choice and sequence; documents with required and optional fields
      are accepted in any order; closed documents.
    - Owned documents: growth keeps the contents, creation and copies.
    - Mutation: insertion, erasure, renaming and the edits through child
      mutators refine list operations on the elements, headers of all levels
      included; failures leave the document as it was.  What becomes of the values
      that the code does not insert as they are (regular expressions, code with
      scope, DBPointers, null views) is part of the statements.
    - Wire: integers of any width, the two ways of gathering buffers, the
      round trip of messages, the behaviour of the receiver on arbitrary bytes, with
      [bad_alloc] exactly when the allocator refuses;
      replies with errors, retries, request numbers.
    - Connection strings: every outcome of the parser; the options it sets, the
      last value of a repeated one, the ranges, the TLS aliases.
    - Pools: objects are accounted for; a connection has one holder and a failed
      one is never idle, however the users interleave; which connection a
      pooled client uses.
    - Construction: a built document holds what the rules denote, for values that
      are inserted as they are; the estimate of its size.
    - Handshake: the command that is sent, which replies are accepted and what is
      stored.
    - Statuses: messages of server errors, conversions, errors stay errors.
    - Collections: every operation sends the command of its parameters and resolves
      with the answer for the elements of the reply, or with the status of what
      went wrong; the values of a distinct and upserted ids are copies, with what
      [OwnedValue.v] shows of copies; update documents are looked at first.
    - Stop sources: no interleaving uses a destroyed callback; callbacks run at
      most once, and all by the time that a request returns; nothing deadlocks.
    - Boxes: one owner, one run of the destructor, compression and recovery.
    - Emitters: a composition does what its parts mean, and only passes on boxes whose
      flags are right; timeouts.
    - Coroutines: to await a task is to call it; results, exceptions and stop
      tokens pass every level; nothing is leaked wherever it is destroyed.
    - Senders: what is connected and started does what the composition of [just],
      [then] and [let] means; the laws that clients use; awaiting.
    - Races and joins: one delivery, of the first accepted result or of all results
      at their places, no deadlock; undefined is only the race of an
      operation that completes inside its stop callback.
    - Event loop: handlers are completed once, nothing is shared between
      operations, registrations end with their operation; TCP transfers.
    - TLS: one transfer at a time, the order of the ciphertext, the bytes moved; what
      a BIO leaves of its input is written over by the next read.
    - Listeners: an emitter of events is a list.
    - Strings, vectors, values, the default allocator; the printing of documents,
      and of the messages that are sent and received.
    - Clients: what the creation of a client comes to; no connection is unverified
      unless the connection string asks for that.
    - Equality: values and documents are equal when what is stored is.
    - Ownership: documents and unique owners free what they own, once.

    The theorems that are not numbered claims show concrete runs where the code
    departs from what it means to do.

    ** Not modelled

    The destructors' effect on the allocator state in the wire files; the
    formatting macros of [str.h]; what the operations of the event loop do when
    memory is denied, for which the source defines nothing; stop tokens, requesters
    and forwarders, which wrap the operations of a stop source; the compile-time
    selection of types, overloads, deleters and queries ([nano/query.hpp], [nano/util.hpp], [mlib/config.h]); Asio,
    OpenSSL, Boost.URL and fmt, which are parameters. *)

From Stdlib Require Import ZArith Lia.
From Stdlib Require Import Strings.Byte.
From stdpp Require Import base numbers list sets.


Open Scope Z_scope.

(** Comparisons on integers stay folded, for [lia] to read. *)
#[global] Arguments Z.eqb : simpl never.
#[global] Arguments Z.ltb : simpl never.
#[global] Arguments Z.leb : simpl never.
#[global] Arguments Z.gtb : simpl never.
#[global] Arguments Z.sub : simpl never.
#[global] Arguments Z.modulo : simpl never.
#[global] Arguments Z.quot : simpl never.

(** ** Machine integers *)

(** The limits of [<stdint.h>], as literals so that [lia] sees them. *)
Abbreviation INT8_MIN := (-128).
Abbreviation INT8_MAX := 127.
Abbreviation INT16_MIN := (-32768).
Abbreviation INT16_MAX := 32767.
Abbreviation INT32_MIN := (-2147483648).
Abbreviation INT32_MAX := 2147483647.
Abbreviation INT64_MIN := (-9223372036854775808).
Abbreviation INT64_MAX := 9223372036854775807.
Abbreviation UINT32_SPAN := 4294967296.
Abbreviation UINT64_SPAN := 18446744073709551616.

(** [(uint32_t)z] and [(uint64_t)z]: reduction modulo the width. *)
Definition u32 (z : Z) : Z := z mod UINT32_SPAN.
Definition u64 (z : Z) : Z := z mod UINT64_SPAN.

(** [(int32_t)z] and [(int64_t)z]: the two's complement reading. *)
Definition s32 (z : Z) : Z :=
  let m := u32 z in if m <? 2147483648 then m else m - UINT32_SPAN.
Definition s64 (z : Z) : Z :=
  let m := u64 z in if m <? 9223372036854775808 then m else m - UINT64_SPAN.

(** [lia] with Euclidean division turned into its equations. *)
Ltac divlia := Z.to_euclidean_division_equations; lia.

Definition is_i32 (z : Z) : Prop := INT32_MIN <= z <= INT32_MAX.
Definition is_i64 (z : Z) : Prop := INT64_MIN <= z <= INT64_MAX.
Definition is_u32 (z : Z) : Prop := 0 <= z < UINT32_SPAN.
Definition is_u64 (z : Z) : Prop := 0 <= z < UINT64_SPAN.

#[export] Instance is_i32_dec z : Decision (is_i32 z).
Proof. unfold is_i32. apply _. Defined.
#[export] Instance is_i64_dec z : Decision (is_i64 z).
Proof. unfold is_i64. apply _. Defined.
#[export] Instance is_u32_dec z : Decision (is_u32 z).
Proof. unfold is_u32. apply _. Defined.
#[export] Instance is_u64_dec z : Decision (is_u64 z).
Proof. unfold is_u64. apply _. Defined.

Lemma u32_range z : is_u32 (u32 z).
Proof. unfold is_u32, u32. divlia. Qed.
Lemma u64_range z : is_u64 (u64 z).
Proof. unfold is_u64, u64. divlia. Qed.
Lemma u32_id z : is_u32 z -> u32 z = z.
Proof. unfold is_u32, u32. divlia. Qed.
Lemma u64_id z : is_u64 z -> u64 z = z.
Proof. unfold is_u64, u64. divlia. Qed.
Lemma s32_range z : is_i32 (s32 z).
Proof. unfold is_i32, s32, u32. case_match; divlia. Qed.
Lemma s64_range z : is_i64 (s64 z).
Proof. unfold is_i64, s64, u64. case_match; divlia. Qed.
Lemma s32_id z : is_i32 z -> s32 z = z.
Proof. unfold is_i32, s32, u32. case_match; divlia. Qed.
Lemma s64_id z : is_i64 z -> s64 z = z.
Proof. unfold is_i64, s64, u64. case_match; divlia. Qed.
Lemma s32_u32 z : s32 (u32 z) = s32 z.
Proof. unfold s32, u32. rewrite Zmod_mod. done. Qed.
Lemma s64_u64 z : s64 (u64 z) = s64 z.
Proof. unfold s64, u64. rewrite Zmod_mod. done. Qed.
Lemma u32_s32 z : u32 (s32 z) = u32 z.
Proof. unfold s32, u32. case_match; divlia. Qed.
Lemma u64_s64 z : u64 (s64 z) = u64 z.
Proof. unfold s64, u64. case_match; divlia. Qed.

(** ** Outcomes

    A C function either returns, stops the process ([abort()], a failed
    [BV_ASSERT] in the default checked mode), or has undefined behaviour (an
    access outside the addressable bytes). *)
Inductive outcome (A : Type) : Type :=
| Done (a : A)
| Abort
| Undef.
Arguments Done {A} a.
Arguments Abort {A}.
Arguments Undef {A}.

Definition obind {A B} (x : outcome A) (k : A -> outcome B) : outcome B :=
  match x with Done a => k a | Abort => Abort | Undef => Undef end.
Definition omap_outcome {A B} (f : A -> B) (x : outcome A) : outcome B :=
  obind x (fun a => Done (f a)).

Declare Scope outcome_scope.
Notation "'let*' x ':=' e 'in' k" := (obind e (fun x => k))
  (at level 10, x pattern, e at level 200, k at level 200) : outcome_scope.
(** [BV_ASSERT(b)], [assert(b)]. *)
Notation "'assert!' b 'in' k" := (if b then k else Abort)
  (at level 10, b at level 200, k at level 200) : outcome_scope.
Open Scope outcome_scope.

Definition returns {A} (x : outcome A) : Prop := exists a, x = Done a.
(** No access outside the addressable memory happened. *)
Definition no_ub {A} (x : outcome A) : Prop := x <> Undef.

Lemma obind_done {A B} (x : outcome A) (k : A -> outcome B) (b : B) :
  obind x k = Done b <-> exists a, x = Done a /\ k a = Done b.
Proof.
  destruct x; simpl; split; intros H; try (by destruct H as (? & ? & ?)); eauto; try done.
  destruct H as (? & [= ->] & ?). done.
Qed.
Lemma obind_no_ub {A B} (x : outcome A) (k : A -> outcome B) :
  no_ub x -> (forall a, x = Done a -> no_ub (k a)) -> no_ub (obind x k).
Proof. destruct x; unfold no_ub; naive_solver. Qed.

(** One step of a run whose head is known. *)
Ltac ostep := cbn [obind omap_outcome].

(** Case analysis of a run that returned. *)
Ltac inv_done :=
  repeat match goal with
  | H : obind _ _ = Done _ |- _ =>
      apply obind_done in H; destruct H as (? & ? & H); cbv beta zeta in H
  | H : (let _ := _ in _) = Done _ |- _ => cbv beta zeta in H
  | H : Done _ = Done _ |- _ => injection H as H; subst
  | H : Abort = Done _ |- _ => discriminate H
  | H : Undef = Done _ |- _ => discriminate H
  | H : (if ?b then _ else Abort) = Done _ |- _ =>
      let E := fresh "E" in destruct b eqn:E; [| discriminate H]
  end.

(** ** Bytes *)

#[export] Instance byte_eq_decision : EqDecision byte := Byte.byte_eq_dec.

(** The value of an octet, and the octet of a value cut to eight bits. *)
Definition b2z (b : byte) : Z := Z.of_N (Byte.to_N b).
Definition z2b (z : Z) : byte :=
  match Byte.of_N (Z.to_N (z mod 256)) with Some b => b | None => x00 end.

Lemma b2z_range b : 0 <= b2z b < 256.
Proof. unfold b2z. pose proof (Byte.to_N_bounded b). lia. Qed.
Lemma b2z_z2b z : b2z (z2b z) = z mod 256.
Proof.
  unfold b2z, z2b. assert (0 <= z mod 256 < 256) as Hr by divlia.
  case_match eqn:E.
  - apply Byte.to_of_N in E. rewrite E. lia.
  - apply Byte.of_N_None_iff in E. lia.
Qed.
Lemma z2b_b2z b : z2b (b2z b) = b.
Proof. destruct b; reflexivity. Qed.
Lemma b2z_inj a b : b2z a = b2z b -> a = b.
Proof. intros H. rewrite <- (z2b_b2z a), H. apply z2b_b2z. Qed.
Lemma b2z_0_iff b : b2z b = 0 <-> b = x00.
Proof. split; [intros; apply b2z_inj; done | by intros ->]. Qed.

(** Length of a list as an integer. *)
Definition zlen {A} (l : list A) : Z := Z.of_nat (length l).
Lemma zlen_nonneg {A} (l : list A) : 0 <= zlen l.
Proof. unfold zlen. lia. Qed.
Lemma zlen_nil {A} : zlen (@nil A) = 0.
Proof. done. Qed.
Lemma zlen_cons {A} (x : A) l : zlen (x :: l) = 1 + zlen l.
Proof. unfold zlen. simpl. lia. Qed.
Lemma zlen_app {A} (l k : list A) : zlen (l ++ k) = zlen l + zlen k.
Proof. unfold zlen. rewrite length_app. lia. Qed.

(** ** Addressed memory

    A block of addressable bytes: the address of its first byte and its
    contents.  The null pointer is the address 0. *)
Record block : Type := mk_block { b_base : Z; b_bytes : list byte }.

Definition b_end (m : block) : Z := b_base m + zlen (b_bytes m).

(** [*a]: one byte. *)
Definition rd8 (m : block) (a : Z) : outcome byte :=
  if b_base m <=? a then
    match b_bytes m !! Z.to_nat (a - b_base m) with
    | Some b => Done b
    | None => Undef
    end
  else Undef.

(** [n] bytes from address [a]; reading no byte dereferences nothing. *)
Definition rd_range (m : block) (a n : Z) : outcome (list byte) :=
  if n =? 0 then Done [] else
  if (b_base m <=? a) && (0 <=? n) && (a + n <=? b_end m) then
    Done (take (Z.to_nat n) (drop (Z.to_nat (a - b_base m)) (b_bytes m)))
  else Undef.

(** Store the bytes [bs] at address [a]. *)
Definition wr_range (m : block) (a : Z) (bs : list byte) : outcome block :=
  if zlen bs =? 0 then Done m else
  if (b_base m <=? a) && (a + zlen bs <=? b_end m) then
    let o := Z.to_nat (a - b_base m) in
    Done (mk_block (b_base m)
            (take o (b_bytes m) ++ bs ++ drop (o + length bs) (b_bytes m)))
  else Undef.

(** Index of the first null byte. *)
Fixpoint nul_index (l : list byte) : option Z :=
  match l with
  | [] => None
  | b :: l => if decide (b = x00) then Some 0 else Z.succ <$> nul_index l
  end.

(** The bytes addressable from [a] on. *)
Definition bytes_from (m : block) (a : Z) : list byte :=
  if b_base m <=? a then drop (Z.to_nat (a - b_base m)) (b_bytes m) else [].

(** [strlen(a)]: the scan stops at the first null byte, and is undefined when
    there is none before the end of the block. *)
Definition strlen (m : block) (a : Z) : outcome Z :=
  match nul_index (bytes_from m a) with
  | Some n => Done n
  | None => Undef
  end.

(** ** What a block holds at an address *)

(** The bytes [l] lie at address [a] of [m]. *)
Definition bytes_at (m : block) (a : Z) (l : list byte) : Prop :=
  exists pre post, b_bytes m = pre ++ l ++ post /\ a = b_base m + zlen pre.

Ltac zlens := rewrite ?zlen_app, ?zlen_cons, ?zlen_nil in *; unfold zlen in *.

Lemma bytes_at_app_l m a l k : bytes_at m a (l ++ k) -> bytes_at m a l.
Proof. intros (pre & post & E & ->). exists pre, (k ++ post). by rewrite <- app_assoc in E. Qed.
Lemma bytes_at_app_r m a l k : bytes_at m a (l ++ k) -> bytes_at m (a + zlen l) k.
Proof.
  intros (pre & post & E & ->). exists (pre ++ l), post.
  rewrite zlen_app, <- !app_assoc in *. split; [done | lia].
Qed.
Lemma bytes_at_app m a l k :
  bytes_at m a (l ++ k) <-> bytes_at m a l /\ bytes_at m (a + zlen l) k.
Proof.
  split; [eauto using bytes_at_app_l, bytes_at_app_r|].
  intros [(pre & post & E & ->) (pre' & post' & E' & Ha)].
  exists pre, (drop (length k) post). split; [|done].
  rewrite E. f_equal. rewrite <- app_assoc. f_equal.
  rewrite E, app_assoc in E'. assert (length pre' = length (pre ++ l)) as Hl
    by (rewrite length_app; unfold zlen in Ha; lia).
  apply app_inj_1 in E' as [_ ->]; [|done]. by rewrite drop_app_length.
Qed.
Lemma bytes_at_cons m a b l :
  bytes_at m a (b :: l) <-> bytes_at m a [b] /\ bytes_at m (a + 1) l.
Proof. apply (bytes_at_app m a [b] l). Qed.
Lemma bytes_at_bounds m a l :
  bytes_at m a l -> b_base m <= a /\ a + zlen l <= b_end m.
Proof.
  intros (pre & post & E & ->). unfold b_end. rewrite E. rewrite !zlen_app.
  pose proof (zlen_nonneg pre). pose proof (zlen_nonneg post). lia.
Qed.

Lemma zlen_to_nat {A} (l : list A) : Z.to_nat (zlen l) = length l.
Proof. unfold zlen. lia. Qed.

Lemma rd8_at m a b : bytes_at m a [b] -> rd8 m a = Done b.
Proof.
  intros (pre & post & E & ->). unfold rd8. pose proof (zlen_nonneg pre).
  destruct (Z.leb_spec (b_base m) (b_base m + zlen pre)); [|lia].
  replace (b_base m + zlen pre - b_base m) with (zlen pre) by lia.
  rewrite zlen_to_nat, E. simpl. by rewrite list_lookup_middle.
Qed.

Lemma rd8_done m a b : rd8 m a = Done b -> bytes_at m a [b].
Proof.
  unfold rd8. repeat case_match; try done. intros [= ->].
  exists (take (Z.to_nat (a - b_base m)) (b_bytes m)),
         (drop (S (Z.to_nat (a - b_base m))) (b_bytes m)).
  split; [simpl; by rewrite take_drop_middle|].
  apply lookup_lt_Some in H0. unfold zlen. rewrite length_take. lia.
Qed.

Lemma rd8_bounds m a b : rd8 m a = Done b -> b_base m <= a < b_end m.
Proof.
  intros H. apply rd8_done, bytes_at_bounds in H.
  rewrite zlen_cons, zlen_nil in H. lia.
Qed.

Lemma rd8_in m a : b_base m <= a < b_end m -> exists b, rd8 m a = Done b.
Proof.
  intros [Hl Hh]. unfold rd8, b_end, zlen in *.
  destruct (Z.leb_spec (b_base m) a); [|lia].
  destruct (lookup_lt_is_Some_2 (b_bytes m) (Z.to_nat (a - b_base m))) as [b ->]; [lia|].
  eauto.
Qed.

Lemma rd_range_at m a l : bytes_at m a l -> rd_range m a (zlen l) = Done l.
Proof.
  intros H. pose proof (bytes_at_bounds _ _ _ H) as [Hb He].
  destruct H as (pre & post & E & ->). unfold rd_range.
  destruct (Z.eqb_spec (zlen l) 0) as [H0|H0].
  { destruct l; [done|]. rewrite zlen_cons in H0. pose proof (zlen_nonneg l). lia. }
  pose proof (zlen_nonneg l).
  destruct (_ && _) eqn:C; [|lia].
  replace (b_base m + zlen pre - b_base m) with (zlen pre) by lia.
  rewrite !zlen_to_nat, E, drop_app_length, take_app_length. done.
Qed.

Lemma rd_range_in m a n :
  b_base m <= a -> 0 <= n -> a + n <= b_end m ->
  exists l, rd_range m a n = Done l /\ zlen l = n /\ bytes_at m a l.
Proof.
  intros Ha Hn He. exists (take (Z.to_nat n) (drop (Z.to_nat (a - b_base m)) (b_bytes m))).
  assert (zlen (take (Z.to_nat n) (drop (Z.to_nat (a - b_base m)) (b_bytes m))) = n) as Hlen.
  { unfold b_end, zlen in *. rewrite length_take, length_drop. lia. }
  assert (bytes_at m a (take (Z.to_nat n) (drop (Z.to_nat (a - b_base m)) (b_bytes m)))).
  { exists (take (Z.to_nat (a - b_base m)) (b_bytes m)),
      (drop (Z.to_nat n) (drop (Z.to_nat (a - b_base m)) (b_bytes m))).
    rewrite !take_drop. split; [done|]. unfold b_end, zlen in *. rewrite length_take. lia. }
  split_and!; [|done|done]. rewrite <- Hlen at 1. by apply rd_range_at.
Qed.

Lemma bytes_at_in m a n :
  b_base m <= a -> 0 <= n -> a + n <= b_end m ->
  exists l, zlen l = n /\ bytes_at m a l.
Proof. intros Ha Hn He. destruct (rd_range_in m a n Ha Hn He) as (l & _ & ? & ?). eauto. Qed.

(** A store over bytes of the same length. *)
Lemma wr_range_at m pre old post bs :
  b_bytes m = pre ++ old ++ post -> zlen old = zlen bs ->
  wr_range m (b_base m + zlen pre) bs = Done (mk_block (b_base m) (pre ++ bs ++ post)).
Proof.
  intros E Hl. unfold wr_range.
  destruct (Z.eqb_spec (zlen bs) 0) as [H0|H0].
  { destruct bs; [|rewrite zlen_cons in H0; pose proof (zlen_nonneg bs); lia].
    destruct old; [|rewrite zlen_cons, zlen_nil in Hl; pose proof (zlen_nonneg old); lia].
    rewrite <- E. by destruct m. }
  assert (b_end m = b_base m + zlen pre + zlen old + zlen post)
    by (unfold b_end; rewrite E, !zlen_app; lia).
  pose proof (zlen_nonneg pre). pose proof (zlen_nonneg post).
  destruct (_ && _) eqn:C; [|lia].
  replace (b_base m + zlen pre - b_base m) with (zlen pre) by lia.
  rewrite !zlen_to_nat, E, take_app_length. do 2 f_equal. f_equal. f_equal.
  rewrite app_assoc, drop_app_ge by (rewrite length_app; unfold zlen in *; lia).
  rewrite length_app. replace (_ - _)%nat with 0%nat by (unfold zlen in *; lia). done.
Qed.

(** [bytes_at], one byte at a time. *)
Lemma bytes_at_lookup m a l :
  bytes_at m a l <-> b_base m <= a /\ a + zlen l <= b_end m /\
    forall i b, l !! i = Some b -> b_bytes m !! (Z.to_nat (a - b_base m) + i)%nat = Some b.
Proof.
  split.
  - intros H. destruct (bytes_at_bounds _ _ _ H). split_and!; [done..|]. intros i b Hi.
    destruct H as (pre & post & E & ->).
    replace (b_base m + zlen pre - b_base m) with (zlen pre) by lia.
    rewrite zlen_to_nat, E, lookup_app_r by lia.
    replace (length pre + i - length pre)%nat with i by lia. by apply lookup_app_l_Some.
  - intros (Hb & He & Hl). destruct (bytes_at_in m a (zlen l)) as (k & Hk & Hat).
    { done. } { apply zlen_nonneg. } { done. }
    replace l with k; [done|]. apply list_eq_same_length with (n := length l);
      [done | unfold zlen in Hk; lia|].
    intros i x y _ Hx Hy. apply Hl in Hy. destruct Hat as (pre & post & E & ->).
    rewrite E, lookup_app_r in Hy by (unfold zlen; lia).
    replace (_ - _)%nat with i in Hy by (unfold zlen; lia).
    rewrite lookup_app_l in Hy by (by eapply lookup_lt_Some). congruence.
Qed.

(** A store leaves the bytes before and after its range alone. *)
Lemma bytes_at_frame m m' a bs b l :
  wr_range m a bs = Done m' -> bytes_at m b l ->
  b + zlen l <= a \/ a + zlen bs <= b -> bytes_at m' b l.
Proof.
  intros Hw Hat Hd. unfold wr_range in Hw.
  destruct (Z.eqb_spec (zlen bs) 0); [by injection Hw as <-|].
  destruct (_ && _) eqn:C; [|done]. injection Hw as <-.
  apply andb_true_iff in C as [C1%Z.leb_le C2%Z.leb_le].
  rewrite bytes_at_lookup in *. unfold b_end in *. simpl in *. destruct Hat as (H1 & H2 & H3).
  split; [done|]. split; [unfold zlen in *; rewrite !length_app, length_take, length_drop; lia|].
  intros i x Hi. pose proof (lookup_lt_Some _ _ _ Hi) as Hlt. apply H3 in Hi. unfold zlen in *.
  destruct Hd.
  - rewrite lookup_app_l by (rewrite length_take; lia). by rewrite lookup_take_lt by lia.
  - rewrite app_assoc, lookup_app_r by (rewrite length_app, length_take; lia).
    rewrite lookup_drop, length_app, length_take. rewrite <- Hi. f_equal. lia.
Qed.

(** ** Null-terminated strings *)

Lemma nul_index_app l k : x00 ∉ l -> nul_index (l ++ x00 :: k) = Some (zlen l).
Proof.
  induction l as [|b l IH]; simpl; intros Hn; [done|].
  case_decide; [set_solver|]. rewrite IH by set_solver. simpl. rewrite zlen_cons. f_equal. lia.
Qed.

Lemma nul_index_some l n :
  nul_index l = Some n ->
  exists s k, l = s ++ x00 :: k /\ x00 ∉ s /\ n = zlen s.
Proof.
  revert n. induction l as [|b l IH]; simpl; intros n H; [done|].
  case_decide as D.
  - injection H as <-. exists [], l. subst. split_and!; [done | set_solver | done].
  - apply fmap_Some in H as (n' & H & ->). destruct (IH _ H) as (s & k & -> & Hs & ->).
    exists (b :: s), k. rewrite zlen_cons. split_and!; [done | set_solver | lia].
Qed.

Lemma nul_index_in l : x00 ∈ l -> is_Some (nul_index l).
Proof.
  induction l as [|b l IH]; simpl; intros H; [set_solver|].
  case_decide; [eauto|]. destruct IH as [n ->]; [set_solver|]. eauto.
Qed.

Lemma bytes_from_at m a l : bytes_at m a l -> exists k, bytes_from m a = l ++ k.
Proof.
  intros (pre & post & E & ->). exists post. unfold bytes_from. pose proof (zlen_nonneg pre).
  destruct (Z.leb_spec (b_base m) (b_base m + zlen pre)); [|lia].
  replace (b_base m + zlen pre - b_base m) with (zlen pre) by lia.
  by rewrite zlen_to_nat, E, drop_app_length.
Qed.

Lemma strlen_at m a s : bytes_at m a (s ++ [x00]) -> x00 ∉ s -> strlen m a = Done (zlen s).
Proof.
  intros H Hs. destruct (bytes_from_at _ _ _ H) as [k E]. unfold strlen.
  rewrite E, <- app_assoc. simpl. by rewrite nul_index_app.
Qed.

(** A null byte further in the block bounds the scan. *)
Lemma strlen_bounded m a e :
  b_base m <= a <= e -> bytes_at m e [x00] ->
  exists s, strlen m a = Done (zlen s) /\ x00 ∉ s /\ bytes_at m a (s ++ [x00]) /\
            a + zlen s <= e.
Proof.
  intros [Ha He] Hz. pose proof (bytes_at_bounds _ _ _ Hz) as [_ Hend].
  rewrite zlen_cons, zlen_nil in Hend.
  destruct (bytes_at_in m a (e - a)) as (l & Hl & Hat); [lia..|].
  assert (bytes_at m a (l ++ [x00])) as Hall
    by (apply bytes_at_app; split; [done|]; by replace (a + zlen l) with e by lia).
  destruct (nul_index_in (l ++ [x00])) as [n Hn]; [set_solver|].
  destruct (nul_index_some _ _ Hn) as (s & k & Es & Hs & ->).
  exists s. assert (bytes_at m a (s ++ [x00])) as Hat'.
  { rewrite Es in Hall. apply (bytes_at_app_l _ _ _ k). by rewrite <- app_assoc. }
  split_and!; [by apply strlen_at | done | done |].
  assert (zlen (l ++ [x00]) = zlen (s ++ x00 :: k)) as Hz2 by (by rewrite Es).
  rewrite !zlen_app, !zlen_cons, zlen_nil in Hz2. pose proof (zlen_nonneg k). lia.
Qed.

(** Checking [bytes_at] on a concrete block. *)
Definition bytes_at_b (m : block) (a : Z) (l : list byte) : bool :=
  (b_base m <=? a) &&
  bool_decide (take (length l) (drop (Z.to_nat (a - b_base m)) (b_bytes m)) = l) &&
  (a + zlen l <=? b_end m).

Lemma bytes_at_check m a l : bytes_at_b m a l = true -> bytes_at m a l.
Proof.
  unfold bytes_at_b. rewrite !andb_true_iff, bool_decide_eq_true, !Z.leb_le.
  intros [[H1 H2] H3]. set (n := Z.to_nat (a - b_base m)) in *.
  assert (length (take n (b_bytes m)) = n) as Hn.
  { rewrite length_take. unfold b_end, zlen in H3. lia. }
  exists (take n (b_bytes m)), (drop (length l) (drop n (b_bytes m))). split.
  - rewrite <- H2 at 1. by rewrite !take_drop.
  - unfold zlen. rewrite Hn. lia.
Qed.

(** A block at address 4096 given by its octets. *)
Definition block_of (l : list Z) : block := mk_block 4096 (map z2b l).
