(* ===== verification/Integer.v ===== *)
(** * Checked integer arithmetic ([include/mlib/integer.h])

    [mlib_integer] is a 64-bit value with a set of error flags; every operation
    accumulates the flags of its operands and adds its own.  The [mlibMath]
    macros compose these operations, and a [mlib_math_try] scope remembers the
    last failing cast.  The exact meaning of an expression is [exact]; the
    theorems relate the checked evaluation to it. *)
From Stdlib Require Import ZArith Lia.
From Stdlib Require Import Strings.Byte.
From stdpp Require Import base numbers list sets.
From S2P Require Import Prelude.
Open Scope Z_scope.

(** ** Overflow predicates *)

(** [left * right] would leave [int64_t]; C division truncates. *)
Definition _mlib_i64_mul_would_overflow (left right : Z) : bool :=
  if right =? -1 then left =? INT64_MIN
  else if right =? 0 then false
  else if left >? 0 then
    if right >? 0 then
      let max_fac := Z.quot INT64_MAX right in left >? max_fac
    else
      let min_fac := Z.quot INT64_MIN left in right <? min_fac
  else
    if right >? 0 then
      let min_fac := Z.quot INT64_MIN right in left <? min_fac
    else
      if left =? 0 then false
      else let max_fac := Z.quot INT64_MAX left in right <? max_fac.

Definition _mlib_i64_add_would_overflow (left right : Z) : bool :=
  if right <? 0 then
    let legroom := INT64_MIN - right in left <? legroom
  else if right >? 0 then
    let headroom := INT64_MAX - right in left >? headroom
  else false.

Definition _mlib_i64_sub_would_overflow (left right : Z) : bool :=
  if right >? 0 then _mlib_i64_add_would_overflow left (- right)
  else if right <? 0 then
    if left >? 0 then _mlib_i64_add_would_overflow (- left) right
    else false
  else false.

(** ** Flags and checked integers *)

(** [enum mlib_integer_flags]. *)
Definition mlib_integer_okay : Z := 0.
Definition mlib_integer_add_overflow : Z := Z.shiftl 1 0.
Definition mlib_integer_sub_overflow : Z := Z.shiftl 1 1.
Definition mlib_integer_mul_overflow : Z := Z.shiftl 1 2.
Definition mlib_integer_div_overflow : Z := Z.shiftl 1 3.
Definition mlib_integer_bounds : Z := Z.shiftl 1 4.
Definition mlib_integer_zerodiv : Z := Z.shiftl 1 5.
Definition mlib_integer_allbits : Z := Z.shiftl 1 6 - 1.

Record mlib_integer : Type := mk_mlib_integer { i64 : Z; flags : Z }.

Definition _mlib_math_clear_flags (v : mlib_integer) (f : Z) : mlib_integer :=
  mk_mlib_integer (i64 v) (Z.land (flags v) (Z.lnot f)).
Definition _mlib_math_set_flags (v : mlib_integer) (f : Z) : mlib_integer :=
  mk_mlib_integer (i64 v) (Z.lor f (flags v)).
Definition with_i64 (v : mlib_integer) (z : Z) : mlib_integer :=
  mk_mlib_integer z (flags v).

(** The argument is converted to [int64_t] by the call. *)
Definition _mlib_math_from_i64 (val : Z) : mlib_integer :=
  mk_mlib_integer (s64 val) mlib_integer_okay.
Definition _mlib_math_from_u64 (val : Z) : mlib_integer :=
  let v := _mlib_math_from_i64 (u64 val) in
  if u64 val >? INT64_MAX then _mlib_math_set_flags v mlib_integer_bounds else v.

Definition _mlib_math_add (l r : mlib_integer) (saturate : bool) : mlib_integer :=
  let l := _mlib_math_set_flags l (flags r) in
  let wrapped l := with_i64 l (s64 (u64 (u64 (i64 l) + u64 (i64 r)))) in
  if _mlib_i64_add_would_overflow (i64 l) (i64 r) then
    let l := _mlib_math_set_flags l mlib_integer_add_overflow in
    if saturate then
      if i64 l >? 0 then with_i64 l INT64_MAX else with_i64 l INT64_MIN
    else wrapped l
  else wrapped l.

Definition _mlib_math_sub (l r : mlib_integer) : mlib_integer :=
  let l := _mlib_math_set_flags l (flags r) in
  let l := if _mlib_i64_sub_would_overflow (i64 l) (i64 r)
           then _mlib_math_set_flags l mlib_integer_sub_overflow else l in
  with_i64 l (s64 (u64 (u64 (i64 l) - u64 (i64 r)))).

Definition _mlib_math_mul (l r : mlib_integer) (saturate : bool) : mlib_integer :=
  let l := _mlib_math_set_flags l (flags r) in
  let wrapped l := with_i64 l (s64 (u64 (u64 (i64 l) * u64 (i64 r)))) in
  if _mlib_i64_mul_would_overflow (i64 l) (i64 r) then
    let l := _mlib_math_set_flags l mlib_integer_mul_overflow in
    if saturate then
      if negb (Bool.eqb (i64 l <? 0) (i64 r <? 0))
      then with_i64 l INT64_MIN else with_i64 l INT64_MAX
    else wrapped l
  else wrapped l.

Definition _mlib_math_check_bounds (min max value : mlib_integer) : mlib_integer :=
  let value := _mlib_math_set_flags value (flags min) in
  let value := _mlib_math_set_flags value (flags max) in
  if i64 value <? i64 min then
    with_i64 (_mlib_math_set_flags value mlib_integer_bounds) (i64 min)
  else if i64 value >? i64 max then
    with_i64 (_mlib_math_set_flags value mlib_integer_bounds) (i64 max)
  else value.

Definition _mlib_math_div (num den : mlib_integer) : mlib_integer :=
  let num := _mlib_math_set_flags num (flags den) in
  if i64 den =? 0 then
    with_i64 (_mlib_math_set_flags num mlib_integer_zerodiv) INT64_MAX
  else if (i64 num =? INT64_MIN) && (i64 den =? -1) then
    with_i64 (_mlib_math_set_flags num mlib_integer_div_overflow) 0
  else with_i64 num (Z.quot (i64 num) (i64 den)).

(** The counting loop [while (ret < maxlen && string[ret]) ++ret] over the
    bytes [l] that are addressable from [string + ret]. *)
Fixpoint strnlen_loop (l : list byte) (ret maxlen : Z) : outcome Z :=
  if ret <? maxlen then
    match l with
    | [] => Undef
    | c :: l => if decide (c = Byte.x00) then Done ret else strnlen_loop l (ret + 1) maxlen
    end
  else Done ret.

Definition _mlib_math_strnlen (m : block) (string : Z) (maxlen : mlib_integer)
  : outcome mlib_integer :=
  if negb (flags maxlen =? 0) then Done (mk_mlib_integer 0 (flags maxlen))
  else if i64 maxlen <? 0 then Done (mk_mlib_integer 0 mlib_integer_bounds)
  else
    let* ret := strnlen_loop (bytes_from m string) 0 (i64 maxlen) in
    Done (mk_mlib_integer ret mlib_integer_okay).

Definition _mlib_math_assert_not_flags (f : Z) (v : mlib_integer) : outcome mlib_integer :=
  if negb (Z.land f (flags v) =? 0) then Abort else Done v.

(** ** The [mlibMath] sub-expressions *)

Module mlibMath.

Definition I (x : Z) : mlib_integer := _mlib_math_from_i64 x.
Definition U (x : Z) : mlib_integer := _mlib_math_from_u64 x.
Definition add (a b : mlib_integer) : mlib_integer := _mlib_math_add a b false.
Definition addSat (a b : mlib_integer) : mlib_integer := _mlib_math_add a b true.
Definition sub (a b : mlib_integer) : mlib_integer := _mlib_math_sub a b.
Definition mul (a b : mlib_integer) : mlib_integer := _mlib_math_mul a b false.
Definition mulSat (a b : mlib_integer) : mlib_integer := _mlib_math_mul a b true.
Definition neg (n : mlib_integer) : mlib_integer := sub (I 0) n.

Definition checkBounds (min max v : mlib_integer) : mlib_integer :=
  _mlib_math_check_bounds min max v.
Definition checkMin (min v : mlib_integer) : mlib_integer := checkBounds min (I INT64_MAX) v.
Definition checkMax (max v : mlib_integer) : mlib_integer := checkBounds (I INT64_MIN) max v.
Definition checkInt32 (v : mlib_integer) : mlib_integer :=
  checkBounds (I INT32_MIN) (I INT32_MAX) v.
Definition checkNonNegativeInt32 (v : mlib_integer) : mlib_integer :=
  checkBounds (I 0) (I INT32_MAX) v.
Definition checkPositiveInt32 (v : mlib_integer) : mlib_integer :=
  checkBounds (I 1) (I INT32_MAX) v.
Definition checkInt16 (v : mlib_integer) : mlib_integer :=
  checkBounds (I INT16_MIN) (I INT16_MAX) v.
Definition checkNonNegativeInt16 (v : mlib_integer) : mlib_integer :=
  checkBounds (I 0) (I INT64_MAX) v.
Definition checkPositiveInt16 (v : mlib_integer) : mlib_integer :=
  checkBounds (I 1) (I INT64_MAX) v.
Definition checkNonNegative (v : mlib_integer) : mlib_integer :=
  checkBounds (I 0) (I INT64_MAX) v.
Definition checkPositive (v : mlib_integer) : mlib_integer :=
  checkBounds (I 1) (I INT64_MAX) v.

(** [strnlen32(s, n)] and [strlen32(s)]. *)
Definition strnlen32 (m : block) (s : Z) (maxlen : mlib_integer) : outcome mlib_integer :=
  omap_outcome checkInt32 (_mlib_math_strnlen m s maxlen).
Definition strlen32 (m : block) (s : Z) : outcome mlib_integer :=
  omap_outcome (fun n => checkInt32 (U n)) (strlen m s).

(** ** Failure scopes: [mlib_math_try] / [mlib_math_catch] *)

(** [struct mlib_math_fail_info]; the file and line of the failing cast are
    diagnostics only. *)
Record mlib_math_fail_info : Type := mk_fail_info { fi_i64 : Z; fi_flags : Z }.
Definition mlib_math_try : mlib_math_fail_info := mk_fail_info 0 mlib_integer_okay.

Definition _mlibMathFillFailureInfo (info : mlib_math_fail_info) (v : mlib_integer)
  : mlib_math_fail_info :=
  if negb (flags v =? 0) then mk_fail_info (i64 v) (flags v) else info.

(** [cast(Type, V)]: the failure is recorded, the value converted. *)
Definition cast (conv : Z -> Z) (info : mlib_math_fail_info) (v : mlib_integer)
  : mlib_math_fail_info * Z :=
  (_mlibMathFillFailureInfo info v, conv (i64 v)).

Definition castInt32 (info : mlib_math_fail_info) (v : mlib_integer) :=
  cast s32 info (checkInt32 v).
Definition castUInt32 (info : mlib_math_fail_info) (v : mlib_integer) :=
  cast u32 info (checkNonNegativeInt32 v).
Definition mlibMathInt32 (info : mlib_math_fail_info) (v : mlib_integer) := castInt32 info v.
Definition mlibMathPositiveInt32 (info : mlib_math_fail_info) (v : mlib_integer) :=
  castInt32 info (checkPositiveInt32 v).
Definition mlibMathNonNegativeInt32 (info : mlib_math_fail_info) (v : mlib_integer) :=
  castInt32 info (checkNonNegative v).

(** [mlib_math_catch(E) { handler }  rest]. *)
Definition mlib_math_catch {A} (info : mlib_math_fail_info) (handler rest : A) : A :=
  if fi_flags info =? 0 then rest else handler.

End mlibMath.
Import mlibMath.

(** ** Overflow predicates are exact *)

Lemma quot_pos_bounds n d : 0 <= n -> 0 < d -> d * (n ÷ d) <= n < d * (n ÷ d) + d.
Proof. intros. rewrite Z.quot_div_nonneg by lia. divlia. Qed.

Lemma add_would_overflow_spec l r :
  is_i64 l -> is_i64 r ->
  _mlib_i64_add_would_overflow l r = true <-> ~ is_i64 (l + r).
Proof.
  unfold is_i64, _mlib_i64_add_would_overflow. intros.
  repeat case_match; lia.
Qed.

Lemma mul_pos_overflow l r M :
  0 < l -> 0 < r -> 0 <= M -> (l >? M ÷ r) = true <-> M < l * r.
Proof.
  intros Hl Hr HM. pose proof (quot_pos_bounds M r HM Hr). nia.
Qed.

Lemma quot_opp_r_lt M l r :
  l < 0 -> r < 0 -> 0 <= M -> (r <? M ÷ l) = true <-> M < l * r.
Proof.
  intros Hl Hr HM.
  replace (M ÷ l) with (- (M ÷ - l)) by (rewrite Z.quot_opp_r; lia).
  pose proof (quot_pos_bounds M (- l) HM ltac:(lia)). nia.
Qed.

Lemma quot_neg_lt N l r :
  0 < l -> N <= 0 -> (r <? N ÷ l) = true <-> l * r < N.
Proof.
  intros Hl HN.
  replace (N ÷ l) with (- (- N ÷ l)) by (rewrite Z.quot_opp_l; lia).
  pose proof (quot_pos_bounds (- N) l ltac:(lia) Hl). nia.
Qed.

Lemma mul_would_overflow_spec l r :
  is_i64 l -> is_i64 r ->
  _mlib_i64_mul_would_overflow l r = true <-> ~ is_i64 (l * r).
Proof.
  unfold is_i64, _mlib_i64_mul_would_overflow. intros Hl Hr.
  repeat case_match; rewrite ?Z.gtb_ltb in *; try nia.
  - pose proof (mul_pos_overflow l r INT64_MAX ltac:(lia) ltac:(lia) ltac:(lia)) as P.
    rewrite Z.gtb_ltb in P. rewrite P. nia.
  - rewrite quot_neg_lt by lia. nia.
  - rewrite quot_neg_lt by lia. nia.
  - rewrite quot_opp_r_lt by lia. nia.
Qed.

(** Subtraction is decided through an addition of opposites, which is exact
    except at one value: a difference of exactly [INT64_MAX + 1]. *)
Lemma sub_would_overflow_spec l r :
  is_i64 l -> is_i64 r ->
  _mlib_i64_sub_would_overflow l r = true <->
  ~ is_i64 (l - r) /\ l - r <> INT64_MAX + 1.
Proof.
  intros Hl Hr. unfold _mlib_i64_sub_would_overflow. unfold is_i64 in *.
  repeat case_match; rewrite ?Z.gtb_ltb in *; try lia.
  - rewrite add_would_overflow_spec; unfold is_i64; lia.
  - rewrite add_would_overflow_spec; unfold is_i64; lia.
Qed.

(** ** Flags *)

Lemma lor_eq_0 a b : Z.lor a b = 0 <-> a = 0 /\ b = 0.
Proof. apply Z.lor_eq_0_iff. Qed.

Lemma s64_add l r : s64 (u64 (u64 l + u64 r)) = s64 (l + r).
Proof. unfold s64, u64. rewrite Zmod_mod, <- Zplus_mod. done. Qed.
Lemma s64_sub l r : s64 (u64 (u64 l - u64 r)) = s64 (l - r).
Proof. unfold s64, u64. rewrite Zmod_mod, <- Zminus_mod. done. Qed.
Lemma s64_mul l r : s64 (u64 (u64 l * u64 r)) = s64 (l * r).
Proof. unfold s64, u64. rewrite Zmod_mod, <- Zmult_mod. done. Qed.

(** The type invariant: the value fits [int64_t]. *)
Definition int_wf (v : mlib_integer) : Prop := is_i64 (i64 v).

(** An operand that carries no error. *)
Definition clean (v : mlib_integer) : Prop := flags v = 0.

#[export] Instance clean_dec v : Decision (clean v).
Proof. unfold clean. apply _. Defined.

(** From an exact overflow predicate that answered [false]. *)
Lemma exact_false (b : bool) z : (b = true <-> ~ is_i64 z) -> b = false -> is_i64 z.
Proof. intros H E. destruct (decide (is_i64 z)) as [|n]; [done|]. apply H in n. congruence. Qed.

Ltac flag_cases :=
  unfold clean in *; simpl in *; rewrite ?lor_eq_0 in *; simpl in *.
Ltac never_clean := flag_cases; split; [split; [intros [[=] _] | tauto] | intros [[=] _]].

(** What an operation promises: clean exactly when its operands are clean and
    the exact result is representable, and then the value is exact. *)
Lemma add_spec l r : int_wf l -> int_wf r ->
  (clean (add l r) <-> clean l /\ clean r /\ is_i64 (i64 l + i64 r)) /\
  (clean (add l r) -> i64 (add l r) = i64 l + i64 r).
Proof.
  intros Hl Hr. pose proof (add_would_overflow_spec _ _ Hl Hr) as Ho.
  unfold add, _mlib_math_add. simpl. case_match eqn:E.
  - assert (~ is_i64 (i64 l + i64 r)) by (by apply Ho). never_clean.
  - pose proof (exact_false _ _ Ho eq_refl).
    flag_cases. split; [tauto|]. intros _. rewrite s64_add. by apply s64_id.
Qed.

Lemma mul_spec l r : int_wf l -> int_wf r ->
  (clean (mul l r) <-> clean l /\ clean r /\ is_i64 (i64 l * i64 r)) /\
  (clean (mul l r) -> i64 (mul l r) = i64 l * i64 r).
Proof.
  intros Hl Hr. pose proof (mul_would_overflow_spec _ _ Hl Hr) as Ho.
  unfold mul, _mlib_math_mul. simpl. case_match eqn:E.
  - assert (~ is_i64 (i64 l * i64 r)) by (by apply Ho). never_clean.
  - pose proof (exact_false _ _ Ho eq_refl).
    flag_cases. split; [tauto|]. intros _. rewrite s64_mul. by apply s64_id.
Qed.

Lemma sub_spec l r : int_wf l -> int_wf r ->
  (clean (sub l r) <-> clean l /\ clean r /\ (is_i64 (i64 l - i64 r) \/ i64 l - i64 r = INT64_MAX + 1)) /\
  (clean (sub l r) -> i64 (sub l r) = s64 (i64 l - i64 r)).
Proof.
  intros Hl Hr. pose proof (sub_would_overflow_spec _ _ Hl Hr) as Ho.
  unfold sub, _mlib_math_sub. simpl. case_match eqn:E.
  - assert (~ (is_i64 (i64 l - i64 r) \/ i64 l - i64 r = INT64_MAX + 1)) by tauto. never_clean.
  - assert (is_i64 (i64 l - i64 r) \/ i64 l - i64 r = INT64_MAX + 1).
    { destruct (decide (i64 l - i64 r = INT64_MAX + 1)); [by right|left].
      eapply (exact_false false); [|done]. tauto. }
    flag_cases. split; [tauto|]. intros _. by rewrite s64_sub.
Qed.

Lemma quot_in_range n d :
  is_i64 n -> is_i64 d -> d <> 0 -> ~ (n = INT64_MIN /\ d = -1) -> is_i64 (n ÷ d).
Proof.
  unfold is_i64. intros Hn Hd H0 Hne.
  assert (Z.abs n = Z.abs d * (Z.abs n ÷ Z.abs d) + Z.rem (Z.abs n) (Z.abs d)) as He
    by apply Z.quot_rem'.
  pose proof (Z.rem_bound_pos (Z.abs n) (Z.abs d) ltac:(lia) ltac:(lia)).
  rewrite Z.quot_abs in He by lia.
  destruct (decide (d = -1)) as [->|]; [change (-1) with (Z.opp 1) in *; rewrite Z.quot_opp_r, Z.quot_1_r by lia; lia|].
  destruct (decide (d = 1)) as [->|]; [rewrite Z.quot_1_r; lia|].
  nia.
Qed.

Lemma div_spec l r : int_wf l -> int_wf r ->
  (clean (_mlib_math_div l r) <->
     clean l /\ clean r /\ i64 r <> 0 /\ is_i64 (i64 l ÷ i64 r)) /\
  (clean (_mlib_math_div l r) -> i64 (_mlib_math_div l r) = i64 l ÷ i64 r).
Proof.
  intros Hl Hr. unfold _mlib_math_div. simpl. repeat case_match; simpl.
  - assert (i64 r = 0) by lia. never_clean.
  - assert (i64 l = INT64_MIN /\ i64 r = -1) as [-> ->] by lia.
    assert (~ is_i64 (INT64_MIN ÷ -1)) by (vm_compute; intuition congruence). never_clean.
  - assert (is_i64 (i64 l ÷ i64 r)) by (apply quot_in_range; [exact Hl | exact Hr | lia | intros [El Er]; rewrite El, Er in *; done]).
    flag_cases. split; [|done]. split; [|tauto]. intros [? ?]. split_and!; try done; lia.
Qed.

Lemma bounds_spec lo hi v :
  (clean (checkBounds lo hi v) <->
     clean lo /\ clean hi /\ clean v /\ i64 lo <= i64 v <= i64 hi) /\
  (clean (checkBounds lo hi v) -> i64 (checkBounds lo hi v) = i64 v).
Proof.
  unfold checkBounds, _mlib_math_check_bounds. simpl. repeat case_match; flag_cases.
  - split; [split; [intros [[=] _] | lia] | intros [[=] _]].
  - split; [split; [intros [[=] _] | lia] | intros [[=] _]].
  - split; [|done]. split; [intros (? & ? & ?); repeat split; auto; lia | tauto].
Qed.

(** The bounds checks clamp, whatever the flags. *)
Lemma bounds_clamp lo hi v :
  i64 lo <= i64 hi -> i64 lo <= i64 (checkBounds lo hi v) <= i64 hi.
Proof.
  intros. unfold checkBounds, _mlib_math_check_bounds. simpl.
  repeat case_match; simpl in *; lia.
Qed.

(** ** The type invariant is preserved *)
Lemma I_wf z : int_wf (I z).
Proof. apply s64_range. Qed.
Lemma U_wf z : int_wf (U z).
Proof. unfold int_wf, U, _mlib_math_from_u64. case_match; apply s64_range. Qed.
Lemma add_wf l r sat : int_wf (_mlib_math_add l r sat).
Proof.
  unfold int_wf, _mlib_math_add. simpl.
  repeat case_match; simpl; try apply s64_range; vm_compute; intuition congruence.
Qed.
Lemma mul_wf l r sat : int_wf (_mlib_math_mul l r sat).
Proof.
  unfold int_wf, _mlib_math_mul. simpl.
  repeat case_match; simpl; try apply s64_range; vm_compute; intuition congruence.
Qed.
Lemma sub_wf l r : int_wf (_mlib_math_sub l r).
Proof. apply s64_range. Qed.
Lemma div_wf l r : int_wf l -> int_wf r -> int_wf (_mlib_math_div l r).
Proof.
  intros Hl Hr. unfold int_wf, _mlib_math_div. simpl. repeat case_match; simpl.
  - vm_compute; intuition congruence.
  - vm_compute; intuition congruence.
  - apply quot_in_range; [exact Hl | exact Hr | lia | intros [El Er]; rewrite El, Er in *; done].
Qed.
Lemma bounds_wf lo hi v : int_wf lo -> int_wf hi -> int_wf v -> int_wf (checkBounds lo hi v).
Proof.
  unfold int_wf, checkBounds, _mlib_math_check_bounds. simpl. intros.
  repeat case_match; simpl; done.
Qed.
Create HintDb mlib_int.
#[export] Hint Resolve I_wf U_wf add_wf mul_wf sub_wf div_wf bounds_wf : mlib_int.

(** ** Failure scopes *)

(** A scope without a recorded failure stays so exactly when the cast operand
    is clean. *)
Lemma fill_clean info v :
  fi_flags info = 0 ->
  fi_flags (_mlibMathFillFailureInfo info v) = 0 <-> clean v.
Proof. unfold _mlibMathFillFailureInfo, clean. intros. case_match; simpl; lia. Qed.

(** A recorded failure is never forgotten. *)
Lemma fill_sticky info v :
  fi_flags info <> 0 -> fi_flags (_mlibMathFillFailureInfo info v) <> 0.
Proof. unfold _mlibMathFillFailureInfo. intros. case_match; simpl; lia. Qed.

Section Casts.
Context (info : mlib_math_fail_info) (v : mlib_integer).

Lemma castInt32_value : snd (castInt32 info v) = i64 (checkInt32 v).
Proof.
  simpl. apply s32_id. apply (bounds_clamp (I INT32_MIN) (I INT32_MAX)). done.
Qed.

Lemma checkInt32_spec :
  (clean (checkInt32 v) <-> clean v /\ is_i32 (i64 v)) /\
  (clean (checkInt32 v) -> i64 (checkInt32 v) = i64 v).
Proof.
  unfold checkInt32. destruct (bounds_spec (I INT32_MIN) (I INT32_MAX) v) as [H1 H2].
  split; [|done]. rewrite H1. unfold is_i32.
  assert (clean (I INT32_MIN) /\ clean (I INT32_MAX)) as [? ?] by done.
  change (i64 (I INT32_MIN)) with INT32_MIN. change (i64 (I INT32_MAX)) with INT32_MAX.
  clear H1 H2. naive_solver.
Qed.
End Casts.

(** The range a bounded cast accepts. *)
Lemma cast_range_spec lo hi info v :
  is_i64 lo -> is_i64 hi -> fi_flags info = 0 ->
  let r := castInt32 info (checkBounds (I lo) (I hi) v) in
  (fi_flags (fst r) = 0 <->
     clean v /\ lo <= i64 v <= hi /\ is_i32 (i64 v)) /\
  (fi_flags (fst r) = 0 -> snd r = i64 v).
Proof.
  intros Hlo Hhi Hi r. subst r.
  destruct (bounds_spec (I lo) (I hi) v) as [B1 B2].
  destruct (checkInt32_spec (checkBounds (I lo) (I hi) v)) as [C1 C2].
  assert (i64 (I lo) = lo) as Elo by (by apply s64_id).
  assert (i64 (I hi) = hi) as Ehi by (by apply s64_id).
  assert (clean (I lo) /\ clean (I hi)) as [? ?] by done.
  rewrite castInt32_value. simpl. rewrite fill_clean by done.
  split.
  - rewrite Elo, Ehi in B1. rewrite C1. split.
    + intros [Hc Hr]. rewrite B2 in Hr by done. tauto.
    + intros (Cv & Hb & Hr). assert (clean (checkBounds (I lo) (I hi) v)) as Hc by tauto.
      rewrite B2 by done. tauto.
  - intros Hc. rewrite C2 by done. apply B2. by apply C1.
Qed.

Ltac range_iff := split; intros ?; destruct_and?; split_and?; (done || lia).

Lemma mlibMathNonNegativeInt32_spec info v :
  fi_flags info = 0 ->
  let r := mlibMathNonNegativeInt32 info v in
  (fi_flags (fst r) = 0 <-> clean v /\ 0 <= i64 v <= INT32_MAX) /\
  (fi_flags (fst r) = 0 -> snd r = i64 v).
Proof.
  intros Hi. destruct (cast_range_spec 0 INT64_MAX info v) as [H1 H2]; try done.
  split; [|done]. unfold is_i32 in H1. rewrite H1. range_iff.
Qed.
Lemma mlibMathPositiveInt32_spec info v :
  fi_flags info = 0 ->
  let r := mlibMathPositiveInt32 info v in
  (fi_flags (fst r) = 0 <-> clean v /\ 1 <= i64 v <= INT32_MAX) /\
  (fi_flags (fst r) = 0 -> snd r = i64 v).
Proof.
  intros Hi. destruct (cast_range_spec 1 INT32_MAX info v) as [H1 H2]; try done.
  split; [|done]. unfold is_i32 in H1. rewrite H1. range_iff.
Qed.
Lemma mlibMathInt32_spec info v :
  fi_flags info = 0 ->
  let r := mlibMathInt32 info v in
  (fi_flags (fst r) = 0 <-> clean v /\ is_i32 (i64 v)) /\
  (fi_flags (fst r) = 0 -> snd r = i64 v).
Proof.
  intros Hi r. subst r. unfold mlibMathInt32. rewrite castInt32_value. simpl.
  rewrite fill_clean by done. apply checkInt32_spec.
Qed.

(** ** Expressions *)

(** [mlibMath] expressions, and their exact meaning over the integers: [None]
    when some node has no representable value or fails its check. *)
Inductive mexpr : Type :=
| EInt (z : Z)
| EUnsigned (z : Z)
| EAdd (a b : mexpr)
| ESub (a b : mexpr)
| EMul (a b : mexpr)
| EDiv (a b : mexpr)
| EBounds (lo hi e : mexpr).

Fixpoint eval (e : mexpr) : mlib_integer :=
  match e with
  | EInt z => I z
  | EUnsigned z => U z
  | EAdd a b => add (eval a) (eval b)
  | ESub a b => sub (eval a) (eval b)
  | EMul a b => mul (eval a) (eval b)
  | EDiv a b => _mlib_math_div (eval a) (eval b)
  | EBounds lo hi e => checkBounds (eval lo) (eval hi) (eval e)
  end.

Definition in_i64 (z : Z) : option Z := if decide (is_i64 z) then Some z else None.

(** [difference] is what a subtraction gives. *)
Fixpoint meaning (difference : Z -> Z -> option Z) (e : mexpr) : option Z :=
  match e with
  | EInt z => Some z
  | EUnsigned z => in_i64 z
  | EAdd a b => x ← meaning difference a; y ← meaning difference b; in_i64 (x + y)
  | ESub a b => x ← meaning difference a; y ← meaning difference b; difference x y
  | EMul a b => x ← meaning difference a; y ← meaning difference b; in_i64 (x * y)
  | EDiv a b => x ← meaning difference a; y ← meaning difference b; if y =? 0 then None else in_i64 (x ÷ y)
  | EBounds lo hi e =>
      l ← meaning difference lo; h ← meaning difference hi; x ← meaning difference e;
      if (l <=? x) && (x <=? h) then Some x else None
  end.

(** The exact meaning, and that of the code: the one difference that [_mlib_i64_sub_would_overflow] misses, one above the
    largest integer, wraps to the smallest. *)
Definition exact : mexpr -> option Z := meaning (fun x y => in_i64 (x - y)).
Definition wrapped_difference (x y : Z) : option Z := if x - y =? INT64_MAX + 1 then Some INT64_MIN else in_i64 (x - y).

(** Literals fit the C types of [fromInt] and [fromUnsigned]. *)
Fixpoint mexpr_wf (e : mexpr) : Prop :=
  match e with
  | EInt z => is_i64 z
  | EUnsigned z => is_u64 z
  | EAdd a b | ESub a b | EMul a b | EDiv a b => mexpr_wf a /\ mexpr_wf b
  | EBounds lo hi e => mexpr_wf lo /\ mexpr_wf hi /\ mexpr_wf e
  end.

(** What holds of the operands of every subtraction. *)
Fixpoint at_subtractions (P : Z -> Z -> Prop) (e : mexpr) : Prop :=
  match e with
  | EInt _ | EUnsigned _ => True
  | ESub a b => at_subtractions P a /\ at_subtractions P b /\ P (i64 (eval a)) (i64 (eval b))
  | EAdd a b | EMul a b | EDiv a b => at_subtractions P a /\ at_subtractions P b
  | EBounds lo hi e => at_subtractions P lo /\ at_subtractions P hi /\ at_subtractions P e
  end.

(** No subtraction gives [INT64_MAX + 1]. *)
Definition no_sub_edge : mexpr -> Prop := at_subtractions (fun x y => x - y <> INT64_MAX + 1).

Lemma eval_wf e : int_wf (eval e).
Proof. induction e; simpl; eauto with mlib_int. Qed.

Lemma in_i64_some z v : in_i64 z = Some v <-> is_i64 z /\ z = v.
Proof. unfold in_i64. case_decide; naive_solver. Qed.

(** What the checked evaluation of [e] promises with respect to a meaning. *)
Definition refines_meaning (difference : Z -> Z -> option Z) (e : mexpr) : Prop :=
  forall v, meaning difference e = Some v <-> clean (eval e) /\ i64 (eval e) = v.
Definition refines_exact : mexpr -> Prop := refines_meaning (fun x y => in_i64 (x - y)).

Lemma binop_refines difference a b (opc : mlib_integer) (P : Prop) (z : Z) (r : Z -> Z -> option Z) :
  refines_meaning difference a -> refines_meaning difference b ->
  (clean opc <-> clean (eval a) /\ clean (eval b) /\ P) ->
  (clean opc -> i64 opc = z) ->
  (forall v, r (i64 (eval a)) (i64 (eval b)) = Some v <-> P /\ z = v) ->
  forall v, (x ← meaning difference a; y ← meaning difference b; r x y) = Some v <-> clean opc /\ i64 opc = v.
Proof.
  intros Ha Hb Hc Hv Hr v. split.
  - intros H. apply bind_Some in H as (x & Hx & H). apply bind_Some in H as (y & Hy & H).
    apply Ha in Hx as [? <-]. apply Hb in Hy as [? <-]. apply Hr in H as [? <-].
    assert (clean opc) by tauto. auto.
  - intros [Ho <-]. destruct Hc as [Hc _]. destruct (Hc Ho) as (Ca & Cb & HP).
    rewrite (proj2 (Ha _) (conj Ca eq_refl)), (proj2 (Hb _) (conj Cb eq_refl)). simpl.
    apply Hr. split; [done | by rewrite Hv].
Qed.

(** What the code makes of a difference. *)
Definition models (difference : Z -> Z -> option Z) (x y : Z) : Prop :=
  forall v, difference x y = Some v <-> (is_i64 (x - y) \/ x - y = INT64_MAX + 1) /\ s64 (x - y) = v.

Lemma eval_meaning difference e : mexpr_wf e -> at_subtractions (models difference) e -> refines_meaning difference e.
Proof.
  induction e as [z|z|a IHa b IHb|a IHa b IHb|a IHa b IHb|a IHa b IHb|lo IHl hi IHh e IHe];
    simpl; intros Hwf Hne.
  - intros v. simpl. rewrite s64_id by done. unfold clean. simpl. naive_solver.
  - intros v. simpl. rewrite in_i64_some.
    unfold U, _mlib_math_from_u64, clean, is_u64, is_i64 in *.
    rewrite u64_id by done. case_match; simpl.
    + split; [lia | by intros [[=] _]].
    + rewrite s64_id by (unfold is_i64; lia). split; [naive_solver|]. intros [_ <-]. lia.
  - destruct (add_spec (eval a) (eval b) (eval_wf a) (eval_wf b)) as [Hc Hv].
    refine (binop_refines _ a b _ _ _ (fun x y => in_i64 (x + y)) _ _ Hc Hv _);
      [apply IHa; tauto | apply IHb; tauto | apply in_i64_some].
  - destruct (sub_spec (eval a) (eval b) (eval_wf a) (eval_wf b)) as [Hc Hv].
    refine (binop_refines _ a b _ _ _ difference _ _ Hc Hv _); [apply IHa; tauto | apply IHb; tauto | apply Hne].
  - destruct (mul_spec (eval a) (eval b) (eval_wf a) (eval_wf b)) as [Hc Hv].
    refine (binop_refines _ a b _ _ _ (fun x y => in_i64 (x * y)) _ _ Hc Hv _);
      [apply IHa; tauto | apply IHb; tauto | apply in_i64_some].
  - destruct (div_spec (eval a) (eval b) (eval_wf a) (eval_wf b)) as [Hc Hv].
    refine (binop_refines _ a b _ _ _ (fun x y => if y =? 0 then None else in_i64 (x ÷ y))
              _ _ Hc Hv _); [apply IHa; tauto | apply IHb; tauto |].
    intros v. cbv beta. destruct (Z.eqb_spec (i64 (eval b)) 0); [naive_solver|].
    rewrite in_i64_some. tauto.
  - intros v. destruct (bounds_spec (eval lo) (eval hi) (eval e)) as [Hc Hv].
    destruct Hwf as (?&?&?), Hne as (?&?&?).
    specialize (IHl ltac:(done) ltac:(done)). specialize (IHh ltac:(done) ltac:(done)).
    specialize (IHe ltac:(done) ltac:(done)). simpl. split.
    + intros H'. apply bind_Some in H' as (l & Hl & H'). apply bind_Some in H' as (h & Hh & H').
      apply bind_Some in H' as (x & Hx & H').
      apply IHl in Hl as [? <-]. apply IHh in Hh as [? <-]. apply IHe in Hx as [? <-].
      case_match; [injection H' as <- | done].
      assert (clean (checkBounds (eval lo) (eval hi) (eval e))) by (apply Hc; split_and!; try done; lia).
      auto.
    + intros [Ho <-]. destruct (proj1 Hc Ho) as (Cl & Ch & Ce & Hr).
      rewrite (proj2 (IHl _) (conj Cl eq_refl)), (proj2 (IHh _) (conj Ch eq_refl)),
        (proj2 (IHe _) (conj Ce eq_refl)). simpl.
      rewrite (Hv Ho). case_match; [done | lia].
Qed.

Lemma wrapped_models x y : models wrapped_difference x y.
Proof.
  intros v. unfold wrapped_difference. destruct (Z.eqb_spec (x - y) (INT64_MAX + 1)) as [->|Hne].
  - split; [intros [= <-]; auto|by intros [_ <-]].
  - rewrite in_i64_some. split; [intros [Hi <-]; split; [by left|by apply s64_id]|].
    intros [[Hi|?] <-]; [|done]. by rewrite s64_id.
Qed.

Lemma exact_models x y : x - y <> INT64_MAX + 1 -> models (fun x y => in_i64 (x - y)) x y.
Proof.
  intros Hne v. rewrite in_i64_some. split; [intros [Hi <-]; split; [by left|by apply s64_id]|].
  intros [[Hi|?] <-]; [|done]. by rewrite s64_id.
Qed.

Lemma at_subtractions_impl (P Q : Z -> Z -> Prop) e : (forall x y, P x y -> Q x y) -> at_subtractions P e -> at_subtractions Q e.
Proof. intros HPQ. induction e; simpl; naive_solver. Qed.

Lemma at_subtractions_all (P : Z -> Z -> Prop) e : (forall x y, P x y) -> at_subtractions P e.
Proof. intros HP. induction e; simpl; naive_solver. Qed.

(** C20. Checked arithmetic: an expression evaluates without an error flag to [v] if and only if its meaning is [v], every node
    being representable, non-zero divisors and bounds included.  The meaning is the exact one, but for a subtraction whose
    operands differ by [INT64_MAX + 1]: the code takes that for representable, and gives [INT64_MIN]; without such
    a subtraction the evaluation is exact. *)
Theorem eval_exact e : mexpr_wf e ->
  (forall v, meaning wrapped_difference e = Some v <-> clean (eval e) /\ i64 (eval e) = v) /\
  (no_sub_edge e -> forall v, exact e = Some v <-> clean (eval e) /\ i64 (eval e) = v).
Proof.
  intros Hwf. split.
  - apply (eval_meaning wrapped_difference); [done|]. apply at_subtractions_all, wrapped_models.
  - intros Hne. apply (eval_meaning (fun x y => in_i64 (x - y))); [done|]. by eapply at_subtractions_impl; [apply exact_models|].
Qed.

(** ** Running the macros on values in range *)

Lemma clean_bounds_ok lo hi v :
  is_i64 lo -> is_i64 hi -> clean v -> lo <= i64 v <= hi ->
  clean (checkBounds (I lo) (I hi) v) /\ i64 (checkBounds (I lo) (I hi) v) = i64 v.
Proof.
  intros Hlo Hhi Hv Hr. destruct (bounds_spec (I lo) (I hi) v) as [B1 B2].
  assert (clean (checkBounds (I lo) (I hi) v)) as Hc.
  { apply B1. simpl. rewrite !s64_id by done. done. }
  auto.
Qed.

Lemma fill_ok info v : clean v -> _mlibMathFillFailureInfo info v = info.
Proof. unfold _mlibMathFillFailureInfo, clean. by intros ->. Qed.

Lemma cast_ok lo hi info v :
  is_i64 lo -> is_i64 hi -> clean v -> lo <= i64 v <= hi -> is_i32 (i64 v) ->
  castInt32 info (checkBounds (I lo) (I hi) v) = (info, i64 v).
Proof.
  intros Hlo Hhi Hv Hr Hi. destruct (clean_bounds_ok lo hi v Hlo Hhi Hv Hr) as [Hc E].
  destruct (checkInt32_spec (checkBounds (I lo) (I hi) v)) as [C1 C2].
  rewrite E in *. assert (clean (checkInt32 (checkBounds (I lo) (I hi) v))) as Hc' by (by apply C1).
  rewrite (surjective_pairing (castInt32 _ _)), castInt32_value. simpl.
  rewrite fill_ok by done. by rewrite C2.
Qed.

Lemma nonneg32_ok info v :
  clean v -> 0 <= i64 v <= INT32_MAX -> mlibMathNonNegativeInt32 info v = (info, i64 v).
Proof. intros. apply cast_ok; unfold is_i64, is_i32; done || lia. Qed.
Lemma pos32_ok info v :
  clean v -> 1 <= i64 v <= INT32_MAX -> mlibMathPositiveInt32 info v = (info, i64 v).
Proof. intros. apply cast_ok; unfold is_i64, is_i32; done || lia. Qed.
Lemma int32_ok info v :
  clean v -> is_i32 (i64 v) -> mlibMathInt32 info v = (info, i64 v).
Proof.
  intros Hv Hi. unfold mlibMathInt32. destruct (checkInt32_spec v) as [C1 C2].
  rewrite (surjective_pairing (castInt32 _ _)), castInt32_value. simpl.
  assert (clean (checkInt32 v)) by (by apply C1).
  rewrite fill_ok by done. by rewrite C2.
Qed.

(** A negative operand is recorded and replaced by zero. *)
Lemma nonneg32_neg info v :
  clean v -> i64 v < 0 ->
  mlibMathNonNegativeInt32 info v = (mk_fail_info 0 mlib_integer_bounds, 0).
Proof.
  unfold clean. intros Hv Hr.
  assert (checkNonNegative v = mk_mlib_integer 0 mlib_integer_bounds) as E.
  { unfold checkNonNegative, checkBounds, _mlib_math_check_bounds. simpl.
    change (s64 0) with 0. destruct (Z.ltb_spec (i64 v) 0); [|lia].
    unfold with_i64, _mlib_math_set_flags. simpl. by rewrite Hv. }
  unfold mlibMathNonNegativeInt32. by rewrite E.
Qed.

Lemma I_clean z : clean (I z).
Proof. done. Qed.
Lemma I_val z : is_i64 z -> i64 (I z) = z.
Proof. apply s64_id. Qed.
Lemma U_small z : 0 <= z <= INT64_MAX -> U z = I z.
Proof.
  intros Hz. unfold U, _mlib_math_from_u64. rewrite u64_id by (unfold is_u64; lia).
  destruct (Z.gtb_spec z INT64_MAX); [lia | done].
Qed.

Lemma add_val a b :
  int_wf a -> int_wf b -> clean a -> clean b -> is_i64 (i64 a + i64 b) ->
  clean (add a b) /\ i64 (add a b) = i64 a + i64 b.
Proof. intros Ha Hb Ca Cb Hr. destruct (add_spec a b Ha Hb) as [H1 H2]. split; [tauto|]. apply H2. tauto. Qed.
Lemma sub_val a b :
  int_wf a -> int_wf b -> clean a -> clean b -> is_i64 (i64 a - i64 b) ->
  clean (sub a b) /\ i64 (sub a b) = i64 a - i64 b.
Proof.
  intros Ha Hb Ca Cb Hr. destruct (sub_spec a b Ha Hb) as [H1 H2].
  split; [tauto|]. rewrite H2 by tauto. by apply s64_id.
Qed.

(** The same on literals. *)
Lemma sub_I a b :
  is_i64 a -> is_i64 b -> is_i64 (a - b) ->
  clean (sub (I a) (I b)) /\ i64 (sub (I a) (I b)) = a - b.
Proof.
  intros Ha Hb Hr. assert (is_i64 (i64 (I a) - i64 (I b))) as Hr' by (by rewrite !I_val).
  destruct (sub_val _ _ (I_wf a) (I_wf b) (I_clean a) (I_clean b) Hr') as [? E].
  rewrite E, !I_val by done. auto.
Qed.
Lemma add_I a b :
  is_i64 a -> is_i64 b -> is_i64 (a + b) ->
  clean (add (I a) (I b)) /\ i64 (add (I a) (I b)) = a + b.
Proof.
  intros Ha Hb Hr. assert (is_i64 (i64 (I a) + i64 (I b))) as Hr' by (by rewrite !I_val).
  destruct (add_val _ _ (I_wf a) (I_wf b) (I_clean a) (I_clean b) Hr') as [? E].
  rewrite E, !I_val by done. auto.
Qed.

(** ** Bounded string lengths *)

Lemma strnlen_loop_nul s k r n :
  x00 ∉ s -> r + zlen s < n -> strnlen_loop (s ++ x00 :: k) r n = Done (r + zlen s).
Proof.
  revert r. induction s as [|c s IH]; simpl; intros r Hs Hn.
  - change (zlen []) with 0 in *. destruct (Z.ltb_spec r n); [|lia].
    f_equal. lia.
  - rewrite zlen_cons in *. pose proof (zlen_nonneg s).
    destruct (Z.ltb_spec r n); [|lia].
    case_decide; [set_solver|]. rewrite IH by (set_solver || lia). f_equal. lia.
Qed.

Lemma strnlen_loop_in l r n :
  r <= n -> n - r <= zlen l ->
  exists k, strnlen_loop l r n = Done k /\ r <= k <= n /\
    (k < n -> exists s t, l = s ++ x00 :: t /\ x00 ∉ s /\ k = r + zlen s).
Proof.
  revert r. induction l as [|c l IH]; simpl; intros r Hr Hl.
  - change (zlen (@nil byte)) with 0 in Hl. destruct (Z.ltb_spec r n); [lia|].
    exists r. split_and!; (done || lia).
  - rewrite zlen_cons in Hl. destruct (Z.ltb_spec r n).
    + case_decide as D.
      * exists r. split_and!; [done | lia | lia|]. intros _. exists [], l.
        subst. split_and!; [done | set_solver | change (zlen []) with 0; lia].
      * destruct (IH (r + 1)) as (k & -> & Hk & Hs); [lia..|]. exists k.
        split_and!; [done | lia | lia|]. intros Hkn.
        destruct (Hs Hkn) as (s & t & -> & Hn & ->). exists (c :: s), t.
        rewrite zlen_cons. split_and!; [done | set_solver | lia].
    + exists r. split_and!; (done || lia).
Qed.

Lemma strnlen32_run m s n k :
  0 <= n <= INT32_MAX -> 0 <= k <= n -> strnlen_loop (bytes_from m s) 0 n = Done k ->
  exists v, strnlen32 m s (I n) = Done v /\ clean v /\ i64 v = k.
Proof.
  intros Hn Hk H. unfold strnlen32, _mlib_math_strnlen.
  change (flags (I n)) with 0. simpl. rewrite s64_id by (unfold is_i64; lia).
  destruct (Z.ltb_spec n 0); [lia|]. rewrite H. simpl. eexists. split; [done|].
  apply (clean_bounds_ok INT32_MIN INT32_MAX (mk_mlib_integer k mlib_integer_okay));
    unfold is_i64; simpl; done || lia.
Qed.

Lemma catch_ok {A} (handler rest : A) : mlib_math_catch mlib_math_try handler rest = rest.
Proof. done. Qed.
Lemma catch_bad {A} (handler rest : A) :
  mlib_math_catch (mk_fail_info 0 mlib_integer_bounds) handler rest = handler.
Proof. done. Qed.

(** ** Scopes that may fail *)

(** A failure was recorded in the scope. *)
Definition failed (info : mlib_math_fail_info) : Prop := fi_flags info <> 0.

Lemma catch_failed {A} info (handler rest : A) : failed info -> mlib_math_catch info handler rest = handler.
Proof. unfold failed, mlib_math_catch. intros Hf. destruct (Z.eqb_spec (fi_flags info) 0); done. Qed.

(** One cast of a scope: the exact value, or a recorded failure. *)
Definition cast_run (P : Z -> Prop) (r : mlib_math_fail_info * Z) (v : mlib_integer) : Prop :=
  (clean v /\ P (i64 v) /\ r = (mlib_math_try, i64 v)) \/ (failed (fst r) /\ ~ (clean v /\ P (i64 v))).

Lemma cast_run_intro (P : Z -> Prop) f v :
  (clean v -> P (i64 v) -> f mlib_math_try v = (mlib_math_try, i64 v)) ->
  (fi_flags (fst (f mlib_math_try v)) = 0 <-> clean v /\ P (i64 v)) ->
  cast_run P (f mlib_math_try v) v.
Proof.
  intros Hok Hiff. unfold cast_run, failed.
  destruct (Z.eq_dec (fi_flags (fst (f mlib_math_try v))) 0) as [E|E]; [left|right].
  - apply Hiff in E as [? ?]. auto.
  - split; [done|]. by rewrite <- Hiff.
Qed.

Lemma int32_run v : cast_run is_i32 (mlibMathInt32 mlib_math_try v) v.
Proof. apply cast_run_intro; [apply int32_ok | by apply mlibMathInt32_spec]. Qed.
Lemma nonneg32_run v :
  cast_run (fun z => 0 <= z <= INT32_MAX) (mlibMathNonNegativeInt32 mlib_math_try v) v.
Proof. apply cast_run_intro; [apply nonneg32_ok | by apply mlibMathNonNegativeInt32_spec]. Qed.
Lemma pos32_run v :
  cast_run (fun z => 1 <= z <= INT32_MAX) (mlibMathPositiveInt32 mlib_math_try v) v.
Proof. apply cast_run_intro; [apply pos32_ok | by apply mlibMathPositiveInt32_spec]. Qed.

Lemma int32_sticky info v : failed info -> failed (fst (mlibMathInt32 info v)).
Proof. apply fill_sticky. Qed.
Lemma nonneg32_sticky info v : failed info -> failed (fst (mlibMathNonNegativeInt32 info v)).
Proof. apply fill_sticky. Qed.
Lemma pos32_sticky info v : failed info -> failed (fst (mlibMathPositiveInt32 info v)).
Proof. apply fill_sticky. Qed.

Lemma assert_clean f v : clean v -> _mlib_math_assert_not_flags f v = Done v.
Proof. unfold clean, _mlib_math_assert_not_flags. intros ->. by rewrite Z.land_0_r. Qed.

(** Sums and differences of values that are far from the limits. *)
Definition small (v : mlib_integer) (z : Z) : Prop := clean v /\ int_wf v /\ i64 v = z.

Lemma small_I z : is_i64 z -> small (I z) z.
Proof. intros Hz. split_and!; [done | apply I_wf | by apply I_val]. Qed.
Lemma small_U z : 0 <= z <= INT64_MAX -> small (U z) z.
Proof. intros Hz. rewrite U_small by done. apply small_I. unfold is_i64. lia. Qed.
Lemma small_add a b x y : small a x -> small b y -> is_i64 (x + y) -> small (add a b) (x + y).
Proof.
  intros (Ca & Wa & <-) (Cb & Wb & <-) Hr. destruct (add_val a b Wa Wb Ca Cb Hr).
  split_and!; [done | by apply add_wf | done].
Qed.
Lemma small_sub a b x y : small a x -> small b y -> is_i64 (x - y) -> small (sub a b) (x - y).
Proof.
  intros (Ca & Wa & <-) (Cb & Wb & <-) Hr. destruct (sub_val a b Wa Wb Ca Cb Hr).
  split_and!; [done | apply sub_wf | done].
Qed.

#[global] Arguments add : simpl never.
#[global] Arguments sub : simpl never.
#[global] Arguments I : simpl never.
#[global] Arguments U : simpl never.
#[global] Arguments strnlen32 : simpl never.
#[global] Arguments strlen32 : simpl never.
#[global] Arguments mlibMathNonNegativeInt32 : simpl never.
#[global] Arguments mlibMathPositiveInt32 : simpl never.
#[global] Arguments mlibMathInt32 : simpl never.
#[global] Arguments mlib_math_catch : simpl never.

(** ** Claims on the primitive checks *)

Lemma eval_exact_witness :
  let e := EBounds (EInt 1) (EInt 100) (ESub (EMul (EInt 7) (EUnsigned 6)) (EDiv (EInt 9) (EInt (-2)))) in
  let f := ESub (EInt 0) (EInt INT64_MIN) in
  (clean (eval e) /\ i64 (eval e) = 46) /\ exact e = Some 46 /\
  (clean (eval f) /\ i64 (eval f) = INT64_MIN) /\ exact f = None.
Proof.
  intros e f. destruct (eval_exact e) as [_ He]; [vm_compute; intuition discriminate|].
  destruct (eval_exact f) as [Hf _]; [vm_compute; intuition discriminate|].
  split; [apply He; [vm_compute; intuition discriminate|vm_compute; reflexivity]|]. split; [vm_compute; reflexivity|].
  split; [apply Hf; vm_compute; reflexivity|vm_compute; reflexivity].
Defined.

(** The overflow predicates: addition and multiplication are reported exactly
    when the mathematical result leaves the 64-bit range; subtraction is
    reported exactly when it leaves it by something else than one above the
    maximum. *)
Theorem would_overflow_exact l r :
  is_i64 l -> is_i64 r ->
  (_mlib_i64_add_would_overflow l r = true <-> ~ is_i64 (l + r)) /\
  (_mlib_i64_mul_would_overflow l r = true <-> ~ is_i64 (l * r)) /\
  (_mlib_i64_sub_would_overflow l r = true <-> ~ is_i64 (l - r) /\ l - r <> INT64_MAX + 1).
Proof.
  intros Hl Hr. split_and!;
    [by apply add_would_overflow_spec | by apply mul_would_overflow_spec
    | by apply sub_would_overflow_spec].
Qed.

Lemma would_overflow_exact_witness :
  _mlib_i64_mul_would_overflow INT64_MIN (-1) = true /\ ~ is_i64 (INT64_MIN * -1).
Proof.
  destruct (would_overflow_exact INT64_MIN (-1)) as (_ & [H _] & _);
    [vm_compute; intuition discriminate | vm_compute; intuition discriminate |].
  split; [vm_compute; reflexivity | apply H; vm_compute; reflexivity].
Defined.

(** The missed overflow: [0 - INT64_MIN] is not representable, is not
    reported, and yields the wrapped minimum with no flag set. *)
Theorem sub_overflow_missed :
  _mlib_i64_sub_would_overflow 0 INT64_MIN = false /\ ~ is_i64 (0 - INT64_MIN) /\
  sub (I 0) (I INT64_MIN) = mk_mlib_integer INT64_MIN mlib_integer_okay.
Proof. split_and!; [done | unfold is_i64; lia | done]. Qed.

(** The sixteen-bit checks [checkNonNegativeInt16] and [checkPositiveInt16]
    pass the first value above the sixteen-bit range, although
    [checkInt16] refuses it. *)
Theorem int16_checks_wide :
  flags (checkNonNegativeInt16 (I 32768)) = mlib_integer_okay /\
  flags (checkPositiveInt16 (I 32768)) = mlib_integer_okay /\
  flags (checkInt16 (I 32768)) = mlib_integer_bounds.
Proof. by vm_compute. Qed.
