(* ===== verification/Mem.v ===== *)
(** * Raw memory primitives of the BSON library ([include/bson/detail/mem.h])

    Little-endian integers and the [constexpr]-compatible [memcpy] family.  The
    portable paths are modelled (byte by byte, explicit shifts); on a
    little-endian target the code takes a [memcpy] shortcut instead. *)
From Stdlib Require Import ZArith Lia.
From Stdlib Require Import Strings.Byte.
From stdpp Require Import base numbers list sets.
From S2P Require Import Prelude.
Open Scope Z_scope.

(** ** Integers *)

(** The four stores of [_bson_write_u32le], lowest byte first. *)
Definition le32 (v : Z) : list byte :=
  [z2b (Z.land (Z.shiftr v 0) 255); z2b (Z.land (Z.shiftr v 8) 255);
   z2b (Z.land (Z.shiftr v 16) 255); z2b (Z.land (Z.shiftr v 24) 255)].

#[global] Arguments le32 : simpl never.

Definition _bson_write_u32le (m : block) (bytes v : Z) : outcome (block * Z) :=
  let* m := wr_range m bytes (le32 v) in Done (m, bytes + 4).

Definition _bson_write_u64le (m : block) (out v : Z) : outcome (block * Z) :=
  let* (m, out) := _bson_write_u32le m out (u32 v) in
  let* (m, out) := _bson_write_u32le m out (u32 (Z.shiftr v 32)) in
  Done (m, out).

Definition _bson_read_u32le (m : block) (bytes : Z) : outcome Z :=
  let* b3 := rd8 m (bytes + 3) in
  let v := Z.lor 0 (b2z b3) in
  let v := u32 (Z.shiftl v 8) in
  let* b2 := rd8 m (bytes + 2) in
  let v := Z.lor v (b2z b2) in
  let v := u32 (Z.shiftl v 8) in
  let* b1 := rd8 m (bytes + 1) in
  let v := Z.lor v (b2z b1) in
  let v := u32 (Z.shiftl v 8) in
  let* b0 := rd8 m (bytes + 0) in
  Done (Z.lor v (b2z b0)).

Definition _bson_read_u64le (m : block) (bytes : Z) : outcome Z :=
  let* lo := _bson_read_u32le m bytes in
  let* hi := _bson_read_u32le m (bytes + 4) in
  Done (Z.lor (u64 (Z.shiftl hi 32)) lo).

(** ** Copies

    A source object other than the destination block is given by its bytes,
    [None] for the null pointer. *)
Definition _bson_memcpy (m : block) (dst : Z) (src : option (list byte)) (len : Z)
  : outcome (block * Z) :=
  match src with
  | Some bs =>
      if len <=? zlen bs then
        let* m := wr_range m dst (take (Z.to_nat len) bs) in Done (m, dst + len)
      else Undef
  | None => Done (m, dst + len)
  end.

(** [memmove] inside one block, as the two loops of the [constexpr] path. *)
Fixpoint memmove_backward (m : block) (dst src : Z) (n : nat) : outcome block :=
  match n with
  | O => Done m
  | S k =>
      let* b := rd8 m (src + Z.of_nat k) in
      let* m := wr_range m (dst + Z.of_nat k) [b] in
      memmove_backward m dst src k
  end.
Fixpoint memmove_forward (m : block) (dst src : Z) (n : nat) : outcome block :=
  match n with
  | O => Done m
  | S k =>
      let* b := rd8 m src in
      let* m := wr_range m dst [b] in
      memmove_forward m (dst + 1) (src + 1) k
  end.
Definition _bson_memmove (m : block) (dst src len : Z) : outcome (block * Z) :=
  let* m := if src <? dst then memmove_backward m dst src (Z.to_nat len)
            else memmove_forward m dst src (Z.to_nat len) in
  Done (m, dst + len).

Definition _bson_memset (m : block) (dst : Z) (v : byte) (len : Z) : outcome (block * Z) :=
  let* m := wr_range m dst (replicate (Z.to_nat len) v) in Done (m, dst + len).

Definition _bson_memcpy_chr := _bson_memcpy.
Definition _bson_memcpy_u8 := _bson_memcpy.

(** [_bson_byte_size]: the null document has size zero. *)
Definition _bson_byte_size (m : block) (p : Z) : outcome Z :=
  if p =? 0 then Done 0 else _bson_read_u32le m p.
Definition _bson_byte_ssize (m : block) (p : Z) : outcome Z :=
  omap_outcome s32 (_bson_byte_size m p).

(** ** The codec *)

Lemma lor_shiftl_add x b k :
  0 <= k -> 0 <= b < 2 ^ k -> Z.lor (Z.shiftl x k) b = x * 2 ^ k + b.
Proof.
  intros Hk Hb. rewrite Z.shiftl_mul_pow2 by lia.
  assert (Z.land (x * 2 ^ k) b = 0) as Hand.
  { apply Z.bits_inj'. intros n Hn. rewrite Z.land_spec, Z.bits_0.
    destruct (decide (n < k)).
    - rewrite Z.mul_pow2_bits_low by lia. done.
    - destruct (decide (b = 0)) as [->|]; [rewrite Z.bits_0; apply andb_false_r|].
      assert (Z.log2 b < k) by (apply Z.log2_lt_pow2; lia).
      rewrite (Z.bits_above_log2 b n) by lia. apply andb_false_r. }
  rewrite <- Z.add_lor_land, Hand. lia.
Qed.

Lemma le32_div v :
  le32 v = [z2b v; z2b (v / 256); z2b (v / 65536); z2b (v / 16777216)].
Proof.
  unfold le32. change 255 with (Z.ones 8). rewrite !Z.land_ones by lia.
  rewrite !Z.shiftr_div_pow2 by lia. change (2 ^ 0) with 1. rewrite Z.div_1_r.
  assert (forall z, z2b (z mod 2 ^ 8) = z2b z) as H
    by (intros; apply b2z_inj; rewrite !b2z_z2b; change (2 ^ 8) with 256; divlia).
  rewrite !H. done.
Qed.

Lemma zlen_le32 v : zlen (le32 v) = 4.
Proof. done. Qed.

Lemma le32_bytes b0 b1 b2 b3 :
  le32 (b2z b0 + 256 * b2z b1 + 65536 * b2z b2 + 16777216 * b2z b3) = [b0; b1; b2; b3].
Proof.
  rewrite le32_div.
  pose proof (b2z_range b0). pose proof (b2z_range b1).
  pose proof (b2z_range b2). pose proof (b2z_range b3).
  repeat f_equal; apply b2z_inj; rewrite b2z_z2b; divlia.
Qed.

Lemma read_bytes m p b0 b1 b2 b3 :
  bytes_at m p [b0; b1; b2; b3] ->
  _bson_read_u32le m p =
  Done (b2z b0 + 256 * b2z b1 + 65536 * b2z b2 + 16777216 * b2z b3).
Proof.
  intros H.
  apply bytes_at_cons in H as [H0 H]. apply bytes_at_cons in H as [H1 H].
  apply bytes_at_cons in H as [H2 H3].
  replace (p + 1 + 1) with (p + 2) in * by lia. replace (p + 2 + 1) with (p + 3) in * by lia.
  unfold _bson_read_u32le. rewrite Z.add_0_r.
  rewrite (rd8_at _ _ _ H0), (rd8_at _ _ _ H1), (rd8_at _ _ _ H2), (rd8_at _ _ _ H3). simpl.
  pose proof (b2z_range b0). pose proof (b2z_range b1).
  pose proof (b2z_range b2). pose proof (b2z_range b3).
  assert (forall x, 0 <= x < 16777216 -> u32 (Z.shiftl x 8) = Z.shiftl x 8) as Hs.
  { intros x Hx. apply u32_id. unfold is_u32. rewrite Z.shiftl_mul_pow2 by lia. lia. }
  change (Z.lor 0 (b2z b3)) with (b2z b3).
  rewrite (Hs (b2z b3)), (lor_shiftl_add _ (b2z b2)) by lia.
  rewrite (Hs (b2z b3 * 2 ^ 8 + b2z b2)), (lor_shiftl_add _ (b2z b1)) by lia.
  rewrite (Hs ((b2z b3 * 2 ^ 8 + b2z b2) * 2 ^ 8 + b2z b1)), (lor_shiftl_add _ (b2z b0)) by lia.
  f_equal. lia.
Qed.

Lemma list_len4 {A} (l : list A) : zlen l = 4 -> exists a b c d, l = [a; b; c; d].
Proof.
  destruct l as [|a [|b [|c [|d [|]]]]]; unfold zlen; simpl; try lia. eauto.
Qed.

(** Reading four encoded bytes gives the value back. *)
Lemma read_le32 m p v : is_u32 v -> bytes_at m p (le32 v) -> _bson_read_u32le m p = Done v.
Proof.
  unfold is_u32. intros Hv H. rewrite le32_div in H. rewrite (read_bytes _ _ _ _ _ _ H).
  rewrite !b2z_z2b. f_equal. divlia.
Qed.

(** Any four bytes encode some value. *)
Lemma read_u32_in m p :
  b_base m <= p -> p + 4 <= b_end m ->
  exists v, _bson_read_u32le m p = Done v /\ is_u32 v /\ bytes_at m p (le32 v).
Proof.
  intros Hb He. destruct (bytes_at_in m p 4 Hb ltac:(lia) He) as (l & Hl & Hat).
  destruct (list_len4 _ Hl) as (b0 & b1 & b2 & b3 & ->).
  eexists. split; [by apply read_bytes|]. rewrite le32_bytes. split; [|done].
  unfold is_u32. pose proof (b2z_range b0). pose proof (b2z_range b1).
  pose proof (b2z_range b2). pose proof (b2z_range b3). lia.
Qed.

Lemma read_u32_done m p v :
  _bson_read_u32le m p = Done v -> is_u32 v /\ bytes_at m p (le32 v).
Proof.
  intros H. assert (b_base m <= p /\ p + 4 <= b_end m) as [Hb He].
  { unfold _bson_read_u32le in H. inv_done.
    repeat match goal with E : rd8 _ _ = Done _ |- _ => apply rd8_bounds in E end. lia. }
  destruct (read_u32_in m p Hb He) as (v' & E & ? & ?).
  rewrite E in H. by injection H as ->.
Qed.

(** ** Stores *)

(** A store of [bs] over [old]: the rest of the block is untouched. *)
Lemma wr_at m a old bs :
  bytes_at m a old -> zlen old = zlen bs ->
  exists m', wr_range m a bs = Done m' /\ bytes_at m' a bs /\
    b_base m' = b_base m /\ b_end m' = b_end m /\
    (forall pre post, b_bytes m = pre ++ old ++ post -> a = b_base m + zlen pre ->
       b_bytes m' = pre ++ bs ++ post).
Proof.
  intros (pre & post & E & ->) Hl. eexists. split; [by eapply wr_range_at|].
  split; [exists pre, post; done|]. split; [done|]. split.
  - unfold b_end. rewrite E. simpl. rewrite !zlen_app. lia.
  - intros pre' post' E' Ha. simpl.
    assert (length pre = length pre') as Hp by (unfold zlen in Ha; lia).
    rewrite E in E'. apply app_inj_1 in E' as [-> E']; [|done].
    by apply app_inv_head in E' as ->.
Qed.

Lemma write_u32le_at m a old v :
  bytes_at m a old -> zlen old = 4 ->
  exists m', _bson_write_u32le m a v = Done (m', a + 4) /\ bytes_at m' a (le32 v) /\
    b_base m' = b_base m /\ b_end m' = b_end m /\
    (forall pre post, b_bytes m = pre ++ old ++ post -> a = b_base m + zlen pre ->
       b_bytes m' = pre ++ le32 v ++ post).
Proof.
  intros H Hl. destruct (wr_at m a old (le32 v) H Hl) as (m' & E & ?).
  exists m'. unfold _bson_write_u32le. rewrite E. done.
Qed.

(** Eight bytes of a 64-bit value, as two 32-bit halves. *)
Definition le64 (v : Z) : list byte := le32 (u32 v) ++ le32 (u32 (Z.shiftr v 32)).
#[global] Arguments le64 : simpl never.
Lemma le64_split v : le64 v = le32 (u32 v) ++ le32 (u32 (Z.shiftr v 32)).
Proof. done. Qed.
Lemma zlen_le64 v : zlen (le64 v) = 8.
Proof. done. Qed.

Lemma shiftr32_u64 v : is_u64 v -> is_u32 (Z.shiftr v 32).
Proof. unfold is_u64, is_u32. rewrite Z.shiftr_div_pow2 by lia. intros. divlia. Qed.

Lemma read_le64 m p v : is_u64 v -> bytes_at m p (le64 v) -> _bson_read_u64le m p = Done v.
Proof.
  intros Hv H. apply bytes_at_app in H as [Hlo Hhi]. rewrite zlen_le32 in Hhi.
  unfold _bson_read_u64le.
  rewrite (read_le32 m p (u32 v)) by (done || apply u32_range). simpl.
  rewrite (u32_id (Z.shiftr v 32)) in Hhi by (by apply shiftr32_u64).
  rewrite (read_le32 m (p + 4) (Z.shiftr v 32)) by (done || by apply shiftr32_u64). simpl.
  f_equal. pose proof (u32_range v) as Hr. pose proof (shiftr32_u64 v Hv) as Hs.
  unfold is_u32, is_u64 in *.
  rewrite u64_id by (unfold is_u64; rewrite Z.shiftl_mul_pow2 by lia; lia).
  rewrite lor_shiftl_add by lia. rewrite Z.shiftr_div_pow2 by lia. unfold u32. divlia.
Qed.

(** Reading in bounds is defined. *)
Lemma read_u64_in m p :
  b_base m <= p -> p + 8 <= b_end m ->
  exists v, _bson_read_u64le m p = Done v /\ is_u64 v.
Proof.
  intros Hb He. unfold _bson_read_u64le.
  destruct (read_u32_in m p) as (lo & -> & Hlo & _); [lia..|].
  destruct (read_u32_in m (p + 4)) as (hi & -> & Hhi & _); [lia..|]. simpl.
  eexists. split; [done|]. unfold is_u32, is_u64 in *.
  rewrite u64_id by (unfold is_u64; rewrite Z.shiftl_mul_pow2 by lia; lia).
  rewrite lor_shiftl_add by lia. lia.
Qed.

(** ** [memmove] *)

(** The contents after moving [n] bytes from offset [s] to offset [d], all
    sources read before any store. *)
Definition moved (l : list byte) (d s n : nat) : list byte :=
  take d l ++ take n (drop s l) ++ drop (d + n) l.

Lemma moved_lookup l d s n i :
  (d + n <= length l)%nat -> (s + n <= length l)%nat ->
  moved l d s n !! i =
  if decide (d <= i < d + n)%nat then l !! (s + (i - d))%nat else l !! i.
Proof.
  intros Hd Hs. unfold moved.
  destruct (decide (i < d)%nat).
  { rewrite lookup_app_l by (rewrite length_take; lia).
    rewrite lookup_take_lt by lia. case_decide; [lia | done]. }
  rewrite lookup_app_r, length_take, Nat.min_l by (rewrite ?length_take; lia).
  destruct (decide (i < d + n)%nat).
  - rewrite lookup_app_l by (rewrite length_take, length_drop; lia).
    rewrite lookup_take_lt, lookup_drop by lia. case_decide; [done | lia].
  - rewrite lookup_app_r, length_take, length_drop, Nat.min_l
      by (rewrite ?length_take, ?length_drop; lia).
    rewrite lookup_drop. case_decide; [lia|]. f_equal. lia.
Qed.

Lemma length_moved l d s n :
  (d + n <= length l)%nat -> (s + n <= length l)%nat -> length (moved l d s n) = length l.
Proof. intros. unfold moved. rewrite !length_app, !length_take, !length_drop. lia. Qed.

Lemma moved_insert_back l d s k b :
  (s <= d)%nat -> (d + S k <= length l)%nat -> l !! (s + k)%nat = Some b ->
  moved (<[(d + k)%nat := b]> l) d s k = moved l d s (S k).
Proof.
  intros Hsd Hd Hb. apply list_eq. intros i.
  rewrite !moved_lookup by (rewrite ?length_insert; lia).
  destruct (decide (i = d + k)%nat) as [->|].
  - rewrite !decide_False, decide_True, list_lookup_insert_eq by lia.
    rewrite <- Hb. f_equal. lia.
  - repeat case_decide; try lia; rewrite list_lookup_insert_ne by lia; done.
Qed.

Lemma moved_insert_forw l d s k b :
  (d <= s)%nat -> (s + S k <= length l)%nat -> l !! s = Some b ->
  moved (<[d := b]> l) (S d) (S s) k = moved l d s (S k).
Proof.
  intros Hsd Hd Hb. apply list_eq. intros i.
  rewrite !moved_lookup by (rewrite ?length_insert; lia).
  destruct (decide (i = d)) as [->|].
  - rewrite decide_False, decide_True, list_lookup_insert_eq by lia.
    rewrite <- Hb. f_equal. lia.
  - repeat case_decide; try lia; rewrite list_lookup_insert_ne by lia; f_equal; lia.
Qed.

Lemma rd8_off base l i b :
  l !! i = Some b -> rd8 (mk_block base l) (base + Z.of_nat i) = Done b.
Proof.
  intros H. unfold rd8. simpl. destruct (Z.leb_spec base (base + Z.of_nat i)); [|lia].
  replace (Z.to_nat _) with i by lia. by rewrite H.
Qed.

Lemma wr1_off base l i b :
  (i < length l)%nat ->
  wr_range (mk_block base l) (base + Z.of_nat i) [b] = Done (mk_block base (<[i := b]> l)).
Proof.
  intros H. unfold wr_range, b_end. simpl. change (zlen [b]) with 1. simpl.
  destruct (_ && _) eqn:C; [|unfold zlen in C; lia].
  replace (Z.to_nat _) with i by lia.
  rewrite insert_take_drop by done. do 3 f_equal. simpl. f_equal. f_equal. lia.
Qed.

Lemma memmove_backward_moved base n : forall l d s,
  (s <= d)%nat -> (d + n <= length l)%nat ->
  memmove_backward (mk_block base l) (base + Z.of_nat d) (base + Z.of_nat s) n =
  Done (mk_block base (moved l d s n)).
Proof.
  induction n as [|k IH]; intros l d s Hsd Hd; simpl.
  - unfold moved. rewrite take_0, Nat.add_0_r. simpl. by rewrite take_drop.
  - destruct (lookup_lt_is_Some_2 l (s + k)%nat) as [b Hb]; [lia|].
    replace (base + Z.of_nat s + Z.of_nat k) with (base + Z.of_nat (s + k)) by lia.
    rewrite (rd8_off _ _ _ _ Hb). simpl.
    replace (base + Z.of_nat d + Z.of_nat k) with (base + Z.of_nat (d + k)) by lia.
    rewrite wr1_off by lia. simpl.
    rewrite IH by (rewrite ?length_insert; lia). by rewrite moved_insert_back.
Qed.

Lemma memmove_forward_moved base n : forall l d s,
  (d <= s)%nat -> (s + n <= length l)%nat ->
  memmove_forward (mk_block base l) (base + Z.of_nat d) (base + Z.of_nat s) n =
  Done (mk_block base (moved l d s n)).
Proof.
  induction n as [|k IH]; intros l d s Hsd Hd; simpl.
  - unfold moved. rewrite take_0, Nat.add_0_r. simpl. by rewrite take_drop.
  - destruct (lookup_lt_is_Some_2 l s) as [b Hb]; [lia|].
    rewrite (rd8_off _ _ _ _ Hb). simpl. rewrite wr1_off by lia. simpl.
    replace (base + Z.of_nat d + 1) with (base + Z.of_nat (S d)) by lia.
    replace (base + Z.of_nat s + 1) with (base + Z.of_nat (S s)) by lia.
    rewrite IH by (rewrite ?length_insert; lia). by rewrite moved_insert_forw.
Qed.

(** The direction of the copy makes overlapping moves correct. *)
Lemma memmove_moved base l d s n :
  (d + n <= length l)%nat -> (s + n <= length l)%nat ->
  _bson_memmove (mk_block base l) (base + Z.of_nat d) (base + Z.of_nat s) (Z.of_nat n) =
  Done (mk_block base (moved l d s n), base + Z.of_nat d + Z.of_nat n).
Proof.
  intros Hd Hs. unfold _bson_memmove. rewrite Nat2Z.id.
  destruct (Z.ltb_spec (base + Z.of_nat s) (base + Z.of_nat d)).
  - by rewrite memmove_backward_moved by lia.
  - by rewrite memmove_forward_moved by lia.
Qed.

(** ** What a store does *)

(** [m'] is [m] with [bs] at [a], and nothing else changed. *)
Record stored (m m' : block) (a : Z) (bs : list byte) : Prop := {
  stored_at : bytes_at m' a bs;
  stored_base : b_base m' = b_base m;
  stored_end : b_end m' = b_end m;
  stored_frame b k : bytes_at m b k -> b + zlen k <= a \/ a + zlen bs <= b -> bytes_at m' b k }.

Lemma wr_stored m a bs :
  b_base m <= a -> a + zlen bs <= b_end m ->
  exists m', wr_range m a bs = Done m' /\ stored m m' a bs.
Proof.
  intros Hb He. destruct (bytes_at_in m a (zlen bs)) as (old & Hl & Hat);
    [done | apply zlen_nonneg | done|].
  destruct (wr_at m a old bs Hat Hl) as (m' & E & ? & ? & ? & _). exists m'. split; [done|].
  split; [done..|]. intros b k. by apply bytes_at_frame.
Qed.

Lemma write_u32_stored m a v :
  b_base m <= a -> a + 4 <= b_end m ->
  exists m', _bson_write_u32le m a v = Done (m', a + 4) /\ stored m m' a (le32 v).
Proof.
  intros Hb He. destruct (wr_stored m a (le32 v)) as (m' & E & ?); [done | by rewrite zlen_le32|].
  exists m'. unfold _bson_write_u32le. by rewrite E.
Qed.

Lemma memcpy_stored m a bs :
  b_base m <= a -> a + zlen bs <= b_end m ->
  exists m', _bson_memcpy m a (Some bs) (zlen bs) = Done (m', a + zlen bs) /\ stored m m' a bs.
Proof.
  intros Hb He. destruct (wr_stored m a bs Hb He) as (m' & E & ?). exists m'.
  unfold _bson_memcpy. rewrite Z.leb_refl, zlen_to_nat, firstn_all. by rewrite E.
Qed.

Lemma zlen_replicate {A} n (x : A) : 0 <= n -> zlen (replicate (Z.to_nat n) x) = n.
Proof. intros. unfold zlen. rewrite length_replicate. lia. Qed.

Lemma memset_stored m a v n :
  0 <= n -> b_base m <= a -> a + n <= b_end m ->
  exists m', _bson_memset m a v n = Done (m', a + n) /\ stored m m' a (replicate (Z.to_nat n) v).
Proof.
  intros Hn Hb He. destruct (wr_stored m a (replicate (Z.to_nat n) v)) as (m' & E & ?);
    [done | by rewrite zlen_replicate|].
  exists m'. unfold _bson_memset. by rewrite E.
Qed.

Lemma memmove_stored m dst src l :
  bytes_at m src l -> b_base m <= dst -> dst + zlen l <= b_end m ->
  exists m', _bson_memmove m dst src (zlen l) = Done (m', dst + zlen l) /\ stored m m' dst l.
Proof.
  intros Hat Hb He. destruct (bytes_at_bounds _ _ _ Hat) as [Hsb Hse].
  destruct m as [base bs]. simpl in *. unfold b_end in *. simpl in *.
  set (d := Z.to_nat (dst - base)). set (s := Z.to_nat (src - base)).
  assert (d + length l <= length bs)%nat by (unfold zlen in *; lia).
  assert (s + length l <= length bs)%nat by (unfold zlen in *; lia).
  pose proof (memmove_moved base bs d s (length l) ltac:(done) ltac:(done)) as E.
  replace (base + Z.of_nat d) with dst in E by lia.
  replace (base + Z.of_nat s) with src in E by lia.
  exists (mk_block base (moved bs d s (length l))). split; [exact E|].
  apply bytes_at_lookup in Hat as (_ & _ & Hat). simpl in Hat.
  assert (zlen (moved bs d s (length l)) = zlen bs) as Hlen
    by (unfold zlen; by rewrite length_moved).
  split; simpl; [| done | unfold b_end; simpl; lia |].
  - apply bytes_at_lookup. unfold b_end. simpl. split_and!; [done | lia|].
    intros i b Hi. pose proof (lookup_lt_Some _ _ _ Hi). rewrite moved_lookup by done.
    fold d. rewrite decide_True by lia. replace (d + i - d)%nat with i by lia. by apply Hat.
  - intros b k. rewrite !bytes_at_lookup. unfold b_end. simpl. rewrite Hlen.
    intros (? & ? & Hk) Hd. split_and!; [done..|]. intros i x Hi.
    pose proof (lookup_lt_Some _ _ _ Hi). rewrite moved_lookup by done.
    rewrite decide_False by (unfold zlen in *; lia). by apply Hk.
Qed.

#[global] Opaque le32 le64.

(** ** Claims *)

(** Byte order: a 32-bit store touches exactly its four bytes, returns the
    address after them, and reading it back gives the value. *)
Theorem u32le_roundtrip m a old v :
  is_u32 v -> bytes_at m a old -> zlen old = 4 ->
  exists m', _bson_write_u32le m a v = Done (m', a + 4) /\
    _bson_read_u32le m' a = Done v /\
    b_base m' = b_base m /\ b_end m' = b_end m /\
    (forall b l, bytes_at m b l -> b + zlen l <= a \/ a + 4 <= b -> bytes_at m' b l).
Proof.
  intros Hv Hat Hl. destruct (wr_at m a old (le32 v) Hat Hl) as (m' & E & Hat' & Hb & He & _).
  exists m'. unfold _bson_write_u32le. rewrite E. split_and!; [done | by apply read_le32 | done | done|].
  intros b l Hbl Hd. apply (bytes_at_frame m m' a (le32 v) b l E Hbl). by rewrite zlen_le32.
Qed.

Lemma u32le_roundtrip_witness :
  exists m', _bson_write_u32le (block_of [1; 2; 3; 4; 5; 6]) 4097 4278255360 = Done (m', 4101) /\
    b_bytes m' = map z2b [1; 0; 255; 0; 255; 6] /\ _bson_read_u32le m' 4097 = Done 4278255360.
Proof.
  destruct (u32le_roundtrip (block_of [1; 2; 3; 4; 5; 6]) 4097 (map z2b [2; 3; 4; 5]) 4278255360)
    as (m' & H & R & _).
  - vm_compute; intuition discriminate.
  - apply bytes_at_check. vm_compute. reflexivity.
  - reflexivity.
  - exists m'. split; [exact H|]. split; [|exact R].
    vm_compute in H. injection H as <-. vm_compute. reflexivity.
Defined.

(** Overlapping moves: [_bson_memmove] gives the destination the bytes that
    the source range held before the move, whichever way the two overlap, and
    changes nothing else. *)
Theorem memmove_overlap base l d s n i :
  (d + n <= length l)%nat -> (s + n <= length l)%nat ->
  exists l', _bson_memmove (mk_block base l) (base + Z.of_nat d) (base + Z.of_nat s) (Z.of_nat n) =
    Done (mk_block base l', base + Z.of_nat d + Z.of_nat n) /\
    length l' = length l /\
    l' !! i = if decide (d <= i < d + n)%nat then l !! (s + (i - d))%nat else l !! i.
Proof.
  intros Hd Hs. exists (moved l d s n). split; [by apply memmove_moved|].
  split; [by apply length_moved | by apply moved_lookup].
Qed.

Lemma memmove_overlap_witness :
  exists l', _bson_memmove (block_of [1; 2; 3; 4; 5; 6]) (4096 + 1) (4096 + 0) 4 =
      Done (mk_block 4096 l', 4096 + 1 + 4) /\ l' !! 4%nat = Some (z2b 4) /\
      l' = map z2b [1; 1; 2; 3; 4; 6].
Proof.
  destruct (memmove_overlap 4096 (map z2b [1; 2; 3; 4; 5; 6]) 1 0 4 4) as (l' & H & _ & Hi);
    [vm_compute; lia..|].
  exists l'. split; [exact H|]. split; [exact Hi|]. vm_compute in H. injection H as <-.
  vm_compute. reflexivity.
Defined.
