(* ===== verification/Types.v ===== *)
(** * BSON types ([include/bson/types.h], [value_ref.h], [*_errc.h])

    Type tags and error codes keep their integer values, since the iterator
    reads any octet as a tag and stores error codes in a length field. *)
From Stdlib Require Import ZArith Lia.
From Stdlib Require Import Strings.Byte.
From stdpp Require Import base numbers list sets.
From S2P Require Import Prelude.
Open Scope Z_scope.

(** ** [enum bson_type] *)
Abbreviation bson_type_eod := 0.
Abbreviation bson_type_double := 1.
Abbreviation bson_type_utf8 := 2.
Abbreviation bson_type_document := 3.
Abbreviation bson_type_array := 4.
Abbreviation bson_type_binary := 5.
Abbreviation bson_type_undefined := 6.
Abbreviation bson_type_oid := 7.
Abbreviation bson_type_bool := 8.
Abbreviation bson_type_datetime := 9.
Abbreviation bson_type_null := 10.
Abbreviation bson_type_regex := 11.
Abbreviation bson_type_dbpointer := 12.
Abbreviation bson_type_code := 13.
Abbreviation bson_type_symbol := 14.
Abbreviation bson_type_codewscope := 15.
Abbreviation bson_type_int32 := 16.
Abbreviation bson_type_timestamp := 17.
Abbreviation bson_type_int64 := 18.
Abbreviation bson_type_decimal128 := 19.
Abbreviation bson_type_maxkey := 127.
Abbreviation bson_type_minkey := 255.

(** ** [enum bson_iter_errc] *)
Abbreviation bson_iter_errc_okay := 0.
Abbreviation bson_iter_errc_short_read := 1.
Abbreviation bson_iter_errc_invalid_type := 2.
Abbreviation bson_iter_errc_invalid_length := 3.
Abbreviation bson_iter_errc_invalid_document := 4.

(** ** [enum bson_view_errc] *)
Inductive bson_view_errc : Type :=
| bson_view_errc_okay
| bson_view_errc_short_read
| bson_view_errc_invalid_header
| bson_view_errc_invalid_terminator.

#[export] Instance bson_view_errc_eq_dec : EqDecision bson_view_errc.
Proof. solve_decision. Defined.

(** ** [bson_value_ref]

    The tagged union of [value_ref.h].  A view (string, document, binary) is
    given by the bytes it denotes, [None] for a null view; a [double] by the
    64 bits of its representation. *)
Inductive bson_value_ref : Type :=
| v_eod
| v_double (bits : Z)
| v_utf8 (s : list byte)
| v_document (d : option (list byte))
| v_array (d : option (list byte))
| v_binary (subtype : byte) (data : list byte)
| v_undefined
| v_oid (o : list byte)
| v_bool (b : bool)
| v_datetime (utc_ms_offset : Z)
| v_null
| v_regex (regex options : option (list byte))
| v_dbpointer (collection : list byte) (object_id : list byte)
| v_code (s : list byte)
| v_symbol (s : list byte)
| v_codewscope
| v_int32 (z : Z)
| v_timestamp (increment utc_sec_offset : Z)
| v_int64 (z : Z)
| v_decimal128 (bytes : list byte)
| v_maxkey
| v_minkey
| v_unknown (tag : Z).

#[export] Instance bson_value_ref_eq_dec : EqDecision bson_value_ref.
Proof. solve_decision. Defined.

(** The [type] member. *)
Definition value_type (v : bson_value_ref) : Z :=
  match v with
  | v_eod => bson_type_eod
  | v_double _ => bson_type_double
  | v_utf8 _ => bson_type_utf8
  | v_document _ => bson_type_document
  | v_array _ => bson_type_array
  | v_binary _ _ => bson_type_binary
  | v_undefined => bson_type_undefined
  | v_oid _ => bson_type_oid
  | v_bool _ => bson_type_bool
  | v_datetime _ => bson_type_datetime
  | v_null => bson_type_null
  | v_regex _ _ => bson_type_regex
  | v_dbpointer _ _ => bson_type_dbpointer
  | v_code _ => bson_type_code
  | v_symbol _ => bson_type_symbol
  | v_codewscope => bson_type_codewscope
  | v_int32 _ => bson_type_int32
  | v_timestamp _ _ => bson_type_timestamp
  | v_int64 _ => bson_type_int64
  | v_decimal128 _ => bson_type_decimal128
  | v_maxkey => bson_type_maxkey
  | v_minkey => bson_type_minkey
  | v_unknown t => t
  end.

(** [mlib_str_view]: an address and a length. *)
Record mlib_str_view : Type := mk_str_view { sv_data : Z; sv_len : Z }.

(** The characters a view denotes. *)
Definition view_bytes (m : block) (s : mlib_str_view) : outcome (list byte) :=
  rd_range m (sv_data s) (sv_len s).
