(* ===== verification/Value.v ===== *)
(** * Value conversions ([include/bson/value_ref.h], [include/bson/iterator.h])

    The coercions of a value to a boolean or a number, and the typed access of
    an element.  A [double] is its 64 bits. *)
From Stdlib Require Import ZArith Lia.
From Stdlib Require Import Strings.Byte.
From stdpp Require Import base numbers list sets.
From S2P Require Import Prelude.
From S2P Require Import Mem.
From S2P Require Import Types.
Open Scope Z_scope.

(** ** The [double] format *)

Definition d_sign (bits : Z) : bool := Z.testbit bits 63.
Definition d_exp (bits : Z) : Z := Z.land (Z.shiftr bits 52) 2047.
Definition d_frac (bits : Z) : Z := Z.land bits (2 ^ 52 - 1).

(** [fpclassify(d) != FP_ZERO]. *)
Definition d_nonzero (bits : Z) : bool := negb ((d_exp bits =? 0) && (d_frac bits =? 0)).

Definition signed (neg : bool) (z : Z) : Z := if neg then - z else z.

(** The conversion [(int64_t)d]: the truncated value, undefined when it does not
    fit. *)
Definition double_to_int64 (bits : Z) : outcome Z :=
  if d_exp bits =? 2047 then Undef
  else if d_exp bits =? 0 then Done 0
  else
    let m := 2 ^ 52 + d_frac bits in
    let e := d_exp bits - 1075 in
    let t := signed (d_sign bits) (if 0 <=? e then Z.shiftl m e else Z.shiftr m (- e)) in
    if decide (is_i64 t) then Done t else Undef.

Definition pack (neg : bool) (exp frac : Z) : Z :=
  (if neg then 2 ^ 63 else 0) + exp * 2 ^ 52 + frac.

(** A positive integer rounded to 53 significant bits, to nearest, ties to
    even. *)
Definition round53 (z : Z) : Z :=
  let k := Z.log2 z - 52 in
  if k <=? 0 then z
  else
    let q := Z.shiftr z k in
    let r := z - Z.shiftl q k in
    let half := 2 ^ (k - 1) in
    let up := (half <? r) || ((half =? r) && Z.odd q) in
    Z.shiftl (if up then q + 1 else q) k.

(** The conversion [(double)z] of a 64-bit integer. *)
Definition int64_to_double (z : Z) : Z :=
  if z =? 0 then 0
  else
    let v := round53 (Z.abs z) in
    let e := Z.log2 v in
    let m := if e <=? 52 then Z.shiftl v (52 - e) else Z.shiftr v (e - 52) in
    pack (z <? 0) (e + 1023) (m - 2 ^ 52).

(** ** Coercions *)

(** [okay] is the value stored through the pointer. *)
Definition bson_value_as_bool (val : bson_value_ref) : outcome bool :=
  match val with
  | v_eod => Done false
  | v_double d => Done (d_nonzero d)
  | v_utf8 s => Done (negb (zlen s =? 0))
  | v_document (Some d) | v_array (Some d) =>
      let* n := _bson_read_u32le (mk_block 16 d) 16 in Done (5 <? n)
  | v_document None | v_array None => Undef
  | v_binary _ data => Done (negb (zlen data =? 0))
  | v_undefined => Done false
  | v_oid _ => Done true
  | v_bool b => Done b
  | v_datetime _ => Done true
  | v_null => Done false
  | v_regex _ _ | v_dbpointer _ _ | v_code _ | v_symbol _ | v_codewscope => Done true
  | v_int32 z => Done (negb (z =? 0))
  | v_timestamp _ _ => Done true
  | v_int64 z => Done (negb (z =? 0))
  | v_decimal128 _ => Done true
  | v_maxkey | v_minkey => Done false
  | v_unknown _ => Done false
  end.

Definition bson_value_as_double (val : bson_value_ref) : bool * Z :=
  match val with
  | v_double d => (true, d)
  | v_bool b => (true, int64_to_double (if b then 1 else 0))
  | v_int32 z => (true, int64_to_double z)
  | v_int64 z => (true, int64_to_double z)
  | _ => (false, 0)
  end.

Definition bson_value_as_int64 (val : bson_value_ref) : outcome (bool * Z) :=
  match val with
  | v_double d => let* z := double_to_int64 d in Done (true, z)
  | v_bool b => Done (true, if b then 1 else 0)
  | v_int32 z => Done (true, z)
  | v_int64 z => Done (true, z)
  | _ => Done (false, 0)
  end.

Definition bson_value_as_int32 (val : bson_value_ref) : outcome (bool * Z) :=
  let* (okay, z) := bson_value_as_int64 val in Done (okay, s32 z).

(** [operator==] with an integer. *)
Definition value_eq_int (val : bson_value_ref) (i : Z) : outcome bool :=
  let* (is_int, z) := bson_value_as_int64 val in Done ((z =? i) && is_int).

(** [operator==] with a string. *)
Definition value_eq_str (val : bson_value_ref) (s : list byte) : bool :=
  match val with v_utf8 t => bool_decide (t = s) | _ => false end.

(** The bytes of the view, [None] for the null view. *)
Definition get_document_or_array (val : bson_value_ref) : option (list byte) :=
  match val with
  | v_document d => d
  | v_array d => d
  | _ => None
  end.

(** ** Exact conversions *)

Lemma d_fields neg e f :
  0 <= e < 2048 -> 0 <= f < 2 ^ 52 ->
  d_sign (pack neg e f) = neg /\ d_exp (pack neg e f) = e /\ d_frac (pack neg e f) = f.
Proof.
  intros He Hf. set (s := if neg then 1 else 0).
  assert (pack neg e f = f + (e + s * 2048) * 2 ^ 52) as -> by (unfold pack; subst s; destruct neg; cbv iota; lia).
  unfold d_sign, d_exp, d_frac. rewrite Z.testbit_odd, !Z.shiftr_div_pow2 by lia.
  change 2047 with (Z.ones 11). change (2 ^ 52 - 1) with (Z.ones 52). rewrite !Z.land_ones by lia.
  rewrite (Z.mod_add f), (Z.mod_small f), (Z.div_add f), (Z.div_small f) by lia.
  rewrite Z.add_0_l. change 2048 with (2 ^ 11). rewrite (Z.mod_add e), (Z.mod_small e) by lia.
  replace (2 ^ 63) with (2 ^ 52 * 2 ^ 11) by lia. rewrite <- Z.div_div by lia.
  rewrite (Z.div_add f), (Z.div_small f) by lia. rewrite Z.add_0_l.
  rewrite (Z.div_add e), (Z.div_small e) by lia. subst s. by destruct neg.
Qed.

Lemma log2_bounds v : 0 < v < 2 ^ 53 -> 0 <= Z.log2 v <= 52 /\ 2 ^ Z.log2 v <= v < 2 ^ (Z.log2 v + 1).
Proof.
  intros Hv. pose proof (Z.log2_spec v ltac:(lia)) as Hl. rewrite <- Z.add_1_r in Hl.
  pose proof (Z.log2_nonneg v). split; [|done]. split; [done|].
  assert (Z.log2 v < 53); [|lia]. apply Z.log2_lt_pow2; lia.
Qed.

(** The mantissa of an integer below [2^53]. *)
Lemma mantissa v : 0 < v < 2 ^ 53 ->
  2 ^ 52 <= v * 2 ^ (52 - Z.log2 v) < 2 ^ 53.
Proof.
  intros Hv. destruct (log2_bounds v Hv) as [He [Hl Hh]]. set (e := Z.log2 v) in *.
  replace (2 ^ 52) with (2 ^ e * 2 ^ (52 - e)) by (rewrite <- Z.pow_add_r by lia; f_equal; lia).
  replace (2 ^ 53) with (2 ^ (e + 1) * 2 ^ (52 - e)) by (rewrite <- Z.pow_add_r by lia; f_equal; lia).
  assert (0 < 2 ^ (52 - e)) by (apply Z.pow_pos_nonneg; lia). nia.
Qed.

Lemma signed_abs z : signed (z <? 0) (Z.abs z) = z.
Proof. unfold signed. destruct (Z.ltb_spec z 0); lia. Qed.

Lemma double_roundtrip z : - 2 ^ 53 < z < 2 ^ 53 -> double_to_int64 (int64_to_double z) = Done z.
Proof.
  intros Hz. unfold int64_to_double. destruct (Z.eqb_spec z 0) as [->|Hnz]; [done|].
  set (v := Z.abs z). assert (0 < v < 2 ^ 53) as Hv by (subst v; lia).
  destruct (log2_bounds v Hv) as [He _]. pose proof (mantissa v Hv) as Hm.
  assert (round53 v = v) as -> by (unfold round53; destruct (Z.leb_spec (Z.log2 v - 52) 0); [done | lia]).
  set (e := Z.log2 v) in *. destruct (Z.leb_spec e 52); [|lia].
  rewrite Z.shiftl_mul_pow2 by lia. set (m := v * 2 ^ (52 - e)) in *.
  destruct (d_fields (z <? 0) (e + 1023) (m - 2 ^ 52)) as (Fs & Fe & Ff); [lia..|].
  unfold double_to_int64. rewrite Fs, Fe, Ff.
  destruct (Z.eqb_spec (e + 1023) 2047); [lia|]. destruct (Z.eqb_spec (e + 1023) 0); [lia|].
  replace (2 ^ 52 + (m - 2 ^ 52)) with m by lia.
  assert ((if 0 <=? e + 1023 - 1075 then Z.shiftl m (e + 1023 - 1075)
           else Z.shiftr m (- (e + 1023 - 1075))) = v) as ->.
  { destruct (Z.leb_spec 0 (e + 1023 - 1075)).
    - assert (e = 52) as E by lia. subst m. rewrite E. change (2 ^ (52 - 52)) with 1.
      change (52 + 1023 - 1075) with 0. rewrite Z.shiftl_0_r. lia.
    - rewrite Z.shiftr_div_pow2 by lia. subst m. replace (- (e + 1023 - 1075)) with (52 - e) by lia.
      apply Z.div_mul. apply Z.pow_nonzero; lia. }
  subst v. rewrite signed_abs. rewrite decide_True; [done|]. unfold is_i64. lia.
Qed.

(** Integer coercions: a value other than a [double] whose integer coercion
    succeeds with a magnitude below [2^53] also coerces to a [double], which
    coerces back to the same integer and compares equal to it. *)
Theorem as_double_as_int64 val z :
  bson_value_as_int64 val = Done (true, z) -> - 2 ^ 53 < z < 2 ^ 53 ->
  match val with v_double _ => False | _ => True end ->
  exists bits, bson_value_as_double val = (true, bits) /\
    bson_value_as_int64 (v_double bits) = Done (true, z) /\
    value_eq_int (v_double bits) z = Done true.
Proof.
  intros H Hz Hd. exists (int64_to_double z). unfold value_eq_int, bson_value_as_int64 at 1 2.
  rewrite double_roundtrip by done. ostep. rewrite Z.eqb_refl.
  destruct val; try (exfalso; exact Hd); cbn [bson_value_as_int64] in H; try discriminate H;
    injection H as <-; (split; [reflexivity | split; reflexivity]).
Qed.

Lemma as_double_as_int64_witness :
  bson_value_as_double (v_int32 (-5)) = (true, 13840687554816376832) /\
  value_eq_int (v_double 13840687554816376832) (-5) = Done true.
Proof.
  destruct (as_double_as_int64 (v_int32 (-5)) (-5)) as (bits & E & _ & V).
  - reflexivity.
  - vm_compute. split; reflexivity.
  - exact Logic.I.
  - vm_compute in E. injection E as <-. split; [vm_compute; reflexivity | exact V].
Defined.
