(* ===== verification/View.v ===== *)
(** * Document views ([include/bson/view.h])

    The validation that every document read from the outside goes through. *)
From Stdlib Require Import ZArith Lia.
From Stdlib Require Import Strings.Byte.
From stdpp Require Import base numbers list sets.
From S2P Require Import Prelude.
From S2P Require Import Mem.
From S2P Require Import Types.
Open Scope Z_scope.

(** The document pointer of the returned view (0 for the null view) and the
    value stored through [error]. *)
Definition bson_view_from_data (m : block) (data data_len : Z)
  : outcome (Z * bson_view_errc) :=
  if data_len <? 5 then Done (0, bson_view_errc_short_read)
  else
    let* n := _bson_read_u32le m data in
    let len := s32 n in
    if len <? 5 then Done (0, bson_view_errc_invalid_header)
    else if u32 len >? data_len then Done (0, bson_view_errc_short_read)
    else
      let* t := rd8 m (data + (len - 1)) in
      if negb (b2z t =? 0) then Done (0, bson_view_errc_invalid_terminator)
      else Done (data, bson_view_errc_okay).

Definition _bson_view_from_ptr (m : block) (p : Z) : outcome Z :=
  if p =? 0 then Done 0
  else
    let* n := _bson_read_u32le m p in
    let len := s32 n in
    assert! 0 <=? len in omap_outcome fst (bson_view_from_data m p (u32 len)).

(** [bson_view::from_data]: the reason is thrown instead. *)
Definition view_from_data (m : block) (b datalen : Z) : outcome (Z + bson_view_errc) :=
  let* (v, error) := bson_view_from_data m b datalen in
  match error with
  | bson_view_errc_okay => Done (inl v)
  | reason => Done (inr reason)
  end.

(** [bson_view::empty]. *)
Definition view_empty (m : block) (p : Z) : outcome bool :=
  if p =? 0 then Done true
  else let* n := _bson_byte_size m p in Done (n =? 5).

(** ** What a valid document is *)

(** [n] bytes at [p] framed as a document: header, body, terminator. *)
Definition doc_at (m : block) (p n : Z) : Prop :=
  5 <= n <= INT32_MAX /\ bytes_at m p (le32 n) /\ bytes_at m (p + (n - 1)) [x00].

Lemma doc_at_bounds m p n : doc_at m p n -> b_base m <= p /\ p + n <= b_end m.
Proof.
  intros (_ & H1 & H2). apply bytes_at_bounds in H1, H2.
  rewrite zlen_cons, zlen_nil in H2. lia.
Qed.

Lemma doc_at_size m p n : p <> 0 -> doc_at m p n -> _bson_byte_size m p = Done n.
Proof.
  intros Hp (Hn & H & _). unfold _bson_byte_size. destruct (Z.eqb_spec p 0); [lia|].
  apply read_le32; [unfold is_u32; lia | done].
Qed.

(** The data the caller declares addressable really is. *)
Definition addressable (m : block) (p n : Z) : Prop := b_base m <= p /\ p + n <= b_end m.

(** The validation accepts exactly the framed documents that fit, and says why
    it rejects the others. *)
Lemma view_from_data_run m p n :
  0 < p -> addressable m p n ->
  exists v e, bson_view_from_data m p n = Done (v, e) /\
  match e with
  | bson_view_errc_okay => v = p /\ exists len, len <= n /\ doc_at m p len
  | bson_view_errc_short_read =>
      v = 0 /\ (n < 5 \/ exists len, is_u32 len /\ bytes_at m p (le32 len) /\ n < len /\ 5 <= s32 len)
  | bson_view_errc_invalid_header =>
      v = 0 /\ exists len, is_u32 len /\ bytes_at m p (le32 len) /\ s32 len < 5
  | bson_view_errc_invalid_terminator =>
      v = 0 /\ exists len b, is_u32 len /\ bytes_at m p (le32 len) /\ 5 <= len <= n /\
        bytes_at m (p + (len - 1)) [b] /\ b <> x00
  end.
Proof.
  intros Hp [Hb He]. unfold bson_view_from_data.
  destruct (Z.ltb_spec n 5); [do 2 eexists; split; [done|]; simpl; auto|].
  destruct (read_u32_in m p) as (len & -> & Hlen & Hat); [lia..|]. simpl.
  destruct (Z.ltb_spec (s32 len) 5); [do 2 eexists; split; [done|]; simpl; eauto 6|].
  assert (s32 len = len) as El.
  { unfold s32, u32, is_u32 in *. destruct (Z.ltb_spec (len mod UINT32_SPAN) 2147483648); divlia. }
  rewrite El, u32_id by done.
  destruct (Z.gtb_spec len n).
  { do 2 eexists; split; [done|]; simpl. split; [done|]. right. exists len. rewrite El. split_and!; (done || lia). }
  destruct (rd8_in m (p + (len - 1))) as [b Hbyte]; [lia|]. rewrite Hbyte. simpl.
  apply rd8_done in Hbyte.
  destruct (Z.eqb_spec (b2z b) 0) as [E|E]; do 2 eexists; (split; [done|]); simpl.
  - split; [done|]. exists len. apply b2z_0_iff in E as ->.
    unfold doc_at. pose proof (s32_range len). unfold is_i32 in *. rewrite El in *.
    split_and!; (done || lia).
  - split; [done|]. exists len, b. rewrite El in *. split_and!; try done; try lia.
    intros ->. by apply E.
Qed.

(** ** Claims *)

(** Validation is exact: on [n] addressable bytes [bson_view::from_data]
    reads only inside them, and accepts if and only if they start with a
    framed document (header between five and [n], null terminator at its end);
    an accepted view is the data pointer itself. *)
Theorem view_from_data_exact m p n :
  0 < p -> addressable m p n ->
  exists r, view_from_data m p n = Done r /\
    (forall v, r = inl v <-> v = p /\ exists len, len <= n /\ doc_at m p len).
Proof.
  intros Hp Ha. destruct (view_from_data_run m p n Hp Ha) as (v & e & H & He).
  unfold view_from_data. rewrite H. ostep.
  assert (forall len, doc_at m p len -> bytes_at m p (le32 len) /\ s32 len = len /\ 5 <= len) as Hd.
  { intros len ((? & ?) & ? & ?). split_and!; [done | apply s32_id; unfold is_i32; lia | lia]. }
  assert (forall a b, is_u32 a -> is_u32 b -> bytes_at m p (le32 a) -> bytes_at m p (le32 b) -> a = b) as Hinj.
  { intros a b Ha' Hb' H1%read_le32 H2%read_le32; [congruence | done..]. }
  assert (forall len, doc_at m p len -> is_u32 len) as Hu by (intros len [? _]; unfold is_u32; lia).
  destruct e; eexists; (split; [done|]); intros w;
    [|split; [done|]; intros (_ & len & Hlen & Hdoc); exfalso;
      destruct (Hd _ Hdoc) as (? & ? & ?) ..].
  - destruct He as [-> ?]. split; [by intros [= <-] | by intros [-> _]].
  - destruct He as [_ [? | (l2 & ? & ? & ? & ?)]]; [lia|].
    assert (len = l2) as -> by auto. lia.
  - destruct He as (_ & l2 & ? & ? & ?). assert (len = l2) as -> by auto. lia.
  - destruct He as (_ & l2 & b & ? & ? & ? & Hb & Hn). assert (len = l2) as -> by auto.
    destruct Hdoc as (_ & _ & Hz). apply rd8_at in Hz, Hb. congruence.
Qed.

Lemma view_from_data_exact_witness :
  let m := block_of [5; 0; 0; 0; 0; 77] in
  view_from_data m 4096 6 = Done (inl 4096) /\ (exists len, len <= 6 /\ doc_at m 4096 len).
Proof.
  intros m. destruct (view_from_data_exact m 4096 6) as (r & H & Hr);
    [reflexivity | vm_compute; intuition discriminate |].
  assert (view_from_data m 4096 6 = Done (inl 4096)) as E by (vm_compute; reflexivity).
  split; [exact E|]. rewrite E in H. injection H as <-. destruct (proj1 (Hr 4096) eq_refl) as [_ ?].
  assumption.
Defined.
