(* ===== verification/Iterator.v ===== *)
(** * Document iteration ([include/bson/detail/iter.h], [include/bson/iterator.h])

    An iterator is an address, the length of its element's key, and the number
    of bytes left in the document (or a negated error code).  Every access is a
    checked read of the block, every [BV_ASSERT] is an [assert!]. *)
From Stdlib Require Import ZArith Lia.
From Stdlib Require Import Strings.Byte.
From stdpp Require Import base numbers list sets.
From S2P Require Import Prelude.
From S2P Require Import Integer.
From S2P Require Import Mem.
From S2P Require Import Types.
From S2P Require Import View.
Import mlibMath.
Open Scope Z_scope.

(** ** Value sizes: [detail/iter.h] *)

(** Size of a regular expression: two null-terminated strings, with two more
    null bytes required after the options. *)
Definition _bson_value_re_len (m : block) (valptr maxlen : Z) : outcome Z :=
  assert! 0 <? maxlen in
  let info := mlib_math_try in
  let* n := strnlen32 m valptr (I maxlen) in
  let (info, rx_len) := mlibMathNonNegativeInt32 info n in
  let rx_len := rx_len + 1 in
  let opt_begin_ptr := valptr + rx_len in
  let (info, opt_bytes_avail) := mlibMathNonNegativeInt32 info (sub (I maxlen) (I rx_len)) in
  let* n := strnlen32 m opt_begin_ptr (I opt_bytes_avail) in
  let (info, opt_len) := mlibMathNonNegativeInt32 info n in
  let (info, trailing_bytes_remain) :=
    mlibMathNonNegativeInt32 info (sub (I opt_bytes_avail) (I opt_len)) in
  mlib_math_catch info (Done (- bson_iter_errc_invalid_length))
    (if trailing_bytes_remain <? 2 then Done (- bson_iter_errc_short_read)
     else
       let opt_len := opt_len + 1 in
       let (info, ret) := mlibMathNonNegativeInt32 info (add (I rx_len) (I opt_len)) in
       mlib_math_catch info (Done (- bson_iter_errc_invalid_length)) (Done ret)).

(** The [const_sizes] table of [_bson_valsize], all 256 entries. *)
Definition const_sizes : list Z :=
  [0; 8; 4; 0; 0; 4 + 1; 0; 12; 1; 8; 0; INT32_MAX; 12; 4; 4; 4 + 4; 4; 8; 8; 16]
  ++ replicate 107 INT32_MAX ++ [0] ++ replicate 127 INT32_MAX ++ [0].

(** The [varsize_pick] table: the tags whose value starts with a length. *)
Definition varsize_pick : list bool :=
  [false; false; true; true; true; true; false; false; false; false; false; false;
   true; true; true; true; false; false; false; false] ++ replicate 236 false.

(** [const_sizes[tag]] and [varsize_pick[tag]]. *)
Definition const_size_at (tag : Z) : Z := nth (Z.to_nat tag) const_sizes 0.
Definition varsize_at (tag : Z) : bool := nth (Z.to_nat tag) varsize_pick false.
#[global] Arguments const_size_at : simpl never.
#[global] Arguments varsize_at : simpl never.

Definition _bson_valsize (m : block) (tag valptr val_maxlen : Z) : outcome Z :=
  assert! 0 <? val_maxlen in
  assert! tag <? 256 in
  let const_size := const_size_at tag in
  let has_varsize_prefix := varsize_at tag in
  let finish full_len :=
    assert! 0 <=? full_len in
    if full_len <? val_maxlen then
      assert! full_len <? INT32_MAX in Done full_len
    else if tag =? bson_type_regex then _bson_value_re_len m valptr val_maxlen
    else if const_size =? INT32_MAX then Done (- bson_iter_errc_invalid_type)
    else Done (- bson_iter_errc_invalid_length) in
  if has_varsize_prefix then
    if negb (val_maxlen >? 4) then Done (- bson_iter_errc_invalid_length)
    else
      let* n := _bson_read_u32le m valptr in
      let varlen := s32 n in
      assert! 0 <=? varlen in
      finish (const_size + varlen)
  else finish const_size.

(** ** Iterators *)

Record bson_iterator : Type := mk_iterator { _ptr : Z; _keylen : Z; _rlen : Z }.

Definition _bson_iterator_error (err : Z) : bson_iterator := mk_iterator 0 0 (- err).

(** The types whose size check is skipped when more than 16 bytes are left. *)
Definition is_fixed_size (type : Z) : bool :=
  (type =? bson_type_null) || (type =? bson_type_undefined) || (type =? bson_type_timestamp)
  || (type =? bson_type_datetime) || (type =? bson_type_double) || (type =? bson_type_bool)
  || (type =? bson_type_decimal128) || (type =? bson_type_int32) || (type =? bson_type_int64).

Definition _bson_iterator_at (m : block) (data maxlen : Z) : outcome bson_iterator :=
  assert! 0 <? maxlen in
  let last_index := maxlen - 1 in
  assert! 0 <=? last_index in
  let* z := rd8 m (data + last_index) in
  assert! b2z z =? 0 in
  let* t := rd8 m data in
  let type := b2z t in
  if maxlen =? 1 then Done (mk_iterator data 0 1)
  else
    let key_maxlen := maxlen - 1 in
    assert! 1 <=? key_maxlen in
    let keyptr := data + 1 in
    let* keylen := strlen m keyptr in
    assert! keylen <? INT32_MAX in
    assert! (0 <=? keylen) in
    assert! keylen <? key_maxlen in
    let* k := rd8 m (keyptr + keylen) in
    assert! b2z k =? 0 in
    let p1 := key_maxlen - keylen in
    assert! 0 <? p1 in
    let val_maxlen := p1 - 1 in
    assert! 0 <=? val_maxlen in
    if val_maxlen <? 1 then Done (_bson_iterator_error bson_iter_errc_short_read)
    else
      let need_check_size := if val_maxlen >? 16 then negb (is_fixed_size type) else true in
      let ok := Done (mk_iterator data keylen maxlen) in
      if need_check_size then
        let valptr := keyptr + (keylen + 1) in
        let* vallen := _bson_valsize m type valptr val_maxlen in
        if vallen <? 0 then Done (_bson_iterator_error (- vallen))
        else if (type =? bson_type_document) || (type =? bson_type_array) then
          let* e := rd8 m (valptr + (vallen - 1)) in
          if negb (b2z e =? 0) then Done (_bson_iterator_error bson_iter_errc_invalid_document)
          else ok
        else ok
      else ok.

Definition _bson_recover_iterator (m : block) (doc_data_begin elem_offset : Z)
  : outcome bson_iterator :=
  assert! 4 <=? elem_offset in
  let* n := _bson_read_u32le m doc_data_begin in
  let len := s32 n in
  assert! elem_offset <? len in
  _bson_iterator_at m (doc_data_begin + elem_offset) (len - elem_offset).

Definition _bson_begin (m : block) (data : Z) : outcome bson_iterator :=
  assert! negb (data =? 0) in
  let* n := _bson_read_u32le m data in
  let sz := s32 n in
  let tailsize := sz - 4 in
  assert! 0 <? tailsize in
  assert! tailsize <? INT32_MAX in
  _bson_iterator_at m (data + 4) tailsize.

Definition _bson_end (m : block) (v : Z) : outcome bson_iterator :=
  assert! negb (v =? 0) in
  let* len := _bson_read_u32le m v in
  _bson_iterator_at m (v + len - 1) 1.

Definition bson_iterator_eq (left right : bson_iterator) : bool := _ptr left =? _ptr right.
Definition bson_stop (it : bson_iterator) : bool := _rlen it <=? 1.
Definition _bson_iterator_value_ptr (it : bson_iterator) : Z := _ptr it + 1 + _keylen it + 1.
Definition bson_iterator_data (it : bson_iterator) : Z := _ptr it.

Definition bson_iterator_type (m : block) (it : bson_iterator) : outcome Z :=
  assert! 0 <? _rlen it in omap_outcome b2z (rd8 m (_ptr it)).

Definition bson_iterator_data_size (m : block) (it : bson_iterator) : outcome Z :=
  assert! negb (bson_stop it) in
  let val_offset := 1 + _keylen it + 1 in
  assert! 0 <? val_offset in
  let* type := bson_iterator_type m it in
  let* valsize := _bson_valsize m type (_ptr it + val_offset) INT32_MAX in
  let remain := INT32_MAX - valsize in
  assert! val_offset <? remain in
  Done (u32 (val_offset + valsize)).

Definition bson_next (m : block) (it : bson_iterator) : outcome bson_iterator :=
  let* n := bson_iterator_data_size m it in
  let skip := s32 n in
  let newptr := bson_iterator_data it + skip in
  let remain := _rlen it - skip in
  assert! 0 <=? remain in
  _bson_iterator_at m newptr remain.

Definition bson_iterator_get_error (it : bson_iterator) : Z :=
  if _rlen it <? 0 then - _rlen it else bson_iter_errc_okay.

(** The key, as the characters the returned view denotes. *)
Definition bson_key (m : block) (it : bson_iterator) : outcome (list byte) :=
  assert! _keylen it + 1 <=? _rlen it in
  assert! negb (_ptr it =? 0) in
  view_bytes m (mk_str_view (_ptr it + 1) (u32 (_keylen it))).

Definition _bson_key_eq (m : block) (it : bson_iterator) (key : list byte) : outcome bool :=
  assert! 0 <=? _keylen it in
  if (zlen key >? INT32_MAX) || negb (s32 (zlen key) =? _keylen it) then Done false
  else
    let* k := rd_range m (_ptr it + 1) (zlen key) in Done (bool_decide (k = key)).

(** ** Loops: [bson_foreach_subrange]

    The body returns [inl s] to continue with state [s] and [inr r] to leave
    the loop.  [None] means that the fuel ran out. *)
Section Foreach.
Context {S R : Type} (m : block).

Fixpoint foreach_subrange (fuel : nat) (it sentinel : bson_iterator)
  (body : S -> bson_iterator -> outcome (S + R)) (s : S) : outcome (option (S + R)) :=
  match fuel with
  | O => Done None
  | Datatypes.S fuel =>
      if bson_iterator_eq it sentinel then Done (Some (inl s))
      else
        let* r := body s it in
        match r with
        | inr r => Done (Some (inr r))
        | inl s =>
            let* it' := if bson_iterator_get_error it =? bson_iter_errc_okay
                        then bson_next m it else Done sentinel in
            foreach_subrange fuel it' sentinel body s
        end
  end.
End Foreach.

Definition _bson_find (fuel : nat) (m : block) (v : Z) (key : list byte)
  : outcome (option bson_iterator) :=
  let* b := _bson_begin m v in
  let* e := _bson_end m v in
  let* r := foreach_subrange m fuel b e
    (fun (_ : unit) it =>
       if bson_iterator_get_error it =? bson_iter_errc_okay then
         let* eq := _bson_key_eq m it key in
         Done (if eq then inr it else inl tt)
       else Done (inl tt)) tt in
  match r with
  | None => Done None
  | Some (inr it) => Done (Some it)
  | Some (inl _) => omap_outcome Some (_bson_end m v)
  end.

(** ** Values *)

Definition _bson_read_stringlike_at (m : block) (p : Z) : outcome mlib_str_view :=
  let* n := _bson_read_u32le m p in
  let len := s32 n in
  assert! 1 <=? len in Done (mk_str_view (p + 4) (u32 len - 1)).

Definition _bson_iterator_stringlike (m : block) (it : bson_iterator)
  : outcome mlib_str_view :=
  let after_key := _bson_iterator_value_ptr it in
  let* r := _bson_read_stringlike_at m after_key in
  assert! 0 <? sv_len r in
  assert! sv_len r <? _rlen it in
  Done r.

(** The document value of an element: its view, validated again. *)
Definition iterator_document (m : block) (it : bson_iterator)
  : outcome (option (list byte)) :=
  let valptr := _bson_iterator_value_ptr it in
  let val_remain := _rlen it - (valptr - _ptr it) in
  assert! 0 <? val_remain in
  let* (v, _) := bson_view_from_data m valptr val_remain in
  if v =? 0 then Done None
  else
    let* n := _bson_byte_size m v in
    omap_outcome Some (rd_range m v n).

Definition iterator_regex (m : block) (p : Z)
  : outcome (option (list byte) * option (list byte)) :=
  let info := mlib_math_try in
  let* n := strlen32 m p in
  let (info, rx_len) := castUInt32 info n in
  let options := p + rx_len + 1 in
  let* n := strlen32 m options in
  let (info, opt_len) := castUInt32 info n in
  mlib_math_catch info (Done (None, None))
    (let* rx := rd_range m p rx_len in
     let* opt := rd_range m options opt_len in
     Done (Some rx, Some opt)).

Definition bson_iterator_value (m : block) (it : bson_iterator) : outcome bson_value_ref :=
  assert! bson_iterator_get_error it =? bson_iter_errc_okay in
  let* t := bson_iterator_type m it in
  let p := _bson_iterator_value_ptr it in
  let stringlike := let* r := _bson_iterator_stringlike m it in view_bytes m r in
  match t with
  | bson_type_eod => Done v_eod
  | bson_type_undefined => Done v_undefined
  | bson_type_null => Done v_null
  | bson_type_maxkey => Done v_maxkey
  | bson_type_minkey => Done v_minkey
  | bson_type_double => omap_outcome v_double (_bson_read_u64le m p)
  | bson_type_utf8 => omap_outcome v_utf8 stringlike
  | bson_type_array => omap_outcome v_array (iterator_document m it)
  | bson_type_document => omap_outcome v_document (iterator_document m it)
  | bson_type_binary =>
      let* n := _bson_read_u32le m p in
      let size := s32 n in
      assert! 0 <=? size in
      let* subtype := rd8 m (p + 4) in
      omap_outcome (v_binary subtype) (rd_range m (p + 5) size)
  | bson_type_oid => omap_outcome v_oid (rd_range m p 12)
  | bson_type_bool =>
      let* b := rd8 m p in Done (v_bool (negb (b2z b =? 0)))
  | bson_type_datetime =>
      let* n := _bson_read_u64le m p in Done (v_datetime (s64 n))
  | bson_type_regex =>
      let* (rx, opt) := iterator_regex m p in Done (v_regex rx opt)
  | bson_type_dbpointer =>
      let* n := _bson_read_u32le m p in
      let coll_name_size := s32 n in
      assert! 0 <? coll_name_size in
      let* oid := rd_range m (p + 4 + coll_name_size) 12 in
      let* coll := rd_range m (p + 4) (coll_name_size - 1) in
      Done (v_dbpointer coll oid)
  | bson_type_code => omap_outcome v_code stringlike
  | bson_type_symbol => omap_outcome v_symbol stringlike
  | bson_type_codewscope => Abort
  | bson_type_int32 =>
      let* n := _bson_read_u32le m p in Done (v_int32 (s32 n))
  | bson_type_timestamp =>
      let* a := _bson_read_u32le m p in
      let* b := _bson_read_u32le m (p + 4) in
      Done (v_timestamp a b)
  | bson_type_int64 =>
      let* n := _bson_read_u64le m p in Done (v_int64 (s64 n))
  | bson_type_decimal128 => omap_outcome v_decimal128 (rd_range m p 16)
  | t => Done (v_unknown t)
  end.
