(* ===== verification/IteratorSafe.v ===== *)
(** * Memory safety and termination of iteration

    On any block that [bson_view_from_data] accepted, walking the elements never
    leaves the document, whatever its bytes are; a corrupt element gives an
    error iterator, and a negative length prefix stops the process. *)
From Stdlib Require Import ZArith Lia.
From Stdlib Require Import Strings.Byte.
From stdpp Require Import base numbers list sets.
From S2P Require Import Prelude.
From S2P Require Import Integer.
From S2P Require Import Mem.
From S2P Require Import Types.
From S2P Require Import View.
From S2P Require Import Iterator.
Import mlibMath.
Open Scope Z_scope.

(** A cast whose operand is clean ([C]) and has a known value in range ([V]). *)
Ltac run_cast C V := rewrite (nonneg32_ok _ _ C) by (rewrite V; lia); rewrite V.

(** ** Value sizes *)

(** Two adjacent null-terminated strings. *)
Definition cstring_pair (rx opt : list byte) : list byte := rx ++ x00 :: opt ++ [x00].

Lemma strnlen32_at m a s n :
  bytes_at m a (s ++ [x00]) -> x00 ∉ s -> zlen s < n <= INT32_MAX ->
  exists v, strnlen32 m a (I n) = Done v /\ clean v /\ i64 v = zlen s.
Proof.
  intros Hat Hs Hn. pose proof (zlen_nonneg s).
  destruct (bytes_from_at _ _ _ Hat) as [k E]. rewrite <- app_assoc in E. simpl in E.
  apply strnlen32_run; [lia | lia|]. rewrite E.
  apply (strnlen_loop_nul s k 0 n Hs). lia.
Qed.

Lemma strnlen32_in m a n :
  b_base m <= a -> 0 <= n <= INT32_MAX -> a + n <= b_end m ->
  exists v k, strnlen32 m a (I n) = Done v /\ clean v /\ i64 v = k /\ 0 <= k <= n /\
    (k < n -> exists s, bytes_at m a (s ++ [x00]) /\ x00 ∉ s /\ k = zlen s).
Proof.
  intros Ha Hn He.
  destruct (strnlen_loop_in (bytes_from m a) 0 n) as (k & Hk & Hr & Hs); [lia| |].
  { unfold bytes_from. destruct (Z.leb_spec (b_base m) a); [|lia].
    unfold b_end, zlen in *. rewrite length_drop. lia. }
  destruct (strnlen32_run m a n k) as (v & Hv & Hc & Ev); [done..|].
  exists v, k. split_and!; try done; try lia. intros Hkn.
  destruct (Hs Hkn) as (s & t & Et & Hns & ->). exists s. split_and!; [|done|lia].
  unfold bytes_from in Et. destruct (Z.leb_spec (b_base m) a); [|lia].
  exists (take (Z.to_nat (a - b_base m)) (b_bytes m)), t. rewrite <- app_assoc. simpl.
  rewrite <- Et, take_drop. split; [done|].
  unfold b_end, zlen in *. rewrite length_take. lia.
Qed.

(** The regex length on two strings that are there. *)
Lemma re_len_at m p rx opt maxlen :
  bytes_at m p (cstring_pair rx opt) -> x00 ∉ rx -> x00 ∉ opt ->
  zlen rx + zlen opt + 3 < maxlen + 1 -> maxlen <= INT32_MAX ->
  _bson_value_re_len m p maxlen = Done (zlen rx + zlen opt + 2).
Proof.
  intros Hat Hrx Hopt Hlen Hmax. pose proof (zlen_nonneg rx). pose proof (zlen_nonneg opt).
  unfold cstring_pair in Hat. rewrite (cons_middle x00 rx), app_assoc in Hat.
  apply bytes_at_app in Hat as [H1 H2]. rewrite zlen_app, zlen_cons, zlen_nil in H2.
  unfold _bson_value_re_len. destruct (Z.ltb_spec 0 maxlen); [|lia].
  destruct (strnlen32_at m p rx maxlen H1 Hrx) as (v & -> & Hc & Hv); [lia|]. ostep.
  run_cast Hc Hv.
  destruct (sub_I maxlen (zlen rx + 1)) as [C1 V1]; [unfold is_i64; lia..|].
  run_cast C1 V1.
  replace (p + (zlen rx + (1 + 0))) with (p + (zlen rx + 1)) in H2 by lia.
  destruct (strnlen32_at m _ opt (maxlen - (zlen rx + 1)) H2 Hopt) as (w & -> & Hcw & Hw); [lia|].
  ostep. run_cast Hcw Hw.
  destruct (sub_I (maxlen - (zlen rx + 1)) (zlen opt)) as [C2 V2]; [unfold is_i64; lia..|].
  run_cast C2 V2.
  rewrite !catch_ok. destruct (Z.ltb_spec (maxlen - (zlen rx + 1) - zlen opt) 2); [lia|].
  destruct (add_I (zlen rx + 1) (zlen opt + 1)) as [C3 V3]; [unfold is_i64; lia..|].
  run_cast C3 V3. rewrite catch_ok. f_equal. lia.
Qed.

(** In bounds the regex length is defined: an error, or the length of two
    strings that end before the last byte. *)
Lemma re_len_in m p maxlen :
  b_base m <= p -> 0 < maxlen <= INT32_MAX -> p + maxlen <= b_end m ->
  exists z, _bson_value_re_len m p maxlen = Done z /\
  (z = - bson_iter_errc_invalid_length \/ z = - bson_iter_errc_short_read \/
   exists rx opt, bytes_at m p (cstring_pair rx opt) /\ x00 ∉ rx /\ x00 ∉ opt /\
     z = zlen rx + zlen opt + 2 /\ z < maxlen).
Proof.
  intros Hb Hm He.
  destruct (strnlen32_in m p maxlen) as (v & k & Ev & Hc & Hv & Hk & Hs); [lia..|].
  destruct (decide (k < maxlen)) as [Hlt|Hge].
  - destruct (Hs Hlt) as (rx & Hrx & Nrx & Ek).
    destruct (strnlen32_in m (p + (k + 1)) (maxlen - (k + 1)))
      as (w & j & Ew & Hcw & Hw & Hj & Ht); [lia..|].
    destruct (decide (j + 1 < maxlen - (k + 1))) as [Hlt'|].
    { destruct (Ht ltac:(lia)) as (opt & Hopt & Nopt & Ej).
      assert (bytes_at m p (cstring_pair rx opt)) as Hat.
      { unfold cstring_pair. rewrite (cons_middle x00 rx), app_assoc. apply bytes_at_app.
        split; [done|]. rewrite zlen_app, zlen_cons, zlen_nil.
        by replace (p + (zlen rx + (1 + 0))) with (p + (k + 1)) by lia. }
      eexists. split; [apply (re_len_at m p rx opt maxlen); (done || lia)|]. right. right.
      exists rx, opt. split_and!; (done || lia). }
    exists (- bson_iter_errc_short_read). split; [|auto].
    unfold _bson_value_re_len. destruct (Z.ltb_spec 0 maxlen); [|lia]. rewrite Ev. ostep.
    run_cast Hc Hv.
    destruct (sub_I maxlen (k + 1)) as [C1 V1]; [unfold is_i64; lia..|].
    run_cast C1 V1. rewrite Ew. ostep.
    run_cast Hcw Hw.
    destruct (sub_I (maxlen - (k + 1)) j) as [C2 V2]; [unfold is_i64; lia..|].
    run_cast C2 V2.
    rewrite !catch_ok. by destruct (Z.ltb_spec (maxlen - (k + 1) - j) 2); [|lia].
  - assert (k = maxlen) as -> by lia.
    exists (- bson_iter_errc_invalid_length). split; [|auto].
    unfold _bson_value_re_len. destruct (Z.ltb_spec 0 maxlen); [|lia]. rewrite Ev. ostep.
    run_cast Hc Hv.
    destruct (sub_I maxlen (maxlen + 1)) as [C1 V1]; [unfold is_i64; lia..|].
    rewrite (nonneg32_neg _ _ C1) by lia.
    destruct (strnlen32_run m (p + (maxlen + 1)) 0 0) as (w & -> & Hcw & Hw);
      [lia | lia | by destruct (bytes_from m (p + (maxlen + 1))) |]. ostep.
    run_cast Hcw Hw.
    destruct (sub_I 0 0) as [C2 V2]; [unfold is_i64; lia..|].
    run_cast C2 V2. by rewrite catch_bad.
Qed.

Lemma const_size_range tag : 0 <= const_size_at tag <= INT32_MAX.
Proof.
  assert (Forall (fun z => 0 <= z <= INT32_MAX) const_sizes) as H.
  { apply Forall_forall. intros z Hz.
    unfold const_sizes in Hz. rewrite !elem_of_app, !elem_of_replicate in Hz.
    rewrite !list_elem_of_In in Hz. simpl in Hz. lia. }
  unfold const_size_at. destruct (nth_in_or_default (Z.to_nat tag) const_sizes 0) as [Hin| ->]; [|lia].
  rewrite Forall_forall in H. apply H. by apply list_elem_of_In.
Qed.

(** The possible results of [_bson_valsize] on [n] addressable bytes. *)
Definition valsize_result (n z : Z) : Prop :=
  0 <= z < n \/ z = - bson_iter_errc_short_read \/ z = - bson_iter_errc_invalid_type \/
  z = - bson_iter_errc_invalid_length.

(** The end of [_bson_valsize], once the declared length is known. *)
Definition valsize_finish (m : block) (tag valptr n full_len : Z) : outcome Z :=
  assert! 0 <=? full_len in
  if full_len <? n then
    assert! full_len <? INT32_MAX in Done full_len
  else if tag =? bson_type_regex then _bson_value_re_len m valptr n
  else if const_size_at tag =? INT32_MAX then Done (- bson_iter_errc_invalid_type)
  else Done (- bson_iter_errc_invalid_length).

Lemma valsize_unfold m tag p n :
  0 < n -> tag < 256 ->
  _bson_valsize m tag p n =
  if varsize_at tag then
    if negb (n >? 4) then Done (- bson_iter_errc_invalid_length)
    else
      let* v := _bson_read_u32le m p in
      assert! 0 <=? s32 v in
      valsize_finish m tag p n (const_size_at tag + s32 v)
  else valsize_finish m tag p n (const_size_at tag).
Proof.
  intros Hn Ht. unfold _bson_valsize.
  destruct (Z.ltb_spec 0 n); [|lia]. by destruct (Z.ltb_spec tag 256); [|lia].
Qed.

Lemma valsize_finish_in m tag p n full :
  b_base m <= p -> 0 < n <= INT32_MAX -> p + n <= b_end m -> 0 <= full ->
  exists z, valsize_finish m tag p n full = Done z /\ valsize_result n z.
Proof.
  intros Hb Hn He Hf. unfold valsize_finish, valsize_result.
  destruct (Z.leb_spec 0 full); [|lia]. destruct (Z.ltb_spec full n).
  { destruct (Z.ltb_spec full INT32_MAX); [|lia]. exists full. split; [done | lia]. }
  destruct (Z.eqb_spec tag bson_type_regex).
  { destruct (re_len_in m p n Hb Hn He) as (z & -> & Hz). exists z. split; [done|].
    destruct Hz as [?|[?|(rx & opt & _ & _ & _ & ? & ?)]]; [lia..|].
    pose proof (zlen_nonneg rx). pose proof (zlen_nonneg opt). lia. }
  case_match; eexists; (split; [done | lia]).
Qed.

(** Size computation on arbitrary bytes: no access outside the [n] bytes. *)
Lemma valsize_in m tag p n :
  b_base m <= p -> 0 < n <= INT32_MAX -> p + n <= b_end m -> tag < 256 ->
  _bson_valsize m tag p n = Abort \/
  exists z, _bson_valsize m tag p n = Done z /\ valsize_result n z.
Proof.
  intros Hb Hn He Ht. rewrite valsize_unfold by lia. pose proof (const_size_range tag).
  case_match; [|right; by apply valsize_finish_in; lia].
  destruct (Z.gtb_spec n 4); simpl.
  - destruct (read_u32_in m p) as (v & -> & _); [lia..|]. ostep.
    destruct (Z.leb_spec 0 (s32 v)); [right | by left].
    apply valsize_finish_in; lia.
  - right. eexists. split; [done|]. unfold valsize_result. lia.
Qed.

(** A size found in [n] bytes is found again when more are announced. *)
Lemma valsize_finish_mono m tag p n N full z :
  b_base m <= p -> 0 < n <= N -> p + n <= b_end m -> N <= INT32_MAX ->
  (tag = bson_type_regex -> full = INT32_MAX) ->
  valsize_finish m tag p n full = Done z -> 0 <= z ->
  valsize_finish m tag p N full = Done z.
Proof.
  intros Hb Hn He HN Htag. unfold valsize_finish. destruct (Z.leb_spec 0 full); [|done].
  destruct (Z.ltb_spec full n).
  { destruct (Z.ltb_spec full N); [done | lia]. }
  destruct (Z.eqb_spec tag bson_type_regex) as [->|].
  - rewrite Htag in * by done. destruct (Z.ltb_spec INT32_MAX N); [lia|]. intros Hr Hz.
    destruct (re_len_in m p n) as (z' & E & Hz'); [lia..|].
    assert (z' = z) as -> by congruence.
    destruct Hz' as [?|[?|(rx & opt & Hat & Hrx & Hopt & -> & ?)]]; [lia..|].
    apply re_len_at; (done || lia).
  - intros Hr Hz. case_match; injection Hr as <-; lia.
Qed.

Lemma valsize_mono m tag p n N z :
  b_base m <= p -> 0 < n <= N -> p + n <= b_end m -> N <= INT32_MAX -> tag < 256 ->
  _bson_valsize m tag p n = Done z -> 0 <= z -> _bson_valsize m tag p N = Done z.
Proof.
  intros Hb Hn He HN Ht. rewrite !valsize_unfold by lia.
  assert (tag = bson_type_regex -> varsize_at tag = false /\ const_size_at tag = INT32_MAX)
    as Hrx by (by intros ->).
  case_match eqn:Hv.
  - destruct (Z.gtb_spec n 4); simpl; [|intros [= <-]; lia].
    destruct (Z.gtb_spec N 4); [|lia]. simpl.
    destruct (_bson_read_u32le m p) as [v| |]; simpl; [|done..].
    destruct (0 <=? s32 v); [|done]. intros Hrun Hz.
    apply (valsize_finish_mono m tag p n); try done.
    intros Et. destruct (Hrx Et). congruence.
  - intros Hrun Hz. apply (valsize_finish_mono m tag p n); try done. apply Hrx.
Qed.

(** ** Iterators of a document *)

(** A document whose terminator is at address [e], somewhere in the block. *)
Section Walk.
Context (m : block) (e : Z).
Context (Hbase : 0 < b_base m) (Hzero : bytes_at m e [x00]).

(** A live iterator: a key that ends, a value of known size, all before the
    terminator. *)
Definition elem_at (it : bson_iterator) : Prop :=
  b_base m <= _ptr it /\ _rlen it = e + 1 - _ptr it /\ _rlen it <= INT32_MAX /\
  exists key t vs,
    bytes_at m (_ptr it + 1) (key ++ [x00]) /\ x00 ∉ key /\ _keylen it = zlen key /\
    rd8 m (_ptr it) = Done t /\
    (let valptr := _ptr it + 1 + _keylen it + 1 in
     _bson_valsize m (b2z t) valptr (e + 1 - valptr) = Done vs /\
     0 <= vs /\ valptr + vs <= e).

Definition at_end (it : bson_iterator) : Prop := it = mk_iterator e 0 1.
Definition at_error (it : bson_iterator) : Prop :=
  exists err, 1 <= err <= 4 /\ it = _bson_iterator_error err.

Definition iter_ok (it : bson_iterator) : Prop := at_end it \/ at_error it \/ elem_at it.

(** The iterator created for address [p]. *)
Definition iter_for (p : Z) (it : bson_iterator) : Prop :=
  iter_ok it /\ (at_error it \/ _ptr it = p /\ _rlen it = e + 1 - p).

Lemma error_for p err : 1 <= err <= 4 -> iter_for p (_bson_iterator_error err).
Proof. intros. assert (at_error (_bson_iterator_error err)) by (exists err; done). split; [by right; left | by left]. Qed.

(** The size computation that is skipped for short fixed-size values. *)
Lemma fixed_size_valsize t p n :
  is_fixed_size t = true -> 16 < n <= INT32_MAX ->
  exists vs, _bson_valsize m t p n = Done vs /\ 0 <= vs <= 16.
Proof.
  intros Ht Hn. assert (varsize_at t = false /\ const_size_at t <= 16 /\ t < 256) as (Hv & Hc & ?).
  { unfold is_fixed_size in Ht. rewrite !orb_true_iff, !Z.eqb_eq in Ht.
    repeat destruct Ht as [Ht|Ht]; subst; vm_compute; intuition congruence. }
  exists (const_size_at t). pose proof (const_size_range t).
  rewrite valsize_unfold, Hv by lia. unfold valsize_finish.
  destruct (Z.leb_spec 0 (const_size_at t)); [|lia].
  destruct (Z.ltb_spec (const_size_at t) n); [|lia].
  destruct (Z.ltb_spec (const_size_at t) INT32_MAX); [|lia]. split; [done | lia].
Qed.

Lemma e_in_block : b_base m <= e < b_end m.
Proof. apply bytes_at_bounds in Hzero. rewrite zlen_cons, zlen_nil in Hzero. lia. Qed.

(** Creating an iterator inside the document: no access leaves the block,
    and the result is an element, the end, or an error. *)
Lemma iterator_at_ok p :
  b_base m <= p <= e -> e + 1 - p <= INT32_MAX ->
  _bson_iterator_at m p (e + 1 - p) = Abort \/
  exists it, _bson_iterator_at m p (e + 1 - p) = Done it /\ iter_for p it.
Proof.
  intros Hp Hmax. pose proof e_in_block as He. unfold _bson_iterator_at.
  destruct (Z.ltb_spec 0 (e + 1 - p)); [|lia].
  destruct (Z.leb_spec 0 (e + 1 - p - 1)); [|lia].
  replace (p + (e + 1 - p - 1)) with e by lia.
  rewrite (rd8_at _ _ _ Hzero). ostep. change (b2z x00 =? 0) with true. cbv iota.
  destruct (rd8_in m p) as [t Ht]; [lia|]. rewrite Ht. ostep.
  destruct (Z.eqb_spec (e + 1 - p) 1).
  { right. eexists. split; [done|]. assert (p = e) as -> by lia.
    split; [by left|]. right. simpl. split; [done | lia]. }
  destruct (Z.leb_spec 1 (e + 1 - p - 1)); [|lia].
  destruct (strlen_bounded m (p + 1) e) as (key & -> & Hk & Hkey & Hkl); [lia|done|]. ostep.
  pose proof (zlen_nonneg key). rewrite Z.add_assoc.
  assert (rd8 m (p + 1 + zlen key) = Done x00) as Hnul
    by (apply rd8_at; by apply bytes_at_app_r in Hkey).
  rewrite Hnul. ostep. change (b2z x00 =? 0) with true. cbv iota.
  repeat match goal with |- context [if ?a <? ?b then _ else Abort] =>
    destruct (Z.ltb_spec a b); [|lia] end.
  repeat match goal with |- context [if ?a <=? ?b then _ else Abort] =>
    destruct (Z.leb_spec a b); [|lia] end.
  set (vm := e + 1 - p - 1 - zlen key - 1) in *. set (vp := p + 1 + zlen key + 1) in *.
  assert (vp + vm = e + 1) as Hvpn by lia.
  destruct (Z.ltb_spec vm 1).
  { right. eexists. split; [done|]. apply error_for. lia. }
  assert (forall vs, _bson_valsize m (b2z t) vp vm = Done vs -> 0 <= vs < vm ->
            iter_for p (mk_iterator p (zlen key) (e + 1 - p))) as Helem.
  { intros vs Hvs Hr. split; [|by right]. right. right. split; [simpl; lia|]. split; [done|]. split; [simpl; lia|].
    exists key, t, vs. simpl. fold vp. replace (e + 1 - vp) with vm by lia.
    split_and!; (done || lia). }
  destruct (if vm >? 16 then negb (is_fixed_size (b2z t)) else true) eqn:Hneed.
  - replace (p + 1 + (zlen key + 1)) with vp by lia. pose proof (b2z_range t).
    destruct (valsize_in m (b2z t) vp vm) as [-> | (z & Hz & Hres)]; [lia.. | by left |].
    rewrite Hz. ostep. right. destruct (Z.ltb_spec z 0) as [Hneg|Hpos].
    { eexists. split; [done|]. apply error_for. unfold valsize_result in Hres. lia. }
    assert (0 <= z < vm) as Hzn by (unfold valsize_result in Hres; lia).
    specialize (Helem z Hz Hzn). destruct (_ || _); [|eauto].
    destruct (rd8_in m (vp + (z - 1))) as [b ->]; [lia|]. ostep.
    destruct (negb (b2z b =? 0)); [|eauto].
    exists (_bson_iterator_error 4). split; [reflexivity|]. apply error_for. lia.
  - destruct (Z.gtb_spec vm 16); [|done]. apply negb_false_iff in Hneed.
    destruct (fixed_size_valsize (b2z t) vp vm Hneed) as (vs & Hvs & ?); [lia|].
    right. eexists. split; [done|]. apply (Helem vs Hvs). lia.
Qed.

Lemma elem_in_block it : elem_at it -> b_base m <= _ptr it /\ 1 < _rlen it /\ _ptr it < e.
Proof.
  intros (? & Hr & ? & key & t & vs & _ & _ & Hk & _ & _ & ? & ?).
  pose proof (zlen_nonneg key). lia.
Qed.

(** The size of an element, as [bson_next] recomputes it without a bound. *)
Lemma elem_size it t vs :
  elem_at it -> rd8 m (_ptr it) = Done t ->
  (let valptr := _ptr it + 1 + _keylen it + 1 in _bson_valsize m (b2z t) valptr (e + 1 - valptr) = Done vs) -> 0 <= vs ->
  _ptr it + 1 + _keylen it + 1 + vs <= e ->
  bson_iterator_data_size m it = Done (1 + _keylen it + 1 + vs).
Proof.
  intros H Ht Hvs Hpos Hend. destruct (elem_in_block it H) as (Hb & Hr & _).
  destruct H as (? & Hrl & Hmax & key & t' & vs' & Hkey & _ & Hk & _).
  pose proof (zlen_nonneg key). pose proof (b2z_range t). pose proof e_in_block.
  unfold bson_iterator_data_size, bson_stop.
  destruct (Z.leb_spec (_rlen it) 1); [lia|]. simpl negb. cbv iota.
  destruct (Z.ltb_spec 0 (1 + _keylen it + 1)); [|lia].
  unfold bson_iterator_type. destruct (Z.ltb_spec 0 (_rlen it)); [|lia].
  rewrite Ht. ostep.
  replace (_ptr it + (1 + _keylen it + 1)) with (_ptr it + 1 + _keylen it + 1) by lia.
  apply (valsize_mono _ _ _ _ INT32_MAX) in Hvs; [|lia..]. rewrite Hvs. ostep.
  destruct (Z.ltb_spec (1 + _keylen it + 1) (INT32_MAX - vs)); [|lia].
  by rewrite u32_id by (unfold is_u32; lia).
Qed.

Lemma elem_data_size it :
  elem_at it ->
  exists n, bson_iterator_data_size m it = Done n /\ 2 <= n /\ _ptr it + n <= e.
Proof.
  intros H. pose proof H as (? & Hrl & Hmax & key & t & vs & Hkey & _ & Hk & Ht & Hvs & Hpos & Hend).
  pose proof (zlen_nonneg key). rewrite (elem_size it t vs H Ht Hvs Hpos Hend). eexists. split; [done | lia].
Qed.

(** Advancing: the next position is inside the document and strictly later. *)
Lemma next_ok it :
  elem_at it ->
  bson_next m it = Abort \/
  exists it', bson_next m it = Done it' /\ iter_ok it' /\
    (at_error it' \/ _rlen it' + 2 <= _rlen it).
Proof.
  intros H. destruct (elem_data_size it H) as (n & Hn & H2 & Hle).
  destruct (elem_in_block it H) as (Hb & Hr & _). destruct H as (_ & Hrl & Hmax & _).
  unfold bson_next. rewrite Hn. ostep. rewrite s32_id by (unfold is_i32; lia).
  destruct (Z.leb_spec 0 (_rlen it - n)); [|lia].
  unfold bson_iterator_data.
  replace (_rlen it - n) with (e + 1 - (_ptr it + n)) by lia.
  destruct (iterator_at_ok (_ptr it + n)) as [-> | (it' & -> & Hok & Hp)]; [lia | lia | by left |].
  right. exists it'. split; [done|]. split; [done|].
  destruct Hp as [? | [_ ->]]; [by left | right; lia].
Qed.
End Walk.

(** ** Walking a view *)

Section View.
Context (m : block) (v n : Z).
Context (Hbase : 0 < b_base m) (Hdoc : doc_at m v n).

Let e := v + n - 1.

Lemma view_terminator : bytes_at m e [x00].
Proof. destruct Hdoc as (_ & _ & H). unfold e. by replace (v + n - 1) with (v + (n - 1)) by lia. Qed.

Lemma view_header : _bson_read_u32le m v = Done n.
Proof. destruct Hdoc as (Hn & H & _). apply read_le32; [unfold is_u32; lia | done]. Qed.

Lemma begin_ok :
  _bson_begin m v = Abort \/
  exists it, _bson_begin m v = Done it /\ iter_for m e (v + 4) it.
Proof.
  pose proof (doc_at_bounds _ _ _ Hdoc). destruct Hdoc as (Hn & _ & _).
  unfold _bson_begin. destruct (Z.eqb_spec v 0); [lia|]. simpl negb. cbv iota.
  rewrite view_header. ostep. rewrite s32_id by (unfold is_i32; lia).
  destruct (Z.ltb_spec 0 (n - 4)); [|lia]. destruct (Z.ltb_spec (n - 4) INT32_MAX); [|lia].
  replace (n - 4) with (e + 1 - (v + 4)) by (unfold e; lia).
  apply iterator_at_ok; [apply view_terminator | unfold e; lia..].
Qed.

Lemma end_ok : _bson_end m v = Done (mk_iterator e 0 1).
Proof.
  pose proof (doc_at_bounds _ _ _ Hdoc). unfold _bson_end.
  destruct (Z.eqb_spec v 0); [lia|]. simpl negb. cbv iota.
  rewrite view_header. ostep. fold e. unfold _bson_iterator_at.
  rewrite Z.add_0_r, (rd8_at _ _ _ view_terminator). done.
Qed.

(** The iterators a caller can obtain from the view by [begin] and [next]. *)
Inductive walk : bson_iterator -> Prop :=
| walk_begin it : _bson_begin m v = Done it -> walk it
| walk_next it it' :
    walk it -> bson_stop it = false -> bson_next m it = Done it' -> walk it'.

Lemma walk_ok it : walk it -> iter_ok m e it.
Proof.
  induction 1 as [it H | it it' _ IH Hstop Hnext].
  - destruct begin_ok as [E | (it' & E & Hok & _)]; congruence.
  - destruct IH as [-> | [(err & Herr & ->) | Hel]].
    + unfold bson_stop in Hstop. simpl in Hstop. lia.
    + unfold bson_stop in Hstop. simpl in Hstop. destruct (Z.leb_spec (- err) 1); [done | lia].
    + destruct (next_ok m e view_terminator it Hel) as [E | (it'' & E & ? & _)]; congruence.
Qed.
End View.

(** ** Reading values *)

Lemma rd8_no_ub m a : b_base m <= a < b_end m -> no_ub (rd8 m a).
Proof. intros H. destruct (rd8_in m a H) as [b ->]. done. Qed.
Lemma rd_range_no_ub m a n :
  b_base m <= a -> 0 <= n -> a + n <= b_end m -> no_ub (rd_range m a n).
Proof. intros. destruct (rd_range_in m a n) as (l & -> & _); done. Qed.
Lemma read_u32_no_ub m a : b_base m <= a -> a + 4 <= b_end m -> no_ub (_bson_read_u32le m a).
Proof. intros. destruct (read_u32_in m a) as (v & -> & _); done. Qed.
Lemma read_u64_no_ub m a : b_base m <= a -> a + 8 <= b_end m -> no_ub (_bson_read_u64le m a).
Proof. intros. destruct (read_u64_in m a) as (v & -> & _); done. Qed.

(** Discharges [no_ub] goals whose accesses are in bounds by [lia]. *)
Ltac no_ub_tac :=
  repeat first
    [ done
    | apply rd8_no_ub; lia | apply rd_range_no_ub; lia
    | apply read_u32_no_ub; lia | apply read_u64_no_ub; lia
    | apply obind_no_ub; [| intros ? ?; cbv beta zeta]
    | match goal with |- no_ub (if ?b then _ else _) => destruct b eqn:? end ].

(** Evaluates the size tables on the literal tags of the context. *)
Ltac eval_tags :=
  repeat match goal with
  | H : context [const_size_at ?k] |- _ =>
      let v := eval vm_compute in (const_size_at k) in change (const_size_at k) with v in *
  | H : context [varsize_at ?k] |- _ =>
      let v := eval vm_compute in (varsize_at k) in change (varsize_at k) with v in *
  end.

(** What a size found by [_bson_valsize] says about the value's bytes. *)
Lemma valsize_inv m t p n vs :
  b_base m <= p -> 0 < n <= INT32_MAX -> p + n <= b_end m -> t < 256 ->
  _bson_valsize m t p n = Done vs -> 0 <= vs ->
  (varsize_at t = true /\ exists len, _bson_read_u32le m p = Done len /\ 0 <= s32 len /\
     vs = const_size_at t + s32 len) \/
  (varsize_at t = false /\ t <> bson_type_regex /\ vs = const_size_at t) \/
  (t = bson_type_regex /\ exists rx opt, bytes_at m p (cstring_pair rx opt) /\
     x00 ∉ rx /\ x00 ∉ opt /\ vs = zlen rx + zlen opt + 2).
Proof.
  intros Hb Hn He Ht. rewrite valsize_unfold by lia.
  destruct (decide (t = bson_type_regex)) as [->|Hne].
  - change (varsize_at bson_type_regex) with false. cbv iota.
    change (const_size_at bson_type_regex) with INT32_MAX. unfold valsize_finish. simpl.
    destruct (Z.ltb_spec INT32_MAX n); [lia|]. intros Hr Hpos.
    destruct (re_len_in m p n Hb Hn He) as (z & E & Hz). assert (z = vs) as -> by congruence.
    destruct Hz as [?|[?|(rx & opt & ? & ? & ? & ? & _)]]; [lia..|]. right. right. eauto 8.
  - assert (forall full, valsize_finish m t p n full = Done vs -> 0 <= vs -> vs = full) as Hfin.
    { intros full. unfold valsize_finish. destruct (0 <=? full); [|done].
      destruct (full <? n); [destruct (full <? INT32_MAX); [by intros [= <-]|done]|].
      destruct (Z.eqb_spec t bson_type_regex); [done|].
      destruct (const_size_at t =? INT32_MAX); intros [= <-]; lia. }
    case_match.
    + destruct (n >? 4); simpl; [|intros [= <-]; lia].
      destruct (_bson_read_u32le m p) as [len| |]; simpl; [|done..].
      destruct (Z.leb_spec 0 (s32 len)); [|done]. intros Hr Hpos.
      left. split; [done|]. exists len. split_and!; auto.
    + intros Hr Hpos. right. left. auto.
Qed.

Section Values.
Context (m : block) (e : Z).
Context (Hbase : 0 < b_base m) (Hzero : bytes_at m e [x00]).

Let He := e_in_block m e Hzero.

Lemma stringlike_no_ub it len :
  _bson_read_u32le m (_bson_iterator_value_ptr it) = Done len ->
  b_base m <= _bson_iterator_value_ptr it ->
  _bson_iterator_value_ptr it + 4 + s32 len <= e ->
  no_ub (let* r := _bson_iterator_stringlike m it in view_bytes m r).
Proof.
  intros Hr Hb Hle. unfold _bson_iterator_stringlike, _bson_read_stringlike_at. rewrite Hr. ostep.
  destruct (Z.leb_spec 1 (s32 len)) as [Hl|]; [|done]. ostep.
  pose proof (s32_range len) as Hr32. unfold is_i32 in Hr32.
  rewrite u32_id by (unfold is_u32; lia). unfold view_bytes. simpl.
  destruct (Z.ltb_spec 0 (s32 len - 1)); [|done].
  destruct (s32 len - 1 <? _rlen it); [|done]. simpl. no_ub_tac.
Qed.

Lemma document_no_ub it :
  b_base m <= _ptr it -> 0 <= _keylen it -> _rlen it = e + 1 - _ptr it ->
  no_ub (iterator_document m it).
Proof.
  intros Hb Hk Hr. unfold iterator_document, _bson_iterator_value_ptr.
  set (vp := _ptr it + 1 + _keylen it + 1).
  destruct (Z.ltb_spec 0 (_rlen it - (vp - _ptr it))); [|done].
  destruct (view_from_data_run m vp (_rlen it - (vp - _ptr it))) as (p & err & -> & Hp);
    [unfold vp; lia | unfold addressable, vp in *; lia|]. ostep.
  destruct (Z.eqb_spec p 0); [done|].
  destruct err; [|by destruct Hp..]. destruct Hp as (-> & len & Hlen & Hdoc).
  rewrite (doc_at_size _ _ _ n Hdoc). ostep.
  destruct (doc_at_bounds _ _ _ Hdoc). destruct Hdoc as [? _]. no_ub_tac.
Qed.

Lemma strlen32_at a s :
  bytes_at m a (s ++ [x00]) -> x00 ∉ s -> zlen s <= INT32_MAX ->
  exists v, strlen32 m a = Done v /\ clean v /\ i64 v = zlen s.
Proof.
  intros Hat Hs Hl. unfold strlen32. rewrite (strlen_at m a s Hat Hs). ostep.
  pose proof (zlen_nonneg s). rewrite U_small by lia. eexists. split; [done|].
  assert (i64 (I (zlen s)) = zlen s) as E by (apply I_val; unfold is_i64; lia).
  rewrite <- E at 3. apply clean_bounds_ok; rewrite ?E; unfold is_i64; (done || lia).
Qed.

Lemma regex_value p rx opt :
  bytes_at m p (cstring_pair rx opt) -> x00 ∉ rx -> x00 ∉ opt ->
  zlen rx + zlen opt <= INT32_MAX ->
  iterator_regex m p = Done (Some rx, Some opt).
Proof.
  intros Hat Hrx Hopt Hl. pose proof (zlen_nonneg rx). pose proof (zlen_nonneg opt).
  unfold cstring_pair in Hat. rewrite (cons_middle x00 rx), app_assoc in Hat.
  apply bytes_at_app in Hat as [H1 H2]. rewrite zlen_app, zlen_cons, zlen_nil in H2.
  replace (p + (zlen rx + (1 + 0))) with (p + zlen rx + 1) in H2 by lia.
  unfold iterator_regex.
  destruct (strlen32_at p rx H1 Hrx) as (v & -> & Cv & Vv); [lia|]. ostep.
  assert (castUInt32 mlib_math_try v = (mlib_math_try, zlen rx)) as ->.
  { unfold castUInt32, cast, checkNonNegativeInt32.
    destruct (clean_bounds_ok 0 INT32_MAX v) as [C E]; [unfold is_i64; lia | unfold is_i64; lia | done | lia |].
    rewrite fill_ok by done. rewrite E, Vv, u32_id by (unfold is_u32; lia). done. }
  destruct (strlen32_at (p + zlen rx + 1) opt H2 Hopt) as (w & -> & Cw & Vw); [lia|]. ostep.
  assert (castUInt32 mlib_math_try w = (mlib_math_try, zlen opt)) as ->.
  { unfold castUInt32, cast, checkNonNegativeInt32.
    destruct (clean_bounds_ok 0 INT32_MAX w) as [C E]; [unfold is_i64; lia | unfold is_i64; lia | done | lia |].
    rewrite fill_ok by done. rewrite E, Vw, u32_id by (unfold is_u32; lia). done. }
  rewrite catch_ok. rewrite (rd_range_at m p rx) by (by apply bytes_at_app_l in H1). ostep.
  by rewrite (rd_range_at _ _ opt) by (by apply bytes_at_app_l in H2).
Qed.

(** Every access of [bson_iterator_value] is inside the block, but for that to the last four bytes of a DBPointer: its
    size entry is four bytes short. *)
Lemma value_no_ub it :
  elem_at m e it ->
  no_ub (bson_iterator_value m it) \/
  (bson_iterator_type m it = Done bson_type_dbpointer /\
   exists n, bson_iterator_data_size m it = Done n /\ b_end m < _ptr it + n + 4).
Proof.
  intros Hel. destruct (elem_in_block m e it Hel) as (Hb & Hr1 & _).
  pose proof Hel as (_ & Hr & Hmax & key & t & vs & _ & _ & Hk & Ht & Hvs & Hpos & Hle). pose proof (zlen_nonneg key).
  pose proof (elem_size m e Hzero it t vs Hel Ht Hvs Hpos Hle) as Hsize. set (n := 1 + _keylen it + 1 + vs) in *.
  assert (_ptr it + n = _ptr it + 1 + _keylen it + 1 + vs) as Hn by lia. clearbody n.
  unfold bson_iterator_type. destruct (Z.ltb_spec 0 (_rlen it)); [|lia]. rewrite Ht. ostep.
  pose proof (b2z_range t) as Hbt.
  apply valsize_inv in Hvs; [|lia..]. fold (_bson_iterator_value_ptr it) in *.
  assert (_bson_iterator_value_ptr it = _ptr it + 1 + _keylen it + 1) as Hp by (unfold _bson_iterator_value_ptr; lia).
  pose proof (document_no_ub it Hb ltac:(lia) Hr) as Hdoc.
  pose proof (stringlike_no_ub it) as Hstr.
  destruct (decide (b2z t = bson_type_dbpointer /\ b_end m < _ptr it + n + 4)) as [[Hd Ho]|Hin]; [right; rewrite Hd; eauto|left].
  unfold bson_iterator_value, bson_iterator_get_error.
  destruct (Z.ltb_spec (_rlen it) 0); [lia|]. rewrite Z.eqb_refl.
  unfold bson_iterator_type. destruct (Z.ltb_spec 0 (_rlen it)); [|lia]. rewrite Ht. ostep.
  revert Hvs Hin Hbt. generalize (b2z t). intros tz Hvs Hin Hbt.
  repeat match goal with |- no_ub (match ?x with _ => _ end) => is_var x; destruct x end;
    try done; eval_tags;
    destruct Hvs as [(Hv & len & Hlen & Hlen0 & ->)|[(Hv & Hre & ->)|(Hre & rx & opt & Hat & Hrx & Hopt & ->)]];
    try congruence; unfold omap_outcome;
    try (apply obind_no_ub; [exact Hdoc | done]);
    try (apply obind_no_ub; [apply (Hstr len); (done || lia) | done]);
    try (pose proof (zlen_nonneg rx); pose proof (zlen_nonneg opt);
         rewrite (regex_value _ rx opt) by (done || lia); done);
    try (rewrite Hlen; ostep); no_ub_tac.
Qed.
End Values.

(** ** Loops end *)

Section Termination.
Context (m : block) (v n : Z).
Context (Hbase : 0 < b_base m) (Hdoc : doc_at m v n).

Let e := v + n - 1.
Let Hzero := view_terminator m v n Hdoc.

(** Iterations left: an element needs its remaining bytes and the step over a
    possible error. *)
Definition steps_left (it : bson_iterator) : Z :=
  if _rlen it <? 0 then 1 else _rlen it + 1.

Lemma foreach_total {S R} (body : S -> bson_iterator -> outcome (S + R)) fuel : forall it s,
  iter_ok m e it -> steps_left it < Z.of_nat fuel ->
  foreach_subrange m fuel it (mk_iterator e 0 1) body s <> Done None.
Proof.
  induction fuel as [|fuel IH]; intros it s Hok Hf.
  { unfold steps_left in Hf. destruct (Z.ltb_spec (_rlen it) 0); lia. }
  cbn [foreach_subrange]. destruct (bson_iterator_eq it _) eqn:Heq; [done|].
  destruct (body s it) as [[s'|r]| |]; simpl; [|done..].
  destruct Hok as [-> | [(err & Herr & ->) | Hel]].
  - unfold bson_iterator_eq in Heq. simpl in Heq. lia.
  - unfold steps_left, bson_iterator_get_error in *. simpl _rlen in *.
    destruct (Z.ltb_spec (- err) 0); [|lia].
    destruct (Z.eqb_spec (- - err) bson_iter_errc_okay); [lia|]. simpl.
    destruct fuel; [lia|]. cbn [foreach_subrange]. unfold bson_iterator_eq. simpl.
    by rewrite Z.eqb_refl.
  - destruct (elem_in_block m e it Hel) as (_ & Hr & _).
    unfold bson_iterator_get_error. destruct (Z.ltb_spec (_rlen it) 0); [lia|].
    rewrite Z.eqb_refl.
    destruct (next_ok m e Hzero it Hel) as [-> | (it' & -> & Hok' & Hlt)]; [done|]. ostep.
    apply IH; [done|]. unfold steps_left in *. destruct (Z.ltb_spec (_rlen it) 0); [lia|].
    destruct Hlt as [(err & Herr & ->) | Hlt].
    + simpl. destruct (Z.ltb_spec (- err) 0); lia.
    + destruct (Z.ltb_spec (_rlen it') 0); lia.
Qed.

(** One iteration per byte of the document is enough. *)
Definition loop_fuel (n : Z) : nat := Z.to_nat n.

(** Loop invariants over the iterators of the document. *)
Lemma foreach_inv {S R} (body : S -> bson_iterator -> outcome (S + R)) (P : R -> Prop) fuel :
  (forall s it r, iter_ok m e it -> body s it = Done (inr r) -> P r) ->
  forall it s r, iter_ok m e it ->
    foreach_subrange m fuel it (mk_iterator e 0 1) body s = Done (Some (inr r)) -> P r.
Proof.
  intros Hbody. induction fuel as [|fuel IH]; intros it s r Hok; [done|].
  cbn [foreach_subrange]. destruct (bson_iterator_eq it _); [done|].
  destruct (body s it) as [[s'|r']| |] eqn:Eb; simpl; [|intros [= <-]; by eapply Hbody | done..].
  destruct Hok as [Hend | [(err & Herr & ->) | Hel]].
  - unfold at_end in Hend. subst it. change (bson_iterator_get_error _) with 0.
    by assert (bson_next m (mk_iterator e 0 1) = Abort) as -> by done.
  - unfold bson_iterator_get_error. simpl _rlen. destruct (Z.ltb_spec (- err) 0); [|lia].
    destruct (Z.eqb_spec (- - err) bson_iter_errc_okay); [lia|]. ostep. apply IH. by left.
  - unfold bson_iterator_get_error. destruct (elem_in_block m e it Hel) as (_ & Hr & _).
    destruct (Z.ltb_spec (_rlen it) 0); [lia|]. rewrite Z.eqb_refl.
    destruct (next_ok m e Hzero it Hel) as [-> | (it' & -> & Hok' & _)]; [done|].
    ostep. by apply IH.
Qed.
End Termination.

(** ** Concrete documents *)

Ltac vm_doc_at :=
  unfold doc_at; split; [vm_compute; intuition discriminate|];
  split; apply bytes_at_check; vm_compute; reflexivity.

(** [{"a": 7, "b": "x"}], with a byte of another object behind it. *)
Definition sample : block :=
  block_of [21; 0; 0; 0; 16; 97; 0; 7; 0; 0; 0; 2; 98; 0; 2; 0; 0; 0; 120; 0; 0; 99].

Lemma sample_doc : doc_at sample 4096 21.
Proof. vm_doc_at. Defined.

(** ** Claims *)

(** C3. Memory safety: for any bytes that passed the view validation, every
    iterator obtained by [begin] and [next] refers to the inside of the
    document, and advancing it or reading its key, size, type or value touches no
    byte outside the block; the one exception is the value of a DBPointer, of which four bytes behind the element are read: they
    are outside when the block ends before them. *)
Theorem iteration_memory_safe m v n it :
  0 < b_base m -> doc_at m v n -> walk m v it -> bson_stop it = false ->
  elem_at m (v + n - 1) it /\
  no_ub (bson_next m it) /\ no_ub (bson_iterator_data_size m it) /\ no_ub (bson_key m it) /\
  no_ub (bson_iterator_type m it) /\
  (no_ub (bson_iterator_value m it) \/
   (bson_iterator_type m it = Done bson_type_dbpointer /\
    exists size, bson_iterator_data_size m it = Done size /\ b_end m < _ptr it + size + 4)).
Proof.
  intros Hb Hdoc Hw Hstop. pose proof (view_terminator m v n Hdoc) as Hz.
  assert (elem_at m (v + n - 1) it) as Hel.
  { destruct (walk_ok m v n Hb Hdoc it Hw) as [-> | [(err & Herr & ->) | ?]]; [..|done];
      unfold bson_stop in Hstop; simpl in Hstop; [lia|].
    destruct (Z.leb_spec (- err) 1); [done | lia]. }
  destruct (elem_in_block _ _ _ Hel) as (Hpb & Hr & _).
  pose proof (e_in_block m _ Hz). pose proof Hel as Hel'.
  destruct Hel' as (_ & Hrl & Hmax & key & t & vs & Hkey & _ & Hk & Ht & _ & ? & ?).
  split; [done|]. split.
  { destruct (next_ok m _ Hz it Hel) as [-> | (it' & -> & _)]; done. }
  split; [by destruct (elem_data_size m _ Hz it Hel) as (? & -> & _)|].
  split.
  { unfold bson_key, view_bytes. simpl. pose proof (zlen_nonneg key).
    rewrite u32_id by (unfold is_u32; lia).
    no_ub_tac. }
  split; [|by apply (value_no_ub m (v + n - 1) Hb Hz)].
  unfold bson_iterator_type. destruct (Z.ltb_spec 0 (_rlen it)); [|lia]. by rewrite Ht.
Qed.

Lemma iteration_memory_safe_witness :
  exists it, bson_iterator_value sample it = Done (v_utf8 (map z2b [120])) /\
    no_ub (bson_next sample it).
Proof.
  set (it := mk_iterator 4107 1 10).
  assert (walk sample 4096 it) as Hw.
  { apply (walk_next sample 4096 (mk_iterator 4100 1 17)).
    - apply walk_begin. vm_compute. reflexivity.
    - vm_compute. reflexivity.
    - vm_compute. reflexivity. }
  destruct (iteration_memory_safe sample 4096 21 it) as (_ & Hn & _).
  - reflexivity.
  - exact sample_doc.
  - exact Hw.
  - vm_compute. reflexivity.
  - exists it. split; [vm_compute; reflexivity | exact Hn].
Defined.

(** C19. Termination: on any validated document [bson_find] finishes within as
    many iterations as the document has bytes, whatever the bytes are. *)
Theorem find_terminates fuel m v n key :
  0 < b_base m -> doc_at m v n -> (loop_fuel n <= fuel)%nat ->
  _bson_find fuel m v key <> Done None.
Proof.
  intros Hb Hdoc Hf. unfold loop_fuel in Hf. unfold _bson_find.
  destruct (begin_ok m v n Hb Hdoc) as [-> | (it & -> & Hok & Hp)]; [done|]. ostep.
  rewrite (end_ok m v n Hb Hdoc). ostep.
  match goal with |- context [foreach_subrange m fuel it ?e ?b tt] =>
    pose proof (foreach_total m v n Hdoc b fuel it tt Hok) as Ht;
    destruct (foreach_subrange m fuel it e b tt) as [[[[]|r]|]| |] end; try done.
  exfalso. apply Ht; [|done]. unfold steps_left. destruct Hdoc as [Hn _].
  destruct Hp as [(err & ? & ->) | [_ ->]].
  - simpl. destruct (Z.ltb_spec (- err) 0); lia.
  - destruct (Z.ltb_spec (v + n - 1 + 1 - (v + 4)) 0); lia.
Qed.

Lemma find_terminates_witness :
  _bson_find 30 sample 4096 (map z2b [122]) = Done (Some (mk_iterator 4116 0 1)) /\
  _bson_find 21 sample 4096 (map z2b [122]) <> Done None.
Proof.
  split; [vm_compute; reflexivity|].
  apply (find_terminates 21 sample 4096 21); [reflexivity | exact sample_doc | vm_compute; lia].
Defined.

(** What [bson_find] returns on any validated document is the end iterator
    or an element whose key is the one searched for. *)
Theorem find_sound fuel m v n key it :
  0 < b_base m -> doc_at m v n -> _bson_find fuel m v key = Done (Some it) ->
  at_end (v + n - 1) it \/
  elem_at m (v + n - 1) it /\ bson_key m it = Done key.
Proof.
  intros Hb Hdoc. unfold _bson_find.
  destruct (begin_ok m v n Hb Hdoc) as [-> | (it0 & -> & Hok & Hp)]; [done|]. ostep.
  rewrite (end_ok m v n Hb Hdoc). ostep.
  match goal with |- context [foreach_subrange m fuel it0 ?e ?b tt] =>
    pose proof (foreach_inv m v n Hdoc b (fun it => bson_iterator_get_error it = 0 /\
      iter_ok m (v + n - 1) it /\ _bson_key_eq m it key = Done true) fuel) as Hinv;
    destruct (foreach_subrange m fuel it0 e b tt) as [[[[]|r]|]| |] eqn:E end; try done.
  - intros [= <-]. by left.
  - intros [= <-]. destruct (Hinv) with (it := it0) (s := tt) (r := r) as (He & Hk & Heq); try done.
    + clear. intros _ it r Hok. destruct (Z.eqb_spec (bson_iterator_get_error it) 0) as [E0|]; [|done].
      destruct (_bson_key_eq m it key) as [[]| |] eqn:Ek; simpl; intros [= <-]. done.
    + destruct Hk as [-> | [(err & Herr & ->) | Hel]]; [by left | | right].
      { unfold bson_iterator_get_error in He. simpl in He.
        destruct (Z.ltb_spec (- err) 0); lia. }
      split; [done|]. destruct (elem_in_block _ _ _ Hel) as (Hpb & Hr & _).
      destruct Hel as (_ & Hrl & Hmax & k & t & vs & Hkey & _ & Hkl & Ht & _ & ? & ?).
      pose proof (zlen_nonneg k). unfold _bson_key_eq in Heq. unfold bson_key, view_bytes. simpl.
      destruct (Z.leb_spec 0 (_keylen r)); [|done].
      destruct (Z.leb_spec (_keylen r + 1) (_rlen r)); [|lia].
      destruct (Z.eqb_spec (_ptr r) 0); [lia|]. simpl.
      destruct (Z.gtb_spec (zlen key) INT32_MAX); [done|]. pose proof (zlen_nonneg key).
      rewrite s32_id in Heq by (unfold is_i32; lia). rewrite u32_id by (unfold is_u32; lia).
      destruct (Z.eqb_spec (zlen key) (_keylen r)) as [El|]; [|done]. simpl in Heq.
      rewrite <- El. destruct (rd_range m (_ptr r + 1) (zlen key)) as [l| |]; [|done..].
      simpl in Heq. injection Heq as Heq. by apply bool_decide_eq_true in Heq as ->.
Qed.

Lemma find_sound_witness :
  elem_at sample 4116 (mk_iterator 4107 1 10) /\
  bson_key sample (mk_iterator 4107 1 10) = Done (map z2b [98]).
Proof.
  destruct (find_sound 30 sample 4096 21 (map z2b [98]) (mk_iterator 4107 1 10)) as [H | H].
  - reflexivity.
  - exact sample_doc.
  - vm_compute. reflexivity.
  - discriminate H.
  - exact H.
Defined.

(** ** Documents that break the promises *)

(** [{"a": DBPointer("A", ...)}] with four bytes of the identifier missing. *)
Definition dbpointer_doc : block :=
  block_of [22; 0; 0; 0; 12; 97; 0; 2; 0; 0; 0; 65; 0; 1; 2; 3; 4; 5; 6; 7; 8; 0].

(** A string with the length prefix [-1]. *)
Definition negative_length_doc : block :=
  block_of [12; 0; 0; 0; 2; 97; 0; 255; 255; 255; 255; 0].

(** [{"a": ""}]. *)
Definition empty_string_doc : block := block_of [13; 0; 0; 0; 2; 97; 0; 1; 0; 0; 0; 0; 0].

(** A DBPointer at the end of a document: the size table counts twelve bytes
    beside the string where the format has sixteen, so a validated document
    whose loop ends without an error holds an element whose value is read from
    outside the document. *)
Theorem dbpointer_overread :
  let m := dbpointer_doc in
  let it := mk_iterator 4100 1 18 in
  view_from_data m 4096 22 = Done (inl 4096) /\ _bson_begin m 4096 = Done it /\
  bson_iterator_get_error it = bson_iter_errc_okay /\
  omap_outcome bson_stop (bson_next m it) = Done true /\
  bson_iterator_value m it = Undef.
Proof. by vm_compute. Qed.

(** Aborts on input: a validated document with a negative length prefix stops
    the program in [bson_begin] instead of giving an errant iterator, and the
    value of a correctly encoded empty string stops it too. *)
Theorem hostile_lengths_abort :
  let negative := negative_length_doc in
  let empty := empty_string_doc in
  view_from_data negative 4096 12 = Done (inl 4096) /\ _bson_begin negative 4096 = Abort /\
  view_from_data empty 4096 13 = Done (inl 4096) /\
  (let* it := _bson_begin empty 4096 in bson_iterator_value empty it) = Abort.
Proof. by vm_compute. Qed.
