(* ===== verification/Codec.v ===== *)
(** * The abstract document: a list of keyed values, and its encoding

    The specification side of the BSON library.  [encode_doc] is the BSON
    serialisation of a list of elements; the theorems show that the iterator of
    [include/bson/iterator.h] reads back exactly that list. *)
From Stdlib Require Import ZArith Lia.
From Stdlib Require Import Strings.Byte.
From stdpp Require Import base numbers list sets.
From S2P Require Import Prelude.
From S2P Require Import Integer.
From S2P Require Import Mem.
From S2P Require Import Types.
From S2P Require Import View.
From S2P Require Import Iterator.
From S2P Require Import IteratorSafe.
Import mlibMath.
Open Scope Z_scope.

(** ** Encoding *)

Definition encode_string (s : list byte) : list byte := le32 (zlen s + 1) ++ s ++ [x00].

Definition encode_value (v : bson_value_ref) : list byte :=
  match v with
  | v_double bits => le64 bits
  | v_utf8 s | v_code s | v_symbol s => encode_string s
  | v_document (Some d) | v_array (Some d) => d
  | v_binary subtype data => le32 (zlen data) ++ [subtype] ++ data
  | v_oid o => o
  | v_bool b => [if b then x01 else x00]
  | v_datetime z | v_int64 z => le64 (u64 z)
  | v_regex (Some rx) (Some opt) => cstring_pair rx opt
  | v_dbpointer c o => encode_string c ++ o
  | v_int32 z => le32 (u32 z)
  | v_timestamp i s => le32 i ++ le32 s
  | v_decimal128 b => b
  | _ => []
  end.

Abbreviation element := (list byte * bson_value_ref)%type.

Definition encode_elem (kv : element) : list byte :=
  z2b (value_type (snd kv)) :: fst kv ++ [x00] ++ encode_value (snd kv).
Definition encode_body (es : list element) : list byte := concat (map encode_elem es).
Definition doc_size (es : list element) : Z := 4 + zlen (encode_body es) + 1.
Definition encode_doc (es : list element) : list byte :=
  le32 (doc_size es) ++ encode_body es ++ [x00].

(** ** Well-formed values *)

(** The bytes of one whole document. *)
Definition is_doc (d : list byte) : Prop :=
  exists body, d = le32 (zlen d) ++ body ++ [x00] /\ zlen d <= INT32_MAX.

(** Values whose encoding the library can delimit. *)
Definition framed (v : bson_value_ref) : Prop :=
  match v with
  | v_double bits => is_u64 bits
  | v_utf8 s | v_code s | v_symbol s => zlen s + 1 <= INT32_MAX
  | v_document (Some d) | v_array (Some d) => is_doc d
  | v_binary _ data => zlen data <= INT32_MAX
  | v_oid o => zlen o = 12
  | v_regex (Some rx) (Some opt) => x00 ∉ rx /\ x00 ∉ opt
  | v_datetime z | v_int64 z => is_i64 z
  | v_int32 z => is_i32 z
  | v_timestamp i s => is_u32 i /\ is_u32 s
  | v_decimal128 b => zlen b = 16
  | v_undefined | v_bool _ | v_null | v_maxkey | v_minkey => True
  | _ => False
  end.

(** Values that [bson_iterator_value] returns: it stops on an empty string. *)
Definition readable (v : bson_value_ref) : Prop :=
  framed v /\
  match v with v_utf8 s | v_code s | v_symbol s => s <> [] | _ => True end.

(** The strings on which it stops. *)
Definition empty_string (v : bson_value_ref) : bool :=
  match v with v_utf8 [] | v_code [] | v_symbol [] => true | _ => false end.

Lemma framed_readable v : framed v -> empty_string v = false -> readable v.
Proof. intros Hv He. split; [done|]. by destruct v as [| |[]|?|?| | | | | | | | |[]|[]| | | | | | | |]. Qed.

Definition elem_wf (kv : element) : Prop := x00 ∉ fst kv /\ framed (snd kv).

(** ** Sizes *)

Lemma zlen_encode_string s : zlen (encode_string s) = 4 + zlen s + 1.
Proof. unfold encode_string. rewrite !zlen_app, zlen_le32. change (zlen [x00]) with 1. lia. Qed.
Lemma zlen_cstring_pair rx opt : zlen (cstring_pair rx opt) = zlen rx + zlen opt + 2.
Proof.
  unfold cstring_pair. rewrite zlen_app, zlen_cons, zlen_app. change (zlen [x00]) with 1. lia.
Qed.
Lemma zlen_encode_elem k v : zlen (encode_elem (k, v)) = 2 + zlen k + zlen (encode_value v).
Proof. unfold encode_elem. simpl. rewrite zlen_cons, zlen_app, zlen_cons. lia. Qed.
Lemma zlen_encode_doc es : zlen (encode_doc es) = doc_size es.
Proof.
  unfold encode_doc, doc_size. rewrite !zlen_app, zlen_le32. change (zlen [x00]) with 1. lia.
Qed.
Lemma encode_body_cons kv es : encode_body (kv :: es) = encode_elem kv ++ encode_body es.
Proof. done. Qed.
Lemma encode_body_app es fs : encode_body (es ++ fs) = encode_body es ++ encode_body fs.
Proof. unfold encode_body. by rewrite map_app, concat_app. Qed.

Lemma value_type_byte v : framed v -> b2z (z2b (value_type v)) = value_type v.
Proof. destruct v; simpl; try done. Qed.

Lemma encode_doc_is_doc es : doc_size es <= INT32_MAX -> is_doc (encode_doc es).
Proof. intros H. exists (encode_body es). rewrite zlen_encode_doc. done. Qed.

Lemma is_doc_at m p d : bytes_at m p d -> is_doc d -> 5 <= zlen d /\ doc_at m p (zlen d).
Proof.
  intros H (body & E & Hmax). assert (zlen d = 4 + zlen body + 1) as Hl
    by (rewrite E at 1; rewrite !zlen_app, zlen_le32; change (zlen [x00]) with 1; lia).
  pose proof (zlen_nonneg body). split; [lia|]. unfold doc_at. rewrite E in H.
  apply bytes_at_app in H as [H1 H2]. apply bytes_at_app in H2 as [_ H2].
  rewrite zlen_le32 in H2. split_and!; [lia | lia | done|].
  by replace (p + (zlen d - 1)) with (p + 4 + zlen body) by lia.
Qed.

Lemma zlen_is_doc d : is_doc d -> 5 <= zlen d <= INT32_MAX /\ exists body, d = le32 (zlen d) ++ body ++ [x00].
Proof.
  intros (body & E & Hmax). split; [|eauto]. split; [|done].
  rewrite E, !zlen_app, zlen_le32. change (zlen [x00]) with 1. pose proof (zlen_nonneg body). lia.
Qed.

(** Sizes with a length prefix [len]. *)
Lemma valsize_prefixed m t p n len rest :
  0 <= t < 256 -> varsize_at t = true -> 0 <= len <= INT32_MAX ->
  bytes_at m p (le32 len ++ rest) -> 0 <= const_size_at t + len < n -> 4 < n <= INT32_MAX ->
  _bson_valsize m t p n = Done (const_size_at t + len).
Proof.
  intros Ht Hv Hlen Hat Hc Hn. rewrite valsize_unfold, Hv by lia.
  destruct (Z.gtb_spec n 4); [|lia]. simpl negb. cbv iota.
  apply bytes_at_app_l in Hat. rewrite (read_le32 m p len) by (unfold is_u32; (done || lia)).
  ostep. rewrite s32_id by (unfold is_i32; lia).
  destruct (Z.leb_spec 0 len); [|lia]. unfold valsize_finish.
  destruct (Z.leb_spec 0 (const_size_at t + len)); [|lia].
  destruct (Z.ltb_spec (const_size_at t + len) n); [|lia].
  by destruct (Z.ltb_spec (const_size_at t + len) INT32_MAX); [|lia].
Qed.

Lemma valsize_fixed m t p n :
  0 <= t < 256 -> varsize_at t = false -> const_size_at t < n <= INT32_MAX ->
  _bson_valsize m t p n = Done (const_size_at t).
Proof.
  intros Ht Hv Hn. pose proof (const_size_range t). rewrite valsize_unfold, Hv by lia.
  unfold valsize_finish. destruct (Z.leb_spec 0 (const_size_at t)); [|lia].
  destruct (Z.ltb_spec (const_size_at t) n); [|lia].
  by destruct (Z.ltb_spec (const_size_at t) INT32_MAX); [|lia].
Qed.

Lemma valsize_regex m p n rx opt :
  x00 ∉ rx -> x00 ∉ opt -> bytes_at m p (cstring_pair rx opt) ->
  zlen rx + zlen opt + 2 < n <= INT32_MAX ->
  _bson_valsize m bson_type_regex p n = Done (zlen rx + zlen opt + 2).
Proof.
  intros Hrx Hopt Hat Hn. pose proof (zlen_nonneg rx). pose proof (zlen_nonneg opt).
  rewrite valsize_unfold by lia. change (varsize_at bson_type_regex) with false. cbv iota.
  change (const_size_at bson_type_regex) with INT32_MAX. unfold valsize_finish. simpl.
  destruct (Z.ltb_spec INT32_MAX n); [lia|]. apply re_len_at; (done || lia).
Qed.

(** The size found for an encoded value is its length. *)
Lemma valsize_encode m p n v :
  framed v -> bytes_at m p (encode_value v) -> zlen (encode_value v) < n <= INT32_MAX ->
  _bson_valsize m (value_type v) p n = Done (zlen (encode_value v)).
Proof.
  intros Hv Hat Hn.
  assert (forall s, zlen s + 1 <= INT32_MAX -> encode_value v = encode_string s ->
    varsize_at (value_type v) = true -> const_size_at (value_type v) = 4 ->
    0 <= value_type v < 256 ->
    _bson_valsize m (value_type v) p n = Done (zlen (encode_value v))) as Hstring.
  { intros s Hs E Hvar Hc Ht. rewrite E in *. rewrite zlen_encode_string in *.
    pose proof (zlen_nonneg s).
    rewrite (valsize_prefixed m _ p n (zlen s + 1) (s ++ [x00])); rewrite ?Hc; try (done || lia).
    f_equal. lia. }
  assert (forall d, is_doc d -> encode_value v = d ->
    varsize_at (value_type v) = true -> const_size_at (value_type v) = 0 ->
    0 <= value_type v < 256 ->
    _bson_valsize m (value_type v) p n = Done (zlen (encode_value v))) as Hdoc.
  { intros d Hd E Hvar Hc Ht. rewrite E in *.
    destruct (zlen_is_doc d Hd) as [Hr [body Ed]]. rewrite Ed in Hat.
    by rewrite (valsize_prefixed m _ p n (zlen d) (body ++ [x00])); rewrite ?Hc; try (done || lia). }
  assert (zlen (encode_value v) = const_size_at (value_type v) ->
    varsize_at (value_type v) = false -> 0 <= value_type v < 256 ->
    _bson_valsize m (value_type v) p n = Done (zlen (encode_value v))) as Hfixed.
  { intros E Hvar Ht. rewrite E in *. by apply valsize_fixed. }
  destruct v as [|b|s|[d|]|[d|]|st data| |o|b|z| |[rx|] [opt|]|c o|s|s| |z|i u|z|b| | |t];
    try done; try (by apply Hfixed); try (by apply (Hstring s)); try (by apply (Hdoc d)).
  - pose proof (zlen_nonneg data). simpl in Hv.
    assert (zlen (encode_value (v_binary st data)) = 5 + zlen data) as E
      by (simpl; rewrite zlen_app, zlen_le32, zlen_cons; lia).
    assert (const_size_at (value_type (v_binary st data)) = 5) as Ec by done.
    rewrite E in *. simpl encode_value in Hat.
    rewrite (valsize_prefixed m _ p n (zlen data) ([st] ++ data)); rewrite ?Ec; (done || lia).
  - destruct Hv as [? ?]. simpl encode_value in *. rewrite zlen_cstring_pair in Hn |- *.
    by apply valsize_regex.
Qed.

(** ** One element *)

Lemma s32_u32_id z : is_i32 z -> s32 (u32 z) = z.
Proof. intros. rewrite s32_u32. by apply s32_id. Qed.
Lemma s64_u64_id z : is_i64 z -> s64 (u64 z) = z.
Proof. intros. rewrite s64_u64. by apply s64_id. Qed.
Lemma rd_range_len m a l n : bytes_at m a l -> zlen l = n -> rd_range m a n = Done l.
Proof. intros H <-. by apply rd_range_at. Qed.

Section Element.
Context (m : block) (e : Z) (Hbase : 0 < b_base m) (Hzero : bytes_at m e [x00]).

(** [p] is the address of the element's tag, [e] of the terminator. *)
Context (p : Z) (k : list byte) (v : bson_value_ref).
Context (Hat : bytes_at m p (encode_elem (k, v))).
Context (Hk : x00 ∉ k) (Hv : framed v).
Context (Hend : p + zlen (encode_elem (k, v)) <= e) (Hmax : e + 1 - p <= INT32_MAX).

Let it := mk_iterator p (zlen k) (e + 1 - p).

Lemma elem_parts :
  rd8 m p = Done (z2b (value_type v)) /\ bytes_at m (p + 1) (k ++ [x00]) /\
  bytes_at m (p + 1 + zlen k + 1) (encode_value v).
Proof.
  pose proof Hat as H. unfold encode_elem in H. simpl in H.
  apply bytes_at_cons in H as [H1 H2].
  change (k ++ x00 :: encode_value v) with (k ++ [x00] ++ encode_value v) in H2.
  rewrite app_assoc in H2. apply bytes_at_app in H2 as [H2 H3].
  rewrite zlen_app in H3. change (zlen [x00]) with 1 in H3. rewrite Z.add_assoc in H3.
  split_and!; [by apply rd8_at | done | done].
Qed.

Lemma elem_encode_at : elem_at m e it.
Proof.
  destruct elem_parts as (H1 & H2 & H3). rewrite zlen_encode_elem in Hend.
  pose proof (zlen_nonneg (encode_value v)). pose proof (zlen_nonneg k).
  destruct (bytes_at_bounds _ _ _ Hat).
  split; [done|]. split; [done|]. split; [done|].
  exists k, (z2b (value_type v)), (zlen (encode_value v)). simpl.
  rewrite value_type_byte by done. split_and!; try (done || lia).
  apply valsize_encode; (done || lia).
Qed.

(** The iterator at the element, its size, and the next position. *)
Lemma iterator_at_encode : _bson_iterator_at m p (e + 1 - p) = Done it.
Proof.
  destruct elem_parts as (H1 & H2 & H3). pose proof (zlen_nonneg k) as Hkn.
  pose proof (zlen_nonneg (encode_value v)) as Hvn.
  pose proof Hend as Hle. rewrite zlen_encode_elem in Hle.
  unfold _bson_iterator_at.
  destruct (Z.ltb_spec 0 (e + 1 - p)); [|lia].
  destruct (Z.leb_spec 0 (e + 1 - p - 1)); [|lia].
  replace (p + (e + 1 - p - 1)) with e by lia.
  rewrite (rd8_at _ _ _ Hzero). ostep. change (b2z x00 =? 0) with true. cbv iota.
  rewrite H1. ostep. destruct (Z.eqb_spec (e + 1 - p) 1); [lia|].
  destruct (Z.leb_spec 1 (e + 1 - p - 1)); [|lia].
  rewrite (strlen_at _ _ _ H2 Hk). ostep.
  assert (rd8 m (p + 1 + zlen k) = Done x00) as Hnul
    by (apply rd8_at; by apply bytes_at_app_r in H2).
  rewrite Hnul. ostep. change (b2z x00 =? 0) with true. cbv iota.
  repeat match goal with |- context [if ?a <? ?b then _ else Abort] =>
    destruct (Z.ltb_spec a b); [|lia] end.
  repeat match goal with |- context [if ?a <=? ?b then _ else Abort] =>
    destruct (Z.leb_spec a b); [|lia] end.
  destruct (Z.ltb_spec (e + 1 - p - 1 - zlen k - 1) 1); [lia|].
  rewrite value_type_byte by done.
  destruct (if _ >? 16 then _ else true); [|done].
  replace (p + 1 + (zlen k + 1)) with (p + 1 + zlen k + 1) by lia.
  rewrite (valsize_encode _ _ _ v Hv H3) by lia. ostep.
  destruct (Z.ltb_spec (zlen (encode_value v)) 0); [lia|].
  destruct (_ || _) eqn:Hdoc; [|done].
  assert (exists d, encode_value v = d /\ is_doc d) as (d & Ed & Hd).
  { destruct v as [|b|s|[d|]|[d|]|st data| |o|b|z| |[rx|] [opt|]|c o|s|s| |z|i u|z|b| | |t];
      try done; try (by destruct Hv); exists d; done. }
  rewrite Ed in *. destruct (is_doc_at _ _ _ H3 Hd) as (_ & _ & _ & Hz).
  by rewrite (rd8_at _ _ _ Hz).
Qed.

Lemma data_size_encode :
  bson_iterator_data_size m it = Done (zlen (encode_elem (k, v))).
Proof.
  destruct elem_parts as (H1 & H2 & H3). pose proof (zlen_nonneg k).
  pose proof (zlen_nonneg (encode_value v)).
  pose proof Hend as Hle. rewrite zlen_encode_elem in Hle |- *.
  unfold bson_iterator_data_size, bson_stop, bson_iterator_type. simpl.
  destruct (Z.leb_spec (e + 1 - p) 1); [lia|]. simpl negb. cbv iota.
  destruct (Z.ltb_spec 0 (1 + zlen k + 1)); [|lia].
  destruct (Z.ltb_spec 0 (e + 1 - p)); [|lia]. rewrite H1. ostep.
  rewrite value_type_byte by done.
  replace (p + (1 + zlen k + 1)) with (p + 1 + zlen k + 1) by lia.
  rewrite (valsize_encode _ _ _ v Hv H3) by lia. ostep.
  destruct (Z.ltb_spec (1 + zlen k + 1) (INT32_MAX - zlen (encode_value v))); [|lia].
  f_equal. rewrite u32_id by (unfold is_u32; lia). lia.
Qed.

Lemma next_encode :
  bson_next m it =
  _bson_iterator_at m (p + zlen (encode_elem (k, v))) (e + 1 - (p + zlen (encode_elem (k, v)))).
Proof.
  unfold bson_next. rewrite data_size_encode. ostep.
  pose proof (zlen_nonneg (encode_elem (k, v))).
  rewrite s32_id by (unfold is_i32; lia). simpl.
  destruct (Z.leb_spec 0 (e + 1 - p - zlen (encode_elem (k, v)))); [|lia].
  f_equal. lia.
Qed.

Lemma key_encode : bson_key m it = Done k.
Proof.
  destruct elem_parts as (_ & H2 & _). pose proof (zlen_nonneg k).
  pose proof Hend as Hle. rewrite zlen_encode_elem in Hle.
  pose proof (zlen_nonneg (encode_value v)).
  destruct (bytes_at_bounds _ _ _ Hat) as [Hpb _].
  unfold bson_key. simpl. destruct (Z.leb_spec (zlen k + 1) (e + 1 - p)); [|lia].
  destruct (Z.eqb_spec p 0); [lia|]. simpl. unfold view_bytes. simpl.
  rewrite u32_id by (unfold is_u32; lia). apply rd_range_at. by apply bytes_at_app_l in H2.
Qed.

Lemma key_eq_encode key : _bson_key_eq m it key = Done (bool_decide (k = key)).
Proof.
  destruct elem_parts as (_ & H2 & _). pose proof (zlen_nonneg k).
  pose proof Hend as Hle. rewrite zlen_encode_elem in Hle.
  pose proof (zlen_nonneg (encode_value v)). pose proof (zlen_nonneg key).
  unfold _bson_key_eq. simpl. destruct (Z.leb_spec 0 (zlen k)); [|lia].
  destruct (decide (zlen key = zlen k)) as [El|Hne].
  - destruct (Z.gtb_spec (zlen key) INT32_MAX); [lia|].
    rewrite s32_id by (unfold is_i32; lia). rewrite El, Z.eqb_refl. simpl.
    rewrite (rd_range_at m (p + 1) k) by (by apply bytes_at_app_l in H2). done.
  - rewrite bool_decide_eq_false_2 by (intros ->; done).
    destruct (Z.gtb_spec (zlen key) INT32_MAX); [done|]. simpl.
    rewrite s32_id by (unfold is_i32; lia).
    by destruct (Z.eqb_spec (zlen key) (zlen k)).
Qed.

(** Reading the value back. *)
Lemma string_encode s :
  s <> [] -> zlen s + 1 <= INT32_MAX -> encode_value v = encode_string s ->
  (let* r := _bson_iterator_stringlike m it in view_bytes m r) = Done s.
Proof.
  intros Hne Hmx E. destruct elem_parts as (_ & _ & H3). rewrite E in H3.
  pose proof Hend as Hle. rewrite zlen_encode_elem, E, zlen_encode_string in Hle.
  pose proof (zlen_nonneg k). assert (0 < zlen s) by (destruct s; [done|]; rewrite zlen_cons; pose proof (zlen_nonneg s); lia).
  unfold encode_string in H3. apply bytes_at_app in H3 as [H3 H4]. rewrite zlen_le32 in H4.
  unfold _bson_iterator_stringlike, _bson_read_stringlike_at, _bson_iterator_value_ptr. simpl.
  rewrite (read_le32 m _ (zlen s + 1)) by (unfold is_u32; (done || lia)). ostep.
  rewrite s32_id by (unfold is_i32; lia). rewrite u32_id by (unfold is_u32; lia).
  destruct (Z.leb_spec 1 (zlen s + 1)); [|lia]. ostep. simpl.
  destruct (Z.ltb_spec 0 (zlen s + 1 - 1)); [|lia].
  destruct (Z.ltb_spec (zlen s + 1 - 1) (e + 1 - p)); [|lia]. ostep.
  unfold view_bytes. simpl. replace (zlen s + 1 - 1) with (zlen s) by lia.
  apply rd_range_at. by apply bytes_at_app_l in H4.
Qed.

Lemma document_encode d :
  is_doc d -> encode_value v = d -> iterator_document m it = Done (Some d).
Proof.
  intros Hd E. destruct elem_parts as (_ & _ & H3). rewrite E in H3.
  pose proof Hend as Hle. rewrite zlen_encode_elem, E in Hle.
  destruct (is_doc_at _ _ _ H3 Hd) as [H5 Hda]. destruct (zlen_is_doc d Hd) as [Hr _].
  pose proof (bytes_at_bounds _ _ _ H3) as [Hb _]. pose proof (zlen_nonneg k).
  unfold iterator_document, _bson_iterator_value_ptr. simpl.
  set (vp := p + 1 + zlen k + 1) in *.
  replace (e + 1 - p - (vp - p)) with (e + 1 - vp) by lia.
  destruct (Z.ltb_spec 0 (e + 1 - vp)); [|lia].
  assert (vp <> 0) by (pose proof (bytes_at_bounds _ _ _ Hat); lia).
  unfold bson_view_from_data. destruct (Z.ltb_spec (e + 1 - vp) 5); [lia|].
  destruct Hda as (Hn & Hh & Ht).
  rewrite (read_le32 m vp (zlen d)) by (unfold is_u32; (done || lia)). ostep.
  rewrite s32_id by (unfold is_i32; lia).
  destruct (Z.ltb_spec (zlen d) 5); [lia|]. rewrite u32_id by (unfold is_u32; lia).
  destruct (Z.gtb_spec (zlen d) (e + 1 - vp)); [lia|].
  rewrite (rd8_at _ _ _ Ht). ostep. change (b2z x00 =? 0) with true. simpl.
  destruct (Z.eqb_spec vp 0); [done|].
  rewrite (doc_at_size m vp (zlen d)) by done. ostep. by rewrite (rd_range_at m vp d).
Qed.

Lemma value_encode : readable v -> bson_iterator_value m it = Done v.
Proof.
  intros [_ Hread]. destruct elem_parts as (H1 & H2 & H3). pose proof (zlen_nonneg k).
  pose proof (zlen_nonneg (encode_value v)).
  pose proof Hend as Hle. rewrite zlen_encode_elem in Hle.
  pose proof (string_encode) as Hstr. pose proof document_encode as Hdoc.
  unfold bson_iterator_value, bson_iterator_get_error, bson_iterator_type. simpl _rlen. simpl _ptr.
  destruct (Z.ltb_spec (e + 1 - p) 0); [lia|]. rewrite Z.eqb_refl.
  destruct (Z.ltb_spec 0 (e + 1 - p)); [|lia]. rewrite H1. ostep.
  rewrite value_type_byte by done.
  change (_bson_iterator_value_ptr it) with (p + 1 + zlen k + 1).
  set (vp := p + 1 + zlen k + 1) in *.
  destruct v as [|b|s|[d|]|[d|]|st data| |o|b|z| |[rx|] [opt|]|c o|s|s| |z|i u|z|b| | |t] eqn:Ev;
    try done; try (by destruct Hv); cbn [value_type].
  - (* double *) by rewrite (read_le64 m vp b).
  - (* utf8 *) by rewrite (Hstr s).
  - (* document *) by rewrite (Hdoc d).
  - (* array *) by rewrite (Hdoc d).
  - (* binary *)
    simpl in H3. apply bytes_at_app in H3 as [H3 HB]. rewrite zlen_le32 in HB.
    apply bytes_at_cons in HB as [HB HC]. replace (vp + 4 + 1) with (vp + 5) in HC by lia.
    simpl in Hv. pose proof (zlen_nonneg data).
    rewrite (read_le32 m vp (zlen data)) by (unfold is_u32; (done || lia)). ostep.
    rewrite s32_id by (unfold is_i32; lia). destruct (Z.leb_spec 0 (zlen data)); [|lia].
    rewrite (rd8_at _ _ _ HB). ostep. by rewrite (rd_range_at _ _ _ HC).
  - (* oid *) by rewrite (rd_range_len m vp o 12).
  - (* bool *) rewrite (rd8_at m vp (if b then x01 else x00)) by done. by destruct b.
  - (* datetime *) rewrite (read_le64 m vp (u64 z)) by (done || apply u64_range). ostep.
    by rewrite s64_u64_id.
  - (* regex *)
    destruct Hv as [? ?]. simpl encode_value in *. rewrite zlen_cstring_pair in *.
    pose proof (zlen_nonneg rx). pose proof (zlen_nonneg opt).
    by rewrite (regex_value m vp rx opt) by (done || lia).
  - (* code *) by rewrite (Hstr s).
  - (* symbol *) by rewrite (Hstr s).
  - (* int32 *) rewrite (read_le32 m vp (u32 z)) by (done || apply u32_range). ostep.
    by rewrite s32_u32_id.
  - (* timestamp *) destruct Hv as [? ?]. simpl in H3. apply bytes_at_app in H3 as [H3 HB].
    rewrite zlen_le32 in HB. by rewrite (read_le32 m vp i), (read_le32 m (vp + 4) u).
  - (* int64 *) rewrite (read_le64 m vp (u64 z)) by (done || apply u64_range). ostep.
    by rewrite s64_u64_id.
  - (* decimal128 *) by rewrite (rd_range_len m vp b 16).
Qed.

(** The value of an empty string stops the process. *)
Lemma value_empty : empty_string v = true -> bson_iterator_value m it = Abort.
Proof.
  intros He. destruct elem_parts as (H1 & H2 & H3). pose proof (zlen_nonneg k). pose proof (zlen_nonneg (encode_value v)).
  pose proof Hend as Hle. rewrite zlen_encode_elem in Hle.
  unfold bson_iterator_value, bson_iterator_get_error, bson_iterator_type. simpl _rlen. simpl _ptr.
  destruct (Z.ltb_spec (e + 1 - p) 0); [lia|]. rewrite Z.eqb_refl.
  destruct (Z.ltb_spec 0 (e + 1 - p)); [|lia]. rewrite H1. ostep. rewrite value_type_byte by done.
  assert (_bson_iterator_stringlike m it = Abort) as E.
  { unfold _bson_iterator_stringlike, _bson_read_stringlike_at. change (_bson_iterator_value_ptr it) with (p + 1 + zlen k + 1).
    rewrite (read_le32 m _ 1); [done|done|].
    destruct v as [| |[]|?|?| | | | | | | | |[]|[]| | | | | | | |]; try done; unfold encode_value, encode_string in H3; by apply bytes_at_app_l in H3. }
  destruct v as [| |[]|?|?| | | | | | | | |[]|[]| | | | | | | |]; try done; cbn [value_type]; by rewrite E.
Qed.
End Element.

(** ** Whole documents *)

(** A loop over a list that may leave early; the step sees the elements before
    and after the current one. *)
Fixpoint fold_until {S R} (f : list element -> element -> list element -> S -> S + R)
  (pre rest : list element) (s : S) : S + R :=
  match rest with
  | [] => inl s
  | kv :: rest =>
      match f pre kv rest s with
      | inr r => inr r
      | inl s => fold_until f (pre ++ [kv]) rest s
      end
  end.

Section Document.
Context (m : block) (v : Z) (es : list element).
Context (Hbase : 0 < b_base m).
Context (Hat : bytes_at m v (encode_doc es)).
Context (Hwf : Forall elem_wf es).
Context (Hmax : doc_size es <= INT32_MAX).

Definition doc_end : Z := v + doc_size es - 1.
(** Address of the element after the prefix [pre]. *)
Definition elem_addr (pre : list element) : Z := v + 4 + zlen (encode_body pre).
Definition iter_of (pre rest : list element) : bson_iterator :=
  match rest with
  | [] => mk_iterator doc_end 0 1
  | (k, _) :: _ => mk_iterator (elem_addr pre) (zlen k) (doc_end + 1 - elem_addr pre)
  end.

Lemma encoded_doc_at : doc_at m v (doc_size es).
Proof.
  rewrite <- zlen_encode_doc. apply is_doc_at; [done | by apply encode_doc_is_doc].
Qed.

Lemma doc_zero : bytes_at m doc_end [x00].
Proof.
  destruct encoded_doc_at as (_ & _ & H). unfold doc_end.
  by replace (v + doc_size es - 1) with (v + (doc_size es - 1)) by lia.
Qed.

Lemma doc_split pre kv rest :
  es = pre ++ kv :: rest ->
  bytes_at m (elem_addr pre) (encode_elem kv) /\
  elem_addr pre + zlen (encode_elem kv) <= doc_end /\ doc_end + 1 - elem_addr pre <= INT32_MAX.
Proof.
  intros E. pose proof Hat as H. unfold encode_doc in H.
  apply bytes_at_app in H as [_ H]. rewrite zlen_le32 in H. apply bytes_at_app_l in H.
  rewrite E, encode_body_app, encode_body_cons in H.
  apply bytes_at_app in H as [_ H]. fold (elem_addr pre) in H.
  split; [by apply bytes_at_app_l in H|].
  unfold doc_end, doc_size in *. unfold elem_addr.
  rewrite E, encode_body_app, encode_body_cons, !zlen_app in *.
  pose proof (zlen_nonneg (encode_body rest)). pose proof (zlen_nonneg (encode_body pre)).
  pose proof (zlen_nonneg (encode_elem kv)). lia.
Qed.

Lemma iterator_at_suffix pre rest :
  es = pre ++ rest ->
  _bson_iterator_at m (elem_addr pre) (doc_end + 1 - elem_addr pre) = Done (iter_of pre rest).
Proof.
  intros E. destruct rest as [|[k w] rest].
  - rewrite app_nil_r in E. subst pre.
    assert (elem_addr es = doc_end) as -> by (unfold elem_addr, doc_end, doc_size; lia).
    replace (doc_end + 1 - doc_end) with 1 by lia. unfold _bson_iterator_at.
    rewrite Z.add_0_r, (rd8_at _ _ _ doc_zero). done.
  - destruct (doc_split _ _ _ E) as (H1 & H2 & H3).
    rewrite E, Forall_app, Forall_cons in Hwf. destruct Hwf as (_ & [Hk Hv] & _).
    apply (iterator_at_encode m doc_end doc_zero _ k w); done.
Qed.

Lemma begin_encode : _bson_begin m v = Done (iter_of [] es).
Proof.
  pose proof encoded_doc_at as Hd. pose proof (view_header m v _ Hd) as Hh.
  pose proof (doc_at_bounds _ _ _ Hd). destruct Hd as (Hn & _ & _).
  unfold _bson_begin. destruct (Z.eqb_spec v 0); [lia|]. simpl negb. cbv iota.
  rewrite Hh. ostep. rewrite s32_id by (unfold is_i32; lia).
  destruct (Z.ltb_spec 0 (doc_size es - 4)); [|lia].
  destruct (Z.ltb_spec (doc_size es - 4) INT32_MAX); [|lia].
  rewrite <- (iterator_at_suffix [] es) by done.
  unfold doc_end, elem_addr. change (zlen (encode_body [])) with 0. f_equal; lia.
Qed.

Lemma end_encode : _bson_end m v = Done (iter_of es []).
Proof. apply (end_ok m v (doc_size es) Hbase encoded_doc_at). Qed.

Lemma next_iter_of pre kv rest :
  es = pre ++ kv :: rest ->
  bson_next m (iter_of pre (kv :: rest)) = Done (iter_of (pre ++ [kv]) rest).
Proof.
  intros E. destruct (doc_split _ _ _ E) as (H1 & H2 & H3). destruct kv as [k w].
  pose proof Hwf as Hw. rewrite E, Forall_app, Forall_cons in Hw. destruct Hw as (_ & [Hk Hv] & _).
  assert (es = (pre ++ [(k, w)]) ++ rest) as E' by (by rewrite <- app_assoc).
  change (iter_of pre ((k, w) :: rest))
    with (mk_iterator (elem_addr pre) (zlen k) (doc_end + 1 - elem_addr pre)).
  rewrite (next_encode m doc_end (elem_addr pre) k w) by done.
  etransitivity; [|apply (iterator_at_suffix _ _ E')]. unfold elem_addr.
  rewrite encode_body_app, zlen_app. change (encode_body [(k, w)]) with (encode_elem (k, w) ++ []).
  rewrite app_nil_r. f_equal; lia.
Qed.

Lemma not_at_end pre kv rest : es = pre ++ kv :: rest -> bson_iterator_eq (iter_of pre (kv :: rest)) (iter_of es []) = false.
Proof.
  intros E. destruct (doc_split _ _ _ E) as (H1 & H2 & H3). unfold bson_iterator_eq. destruct kv as [k w]. simpl.
  rewrite zlen_encode_elem in H2. pose proof (zlen_nonneg k). pose proof (zlen_nonneg (encode_value w)). apply Z.eqb_neq. lia.
Qed.

(** A [bson_foreach_subrange] over the document is a loop over the list. *)
Lemma foreach_encode {S R} (body : S -> bson_iterator -> outcome (S + R)) f fuel :
  (forall pre kv rest s, es = pre ++ kv :: rest ->
     body s (iter_of pre (kv :: rest)) = Done (f pre kv rest s)) ->
  forall rest pre s, es = pre ++ rest -> (length rest < fuel)%nat ->
  foreach_subrange m fuel (iter_of pre rest) (iter_of es []) body s =
  Done (Some (fold_until f pre rest s)).
Proof.
  intros Hbody. induction fuel as [|fuel IH]; intros rest pre s E Hf; [lia|].
  cbn [foreach_subrange].
  destruct rest as [|kv rest].
  - unfold bson_iterator_eq. simpl. by rewrite Z.eqb_refl.
  - destruct (doc_split _ _ _ E) as (H1 & H2 & H3).
    rewrite (not_at_end _ _ _ E).
    rewrite (Hbody pre kv rest s E). ostep. cbn [fold_until].
    destruct (f pre kv rest s) as [s'|r]; [|done].
    assert (bson_iterator_get_error (iter_of pre (kv :: rest)) = 0) as ->.
    { unfold bson_iterator_get_error. destruct kv as [k w]. simpl.
      pose proof (zlen_nonneg (encode_elem (k, w))).
      destruct (Z.ltb_spec (doc_end + 1 - elem_addr pre) 0); [lia | done]. }
    change (0 =? bson_iter_errc_okay) with true. cbv iota.
    rewrite (next_iter_of _ _ _ E). ostep. apply IH; [by rewrite <- app_assoc | simpl in Hf; lia].
Qed.

(** A body that stops at an element of the document stops the loop. *)
Lemma foreach_abort {S R} (body : S -> bson_iterator -> outcome (S + R)) (bad : element -> bool) fuel :
  (forall pre kv rest s, es = pre ++ kv :: rest ->
     if bad kv then body s (iter_of pre (kv :: rest)) = Abort else exists s', body s (iter_of pre (kv :: rest)) = Done (inl s')) ->
  forall rest pre s, es = pre ++ rest -> (length rest < fuel)%nat -> existsb bad rest = true ->
  foreach_subrange m fuel (iter_of pre rest) (iter_of es []) body s = Abort.
Proof.
  intros Hbody. induction fuel as [|fuel IH]; intros rest pre s E Hf Hb; [lia|]. cbn [foreach_subrange].
  destruct rest as [|kv rest]; [done|]. rewrite (not_at_end _ _ _ E). destruct (doc_split _ _ _ E) as (H1 & H2 & H3).
  pose proof (Hbody pre kv rest s E) as Hs. cbn [existsb] in Hb. destruct (bad kv); [by rewrite Hs|].
  destruct Hs as [s' ->]. ostep.
  assert (bson_iterator_get_error (iter_of pre (kv :: rest)) = 0) as ->.
  { unfold bson_iterator_get_error. destruct kv as [k w]. simpl. pose proof (zlen_nonneg (encode_elem (k, w))).
    destruct (Z.ltb_spec (doc_end + 1 - elem_addr pre) 0); [lia | done]. }
  change (0 =? bson_iter_errc_okay) with true. cbv iota. rewrite (next_iter_of _ _ _ E). ostep.
  apply IH; [by rewrite <- app_assoc | simpl in Hf; lia | done].
Qed.

(** A body that keeps an invariant of the elements passed. *)
Lemma foreach_invariant {S R} (body : S -> bson_iterator -> outcome (S + R)) (P : list element -> S -> Prop) fuel :
  (forall pre kv rest s, es = pre ++ kv :: rest -> P pre s ->
     exists s', body s (iter_of pre (kv :: rest)) = Done (inl s') /\ P (pre ++ [kv]) s') ->
  forall rest pre s, es = pre ++ rest -> (length rest < fuel)%nat -> P pre s ->
  exists s', foreach_subrange m fuel (iter_of pre rest) (iter_of es []) body s = Done (Some (inl s')) /\ P es s'.
Proof.
  intros Hbody. induction fuel as [|fuel IH]; intros rest pre s E Hf HP; [lia|]. cbn [foreach_subrange].
  destruct rest as [|kv rest].
  - unfold bson_iterator_eq. simpl. rewrite Z.eqb_refl. exists s. rewrite app_nil_r in E. by rewrite E.
  - rewrite (not_at_end _ _ _ E). destruct (doc_split _ _ _ E) as (H1 & H2 & H3).
    destruct (Hbody pre kv rest s E HP) as (s' & -> & HP'). ostep.
    assert (bson_iterator_get_error (iter_of pre (kv :: rest)) = 0) as ->.
    { unfold bson_iterator_get_error. destruct kv as [k w]. simpl. pose proof (zlen_nonneg (encode_elem (k, w))).
      destruct (Z.ltb_spec (doc_end + 1 - elem_addr pre) 0); [lia | done]. }
    change (0 =? bson_iter_errc_okay) with true. cbv iota. rewrite (next_iter_of _ _ _ E). ostep.
    apply IH; [by rewrite <- app_assoc | simpl in Hf; lia | done].
Qed.

(** The type of an element of the document. *)
Lemma element_type pre k w rest : es = pre ++ (k, w) :: rest ->
  bson_iterator_type m (iter_of pre ((k, w) :: rest)) = Done (value_type w).
Proof.
  intros E. destruct (doc_split _ _ _ E) as (H1 & H2 & H3). pose proof Hwf as Hw. rewrite E, Forall_app, Forall_cons in Hw. destruct Hw as (_ & [Hk Hv] & _).
  pose proof (zlen_nonneg (encode_elem (k, w))). destruct (elem_parts m (elem_addr pre) k w H1) as (Ht & _ & _).
  unfold bson_iterator_type. cbn [iter_of _rlen _ptr]. destruct (Z.ltb_spec 0 (doc_end + 1 - elem_addr pre)); [|lia].
  rewrite Ht. ostep. by rewrite value_type_byte.
Qed.

(** The value of an element of the document. *)
Lemma element_access pre k w rest :
  es = pre ++ (k, w) :: rest ->
  bson_key m (iter_of pre ((k, w) :: rest)) = Done k /\
  (forall key, _bson_key_eq m (iter_of pre ((k, w) :: rest)) key = Done (bool_decide (k = key))) /\
  (readable w -> bson_iterator_value m (iter_of pre ((k, w) :: rest)) = Done w) /\
  bson_iterator_get_error (iter_of pre ((k, w) :: rest)) = 0.
Proof.
  intros E. destruct (doc_split _ _ _ E) as (H1 & H2 & H3).
  pose proof Hwf as Hw. rewrite E, Forall_app, Forall_cons in Hw. destruct Hw as (_ & [Hk Hv] & _).
  split_and!.
  - by apply key_encode with (v := w).
  - intros key. by apply key_eq_encode with (v := w).
  - intros Hr. by apply (value_encode m doc_end Hbase (elem_addr pre) k w).
  - unfold bson_iterator_get_error. simpl. pose proof (zlen_nonneg (encode_elem (k, w))).
    destruct (Z.ltb_spec (doc_end + 1 - elem_addr pre) 0); [lia | done].
Qed.
End Document.

(** Reading a whole document, as a client loops over it: [bson_foreach] with
    [bson_key] and [bson_iterator_value] in the body. *)
Definition read_elements (fuel : nat) (m : block) (v : Z) : outcome (option (list element)) :=
  let* b := _bson_begin m v in
  let* e := _bson_end m v in
  let* r := foreach_subrange (R := Empty_set) m fuel b e
    (fun acc it =>
       let* k := bson_key m it in
       let* w := bson_iterator_value m it in
       Done (inl (acc ++ [(k, w)]))) [] in
  match r with
  | Some (inl es) => Done (Some es)
  | Some (inr r) => match r with end
  | None => Done None
  end.

(** Position of the first element with the key, or the end. *)
Fixpoint find_spec (v : Z) (es pre rest : list element) (key : list byte) : bson_iterator :=
  match rest with
  | [] => iter_of v es es []
  | (k, w) :: rest' =>
      if decide (k = key) then iter_of v es pre rest
      else find_spec v es (pre ++ [(k, w)]) rest' key
  end.

Lemma fold_collect {R : Type} pre rest acc :
  fold_until (R := R) (fun _ kv _ acc => inl (acc ++ [kv])) pre rest acc = inl (acc ++ rest).
Proof.
  revert pre acc. induction rest as [|kv rest IH]; intros pre acc; simpl; [by rewrite app_nil_r|].
  rewrite IH. by rewrite <- app_assoc.
Qed.

Lemma fold_find v es key pre rest :
  match fold_until (fun pre kv rest (_ : unit) =>
          if decide (fst kv = key) then inr (iter_of v es pre (kv :: rest)) else inl tt)
          pre rest tt with
  | inr it => it
  | inl _ => iter_of v es es []
  end = find_spec v es pre rest key.
Proof.
  revert pre. induction rest as [|[k w] rest IH]; intros pre; simpl; [done|].
  case_decide; [done | apply IH].
Qed.

(** ** The iterator refines the abstract document *)

Lemma read_loop fuel m v es :
  0 < b_base m -> bytes_at m v (encode_doc es) -> Forall elem_wf es ->
  Forall (fun kv => readable (snd kv)) es -> doc_size es <= INT32_MAX ->
  (length es < fuel)%nat ->
  read_elements fuel m v = Done (Some es).
Proof.
  intros Hb Hat Hwf Hr Hmax Hf. unfold read_elements.
  rewrite (begin_encode m v es), (end_encode m v es) by done. ostep.
  rewrite (foreach_encode m v es Hat Hwf Hmax _ (fun _ kv _ acc => inl (acc ++ [kv]))); try done.
  - ostep. by rewrite fold_collect.
  - intros pre [k w] rest acc E.
    destruct (element_access m v es Hb Hat Hwf Hmax pre k w rest E) as (Hk & _ & Hv & _).
    cbv beta. rewrite Hk. ostep. rewrite Hv; [done|].
    rewrite E, Forall_app, Forall_cons in Hr. by destruct Hr as (_ & ? & _).
Qed.

(** A document with an empty string, and the same loop. *)
Lemma read_loop_empty fuel m v es :
  0 < b_base m -> bytes_at m v (encode_doc es) -> Forall elem_wf es -> doc_size es <= INT32_MAX ->
  (length es < fuel)%nat -> existsb (fun kv => empty_string (snd kv)) es = true ->
  read_elements fuel m v = Abort.
Proof.
  intros Hb Hat Hwf Hmax Hf He. unfold read_elements.
  rewrite (begin_encode m v es), (end_encode m v es) by done. ostep.
  rewrite (foreach_abort m v es Hat Hwf Hmax _ (fun kv => empty_string (snd kv))); try done.
  intros pre [k w] rest acc E. destruct (element_access m v es Hb Hat Hwf Hmax pre k w rest E) as (Hk & _ & Hv & _).
  destruct (doc_split m v es Hat Hwf Hmax _ _ _ E) as (H1 & H2 & H3).
  pose proof Hwf as Hw. rewrite E, Forall_app, Forall_cons in Hw. destruct Hw as (_ & [Hk0 Hw] & _). cbn [snd] in *.
  rewrite Hk. ostep. destruct (empty_string w) eqn:Ew.
  - change (iter_of v es pre ((k, w) :: rest)) with (mk_iterator (elem_addr v pre) (zlen k) (doc_end v es + 1 - elem_addr v pre)).
    by rewrite (value_empty m (doc_end v es) (elem_addr v pre) k w).
  - rewrite Hv by (by apply framed_readable). by eexists.
Qed.

(** C16. Round trip: looping over the encoding of a list of elements, reading the
    key and the value of each, returns exactly the list; but the process stops at the first string, code or symbol that
    is empty.  The values are those whose encoding the library can delimit: all but the DBPointer and code with scope. *)
Theorem read_encode fuel m v es :
  0 < b_base m -> bytes_at m v (encode_doc es) -> Forall elem_wf es -> doc_size es <= INT32_MAX ->
  (length es < fuel)%nat ->
  read_elements fuel m v = if existsb (fun kv => empty_string (snd kv)) es then Abort else Done (Some es).
Proof.
  intros Hb Hat Hwf Hmax Hf. destruct (existsb _ es) eqn:E; [by eapply read_loop_empty|]. apply read_loop; try done.
  apply Forall_forall. intros kv Hin. rewrite Forall_forall in Hwf. apply framed_readable; [by apply Hwf|].
  apply not_true_is_false. intros Ht. apply not_true_iff_false in E. apply E, existsb_exists. exists kv. by rewrite <- list_elem_of_In.
Qed.

Definition sample_elements : list element :=
  [(map z2b [97], v_int32 (-7)); (map z2b [98], v_utf8 (map z2b [104; 105]));
   (map z2b [99], v_document (Some (encode_doc [(map z2b [100], v_bool true)])))].

Lemma sample_elements_ok :
  Forall elem_wf sample_elements /\ Forall (fun kv => readable (snd kv)) sample_elements /\
  doc_size sample_elements <= INT32_MAX.
Proof.
  assert (is_doc (encode_doc [(map z2b [100], v_bool true)])) by (apply encode_doc_is_doc; by vm_compute).
  split_and!; [| |by vm_compute]; unfold sample_elements, elem_wf, readable; simpl;
    repeat (apply Forall_cons; split); try apply Forall_nil; simpl; split_and?;
    first [done | by vm_compute | by apply (bool_decide_unpack _); vm_compute].
Defined.

Lemma read_encode_witness :
  let m := mk_block 4096 (encode_doc sample_elements) in
  let n := mk_block 4096 (encode_doc (sample_elements ++ [(map z2b [101], v_utf8 [])])) in
  read_elements 10 m 4096 = Done (Some sample_elements) /\ read_elements 10 n 4096 = Abort.
Proof.
  intros m n. destruct sample_elements_ok as (H1 & H2 & H3). split.
  - apply (read_encode 10 m 4096 sample_elements).
    + reflexivity.
    + apply bytes_at_check. vm_compute. reflexivity.
    + exact H1.
    + exact H3.
    + vm_compute. lia.
  - apply (read_encode 10 n 4096 (sample_elements ++ [(map z2b [101], v_utf8 [])])).
    + reflexivity.
    + apply bytes_at_check. vm_compute. reflexivity.
    + apply Forall_app. split; [exact H1|]. apply Forall_singleton. split; [apply (bool_decide_unpack _); vm_compute; reflexivity|vm_compute; discriminate].
    + vm_compute. discriminate.
    + vm_compute. lia.
Defined.

Lemma find_loop fuel m v es key :
  0 < b_base m -> bytes_at m v (encode_doc es) -> Forall elem_wf es ->
  doc_size es <= INT32_MAX -> (length es < fuel)%nat ->
  _bson_find fuel m v key = Done (Some (find_spec v es [] es key)).
Proof.
  intros Hb Hat Hwf Hmax Hf. unfold _bson_find.
  rewrite (begin_encode m v es), (end_encode m v es) by done. ostep.
  rewrite (foreach_encode m v es Hat Hwf Hmax _
    (fun pre kv rest _ => if decide (fst kv = key) then inr (iter_of v es pre (kv :: rest)) else inl tt));
    try done.
  - ostep. rewrite <- (fold_find v es key [] es). by case_match.
  - intros pre [k w] rest [] E.
    destruct (element_access m v es Hb Hat Hwf Hmax pre k w rest E) as (_ & Hk & _ & He).
    cbv beta. rewrite He. change (0 =? bson_iter_errc_okay) with true. cbv iota. rewrite Hk. ostep. simpl.
    by case_decide; case_bool_decide.
Qed.

(** Lookup: [bson_find] returns the iterator of the first element with the
    key, and the end iterator when there is none. *)
Theorem find_encode fuel m v es key :
  0 < b_base m -> bytes_at m v (encode_doc es) -> Forall elem_wf es ->
  doc_size es <= INT32_MAX -> (length es < fuel)%nat ->
  _bson_find fuel m v key = Done (Some (find_spec v es [] es key)).
Proof. apply find_loop. Qed.

Lemma find_encode_witness :
  let m := mk_block 4096 (encode_doc sample_elements) in
  _bson_find 4 m 4096 (map z2b [98]) = Done (Some (mk_iterator 4107 1 23)).
Proof.
  intros m. destruct sample_elements_ok as (H1 & H2 & H3).
  rewrite (find_encode 4 m 4096 sample_elements (map z2b [98])).
  - vm_compute. reflexivity.
  - reflexivity.
  - apply bytes_at_check. vm_compute. reflexivity.
  - exact H1.
  - exact H3.
  - vm_compute. lia.
Defined.
