(* ===== verification/Parse.v ===== *)
(** * Declarative parsing of documents ([include/bson/parse.hpp])

    A rule is a callable object: applied to a value it may update what it
    refers to (the targets of [store] and [action], here a store [S] that is
    passed and returned) and gives a result, with a state and the text that
    [format_to] writes.  A document is given by its decoded elements. *)
From Stdlib Require Import ZArith Lia.
From Stdlib Require Import Strings.Byte Strings.String.
From stdpp Require Import base numbers list sets.
From S2P Require Import Prelude.
From S2P Require Import Types.
From S2P Require Import Value.
From S2P Require Import Codec.
Open Scope Z_scope.

(** [enum pstate], with its bits. *)
Inductive pstate : Type := reject | accept | error.
#[export] Instance pstate_eq_dec : EqDecision pstate.
Proof. solve_decision. Defined.

Definition pstate_bits (s : pstate) : Z :=
  match s with reject => 0 | accept => 1 | error => 2 end.

(** A text, as [write_str] writes it. *)
Abbreviation text := (list byte).
Definition lit (s : string) : text := String.list_byte_of_string s.

Record result : Type := mk_result { state : pstate; format_to : text }.

Definition did_accept (r : result) : bool := bool_decide (state r = accept).

(** [basic_result] with an optional message. *)
Definition basic_result (s : pstate) (message : option text) : result :=
  mk_result s
    match message with
    | Some m => m
    | None => if decide (s = accept) then lit "[accepted]" else lit "[rejected]"
    end.

Section Rules.
Context {S : Type}.

Definition rule (T : Type) : Type := T -> S -> S * result.

(** ** Combinators of several rules *)

Section Several.
Context {T : Type}.

(** The results of the rules in order, up to the first that satisfies [stop]. *)
Fixpoint run_until (stop : pstate -> bool) (rules : list (rule T)) (obj : T) (s : S) : S * list result :=
  match rules with
  | [] => (s, [])
  | r :: rules =>
      let (s, res) := r obj s in
      if stop (state res) then (s, [res])
      else let (s, rs) := run_until stop rules obj s in (s, res :: rs)
  end.

(** [_format_nth] over the results: the messages of those that did not accept,
    separated by commas. *)
Fixpoint format_errors (rs : list result) (countdown : nat) : text :=
  match rs with
  | [] => []
  | r :: rs =>
      if did_accept r then format_errors rs countdown
      else
        let countdown := (countdown - 1)%nat in
        format_to r ++ (if (countdown =? 0)%nat then [] else lit ", ") ++ format_errors rs countdown
  end.

Definition n_errors (rs : list result) : nat := length (List.filter (fun r => negb (did_accept r)) rs).

Definition has_state (st : pstate) (rs : list result) : bool :=
  existsb (fun r => bool_decide (state r = st)) rs.

Definition any_result (rs : list result) : result :=
  mk_result
    (if has_state accept rs then accept else if has_state error rs then error else reject)
    (if (n_errors rs =? 0)%nat then lit "[rejected]"
     else lit "no candidate rule was satisfied: [" ++ format_errors rs (n_errors rs) ++ lit "]").

Definition any (rules : list (rule T)) : rule T := fun obj s =>
  let (s, rs) := run_until (fun st => negb (bool_decide (st = reject))) rules obj s in (s, any_result rs).

(** All [n] rules were invoked and accepted. *)
Definition all_result (n : nat) (rs : list result) : result :=
  mk_result
    (if (length rs =? n)%nat && forallb did_accept rs then accept
     else if has_state error rs then error else reject)
    (if (n_errors rs =? 0)%nat then lit "[accepted]"
     else lit "on or more parse rules were unsatisfied: [" ++ format_errors rs (n_errors rs) ++ lit "]").

Definition all (rules : list (rule T)) : rule T := fun obj s =>
  let (s, rs) := run_until (fun st => negb (bool_decide (st = accept))) rules obj s in
  (s, all_result (length rules) rs).

Definition just_accept : rule T := all [].
Definition just_reject : rule T := any [].

(** ** Combinators of one rule *)

Definition must (r : rule T) : rule T := fun ref s =>
  let (s, res) := r ref s in
  (s, mk_result (if decide (state res = reject) then error else state res) (format_to res)).

Definition action (f : T -> S -> S) : rule T := fun v s => (f v s, basic_result accept None).

Definition maybe (r : rule T) : rule T := fun arg s =>
  let (s, res) := r arg s in
  if decide (state res <> error) then (s, mk_result accept (lit "[accepted]"))
  else (s, mk_result error (format_to res)).
End Several.

(** ** Rules of elements and documents *)

Definition type_rule {T} (try_as : bson_value_ref -> option T) (sub : rule T) : rule element :=
  fun ref s =>
    match try_as (snd ref) with
    | None => (s, mk_result reject (lit "element has incorrect type"))
    | Some v => sub v s
    end.

(** [store]: the value converted to the type of the target, then assigned. *)
Definition store {T} (try_as : bson_value_ref -> option T) (assign : T -> S -> S) : rule element :=
  type_rule try_as (action assign).

Definition field_result (key : text) (sub : option result) : result :=
  match sub with
  | Some r =>
      mk_result (state r)
        (if decide (state r = accept) then lit "[accepted]"
         else lit "in field ‘" ++ key ++ lit "’: " ++ format_to r)
  | None => mk_result reject (lit "element ‘" ++ key ++ lit "’ not found")
  end.

(** [field], applied to an element. *)
Definition field (key : text) (value_rule : rule element) : rule element := fun ref s =>
  if negb (bool_decide (fst ref = key)) then (s, field_result key None)
  else let (s, r) := value_rule ref s in (s, field_result key (Some r)).

(** [field], applied to a document: the first element with the key. *)
Definition field_doc (key : text) (value_rule : rule element) : rule (list element) := fun doc s =>
  match List.find (fun kv => bool_decide (fst kv = key)) doc with
  | None => (s, field_result key None)
  | Some ref => let (s, r) := value_rule ref s in (s, field_result key (Some r))
  end.

Definition require (key : text) (r : rule element) : rule element := must (field key r).

Definition integer (r : rule Z) : rule element := fun ref s =>
  match snd ref with
  | v_int32 z => r z s
  | v_int64 z => r z s
  | _ => (s, mk_result reject (lit "element does not have a numeric type"))
  end.

Fixpoint each (r : rule element) (doc : list element) (s : S) : S * result :=
  match doc with
  | [] => (s, basic_result accept None)
  | el :: doc =>
      let (s, res) := r el s in
      if negb (did_accept res) then
        (s, mk_result (state res)
              (lit "field ‘" ++ fst el ++ lit "’ was rejected: " ++ format_to res))
      else each r doc s
  end.

(** ** [doc]: decomposing a document *)

(** The parts of a [doc] rule: an optional rule, a required one ([must]) with the
    text for a missing element, and [reject_others]. *)
Inductive part : Type :=
| part_rule (r : rule element)
| part_must (r : rule element) (no_result : text)
| part_reject_others.

(** [doc_impl::part], the state of each part. *)
Record part_state : Type := mk_part_state {
  done_ok : bool;
  did_error : bool;
  rejection_subresult : option result;
  got_key : option text }.

Definition part_init : part_state := mk_part_state false false None None.

Definition done_looking (p : part) (st : part_state) : bool :=
  match p with
  | part_reject_others => bool_decide (is_Some (got_key st))
  | _ => done_ok st
  end.

Definition handle_rule (r : rule element) (st : part_state) (ref : element) (s : S)
  : S * part_state * pstate :=
  if done_ok st then (s, st, reject)
  else
    let (s, sub) := r ref s in
    if decide (state sub = accept) then
      (s, mk_part_state true (did_error st) None (got_key st), accept)
    else
      (s, mk_part_state false (did_error st || bool_decide (state sub = error)) (Some sub) (got_key st),
       state sub).

Definition handle_element (p : part) (st : part_state) (ref : element) (s : S)
  : S * part_state * pstate :=
  match p with
  | part_rule r | part_must r _ => handle_rule r st ref s
  | part_reject_others =>
      (s, mk_part_state (done_ok st) (did_error st) (rejection_subresult st) (Some (fst ref)), reject)
  end.

Definition final_state (p : part) (st : part_state) : pstate :=
  match p with
  | part_rule _ => if did_error st then error else accept
  | part_must _ _ => if did_error st then error else if negb (done_ok st) then reject else accept
  | part_reject_others => if decide (is_Some (got_key st)) then reject else accept
  end.

(** One element against the parts in order, until one accepts or errors. *)
Fixpoint offer (parts : list (part * part_state)) (ref : element) (s : S)
  : S * list (part * part_state) * pstate :=
  match parts with
  | [] => (s, [], reject)
  | (p, st) :: parts =>
      let '(s, st, res) := handle_element p st ref s in
      if decide (res = reject) then
        let '(s, parts, merged) := offer parts ref s in (s, (p, st) :: parts, merged)
      else (s, (p, st) :: parts, res)
  end.

(** The loop over the elements. *)
Fixpoint parse_loop (parts : list (part * part_state)) (view : list element) (s : S)
  : S * list (part * part_state) :=
  match view with
  | [] => (s, parts)
  | el :: view =>
      if forallb (fun ps => done_looking (fst ps) (snd ps)) parts then (s, parts)
      else
        let '(s, parts, merged) := offer parts el s in
        if decide (merged = error) then (s, parts) else parse_loop parts view s
  end.

Definition format_part (ps : part * part_state) : text :=
  match fst ps with
  | part_rule _ =>
      match rejection_subresult (snd ps) with
      | Some r => format_to r
      | None => lit "TODO: doc part format message"
      end
  | part_must _ no_result =>
      match rejection_subresult (snd ps) with Some r => format_to r | None => no_result end
  | part_reject_others =>
      match got_key (snd ps) with
      | Some k => lit "unexpected element ‘" ++ k ++ lit "’"
      | None => []
      end
  end.

(** Whether [format_to_with_comma] writes anything for the part. *)
Definition part_has_message (ps : part * part_state) : bool :=
  match fst ps with
  | part_rule _ => bool_decide (final_state (fst ps) (snd ps) <> accept)
  | part_must _ _ => negb (done_ok (snd ps))
  | part_reject_others => bool_decide (is_Some (got_key (snd ps)))
  end.

Fixpoint format_parts (parts : list (part * part_state)) (n_rejected : nat) : text :=
  match parts with
  | [] => []
  | ps :: parts =>
      if part_has_message ps then
        let n_rejected := (n_rejected - 1)%nat in
        format_part ps ++ (if (n_rejected =? 0)%nat then [] else lit ", ") ++ format_parts parts n_rejected
      else format_parts parts n_rejected
  end.

Definition final_is (st : pstate) (ps : part * part_state) : bool :=
  bool_decide (final_state (fst ps) (snd ps) = st).

Definition _nreject (parts : list (part * part_state)) : nat :=
  length (List.filter (fun ps => negb (final_is accept ps)) parts).

Definition final_result (parts : list (part * part_state)) : result :=
  mk_result
    (if existsb (final_is error) parts then error
     else if negb (_nreject parts =? 0)%nat then reject else accept)
    (if negb (_nreject parts =? 0)%nat
     then lit "errors: [" ++ format_parts parts (_nreject parts) ++ lit "]"
     else lit "[accepted]").

(** [doc] applied to a document. *)
Definition doc (parts : list part) : rule (list element) := fun view s =>
  let (s, parts) := parse_loop (map (fun p => (p, part_init)) parts) view s in (s, final_result parts).

(** [doc] applied to an element: [decode] gives the elements of the view. *)
Definition doc_elem (decode : list byte -> list element) (parts : list part) : rule element :=
  fun ref s =>
    match get_document_or_array (snd ref) with
    | None => (s, mk_result reject (lit "the given value is not a document element"))
    | Some d => doc parts (decode d) s
    end.

Definition describe_error (r : result) : text := format_to r.

(** [must_parse]: [inr] is the thrown protocol error with its message. *)
Definition must_parse {T} (value : T) (r : rule T) (s : S) : S * (unit + text) :=
  let (s, res) := r value s in
  if decide (state res <> accept) then (s, inr (describe_error res)) else (s, inl tt).
End Rules.

Arguments rule : clear implicits.
Arguments part : clear implicits.

(** ** Choice and sequence *)

Section Laws.
Context {S T : Type}.

Lemma has_state_cons st r rs : has_state st (r :: rs) = bool_decide (state r = st) || has_state st rs.
Proof. done. Qed.

(** Choice and sequence: [any] gives the state of the first rule that does not
    reject and runs no rule after it; [all] accepts when every rule accepts and
    otherwise gives the state of the first rule that does not, running no rule
    after it.  The effects are those of the rules that were run. *)
Theorem choice_sequence (r : rule S T) rules obj s :
  let (s1, res) := r obj s in
  fst (any (r :: rules) obj s) = (if decide (state res = reject) then fst (any rules obj s1) else s1) /\
  state (snd (any (r :: rules) obj s)) =
    (if decide (state res = reject) then state (snd (any rules obj s1)) else state res) /\
  fst (all (r :: rules) obj s) = (if decide (state res = accept) then fst (all rules obj s1) else s1) /\
  state (snd (all (r :: rules) obj s)) =
    (if decide (state res = accept) then state (snd (all rules obj s1)) else state res).
Proof.
  unfold any, all. cbn [run_until]. destruct (r obj s) as [s1 [st txt]]. simpl state.
  destruct (run_until _ rules obj s1) as [s2 rs] eqn:E2.
  destruct (run_until (fun st => negb (bool_decide (st = accept))) rules obj s1) as [s3 rs3] eqn:E3.
  destruct st; simpl; rewrite ?E2, ?E3; simpl; rewrite ?andb_false_r; by split_and!.
Qed.
End Laws.

(** ** Documents with named fields *)

Section Fields.
Context {S : Type}.

(** A field of a [doc] rule whose value rule accepts exactly the elements that
    satisfy [f_pred] (whatever it stores), and never errors. *)
Record field_spec : Type := mk_field_spec {
  f_key : text;
  f_required : bool;
  f_rule : rule S element;
  f_pred : element -> bool }.

Definition decides (f : field_spec) : Prop :=
  forall el s, state (snd (f_rule f el s)) = if f_pred f el then accept else reject.

(** [require(key, rule)] or [field(key, rule)], as a part of [doc]. *)
Definition field_part (f : field_spec) : part S :=
  if f_required f
  then part_must (field (f_key f) (f_rule f)) (lit "element ‘" ++ f_key f ++ lit "’ not found")
  else part_rule (field (f_key f) (f_rule f)).

(** The element fulfils the field. *)
Definition hits (f : field_spec) (el : element) : bool :=
  bool_decide (fst el = f_key f) && f_pred f el.

(** The parts of the fields [fs], each fulfilled as [dn] says. *)
Definition tracks (fs : list field_spec) (dn : field_spec -> bool)
  (parts : list (part S * part_state)) : Prop :=
  Forall2 (fun f ps => fst ps = field_part f /\ did_error (snd ps) = false /\ done_ok (snd ps) = dn f)
    fs parts.

Lemma handle_field f st el s :
  decides f -> did_error st = false ->
  exists s' st', handle_element (field_part f) st el s =
      (s', st', if negb (done_ok st) && hits f el then accept else reject) /\
    did_error st' = false /\ done_ok st' = done_ok st || hits f el.
Proof.
  intros Hf He.
  assert (handle_element (field_part f) st el s = handle_rule (field (f_key f) (f_rule f)) st el s) as ->
    by (unfold field_part; by destruct (f_required f)).
  unfold handle_rule, field, hits. destruct (done_ok st) eqn:Ed; simpl; [eauto|].
  specialize (Hf el s). destruct (bool_decide (fst el = f_key f)); simpl.
  - destruct (f_rule f el s) as [s' [x t]]. simpl in *. subst x.
    destruct (f_pred f el); simpl; eexists _, _; (split; [done|]); simpl; by rewrite He.
  - eexists _, _. split; [done|]. simpl. by rewrite He.
Qed.

Lemma offer_fields fs : forall dn parts sfx el s,
  NoDup (map f_key fs) -> Forall decides fs -> tracks fs dn parts ->
  exists s' parts', tracks fs (fun f => dn f || hits f el) parts' /\
    offer (parts ++ sfx) el s =
      if existsb (fun f => negb (dn f) && hits f el) fs then (s', parts' ++ sfx, accept)
      else let '(s2, sfx', m) := offer sfx el s' in (s2, parts' ++ sfx', m).
Proof.
  induction fs as [|f fs IH]; intros dn parts sfx el s Hnd Hdec Htr; inversion_clear Htr.
  - exists s, []. split; [constructor|]. simpl. by destruct (offer sfx el s) as [[? ?] ?].
  - rename H into Hf, H0 into Htr, y into ps, l' into parts'. apply NoDup_cons in Hnd as [Hni Hnd].
    apply Forall_cons in Hdec as [Hd Hdec]. destruct ps as [p st]. destruct Hf as (E & He & Edn).
    simpl in E, He, Edn. subst p. simpl.
    destruct (handle_field f st el s Hd He) as (s1 & st1 & -> & He1 & Ed1). rewrite Edn in *.
    destruct (negb (dn f) && hits f el) eqn:Ehit; simpl.
    + exists s1, ((field_part f, st1) :: parts'). split; [|done]. constructor; [done|].
      assert (forall g, g ∈ fs -> hits g el = false) as Hoth.
      { intros g Hg. unfold hits in *. apply andb_true_iff in Ehit as [_ Ehit].
        apply andb_true_iff in Ehit as [Ek _]. apply bool_decide_eq_true in Ek.
        rewrite bool_decide_eq_false_2; [done|]. intros Eg. apply Hni. rewrite <- Ek, Eg.
        by apply list_elem_of_fmap_2. }
      clear -Htr Hoth. unfold tracks in Htr. induction Htr as [|g ps gs pss Hg Htr IH]; [constructor|].
      constructor; [|apply IH; intros; apply Hoth; set_solver].
      rewrite Hoth, orb_false_r by set_solver. done.
    + destruct (IH dn parts' sfx el s1 Hnd Hdec Htr) as (s2 & parts2 & Htr2 & E2). rewrite E2.
      exists s2, ((field_part f, st1) :: parts2). split; [by constructor|].
      destruct (existsb _ fs); [done|]. by destruct (offer sfx el s2) as [[? ?] ?].
Qed.

Lemma tracks_ext fs dn dn' parts :
  (forall f, f ∈ fs -> dn f = dn' f) -> tracks fs dn parts -> tracks fs dn' parts.
Proof.
  intros He Ht. induction Ht as [|f ps fs parts Hf Ht IH]; [constructor|].
  constructor; [rewrite <- He by set_solver; done | apply IH; set_solver].
Qed.

Lemma tracks_done fs dn parts sfx :
  tracks fs dn parts ->
  forallb (fun ps => done_looking (fst ps) (snd ps)) (parts ++ sfx) =
  forallb dn fs && forallb (fun ps => done_looking (fst ps) (snd ps)) sfx.
Proof.
  intros Ht. induction Ht as [|f ps fs parts (E & _ & Ed) Ht IH]; [done|]. simpl.
  rewrite IH, andb_assoc. f_equal. f_equal. rewrite E, <- Ed. unfold field_part. by destruct (f_required f).
Qed.

Lemma tracks_final fs dn parts st :
  tracks fs dn parts ->
  existsb (final_is st) parts =
  existsb (fun f => bool_decide ((if f_required f && negb (dn f) then reject else accept) = st)) fs.
Proof.
  intros Ht. induction Ht as [|f ps fs parts (E & Ee & Ed) Ht IH]; [done|]. simpl. rewrite IH. f_equal.
  unfold final_is. f_equal. rewrite E. unfold field_part, final_state.
  by destruct (f_required f); rewrite Ee, ?Ed; [destruct (dn f)|].
Qed.

Lemma tracks_init fs : tracks fs (fun _ => false) (map (fun p => (p, part_init)) (map field_part fs)).
Proof. induction fs as [|f fs IH]; constructor; [done | exact IH]. Qed.

(** A document without errors is accepted when no part rejects. *)
Lemma final_result_state (parts : list (part S * part_state)) :
  existsb (final_is error) parts = false ->
  state (final_result parts) = if existsb (final_is reject) parts then reject else accept.
Proof.
  unfold final_result. intros Hne. simpl. rewrite Hne. unfold _nreject. revert Hne.
  induction parts as [|ps parts IH]; [done|]. simpl. intros [He Hne]%orb_false_iff.
  specialize (IH Hne). unfold final_is in *.
  by destruct (final_state (fst ps) (snd ps)).
Qed.

Lemma existsb_const_false {A} (l : list A) (g : A -> bool) : (forall x, g x = false) -> existsb g l = false.
Proof. intros H. induction l as [|x l IH]; [done|]. simpl. by rewrite H, IH. Qed.

Lemma tracks_no_error fs dn parts : tracks fs dn parts -> existsb (final_is error) parts = false.
Proof.
  intros Ht. rewrite (tracks_final _ _ _ _ Ht). apply existsb_const_false.
  intros f. by destruct (_ && _).
Qed.

Lemma missing_spec fs dn :
  existsb (fun f => bool_decide ((if f_required f && negb (dn f) then reject else accept) = reject)) fs =
  negb (forallb (fun f => negb (f_required f) || dn f) fs).
Proof. induction fs as [|f fs IH]; [done|]. simpl. rewrite IH. by destruct (f_required f), (dn f). Qed.

(** The loop leaves each field fulfilled when some element fulfils it. *)
Lemma parse_fields fs : NoDup (map f_key fs) -> Forall decides fs -> forall es dn parts s,
  tracks fs dn parts ->
  exists s' parts', parse_loop parts es s = (s', parts') /\
    tracks fs (fun f => dn f || existsb (hits f) es) parts'.
Proof.
  intros Hnd Hdec es. induction es as [|el es IH]; intros dn parts s Ht; simpl.
  - exists s, parts. split; [done|]. eapply tracks_ext; [|exact Ht]. intros f _. by rewrite orb_false_r.
  - pose proof (tracks_done _ _ _ [] Ht) as Hd. rewrite app_nil_r, andb_true_r in Hd. rewrite Hd.
    destruct (forallb dn fs) eqn:Eall.
    + exists s, parts. split; [done|]. eapply tracks_ext; [|exact Ht]. intros f Hf.
      rewrite forallb_forall in Eall. by rewrite (Eall f) by by apply list_elem_of_In.
    + destruct (offer_fields fs dn parts [] el s Hnd Hdec Ht) as (s1 & parts1 & Ht1 & E).
      rewrite app_nil_r in E. rewrite E. clear E. simpl. rewrite app_nil_r.
      destruct (IH _ parts1 s1 Ht1) as (s2 & parts2 & E2 & Ht2). exists s2, parts2. split.
      * by destruct (existsb _ fs).
      * eapply tracks_ext; [|exact Ht2]. intros f _. simpl. by rewrite orb_assoc.
Qed.

(** Every required field is fulfilled by some element. *)
Definition fulfilled (fs : list field_spec) (es : list element) : bool :=
  forallb (fun f => negb (f_required f) || existsb (hits f) es) fs.

(** A [doc] rule made of [field] and [require] parts with distinct keys accepts a
    document exactly when every required field is fulfilled by some element, in
    whatever order the elements and the parts come; otherwise it rejects, and it
    never gives an error. *)
Theorem doc_fields_spec fs es s :
  NoDup (map f_key fs) -> Forall decides fs ->
  state (snd (doc (map field_part fs) es s)) = if fulfilled fs es then accept else reject.
Proof.
  intros Hnd Hdec. unfold doc.
  destruct (parse_fields fs Hnd Hdec es _ _ s (tracks_init fs)) as (s' & parts' & -> & Ht). cbn [snd].
  rewrite final_result_state by by eapply tracks_no_error.
  rewrite (tracks_final _ _ _ _ Ht), missing_spec. simpl. fold (fulfilled fs es). by destruct (fulfilled fs es).
Qed.

(** ** Closed documents: [reject_others] as the last part *)

(** Some element is not taken by a field that is still open. *)
Fixpoint strays (fs : list field_spec) (dn : field_spec -> bool) (es : list element) : bool :=
  match es with
  | [] => false
  | el :: es =>
      negb (existsb (fun f => negb (dn f) && hits f el) fs) || strays fs (fun f => dn f || hits f el) es
  end.

Lemma parse_closed fs : NoDup (map f_key fs) -> Forall decides fs -> forall es dn parts st s,
  tracks fs dn parts ->
  exists s' parts' st', parse_loop (parts ++ [(part_reject_others, st)]) es s =
      (s', parts' ++ [(part_reject_others, st')]) /\
    tracks fs (fun f => dn f || existsb (hits f) es) parts' /\
    bool_decide (is_Some (got_key st')) = bool_decide (is_Some (got_key st)) || strays fs dn es.
Proof.
  intros Hnd Hdec es. induction es as [|el es IH]; intros dn parts st s Ht; simpl.
  - exists s, parts, st. split; [done|]. rewrite orb_false_r. split; [|done].
    eapply tracks_ext; [|exact Ht]. intros f _. by rewrite orb_false_r.
  - rewrite (tracks_done _ _ _ _ Ht). simpl. rewrite andb_true_r.
    destruct (forallb dn fs && bool_decide (is_Some (got_key st))) eqn:Eall.
    + apply andb_true_iff in Eall as [Eall Eg]. exists s, parts, st. split; [done|]. rewrite Eg. split; [|done].
      eapply tracks_ext; [|exact Ht]. intros f Hf.
      rewrite forallb_forall in Eall. by rewrite (Eall f) by by apply list_elem_of_In.
    + destruct (offer_fields fs dn parts [(part_reject_others, st)] el s Hnd Hdec Ht)
        as (s1 & parts1 & Ht1 & E). rewrite E. clear E Eall. simpl.
      set (took := existsb _ fs).
      set (st1 := if took then st else
        mk_part_state (done_ok st) (did_error st) (rejection_subresult st) (Some (fst el))).
      destruct (IH _ parts1 st1 s1 Ht1) as (s2 & parts2 & st2 & E2 & Ht2 & Eg).
      exists s2, parts2, st2. split_and!.
      * subst st1. by destruct took.
      * eapply tracks_ext; [|exact Ht2]. intros f _. simpl. by rewrite orb_assoc.
      * rewrite Eg. subst st1. destruct took; simpl; [done|]. by rewrite orb_true_r.
Qed.

Lemma same_key fs f g : NoDup (map f_key fs) -> f ∈ fs -> g ∈ fs -> f_key f = f_key g -> f = g.
Proof.
  intros Hnd Hf Hg E. apply list_elem_of_lookup in Hf as [i Hi], Hg as [j Hj].
  assert (i = j) as ->; [|congruence].
  apply (NoDup_lookup (map f_key fs) i j (f_key f) Hnd); rewrite list_lookup_fmap;
    [by rewrite Hi | rewrite Hj, E; done].
Qed.

Lemma hits_key f el : hits f el = true -> fst el = f_key f.
Proof. unfold hits. intros [H _]%andb_true_iff. by apply bool_decide_eq_true in H. Qed.

Lemma strays_spec fs : NoDup (map f_key fs) -> forall es dn,
  strays fs dn es = false <->
  (forall el, el ∈ es -> exists f, f ∈ fs /\ hits f el = true /\ dn f = false) /\ NoDup (map fst es).
Proof.
  intros Hnd es. induction es as [|el es IH]; intros dn; simpl.
  { split; [intros _; split; [set_solver | constructor] | done]. }
  rewrite orb_false_iff, negb_false_iff, existsb_exists, IH, NoDup_cons. clear IH. split.
  - intros ((f & Hf & [Hd Hh]%andb_true_iff) & Hall & Hndes). apply list_elem_of_In in Hf.
    apply negb_true_iff in Hd. split_and!; [| |done].
    + intros el' [->|Hel']%elem_of_cons; [eauto|]. destruct (Hall el' Hel') as (g & ? & ? & [? ?]%orb_false_iff). eauto.
    + intros (el' & Ek & Hel')%list_elem_of_fmap. destruct (Hall el' Hel') as (g & Hg & Hgh & [_ Hge]%orb_false_iff).
      assert (f = g) as ->; [|congruence]. eapply same_key; try done.
      by rewrite <- (hits_key _ _ Hh), <- (hits_key _ _ Hgh).
  - intros (Hall & Hni & Hndes). split_and!; [| |done].
    + destruct (Hall el) as (f & Hf & Hh & Hd); [set_solver|]. exists f. rewrite Hd, Hh. by rewrite <- list_elem_of_In.
    + intros el' Hel'. destruct (Hall el') as (g & Hg & Hh & Hd); [set_solver|]. exists g. split_and!; [done..|].
      rewrite Hd. simpl. apply not_true_is_false. intros Hge. apply Hni. apply list_elem_of_fmap.
      exists el'. split; [|done]. by rewrite (hits_key _ _ Hge), (hits_key _ _ Hh).
Qed.

(** With [reject_others] after the fields the document is closed: it is accepted
    exactly when every required field is fulfilled, every element fulfils some
    field, and no key occurs twice; otherwise it is rejected, never an error. *)
Theorem doc_closed_spec fs es s :
  NoDup (map f_key fs) -> Forall decides fs ->
  let res := state (snd (doc (map field_part fs ++ [part_reject_others]) es s)) in
  (res = accept <->
     fulfilled fs es = true /\ (forall el, el ∈ es -> exists f, f ∈ fs /\ hits f el = true) /\
     NoDup (map fst es)) /\
  res <> error.
Proof.
  intros Hnd Hdec. unfold doc. rewrite map_app. cbn [map].
  destruct (parse_closed fs Hnd Hdec es _ _ part_init s (tracks_init fs)) as (s' & parts' & st & -> & Ht & Eg).
  cbn [snd] in *. rewrite final_result_state.
  2:{ rewrite existsb_app, (tracks_no_error _ _ _ Ht). simpl. unfold final_is. simpl. by destruct (decide _). }
  rewrite existsb_app, (tracks_final _ _ _ _ Ht), missing_spec. simpl. fold (fulfilled fs es).
  assert (final_is reject (part_reject_others, st) = strays fs (fun _ => false) es) as ->.
  { change (strays fs _ es) with (bool_decide (is_Some (got_key part_init)) || strays fs (fun _ => false) es).
    rewrite <- Eg. unfold final_is. simpl. by destruct (decide _), (bool_decide _) eqn:E;
      apply bool_decide_eq_true in E || apply bool_decide_eq_false in E. }
  rewrite orb_false_r. pose proof (strays_spec fs Hnd es (fun _ => false)) as Hs.
  destruct (fulfilled fs es), (strays fs _ es); simpl; split; try done; split; try done.
  - intros (_ & Hall & Hndes). destruct Hs as [_ Hs]. discriminate Hs. split; [|done].
    intros el Hel. destruct (Hall el Hel) as (f & ? & ?). eauto.
  - intros _. destruct Hs as [Hs _]. destruct (Hs eq_refl) as [Hall Hndes]. split_and!; [done| |done].
    intros el Hel. destruct (Hall el Hel) as (f & ? & ? & _). eauto.
  - by intros (? & _).
  - by intros (? & _).
Qed.
End Fields.

(** A reply of the server: [ok] is required and must be a number, [code] is optional. *)
Definition as_ok (v : bson_value_ref) : option Z :=
  match v with v_int32 z | v_int64 z => Some z | _ => None end.
Definition ok_field : field_spec (S := Z) :=
  mk_field_spec (lit "ok") true (store as_ok (fun z _ => z))
    (fun el => bool_decide (is_Some (as_ok (snd el)))).
Definition code_field : field_spec (S := Z) :=
  mk_field_spec (lit "code") false just_accept (fun _ => true).

Lemma reply_decides : Forall decides [ok_field; code_field].
Proof.
  constructor; [|constructor; [|constructor]]; intros [k v] s; simpl; [|done]. unfold store, type_rule. simpl. by destruct (as_ok v).
Qed.

Lemma reply_keys : NoDup (map f_key [ok_field; code_field]).
Proof. by apply (bool_decide_unpack _). Qed.

Definition reply : list element := [(lit "code", v_int32 0); (lit "ok", v_int32 1)].

(** Witness of [doc_fields_spec]. *)
Lemma doc_fields_witness :
  state (snd (doc (map field_part [ok_field; code_field]) reply 0)) = accept.
Proof. rewrite (doc_fields_spec _ _ _ reply_keys reply_decides). reflexivity. Defined.

(** Witness of [doc_closed_spec]: a repeated key is rejected. *)
Lemma doc_closed_witness :
  state (snd (doc (map field_part [ok_field; code_field] ++ [part_reject_others])
    (reply ++ [(lit "ok", v_int32 1)]) 0)) <> accept.
Proof.
  intros H. apply (doc_closed_spec _ _ _ reply_keys reply_decides) in H as (_ & _ & Hnd).
  revert Hnd. by apply (bool_decide_unpack _).
Defined.
