(* ===== verification/Alloc.v ===== *)
(** * Allocators ([include/mlib/alloc.h])

    The allocator object of the library is a function pointer with user data:
    here a type of allocator states and a transition on it.  [AllocatorOk]
    states what the documentation of [reallocate] promises; the clients are
    proved against it. *)
From Stdlib Require Import ZArith Lia.
From Stdlib Require Import Strings.Byte.
From stdpp Require Import base numbers list.
From S2P Require Import Prelude.
Open Scope Z_scope.

(** The function pointer [mlib_allocator_impl::reallocate]: the region to
    reclaim (or null), the requested size and the previous size.  The size of
    the region returned is the one reported through [out_new_size]. *)
Class Allocator (AS : Type) : Type :=
  reallocate : AS -> option block -> Z -> Z -> AS * option block.

(** Addresses below this one belong to static objects. *)
Definition heap_start : Z := 64.

Class AllocatorOk (AS : Type) `{Allocator AS} : Prop := {
  (** The region lies in the heap, and is as large as requested; a request that
      fits a signed 32-bit size is answered with a region that does. *)
  reallocate_region s prev n k s' b :
    0 < n <= INT32_MAX -> reallocate s prev n k = (s', Some b) ->
    heap_start <= b_base b /\ n <= zlen (b_bytes b) <= INT32_MAX;
  (** The contents up to the smaller of the two sizes are kept. *)
  reallocate_keeps s m n s' b :
    zlen (b_bytes m) <= n -> reallocate s (Some m) n (zlen (b_bytes m)) = (s', Some b) ->
    exists tail, b_bytes b = b_bytes m ++ tail }.

(** What the documentation of [mlib_reallocate] promises of the contents: they are kept up to the
    smaller of the new size and the previously requested size that is passed. *)
Class KeepsRequested (AS : Type) `{Allocator AS} : Prop :=
  keeps_requested : forall s m n k s' b, reallocate s (Some m) n k = (s', Some b) -> 0 <= k <= zlen (b_bytes m) ->
    take (Z.to_nat (Z.min k n)) (b_bytes b) = take (Z.to_nat (Z.min k n)) (b_bytes m).

(** The allocator denies a request that fits a signed 32-bit size. *)
Definition denies {AS} `{Allocator AS} (a : AS) : Prop :=
  exists prev n k, 0 < n <= INT32_MAX /\ snd (reallocate a prev n k) = None.

Definition mlib_reallocate {AS} `{Allocator AS} (alloc : AS) (prev_ptr : option block)
  (new_size prev_size : Z) : AS * option block :=
  reallocate alloc prev_ptr new_size prev_size.

Definition mlib_allocate {AS} `{Allocator AS} (alloc : AS) (sz : Z) : AS * option block :=
  mlib_reallocate alloc None sz 0.

Definition mlib_deallocate {AS} `{Allocator AS} (alloc : AS) (p : option block) (sz : Z) : AS :=
  match p with
  | None => alloc
  | Some _ => fst (mlib_reallocate alloc p 0 sz)
  end.

(** [mlib::allocator<T>::allocate(n)] for a [T] of [size] bytes: without memory, or when the size overflows,
    [bad_alloc] is thrown. *)
Definition allocator_allocate {AS} `{Allocator AS} (alloc : AS) (size n : Z) : AS * option block :=
  let max_count := Z.quot INT64_MAX size in
  if n >? max_count then (alloc, None) else mlib_reallocate alloc None (n * size) 0.

Definition allocator_deallocate {AS} `{Allocator AS} (alloc : AS) (size : Z) (p : option block) (n : Z) : AS :=
  mlib_deallocate alloc p (n * size).

(** ** Some allocators *)

(** A bump allocator: the next free address and the bytes it may still hand
    out. *)
Record arena : Type := mk_arena { a_next : Z; a_left : Z }.

#[export] Instance arena_allocator : Allocator arena :=
  fun s prev n _ =>
    if (0 <? n) && (n <=? a_left s) then
      let old := match prev with Some m => take (Z.to_nat n) (b_bytes m) | None => [] end in
      (mk_arena (a_next s + n) (a_left s - n),
       Some (mk_block (heap_start + Z.max 0 (a_next s))
               (old ++ replicate (Z.to_nat n - length old) x00)))
    else (s, None).

#[export] Instance arena_ok : AllocatorOk arena.
Proof.
  split.
  - intros s prev n k s' b Hn. unfold reallocate, arena_allocator. case_match; [|done].
    intros [= _ <-]. unfold zlen. simpl. rewrite length_app, length_replicate.
    assert (length match prev with Some m => take (Z.to_nat n) (b_bytes m) | None => [] end
            <= Z.to_nat n)%nat by (destruct prev; [rewrite length_take|simpl]; lia).
    lia.
  - intros s m n s' b Hn. unfold reallocate, arena_allocator. case_match; [|done].
    intros [= _ <-]. simpl. unfold zlen in Hn. rewrite take_ge by lia. eauto.
Qed.

(** An allocator with no memory left. *)
Inductive exhausted : Type := Exhausted.

#[export] Instance exhausted_allocator : Allocator exhausted := fun s _ _ _ => (s, None).

#[export] Instance exhausted_ok : AllocatorOk exhausted.
Proof. by split. Qed.

(** An allocator that never runs out. *)
Record ample : Type := mk_ample { next_address : Z }.

#[export] Instance ample_allocator : Allocator ample :=
  fun s prev n _ =>
    if 0 <? n then
      let old := match prev with Some m => take (Z.to_nat n) (b_bytes m) | None => [] end in
      (mk_ample (next_address s + n),
       Some (mk_block (heap_start + Z.max 0 (next_address s)) (old ++ replicate (Z.to_nat n - length old) x00)))
    else (s, None).

#[export] Instance ample_ok : AllocatorOk ample.
Proof.
  split.
  - intros s prev n k s' b Hn. unfold reallocate, ample_allocator. case_match; [|done].
    intros [= _ <-]. unfold zlen. simpl. rewrite length_app, length_replicate.
    assert (length match prev with Some m => take (Z.to_nat n) (b_bytes m) | None => [] end
            <= Z.to_nat n)%nat by (destruct prev; [rewrite length_take|simpl]; lia).
    lia.
  - intros s m n s' b Hn. unfold reallocate, ample_allocator. case_match; [|done].
    intros [= _ <-]. simpl. unfold zlen in Hn. rewrite take_ge by lia. eauto.
Qed.

Lemma ample_never_denies (a : ample) : ~ denies a.
Proof.
  intros (prev & n & k & Hn & H). unfold reallocate, ample_allocator in H. destruct (Z.ltb_spec 0 n); [done | lia].
Qed.

(** ** An allocator that copies what it is told to *)

Record copier : Type := mk_copier { c_next : Z; c_left : Z }.

#[export] Instance copier_allocator : Allocator copier :=
  fun s prev n k =>
    if (0 <? n) && (n <=? c_left s) then
      let old := match prev with Some m => take (Z.to_nat (Z.min k n)) (b_bytes m) | None => [] end in
      (mk_copier (c_next s + n) (c_left s - n),
       Some (mk_block (heap_start + Z.max 0 (c_next s)) (old ++ replicate (Z.to_nat n - length old) x00)))
    else (s, None).

#[export] Instance copier_ok : AllocatorOk copier.
Proof.
  split.
  - intros s prev n k s' b Hn. unfold reallocate, copier_allocator. case_match; [|done].
    intros [= _ <-]. unfold zlen. simpl. rewrite length_app, length_replicate.
    assert (length match prev with Some m => take (Z.to_nat (Z.min k n)) (b_bytes m) | None => [] end
            <= Z.to_nat n)%nat by (destruct prev; [rewrite length_take|simpl]; lia).
    lia.
  - intros s m n s' b Hn. unfold reallocate, copier_allocator. case_match; [|done].
    intros [= _ <-]. simpl. rewrite Z.min_l, zlen_to_nat, firstn_all by lia. eauto.
Qed.

#[export] Instance copier_keeps : KeepsRequested copier.
Proof.
  intros s m n k s' b. unfold reallocate, copier_allocator. case_match; [|done]. intros [= _ <-] Hk. simpl.
  rewrite take_app_le by (rewrite length_take; unfold zlen in *; lia). by rewrite take_take, Nat.min_id.
Qed.
