(* ===== verification/Str.v ===== *)
(** * String views ([include/mlib/str.h], [include/mlib/cstring.h])

    A view is given by the characters it denotes, or [None] for the null view;
    the characters are never stored through a view. *)
From Stdlib Require Import ZArith Lia.
From Stdlib Require Import Strings.Byte.
From stdpp Require Import base numbers list sets.
From S2P Require Import Prelude.
Open Scope Z_scope.

Abbreviation str_view := (list byte).

(** The loop of [mlib_strnlen]: the length up to a null or the end. *)
Fixpoint mlib_strnlen (s : str_view) (maxlen : nat) : nat :=
  match s, maxlen with
  | c :: s, S maxlen => if decide (c = x00) then 0 else S (mlib_strnlen s maxlen)
  | _, _ => 0
  end.

Definition _mlib_str_view_chopnulls (str : str_view) : str_view :=
  take (mlib_strnlen str (length str)) str.

(** A null view has length zero. *)
Definition chopnulls_opt (str : option str_view) : str_view :=
  match str with Some s => _mlib_str_view_chopnulls s | None => [] end.

(** [None] when the assertion fails. *)
Definition _mlib_str_subview (s : str_view) (at_ len : nat) : outcome str_view :=
  assert! (at_ <=? length s)%nat in
  let remain := (length s - at_)%nat in
  let len := if (remain <? len)%nat then remain else len in
  Done (take len (drop at_ s)).

Definition _mlib_str_at (s : str_view) (offset : Z) : outcome byte :=
  let offset := if 0 <=? offset then offset else zlen s + offset in
  if 0 <=? offset then
    match s !! Z.to_nat offset with Some c => Done c | None => Undef end
  else Undef.

(** The comparison loop from [pos] on, [n] characters before the end. *)
Fixpoint str_eq_loop (a b : str_view) (pos : Z) (n : nat) : outcome bool :=
  match n with
  | O => Done true
  | S n =>
      let* x := _mlib_str_at a pos in
      let* y := _mlib_str_at b pos in
      if negb (bool_decide (x = y)) then Done false else str_eq_loop a b (pos + 1) n
  end.

Definition _mlib_str_eq (a b : str_view) : outcome bool :=
  if negb (length a =? length b)%nat then Done false else str_eq_loop a b 0 (length a).

(** The search loop from offset [off], [n] offsets left.  The offset and the
    length are returned as [int]. *)
Fixpoint str_find_loop (given needle : str_view) (off n : nat) : outcome Z :=
  match n with
  | O => Done (0 - s32 (zlen needle))
  | S n =>
      let* part := _mlib_str_subview given off (length needle) in
      let* eq := _mlib_str_eq part needle in
      if (eq : bool) then Done (s32 (Z.of_nat off)) else str_find_loop given needle (S off) n
  end.

Definition _mlib_str_find (given needle : str_view) : outcome Z :=
  if zlen needle >? zlen given then Done (0 - s32 (zlen needle))
  else str_find_loop given needle 0 (length given).

Fixpoint str_rfind_loop (given needle : str_view) (n : nat) : outcome Z :=
  match n with
  | O => Done (-1)
  | S off =>
      let* part := _mlib_str_subview given off (length needle) in
      let* eq := _mlib_str_eq part needle in
      if (eq : bool) then Done (s32 (Z.of_nat off)) else str_rfind_loop given needle off
  end.

Definition _mlib_str_rfind (given needle : str_view) : outcome Z :=
  if zlen needle >? zlen given then Done (0 - s32 (zlen needle))
  else str_rfind_loop given needle (S (length given - length needle)).

(** ** Truncation at the first null *)

Lemma strnlen_le s n : (mlib_strnlen s n <= n)%nat.
Proof. revert n. induction s; intros [|n]; simpl; [lia..|]. case_decide; [lia | specialize (IHs n); lia]. Qed.

Lemma chopnulls_no_nul s : x00 ∉ _mlib_str_view_chopnulls s.
Proof.
  unfold _mlib_str_view_chopnulls. induction s as [|c s IH]; simpl; [set_solver|].
  case_decide; simpl; set_solver.
Qed.

Lemma chopnulls_id s : x00 ∉ s -> _mlib_str_view_chopnulls s = s.
Proof.
  unfold _mlib_str_view_chopnulls. induction s as [|c s IH]; simpl; [done|]. intros Hn.
  rewrite decide_False by set_solver. simpl. by rewrite IH by set_solver.
Qed.

Lemma chopnulls_len s : zlen (_mlib_str_view_chopnulls s) <= zlen s.
Proof. unfold _mlib_str_view_chopnulls, zlen. rewrite length_take. lia. Qed.

(** ** Comparison and search *)

Lemma str_at_nonneg s i : 0 <= i ->
  _mlib_str_at s i = match s !! Z.to_nat i with Some c => Done c | None => Undef end.
Proof. intros Hi. unfold _mlib_str_at. by rewrite !(proj2 (Z.leb_le 0 i)). Qed.

Lemma str_eq_loop_spec a b n : forall pos,
  length a = length b -> (pos + n = length a)%nat ->
  str_eq_loop a b (Z.of_nat pos) n = Done (bool_decide (drop pos a = drop pos b)).
Proof.
  induction n as [|n IH]; intros pos Hl Hn; simpl.
  - rewrite !drop_ge by lia. done.
  - destruct (lookup_lt_is_Some_2 a pos) as [x Hx]; [lia|].
    destruct (lookup_lt_is_Some_2 b pos) as [y Hy]; [lia|].
    rewrite !str_at_nonneg, Nat2Z.id, Hx by lia. ostep. rewrite Hy. ostep.
    rewrite (drop_S a x pos Hx), (drop_S b y pos Hy). case_bool_decide as E; simpl.
    + subst y. replace (Z.of_nat pos + 1) with (Z.of_nat (S pos)) by lia. rewrite IH by lia.
      f_equal. apply bool_decide_ext. split; [congruence | by intros [=]].
    + rewrite bool_decide_eq_false_2; [done|]. congruence.
Qed.

Lemma str_eq_spec a b : _mlib_str_eq a b = Done (bool_decide (a = b)).
Proof.
  unfold _mlib_str_eq. destruct (Nat.eqb_spec (length a) (length b)) as [E|E]; simpl.
  - apply (str_eq_loop_spec a b (length a) 0); [done | lia].
  - rewrite bool_decide_eq_false_2; [done|]. congruence.
Qed.

(** [needle] occurs in [given] at [off]. *)
Definition occurs (given needle : str_view) (off : nat) : Prop :=
  take (length needle) (drop off given) = needle.

Lemma subview_spec s a n :
  (a <= length s)%nat -> _mlib_str_subview s a n = Done (take n (drop a s)).
Proof.
  intros Ha. unfold _mlib_str_subview. destruct (Nat.leb_spec a (length s)); [|lia]. f_equal.
  destruct (Nat.ltb_spec (length s - a) n); [|done].
  rewrite !take_ge by (rewrite length_drop; lia). done.
Qed.

Lemma find_loop_spec given needle n : forall off,
  (off + n = length given)%nat ->
  exists r, str_find_loop given needle off n = Done r /\
    ((exists k, r = s32 (Z.of_nat k) /\ (off <= k < length given)%nat /\ occurs given needle k /\
        forall j, (off <= j < k)%nat -> ~ occurs given needle j) \/
     (r = 0 - s32 (zlen needle) /\ forall j, (off <= j < length given)%nat -> ~ occurs given needle j)).
Proof.
  induction n as [|n IH]; intros off Hn; simpl.
  - eexists. split; [done|]. right. split; [done | lia].
  - rewrite subview_spec by lia. ostep. rewrite str_eq_spec. ostep.
    case_bool_decide as E.
    + eexists. split; [done|]. left. exists off. split_and!; [done | lia | lia | done | lia].
    + destruct (IH (S off)) as (r & -> & [(k & -> & Hk & Ho & Hmin) | (-> & Hno)]); [lia| |];
        eexists; (split; [done|]).
      * left. exists k. split_and!; [done | lia | lia | done|]. intros j Hj.
        destruct (decide (j = off)) as [->|]; [done | apply Hmin; lia].
      * right. split; [done|]. intros j Hj. destruct (decide (j = off)) as [->|]; [done | apply Hno; lia].
Qed.

(** Searching: [mlib_str_find] never reads outside its operands and returns
    the first offset at which the needle occurs, or minus the needle's length
    when it occurs nowhere. *)
Theorem str_find_spec given needle :
  zlen given <= INT32_MAX -> zlen needle <= INT32_MAX ->
  exists r, _mlib_str_find given needle = Done r /\
    ((exists k, r = Z.of_nat k /\ (k < length given)%nat /\ occurs given needle k /\
        forall j, (j < k)%nat -> ~ occurs given needle j) \/
     (r = - zlen needle /\ forall j, (j < length given)%nat -> ~ occurs given needle j)).
Proof.
  intros Hg Hn. assert (s32 (zlen needle) = zlen needle) as En
    by (apply s32_id; pose proof (zlen_nonneg needle); unfold is_i32; lia).
  unfold _mlib_str_find. rewrite ?En. destruct (Z.gtb_spec (zlen needle) (zlen given)).
  - eexists. split; [done|]. right. split; [lia|]. intros j Hj Ho. apply (f_equal length) in Ho.
    rewrite length_take, length_drop in Ho. unfold zlen in *. lia.
  - destruct (find_loop_spec given needle (length given) 0) as (r & -> & Hr); [lia|].
    eexists. split; [done|]. destruct Hr as [(k & -> & ? & ? & Hm) | (-> & Hno)].
    + left. exists k. split_and!; [apply s32_id; unfold is_i32, zlen in *; lia | lia | done|].
      intros j Hj. apply Hm. lia.
    + right. split; [lia|]. intros j Hj. apply Hno. lia.
Qed.

Lemma str_find_spec_witness :
  _mlib_str_find (map z2b [97; 98; 97; 98; 99]) (map z2b [97; 98; 99]) = Done 2 /\
  ~ occurs (map z2b [97; 98; 97; 98; 99]) (map z2b [97; 98; 99]) 0.
Proof.
  destruct (str_find_spec (map z2b [97; 98; 97; 98; 99]) (map z2b [97; 98; 99]))
    as (r & E & [(k & Hk & _ & _ & Hm) | (Hr & _)]); [vm_compute; discriminate..| |].
  - split; [vm_compute; reflexivity|]. vm_compute in E. injection E as <-. apply Hm. lia.
  - vm_compute in E. injection E as <-. discriminate Hr.
Defined.

Lemma rfind_loop_spec given needle n :
  (n + length needle <= S (length given))%nat ->
  exists r, str_rfind_loop given needle n = Done r /\
    ((exists k, r = s32 (Z.of_nat k) /\ (k < n)%nat /\ occurs given needle k /\
        forall j, (k < j < n)%nat -> ~ occurs given needle j) \/
     (r = -1 /\ forall j, (j < n)%nat -> ~ occurs given needle j)).
Proof.
  induction n as [|n IH]; intros Hn; simpl.
  - eexists. split; [done|]. right. split; [done | lia].
  - rewrite subview_spec by lia. ostep. rewrite str_eq_spec. ostep. case_bool_decide as E.
    + eexists. split; [done|]. left. exists n. split_and!; [done | lia | done | lia].
    + destruct IH as (r & -> & [(k & -> & Hk & Ho & Hmin) | (-> & Hno)]); [lia| |];
        eexists; (split; [done|]).
      * left. exists k. split_and!; [done | lia | done|]. intros j Hj.
        destruct (decide (j = n)) as [->|]; [done | apply Hmin; lia].
      * right. split; [done|]. intros j Hj. destruct (decide (j = n)) as [->|]; [done | apply Hno; lia].
Qed.
