(* ===== verification/Doc.v ===== *)
(** * Owned documents ([include/bson/doc.h])

    A document owns a buffer: a four-byte cookie with the capacity, then the
    document.  A new document refers to a constant object shared by all empty
    documents. *)
From Stdlib Require Import ZArith Lia.
From Stdlib Require Import Strings.Byte.
From stdpp Require Import base numbers list sets.
From S2P Require Import Prelude.
From S2P Require Import Mem.
From S2P Require Import Types.
From S2P Require Import View.
From S2P Require Import Alloc.
Open Scope Z_scope.

(** ** The shared empty document *)

Definition empty_doc_bytes : list byte := map z2b [5; 0; 0; 0; 0].

(** The static object: the cookie and the empty document. *)
Definition static_block : block := mk_block 32 (map z2b [5; 0; 0; 0] ++ empty_doc_bytes).

Definition _bson_get_global_empty_doc_data : Z := b_base static_block + 4.

Section Doc.
Context {AS : Type} `{Allocator AS}.

(** A document value, with the memory its pointer refers to. *)
Record bson_doc : Type := mk_doc {
  _bson_document_data : Z;
  doc_buf : block;
  _allocator : AS }.

Definition is_static (d : bson_doc) : bool :=
  _bson_document_data d =? _bson_get_global_empty_doc_data.

(** A store through the document pointer.  The shared empty document is
    constant: storing into it is undefined. *)
Definition doc_store (d : bson_doc) (f : block -> outcome (block * Z)) : outcome (bson_doc * Z) :=
  if is_static d then Undef
  else
    let* (m, p) := f (doc_buf d) in
    Done (mk_doc (_bson_document_data d) m (_allocator d), p).

Definition _bson_doc_buffer_ptr (d : bson_doc) : Z := _bson_document_data d - 4.

Definition bson_doc_capacity (d : bson_doc) : outcome Z :=
  _bson_read_u32le (doc_buf d) (_bson_doc_buffer_ptr d).

Definition bson_doc_get_allocator (d : bson_doc) : AS := _allocator d.

(** The previous region given to the allocator must be one it handed out. *)
Definition owned_region (d : bson_doc) : outcome block :=
  if b_base (doc_buf d) =? _bson_doc_buffer_ptr d then Done (doc_buf d) else Undef.

Definition _bson_realloc (doc : bson_doc) (new_size : Z) : outcome (bson_doc * bool) :=
  let cookie_size := 4 in
  if new_size >? INT32_MAX - cookie_size then Done (doc, false)
  else
    let alloc := bson_doc_get_allocator doc in
    let* (prev_buf, prev_alloc_size) :=
      if is_static doc then Done (None, 0)
      else
        let* b := owned_region doc in
        let* c := bson_doc_capacity doc in
        Done (Some b, u32 (c + cookie_size)) in
    let want_size := new_size + cookie_size in
    match mlib_reallocate alloc prev_buf want_size prev_alloc_size with
    | (alloc', None) => Done (mk_doc (_bson_document_data doc) (doc_buf doc) alloc', false)
    | (alloc', Some new_buf) =>
        let got_size := zlen (b_bytes new_buf) in
        assert! want_size <=? got_size in
        assert! got_size <=? INT32_MAX in
        let p := b_base new_buf in
        let* (new_buf, _) := _bson_write_u32le new_buf p (u32 (got_size - cookie_size)) in
        let* (new_buf, _) :=
          match prev_buf with
          | None => _bson_memcpy new_buf (p + cookie_size) (Some empty_doc_bytes) 5
          | Some _ => Done (new_buf, 0)
          end in
        Done (mk_doc (p + cookie_size) new_buf alloc', true)
    end.

Definition bson_doc_reserve (d : bson_doc) (size : Z) : outcome (bson_doc * Z) :=
  let* c := bson_doc_capacity d in
  if size <=? c then Done (d, s32 c)
  else
    let* (d, ok) := _bson_realloc d size in
    if negb ok then Done (d, -1)
    else let* c := bson_doc_capacity d in Done (d, s32 c).

Definition _bson_new (reserve : Z) (allocator : AS) : outcome bson_doc :=
  let ret := mk_doc _bson_get_global_empty_doc_data static_block allocator in
  if 5 <? reserve then
    let* (ret, r) := bson_doc_reserve ret reserve in
    if r =? 0 then Done ret
    else
      let* c := bson_doc_capacity ret in
      let* (ret, _) := doc_store ret (fun m => _bson_memset m (_bson_document_data ret) x00 c) in
      let* (ret, _) := doc_store ret (fun m =>
        let* m := wr_range m (_bson_document_data ret) [x05] in Done (m, 0)) in
      Done ret
  else Done ret.

Definition _bson_new_with_alloc (a : AS) : outcome bson_doc := _bson_new 5 a.

(** The copied document is at [v] in [src]. *)
Definition _bson_copy_view_with_allocator (src : block) (v : Z) (alloc : AS) : outcome bson_doc :=
  let* n := _bson_byte_size src v in
  let* ret := _bson_new n alloc in
  if negb (is_static ret) then
    let* bs := rd_range src v n in
    let* (ret, _) := doc_store ret (fun m => _bson_memcpy m (_bson_document_data ret) (Some bs) n) in
    Done ret
  else Done ret.

Definition _bson_copy_doc (other : bson_doc) : outcome bson_doc :=
  _bson_copy_view_with_allocator (doc_buf other) (_bson_document_data other)
    (bson_doc_get_allocator other).

(** The allocator after the release. *)
Definition bson_delete (d : bson_doc) : outcome AS :=
  if (_bson_document_data d =? 0) || is_static d then Done (_allocator d)
  else
    let* b := owned_region d in
    let* c := bson_doc_capacity d in
    Done (fst (mlib_reallocate (_allocator d) (Some b) 0 (u32 (c + 4)))).
End Doc.

Arguments bson_doc : clear implicits.

(** ** What a document holds *)

(** The bytes of a document with the body [B]. *)
Definition frame (B : list byte) : list byte := le32 (4 + zlen B + 1) ++ B ++ [x00].

Lemma zlen_frame B : zlen (frame B) = 5 + zlen B.
Proof. unfold frame. rewrite !zlen_app, zlen_le32. change (zlen [x00]) with 1. lia. Qed.

Section DocSpec.
Context {AS : Type} `{AllocatorOk AS}.

(** The document has body [B] and capacity [cap]: the buffer is the cookie, the
    document and unused bytes; a buffer that is not the static one comes from
    the heap. *)
Record doc_holds (d : bson_doc AS) (B : list byte) (cap : Z) : Prop := {
  holds_bytes : exists slack, b_bytes (doc_buf d) = le32 cap ++ frame B ++ slack /\
    cap = zlen (frame B) + zlen slack;
  holds_cap : cap + 4 <= INT32_MAX;
  holds_data : _bson_document_data d = b_base (doc_buf d) + 4;
  holds_home : if is_static d then doc_buf d = static_block
               else heap_start <= b_base (doc_buf d) }.

Lemma holds_room d B cap : doc_holds d B cap -> 5 + zlen B <= cap.
Proof.
  intros [(slack & _ & ->) _ _ _]. pose proof (zlen_nonneg slack). rewrite zlen_frame. lia.
Qed.

Lemma holds_at d B cap : doc_holds d B cap -> bytes_at (doc_buf d) (_bson_document_data d) (frame B).
Proof.
  intros [(slack & E & _) _ -> _]. exists (le32 cap), slack. by rewrite zlen_le32.
Qed.

Lemma holds_cookie d B cap : doc_holds d B cap -> bytes_at (doc_buf d) (b_base (doc_buf d)) (le32 cap).
Proof.
  intros [(slack & E & _) _ _ _]. exists [], (frame B ++ slack). rewrite E, zlen_nil. split; [done | lia].
Qed.

Lemma holds_end d B cap : doc_holds d B cap -> b_end (doc_buf d) = _bson_document_data d + cap.
Proof.
  intros [(slack & E & ->) _ -> _]. unfold b_end. rewrite E, !zlen_app, zlen_le32. lia.
Qed.

Lemma holds_base_pos d B cap : doc_holds d B cap -> 0 < b_base (doc_buf d).
Proof.
  intros [_ _ _ Hh]. destruct (is_static d); [by rewrite Hh|]. unfold heap_start in Hh. lia.
Qed.

Lemma holds_capacity d B cap : doc_holds d B cap -> bson_doc_capacity d = Done cap.
Proof.
  intros Hd. pose proof (holds_room _ _ _ Hd). pose proof (zlen_nonneg B).
  unfold bson_doc_capacity, _bson_doc_buffer_ptr. destruct (Hd) as [_ ? -> _].
  replace (_ + 4 - 4) with (b_base (doc_buf d)) by lia.
  apply read_le32; [unfold is_u32; lia | by eapply holds_cookie].
Qed.

Lemma static_empty d B cap : doc_holds d B cap -> is_static d = true -> B = [] /\ cap = 5.
Proof.
  intros [(slack & E & ->) _ _ Hh] Hs. rewrite Hs in Hh. rewrite Hh in E. unfold frame in *.
  apply (f_equal zlen) in E. rewrite !zlen_app, !zlen_le32 in *. change (zlen [x00]) with 1 in *.
  change (zlen (b_bytes static_block)) with 9 in E.
  pose proof (zlen_nonneg slack). pose proof (zlen_nonneg B).
  split; [|lia]. destruct B; [done|]. rewrite zlen_cons in *. pose proof (zlen_nonneg B). lia.
Qed.

Lemma static_holds d :
  _bson_document_data d = _bson_get_global_empty_doc_data -> doc_buf d = static_block ->
  doc_holds d [] 5.
Proof.
  intros Hd Hb. split.
  - exists []. rewrite Hb. split; [|by rewrite zlen_frame]. unfold frame. rewrite app_nil_r.
    change (4 + zlen [] + 1) with 5. vm_compute. done.
  - done.
  - by rewrite Hd, Hb.
  - unfold is_static. rewrite Hd, Z.eqb_refl. done.
Qed.

(** Rebuilding the invariant from what lies in the buffer. *)
Lemma holds_intro d B cap :
  bytes_at (doc_buf d) (b_base (doc_buf d)) (le32 cap ++ frame B) ->
  b_end (doc_buf d) = b_base (doc_buf d) + 4 + cap -> cap + 4 <= INT32_MAX ->
  _bson_document_data d = b_base (doc_buf d) + 4 -> is_static d = false ->
  heap_start <= b_base (doc_buf d) -> doc_holds d B cap.
Proof.
  intros (pre & slack & E & Hp) He Hc Hd Hs Hh. split; [|done|done|by rewrite Hs].
  assert (pre = []) as ->.
  { destruct pre; [done|]. rewrite zlen_cons in Hp. pose proof (zlen_nonneg pre). lia. }
  exists slack. rewrite E, <- app_assoc. split; [done|].
  unfold b_end in He. rewrite E in He. simpl in He. rewrite !zlen_app, zlen_le32 in He. lia.
Qed.

Lemma realloc_spec d B cap n :
  doc_holds d B cap -> cap < n ->
  exists d' ok, _bson_realloc d n = Done (d', ok) /\
    if ok : bool then is_static d' = false /\ exists cap', doc_holds d' B cap' /\ n <= cap'
    else _bson_document_data d' = _bson_document_data d /\ doc_buf d' = doc_buf d /\
      (INT32_MAX - 4 < n \/ denies (_allocator d)).
Proof.
  intros Hd Hn. unfold _bson_realloc. pose proof (holds_room _ _ _ Hd) as Hroom.
  pose proof (zlen_nonneg B).
  destruct (Z.gtb_spec n (INT32_MAX - 4)); [exists d, false; split_and!; auto with lia|].
  set (prev := if is_static d then None else Some (doc_buf d)).
  set (psz := if is_static d then 0 else zlen (b_bytes (doc_buf d))).
  assert (zlen (b_bytes (doc_buf d)) = cap + 4) as Hlen.
  { pose proof (holds_end _ _ _ Hd) as E. unfold b_end in E. destruct Hd as [_ _ Hdata _]. lia. }
  assert ((if is_static d then Done (None, 0)
           else let* b := owned_region d in let* c := bson_doc_capacity d in
                Done (Some b, u32 (c + 4))) = Done (prev, psz)) as ->.
  { subst prev psz. destruct (is_static d) eqn:Es; [done|]. unfold owned_region, _bson_doc_buffer_ptr.
    destruct (Hd) as [_ ? -> _]. rewrite (proj2 (Z.eqb_eq _ _)) by lia. ostep.
    rewrite (holds_capacity _ _ _ Hd). ostep. rewrite u32_id by (unfold is_u32; lia). by rewrite Hlen. }
  ostep. unfold mlib_reallocate.
  destruct (reallocate _ prev (n + 4) psz) as [alloc' [nb|]] eqn:Ea.
  2:{ eexists _, false. split_and!; try done. right. exists prev, (n + 4), psz. split; [lia|].
      unfold bson_doc_get_allocator in Ea. by rewrite Ea. }
  destruct (reallocate_region (bson_doc_get_allocator d) prev (n + 4) psz alloc' nb ltac:(lia) Ea) as (Hheap & Hge & Hle).
  assert (n + 4 <=? zlen (b_bytes nb) = true) as -> by lia.
  assert (zlen (b_bytes nb) <=? INT32_MAX = true) as -> by lia.
  rewrite u32_id by (unfold is_u32; lia).
  assert (b_end nb = b_base nb + zlen (b_bytes nb)) as Hend by done.
  destruct (write_u32_stored nb (b_base nb) (zlen (b_bytes nb) - 4)) as (m1 & -> & S1); [lia..|].
  ostep. set (cap' := zlen (b_bytes nb) - 4) in *.
  assert (exists m2, match prev with
            | None => _bson_memcpy m1 (b_base nb + 4) (Some empty_doc_bytes) 5
            | Some _ => Done (m1, 0) end = Done m2 /\
          b_base (fst m2) = b_base nb /\ b_end (fst m2) = b_end nb /\
          bytes_at (fst m2) (b_base nb) (le32 cap' ++ frame B)) as ([m2 p2] & -> & Hb2 & He2 & Hat).
  { destruct S1 as [At1 Base1 End1 Frame1]. subst prev. destruct (is_static d) eqn:Es.
    - destruct (static_empty _ _ _ Hd Es) as [-> ->].
      destruct (memcpy_stored m1 (b_base nb + 4) empty_doc_bytes) as (m2 & E2 & [At2 Base2 End2 Frame2]);
        [lia | change (zlen empty_doc_bytes) with 5; lia|].
      change (zlen empty_doc_bytes) with 5 in *. rewrite E2. eexists. split; [done|]. simpl.
      split; [lia|]. split; [lia|]. apply bytes_at_app. rewrite zlen_le32. split.
      + apply Frame2; [done | rewrite zlen_le32; lia].
      + exact At2.
    - eexists. split; [done|]. simpl. split; [done|]. split; [done|].
      destruct (reallocate_keeps (bson_doc_get_allocator d) (doc_buf d) (n + 4) alloc' nb ltac:(lia) Ea) as [tail Et].
      apply bytes_at_app. rewrite zlen_le32. split; [done|]. apply Frame1; [|rewrite zlen_le32; lia].
      destruct Hd as [(slack & E & _) _ _ _]. rewrite E in Et.
      exists (le32 cap), (slack ++ tail). rewrite zlen_le32, Et, <- !app_assoc. done. }
  simpl in *. eexists _, true. split; [done|].
  assert (is_static (mk_doc (b_base nb + 4) m2 alloc') = false) as Hs
    by (unfold is_static, _bson_get_global_empty_doc_data, heap_start in *; simpl; lia).
  split; [done|]. exists cap'. split; [|lia].
  apply holds_intro; simpl; rewrite ?Hb2, ?He2; (done || lia).
Qed.

Lemma reserve_spec d B cap n :
  doc_holds d B cap ->
  exists d' r, bson_doc_reserve d n = Done (d', r) /\
    ((r = -1 /\ _bson_document_data d' = _bson_document_data d /\ doc_buf d' = doc_buf d /\
      (INT32_MAX - 4 < n \/ denies (_allocator d))) \/
     (doc_holds d' B r /\ n <= r /\ (n <= cap -> d' = d) /\ (cap < n -> is_static d' = false))).
Proof.
  intros Hd. unfold bson_doc_reserve. rewrite (holds_capacity _ _ _ Hd). ostep.
  assert (forall d c, doc_holds d B c -> s32 c = c) as Hs32.
  { intros d0 c Hc. pose proof (holds_room _ _ _ Hc). pose proof (zlen_nonneg B).
    destruct Hc as [_ ? _ _]. apply s32_id. unfold is_i32. lia. }
  destruct (Z.leb_spec n cap).
  { eexists _, _. split; [done|]. right. erewrite Hs32 by done. split_and!; (done || lia). }
  destruct (realloc_spec d B cap n Hd ltac:(lia)) as (d' & ok & -> & Hok). ostep. destruct ok; simpl.
  - destruct Hok as (Hst & cap' & Hd' & Hle). rewrite (holds_capacity _ _ _ Hd'). ostep.
    eexists _, _. split; [done|]. right. erewrite Hs32 by done. split_and!; (done || lia).
  - eexists _, _. split; [done|]. by left.
Qed.

(** Failure leaves the document as it was. *)
Lemma same_memory_holds d d' B cap :
  doc_holds d B cap -> _bson_document_data d' = _bson_document_data d -> doc_buf d' = doc_buf d ->
  doc_holds d' B cap.
Proof.
  intros [? ? ? Hh] Ed Eb. unfold is_static in Hh. split; unfold is_static; rewrite ?Ed, ?Eb; done.
Qed.

(** A store through a heap document. *)
Lemma doc_store_heap (d : bson_doc AS) f :
  is_static d = false ->
  doc_store d f = let* (m, p) := f (doc_buf d) in Done (mk_doc (_bson_document_data d) m (_allocator d), p).
Proof. intros Hs. unfold doc_store. by rewrite Hs. Qed.

(** The buffer of a heap document after stores that keep the cookie. *)
Lemma holds_update (d : bson_doc AS) B cap m' B' :
  doc_holds d B cap -> is_static d = false ->
  b_base m' = b_base (doc_buf d) -> b_end m' = b_end (doc_buf d) ->
  bytes_at m' (b_base (doc_buf d)) (le32 cap) -> bytes_at m' (_bson_document_data d) (frame B') ->
  doc_holds (mk_doc (_bson_document_data d) m' (_allocator d)) B' cap.
Proof.
  intros Hd Hs Hb He Hc Hf. pose proof (holds_end _ _ _ Hd) as Hend.
  destruct Hd as [_ Hcap Hdata Hh]. rewrite Hs in Hh.
  apply holds_intro; simpl; rewrite ?Hb, ?He; try done; [|lia].
  apply bytes_at_app. rewrite zlen_le32, <- Hdata. done.
Qed.

(** A new document is empty and has the capacity asked for, unless the allocator
    refuses: then the constant empty document is written to. *)
Definition refused (n : Z) (a : AS) : Prop :=
  exists d, bson_doc_reserve (mk_doc _bson_get_global_empty_doc_data static_block a) n = Done (d, -1).

Lemma new_spec n a :
  (_bson_new n a = Undef /\ refused n a /\ 5 < n) \/
  exists d cap, _bson_new n a = Done d /\ doc_holds d [] cap /\ n <= cap /\
    (5 < n -> is_static d = false).
Proof.
  unfold _bson_new. set (d0 := mk_doc _ _ _).
  assert (doc_holds d0 [] 5) as Hd0 by (by apply static_holds).
  destruct (Z.ltb_spec 5 n); [|right; exists d0, 5; split_and!; (done || lia)].
  destruct (reserve_spec d0 [] 5 n Hd0) as (d1 & r & Er & [(-> & Ed & Eb & _) | (Hd & Hr & _ & Hs)]);
    rewrite Er; ostep.
  - left. split; [|unfold refused; eauto]. assert (is_static d1 = true) as Es by (unfold is_static; by rewrite Ed).
    change (-1 =? 0) with false. cbv iota.
    rewrite (holds_capacity d1 [] 5) by (by eapply same_memory_holds). ostep.
    unfold doc_store at 1. by rewrite Es.
  - right. specialize (Hs ltac:(lia)). destruct (Z.eqb_spec r 0); [lia|].
    rewrite (holds_capacity _ _ _ Hd). ostep. rewrite doc_store_heap by done.
    pose proof (holds_end _ _ _ Hd) as Hend. pose proof (holds_cookie _ _ _ Hd) as Hck.
    pose proof (holds_data _ _ _ Hd) as Hdata.
    destruct (memset_stored (doc_buf d1) (_bson_document_data d1) x00 r) as (m1 & -> & [A1 B1 E1 F1]);
      [lia..|]. ostep.
    rewrite doc_store_heap by done. simpl _bson_document_data. simpl doc_buf.
    destruct (wr_stored m1 (_bson_document_data d1) [x05]) as (m2 & -> & [A2 B2 E2 F2]);
      [lia | change (zlen [x05]) with 1; lia|]. ostep.
    eexists _, r. split; [done|]. split; [|split; [lia|done]]. simpl.
    change (zlen [x05]) with 1 in *.
    apply (holds_update d1 [] r m2 []); [done | done | lia | lia | |].
    + apply F2; [apply F1|]; rewrite ?zlen_le32; (done || lia).
    + replace (frame []) with ([x05] ++ replicate 4 x00) by (by vm_compute).
      apply bytes_at_app. split; [done|]. change (zlen [x05]) with 1.
      replace (Z.to_nat r) with (1 + 4 + (Z.to_nat r - 5))%nat in A1 by lia.
      rewrite !replicate_add, <- app_assoc in A1. apply bytes_at_app in A1 as [_ A1].
      apply bytes_at_app in A1 as [A1 _]. change (zlen (replicate 1 x00)) with 1 in A1.
      apply F2; [done | lia].
Qed.

(** ** Claims *)

(** Reserving: [bson_doc_reserve] never touches memory outside its buffer; it
    either grows the capacity to at least the size asked for with the document
    unchanged, or returns [-1] with the document still in place. *)
Theorem reserve_keeps d B cap n :
  doc_holds d B cap ->
  exists d' r cap', bson_doc_reserve d n = Done (d', r) /\ doc_holds d' B cap' /\
    (r = -1 /\ cap' = cap \/ r = cap' /\ n <= r).
Proof.
  intros Hd. destruct (reserve_spec d B cap n Hd) as (d' & r & E & [(-> & Ed & Eb & _) | (Hd' & Hr & _)]).
  - exists d', (-1), cap. split; [done|]. split; [by eapply same_memory_holds | auto].
  - exists d', r, r. auto.
Qed.
End DocSpec.

Lemma reserve_keeps_witness :
  exists d', bson_doc_reserve (mk_doc 36 static_block (mk_arena 0 1000)) 40 = Done (d', 40) /\
    doc_holds d' [] 40.
Proof.
  destruct (reserve_keeps (mk_doc 36 static_block (mk_arena 0 1000)) [] 5 40) as (d' & r & c & E & Hd & Hr).
  - apply static_holds; reflexivity.
  - vm_compute in E. injection E as <- <-. eexists. split; [vm_compute; reflexivity|].
    destruct Hr as [[H _]|[H _]]; [discriminate H|]. subst c. exact Hd.
Defined.

Lemma copy_spec {AS} `{AllocatorOk AS} (src : block) (v : Z) (B : list byte) (a : AS) :
  v <> 0 -> bytes_at src v (frame B) -> 5 + zlen B <= INT32_MAX ->
  refused (5 + zlen B) a \/
  exists d cap, _bson_copy_view_with_allocator src v a = Done d /\ doc_holds d B cap.
Proof.
  intros Hv Hat Hmax. pose proof (zlen_nonneg B).
  unfold _bson_copy_view_with_allocator, _bson_byte_size.
  destruct (Z.eqb_spec v 0); [done|].
  assert (_bson_read_u32le src v = Done (5 + zlen B)) as ->.
  { apply bytes_at_app_l in Hat. replace (5 + zlen B) with (4 + zlen B + 1) by lia.
    apply read_le32; [unfold is_u32; lia | done]. }
  ostep. destruct (new_spec (5 + zlen B) a) as [(_ & ? & _) | (d & cap & -> & Hd & Hcap & Hs)]; [auto|].
  right. ostep. destruct (is_static d) eqn:Es; cbn [negb].
  - exists d, cap. split; [done|]. replace B with (@nil byte); [done|]. destruct B; [done|].
    rewrite zlen_cons in Hs. pose proof (zlen_nonneg B). discriminate Hs. lia.
  - rewrite <- zlen_frame. rewrite (rd_range_at src v (frame B) Hat). ostep.
    rewrite doc_store_heap by done. pose proof (holds_end _ _ _ Hd). pose proof (holds_data _ _ _ Hd).
    destruct (memcpy_stored (doc_buf d) (_bson_document_data d) (frame B)) as (m & -> & [A1 B1 E1 F1]);
      [lia | rewrite zlen_frame; lia|].
    ostep. eexists _, cap. split; [done|]. apply (holds_update d [] cap m B); try done.
    apply F1; [by eapply holds_cookie | rewrite zlen_le32; lia].
Qed.

(** An allocator that denies nothing does not refuse a document of a size in range. *)
Lemma not_refused {AS} `{AllocatorOk AS} (generous : forall a : AS, ~ denies a) n (a : AS) : n <= INT32_MAX - 4 -> ~ refused n a.
Proof.
  intros Hn [d Hd]. destruct (reserve_spec (mk_doc _bson_get_global_empty_doc_data static_block a) [] 5 n)
    as (d' & r & E & Hr); [by apply static_holds|].
  rewrite E in Hd. injection Hd as <- ->. destruct Hr as [(_ & _ & _ & [H1 | H1]) | (H1 & _)]; [lia | by eapply generous |].
  pose proof (holds_room _ _ _ H1). pose proof (zlen_nonneg (@Datatypes.nil byte)). lia.
Qed.

Lemma holds_not_null {AS} (d : bson_doc AS) B cap : doc_holds d B cap -> (_bson_document_data d =? 0) = false.
Proof.
  intros Hd. pose proof (holds_base_pos _ _ _ Hd). pose proof (holds_data _ _ _ Hd). apply Z.eqb_neq. lia.
Qed.

(** The deletion of a document that holds something goes through. *)
Lemma holds_deleted {AS} `{Allocator AS} (d : bson_doc AS) B cap : doc_holds d B cap ->
  bson_delete d = Done (if is_static d then _allocator d else fst (mlib_reallocate (_allocator d) (Some (doc_buf d)) 0 (u32 (cap + 4)))).
Proof.
  intros Hd. unfold bson_delete. rewrite (holds_not_null _ _ _ Hd). cbn [orb]. destruct (is_static d); [done|].
  unfold owned_region, _bson_doc_buffer_ptr. rewrite (holds_data _ _ _ Hd). rewrite (proj2 (Z.eqb_eq _ _)) by lia. ostep.
  by rewrite (holds_capacity _ _ _ Hd).
Qed.

(** Creating and copying: a document created with a size, or copied from a
    valid view, holds the empty document or the same bytes, with the capacity
    asked for; the one other outcome is the store into the shared constant
    document after the allocator refused. *)
Theorem new_copy_spec {AS} `{AllocatorOk AS} (src : block) (v n : Z) (B : list byte) (a : AS) :
  v <> 0 -> bytes_at src v (frame B) -> 5 + zlen B <= INT32_MAX ->
  (refused n a \/ exists d cap, _bson_new n a = Done d /\ doc_holds d [] cap /\ n <= cap) /\
  (refused (5 + zlen B) a \/
   exists d cap, _bson_copy_view_with_allocator src v a = Done d /\ doc_holds d B cap).
Proof.
  intros Hv Hat Hmax. split; [|by apply copy_spec].
  destruct (new_spec n a) as [(_ & ? & _) | (d & cap & ? & ? & ? & _)]; eauto 6.
Qed.

Lemma new_copy_spec_witness :
  exists d, _bson_copy_view_with_allocator (mk_block 4096 (frame (map z2b [10; 97; 0]))) 4096 (mk_arena 0 1000)
              = Done d /\ doc_holds d (map z2b [10; 97; 0]) 8.
Proof.
  destruct (new_copy_spec (mk_block 4096 (frame (map z2b [10; 97; 0]))) 4096 8 (map z2b [10; 97; 0])
              (mk_arena 0 1000)) as [_ [(d & E) | (d & cap & E & Hd)]].
  - discriminate.
  - apply bytes_at_check. vm_compute. reflexivity.
  - vm_compute. discriminate.
  - vm_compute in E. discriminate E.
  - exists d. split; [exact E|]. assert (bson_doc_capacity d = Done cap) as Hc by (eapply holds_capacity; exact Hd).
    vm_compute in E. injection E as <-. vm_compute in Hc. injection Hc as <-. exact Hd.
Defined.

(** When the allocator refuses, [_bson_new] takes the failure code [-1] of the
    reservation for success and clears the shared constant document. *)
Theorem new_failure_writes_constant :
  _bson_new 6 Exhausted = Undef.
Proof. by vm_compute. Qed.
