(* ===== verification/Mut.v ===== *)
(** * Document mutators ([include/bson/mut.h])

    A mutator edits an owned document in place: a root mutator, or a child
    mutator for a subdocument, whose edits go through its parents.  The
    document and the chain of mutators are passed and returned. *)
From Stdlib Require Import ZArith Lia.
From Stdlib Require Import Strings.Byte.
From stdpp Require Import base numbers list sets.
From S2P Require Import Prelude.
From S2P Require Import Integer.
From S2P Require Import Mem.
From S2P Require Import Types.
From S2P Require Import View.
From S2P Require Import Iterator.
From S2P Require Import Alloc.
From S2P Require Import Str.
From S2P Require Import Doc.
Import mlibMath.
Open Scope Z_scope.

(** [bson_mut]: the document pointer; a child also has its parent and the offset
    of its element there (positive: the mode is decided by it).  [NullMut] is
    [BSON_MUT_v2_NULL]. *)
Inductive bson_mut : Type :=
| Root (data : Z)
| Child (data : Z) (parent : bson_mut) (offset : Z)
| NullMut.

Definition mut_data (mut : bson_mut) : Z :=
  match mut with Root data | Child data _ _ => data | NullMut => 0 end.

Section Mut.
Context {AS : Type} `{Allocator AS}.

Definition bson_mutate (doc : bson_doc AS) : bson_mut := Root (_bson_document_data doc).

Definition mut_ssize (d : bson_doc AS) (mut : bson_mut) : outcome Z :=
  _bson_byte_ssize (doc_buf d) (mut_data mut).
Definition mut_end (d : bson_doc AS) (mut : bson_mut) : outcome bson_iterator :=
  _bson_end (doc_buf d) (mut_data mut).

Fixpoint bson_mut_capacity (d : bson_doc AS) (mut : bson_mut) : outcome Z :=
  match mut with
  | Child _ parent off =>
      let bytes_before := neg (I off) in
      let* psize := mut_ssize d parent in
      let bytes_until_parent_end := sub (I psize) bytes_before in
      let* size := mut_ssize d mut in
      let bytes_after := sub bytes_until_parent_end (I size) in
      let bytes_other := add bytes_before bytes_after in
      let* pcap := bson_mut_capacity d parent in
      let* bytes_remaining := _mlib_math_assert_not_flags mlib_integer_allbits
        (checkNonNegativeInt32 (sub (I pcap) bytes_other)) in
      Done (u32 (i64 bytes_remaining))
  | Root _ => bson_doc_capacity d
  | NullMut => Undef
  end.

Definition _bson_mut_data_at (mut : bson_mut) (pos : bson_iterator) : Z :=
  let off := bson_iterator_data pos - mut_data mut in mut_data mut + off.

(** The splice in ROOT MODE, first part: growing the buffer when the new size
    needs it.  The document and the position after a possible reallocation, 0
    on failure. *)
Definition splice_grow (doc : bson_doc AS) (position pos_offset new_doc_size : Z)
  : outcome (bson_doc AS * Z) :=
  let* cap := bson_doc_capacity doc in
  if new_doc_size >? cap then
    let (info, new_capacity) :=
      mlibMathNonNegativeInt32 mlib_math_try (add (I new_doc_size) (I 512)) in
    mlib_math_catch info (Done (doc, 0))
    (let* (doc, r) := bson_doc_reserve doc new_capacity in
     if r <? 0 then Done (doc, 0)
     else Done (doc, _bson_document_data doc + pos_offset))
  else Done (doc, position).

(** Second part: moving the tail and filling the gap. *)
Definition splice_shift (doc : bson_doc AS) (position n_delete n_insert : Z)
  (insert_from : option (list byte)) : outcome (bson_doc AS * Z) :=
  let doc_begin := _bson_document_data doc in
  let* size := _bson_byte_size (doc_buf doc) doc_begin in
  let doc_end := doc_begin + size in
  let move_dest := position + n_insert in
  let move_from := position + n_delete in
  let (info, data_remain) := mlibMathNonNegativeInt32 mlib_math_try (I (doc_end - move_from)) in
  mlib_math_catch info (Done (doc, 0))
  (let* (doc, _) := doc_store doc (fun m => _bson_memmove m move_dest move_from data_remain) in
   let* (doc, _) := doc_store doc (fun m =>
     match insert_from with
     | Some bs => _bson_memcpy m position (Some bs) n_insert
     | None => _bson_memset m position x58 n_insert
     end) in
   Done (doc, position)).

Definition splice_root (doc : bson_doc AS) (position pos_offset n_delete n_insert : Z)
  (insert_from : option (list byte)) (new_doc_size : Z) : outcome (bson_doc AS * Z) :=
  let* dsize := _bson_byte_ssize (doc_buf doc) (_bson_document_data doc) in
  let doc_data_end := _bson_document_data doc + dsize in
  let (info, avail_to_delete) :=
    mlibMathNonNegativeInt32 mlib_math_try (I (doc_data_end - position)) in
  mlib_math_catch info (Done (doc, 0))
  (if n_delete >? avail_to_delete then Done (doc, 0)
   else
     let* (doc, position) := splice_grow doc position pos_offset new_doc_size in
     if position =? 0 then Done (doc, 0)
     else splice_shift doc position n_delete n_insert insert_from).

(** The document, the mutator with its updated pointers, and the position (0 on
    failure). *)
Fixpoint _bson_splice_region (d : bson_doc AS) (mut : bson_mut) (position n_delete n_insert : Z)
  (insert_from : option (list byte)) : outcome (bson_doc AS * bson_mut * Z) :=
  let pos_offset := position - mut_data mut in
  assert! 4 <=? pos_offset in
  let* ssize := mut_ssize d mut in
  assert! pos_offset <? ssize in
  let info := mlib_math_try in
  let (info, size_diff) := mlibMathInt32 info (sub (U n_insert) (U n_delete)) in
  let (info, new_doc_size) := mlibMathNonNegativeInt32 info (add (I ssize) (I size_diff)) in
  mlib_math_catch info (Done (d, mut, 0))
  (let* (d, mut, position) :=
     match mut with
     | Child data parent off =>
         let my_doc_offset := data - mut_data parent in
         let* (d, parent, position) :=
           _bson_splice_region d parent position n_delete n_insert insert_from in
         if position =? 0 then Done (d, Child data parent off, 0)
         else Done (d, Child (mut_data parent + my_doc_offset) parent off, position)
     | Root data =>
         let* (d, position) :=
           splice_root d position pos_offset n_delete n_insert insert_from new_doc_size in
         if position =? 0 then Done (d, Root data, 0)
         else Done (d, Root (_bson_document_data d), position)
     | NullMut => Undef
     end in
   if position =? 0 then Done (d, mut, 0)
   else
     let* (d, _) := doc_store d (fun m => _bson_write_u32le m (mut_data mut) (u32 new_doc_size)) in
     Done (d, mut, position)).

(** A store of some bytes at an address, that returns the address after them. *)
Definition put (d : bson_doc AS) (p : Z) (bs : list byte) : outcome (bson_doc AS * Z) :=
  doc_store d (fun m => let* m := wr_range m p bs in Done (m, p + zlen bs)).

(** The document, the mutator, the iterator and the address of the value region
    (0 on failure). *)
Definition _bson_prep_element_region (d : bson_doc AS) (mut : bson_mut) (pos : bson_iterator)
  (type : Z) (key : str_view) (datasize : Z)
  : outcome (bson_doc AS * bson_mut * bson_iterator * Z) :=
  let key := _mlib_str_view_chopnulls key in
  let info := mlib_math_try in
  let (info, elem_size) :=
    mlibMathNonNegativeInt32 info (add (U (zlen key)) (add (I 2) (U datasize))) in
  mlib_math_catch info (let* e := mut_end d mut in Done (d, mut, e, 0))
  (let pos_offset := bson_iterator_data pos - mut_data mut in
   let* (d, mut, outptr) :=
     _bson_splice_region d mut (_bson_mut_data_at mut pos) 0 elem_size None in
   if outptr =? 0 then let* e := mut_end d mut in Done (d, mut, e, 0)
   else
     let* (d, outptr) := put d outptr [z2b type] in
     let* (d, outptr) := doc_store d (fun m => _bson_memcpy_chr m outptr (Some key) (zlen key)) in
     let* (d, outptr) := put d outptr [x00] in
     let* ssize := mut_ssize d mut in
     let pos := mk_iterator (mut_data mut + pos_offset) (s32 (zlen key)) (s32 (ssize - pos_offset)) in
     Done (d, mut, pos, outptr)).

Definition insert_result : Type := bson_doc AS * bson_mut * bson_iterator.

(** Preparing a region and filling it when that succeeded. *)
Definition insert_with (d : bson_doc AS) (mut : bson_mut) (pos : bson_iterator) (type : Z)
  (key : str_view) (datasize : Z) (fill : bson_doc AS -> Z -> outcome (bson_doc AS * Z))
  : outcome insert_result :=
  let* (d, mut, pos, out) := _bson_prep_element_region d mut pos type key datasize in
  if out =? 0 then Done (d, mut, pos)
  else let* (d, _) := fill d out in Done (d, mut, pos).

Definition write32 (d : bson_doc AS) (out v : Z) : outcome (bson_doc AS * Z) :=
  doc_store d (fun m => _bson_write_u32le m out v).
Definition write64 (d : bson_doc AS) (out v : Z) : outcome (bson_doc AS * Z) :=
  doc_store d (fun m => _bson_write_u64le m out v).
Definition copy_in (d : bson_doc AS) (out : Z) (bs : option (list byte)) (n : Z)
  : outcome (bson_doc AS * Z) :=
  doc_store d (fun m => _bson_memcpy m out bs n).

Definition return_end (d : bson_doc AS) (mut : bson_mut) : outcome insert_result :=
  let* e := mut_end d mut in Done (d, mut, e).

Definition _bson_insert_stringlike (d : bson_doc AS) (mut : bson_mut) (pos : bson_iterator)
  (key : str_view) (realtype : Z) (string : str_view) : outcome insert_result :=
  let info := mlib_math_try in
  let (info, string_size) := mlibMathPositiveInt32 info (add (U (zlen string)) (I 1)) in
  let (info, elem_size) := mlibMathPositiveInt32 info (add (I string_size) (I 4)) in
  mlib_math_catch info (return_end d mut)
  (insert_with d mut pos realtype key (u32 elem_size) (fun d out =>
     let* (d, out) := write32 d out (u32 string_size) in
     let* (d, out) := copy_in d out (Some string) (zlen string) in
     put d out [x00])).

(** The size of a document given by its bytes ([bson_size] of its view). *)
Definition bytes_size (bs : list byte) : outcome Z := _bson_byte_size (mk_block 16 bs) 16.

Definition bson_insert_code_with_scope (d : bson_doc AS) (mut : bson_mut) (pos : bson_iterator)
  (key : str_view) (code : str_view) (scope : list byte) : outcome insert_result :=
  let info := mlib_math_try in
  let (info, code_size) := mlibMathPositiveInt32 info (add (I 1) (U (zlen code))) in
  let* scope_size := bytes_size scope in
  let (info, elem_size) :=
    mlibMathPositiveInt32 info (add (I code_size) (add (I scope_size) (I 4))) in
  mlib_math_catch info (return_end d mut)
  (insert_with d mut pos bson_type_codewscope key (u32 elem_size) (fun d out =>
     let* (d, out) := write32 d out (u32 elem_size) in
     let* (d, out) := write32 d out (u32 code_size) in
     let* (d, out) := copy_in d out (Some code) (zlen code) in
     copy_in d out (Some scope) scope_size)).

(** The cases of [_bson_insert_value] for documents and arrays; a null view
    inserts an empty document. *)
Definition insert_document (d : bson_doc AS) (mut : bson_mut) (pos : bson_iterator)
  (type : Z) (key : str_view) (val : option (list byte)) : outcome insert_result :=
  let bs := match val with Some bs => bs | None => empty_doc_bytes end in
  let* insert_size := bytes_size bs in
  insert_with d mut pos type key insert_size (fun d out => copy_in d out (Some bs) insert_size).

Definition insert_binary (d : bson_doc AS) (mut : bson_mut) (pos : bson_iterator)
  (key : str_view) (subtype : byte) (data : list byte) : outcome insert_result :=
  let info := mlib_math_try in
  let (info, bin_size) := mlibMathNonNegativeInt32 info (I (zlen data)) in
  let (info, elem_size) := mlibMathPositiveInt32 info (add (I bin_size) (I 5)) in
  mlib_math_catch info (return_end d mut)
  (insert_with d mut pos bson_type_binary key (u32 elem_size) (fun d out =>
     let* (d, out) := write32 d out (u32 bin_size) in
     let* (d, out) := put d out [subtype] in
     copy_in d out (Some data) (u32 bin_size))).

Definition opt_len (s : option str_view) : Z := match s with Some s => zlen s | None => 0 end.

(** The sizes come from the truncated strings, the copies use the whole ones. *)
Definition insert_regex (d : bson_doc AS) (mut : bson_mut) (pos : bson_iterator)
  (key : str_view) (regex options : option str_view) : outcome insert_result :=
  let info := mlib_math_try in
  let trimmed_rx := chopnulls_opt regex in
  let trimmed_opt := chopnulls_opt options in
  let (info, size) := mlibMathNonNegativeInt32 info
    (checkMin (I 2) (add (U (zlen trimmed_rx)) (add (U (zlen trimmed_opt)) (I 5)))) in
  mlib_math_catch info (return_end d mut)
  (insert_with d mut pos bson_type_regex key (u32 size) (fun d out =>
     let* (d, out) := copy_in d out regex (opt_len regex) in
     let* (d, out) := put d out [x00] in
     let* (d, out) := match options with
                      | Some opt => copy_in d out (Some opt) (zlen opt)
                      | None => Done (d, out)
                      end in
     put d out [x00])).

Definition insert_dbpointer (d : bson_doc AS) (mut : bson_mut) (pos : bson_iterator)
  (key : str_view) (collection oid : list byte) : outcome insert_result :=
  let info := mlib_math_try in
  let* n := _mlib_math_strnlen (mk_block 16 collection) 16 (U (zlen collection)) in
  let (info, collname_string_size) := mlibMathPositiveInt32 info (add n (I 1)) in
  let (info, el_size) :=
    mlibMathNonNegativeInt32 info (add (I collname_string_size) (I (12 + 4))) in
  mlib_math_catch info (return_end d mut)
  (insert_with d mut pos bson_type_dbpointer key (u32 el_size) (fun d out =>
     let* (d, out) := write32 d out (u32 collname_string_size) in
     let* (d, out) := copy_in d out (Some collection) (collname_string_size - 1) in
     let* (d, out) := put d out [x00] in
     copy_in d out (Some oid) 12)).

(** Inserting a value with no data of its own. *)
Definition insert_unit (d : bson_doc AS) (mut : bson_mut) (pos : bson_iterator)
  (key : str_view) (type : Z) : outcome insert_result :=
  let* (d, mut, pos, _) := _bson_prep_element_region d mut pos type key 0 in Done (d, mut, pos).

Definition _bson_insert_value (d : bson_doc AS) (mut : bson_mut) (pos : bson_iterator)
  (key : str_view) (val : bson_value_ref) : outcome insert_result :=
  match val with
  | v_eod => Done (d, mut, pos)
  | v_double bits => insert_with d mut pos bson_type_double key 8 (fun d out => write64 d out bits)
  | v_utf8 s => _bson_insert_stringlike d mut pos key bson_type_utf8 s
  | v_document doc => insert_document d mut pos bson_type_document key doc
  | v_array arr => insert_document d mut pos bson_type_array key arr
  | v_binary subtype data => insert_binary d mut pos key subtype data
  | v_undefined => insert_unit d mut pos key bson_type_undefined
  | v_oid o => insert_with d mut pos bson_type_oid key 12 (fun d out => copy_in d out (Some o) 12)
  | v_bool b =>
      insert_with d mut pos bson_type_bool key 1 (fun d out => put d out [if b then x01 else x00])
  | v_datetime z =>
      insert_with d mut pos bson_type_datetime key 8 (fun d out => write64 d out (u64 z))
  | v_null => insert_unit d mut pos key bson_type_null
  | v_regex rx opt => insert_regex d mut pos key rx opt
  | v_dbpointer coll oid => insert_dbpointer d mut pos key coll oid
  | v_code s => _bson_insert_stringlike d mut pos key bson_type_code s
  | v_symbol s => _bson_insert_stringlike d mut pos key bson_type_symbol s
  | v_codewscope => Abort
  | v_int32 z => insert_with d mut pos bson_type_int32 key 4 (fun d out => write32 d out (u32 z))
  | v_timestamp i s =>
      insert_with d mut pos bson_type_timestamp key 8 (fun d out =>
        let* (d, out) := write32 d out i in write32 d out s)
  | v_int64 z => insert_with d mut pos bson_type_int64 key 8 (fun d out => write64 d out (u64 z))
  | v_decimal128 b =>
      insert_with d mut pos bson_type_decimal128 key 16 (fun d out => copy_in d out (Some b) 16)
  | v_maxkey => insert_unit d mut pos key bson_type_maxkey
  | v_minkey => insert_unit d mut pos key bson_type_minkey
  | v_unknown _ => Done (d, mut, pos)
  end.

Definition _bson_set_key (d : bson_doc AS) (mut : bson_mut) (pos : bson_iterator)
  (newkey : str_view) : outcome insert_result :=
  assert! negb (bson_stop pos) in
  let newkey := _mlib_str_view_chopnulls newkey in
  let* curkey := bson_key (doc_buf d) pos in
  let size_diff := zlen newkey - zlen curkey in
  let info := mlib_math_try in
  let (info, new_rlen) := mlibMathPositiveInt32 info (add (I (_rlen pos)) (I size_diff)) in
  mlib_math_catch info (return_end d mut)
  (let iter_off := bson_iterator_data pos - mut_data mut in
   assert! 0 <? iter_off in
   let* (d, mut, out) := _bson_splice_region d mut (_bson_mut_data_at mut pos + 1)
                           (zlen curkey) (zlen newkey) (Some newkey) in
   if out =? 0 then return_end d mut
   else Done (d, mut, mk_iterator (mut_data mut + iter_off) (s32 (zlen newkey)) new_rlen)).

(** ** Array keys *)

Definition digit (v : Z) : byte := z2b (48 + v).

(** The characters stored; the recursion is on [v / 10], the fuel the number of
    digits of a 32-bit value. *)
Fixpoint _bson_write_uint (fuel : nat) (v : Z) : list byte :=
  match fuel with
  | O => []
  | S fuel =>
      if v =? 0 then [digit 0]
      else if 10 <=? v then
        (if v <? 100 then [digit (v / 10)] else _bson_write_uint fuel (v / 10)) ++ [digit (v mod 10)]
      else [digit v]
  end.

Definition bson_u32_string_create (val : Z) : str_view := _bson_write_uint 10 val.

(** The relabelling loop: the index is the same in every iteration.  [None] when
    the fuel runs out. *)
Fixpoint relabel_loop (fuel : nat) (d : bson_doc AS) (mut : bson_mut) (pos : bson_iterator) (idx : Z)
  : outcome (option (bson_doc AS * bson_mut)) :=
  match fuel with
  | O => Done None
  | S fuel =>
      if bson_stop pos then Done (Some (d, mut))
      else
        let key := bson_u32_string_create idx in
        let* (d, mut, pos) := _bson_set_key d mut pos key in
        let* pos := bson_next (doc_buf d) pos in
        relabel_loop fuel d mut pos idx
  end.

Definition bson_relabel_array_elements_at (fuel : nat) (d : bson_doc AS) (mut : bson_mut)
  (pos : bson_iterator) (idx : Z) : outcome (option insert_result) :=
  let it_offset := bson_iterator_data pos - mut_data mut in
  let* r := relabel_loop fuel d mut pos idx in
  match r with
  | None => Done None
  | Some (d, mut) =>
      let* it := _bson_recover_iterator (doc_buf d) (mut_data mut) it_offset in
      Done (Some (d, mut, it))
  end.

Definition bson_relabel_array_elements (fuel : nat) (d : bson_doc AS) (mut : bson_mut)
  : outcome (option (bson_doc AS * bson_mut)) :=
  let* b := _bson_begin (doc_buf d) (mut_data mut) in
  let* r := bson_relabel_array_elements_at fuel d mut b 0 in
  Done (match r with Some (d, mut, _) => Some (d, mut) | None => None end).

(** ** Ranges *)

(** The inserted range lies in the memory [src], disjoint from the document. *)
Definition bson_splice_disjoint_ranges (d : bson_doc AS) (mut : bson_mut)
  (pos delete_end : bson_iterator) (src : block) (from_begin from_end : bson_iterator)
  : outcome insert_result :=
  let copy_begin := bson_iterator_data from_begin in
  let copy_end := bson_iterator_data from_end in
  let copy_size := copy_end - copy_begin in
  assert! 0 <=? copy_size in
  let delete_size := bson_iterator_data delete_end - bson_iterator_data pos in
  assert! 0 <=? delete_size in
  let info := mlib_math_try in
  let (info, size_diff) := mlibMathInt32 info (sub (I copy_size) (I delete_size)) in
  let (info, new_rlen) := mlibMathPositiveInt32 info (add (I (_rlen pos)) (I size_diff)) in
  mlib_math_catch info (return_end d mut)
  (let* bs := rd_range src copy_begin (u32 copy_size) in
   let* (d, mut, new_posptr) := _bson_splice_region d mut (_bson_mut_data_at mut pos)
                                  (u32 delete_size) (u32 copy_size) (Some bs) in
   if new_posptr =? 0 then return_end d mut
   else
     let keylen := if negb (copy_size =? 0) then _keylen from_begin else _keylen delete_end in
     Done (d, mut, mk_iterator new_posptr keylen new_rlen)).

Definition bson_insert_disjoint_range (d : bson_doc AS) (mut : bson_mut) (pos : bson_iterator)
  (src : block) (from_begin from_end : bson_iterator) : outcome insert_result :=
  bson_splice_disjoint_ranges d mut pos pos src from_begin from_end.

Definition bson_erase_range (d : bson_doc AS) (mut : bson_mut) (first last : bson_iterator)
  : outcome insert_result :=
  bson_splice_disjoint_ranges d mut first last (doc_buf d) last last.

Definition bson_erase_one (d : bson_doc AS) (mut : bson_mut) (pos : bson_iterator)
  : outcome insert_result :=
  let* n := bson_next (doc_buf d) pos in bson_erase_range d mut pos n.

(** ** Children *)

(** An offset of zero would select the root mode with a pointer to the parent
    mutator in place of the document. *)
Definition bson_mut_child (d : bson_doc AS) (parent : bson_mut) (subdoc_iter : bson_iterator)
  : outcome bson_mut :=
  let* t := bson_iterator_type (doc_buf d) subdoc_iter in
  if negb (t =? bson_type_document) && negb (t =? bson_type_array) then Done NullMut
  else
    let elem_offset := bson_iterator_data subdoc_iter - mut_data parent in
    let data := mut_data parent + elem_offset + _keylen subdoc_iter + 2 in
    if u32 elem_offset =? 0 then Undef else Done (Child data parent (u32 elem_offset)).

Definition bson_mut_parent_iterator (d : bson_doc AS) (mut : bson_mut) : outcome bson_iterator :=
  match mut with
  | Child data par off =>
      let ptr := mut_data par + off in
      let offset := ptr - mut_data par in
      let* keylen := _mlib_math_assert_not_flags mlib_integer_allbits (sub (I (data - ptr)) (I 2)) in
      let* size := _bson_byte_size (doc_buf d) (mut_data par) in
      Done (mk_iterator ptr (s32 (i64 keylen)) (s32 (size - offset)))
  | _ => Abort
  end.

(** ** The C++ interface: [bson::mutator] *)

(** [inr tt] is the thrown [std::bad_alloc]. *)
Definition emplace (d : bson_doc AS) (mut : bson_mut) (pos : bson_iterator) (key : str_view)
  (val : bson_value_ref) : outcome (bson_doc AS * bson_mut * (bson_iterator + unit)) :=
  let* (d, mut, ret) := _bson_insert_value d mut pos key val in
  let* e := mut_end d mut in
  if bson_iterator_eq ret e then Done (d, mut, inr tt) else Done (d, mut, inl ret).

Definition emplace_back (d : bson_doc AS) (mut : bson_mut) (key : str_view) (val : bson_value_ref)
  : outcome (bson_doc AS * bson_mut * (bson_iterator + unit)) :=
  let* e := mut_end d mut in emplace d mut e key val.

(** The position and the child mutator, whose parent is the mutator itself. *)
Definition insert_subdoc (d : bson_doc AS) (mut : bson_mut) (pos : bson_iterator) (key : str_view)
  : outcome (bson_doc AS * bson_iterator * bson_mut) :=
  let* (d, mut, it) := _bson_insert_value d mut pos key (v_document None) in
  let* c := bson_mut_child d mut it in Done (d, it, c).

Definition insert_array (d : bson_doc AS) (mut : bson_mut) (pos : bson_iterator) (key : str_view)
  : outcome (bson_doc AS * bson_iterator * bson_mut) :=
  let* (d, mut, it) := _bson_insert_value d mut pos key (v_array None) in
  let* c := bson_mut_child d mut it in Done (d, it, c).

Definition push_subdoc (d : bson_doc AS) (mut : bson_mut) (key : str_view)
  : outcome (bson_doc AS * bson_mut) :=
  let* e := mut_end d mut in
  let* (d, _, c) := insert_subdoc d mut e key in Done (d, c).

Definition push_array (d : bson_doc AS) (mut : bson_mut) (key : str_view)
  : outcome (bson_doc AS * bson_mut) :=
  let* e := mut_end d mut in
  let* (d, _, c) := insert_array d mut e key in Done (d, c).
End Mut.

Arguments insert_result : clear implicits.
