(* ===== verification/MutSpec.v ===== *)
(** * The mutator: splicing bytes, inserting and erasing elements

    [splice_spec] describes the one primitive that every edit uses, for a chain
    of mutators of any depth; the edits are then described on the elements of
    the document. *)
From Stdlib Require Import ZArith Lia.
From Stdlib Require Import Strings.Byte.
From stdpp Require Import base numbers list sets.
From S2P Require Import Prelude.
From S2P Require Import Integer.
From S2P Require Import Mem.
From S2P Require Import Types.
From S2P Require Import View.
From S2P Require Import Iterator.
From S2P Require Import IteratorSafe.
From S2P Require Import Codec.
From S2P Require Import Alloc.
From S2P Require Import Str.
From S2P Require Import Doc.
From S2P Require Import Mut.
Import mlibMath.
Open Scope Z_scope.

(** What surrounds the edited document: for each parent, the bytes of its body
    before and after the document it contains. *)
Abbreviation context := (list (list byte * list byte)).

Section Splice.
Context {AS : Type} {HA : Allocator AS} {HOK : AllocatorOk AS}.

(** ** The buffer during an edit *)

(** A heap document whose buffer has [bs] where the document is. *)
Record loose (d : bson_doc AS) (cap : Z) (bs : list byte) : Prop := {
  loose_heap : is_static d = false;
  loose_data : _bson_document_data d = b_base (doc_buf d) + 4;
  loose_base : heap_start <= b_base (doc_buf d);
  loose_cap : cap + 4 <= INT32_MAX;
  loose_end : b_end (doc_buf d) = _bson_document_data d + cap;
  loose_cookie : bytes_at (doc_buf d) (b_base (doc_buf d)) (le32 cap);
  loose_at : bytes_at (doc_buf d) (_bson_document_data d) bs }.

Lemma holds_loose (d : bson_doc AS) B cap : doc_holds d B cap -> is_static d = false -> loose d cap (frame B).
Proof.
  intros Hd Hs. pose proof (holds_home _ _ _ Hd) as Hh. rewrite Hs in Hh.
  split; [done | apply Hd | done | apply Hd | by eapply holds_end | by eapply holds_cookie
         | by eapply holds_at].
Qed.

Lemma loose_holds (d : bson_doc AS) B cap : loose d cap (frame B) -> doc_holds d B cap.
Proof.
  intros [Hs Hd Hb Hc He Hk Ha]. apply holds_intro; try done; [|lia].
  apply bytes_at_app. rewrite zlen_le32, <- Hd. done.
Qed.

(** A store inside the document part. *)
Lemma loose_store (d : bson_doc AS) cap bs m' a new bs' :
  loose d cap bs -> stored (doc_buf d) m' a new -> _bson_document_data d <= a ->
  bytes_at m' (_bson_document_data d) bs' ->
  loose (mk_doc (_bson_document_data d) m' (_allocator d)) cap bs'.
Proof.
  intros [Hs Hd Hb Hc He Hk Ha] [Sa Sb Se Sf] Hle Hat.
  split; simpl; rewrite ?Sb, ?Se; try done. apply Sf; [done|]. rewrite zlen_le32. lia.
Qed.

(** The bytes of the document, seen through the buffer. *)
Lemma loose_range (d : bson_doc AS) cap bs :
  loose d cap bs -> b_base (doc_buf d) <= _bson_document_data d /\
    _bson_document_data d + zlen bs <= b_end (doc_buf d) /\ zlen bs <= cap.
Proof.
  intros [_ Hd _ _ He _ Ha]. apply bytes_at_bounds in Ha. lia.
Qed.

Lemma store_ok (d : bson_doc AS) cap bs (f : block -> outcome (block * Z)) m' p :
  loose d cap bs -> f (doc_buf d) = Done (m', p) ->
  doc_store d f = Done (mk_doc (_bson_document_data d) m' (_allocator d), p).
Proof. intros Hl Hf. rewrite doc_store_heap by apply Hl. by rewrite Hf. Qed.

(** Replacing part of the bytes by others of the same length. *)
Lemma loose_overwrite (d : bson_doc AS) cap P O Q N m' :
  loose d cap (P ++ O ++ Q) -> zlen O = zlen N ->
  stored (doc_buf d) m' (_bson_document_data d + zlen P) N ->
  loose (mk_doc (_bson_document_data d) m' (_allocator d)) cap (P ++ N ++ Q).
Proof.
  intros Hl Hlen St. pose proof (zlen_nonneg P). eapply loose_store; [done..|lia|].
  destruct Hl as [_ _ _ _ _ _ Ha]. destruct St as [Sa _ _ Sf].
  apply bytes_at_app in Ha as [G1 G2]. apply bytes_at_app in G2 as [G2 G3].
  rewrite !bytes_at_app. split_and!; [apply Sf; (done || lia) | done|].
  rewrite <- Hlen. apply Sf; [done | rewrite Hlen; lia].
Qed.

(** ** The splice at the root *)

(** The inserted bytes: those given, or the fill character. *)
Definition spliced (n : Z) (ins : option (list byte)) : list byte :=
  match ins with Some bs => bs | None => replicate (Z.to_nat n) x58 end.

Definition ins_ok (n : Z) (ins : option (list byte)) : Prop :=
  0 <= n <= INT64_MAX /\ match ins with Some bs => zlen bs = n | None => True end.

Lemma zlen_spliced n ins : ins_ok n ins -> zlen (spliced n ins) = n.
Proof. intros [? ?]. destruct ins; simpl; [done | by apply zlen_replicate; lia]. Qed.

Lemma fill_stored m a n ins :
  ins_ok n ins -> b_base m <= a -> a + n <= b_end m ->
  exists m', match ins with
    | Some bs => _bson_memcpy m a (Some bs) n
    | None => _bson_memset m a x58 n
    end = Done (m', a + n) /\ stored m m' a (spliced n ins).
Proof.
  intros [Hn Hi] Hb He. destruct ins as [bs|]; simpl.
  - rewrite <- Hi in *. by apply memcpy_stored.
  - apply memset_stored; (done || lia).
Qed.

(** The documents before and after a failed edit have the same memory. *)
Definition same_memory (d d' : bson_doc AS) : Prop :=
  _bson_document_data d' = _bson_document_data d /\ doc_buf d' = doc_buf d.

(** Moving the tail and filling the gap, with enough capacity. *)
Lemma splice_move (d : bson_doc AS) cap hdr X D Y n ins :
  loose d cap (hdr ++ X ++ D ++ Y) -> zlen (hdr ++ X ++ Y) + n <= cap -> ins_ok n ins ->
  exists d', 
    (let* (doc, _) := doc_store d (fun m => _bson_memmove m
        (_bson_document_data d + zlen (hdr ++ X) + n) (_bson_document_data d + zlen (hdr ++ X) + zlen D)
        (zlen Y)) in
     let* (doc, _) := doc_store doc (fun m => match ins with
        | Some bs => _bson_memcpy m (_bson_document_data d + zlen (hdr ++ X)) (Some bs) n
        | None => _bson_memset m (_bson_document_data d + zlen (hdr ++ X)) x58 n
        end) in
     Done (doc, _bson_document_data d + zlen (hdr ++ X))) =
    Done (d', _bson_document_data d' + zlen (hdr ++ X)) /\
    loose d' cap (hdr ++ X ++ spliced n ins ++ Y).
Proof.
  intros Hl Hroom Hi. pose proof (zlen_spliced n ins Hi) as Hsp.
  pose proof (loose_range _ _ _ Hl) as (Hb & _ & _). pose proof (loose_end _ _ _ Hl) as He.
  rewrite !zlen_app in *. pose proof (zlen_nonneg hdr). pose proof (zlen_nonneg X).
  pose proof (zlen_nonneg Y). pose proof (proj1 Hi).
  pose proof (loose_at _ _ _ Hl) as Ha. rewrite app_assoc in Ha. rewrite !bytes_at_app in Ha.
  rewrite !zlen_app in Ha. destruct Ha as (Hhx & HD & HY).
  apply (proj2 (bytes_at_app _ _ _ _)) in Hhx.
  set (data := _bson_document_data d) in *.
  destruct (memmove_stored (doc_buf d) (data + (zlen hdr + zlen X) + n)
              (data + (zlen hdr + zlen X) + zlen D) Y) as (m1 & E1 & S1); [done | lia | lia|].
  pose proof S1 as [A1 B1 N1 F1].
  rewrite (store_ok _ _ _ _ _ _ Hl E1). ostep.
  assert (loose (mk_doc data m1 (_allocator d)) cap (hdr ++ X)) as Hl1.
  { eapply loose_store; [exact Hl | exact S1 | fold data; lia|]. simpl. apply F1; [done|].
    rewrite zlen_app. lia. }
  destruct (fill_stored m1 (data + (zlen hdr + zlen X)) n ins Hi) as (m2 & E2 & S2); [lia..|].
  rewrite (store_ok _ _ _ _ _ _ Hl1 E2). ostep. simpl _bson_document_data. simpl _allocator.
  exists (mk_doc data m2 (_allocator d)). split; [done|].
  refine (loose_store _ _ _ _ _ _ _ Hl1 S2 _ _); simpl; [lia|].
  destruct S2 as [A2 B2 N2 F2].
  rewrite app_assoc, (bytes_at_app _ _ (hdr ++ X)), (bytes_at_app _ _ (spliced n ins)), zlen_app.
  split_and!.
  - apply F2; [apply F1; [done | rewrite zlen_app; lia] | rewrite zlen_app; lia].
  - done.
  - rewrite Hsp. apply F2; [done | lia].
Qed.

Lemma frame_size m p B :
  0 < p -> bytes_at m p (frame B) -> 5 + zlen B <= INT32_MAX ->
  _bson_byte_size m p = Done (5 + zlen B) /\ _bson_byte_ssize m p = Done (5 + zlen B).
Proof.
  intros Hp Hat Hmax. pose proof (zlen_nonneg B).
  assert (_bson_byte_size m p = Done (5 + zlen B)) as E.
  { unfold _bson_byte_size. destruct (Z.eqb_spec p 0); [lia|].
    apply read_le32; [unfold is_u32; lia|]. apply bytes_at_app_l in Hat.
    by replace (5 + zlen B) with (4 + zlen B + 1) by lia. }
  split; [done|]. unfold _bson_byte_ssize. rewrite E. ostep. by rewrite s32_id by (unfold is_i32; lia).
Qed.

Lemma holds_size (d : bson_doc AS) B cap :
  doc_holds d B cap ->
  _bson_byte_size (doc_buf d) (_bson_document_data d) = Done (5 + zlen B) /\
  _bson_byte_ssize (doc_buf d) (_bson_document_data d) = Done (5 + zlen B).
Proof.
  intros Hd. pose proof (holds_room _ _ _ Hd). pose proof (holds_base_pos _ _ _ Hd).
  pose proof (holds_data _ _ _ Hd). pose proof (holds_cap _ _ _ Hd).
  apply frame_size; [lia | by eapply holds_at | lia].
Qed.

Lemma nonneg32_I z :
  0 <= z <= INT32_MAX -> mlibMathNonNegativeInt32 mlib_math_try (I z) = (mlib_math_try, z).
Proof.
  intros Hz. assert (i64 (I z) = z) as E by (apply I_val; unfold is_i64; lia).
  rewrite <- E at 2. apply nonneg32_ok; [done | by rewrite E].
Qed.

(** Growing keeps the document and moves the position with it. *)
Lemma splice_grow_spec (d : bson_doc AS) B cap off new :
  doc_holds d B cap -> 0 < off -> 0 <= new <= INT32_MAX ->
  exists d' p, splice_grow d (_bson_document_data d + off) off new = Done (d', p) /\
    ((p = 0 /\ same_memory d d' /\ cap < new /\ (INT32_MAX - 516 < new \/ denies (_allocator d))) \/
     (p = _bson_document_data d' + off /\ p <> 0 /\
      exists cap', doc_holds d' B cap' /\ new <= cap' /\ (cap < new -> is_static d' = false) /\
        (new <= cap -> d' = d))).
Proof.
  intros Hd Hoff Hnew. unfold splice_grow. rewrite (holds_capacity _ _ _ Hd). ostep.
  assert (forall (d' : bson_doc AS) c, doc_holds d' B c -> _bson_document_data d' + off <> 0) as Hnz.
  { intros d' c Hc. pose proof (holds_base_pos _ _ _ Hc). pose proof (holds_data _ _ _ Hc). lia. }
  destruct (Z.gtb_spec new cap); [|by eexists _, _; split; [done|]; right; split_and!; eauto with lia].
  assert (small (add (I new) (I 512)) (new + 512)) as (Ec & _ & Ev).
  { apply small_add; [apply small_I; unfold is_i64; lia.. | unfold is_i64; lia]. }
  destruct (nonneg32_run (add (I new) (I 512))) as [(_ & Hr & ->) | [Hf Hno]].
  - rewrite catch_ok, Ev in *.
    destruct (reserve_spec d B cap (new + 512) Hd) as (d' & r & -> & [(-> & E1 & E2 & Hwhy) | (Hd' & Hle & _ & Hs)]);
      ostep.
    + change (-1 <? 0) with true. eexists _, _. split; [done|]. left.
      split_and!; [done | done | lia | destruct Hwhy; [left; lia | by right]].
    + destruct (Z.ltb_spec r 0); [lia|]. eexists _, _. split; [done|]. right. split; [done|].
      split; [by eapply Hnz|]. exists r. split_and!; [done | lia | intros; apply Hs; lia | lia].
  - destruct (mlibMathNonNegativeInt32 _ _) as [info z]. rewrite catch_failed by done.
    eexists _, _. split; [done|]. left. split_and!; [done | done | lia | left]. rewrite Ev in Hno.
    apply Znot_ge_lt. intros ?. apply Hno. split; [done | lia].
Qed.

Lemma splice_shift_spec (d : bson_doc AS) X D Y cap n ins :
  doc_holds d (X ++ D ++ Y) cap -> is_static d = false -> ins_ok n ins ->
  5 + zlen X + n + zlen Y <= cap ->
  exists d', splice_shift d (_bson_document_data d + (4 + zlen X)) (zlen D) n ins =
    Done (d', _bson_document_data d' + (4 + zlen X)) /\
    loose d' cap (le32 (4 + zlen (X ++ D ++ Y) + 1) ++ X ++ spliced n ins ++ Y ++ [x00]).
Proof.
  intros Hd Hs Hi Hroom. unfold splice_shift. destruct (holds_size _ _ _ Hd) as [-> _]. ostep.
  pose proof (zlen_nonneg X). pose proof (zlen_nonneg D). pose proof (zlen_nonneg Y).
  pose proof (holds_room _ _ _ Hd) as Hr. pose proof (holds_cap _ _ _ Hd) as Hc. rewrite !zlen_app in Hr.
  assert (zlen (Y ++ [x00]) = zlen Y + 1) as Ey by (rewrite zlen_app; done).
  rewrite nonneg32_I by (rewrite !zlen_app; lia). rewrite catch_ok.
  destruct (splice_move d cap (le32 (4 + zlen (X ++ D ++ Y) + 1)) X D (Y ++ [x00]) n ins)
    as (d' & E & Hl).
  - apply holds_loose in Hd; [|done]. unfold frame in Hd. by rewrite <- !app_assoc in Hd.
  - rewrite !zlen_app, zlen_le32. change (zlen [x00]) with 1. lia.
  - done.
  - exists d'. split; [|done]. rewrite (zlen_app (le32 _) X), zlen_le32, Ey in E. rewrite <- E.
    replace (_bson_document_data d + (5 + zlen (X ++ D ++ Y)) - (_bson_document_data d + (4 + zlen X) + zlen D))
      with (zlen Y + 1) by (rewrite !zlen_app; lia). done.
Qed.

Lemma splice_root_spec (d : bson_doc AS) X D Y cap n ins :
  let new := 5 + zlen X + n + zlen Y in
  doc_holds d (X ++ D ++ Y) cap -> ins_ok n ins -> new <= INT32_MAX ->
  (is_static d = true -> 0 < n) ->
  exists d' p, splice_root d (_bson_document_data d + (4 + zlen X)) (4 + zlen X) (zlen D) n ins new
    = Done (d', p) /\
    ((p = 0 /\ same_memory d d' /\ cap < new /\ (INT32_MAX - 516 < new \/ denies (_allocator d))) \/
     (p = _bson_document_data d' + (4 + zlen X) /\ p <> 0 /\ exists cap',
      loose d' cap' (le32 (4 + zlen (X ++ D ++ Y) + 1) ++ X ++ spliced n ins ++ Y ++ [x00]))).
Proof.
  intros new Hd Hi Hmax Hst. unfold splice_root. destruct (holds_size _ _ _ Hd) as [_ ->]. ostep.
  pose proof (zlen_nonneg X). pose proof (zlen_nonneg D). pose proof (zlen_nonneg Y).
  pose proof (proj1 Hi). pose proof (holds_room _ _ _ Hd) as Hr. pose proof (holds_cap _ _ _ Hd) as Hc.
  rewrite !zlen_app in Hr. rewrite nonneg32_I by (rewrite !zlen_app; lia). rewrite catch_ok.
  destruct (Z.gtb_spec (zlen D) (_bson_document_data d + (5 + zlen (X ++ D ++ Y))
    - (_bson_document_data d + (4 + zlen X)))); [rewrite !zlen_app in *; lia|].
  destruct (splice_grow_spec d _ cap (4 + zlen X) new Hd)
    as (d' & p & -> & [(-> & Hm & Hlt & Hwhy) | (-> & Hnz & cap' & Hd' & Hle & Hs & Heq)]); [lia..| |]; ostep.
  - eexists _, _. split; [done|]. by left.
  - destruct (Z.eqb_spec (_bson_document_data d' + (4 + zlen X)) 0); [done|].
    assert (is_static d' = false) as Hs'.
    { destruct (Z_lt_le_dec cap new); [auto|]. rewrite (Heq ltac:(lia)).
      destruct (is_static d) eqn:Es; [|done]. destruct (static_empty _ _ _ Hd Es) as [_ ->].
      specialize (Hst eq_refl). lia. }
    destruct (splice_shift_spec d' X D Y cap' n ins Hd' Hs' Hi) as (d2 & -> & Hl); [lia|].
    eexists _, _. split; [done|]. right. split; [done|]. split; [|eauto].
    pose proof (loose_data _ _ _ Hl). pose proof (loose_base _ _ _ Hl). unfold heap_start in *. lia.
Qed.

(** ** Chains of mutators *)

(** The mutator [mut] edits a document with body [B]: the root document itself,
    or a document embedded in the body that its parent edits. *)
Fixpoint mut_at (d : bson_doc AS) (mut : bson_mut) (ctx : context) (B : list byte) : Prop :=
  match mut, ctx with
  | Root data, [] => data = _bson_document_data d /\ exists cap, doc_holds d B cap
  | Child data parent off, (L, R) :: ctx =>
      0 < off <= INT32_MAX /\ data = mut_data parent + 4 + zlen L /\ mut_at d parent ctx (L ++ frame B ++ R)
  | _, _ => False
  end.

Lemma mut_at_bytes (d : bson_doc AS) mut : forall ctx B,
  mut_at d mut ctx B ->
  bytes_at (doc_buf d) (mut_data mut) (frame B) /\ 0 < mut_data mut /\ 5 + zlen B + 4 <= INT32_MAX.
Proof.
  induction mut as [data | data parent IH off |]; intros [|[L R] ctx] B Hm; try done; simpl in Hm; simpl.
  - destruct Hm as (-> & cap & Hd). pose proof (holds_room _ _ _ Hd). pose proof (holds_cap _ _ _ Hd).
    pose proof (holds_base_pos _ _ _ Hd). pose proof (holds_data _ _ _ Hd).
    split_and!; [by eapply holds_at | lia | lia].
  - destruct Hm as (Hoff & -> & Hp). apply IH in Hp as (Hat & Hpos & Hmax).
    pose proof (zlen_nonneg L). pose proof (zlen_nonneg R).
    rewrite !zlen_app, zlen_frame in Hmax. split_and!; [|lia..].
    unfold frame at 1 in Hat. apply bytes_at_app in Hat as [_ Hat]. rewrite zlen_le32 in Hat.
    rewrite <- !app_assoc in Hat. apply bytes_at_app in Hat as [_ Hat].
    by apply bytes_at_app in Hat as [Hat _].
Qed.

Lemma mut_ssize_at (d : bson_doc AS) mut ctx B :
  mut_at d mut ctx B -> mut_ssize d mut = Done (5 + zlen B).
Proof.
  intros (Hat & Hpos & Hmax)%mut_at_bytes. unfold mut_ssize. apply frame_size; (done || lia).
Qed.

Lemma mut_at_same (d d' : bson_doc AS) mut : forall ctx B,
  same_memory d d' -> mut_at d mut ctx B -> mut_at d' mut ctx B.
Proof.
  induction mut as [data | data parent IH off |]; intros [|[L R] ctx] B Hs Hm; try done; simpl in Hm; simpl.
  - destruct Hm as (-> & cap & Hd). destruct Hs as [Ed Eb]. split; [done|]. exists cap.
    by eapply same_memory_holds.
  - destruct Hm as (Hoff & -> & Hp). split; [done|]. split; [done|]. by apply IH.
Qed.

(** The body of a document, as a part of the body of its parent. *)
Lemma frame_in_body L B R P O Q :
  B = P ++ O ++ Q ->
  L ++ frame B ++ R = (L ++ le32 (4 + zlen B + 1) ++ P) ++ O ++ (Q ++ [x00] ++ R).
Proof. intros ->. unfold frame. by rewrite <- !app_assoc. Qed.

(** Storing bytes over others of the same number in the body of any document of
    the chain. *)
Lemma mut_overwrite mut : forall (d : bson_doc AS) ctx P O Q N m',
  mut_at d mut ctx (P ++ O ++ Q) -> zlen O = zlen N -> is_static d = false ->
  stored (doc_buf d) m' (mut_data mut + 4 + zlen P) N ->
  mut_at (mk_doc (_bson_document_data d) m' (_allocator d)) mut ctx (P ++ N ++ Q).
Proof.
  induction mut as [data | data parent IH off |]; intros d [|[L R] ctx] P O Q N m' Hm Hlen Hs St; try done;
    simpl in Hm; simpl in St; simpl.
  - destruct Hm as (-> & cap & Hd). split; [done|]. exists cap. apply loose_holds.
    apply holds_loose in Hd; [|done]. unfold frame in *.
    assert (zlen (P ++ N ++ Q) = zlen (P ++ O ++ Q)) as -> by (rewrite !zlen_app; lia).
    rewrite <- !app_assoc in *. rewrite (app_assoc (le32 _) P) in *.
    eapply loose_overwrite; [done | done|]. by rewrite zlen_app, zlen_le32, Z.add_assoc.
  - destruct Hm as (Hoff & -> & Hp). split; [done|]. split; [done|].
    rewrite (frame_in_body L _ R P O Q eq_refl) in Hp.
    rewrite (frame_in_body L _ R P N Q eq_refl).
    assert (zlen (P ++ N ++ Q) = zlen (P ++ O ++ Q)) as -> by (rewrite !zlen_app; lia).
    eapply IH; [done..|]. rewrite !zlen_app, zlen_le32.
    by replace (mut_data parent + 4 + (zlen L + (4 + zlen P)))
      with (mut_data parent + 4 + zlen L + 4 + zlen P) by lia.
Qed.

(** Writing the new size into the header of an embedded document. *)
Lemma mut_set_header (d : bson_doc AS) parent ctx L o n B' R :
  mut_at d parent ctx (L ++ le32 o ++ B' ++ [x00] ++ R) -> is_static d = false -> n = 4 + zlen B' + 1 ->
  exists d', doc_store d (fun m => _bson_write_u32le m (mut_data parent + 4 + zlen L) n)
      = Done (d', mut_data parent + 4 + zlen L + 4) /\
    mut_at d' parent ctx (L ++ frame B' ++ R) /\ is_static d' = false /\
    _bson_document_data d' = _bson_document_data d.
Proof.
  intros Hm Hs ->. destruct (mut_at_bytes _ _ _ _ Hm) as (Hat & Hpos & Hmax).
  apply bytes_at_bounds in Hat as [Hb He]. rewrite zlen_frame in He. rewrite !zlen_app, zlen_le32 in *.
  pose proof (zlen_nonneg L). pose proof (zlen_nonneg B'). pose proof (zlen_nonneg R).
  change (zlen [x00]) with 1 in *.
  destruct (write_u32_stored (doc_buf d) (mut_data parent + 4 + zlen L) (4 + zlen B' + 1))
    as (m' & E & St); [lia..|].
  eexists. rewrite doc_store_heap by done. rewrite E. ostep. split; [done|]. split; [|done].
  unfold frame. rewrite <- !app_assoc. eapply mut_overwrite; [done | by rewrite !zlen_le32 | done | done].
Qed.

(** The mutator after an edit: the same shape, pointers moved. *)
Fixpoint same_shape (mut mut' : bson_mut) : Prop :=
  match mut, mut' with
  | Root _, Root _ => True
  | Child data parent off, Child data' parent' off' =>
      off = off' /\ data - mut_data parent = data' - mut_data parent' /\ same_shape parent parent'
  | _, _ => False
  end.

Lemma mut_root (d : bson_doc AS) mut : forall ctx B,
  mut_at d mut ctx B -> exists B' cap, doc_holds d B' cap /\ zlen B <= zlen B'.
Proof.
  induction mut as [data | data parent IH off |]; intros [|[L R] ctx] B Hm; try done; simpl in Hm; simpl.
  - destruct Hm as (-> & cap & Hd). eauto with lia.
  - destruct Hm as (Hoff & -> & Hp). apply IH in Hp as (B' & cap & Hd & Hle).
    exists B', cap. split; [done|]. rewrite !zlen_app, zlen_frame in Hle.
    pose proof (zlen_nonneg L). pose proof (zlen_nonneg R). lia.
Qed.

(** The root document would outgrow its capacity, and cannot grow: it would come
    near the largest size, or the allocator denies memory. *)
Definition outgrows (d : bson_doc AS) (extra : Z) : Prop :=
  exists B cap, doc_holds d B cap /\ cap < 5 + zlen B + extra /\
    (INT32_MAX - 516 < 5 + zlen B + extra \/ denies (_allocator d)).

(** The size computation of a splice. *)
Lemma splice_size ssize n del :
  5 <= ssize <= INT32_MAX -> 0 <= n <= INT64_MAX -> 0 <= del < ssize ->
  let r1 := mlibMathInt32 mlib_math_try (sub (U n) (U del)) in
  let r2 := mlibMathNonNegativeInt32 (fst r1) (add (I ssize) (I (snd r1))) in
  (r2 = (mlib_math_try, ssize + n - del) /\ ssize + n - del <= INT32_MAX) \/
  (failed (fst r2) /\ INT32_MAX < ssize + n - del).
Proof.
  intros Hs Hn Hd r1 r2. subst r1 r2.
  assert (small (sub (U n) (U del)) (n - del)) as (C1 & _ & V1).
  { apply small_sub; [apply small_U; lia | apply small_U; lia | unfold is_i64; lia]. }
  destruct (int32_run (sub (U n) (U del))) as [(_ & Hr & ->) | [Hf Hno]]; cbn [fst snd].
  - rewrite V1 in Hr |- *. unfold is_i32 in Hr.
    assert (small (add (I ssize) (I (n - del))) (ssize + (n - del))) as (C2 & _ & V2).
    { apply small_add; [apply small_I; unfold is_i64; lia.. | unfold is_i64; lia]. }
    destruct (nonneg32_run (add (I ssize) (I (n - del)))) as [(_ & Hr2 & ->) | [Hf2 Hno2]].
    + left. rewrite V2 in *. split; [f_equal; lia | lia].
    + right. split; [done|]. rewrite V2 in *. apply Znot_ge_lt. intros ?. apply Hno2. split; [done | lia].
  - right. split; [by apply nonneg32_sticky|]. apply Znot_ge_lt. intros ?. apply Hno.
    rewrite V1. split; [done | unfold is_i32; lia].
Qed.

(** The splice on any chain: the bytes [D] of the edited body are replaced by
    the inserted ones, every header on the way is updated and every pointer
    follows a reallocation; or nothing changes, because the document would
    outgrow its capacity and could not grow. *)
Lemma splice_spec mut : forall (d : bson_doc AS) ctx X D Y n ins,
  mut_at d mut ctx (X ++ D ++ Y) -> ins_ok n ins -> (is_static d = true -> 0 < n) ->
  exists d' mut' p,
    _bson_splice_region d mut (mut_data mut + 4 + zlen X) (zlen D) n ins = Done (d', mut', p) /\
    ((p = 0 /\ same_memory d d' /\ mut' = mut /\ outgrows d (n - zlen D)) \/
     (p = mut_data mut' + 4 + zlen X /\ p <> 0 /\ same_shape mut mut' /\ is_static d' = false /\
      mut_at d' mut' ctx (X ++ spliced n ins ++ Y))).
Proof.
  induction mut as [data | data parent IH off |]; intros d [|[L R] ctx] X D Y n ins Hm Hi Hst; try done;
    pose proof (mut_ssize_at _ _ _ _ Hm) as Hsz; pose proof (mut_at_bytes _ _ _ _ Hm) as (_ & Hpos & Hmax);
    pose proof (mut_root _ _ _ _ Hm) as (B' & cap & Hd & Hle);
    pose proof (zlen_nonneg X); pose proof (zlen_nonneg D); pose proof (zlen_nonneg Y);
    pose proof (proj1 Hi) as Hn; pose proof (zlen_spliced n ins Hi) as Hsp;
    cbn [_bson_splice_region]; rewrite Hsz; ostep; rewrite !zlen_app in Hmax, Hle;
    match type of Hm with mut_at _ ?mm _ _ => set (md := mut_data mm) in * end;
    replace (md + 4 + zlen X - md) with (4 + zlen X) by lia;
    (destruct (Z.leb_spec 4 (4 + zlen X)); [|lia]);
    (destruct (Z.ltb_spec (4 + zlen X) (5 + zlen (X ++ D ++ Y))) as [_|Hbad];
       [|rewrite !zlen_app in Hbad; lia]);
    pose proof (splice_size (5 + zlen (X ++ D ++ Y)) n (zlen D)) as Hsize;
    rewrite !zlen_app in Hsize; specialize (Hsize ltac:(lia) ltac:(lia) ltac:(lia));
    rewrite <- !zlen_app in Hsize;
    destruct (mlibMathInt32 mlib_math_try (sub (U n) (U (zlen D)))) as [i1 sd];
    cbn [fst snd] in Hsize;
    destruct (mlibMathNonNegativeInt32 i1 (add (I (5 + zlen (X ++ D ++ Y))) (I sd))) as [i2 nd];
    cbn [fst snd] in Hsize;
    destruct Hsize as [([= -> ->] & Hfit) | (Hf & Hbig)];
    (rewrite catch_ok || rewrite catch_failed by done).
  all: try (eexists _, _, _; split; [done|]; left; split_and!; [done | done | done|];
            exists B', cap; split; [done|]; pose proof (holds_cap _ _ _ Hd); rewrite !zlen_app in Hbig; lia).
  - (* root *)
    destruct Hm as (Edata & cap' & Hd'). simpl in md. subst md data.
    replace (5 + zlen (X ++ D ++ Y) + n - zlen D) with (5 + zlen X + n + zlen Y) in *
      by (rewrite !zlen_app; lia).
    rewrite <- (Z.add_assoc (_bson_document_data d) 4 (zlen X)).
    destruct (splice_root_spec d X D Y cap' n ins Hd' Hi Hfit Hst)
      as (d2 & p & -> & [(-> & Hsm & Hlt & Hwhy) | (-> & Hnz & cap2 & Hl)]); ostep.
    + eexists _, _, _. split; [done|]. left. split_and!; [done.. |]. exists (X ++ D ++ Y), cap'.
      split; [done|]. rewrite !zlen_app. split; [lia|]. destruct Hwhy; [left; lia | by right].
    + destruct (Z.eqb_spec (_bson_document_data d2 + (4 + zlen X)) 0) as [|_]; [done|]. ostep.
      destruct (Z.eqb_spec (_bson_document_data d2 + (4 + zlen X)) 0) as [|_]; [done|]. simpl mut_data.
      rewrite u32_id by (unfold is_u32; lia).
      destruct (loose_range _ _ _ Hl) as (R1 & R2 & _). rewrite zlen_app, zlen_le32 in R2.
      pose proof (zlen_nonneg (X ++ spliced n ins ++ Y ++ [x00])).
      destruct (write_u32_stored (doc_buf d2) (_bson_document_data d2) (5 + zlen X + n + zlen Y))
        as (m3 & E3 & S3); [lia..|].
      rewrite (store_ok _ _ _ _ _ _ Hl E3). ostep. eexists _, _, _. split; [done|]. right.
      split; [simpl; lia|]. split; [done|]. split; [done|]. split; [apply Hl|].
      split; [done|]. exists cap2. apply loose_holds. unfold frame.
      replace (4 + zlen (X ++ spliced n ins ++ Y) + 1) with (5 + zlen X + n + zlen Y)
        by (rewrite !zlen_app; lia).
      rewrite <- !app_assoc.
      eapply (loose_overwrite d2 cap2 [] _ _ (le32 _)); [exact Hl | by rewrite !zlen_le32|].
      rewrite zlen_nil, Z.add_0_r. done.
  - (* child *)
    destruct Hm as (Hoff & -> & Hp). pose proof Hp as Hp'.
    rewrite (frame_in_body L _ R X D Y eq_refl) in Hp'.
    assert (zlen (L ++ le32 (4 + zlen (X ++ D ++ Y) + 1) ++ X) = zlen L + (4 + zlen X)) as El
      by (rewrite (zlen_app L), (zlen_app (le32 _)), zlen_le32; lia).
    destruct (IH d ctx _ D _ n ins Hp' Hi Hst)
      as (d2 & parent2 & p & E & [(-> & Hsm & -> & Hout) | (-> & Hnz & Hsh & Hs2 & Hp2)]);
      rewrite El in *;
      replace (mut_data parent + 4 + (zlen L + (4 + zlen X))) with (md + 4 + zlen X) in E
        by (subst md; simpl; lia); rewrite E; ostep.
    + eexists _, _, _. split; [done|]. left. split_and!; done.
    + set (p := mut_data parent2 + 4 + (zlen L + (4 + zlen X))) in *.
      destruct (Z.eqb_spec p 0) as [|_]; [done|]. ostep.
      destruct (Z.eqb_spec p 0) as [|_]; [done|]. simpl mut_data.
      replace (mut_data parent2 + (mut_data parent + 4 + zlen L - mut_data parent))
        with (mut_data parent2 + 4 + zlen L) by lia.
      assert (L ++ le32 (4 + zlen (X ++ D ++ Y) + 1) ++ X ++ spliced n ins ++ Y ++ [x00] ++ R =
              (L ++ le32 (4 + zlen (X ++ D ++ Y) + 1) ++ X) ++ spliced n ins ++ Y ++ [x00] ++ R) as Eb
        by (by rewrite <- !app_assoc).
      rewrite <- Eb in Hp2.
      replace (X ++ spliced n ins ++ Y ++ [x00] ++ R) with ((X ++ spliced n ins ++ Y) ++ [x00] ++ R) in Hp2
        by (by rewrite <- !app_assoc).
      rewrite u32_id by (rewrite !zlen_app in *; unfold is_u32; lia).
      destruct (mut_set_header d2 parent2 ctx L _ (5 + zlen (X ++ D ++ Y) + n - zlen D) _ R Hp2 Hs2)
        as (d3 & -> & Hp3 & Hs3 & _); [rewrite !zlen_app; lia|]. ostep.
      eexists _, _, _. split; [done|]. right. subst p. simpl mut_data. simpl in md.
      split; [lia|]. split; [done|].
      split; [simpl; split_and!; [done | subst md; lia | done]|]. split; [done|].
      split; [done|]. done.
Qed.
End Splice.
