(* ===== verification/MutElem.v ===== *)
(** * Editing elements

    The operations of the mutator on the abstract document: the encoding of the
    elements before an edit becomes the encoding of the elements after it, in
    the root document and in every parent. *)
From Stdlib Require Import ZArith Lia.
From Stdlib Require Import Strings.Byte.
From stdpp Require Import base numbers list sets.
From S2P Require Import Prelude.
From S2P Require Import Integer.
From S2P Require Import Mem.
From S2P Require Import Types.
From S2P Require Import View.
From S2P Require Import Iterator.
From S2P Require Import IteratorSafe.
From S2P Require Import Codec.
From S2P Require Import Alloc.
From S2P Require Import Str.
From S2P Require Import Doc.
From S2P Require Import Mut.
From S2P Require Import MutSpec.
Import mlibMath.
Open Scope Z_scope.

(** No object in memory is larger than this. *)
Abbreviation object_limit := 4611686018427387904.

Section Fill.
Context {AS : Type} {HA : Allocator AS} {HOK : AllocatorOk AS}.

(** ** Filling a region from left to right *)

(** A heap document whose edited body is [P ++ W ++ Q], [W] still to be
    written. *)
Definition filling (d : bson_doc AS) (mut : bson_mut) (ctx : context) (P W Q : list byte) : Prop :=
  mut_at d mut ctx (P ++ W ++ Q) /\ is_static d = false.

(** The address of the first byte to be written. *)
Definition cursor (mut : bson_mut) (P : list byte) : Z := mut_data mut + 4 + zlen P.

(** A block operation that stores [bs] at [a]. *)
Definition stores (f : block -> outcome (block * Z)) (a : Z) (bs : list byte) : Prop :=
  forall m, b_base m <= a -> a + zlen bs <= b_end m ->
    exists m', f m = Done (m', a + zlen bs) /\ stored m m' a bs.

Lemma fill_store (d : bson_doc AS) mut ctx P W Q f bs :
  filling d mut ctx P W Q -> zlen bs <= zlen W -> stores f (cursor mut P) bs ->
  exists d' W', doc_store d f = Done (d', cursor mut (P ++ bs)) /\
    filling d' mut ctx (P ++ bs) W' Q /\ zlen W' = zlen W - zlen bs.
Proof.
  intros [Hm Hs] Hlen Hf. destruct (mut_at_bytes _ _ _ _ Hm) as (Hat & Hpos & Hmax).
  pose proof (zlen_nonneg P). pose proof (zlen_nonneg Q). pose proof (zlen_nonneg bs).
  apply bytes_at_bounds in Hat as [Hb He]. rewrite zlen_frame, !zlen_app in He.
  destruct (Hf (doc_buf d)) as (m' & E & St); [unfold cursor; lia..|].
  rewrite doc_store_heap by done. rewrite E. ostep.
  exists (mk_doc (_bson_document_data d) m' (_allocator d)), (drop (length bs) W).
  assert (zlen (take (length bs) W) = zlen bs) as Ht
    by (unfold zlen in *; rewrite length_take; lia).
  split; [|split; [split; [|done]|]].
  - unfold cursor. rewrite zlen_app. do 2 f_equal. lia.
  - rewrite <- app_assoc. eapply (mut_overwrite mut d ctx P (take (length bs) W)); try done.
    by rewrite (app_assoc (take _ W)), take_drop.
  - unfold zlen in *. rewrite length_drop. lia.
Qed.

Lemma stores_put a bs : stores (fun m => let* m := wr_range m a bs in Done (m, a + zlen bs)) a bs.
Proof. intros m Hb He. destruct (wr_stored m a bs Hb He) as (m' & E & St). exists m'. by rewrite E. Qed.
Lemma stores_u32 a v : stores (fun m => _bson_write_u32le m a v) a (le32 v).
Proof. intros m Hb He. rewrite zlen_le32 in *. by apply write_u32_stored. Qed.
Lemma stores_copy a bs : stores (fun m => _bson_memcpy m a (Some bs) (zlen bs)) a bs.
Proof. intros m Hb He. by apply memcpy_stored. Qed.

Lemma stored_trans m m1 m2 a x y :
  stored m m1 a x -> stored m1 m2 (a + zlen x) y -> stored m m2 a (x ++ y).
Proof.
  intros [A1 B1 E1 F1] [A2 B2 E2 F2]. pose proof (zlen_nonneg x). pose proof (zlen_nonneg y).
  split; [|congruence..|].
  - apply bytes_at_app. split; [apply F2; [done | lia] | done].
  - intros b k Hk Hd. rewrite zlen_app in Hd. apply F2; [apply F1; [done | lia] | lia].
Qed.

Lemma stores_u64 a v : is_u64 v -> stores (fun m => _bson_write_u64le m a v) a (le64 v).
Proof.
  intros Hv m Hb He. rewrite zlen_le64 in *. unfold _bson_write_u64le.
  destruct (write_u32_stored m a (u32 v)) as (m1 & E1 & S1); [lia..|].
  pose proof (stored_base _ _ _ _ S1). pose proof (stored_end _ _ _ _ S1).
  destruct (write_u32_stored m1 (a + 4) (u32 (Z.shiftr v 32))) as (m2 & E2 & S2); [lia..|].
  rewrite E1. ostep. rewrite E2. replace (a + 4 + 4) with (a + 8) by lia. exists m2. split; [done|].
  rewrite le64_split. apply (stored_trans m m1); [done|]. by rewrite zlen_le32.
Qed.

(** A writer of [bs]: it fills exactly the bytes left. *)
Definition writes (fill : bson_doc AS -> Z -> outcome (bson_doc AS * Z)) (bs : list byte) : Prop :=
  forall d mut ctx P W Q, filling d mut ctx P W Q -> zlen bs <= zlen W ->
    exists d' W', fill d (cursor mut P) = Done (d', cursor mut (P ++ bs)) /\
      filling d' mut ctx (P ++ bs) W' Q /\ zlen W' = zlen W - zlen bs.

Lemma writes_store f bs : (forall a, stores (f a) a bs) -> writes (fun d a => doc_store d (f a)) bs.
Proof. intros Hf d mut ctx P W Q Hfill Hlen. by eapply fill_store. Qed.

Lemma writes_put bs : writes (fun d out => put d out bs) bs.
Proof. apply (writes_store (fun a m => let* m := wr_range m a bs in Done (m, a + zlen bs))). intros a. apply stores_put. Qed.
Lemma writes_32 v : writes (fun d out => write32 d out v) (le32 v).
Proof. apply (writes_store (fun a m => _bson_write_u32le m a v)). intros a. apply stores_u32. Qed.
Lemma writes_64 v : is_u64 v -> writes (fun d out => write64 d out v) (le64 v).
Proof. intros. apply (writes_store (fun a m => _bson_write_u64le m a v)). intros a. by apply stores_u64. Qed.
Lemma writes_copy bs n : zlen bs = n -> writes (fun d out => copy_in d out (Some bs) n) bs.
Proof. intros <-. apply (writes_store (fun a m => _bson_memcpy m a (Some bs) (zlen bs))). intros a. apply stores_copy. Qed.

Lemma writes_seq f g x y :
  writes f x -> writes g y ->
  writes (fun d out => let* (d, out) := f d out in g d out) (x ++ y).
Proof.
  intros Hf Hg d mut ctx P W Q Hfill Hlen. rewrite zlen_app in Hlen.
  pose proof (zlen_nonneg x). pose proof (zlen_nonneg y).
  destruct (Hf d mut ctx P W Q Hfill) as (d1 & W1 & -> & H1 & L1); [lia|]. ostep.
  destruct (Hg d1 mut ctx (P ++ x) W1 Q H1) as (d2 & W2 & -> & H2 & L2); [lia|].
  exists d2, W2. rewrite zlen_app, app_assoc. split_and!; [done | done | lia].
Qed.

(** ** Preparing an element *)

Lemma mut_end_at (d : bson_doc AS) mut ctx B :
  mut_at d mut ctx B -> mut_end d mut = Done (mk_iterator (mut_data mut + 4 + zlen B) 0 1).
Proof.
  intros Hm. destruct (mut_at_bytes _ _ _ _ Hm) as (Hat & Hpos & Hmax). pose proof (zlen_nonneg B).
  assert (doc_at (doc_buf d) (mut_data mut) (5 + zlen B)) as Hdoc.
  { unfold doc_at. unfold frame in Hat. split; [lia|]. split.
    - apply bytes_at_app_l in Hat. by replace (5 + zlen B) with (4 + zlen B + 1) by lia.
    - apply bytes_at_app in Hat as [_ Hat]. apply bytes_at_app in Hat as [_ Hat].
      rewrite zlen_le32 in Hat. by replace (mut_data mut + (5 + zlen B - 1))
        with (mut_data mut + 4 + zlen B) by lia. }
  destruct (mut_root _ _ _ _ Hm) as (B' & cap & Hd & _). apply holds_base_pos in Hd.
  unfold mut_end. rewrite (end_ok _ _ _ Hd Hdoc). do 2 f_equal. lia.
Qed.

(** The head of an element with a value of type [t]. *)
Definition elem_head (t : Z) (key : list byte) : list byte := z2b t :: key ++ [x00].

Lemma zlen_elem_head t k : zlen (elem_head t k) = 2 + zlen k.
Proof. unfold elem_head. rewrite zlen_cons, zlen_app. change (zlen [x00]) with 1. lia. Qed.

Lemma elem_size_run (k : list byte) n :
  0 <= n <= INT32_MAX -> zlen k <= object_limit ->
  let r := mlibMathNonNegativeInt32 mlib_math_try (add (U (zlen k)) (add (I 2) (U n))) in
  (r = (mlib_math_try, 2 + zlen k + n) /\ 2 + zlen k + n <= INT32_MAX) \/
  (failed (fst r) /\ INT32_MAX < 2 + zlen k + n).
Proof.
  intros Hn Hk r. subst r. pose proof (zlen_nonneg k).
  assert (small (add (U (zlen k)) (add (I 2) (U n))) (zlen k + (2 + n))) as (C & _ & V).
  { apply small_add; [apply small_U; lia | apply small_add | unfold is_i64; lia];
      [apply small_I; unfold is_i64; lia | apply small_U; lia | unfold is_i64; lia]. }
  destruct (nonneg32_run (add (U (zlen k)) (add (I 2) (U n)))) as [(_ & Hr & ->) | [Hf Hno]].
  - left. rewrite V in *. split; [f_equal; lia | lia].
  - right. split; [done|]. rewrite V in Hno. apply Znot_ge_lt. intros ?. apply Hno. split; [done | lia].
Qed.

(** Writing the head of the element into the region just spliced. *)
Lemma write_head (d : bson_doc AS) mut ctx X Y t k n :
  filling d mut ctx X (replicate (Z.to_nat (2 + zlen k + n)) x58) Y -> 0 <= n ->
  exists d' W,
    (let* (d, outptr) := put d (cursor mut X) [z2b t] in
     let* (d, outptr) := doc_store d (fun m => _bson_memcpy_chr m outptr (Some k) (zlen k)) in
     put d outptr [x00]) = Done (d', cursor mut (X ++ elem_head t k)) /\
    filling d' mut ctx (X ++ elem_head t k) W Y /\ zlen W = n.
Proof.
  intros Hf Hn. pose proof (zlen_nonneg k).
  assert (writes (fun d out => let* (d, outptr) := put d out [z2b t] in
     let* (d, outptr) := doc_store d (fun m => _bson_memcpy_chr m outptr (Some k) (zlen k)) in
     put d outptr [x00]) ([z2b t] ++ k ++ [x00])) as Hw.
  { apply writes_seq; [apply writes_put|].
    apply (writes_seq (fun d out => copy_in d out (Some k) (zlen k))); [by apply writes_copy | apply writes_put]. }
  destruct (Hw d mut ctx X _ Y Hf) as (d' & W & E & Hf' & HW).
  { rewrite zlen_replicate by lia. change (zlen (elem_head t k) <= 2 + zlen k + n).
    rewrite zlen_elem_head. lia. }
  exists d', W. split; [exact E|]. split; [exact Hf'|].
  change (zlen W = zlen (replicate (Z.to_nat (2 + zlen k + n)) x58) - zlen (elem_head t k)) in HW.
  rewrite zlen_replicate, zlen_elem_head in HW; lia.
Qed.

(** A failed edit changes nothing and gives the end iterator. *)
Definition edit_fails (d d' : bson_doc AS) (mut mut' : bson_mut) (it : bson_iterator) (extra : Z) : Prop :=
  same_memory d d' /\ mut' = mut /\ mut_end d mut = Done it /\ outgrows d extra.

Lemma same_memory_end (d d' : bson_doc AS) mut : same_memory d d' -> mut_end d' mut = mut_end d mut.
Proof. intros [_ E]. unfold mut_end. by rewrite E. Qed.

Lemma prep_spec (d : bson_doc AS) mut ctx X Y pos t key n :
  let k := _mlib_str_view_chopnulls key in
  mut_at d mut ctx (X ++ Y) -> _ptr pos = cursor mut X -> 0 <= n <= INT32_MAX ->
  zlen key <= object_limit ->
  exists d' mut' it out, _bson_prep_element_region d mut pos t key n = Done (d', mut', it, out) /\
    ((out = 0 /\ edit_fails d d' mut mut' it (2 + zlen k + n)) \/
     (out = cursor mut' (X ++ elem_head t k) /\ out <> 0 /\ same_shape mut mut' /\
      it = mk_iterator (cursor mut' X) (zlen k) (1 + (2 + zlen k + n) + zlen Y) /\
      exists W, zlen W = n /\ filling d' mut' ctx (X ++ elem_head t k) W Y)).
Proof.
  intros k Hm Hpos Hn Hkey. unfold _bson_prep_element_region. fold k.
  pose proof (chopnulls_len key) as Hk. fold k in Hk. pose proof (zlen_nonneg k).
  pose proof (zlen_nonneg X). pose proof (zlen_nonneg Y).
  destruct (mut_at_bytes _ _ _ _ Hm) as (_ & _ & Hmax). rewrite zlen_app in Hmax.
  pose proof (mut_end_at _ _ _ _ Hm) as Hend.
  destruct (elem_size_run k n Hn ltac:(lia)) as [(-> & Hfit) | (Hf & Hbig)]; rewrite ?catch_ok.
  2:{ destruct (mlibMathNonNegativeInt32 _ _) as [i z]. rewrite catch_failed by done. rewrite Hend.
      ostep. eexists _, _, _, _. split; [done|]. left. split; [done|].
      destruct (mut_root _ _ _ _ Hm) as (B' & cap & Hd & _). split_and!; [done..|].
      exists B', cap. split; [done|]. pose proof (holds_cap _ _ _ Hd). pose proof (zlen_nonneg B'). lia. }
  assert (_bson_mut_data_at mut pos = mut_data mut + 4 + zlen X) as ->
    by (unfold _bson_mut_data_at, bson_iterator_data, cursor in *; lia).
  destruct (splice_spec mut d ctx X [] Y (2 + zlen k + n) None Hm)
    as (d2 & mut2 & p & E & [(-> & Hsm & -> & Hout) | (-> & Hnz & Hsh & Hs2 & Hm2)]); [split; lia | lia| |];
    rewrite zlen_nil in E; rewrite E; ostep.
  - rewrite (same_memory_end d) by done. rewrite Hend. ostep. eexists _, _, _, _. split; [done|].
    left. split; [done|]. split_and!; [done | done | done|]. by rewrite zlen_nil, Z.sub_0_r in Hout.
  - destruct (Z.eqb_spec (mut_data mut2 + 4 + zlen X) 0); [done|].
    destruct (write_head d2 mut2 ctx X Y t k n) as (d3 & W & E3 & [Hm3 Hs3] & HW); [by split | lia|].
    fold (cursor mut2 X). revert E3.
    destruct (put d2 (cursor mut2 X) [z2b t]) as [[d4 o4]| |]; [|done..]. ostep.
    destruct (doc_store d4 _) as [[d5 o5]| |]; [|done..]. ostep. intros ->. ostep.
    rewrite (mut_ssize_at _ _ _ _ Hm3). ostep. eexists _, _, _, _. split; [done|]. right.
    pose proof (mut_at_bytes _ _ _ _ Hm3) as (_ & Hp3 & Hmax3).
    rewrite !zlen_app, zlen_elem_head in Hmax3. pose proof (zlen_nonneg W).
    split; [done|]. split; [unfold cursor; pose proof (zlen_nonneg (X ++ elem_head t k)); lia|].
    split; [done|]. split; [|by exists W].
    unfold bson_iterator_data. rewrite Hpos. unfold cursor.
    rewrite !zlen_app, zlen_elem_head, !s32_id by (unfold is_i32; lia). f_equal; lia.
Qed.

(** The value is written at the front of its region; what is not written of the region is [filler]. *)
Lemma insert_with_room (d : bson_doc AS) mut ctx X Y pos t key n fill bs :
  let k := _mlib_str_view_chopnulls key in
  mut_at d mut ctx (X ++ Y) -> _ptr pos = cursor mut X -> zlen key <= object_limit ->
  writes fill bs -> zlen bs <= n -> n <= INT32_MAX ->
  exists d' mut' it, insert_with d mut pos t key n fill = Done (d', mut', it) /\
    (edit_fails d d' mut mut' it (2 + zlen k + n) \/
     (same_shape mut mut' /\ is_static d' = false /\
      it = mk_iterator (cursor mut' X) (zlen k) (1 + (2 + zlen k + n) + zlen Y) /\
      exists filler, zlen filler = n - zlen bs /\ mut_at d' mut' ctx (X ++ (elem_head t k ++ bs ++ filler) ++ Y))).
Proof.
  intros k Hm Hpos Hkey Hw Hroom Hn. unfold insert_with. pose proof (zlen_nonneg bs).
  destruct (prep_spec d mut ctx X Y pos t key n Hm Hpos ltac:(lia) Hkey)
    as (d' & mut' & it & out & -> & [(-> & Hfail) | (-> & Hnz & Hsh & -> & W & HW & Hf)]); ostep.
  - eexists _, _, _. split; [done|]. by left.
  - destruct (Z.eqb_spec (cursor mut' (X ++ elem_head t (_mlib_str_view_chopnulls key))) 0); [done|].
    destruct (Hw d' mut' ctx _ W Y Hf) as (d2 & W2 & -> & [Hm2 Hs2] & HW2); [lia|]. ostep.
    eexists _, _, _. split; [done|]. right. split_and!; [done.. |]. exists W2. split; [lia|].
    by rewrite <- !app_assoc in *.
Qed.

Lemma insert_with_spec (d : bson_doc AS) mut ctx X Y pos t key n fill bs :
  let k := _mlib_str_view_chopnulls key in
  mut_at d mut ctx (X ++ Y) -> _ptr pos = cursor mut X -> zlen key <= object_limit ->
  writes fill bs -> zlen bs = n -> n <= INT32_MAX ->
  exists d' mut' it, insert_with d mut pos t key n fill = Done (d', mut', it) /\
    (edit_fails d d' mut mut' it (2 + zlen k + n) \/
     (same_shape mut mut' /\ is_static d' = false /\
      it = mk_iterator (cursor mut' X) (zlen k) (1 + (2 + zlen k + n) + zlen Y) /\
      mut_at d' mut' ctx (X ++ (elem_head t k ++ bs) ++ Y))).
Proof.
  intros k Hm Hpos Hkey Hw <- Hn.
  destruct (insert_with_room d mut ctx X Y pos t key (zlen bs) fill bs Hm Hpos Hkey Hw ltac:(lia) Hn)
    as (d' & mut' & it & E & [Hf | (? & ? & ? & filler & Hz & Hm')]); exists d', mut', it; (split; [done|]); [by left|right].
  split_and!; [done..|]. assert (filler = []) as -> by (destruct filler as [|b filler]; [done|]; rewrite zlen_cons in Hz; pose proof (zlen_nonneg filler); lia). by rewrite app_nil_r in Hm'.
Qed.

(** ** The value cases of [_bson_insert_value] *)

(** What an insertion of the value bytes [bs] does at the position after [X]. *)
Definition inserts (r : outcome (insert_result AS)) (d : bson_doc AS) (mut : bson_mut) (ctx : context)
  (X Y : list byte) (t : Z) (k bs : list byte) : Prop :=
  exists d' mut' it, r = Done (d', mut', it) /\
    (edit_fails d d' mut mut' it (2 + zlen k + zlen bs) \/
     (same_shape mut mut' /\ is_static d' = false /\
      it = mk_iterator (cursor mut' X) (zlen k) (1 + (2 + zlen k + zlen bs) + zlen Y) /\
      mut_at d' mut' ctx (X ++ (elem_head t k ++ bs) ++ Y))).

Lemma return_end_fails (d : bson_doc AS) mut ctx X Y t k bs :
  mut_at d mut ctx (X ++ Y) -> INT32_MAX < zlen bs + 4 ->
  inserts (return_end d mut) d mut ctx X Y t k bs.
Proof.
  intros Hm Hbig. pose proof (mut_end_at _ _ _ _ Hm) as He. unfold return_end. rewrite He. ostep.
  eexists _, _, _. split; [done|]. left. split_and!; [done..|].
  destruct (mut_root _ _ _ _ Hm) as (B' & cap & Hd & _). exists B', cap. split; [done|].
  pose proof (holds_cap _ _ _ Hd). pose proof (zlen_nonneg B'). pose proof (zlen_nonneg k). lia.
Qed.

(** A size computed by adding a constant to another size. *)
Lemma add_size_run (v : mlib_integer) (x c : Z) :
  small v x -> 0 <= x <= object_limit -> 1 <= c <= 16 ->
  let r := mlibMathPositiveInt32 mlib_math_try (add v (I c)) in
  (r = (mlib_math_try, x + c) /\ x + c <= INT32_MAX) \/ (failed (fst r) /\ INT32_MAX < x + c).
Proof.
  intros Hv Hx Hc r. subst r.
  assert (small (add v (I c)) (x + c)) as (C & _ & V)
    by (apply small_add; [done | apply small_I; unfold is_i64; lia | unfold is_i64; lia]).
  destruct (pos32_run (add v (I c))) as [(_ & Hr & ->) | [Hf Hno]].
  - left. rewrite V in *. split; [done | lia].
  - right. split; [done|]. rewrite V in Hno. apply Znot_ge_lt. intros ?. apply Hno. split; [done | lia].
Qed.

Section At.
Context (d : bson_doc AS) (mut : bson_mut) (ctx : context) (X Y : list byte).
Context (pos : bson_iterator) (key : list byte).
Context (Hm : mut_at d mut ctx (X ++ Y)) (Hpos : _ptr pos = cursor mut X).
Context (Hkey : zlen key <= object_limit).

Let k := _mlib_str_view_chopnulls key.

Lemma insert_with_ok t n fill bs :
  writes fill bs -> zlen bs = n -> n <= INT32_MAX ->
  inserts (insert_with d mut pos t key n fill) d mut ctx X Y t k bs.
Proof.
  intros Hw <- Hn.
  destruct (insert_with_spec d mut ctx X Y pos t key (zlen bs) fill bs Hm Hpos Hkey Hw eq_refl Hn)
    as (d' & mut' & it & E & Hcase). exists d', mut', it. auto.
Qed.

Lemma insert_unit_ok t : inserts (insert_unit d mut pos key t) d mut ctx X Y t k [].
Proof.
  unfold insert_unit.
  destruct (prep_spec d mut ctx X Y pos t key 0 Hm Hpos ltac:(lia) Hkey)
    as (d' & mut' & it & out & -> & [(-> & Hfail) | (-> & Hnz & Hsh & -> & W & HW & Hf & Hs)]); ostep;
    eexists _, _, _; (split; [done|]); [by left|right].
  assert (W = []) as -> by (destruct W; [done|]; rewrite zlen_cons in HW; pose proof (zlen_nonneg W); lia).
  split_and!; [done..|]. by rewrite app_nil_r, app_assoc.
Qed.

Lemma insert_stringlike_ok t s :
  zlen s <= object_limit ->
  inserts (_bson_insert_stringlike d mut pos key t s) d mut ctx X Y t k (encode_string s).
Proof.
  intros Hs. unfold _bson_insert_stringlike. pose proof (zlen_nonneg s).
  pose proof (zlen_encode_string s) as Hlen.
  destruct (add_size_run (U (zlen s)) (zlen s) 1) as [(-> & Hfit) | (Hf & Hbig)];
    [apply small_U; lia | lia | lia | |].
  - destruct (add_size_run (I (zlen s + 1)) (zlen s + 1) 4) as [(-> & Hfit2) | (Hf & Hbig)];
      [apply small_I; unfold is_i64; lia | lia | lia | |].
    + rewrite catch_ok, !u32_id by (unfold is_u32; lia).
      apply insert_with_ok; [|lia|lia]. apply writes_seq; [apply writes_32|].
      apply writes_seq; [by apply writes_copy | apply writes_put].
    + destruct (mlibMathPositiveInt32 _ (add (I _) _)) as [i z]. rewrite catch_failed by done.
      apply return_end_fails; [done | lia].
  - destruct (mlibMathPositiveInt32 _ _) as [i z].
    pose proof (pos32_sticky i (add (I z) (I 4)) Hf) as Hf2.
    destruct (mlibMathPositiveInt32 i _) as [i2 z2]. rewrite catch_failed by done.
    apply return_end_fails; [done | lia].
Qed.

Lemma insert_binary_ok sub data :
  zlen data <= INT32_MAX ->
  inserts (insert_binary d mut pos key sub data) d mut ctx X Y bson_type_binary k
    (le32 (zlen data) ++ [sub] ++ data).
Proof.
  intros Hs. unfold insert_binary. pose proof (zlen_nonneg data).
  assert (zlen (le32 (zlen data) ++ [sub] ++ data) = zlen data + 5) as Hlen
    by (rewrite !zlen_app, zlen_le32; change (zlen [sub]) with 1; lia).
  rewrite nonneg32_I by lia.
  destruct (add_size_run (I (zlen data)) (zlen data) 5) as [(-> & Hfit) | (Hf & Hbig)];
    [apply small_I; unfold is_i64; lia | lia | lia | |].
  - rewrite catch_ok, !u32_id by (unfold is_u32; lia). apply insert_with_ok; [|lia|lia].
    apply writes_seq; [apply writes_32|]. apply writes_seq; [apply writes_put | by apply writes_copy].
  - destruct (mlibMathPositiveInt32 _ _) as [i z]. rewrite catch_failed by done.
    apply return_end_fails; [done | lia].
Qed.

Lemma bytes_size_doc bs : is_doc bs -> bytes_size bs = Done (zlen bs).
Proof.
  intros Hd. unfold bytes_size. assert (bytes_at (mk_block 16 bs) 16 bs) as Hat.
  { exists [], []. rewrite app_nil_r. done. }
  apply is_doc_at in Hat as [_ Hat]; [|done]. by apply doc_at_size.
Qed.

Lemma insert_document_ok t bs :
  is_doc bs -> inserts (insert_document d mut pos t key (Some bs)) d mut ctx X Y t k bs.
Proof.
  intros Hd. unfold insert_document. rewrite bytes_size_doc by done. ostep.
  destruct Hd as (body & _ & Hmax). apply insert_with_ok; [by apply writes_copy | done | done].
Qed.

(** *** Regular expressions and database pointers *)

(** The characters of a view. *)
Definition viewed (s : option str_view) : list byte := match s with Some s => s | None => [] end.

Lemma writes_nothing : writes (fun d out => Done (d, out)) [].
Proof. intros d0 mut0 ctx0 P W Q Hf _. exists d0, W. rewrite app_nil_r, zlen_nil, Z.sub_0_r. by split_and!. Qed.

Lemma writes_view s : writes (fun d out => copy_in d out s (opt_len s)) (viewed s).
Proof.
  destruct s as [s|]; [by apply writes_copy|].
  apply (writes_store (fun a m => _bson_memcpy m a None 0)). intros a m Hb He. exists m. split; [done|].
  split; [|done..]. exists (take (Z.to_nat (a - b_base m)) (b_bytes m)), (drop (Z.to_nat (a - b_base m)) (b_bytes m)).
  change (viewed None) with (@nil byte) in *. rewrite zlen_nil in He. simpl. rewrite take_drop. split; [done|].
  unfold b_end, zlen in *. rewrite length_take. lia.
Qed.

Lemma view_chopped s : x00 ∉ viewed s -> chopnulls_opt s = viewed s.
Proof. destruct s as [s|]; [apply chopnulls_id|done]. Qed.

(** What an insertion of [bs] with [room] bytes behind it does. *)
Definition inserts_with_room (r : outcome (insert_result AS)) (t : Z) (bs : list byte) (room : Z) : Prop :=
  exists d' mut' it, r = Done (d', mut', it) /\
    (edit_fails d d' mut mut' it (2 + zlen k + (zlen bs + room)) \/
     (same_shape mut mut' /\ is_static d' = false /\
      it = mk_iterator (cursor mut' X) (zlen k) (1 + (2 + zlen k + (zlen bs + room)) + zlen Y) /\
      exists filler, zlen filler = room /\ mut_at d' mut' ctx (X ++ (elem_head t k ++ bs ++ filler) ++ Y))).

(** The region of a regular expression is three bytes too large: its size counts two terminators, and five more bytes. *)
Lemma insert_regex_ok rx opt :
  x00 ∉ viewed rx -> x00 ∉ viewed opt -> zlen (viewed rx) + zlen (viewed opt) <= object_limit ->
  inserts_with_room (insert_regex d mut pos key rx opt) bson_type_regex (cstring_pair (viewed rx) (viewed opt)) 3.
Proof.
  intros Hr Ho Hz. unfold insert_regex. rewrite !view_chopped by done.
  pose proof (zlen_nonneg (viewed rx)). pose proof (zlen_nonneg (viewed opt)).
  pose proof (zlen_cstring_pair (viewed rx) (viewed opt)) as Hlen.
  assert (small (add (U (zlen (viewed rx))) (add (U (zlen (viewed opt))) (I 5))) (zlen (viewed rx) + (zlen (viewed opt) + 5))) as (C & W & V).
  { apply small_add; [apply small_U; lia | apply small_add | unfold is_i64; lia];
      [apply small_U; lia | apply small_I; unfold is_i64; lia | unfold is_i64; lia]. }
  destruct (clean_bounds_ok 2 INT64_MAX (add (U (zlen (viewed rx))) (add (U (zlen (viewed opt))) (I 5)))) as [Cc Vc];
    [unfold is_i64; lia | unfold is_i64; lia | exact C | lia|]. fold (checkMin (I 2) (add (U (zlen (viewed rx))) (add (U (zlen (viewed opt))) (I 5)))) in Cc, Vc.
  destruct (nonneg32_run (checkMin (I 2) (add (U (zlen (viewed rx))) (add (U (zlen (viewed opt))) (I 5))))) as [(_ & Hfit & ->) | [Hf Hbig]].
  - rewrite Vc, V in Hfit |- *. rewrite catch_ok, u32_id by (unfold is_u32; lia).
    match goal with |- inserts_with_room (insert_with _ _ _ _ _ ?n ?fill) _ _ _ =>
      destruct (insert_with_room d mut ctx X Y pos bson_type_regex key n fill (cstring_pair (viewed rx) (viewed opt)) Hm Hpos Hkey)
        as (d' & mut' & it & E & Hcase) end; [|lia|lia|].
    + unfold cstring_pair. apply (writes_seq (fun d out => copy_in d out rx (opt_len rx))); [apply writes_view|].
      apply (writes_seq (fun d out => put d out [x00]) _ [x00]); [apply writes_put|].
      apply (writes_seq (fun d out => match opt with Some opt => copy_in d out (Some opt) (zlen opt) | None => Done (d, out) end)); [|apply writes_put].
      destruct opt as [opt|]; [apply (writes_view (Some opt))|apply writes_nothing].
    + exists d', mut', it. split; [exact E|]. fold k in Hcase. replace (zlen (viewed rx) + (zlen (viewed opt) + 5)) with (zlen (cstring_pair (viewed rx) (viewed opt)) + 3) in Hcase by lia.
      destruct Hcase as [?|(? & ? & ? & filler & Hfz & ?)]; [by left|right]. split_and!; try done. exists filler. split; [lia|done].
  - destruct (mlibMathNonNegativeInt32 _ _) as [i z]. rewrite catch_failed by done.
    pose proof (mut_end_at _ _ _ _ Hm) as Hend. unfold return_end. rewrite Hend. ostep.
    eexists _, _, _. split; [done|]. left. split_and!; [done..|].
    destruct (mut_root _ _ _ _ Hm) as (B' & cap & Hd & _). exists B', cap. split; [done|].
    pose proof (holds_cap _ _ _ Hd). pose proof (zlen_nonneg B'). pose proof (zlen_nonneg k).
    assert (~ (0 <= zlen (viewed rx) + (zlen (viewed opt) + 5) <= INT32_MAX)) by (intros ?; apply Hbig; split; [done|by rewrite Vc, V]). lia.
Qed.

Lemma strnlen_all l : forall r, x00 ∉ l -> strnlen_loop l r (r + zlen l) = Done (r + zlen l).
Proof.
  induction l as [|c l IH]; intros r Hn; cbn [strnlen_loop].
  - rewrite zlen_nil, Z.add_0_r. by rewrite Z.ltb_irrefl.
  - rewrite zlen_cons. pose proof (zlen_nonneg l). destruct (Z.ltb_spec r (r + (1 + zlen l))); [|lia].
    rewrite decide_False by set_solver. replace (r + (1 + zlen l)) with ((r + 1) + zlen l) by lia. apply IH. set_solver.
Qed.

Lemma insert_dbpointer_ok c o :
  x00 ∉ c -> zlen c <= object_limit -> zlen o = 12 ->
  inserts (insert_dbpointer d mut pos key c o) d mut ctx X Y bson_type_dbpointer k (encode_string c ++ o).
Proof.
  intros Hn Hs Ho. unfold insert_dbpointer. pose proof (zlen_nonneg c).
  assert (zlen (encode_string c ++ o) = zlen c + 17) as Hlen by (rewrite zlen_app, zlen_encode_string; lia).
  assert (_mlib_math_strnlen (mk_block 16 c) 16 (U (zlen c)) = Done (mk_mlib_integer (zlen c) mlib_integer_okay)) as ->.
  { destruct (small_U (zlen c) ltac:(lia)) as (C & _ & V). unfold _mlib_math_strnlen. unfold clean in C. rewrite C, V. cbn [negb Z.eqb].
    destruct (Z.ltb_spec (zlen c) 0); [lia|]. unfold bytes_from. cbn [b_base b_bytes]. rewrite Z.leb_refl, Z.sub_diag. simpl drop.
    pose proof (strnlen_all c 0 Hn) as E. rewrite !Z.add_0_l in E. change (negb (0 =? 0)) with false. cbv iota. change (drop (Z.to_nat 0) c) with c. by rewrite E. }
  ostep. assert (small (mk_mlib_integer (zlen c) mlib_integer_okay) (zlen c)) as Hsm.
  { split_and!; [done| |done]. unfold int_wf, is_i64. cbn [i64]. lia. }
  destruct (add_size_run _ (zlen c) 1 Hsm) as [(-> & Hfit) | (Hf & Hbig)]; [lia | lia | |].
  - assert (small (add (I (zlen c + 1)) (I (12 + 4))) (zlen c + 17)) as (C2 & _ & V2).
    { replace (zlen c + 17) with (zlen c + 1 + 16) by lia. apply small_add; [apply small_I; unfold is_i64; lia.. | unfold is_i64; lia]. }
    destruct (nonneg32_run (add (I (zlen c + 1)) (I (12 + 4)))) as [(_ & Hfit2 & ->) | [Hf Hbig]].
    + rewrite V2 in Hfit2 |- *. rewrite catch_ok, !u32_id by (unfold is_u32; lia).
      apply insert_with_ok; [|lia|lia]. unfold encode_string. rewrite <- !app_assoc.
      apply writes_seq; [apply writes_32|]. apply (writes_seq (fun d out => copy_in d out (Some c) (zlen c + 1 - 1))); [apply writes_copy; lia|].
      apply (writes_seq (fun d out => put d out [x00])); [apply writes_put|by apply writes_copy].
    + destruct (mlibMathNonNegativeInt32 _ _) as [i z]. rewrite catch_failed by done. apply return_end_fails; [done|].
      apply Znot_ge_lt. intros Hge. apply Hbig. split; [done|]. rewrite V2. lia.
  - destruct (mlibMathPositiveInt32 _ _) as [i z]. pose proof (nonneg32_sticky i (add (I z) (I (12 + 4))) Hf) as Hf2.
    destruct (mlibMathNonNegativeInt32 i _) as [i2 z2]. rewrite catch_failed by done. apply return_end_fails; [done|]. lia.
Qed.

(** Values that are inserted as their encoding; the regular expression is not
    (its region is three bytes too large). *)
Definition insertable (v : bson_value_ref) : Prop :=
  framed v /\ match v with v_regex _ _ => False | _ => True end.

Lemma insert_value_ok v :
  insertable v ->
  inserts (_bson_insert_value d mut pos key v) d mut ctx X Y (value_type v) k (encode_value v).
Proof.
  intros [Hv Hre].
  destruct v as [|bits|s|[doc|]|[doc|]|sub data| |o|b|z| |[rx|] [opt|]|c o|s|s| |z|ti ts|z|b| | |t];
    cbn [framed] in Hv; try done; cbn [_bson_insert_value value_type encode_value].
  - apply insert_with_ok; [by apply writes_64 | apply zlen_le64 | lia].
  - apply insert_stringlike_ok. lia.
  - by apply insert_document_ok.
  - by apply insert_document_ok.
  - by apply insert_binary_ok.
  - apply insert_unit_ok.
  - apply insert_with_ok; [by apply writes_copy | done | lia].
  - apply insert_with_ok; [apply (writes_put [if b then x01 else x00]) | done | lia].
  - apply insert_with_ok; [apply writes_64; apply u64_range | apply zlen_le64 | lia].
  - apply insert_unit_ok.
  - apply insert_stringlike_ok. lia.
  - apply insert_stringlike_ok. lia.
  - apply insert_with_ok; [apply writes_32 | apply zlen_le32 | lia].
  - apply insert_with_ok; [apply writes_seq; apply writes_32 | by rewrite zlen_app, !zlen_le32 | lia].
  - apply insert_with_ok; [apply writes_64; apply u64_range | apply zlen_le64 | lia].
  - apply insert_with_ok; [by apply writes_copy | done | lia].
  - apply insert_unit_ok.
  - apply insert_unit_ok.
Qed.
End At.
End Fill.
