(* ===== verification/MutRefine.v ===== *)
(** * The mutator refines the edits of a list of elements

    Insertion, deletion and renaming on the abstract document, for root and
    child mutators. *)
From Stdlib Require Import ZArith Lia.
From Stdlib Require Import Strings.Byte.
From stdpp Require Import base numbers list sets.
From S2P Require Import Prelude.
From S2P Require Import Integer.
From S2P Require Import Mem.
From S2P Require Import Types.
From S2P Require Import View.
From S2P Require Import Iterator.
From S2P Require Import IteratorSafe.
From S2P Require Import Codec.
From S2P Require Import Alloc.
From S2P Require Import Str.
From S2P Require Import Doc.
From S2P Require Import Mut.
From S2P Require Import MutSpec.
From S2P Require Import MutElem.
Import mlibMath.
Open Scope Z_scope.

Section Refine.
Context {AS : Type} {HA : Allocator AS} {HOK : AllocatorOk AS}.

(** The mutator edits a document with the elements [es]; [ctx] surrounds it. *)
Definition edits (d : bson_doc AS) (mut : bson_mut) (ctx : context) (es : list element) : Prop :=
  mut_at d mut ctx (encode_body es) /\ Forall elem_wf es.

(** The iterator at the position after [pre] in the edited document. *)
Definition at_pos (mut : bson_mut) (pre rest : list element) : bson_iterator :=
  iter_of (mut_data mut) (pre ++ rest) pre rest.

(** Nothing changed, and the end iterator is returned. *)
Definition unchanged (d d' : bson_doc AS) (mut mut' : bson_mut) (ctx : context)
  (es : list element) (it : bson_iterator) (extra : Z) : Prop :=
  edits d' mut' ctx es /\ mut' = mut /\ same_memory d d' /\ it = at_pos mut es [] /\ outgrows d extra.

Lemma edits_frame (d : bson_doc AS) mut ctx es :
  edits d mut ctx es -> bytes_at (doc_buf d) (mut_data mut) (encode_doc es) /\
    0 < b_base (doc_buf d) /\ doc_size es <= INT32_MAX.
Proof.
  intros [Hm _]. destruct (mut_at_bytes _ _ _ _ Hm) as (Hat & _ & Hmax).
  destruct (mut_root _ _ _ _ Hm) as (B & cap & Hd & _).
  split_and!; [exact Hat | by eapply holds_base_pos | unfold doc_size; lia].
Qed.

Lemma at_pos_ptr mut pre rest : _ptr (at_pos mut pre rest) = cursor mut (encode_body pre).
Proof.
  unfold at_pos, cursor, iter_of, doc_end, doc_size, elem_addr.
  destruct rest as [|[k v] rest]; simpl; [rewrite app_nil_r|]; lia.
Qed.

Lemma at_end_is mut es : at_pos mut es [] = mk_iterator (mut_data mut + 4 + zlen (encode_body es)) 0 1.
Proof. unfold at_pos, iter_of, doc_end, doc_size. rewrite app_nil_r. f_equal. lia. Qed.

Lemma fails_unchanged (d d' : bson_doc AS) mut mut' ctx es it extra :
  edits d mut ctx es -> edit_fails d d' mut mut' it extra ->
  unchanged d d' mut mut' ctx es it extra.
Proof.
  intros [Hm Hwf] (Hsm & -> & Hend & Hout). rewrite (mut_end_at _ _ _ _ Hm) in Hend.
  injection Hend as <-. split_and!; [|done|done|by rewrite at_end_is|done].
  split; [|done]. by eapply mut_at_same.
Qed.

Lemma encode_elem_head k v : encode_elem (k, v) = elem_head (value_type v) k ++ encode_value v.
Proof. unfold encode_elem, elem_head. simpl. by rewrite <- app_assoc. Qed.

(** ** Insertion *)

Lemma insert_edits (d : bson_doc AS) mut ctx pre rest pos key v :
  let k := _mlib_str_view_chopnulls key in
  edits d mut ctx (pre ++ rest) -> _ptr pos = cursor mut (encode_body pre) ->
  zlen key <= object_limit -> insertable v ->
  exists d' mut' it, _bson_insert_value d mut pos key v = Done (d', mut', it) /\
    (unchanged d d' mut mut' ctx (pre ++ rest) it (zlen (encode_elem (k, v))) \/
     (edits d' mut' ctx (pre ++ (k, v) :: rest) /\ same_shape mut mut' /\ is_static d' = false /\
      it = at_pos mut' pre ((k, v) :: rest))).
Proof.
  intros k He Hpos Hkey Hv. pose proof He as [Hm Hwf]. rewrite encode_body_app in Hm.
  destruct (insert_value_ok d mut ctx _ _ pos key Hm Hpos Hkey v Hv)
    as (d' & mut' & it & E & Hcase). fold k in Hcase. exists d', mut', it. split; [done|].
  rewrite zlen_encode_elem. destruct Hcase as [Hfail | (Hsh & Hs & -> & Hm')]; [left|right].
  - by apply fails_unchanged.
  - split; [split|].
    + rewrite encode_body_app, encode_body_cons, encode_elem_head. exact Hm'.
    + rewrite Forall_app, Forall_cons in *. destruct Hwf. split_and!; [done | | done].
      split; [apply chopnulls_no_nul | apply Hv].
    + split_and!; [done | done|]. unfold at_pos, iter_of, cursor, elem_addr, doc_end, doc_size.
      rewrite encode_body_app, encode_body_cons, !zlen_app, zlen_encode_elem. f_equal. lia.
Qed.

(** *** Every value

    What an insertion does with a value: the value is stored, the null view of a document or an array as the empty
    one; a regular expression and a database pointer are stored as bytes, with [room] bytes behind them; the end of a document and an unknown
    type are not inserted; code with scope stops the process. *)
Inductive insertion : Type :=
| ins_value (v : bson_value_ref)
| ins_bytes (bs : list byte) (room : Z)
| ins_nothing
| ins_stops.

Definition insertion_of (v : bson_value_ref) : insertion :=
  match v with
  | v_document None => ins_value (v_document (Some empty_doc_bytes))
  | v_array None => ins_value (v_array (Some empty_doc_bytes))
  | v_regex rx opt => ins_bytes (cstring_pair (viewed rx) (viewed opt)) 3
  | v_dbpointer c o => ins_bytes (encode_string c ++ o) 0
  | v_eod | v_unknown _ => ins_nothing
  | v_codewscope => ins_stops
  | _ => ins_value v
  end.

(** The values of the types: C strings without null characters, framed documents, numbers and strings whose size can be said. *)
Definition storable (v : bson_value_ref) : Prop :=
  match v with
  | v_document None | v_array None | v_eod | v_unknown _ | v_codewscope => True
  | v_regex rx opt => x00 ∉ viewed rx /\ x00 ∉ viewed opt /\ zlen (viewed rx) + zlen (viewed opt) <= object_limit
  | v_dbpointer c o => x00 ∉ c /\ zlen c <= object_limit /\ zlen o = 12
  | _ => framed v
  end.

(** The region of the value [v] that holds [bs] and [room] more bytes, between the elements [pre] and [rest]. *)
Definition with_bytes (d' : bson_doc AS) (mut' : bson_mut) (ctx : context) (pre rest : list element) (t : Z) (k bs : list byte) (room : Z) (it : bson_iterator) : Prop :=
  it = mk_iterator (cursor mut' (encode_body pre)) (zlen k) (1 + (2 + zlen k + (zlen bs + room)) + zlen (encode_body rest)) /\
  exists filler, zlen filler = room /\ mut_at d' mut' ctx (encode_body pre ++ (elem_head t k ++ bs ++ filler) ++ encode_body rest).

Lemma empty_doc_is_doc : is_doc empty_doc_bytes.
Proof. exists []. split; [vm_compute; reflexivity|vm_compute; discriminate]. Qed.

Lemma insert_bytes (d : bson_doc AS) mut ctx pre rest key t bs room r :
  let k := _mlib_str_view_chopnulls key in
  edits d mut ctx (pre ++ rest) ->
  inserts_with_room d mut ctx (encode_body pre) (encode_body rest) key r t bs room ->
  exists d' mut' it, r = Done (d', mut', it) /\
    (unchanged d d' mut mut' ctx (pre ++ rest) it (2 + zlen k + (zlen bs + room)) \/
     same_shape mut mut' /\ with_bytes d' mut' ctx pre rest t k bs room it).
Proof.
  intros k He (d' & mut' & it & E & Hcase). exists d', mut', it. split; [exact E|].
  destruct Hcase as [Hf|(Hsh & _ & -> & Hm')]; [left; by apply fails_unchanged|right]. by split.
Qed.

Lemma inserts_room (d : bson_doc AS) mut ctx X Y key t bs r :
  inserts r d mut ctx X Y t (_mlib_str_view_chopnulls key) bs -> inserts_with_room d mut ctx X Y key r t bs 0.
Proof.
  intros (d' & mut' & it & E & Hcase). exists d', mut', it. split; [exact E|]. rewrite Z.add_0_r.
  destruct Hcase as [?|(? & ? & ? & ?)]; [by left|right]. split_and!; [done..|]. exists []. by rewrite app_nil_r.
Qed.

Lemma insert_any (d : bson_doc AS) mut ctx pre rest pos key v :
  let k := _mlib_str_view_chopnulls key in
  edits d mut ctx (pre ++ rest) -> _ptr pos = cursor mut (encode_body pre) -> zlen key <= object_limit -> storable v ->
  match insertion_of v with
  | ins_nothing => _bson_insert_value d mut pos key v = Done (d, mut, pos)
  | ins_stops => _bson_insert_value d mut pos key v = Abort
  | ins_value w => exists d' mut' it, _bson_insert_value d mut pos key v = Done (d', mut', it) /\
      (unchanged d d' mut mut' ctx (pre ++ rest) it (zlen (encode_elem (k, w))) \/
       (edits d' mut' ctx (pre ++ (k, w) :: rest) /\ same_shape mut mut' /\ is_static d' = false /\ it = at_pos mut' pre ((k, w) :: rest)))
  | ins_bytes bs room => exists d' mut' it, _bson_insert_value d mut pos key v = Done (d', mut', it) /\
      (unchanged d d' mut mut' ctx (pre ++ rest) it (2 + zlen k + (zlen bs + room)) \/
       same_shape mut mut' /\ with_bytes d' mut' ctx pre rest (value_type v) k bs room it)
  end.
Proof.
  intros k He Hpos Hkey Hv. pose proof He as [Hm _]. rewrite encode_body_app in Hm.
  assert (forall w, insertable w -> _bson_insert_value d mut pos key v = _bson_insert_value d mut pos key w ->
    exists d' mut' it, _bson_insert_value d mut pos key v = Done (d', mut', it) /\
      (unchanged d d' mut mut' ctx (pre ++ rest) it (zlen (encode_elem (k, w))) \/
       (edits d' mut' ctx (pre ++ (k, w) :: rest) /\ same_shape mut mut' /\ is_static d' = false /\ it = at_pos mut' pre ((k, w) :: rest)))) as Hw.
  { intros w Hi ->. by apply insert_edits. }
  destruct v as [|bits|s|[doc|]|[doc|]|sub data| |o|b|z| |rx opt|c o|s|s| |z|ti ts|z|b| | |t]; cbn [storable insertion_of] in *; try done;
    try (apply Hw; [by split|done]).
  - apply Hw; [split; [apply empty_doc_is_doc|done]|done].
  - apply Hw; [split; [apply empty_doc_is_doc|done]|done].
  - destruct Hv as (Hr & Ho & Hz). by apply insert_bytes, insert_regex_ok.
  - destruct Hv as (Hc & Hz & Ho). apply insert_bytes; [done..|]. apply inserts_room. by apply insert_dbpointer_ok.
Qed.

(** ** Heap documents *)

Lemma edited_heap (d : bson_doc AS) mut ctx B : mut_at d mut ctx B -> B <> [] -> is_static d = false.
Proof.
  intros Hm HB. destruct (mut_root _ _ _ _ Hm) as (B' & cap & Hd & Hle).
  destruct (is_static d) eqn:Es; [|done]. destruct (static_empty _ _ _ Hd Es) as [-> _].
  destruct B; [done|]. rewrite zlen_cons, zlen_nil in Hle. pose proof (zlen_nonneg B). lia.
Qed.

Lemma encode_body_pos es : es <> [] -> 0 < zlen (encode_body es).
Proof.
  destruct es as [|[k v] es]; [done|]. intros _. rewrite encode_body_cons, zlen_app, zlen_encode_elem.
  pose proof (zlen_nonneg k). pose proof (zlen_nonneg (encode_value v)).
  pose proof (zlen_nonneg (encode_body es)). lia.
Qed.

(** ** Deletion *)

Lemma u32_len {A} (l : list A) : zlen l <= INT32_MAX -> u32 (zlen l) = zlen l.
Proof. intros. apply u32_id. pose proof (zlen_nonneg l). unfold is_u32. lia. Qed.

Lemma return_end_unchanged (d : bson_doc AS) mut ctx es extra :
  edits d mut ctx es -> INT32_MAX < 9 + zlen (encode_body es) + extra ->
  exists it, return_end d mut = Done (d, mut, it) /\ unchanged d d mut mut ctx es it extra.
Proof.
  intros He Hbig. pose proof He as [Hm _]. unfold return_end. rewrite (mut_end_at _ _ _ _ Hm). ostep.
  eexists. split; [done|]. split_and!; [done..| |].
  - by rewrite at_end_is.
  - destruct (mut_root _ _ _ _ Hm) as (B & cap & Hd & Hle). exists B, cap. split; [done|].
    pose proof (holds_cap _ _ _ Hd). lia.
Qed.

(** The new remaining length of the iterator of a splice. *)
Lemma rlen_run r c e :
  1 <= r <= INT32_MAX -> 0 <= c <= object_limit -> 0 <= e < r ->
  let r1 := mlibMathInt32 mlib_math_try (sub (I c) (I e)) in
  let r2 := mlibMathPositiveInt32 (fst r1) (add (I r) (I (snd r1))) in
  (r2 = (mlib_math_try, r + c - e) /\ r + c - e <= INT32_MAX) \/
  (failed (fst r2) /\ INT32_MAX < r + c - e).
Proof.
  intros Hr Hc Hd r1 r2. subst r1 r2.
  assert (small (sub (I c) (I e)) (c - e)) as (C1 & _ & V1).
  { apply small_sub; [apply small_I; unfold is_i64; lia.. | unfold is_i64; lia]. }
  destruct (int32_run (sub (I c) (I e))) as [(_ & Hr1 & ->) | [Hf Hno]]; cbn [fst snd].
  - rewrite V1 in Hr1 |- *. unfold is_i32 in Hr1.
    assert (small (add (I r) (I (c - e))) (r + (c - e))) as (C2 & _ & V2).
    { apply small_add; [apply small_I; unfold is_i64; lia.. | unfold is_i64; lia]. }
    destruct (pos32_run (add (I r) (I (c - e)))) as [(_ & Hr2 & ->) | [Hf2 Hno2]].
    + left. rewrite V2 in *. split; [f_equal; lia | lia].
    + right. split; [done|]. rewrite V2 in *. apply Znot_ge_lt. intros ?. apply Hno2. split; [done | lia].
  - right. split; [by apply pos32_sticky|]. apply Znot_ge_lt. intros ?. apply Hno.
    rewrite V1. split; [done | unfold is_i32; lia].
Qed.

Lemma at_pos_rlen mut pre rest : _rlen (at_pos mut pre rest) = zlen (encode_body rest) + 1.
Proof.
  unfold at_pos, iter_of, doc_end, doc_size, elem_addr. destruct rest as [|[k v] rest]; [done|].
  simpl _rlen. rewrite encode_body_app, zlen_app. lia.
Qed.

Lemma at_pos_split mut pre rest :
  at_pos mut pre rest = mk_iterator (cursor mut (encode_body pre)) (_keylen (at_pos mut pre rest))
    (zlen (encode_body rest) + 1).
Proof. rewrite <- (at_pos_ptr mut pre rest), <- (at_pos_rlen mut pre rest). by destruct (at_pos mut pre rest). Qed.

Lemma at_pos_keylen mut mut' pre pre' kv rest rest' :
  _keylen (at_pos mut pre (kv :: rest)) = _keylen (at_pos mut' pre' (kv :: rest')).
Proof. by destruct kv. Qed.

Lemma at_pos_keylen_rest mut mut' pre pre' rest :
  _keylen (at_pos mut pre rest) = _keylen (at_pos mut' pre' rest).
Proof. by destruct rest as [|[??]?]. Qed.

(** Replacing the elements [mid] by the elements [ins] of another document. *)
Lemma splice_edits (d : bson_doc AS) mut ctx pre mid rest src from_begin from_end ins :
  edits d mut ctx (pre ++ mid ++ rest) -> Forall elem_wf ins ->
  bytes_at src (_ptr from_begin) (encode_body ins) ->
  _ptr from_end = _ptr from_begin + zlen (encode_body ins) -> zlen (encode_body ins) <= object_limit ->
  match ins with [] => True | (k, _) :: _ => _keylen from_begin = zlen k end ->
  mid ++ ins <> [] ->
  exists d' mut' it,
    bson_splice_disjoint_ranges d mut (at_pos mut pre (mid ++ rest)) (at_pos mut (pre ++ mid) rest)
      src from_begin from_end = Done (d', mut', it) /\
    (unchanged d d' mut mut' ctx (pre ++ mid ++ rest) it
       (zlen (encode_body ins) - zlen (encode_body mid)) \/
     (edits d' mut' ctx (pre ++ ins ++ rest) /\ same_shape mut mut' /\ is_static d' = false /\
      it = at_pos mut' pre (ins ++ rest))).
Proof.
  intros He Hins Hsrc Hend Hlim Hkl Hne. pose proof He as [Hm Hwf].
  unfold bson_splice_disjoint_ranges, bson_iterator_data.
  rewrite Hend, !at_pos_ptr, at_pos_rlen. unfold cursor. rewrite !encode_body_app, !zlen_app in *.
  set (I' := encode_body ins) in *. set (D' := encode_body mid) in *.
  set (X := encode_body pre) in *. set (Y := encode_body rest) in *.
  pose proof (zlen_nonneg I'). pose proof (zlen_nonneg D'). pose proof (zlen_nonneg X).
  pose proof (zlen_nonneg Y).
  destruct (mut_at_bytes _ _ _ _ Hm) as (_ & _ & Hmax). rewrite !zlen_app in Hmax.
  replace (_ptr from_begin + zlen I' - _ptr from_begin) with (zlen I') by lia.
  replace (mut_data mut + 4 + (zlen X + zlen D') - (mut_data mut + 4 + zlen X)) with (zlen D') by lia.
  destruct (Z.leb_spec 0 (zlen I')); [|lia]. destruct (Z.leb_spec 0 (zlen D')); [|lia].
  pose proof (rlen_run (zlen D' + zlen Y + 1) (zlen I') (zlen D') ltac:(lia) ltac:(lia) ltac:(lia)) as Hr.
  destruct (mlibMathInt32 mlib_math_try (sub (I (zlen I')) (I (zlen D')))) as [i1 sd].
  cbn [fst snd] in Hr.
  destruct (mlibMathPositiveInt32 i1 (add (I (zlen D' + zlen Y + 1)) (I sd))) as [i2 nr].
  cbn [fst snd] in Hr. destruct Hr as [([= -> ->] & Hfit) | (Hf & Hbig)].
  2:{ rewrite catch_failed by done.
      destruct (return_end_unchanged d mut ctx _ (zlen I' - zlen D') He) as (it & -> & Hun).
      { rewrite !encode_body_app, !zlen_app. fold X Y D'. lia. }
      eexists _, _, _. split; [done|]. by left. }
  rewrite catch_ok, !u32_len by lia. rewrite (rd_range_at src _ I' Hsrc). ostep.
  assert (_bson_mut_data_at mut (at_pos mut pre (mid ++ rest)) = mut_data mut + 4 + zlen X) as ->
    by (unfold _bson_mut_data_at, bson_iterator_data; rewrite at_pos_ptr; unfold cursor; fold X; lia).
  assert (is_static d = true -> 0 < zlen I') as Hst.
  { intros Hs. destruct mid as [|kv mid]; [by apply encode_body_pos|].
    rewrite (edited_heap d mut ctx _ Hm) in Hs; [done|]. pose proof (encode_body_pos (kv :: mid) ltac:(done)) as Hp.
    fold D' in Hp. intros E. apply (f_equal zlen) in E. rewrite !zlen_app, zlen_nil in E. lia. }
  destruct (splice_spec mut d ctx X D' Y (zlen I') (Some I') Hm)
    as (d2 & mut2 & p & -> & [(-> & Hsm & -> & Hout) | (-> & Hnz & Hsh & Hs2 & Hm2)]);
    [split; [lia | done] | done | |]; ostep.
  - assert (unchanged d d2 mut mut ctx (pre ++ mid ++ rest) (at_pos mut (pre ++ mid ++ rest) [])
              (zlen I' - zlen D')) as Hun.
    { split_and!; try done. split; [|done]. rewrite !encode_body_app. by eapply mut_at_same. }
    unfold return_end. rewrite (same_memory_end d), (mut_end_at _ _ _ _ Hm) by done. ostep.
    eexists _, _, _. split; [done|]. left. rewrite at_end_is in Hun.
    by rewrite !encode_body_app in Hun.
  - destruct (Z.eqb_spec (mut_data mut2 + 4 + zlen X) 0); [done|]. eexists _, _, _. split; [done|]. right.
    rewrite !Forall_app in Hwf. split_and!; [split|done|done|].
    + rewrite !encode_body_app. exact Hm2.
    + rewrite !Forall_app. by destruct Hwf as (? & ? & ?).
    + rewrite (at_pos_split mut2 pre (ins ++ rest)). unfold cursor. fold X.
      rewrite encode_body_app, zlen_app. fold I' Y. f_equal; [|lia].
      destruct ins as [|[k v] ins]; [apply at_pos_keylen_rest|].
      pose proof (encode_body_pos ((k, v) :: ins) ltac:(done)) as Hp. fold I' in Hp.
      destruct (Z.eqb_spec (zlen I') 0); [lia | done].
Qed.

(** ** Renaming *)

Lemma edits_key (d : bson_doc AS) mut ctx pre k v rest :
  edits d mut ctx (pre ++ (k, v) :: rest) ->
  bson_key (doc_buf d) (at_pos mut pre ((k, v) :: rest)) = Done k.
Proof.
  intros He. destruct (edits_frame _ _ _ _ He) as (Hat & Hb & Hmax).
  by destruct (element_access (doc_buf d) (mut_data mut) _ Hb Hat (proj2 He) Hmax pre k v rest eq_refl) as (? & _).
Qed.

Lemma add_run r c :
  1 <= r <= INT32_MAX -> - r < c <= object_limit ->
  let r1 := mlibMathPositiveInt32 mlib_math_try (add (I r) (I c)) in
  (r1 = (mlib_math_try, r + c) /\ r + c <= INT32_MAX) \/ (failed (fst r1) /\ INT32_MAX < r + c).
Proof.
  intros Hr Hc r1. subst r1.
  assert (small (add (I r) (I c)) (r + c)) as (C & _ & V)
    by (apply small_add; [apply small_I; unfold is_i64; lia.. | unfold is_i64; lia]).
  destruct (pos32_run (add (I r) (I c))) as [(_ & Hp & ->) | [Hf Hno]].
  - left. rewrite V in *. split; [done | lia].
  - right. split; [done|]. rewrite V in Hno. apply Znot_ge_lt. intros ?. apply Hno. split; [done | lia].
Qed.

Lemma elem_key_split k v Y :
  encode_elem (k, v) ++ Y = [z2b (value_type v)] ++ k ++ ([x00] ++ encode_value v ++ Y).
Proof. unfold encode_elem. simpl. by rewrite <- !app_assoc. Qed.

Lemma set_key_edits (d : bson_doc AS) mut ctx pre k v rest newkey :
  let nk := _mlib_str_view_chopnulls newkey in
  edits d mut ctx (pre ++ (k, v) :: rest) -> zlen newkey <= object_limit ->
  exists d' mut' it, _bson_set_key d mut (at_pos mut pre ((k, v) :: rest)) newkey = Done (d', mut', it) /\
    (unchanged d d' mut mut' ctx (pre ++ (k, v) :: rest) it (zlen nk - zlen k) \/
     (edits d' mut' ctx (pre ++ (nk, v) :: rest) /\ same_shape mut mut' /\
      it = at_pos mut' pre ((nk, v) :: rest))).
Proof.
  intros nk He Hlim. pose proof He as [Hm Hwf]. unfold _bson_set_key. fold nk.
  pose proof (chopnulls_len newkey) as Hnk. fold nk in Hnk. pose proof (zlen_nonneg nk).
  assert (zlen (encode_body ((k, v) :: rest)) = 2 + zlen k + zlen (encode_value v) + zlen (encode_body rest))
    as Hlen by (rewrite encode_body_cons, zlen_app, zlen_encode_elem; lia).
  pose proof (zlen_nonneg k). pose proof (zlen_nonneg (encode_value v)).
  pose proof (zlen_nonneg (encode_body rest)). pose proof (zlen_nonneg (encode_body pre)).
  destruct (mut_at_bytes _ _ _ _ Hm) as (_ & Hpos & Hmax). rewrite encode_body_app, zlen_app in Hmax.
  assert (bson_stop (at_pos mut pre ((k, v) :: rest)) = false) as ->
    by (unfold bson_stop; rewrite at_pos_rlen; destruct (Z.leb_spec (zlen (encode_body ((k, v) :: rest)) + 1) 1); [lia | done]).
  cbn [negb]. cbv iota. rewrite (edits_key _ _ _ _ _ _ _ He), at_pos_rlen. ostep.
  pose proof (add_run (zlen (encode_body ((k, v) :: rest)) + 1) (zlen nk - zlen k) ltac:(lia) ltac:(lia)) as Hr.
  destruct (mlibMathPositiveInt32 _ _) as [i nr]. cbn [fst] in Hr.
  destruct Hr as [([= -> ->] & Hfit) | (Hf & Hbig)].
  2:{ rewrite catch_failed by done.
      destruct (return_end_unchanged d mut ctx _ (zlen nk - zlen k) He) as (it & -> & Hun).
      { rewrite encode_body_app, zlen_app. lia. }
      eexists _, _, _. split; [done|]. by left. }
  rewrite catch_ok. unfold _bson_mut_data_at, bson_iterator_data. rewrite at_pos_ptr. unfold cursor.
  destruct (Z.ltb_spec 0 (mut_data mut + 4 + zlen (encode_body pre) - mut_data mut)); [|lia].
  replace (mut_data mut + (mut_data mut + 4 + zlen (encode_body pre) - mut_data mut) + 1)
    with (mut_data mut + 4 + zlen (encode_body pre ++ [z2b (value_type v)]))
    by (rewrite zlen_app; change (zlen [z2b (value_type v)]) with 1; lia).
  rewrite encode_body_app, encode_body_cons, elem_key_split, app_assoc in Hm.
  destruct (splice_spec mut d ctx _ k _ (zlen nk) (Some nk) Hm)
    as (d2 & mut2 & p & -> & [(-> & Hsm & -> & Hout) | (-> & Hnz & Hsh & Hs2 & Hm2)]); [split; [lia | done]| | |]; ostep.
  - intros Hs. by rewrite (edited_heap d mut ctx _ Hm) in Hs by (by destruct (encode_body pre)).
  - unfold return_end. rewrite (same_memory_end d), (mut_end_at _ _ _ _ (proj1 He)) by done. ostep.
    eexists _, _, _. split; [done|]. left. split_and!; try done; [|by rewrite at_end_is].
    split; [|done]. eapply mut_at_same; [done | apply He].
  - set (p := mut_data mut2 + 4 + _) in *. destruct (Z.eqb_spec p 0); [done|].
    eexists _, _, _. split; [done|]. right. split; [split|split; [done|]].
    + rewrite encode_body_app, encode_body_cons, elem_key_split, app_assoc. exact Hm2.
    + rewrite Forall_app, Forall_cons in *. destruct Hwf as (? & [_ ?] & ?).
      split_and!; [done | split; [apply chopnulls_no_nul | done] | done].
    + rewrite (at_pos_split mut2 pre ((nk, v) :: rest)). unfold cursor.
      rewrite (encode_body_cons (nk, v)), (zlen_app (encode_elem (nk, v))), zlen_encode_elem, Hlen.
      rewrite s32_id by (unfold is_i32; lia). f_equal; (done || lia).
Qed.

(** ** Children *)

(** A document or array element. *)
Definition subdoc (arr : bool) (es : list element) : bson_value_ref :=
  if arr then v_array (Some (encode_doc es)) else v_document (Some (encode_doc es)).

(** The context that the parent document [pre ++ (k, _) :: rest] adds. *)
Definition layer (pre : list element) (k : list byte) (arr : bool) (rest : list element)
  : list byte * list byte :=
  (encode_body pre ++ elem_head (value_type (subdoc arr [])) k, encode_body rest).

Lemma layer_body pre k arr rest es :
  encode_body (pre ++ (k, subdoc arr es) :: rest) =
  fst (layer pre k arr rest) ++ frame (encode_body es) ++ snd (layer pre k arr rest).
Proof.
  rewrite encode_body_app, encode_body_cons, encode_elem_head. unfold layer. cbn [fst snd].
  rewrite <- !app_assoc. by destruct arr.
Qed.

Lemma subdoc_type arr es : value_type (subdoc arr es) = value_type (subdoc arr []).
Proof. by destruct arr. Qed.

Lemma type_at (d : bson_doc AS) mut ctx pre k v rest :
  edits d mut ctx (pre ++ (k, v) :: rest) ->
  bson_iterator_type (doc_buf d) (at_pos mut pre ((k, v) :: rest)) = Done (value_type v).
Proof.
  intros He. destruct (edits_frame _ _ _ _ He) as (Hat & Hb & Hmax).
  destruct (doc_split (doc_buf d) (mut_data mut) _ Hat (proj2 He) Hmax pre (k, v) rest eq_refl) as (Hel & _ & _).
  unfold bson_iterator_type. rewrite at_pos_rlen, at_pos_ptr.
  pose proof (encode_body_pos ((k, v) :: rest) ltac:(done)).
  destruct (Z.ltb_spec 0 (zlen (encode_body ((k, v) :: rest)) + 1)); [|lia].
  unfold encode_elem in Hel. apply bytes_at_cons in Hel as [Hel _]. change (cursor mut (encode_body pre)) with (elem_addr (mut_data mut) pre).
  rewrite (rd8_at _ _ _ Hel). ostep. simpl. f_equal. apply value_type_byte.
  destruct He as [_ Hwf]. rewrite Forall_app, Forall_cons in Hwf. by destruct Hwf as (_ & [_ ?] & _).
Qed.

(** Entering a subdocument. *)
Lemma child_edits (d : bson_doc AS) mut ctx pre k arr es rest :
  edits d mut ctx (pre ++ (k, subdoc arr es) :: rest) -> Forall elem_wf es ->
  let c := Child (cursor mut (encode_body pre) + 2 + zlen k) mut (4 + zlen (encode_body pre)) in
  bson_mut_child d mut (at_pos mut pre ((k, subdoc arr es) :: rest)) = Done c /\
  edits d c (layer pre k arr rest :: ctx) es.
Proof.
  intros He Hes c. unfold bson_mut_child. rewrite (type_at _ _ _ _ _ _ _ He). ostep.
  assert (negb (value_type (subdoc arr es) =? bson_type_document) &&
          negb (value_type (subdoc arr es) =? bson_type_array) = false) as -> by (by destruct arr).
  unfold bson_iterator_data. rewrite at_pos_ptr.
  change (_keylen (at_pos mut pre ((k, subdoc arr es) :: rest))) with (zlen k).
  replace (cursor mut (encode_body pre) - mut_data mut) with (4 + zlen (encode_body pre))
    by (unfold cursor; lia).
  pose proof He as [Hm _]. destruct (mut_at_bytes _ _ _ _ Hm) as (_ & _ & Hmax).
  rewrite encode_body_app, zlen_app in Hmax. pose proof (zlen_nonneg (encode_body pre)).
  pose proof (zlen_nonneg (encode_body ((k, subdoc arr es) :: rest))).
  rewrite u32_id by (unfold is_u32; lia).
  destruct (Z.eqb_spec (4 + zlen (encode_body pre)) 0); [lia|].
  split; [subst c; unfold cursor; do 2 f_equal; lia|]. split; [|done]. subst c. simpl. split; [lia|].
  split; [rewrite zlen_app, zlen_elem_head; unfold cursor; lia|].
  rewrite layer_body in Hm. exact Hm.
Qed.

(** The way back: the iterator of the child's element in the parent. *)
Lemma parent_iterator_at (d : bson_doc AS) data parent ctx pre k arr es rest :
  edits d (Child data parent (4 + zlen (encode_body pre))) (layer pre k arr rest :: ctx) es ->
  bson_mut_parent_iterator d (Child data parent (4 + zlen (encode_body pre))) =
  Done (at_pos parent pre ((k, subdoc arr es) :: rest)).
Proof.
  intros [Hm _]. simpl in Hm. destruct Hm as (Hoff & -> & Hp). cbn [bson_mut_parent_iterator].
  change (mut_at d parent ctx (fst (layer pre k arr rest) ++ frame (encode_body es) ++
    snd (layer pre k arr rest))) in Hp. rewrite <- layer_body in Hp.
  destruct (mut_at_bytes _ _ _ _ Hp) as (Hat & Hpos & Hmax). rewrite zlen_app, zlen_elem_head.
  rewrite encode_body_app, zlen_app in Hmax. pose proof (zlen_nonneg (encode_body pre)).
  assert (zlen (encode_body ((k, subdoc arr es) :: rest)) =
          2 + zlen k + zlen (encode_value (subdoc arr es)) + zlen (encode_body rest)) as Hl
    by (rewrite encode_body_cons, zlen_app, zlen_encode_elem; lia).
  pose proof (zlen_nonneg k). pose proof (zlen_nonneg (encode_value (subdoc arr es))).
  pose proof (zlen_nonneg (encode_body rest)).
  assert (small (sub (I (mut_data parent + 4 + (zlen (encode_body pre) + (2 + zlen k))
      - (mut_data parent + (4 + zlen (encode_body pre))))) (I 2)) (2 + zlen k - 2)) as (C & _ & V).
  { replace (_ - (mut_data parent + _)) with (2 + zlen k) by lia.
    apply small_sub; [apply small_I; unfold is_i64; lia.. | unfold is_i64; lia]. }
  rewrite (assert_clean _ _ C). ostep.
  destruct (frame_size (doc_buf d) (mut_data parent) _ Hpos Hat) as [-> _];
    [rewrite encode_body_app, zlen_app; lia|]. ostep.
  rewrite (at_pos_split parent pre). unfold cursor. rewrite V.
  rewrite encode_body_app, zlen_app, !s32_id by (unfold is_i32; lia).
  change (_keylen (at_pos parent pre ((k, subdoc arr es) :: rest))) with (zlen k). do 2 f_equal; lia.
Qed.

(** ** Capacities *)

Lemma capacity_at (d : bson_doc AS) mut : forall ctx B B0 cap,
  mut_at d mut ctx B -> doc_holds d B0 cap ->
  bson_mut_capacity d mut = Done (cap - (5 + zlen B0) + (5 + zlen B)) /\ zlen B <= zlen B0.
Proof.
  induction mut as [data | data parent IH off |]; intros [|[L R] ctx] B B0 cap Hm Hd; try done.
  - destruct Hm as (_ & cap' & Hd'). simpl. rewrite (holds_capacity _ _ _ Hd).
    pose proof (holds_size _ _ _ Hd) as [E _]. pose proof (holds_size _ _ _ Hd') as [E' _].
    rewrite E in E'. injection E' as E'. split; [f_equal|]; lia.
  - pose proof (mut_ssize_at _ _ _ _ Hm) as Hsz. destruct (mut_at_bytes _ _ _ _ Hm) as (_ & _ & Hmax).
    cbn [bson_mut_capacity]. rewrite Hsz. simpl in Hm. destruct Hm as (Hoff & _ & Hp).
    rewrite (mut_ssize_at _ _ _ _ Hp). ostep.
    destruct (IH ctx _ B0 cap Hp Hd) as [-> Hle]. ostep. rewrite !zlen_app, zlen_frame in *.
    pose proof (zlen_nonneg L). pose proof (zlen_nonneg R). pose proof (zlen_nonneg B).
    pose proof (holds_room _ _ _ Hd). pose proof (holds_cap _ _ _ Hd).
    set (ps := 5 + (zlen L + (5 + zlen B + zlen R))) in *. set (s := 5 + zlen B) in *.
    set (pc := cap - (5 + zlen B0) + ps) in *. split; [|lia].
    assert (small (neg (I off)) (0 - off)) as S1
      by (apply small_sub; [apply small_I; unfold is_i64; lia.. | unfold is_i64; lia]).
    assert (small (sub (sub (I ps) (neg (I off))) (I s)) (ps - (0 - off) - s)) as S2.
    { apply small_sub; [apply small_sub | apply small_I; unfold is_i64; lia | unfold is_i64; lia];
        [apply small_I; unfold is_i64; lia | done | unfold is_i64; lia]. }
    assert (small (sub (I pc) (add (neg (I off)) (sub (sub (I ps) (neg (I off))) (I s))))
                  (pc - (0 - off + (ps - (0 - off) - s)))) as (C & _ & V).
    { apply small_sub; [apply small_I; unfold is_i64; lia | by apply small_add; [..|unfold is_i64; lia]
                       | unfold is_i64; lia]. }
    destruct (clean_bounds_ok 0 INT32_MAX _ ltac:(unfold is_i64; lia) ltac:(unfold is_i64; lia) C ltac:(lia))
      as [Cb Vb].
    unfold checkNonNegativeInt32. rewrite (assert_clean _ _ Cb). ostep.
    rewrite Vb, V, u32_id by (unfold is_u32; lia). f_equal. lia.
Qed.

(** Leaving it: the parent holds the edited subdocument. *)
Lemma parent_edits (d : bson_doc AS) data parent off ctx pre k arr es rest :
  edits d (Child data parent off) (layer pre k arr rest :: ctx) es ->
  Forall elem_wf pre -> x00 ∉ k -> Forall elem_wf rest ->
  edits d parent ctx (pre ++ (k, subdoc arr es) :: rest).
Proof.
  intros He Hpre Hk Hrest. destruct (edits_frame _ _ _ _ He) as (_ & _ & Hmax).
  destruct He as [Hm _]. simpl in Hm. destruct Hm as (_ & _ & Hp). split.
  - rewrite layer_body. exact Hp.
  - rewrite Forall_app, Forall_cons. split_and!; [done | | done]. split; [done|].
    destruct arr; by apply encode_doc_is_doc.
Qed.
End Refine.

(** ** Claims *)

Section Claims.
Context {AS : Type} {HA : Allocator AS} {HOK : AllocatorOk AS}.

(** C1. Insertion of a value of any type at an element position, through a mutator of any depth and with any allocator, touches
    no memory outside the document.  A value is inserted as list insertion: the document has the element at
    that position (the key cut at its first null), the null view of a document or an array as the empty one, and the iterator of the new
    element is returned.  A database pointer is inserted as its bytes; a regular expression as its bytes and three more, which are no element
    ([regex_insert_corrupts]).  When there is no room for it in the document, nothing changes and the end iterator is returned.  Code with scope
    stops the process, and the end of a document and an unknown type are not inserted ([insertion_of]). *)
Theorem insert_refines (d : bson_doc AS) mut ctx pre rest key v :
  let k := _mlib_str_view_chopnulls key in
  edits d mut ctx (pre ++ rest) -> zlen key <= object_limit -> storable v ->
  let r := _bson_insert_value d mut (at_pos mut pre rest) key v in
  match insertion_of v with
  | ins_value w => exists d' mut' it, r = Done (d', mut', it) /\
      (unchanged d d' mut mut' ctx (pre ++ rest) it (zlen (encode_elem (k, w))) \/
       (edits d' mut' ctx (pre ++ (k, w) :: rest) /\ it = at_pos mut' pre ((k, w) :: rest)))
  | ins_bytes bs room => exists d' mut' it, r = Done (d', mut', it) /\
      (unchanged d d' mut mut' ctx (pre ++ rest) it (2 + zlen k + (zlen bs + room)) \/
       with_bytes d' mut' ctx pre rest (value_type v) k bs room it)
  | ins_nothing => r = Done (d, mut, at_pos mut pre rest)
  | ins_stops => r = Abort
  end.
Proof.
  intros k He Hkey Hv r. pose proof (insert_any d mut ctx pre rest (at_pos mut pre rest) key v He (at_pos_ptr _ _ _) Hkey Hv) as Hi.
  destruct (insertion_of v); [| |done..]; destruct Hi as (d' & mut' & it & E & Hcase); exists d', mut', it; (split; [exact E|]).
  - destruct Hcase as [Hun | (He' & _ & _ & Hit)]; auto.
  - destruct Hcase as [Hun | (_ & Hb)]; auto.
Qed.

(** C14. Erasing refines list deletion, and never fails: erasing a non-empty
    range leaves exactly the elements around it and returns the iterator of
    the first element after the range. *)
Theorem erase_refines (d : bson_doc AS) mut ctx pre mid rest :
  edits d mut ctx (pre ++ mid ++ rest) -> mid <> [] ->
  exists d' mut', bson_erase_range d mut (at_pos mut pre (mid ++ rest)) (at_pos mut (pre ++ mid) rest)
      = Done (d', mut', at_pos mut' pre rest) /\
    edits d' mut' ctx (pre ++ rest).
Proof.
  intros He Hmid. unfold bson_erase_range.
  pose proof (zlen_nonneg (encode_body mid)). pose proof He as [Hm _].
  assert (bytes_at (doc_buf d) (_ptr (at_pos mut (pre ++ mid) rest)) (encode_body [])) as Hsrc.
  { rewrite at_pos_ptr. unfold cursor. rewrite app_assoc, encode_body_app in Hm.
    destruct (mut_at_bytes _ _ _ _ Hm) as (Hat & _). unfold frame in Hat. rewrite <- app_assoc in Hat.
    apply bytes_at_app in Hat as [_ Hat]. rewrite zlen_le32 in Hat.
    apply bytes_at_app in Hat as [_ Hat]. by apply (bytes_at_app_l _ _ [] (encode_body rest ++ [x00])). }
  destruct (splice_edits d mut ctx pre mid rest (doc_buf d) (at_pos mut (pre ++ mid) rest)
              (at_pos mut (pre ++ mid) rest) [] He (Forall_nil_2 _) Hsrc)
    as (d' & mut' & it & E & [(_ & _ & _ & _ & Hout) | (He' & _ & _ & ->)]); try done.
  - change (zlen (encode_body [])) with 0. lia.
  - by rewrite app_nil_r.
  - destruct Hout as (B & cap & Hd & Hlt & _). pose proof (holds_room _ _ _ Hd).
    change (zlen (encode_body [])) with 0 in Hlt. lia.
  - eauto.
Qed.

(** Renaming: [bson_set_key] replaces the key of exactly the element at the
    iterator, and keeps its value and all other elements; or nothing changes
    for lack of room. *)
Theorem set_key_refines (d : bson_doc AS) mut ctx pre k v rest newkey :
  let nk := _mlib_str_view_chopnulls newkey in
  edits d mut ctx (pre ++ (k, v) :: rest) -> zlen newkey <= object_limit ->
  exists d' mut' it, _bson_set_key d mut (at_pos mut pre ((k, v) :: rest)) newkey = Done (d', mut', it) /\
    (unchanged d d' mut mut' ctx (pre ++ (k, v) :: rest) it (zlen nk - zlen k) \/
     (edits d' mut' ctx (pre ++ (nk, v) :: rest) /\ it = at_pos mut' pre ((nk, v) :: rest))).
Proof.
  intros nk He Hlim. destruct (set_key_edits d mut ctx pre k v rest newkey He Hlim)
    as (d' & mut' & it & E & [Hun | (He' & _ & Hit)]); eauto 8.
Qed.

(** C15. Children: entering a subdocument and inserting a value of any type through the child mutator
    updates the subdocument inside the parent, headers of all levels included, as the insertion into a document does ([insertion_of]: the bytes
    of a regular expression are followed by three more, code with scope stops the process);
    the parent mutator inside the child refers to the updated document. *)
Theorem child_insert_refines (d : bson_doc AS) mut ctx pre k arr cpre crest rest key v :
  let ck := _mlib_str_view_chopnulls key in
  edits d mut ctx (pre ++ (k, subdoc arr (cpre ++ crest)) :: rest) ->
  Forall elem_wf (cpre ++ crest) -> zlen key <= object_limit -> storable v ->
  exists c, bson_mut_child d mut (at_pos mut pre ((k, subdoc arr (cpre ++ crest)) :: rest)) = Done c /\
  let r := _bson_insert_value d c (at_pos c cpre crest) key v in
  let stays d' c' it extra := unchanged d d' c c' (layer pre k arr rest :: ctx) (cpre ++ crest) it extra in
  match insertion_of v with
  | ins_value w => exists d' c' it, r = Done (d', c', it) /\
     (stays d' c' it (zlen (encode_elem (ck, w))) \/
      exists data parent off, c' = Child data parent off /\
       edits d' parent ctx (pre ++ (k, subdoc arr (cpre ++ (ck, w) :: crest)) :: rest) /\
       bson_mut_parent_iterator d' c' =
         Done (at_pos parent pre ((k, subdoc arr (cpre ++ (ck, w) :: crest)) :: rest)))
  | ins_bytes bs room => exists d' c' it, r = Done (d', c', it) /\
     (stays d' c' it (2 + zlen ck + (zlen bs + room)) \/
      exists data parent off filler, c' = Child data parent off /\ zlen filler = room /\
       mut_at d' parent ctx ((encode_body pre ++ elem_head (value_type (subdoc arr [])) k) ++
         frame (encode_body cpre ++ (elem_head (value_type v) ck ++ bs ++ filler) ++ encode_body crest) ++ encode_body rest))
  | ins_nothing => r = Done (d, c, at_pos c cpre crest)
  | ins_stops => r = Abort
  end.
Proof.
  intros ck He Hes Hkey Hv. destruct (child_edits d mut ctx pre k arr _ rest He Hes) as [Hc Hce].
  eexists. split; [exact Hc|]. set (c := Child _ _ _) in *.
  pose proof (insert_any d c _ cpre crest (at_pos c cpre crest) key v Hce (at_pos_ptr _ _ _) Hkey Hv) as Hi. cbv zeta.
  pose proof He as [_ Hwf]. rewrite Forall_app, Forall_cons in Hwf. destruct Hwf as (? & [? _] & ?).
  destruct (insertion_of v) as [w|bs room| |]; [| |exact Hi..]; destruct Hi as (d' & c' & it & E & Hcase); exists d', c', it; (split; [exact E|]).
  - destruct Hcase as [Hun | (He' & Hsh & _ & _)]; [by left|right].
    subst c. destruct c' as [|data parent off|]; simpl in Hsh; try done. destruct Hsh as (<- & _ & _).
    exists data, parent, (4 + zlen (encode_body pre)). split; [done|].
    split; [by eapply parent_edits | by eapply parent_iterator_at].
  - destruct Hcase as [Hun | (Hsh & _ & filler & Hz & Hm)]; [by left|right].
    subst c. destruct c' as [|data parent off|]; simpl in Hsh; try done. destruct Hsh as (<- & _ & _).
    exists data, parent, (4 + zlen (encode_body pre)), filler. split_and!; [done|done|]. simpl in Hm. by destruct Hm as (_ & _ & Hm).
Qed.

(** A document under edit reads back as its elements, through the iterator
    loop. *)
Theorem edits_read (d : bson_doc AS) mut ctx es :
  edits d mut ctx es -> Forall (fun kv => readable (snd kv)) es ->
  read_elements (S (length es)) (doc_buf d) (mut_data mut) = Done (Some es).
Proof.
  intros He Hr. destruct (edits_frame _ _ _ _ He) as (Hat & Hb & Hmax).
  apply read_loop; try done; [apply He | lia].
Qed.

(** The capacity of a child is what its document could grow to before the
    root outgrows its buffer. *)
Theorem child_capacity (d : bson_doc AS) mut ctx B B0 cap :
  mut_at d mut ctx B -> doc_holds d B0 cap ->
  bson_mut_capacity d mut = Done (cap - (5 + zlen B0) + (5 + zlen B)).
Proof. intros Hm Hd. by apply (capacity_at d mut ctx B B0 cap). Qed.

(** [bson::mutator::emplace] throws [std::bad_alloc] exactly when the insertion
    failed for lack of room, and then the document is unchanged; otherwise it
    returns the iterator of the new element. *)
Theorem emplace_refines (d : bson_doc AS) mut ctx pre rest key v :
  let k := _mlib_str_view_chopnulls key in
  edits d mut ctx (pre ++ rest) -> zlen key <= object_limit -> insertable v ->
  exists d' mut' r, emplace d mut (at_pos mut pre rest) key v = Done (d', mut', r) /\
    match r with
    | inl it => edits d' mut' ctx (pre ++ (k, v) :: rest) /\ it = at_pos mut' pre ((k, v) :: rest)
    | inr _ => edits d' mut ctx (pre ++ rest) /\ same_memory d d' /\ outgrows d (zlen (encode_elem (k, v)))
    end.
Proof.
  intros k He Hkey Hv. unfold emplace.
  destruct (insert_edits d mut ctx pre rest (at_pos mut pre rest) key v He (at_pos_ptr _ _ _) Hkey Hv)
    as (d' & mut' & it & -> & [(He' & -> & Hsm & -> & Hout) | (He' & _ & _ & ->)]); ostep.
  - rewrite (same_memory_end d), (mut_end_at _ _ _ _ (proj1 He)), at_end_is by done. ostep.
    unfold bson_iterator_eq. cbn [_ptr]. rewrite Z.eqb_refl. eexists _, _, _. split; [done|]. by split_and!.
  - rewrite (mut_end_at _ _ _ _ (proj1 He')). ostep. unfold bson_iterator_eq.
    rewrite at_pos_ptr, encode_body_app, zlen_app. unfold cursor. cbn [_ptr]. fold k.
    pose proof (encode_body_pos ((k, v) :: rest) ltac:(done)).
    destruct (Z.eqb_spec (mut_data mut' + 4 + zlen (encode_body pre))
      (mut_data mut' + 4 + (zlen (encode_body pre) + zlen (encode_body ((k, v) :: rest))))); [lia|].
    eexists _, _, _. split; [done|]. by split_and!.
Qed.
End Claims.

(** ** Array keys *)

(** The number a string of decimal digits denotes. *)
Definition decimal_value (l : list byte) : Z := fold_left (fun acc b => 10 * acc + (b2z b - 48)) l 0.
Definition is_digit (b : byte) : Prop := 48 <= b2z b <= 57.

Lemma decimal_snoc l b : decimal_value (l ++ [b]) = 10 * decimal_value l + (b2z b - 48).
Proof. unfold decimal_value. by rewrite fold_left_app. Qed.

Lemma b2z_digit v : 0 <= v < 10 -> b2z (digit v) = 48 + v.
Proof. intros. unfold digit. rewrite b2z_z2b. apply Z.mod_small. lia. Qed.

Lemma write_uint_value fuel : forall v, 0 <= v < 10 ^ Z.of_nat fuel -> (0 < fuel)%nat ->
  decimal_value (_bson_write_uint fuel v) = v /\ Forall is_digit (_bson_write_uint fuel v) /\
  (1 <= length (_bson_write_uint fuel v) <= fuel)%nat.
Proof.
  induction fuel as [|fuel IH]; intros v Hv Hf; [lia|]. cbn [_bson_write_uint].
  assert (forall x, 0 <= x < 10 -> is_digit (digit x)) as Hdig
    by (intros x Hx; unfold is_digit; rewrite b2z_digit; lia).
  assert (forall x, 0 <= x < 10 -> decimal_value [digit x] = x) as Hone.
  { intros x Hx. unfold decimal_value. simpl. rewrite b2z_digit; lia. }
  pose proof (Z.mod_pos_bound v 10 ltac:(lia)). pose proof (Z.div_mod v 10 ltac:(lia)).
  destruct (Z.eqb_spec v 0) as [->|]; [split_and!; [by apply Hone | by repeat constructor; apply Hdig | simpl; lia..]|].
  destruct (Z.leb_spec 10 v); [|split_and!; [apply Hone; lia | repeat constructor; apply Hdig; lia | simpl; lia..]].
  rewrite decimal_snoc, b2z_digit, Forall_app, length_app by lia. simpl length.
  destruct fuel as [|fuel']; [simpl in Hv; lia|].
  destruct (Z.ltb_spec v 100).
  - rewrite Hone by lia. split_and!; [lia | repeat constructor; apply Hdig; lia..| simpl; lia | simpl; lia].
  - destruct (IH (v / 10)) as (-> & ? & ?); [|lia|].
    { rewrite (Nat2Z.inj_succ (S fuel')), Z.pow_succ_r in Hv by lia. lia. }
    split_and!; [lia | done | repeat constructor; apply Hdig; lia | lia | lia].
Qed.

(** Array keys: the key generated for an index is its decimal spelling: at
    most ten digits, no null among them, and they denote the index. *)
Theorem u32_string_decimal val :
  is_u32 val ->
  decimal_value (bson_u32_string_create val) = val /\
  (1 <= length (bson_u32_string_create val) <= 10)%nat /\
  Forall is_digit (bson_u32_string_create val).
Proof.
  intros Hv. unfold is_u32 in Hv.
  destruct (write_uint_value 10 val) as (? & ? & ?); [|lia|auto].
  change (10 ^ Z.of_nat 10) with 10000000000. lia.
Qed.

Lemma u32_string_decimal_witness :
  decimal_value (bson_u32_string_create 4294967295) = 4294967295 /\
  bson_u32_string_create 107 = map z2b [49; 48; 55].
Proof.
  split; [|vm_compute; reflexivity].
  destruct (u32_string_decimal 4294967295) as [H _]; [vm_compute; intuition discriminate|]. exact H.
Defined.

(** ** A concrete document under edit *)

(** The elements of [Codec.sample_elements] in a heap buffer with 16 spare bytes
    and an allocator that can grow it. *)
Definition sample_state : bson_doc arena :=
  mk_doc 4100 (mk_block 4096 (le32 (doc_size sample_elements + 16) ++ encode_doc sample_elements
    ++ replicate 16 x00)) (mk_arena 8192 100000).
Definition sample_mut : bson_mut := Root 4100.
Definition empty_state : bson_doc arena := mk_doc 36 static_block (mk_arena 0 100000).

Lemma sample_edits : edits sample_state sample_mut [] sample_elements.
Proof.
  split; [|apply sample_elements_ok]. split; [reflexivity|]. exists (doc_size sample_elements + 16).
  split; [|vm_compute; discriminate | reflexivity | vm_compute; discriminate].
  exists (replicate 16 x00). split; [reflexivity | vm_compute; reflexivity].
Defined.

(** The three elements. *)
Definition e0 : element := (map z2b [97], v_int32 (-7)).
Definition e1 : element := (map z2b [98], v_utf8 (map z2b [104; 105])).
Definition inner : list element := [(map z2b [100], v_bool true)].
Definition e2 : element := (map z2b [99], subdoc false inner).

(** The computed result of an edit of the sample is not the end iterator. *)
Ltac not_unchanged E Hun :=
  exfalso; destruct Hun as (_ & _ & _ & Hun & _); rewrite Hun in E; vm_compute in E; discriminate E.

(** Witness of [insert_refines]: a number, and a regular expression with three bytes behind it. *)
Lemma insert_refines_witness :
  (exists d' mut' it,
    _bson_insert_value sample_state sample_mut (at_pos sample_mut [e0] [e1; e2]) (map z2b [107])
      (v_int64 (-1)) = Done (d', mut', it) /\
    edits d' mut' [] [e0; (map z2b [107], v_int64 (-1)); e1; e2]) /\
  exists d' mut' it filler,
    _bson_insert_value sample_state sample_mut (at_pos sample_mut [e0] [e1; e2]) (map z2b [107])
      (v_regex (Some (map z2b [97])) None) = Done (d', mut', it) /\ zlen filler = 3 /\
    mut_at d' mut' [] (encode_body [e0] ++ (elem_head 11 (map z2b [107]) ++ map z2b [97; 0; 0] ++ filler) ++ encode_body [e1; e2]).
Proof.
  split.
  - pose proof (insert_refines sample_state sample_mut [] [e0] [e1; e2] (map z2b [107]) (v_int64 (-1)) sample_edits) as Hi.
    destruct Hi as (d' & mut' & it & E & [Hun | [He _]]).
    + vm_compute. discriminate.
    + vm_compute. intuition discriminate.
    + not_unchanged E Hun.
    + exists d', mut', it. split; [exact E | exact He].
  - pose proof (insert_refines sample_state sample_mut [] [e0] [e1; e2] (map z2b [107]) (v_regex (Some (map z2b [97])) None) sample_edits) as Hi.
    destruct Hi as (d' & mut' & it & E & [Hun | (_ & filler & Hz & Hm)]).
    + vm_compute. discriminate.
    + split_and!; [by apply (bool_decide_unpack _); vm_compute|by apply (bool_decide_unpack _); vm_compute|vm_compute; discriminate].
    + not_unchanged E Hun.
    + exists d', mut', it, filler. split; [exact E|]. split; [exact Hz | exact Hm].
Defined.

Lemma erase_refines_witness :
  exists d' mut', bson_erase_range sample_state sample_mut (at_pos sample_mut [e0] [e1; e2])
      (at_pos sample_mut [e0; e1] [e2]) = Done (d', mut', at_pos mut' [e0] [e2]) /\
    edits d' mut' [] [e0; e2].
Proof.
  apply (erase_refines sample_state sample_mut [] [e0] [e1] [e2]).
  - exact sample_edits.
  - discriminate.
Defined.

Lemma set_key_refines_witness :
  exists d' mut' it, _bson_set_key sample_state sample_mut (at_pos sample_mut [e0] [e1; e2])
      (map z2b [120; 121; 0; 122]) = Done (d', mut', it) /\
    edits d' mut' [] [e0; (map z2b [120; 121], snd e1); e2].
Proof.
  destruct (set_key_refines sample_state sample_mut [] [e0] (fst e1) (snd e1) [e2] (map z2b [120; 121; 0; 122]))
    as (d' & mut' & it & E & [Hun | [He _]]).
  - exact sample_edits.
  - vm_compute. discriminate.
  - not_unchanged E Hun.
  - exists d', mut', it. split; [exact E | exact He].
Defined.

Lemma inner_wf : Forall elem_wf inner.
Proof. repeat constructor. simpl. apply (bool_decide_unpack _). vm_compute. exact Logic.I. Defined.

Lemma child_insert_refines_witness :
  exists c d' c' it, bson_mut_child sample_state sample_mut (at_pos sample_mut [e0; e1] [e2]) = Done c /\
    _bson_insert_value sample_state c (at_pos c inner []) (map z2b [107]) v_null = Done (d', c', it) /\
    exists data parent off, c' = Child data parent off /\
      edits d' parent [] [e0; e1; (map z2b [99], subdoc false (inner ++ [(map z2b [107], v_null)]))].
Proof.
  destruct (child_insert_refines sample_state sample_mut [] [e0; e1] (map z2b [99]) false inner [] []
              (map z2b [107]) v_null) as (c & Hc & d' & c' & it & E & [Hun | Hin]).
  - exact sample_edits.
  - exact inner_wf.
  - vm_compute. discriminate.
  - exact Logic.I.
  - vm_compute in Hc. injection Hc as <-. not_unchanged E Hun.
  - exists c, d', c', it. split; [exact Hc|]. split; [exact E|].
    destruct Hin as (data & parent & off & Ec & He & _). exists data, parent, off. split; assumption.
Defined.

Lemma edits_read_witness :
  read_elements 4 (doc_buf sample_state) 4100 = Done (Some sample_elements).
Proof.
  apply (edits_read sample_state sample_mut [] sample_elements); [exact sample_edits | apply sample_elements_ok].
Defined.

Lemma child_capacity_witness :
  (let* c := bson_mut_child sample_state sample_mut (at_pos sample_mut [e0; e1] [e2]) in
   bson_mut_capacity sample_state c) = Done (16 + doc_size inner).
Proof.
  destruct (child_edits sample_state sample_mut [] [e0; e1] (map z2b [99]) false inner [])
    as [Hc [Hm _]]; [exact sample_edits | exact inner_wf |].
  destruct sample_edits as [[_ [cap Hd]] _].
  assert (bson_doc_capacity sample_state = Done cap) as Ec by (eapply holds_capacity; exact Hd).
  vm_compute in Ec. injection Ec as <-.
  change (at_pos sample_mut [e0; e1] [e2])
    with (at_pos sample_mut [e0; e1] [(map z2b [99], subdoc false inner)]).
  rewrite Hc. cbn [obind]. rewrite (child_capacity sample_state _ _ _ _ _ Hm Hd). vm_compute. reflexivity.
Defined.

Lemma emplace_refines_witness :
  exists d' mut' it, emplace sample_state sample_mut (at_pos sample_mut sample_elements []) (map z2b [122])
      v_null = Done (d', mut', inl it) /\ edits d' mut' [] (sample_elements ++ [(map z2b [122], v_null)]).
Proof.
  destruct (emplace_refines sample_state sample_mut [] sample_elements [] (map z2b [122]) v_null)
    as (d' & mut' & [it|] & E & He).
  - exact sample_edits.
  - vm_compute. discriminate.
  - split; exact Logic.I.
  - exists d', mut', it. split; [exact E | apply He].
  - exfalso. vm_compute in E. discriminate E.
Defined.

(** ** Edits that go wrong *)

(** The elements that a loop reads after an edit. *)
Definition read_back {A} (r : outcome (bson_doc arena * bson_mut * A)) : outcome (option (list element)) :=
  let* (d, mut, _) := r in read_elements 20 (doc_buf d) (mut_data mut).

(** [bson_relabel_array_elements] gives every element the key [0], because the
    index is not advanced in its loop. *)
Theorem relabel_repeats_zero :
  (let* r := bson_relabel_array_elements 20 sample_state sample_mut in
   match r with
   | Some (d, mut) => read_back (Done (d, mut, tt))
   | None => Undef
   end) =
  Done (Some [(map z2b [48], snd e0); (map z2b [48], snd e1); (map z2b [48], snd e2)]).
Proof. by vm_compute. Qed.

(** Inserting a regular expression leaves three filler bytes behind it: the
    inserted element reads back, but the iterator after it does not reach the
    end of the document and is errant. *)
Theorem regex_insert_corrupts :
  let rx := v_regex (Some (map z2b [97])) (Some (map z2b [105])) in
  let r := _bson_insert_value empty_state (bson_mutate empty_state)
             (mk_iterator 40 0 1) (map z2b [107]) rx in
  (let* (d, mut, it) := r in bson_iterator_value (doc_buf d) it) = Done rx /\
  (let* (d, mut, it) := r in
   let* n := bson_next (doc_buf d) it in Done (bson_iterator_get_error n)) = Done bson_iter_errc_short_read.
Proof. by vm_compute. Qed.

(** [bson_insert_code_with_scope] writes seven bytes more than the region it
    prepared: the terminator of the document is overwritten and the document no
    longer validates. *)
Theorem code_with_scope_overruns :
  (let* (d, mut, it) := bson_insert_code_with_scope empty_state (bson_mutate empty_state)
      (mk_iterator 40 0 1) (map z2b [107]) (map z2b [120]) (map z2b [12; 0; 0; 0; 16; 97; 0; 1; 2; 3; 4; 0]) in
   let* n := mut_ssize d mut in view_from_data (doc_buf d) (mut_data mut) n) =
  Done (inr bson_view_errc_invalid_terminator).
Proof. vm_compute. done. Qed.

(** Appending the end-of-document value, documented to be a no-op, is reported
    as [std::bad_alloc]. *)
Theorem emplace_eod_throws :
  emplace_back sample_state sample_mut (map z2b [107]) v_eod = Done (sample_state, sample_mut, inr tt).
Proof. by vm_compute. Qed.

(** A splice that changes nothing, on a fresh document, stores into the shared
    constant empty document. *)
Theorem empty_splice_writes_constant :
  bson_insert_disjoint_range empty_state (bson_mutate empty_state) (mk_iterator 40 0 1)
    static_block (mk_iterator 40 0 1) (mk_iterator 40 0 1) = Undef.
Proof. by vm_compute. Qed.
