(* ===== verification/Wire.v ===== *)
(** * The wire protocol ([src/amongoc/wire], [src/mlib/bytes.hpp])

    Integers and buffers, OP_MSG sections and messages, and the two operations
    on a stream: [send_message] and [recv_message].  Asio is not part of the
    repository: its streams and its dynamic string buffer are type classes with
    their documented behaviour as laws. *)
From Stdlib Require Import ZArith Lia.
From Stdlib Require Import Strings.Byte Strings.String.
From stdpp Require Import base numbers list sets.
From S2P Require Import Prelude.
From S2P Require Import Mem.
From S2P Require Import Types.
From S2P Require Import View.
From S2P Require Import Alloc.
From S2P Require Import Doc.
Open Scope Z_scope.

(** ** Exceptions *)

(** What the coroutines of the driver throw: [std::system_error] with
    [errc::protocol_error], with the error code of a stream operation, or with a
    code of the server (and its message and body); [std::bad_alloc]. *)
Inductive exn : Type :=
| protocol_error (what : string)
| stream_error (ec : Z)
| server_error (code : Z) (errmsg body : list byte)
| bad_alloc.

(** Coroutines over a world [W]: they return or throw. *)
Definition co_task (W A : Type) : Type := W -> outcome (W * (exn + A)).

Definition co_return {W A} (a : A) : co_task W A := fun w => Done (w, inr a).
Definition throw {W A} (e : exn) : co_task W A := fun w => Done (w, inl e).
Definition co_await {W A B} (x : co_task W A) (k : A -> co_task W B) : co_task W B := fun w =>
  let* (w, r) := x w in
  match r with inl e => Done (w, inl e) | inr a => k a w end.
Definition lift {W A} (x : outcome A) : co_task W A := fun w => let* a := x in Done (w, inr a).

Notation "'let!' x ':=' e 'in' k" := (co_await e (fun x => k))
  (at level 10, x pattern, e at level 200, k at level 200) : outcome_scope.

Definition throw_protocol_error {W A} (msg : string) : co_task W A := throw (protocol_error msg).

(** ** Integers ([mlib/bytes.hpp], [wire/integer.hpp]) *)

(** An integer type: its [sizeof] and its signedness. *)
Record int_type : Type := mk_int { sizeof : nat; is_signed : bool }.
Definition uint32_t : int_type := mk_int 4 false.
Definition int32_t : int_type := mk_int 4 true.

Definition span (t : int_type) : Z := 2 ^ (8 * Z.of_nat (sizeof t)).
(** [static_cast] to the unsigned type and to the type. *)
Definition to_unsigned (t : int_type) (v : Z) : Z := v mod span t.
Definition from_unsigned (t : int_type) (u : Z) : Z :=
  if is_signed t && (span t / 2 <=? u) then u - span t else u.

Fixpoint read_int_loop (t : int_type) (n : nat) (u : Z) (it : list byte) : nat * Z * list byte :=
  match it with
  | [] => (n, u, [])
  | c :: it' =>
      if (n <? sizeof t)%nat then
        let b := to_unsigned t (Z.shiftl (b2z c) (8 * Z.of_nat n)) in
        read_int_loop t (S n) (Z.lor u b) it'
      else (n, u, it)
  end.

(** [mlib::read_int_le]: the value and the remaining range. *)
Definition read_int_le (t : int_type) (rng : list byte) : exn + Z * list byte :=
  let '(n, u, it) := read_int_loop t 0 0 rng in
  if (n <? sizeof t)%nat then inl (protocol_error "short read")
  else inr (from_unsigned t u, it).

(** The stores through the output iterator, from byte [n] on. *)
Fixpoint write_int_loop (t : int_type) (n : nat) (uv : Z) (out : list byte) : nat * list byte :=
  match out with
  | [] => (n, [])
  | c :: out' =>
      if (n <? sizeof t)%nat then
        let (n', rest) := write_int_loop t (S n) uv out' in
        (n', z2b (Z.land (Z.shiftr uv (8 * Z.of_nat n)) 255) :: rest)
      else (n, out)
  end.

(** [write_int_le] to an output range: the range after the stores. *)
Definition write_int_le (t : int_type) (out_rng : list byte) (value : Z) : exn + list byte :=
  let (n, out) := write_int_loop t 0 (to_unsigned t value) out_rng in
  if (n <? sizeof t)%nat then inl (protocol_error "short read") else inr out.

(** ** Dynamic buffers ([wire/buffer.hpp]) *)

(** The [dynamic_buffer_v1] concept: the bytes of [data()], the area given by
    [prepare(n)] and a store of its contents, [commit] and [consume]. *)
Class DynamicBuffer (B : Type) : Type := {
  db_data : B -> outcome (list byte);
  db_prepare : B -> Z -> outcome (list byte);
  db_fill : B -> list byte -> B;
  db_commit : B -> Z -> B;
  db_consume : B -> Z -> B }.

Record generic_dynamic_buffer_v1 : Type := mk_dbuf {
  _buffer : list byte;
  _input_offset : Z;
  _output_offset : Z }.

Definition dbuf_size (b : generic_dynamic_buffer_v1) : Z := u64 (_output_offset b - _input_offset b).

(** The buffer lies in memory at some address; an access outside it is
    undefined. *)
Definition area (buf : list byte) (off n : Z) : outcome (list byte) :=
  if (0 <=? off) && (0 <=? n) && (off + n <=? zlen buf) then
    Done (take (Z.to_nat n) (drop (Z.to_nat off) buf))
  else Undef.

Definition splice_at (buf : list byte) (off : Z) (bs : list byte) : list byte :=
  take (Z.to_nat off) buf ++ bs ++ drop (Z.to_nat off + length bs) buf.

Definition dbuf_data (b : generic_dynamic_buffer_v1) : outcome (list byte) :=
  area (_buffer b) (_input_offset b) (dbuf_size b).
Definition dbuf_prepare (b : generic_dynamic_buffer_v1) (n : Z) : outcome (list byte) :=
  area (_buffer b) (_output_offset b) n.
(** The stores through the prepared buffer. *)
Definition dbuf_fill (b : generic_dynamic_buffer_v1) (bs : list byte) : generic_dynamic_buffer_v1 :=
  mk_dbuf (splice_at (_buffer b) (_output_offset b) bs) (_input_offset b) (_output_offset b).
Definition dbuf_commit (b : generic_dynamic_buffer_v1) (n : Z) : generic_dynamic_buffer_v1 :=
  mk_dbuf (_buffer b) (_input_offset b) (u64 (_output_offset b + n)).
Definition dbuf_consume (b : generic_dynamic_buffer_v1) (n : Z) : generic_dynamic_buffer_v1 :=
  mk_dbuf (_buffer b) (u64 (_input_offset b + n)) (_output_offset b).

#[export] Instance generic_dynamic_buffer : DynamicBuffer generic_dynamic_buffer_v1 := {
  db_data := dbuf_data;
  db_prepare := dbuf_prepare;
  db_fill := dbuf_fill;
  db_commit := dbuf_commit;
  db_consume := dbuf_consume }.

Section Dbuf.
Context {B : Type} `{DynamicBuffer B}.

(** [write_int_le] to a dynamic buffer. *)
Definition dbuf_write_int_le (t : int_type) (value : Z) : co_task B unit := fun dbuf =>
  let n := Z.of_nat (sizeof t) in
  let* out := db_prepare dbuf n in
  match write_int_le t out value with
  | inl e => Done (dbuf, inl e)
  | inr out => Done (db_commit (db_fill dbuf out) n, inr tt)
  end.

(** [wire::read_int_le] from a dynamic buffer. *)
Definition dbuf_read_int_le (t : int_type) : co_task B Z := fun dbuf =>
  let* bytes := db_data dbuf in
  match read_int_le t bytes with
  | inl e => Done (dbuf, inl e)
  | inr (v, _) => Done (db_consume dbuf (Z.of_nat (sizeof t)), inr v)
  end.
End Dbuf.

(** ** Sections and messages ([wire/message.hpp], [wire/message.cpp]) *)

(** A type with [data()] and [byte_size()]: the bytes it refers to. *)
Class HasData (BSON : Type) : Type := doc_bytes : BSON -> outcome (list byte).

(** A view: the memory and the document pointer. *)
Record bson_view : Type := mk_view { v_mem : block; v_data : Z }.

#[export] Instance view_has_data : HasData bson_view := fun v =>
  let* n := _bson_byte_size (v_mem v) (v_data v) in rd_range (v_mem v) (v_data v) n.

#[export] Instance doc_has_data {AS} : HasData (bson_doc AS) := fun d =>
  let* n := _bson_byte_size (doc_buf d) (_bson_document_data d) in
  rd_range (doc_buf d) (_bson_document_data d) n.

(** The [section_type] concept: a kind byte and the buffers. *)
Class SectionType (Sec : Type) : Type := {
  kind : Sec -> byte;
  section_buffers : Sec -> outcome (list (list byte)) }.

Record body_section (BSON : Type) : Type := mk_body { body : BSON }.
Arguments mk_body {BSON} body.
Arguments body {BSON} b.

Definition kind_byte : byte := x00.

Definition body_section_buffers {BSON} `{HasData BSON} (s : body_section BSON) : outcome (list (list byte)) :=
  let* b := doc_bytes (body s) in Done [b].

#[export] Instance body_section_type {BSON} `{HasData BSON} : SectionType (body_section BSON) := {
  kind _ := kind_byte;
  section_buffers := body_section_buffers }.

(** [any_section], a variant of the one section kind there is. *)
Inductive any_section (AS : Type) : Type := any_body (s : body_section (bson_doc AS)).
Arguments any_body {AS} s.

(** The buffers of an [any_section] start with the kind byte. *)
Definition any_section_buffers {AS} (s : any_section AS) : outcome (list (list byte)) :=
  match s with any_body b => let* cb := section_buffers b in Done ([kind b] :: cb) end.

Definition any_section_kind {AS} (s : any_section AS) : byte := match s with any_body b => kind b end.

#[export] Instance any_section_type {AS} : SectionType (any_section AS) := {
  kind := any_section_kind;
  section_buffers := any_section_buffers }.

(** The [message_type] concept. *)
Class MessageType (M : Type) : Type := {
  opcode : M -> Z;
  message_buffers : M -> outcome (list (list byte)) }.

Record op_msg_message (Sec : Type) : Type := mk_op_msg { sections : list Sec }.
Arguments mk_op_msg {Sec} sections.
Arguments sections {Sec} o.

Definition op_msg_opcode : Z := 2013.

(** The flag bits are always zero. *)
Definition _flag_bits : list byte := [x00; x00; x00; x00].

Fixpoint _buffers {Sec} `{SectionType Sec} (secs : list Sec) : outcome (list (list byte)) :=
  match secs with
  | [] => Done []
  | sec :: secs =>
      let* more := section_buffers sec in
      let* rest := _buffers secs in
      Done ([kind sec] :: more ++ rest)
  end.

Definition op_msg_buffers {Sec} `{SectionType Sec} (m : op_msg_message Sec) : outcome (list (list byte)) :=
  let* bs := _buffers (sections m) in Done (_flag_bits :: bs).

(** [_buffers_1], for an array of body sections: an array of [1 + 2 * N] empty
    buffers, then the kind bytes, then the bodies, are assigned in place. *)
Section FixedArray.
Context {BSON : Type} `{HasData BSON}.

Fixpoint set_kinds (secs : list (body_section BSON)) (i : nat) (buffers : list (list byte)) : list (list byte) :=
  match secs with
  | [] => buffers
  | s :: secs => set_kinds secs (S i) (<[(1 + i * 2)%nat := [kind s]]> buffers)
  end.

Fixpoint set_bodies (secs : list (body_section BSON)) (i : nat) (buffers : list (list byte))
  : outcome (list (list byte)) :=
  match secs with
  | [] => Done buffers
  | s :: secs =>
      let* b := doc_bytes (body s) in set_bodies secs (S i) (<[(2 + i * 2)%nat := b]> buffers)
  end.

Definition _buffers_1 (secs : list (body_section BSON)) : outcome (list (list byte)) :=
  let buffers := replicate (1 + length secs * 2) [] in
  let buffers := <[0%nat := _flag_bits]> buffers in
  let buffers := set_kinds secs 0 buffers in
  set_bodies secs 0 buffers.
End FixedArray.

(** An array of body sections takes the second overload. *)
#[export] Instance array_message {BSON} `{HasData BSON} : MessageType (op_msg_message (body_section BSON)) := {
  opcode _ := op_msg_opcode;
  message_buffers m := _buffers_1 (sections m) }.

#[export] Instance vector_message {AS} : MessageType (op_msg_message (any_section AS)) := {
  opcode _ := op_msg_opcode;
  message_buffers m := op_msg_buffers m }.

Record any_message (AS : Type) : Type := mk_any_message {
  request_id : Z;
  response_to : Z;
  content : op_msg_message (any_section AS) }.
Arguments mk_any_message {AS} request_id response_to content.
Arguments request_id {AS} a.
Arguments response_to {AS} a.
Arguments content {AS} a.

Definition any_message_opcode {AS} (m : any_message AS) : Z := opcode (content m).
Definition any_message_buffers {AS} (m : any_message AS) : outcome (list (list byte)) :=
  message_buffers (content m).

#[export] Instance any_message_type {AS} : MessageType (any_message AS) := {
  opcode := any_message_opcode;
  message_buffers := any_message_buffers }.

(** [expect_one_body_section_op_msg] is declared [noexcept]: what it throws
    terminates the process. *)
Definition expect_one_body_section_op_msg {AS} (m : any_message AS) : outcome (bson_doc AS) :=
  match sections (content m) with
  | [any_body s] => Done (body s)
  | _ => Abort
  end.

(** ** Streams *)

(** The asynchronous operations of an Asio stream, up to their completion:
    reading [n] bytes and writing a gathered sequence, each with an error code. *)
Class Stream (ST : Type) : Type := {
  async_read : ST -> Z -> ST * (Z + list byte);
  async_write : ST -> list byte -> ST * (Z + Z) }.

(** What a coroutine of the wire protocol works on.  The release of documents by
    destructors is not tracked in the allocator. *)
Record world (ST AS : Type) : Type := mk_world { w_stream : ST; w_alloc : AS }.
Arguments mk_world {ST AS} w_stream w_alloc.
Arguments w_stream {ST AS} w.
Arguments w_alloc {ST AS} w.

Section Proto.
Context {ST AS B : Type} `{Stream ST} `{Allocator AS} `{DynamicBuffer B}.
(** [asio::dynamic_buffer(string)] over the string that was read. *)
Context (dynamic_buffer : list byte -> B).

Abbreviation task := (co_task (world ST AS)).

(** [*co_await asio::async_read(...)]: an error code is thrown. *)
Definition read_some (n : Z) : task (list byte) := fun w =>
  let (s, r) := async_read (w_stream w) n in
  Done (mk_world s (w_alloc w), match r with inl ec => inl (stream_error ec) | inr bs => inr bs end).

Definition write_all (bs : list byte) : task Z := fun w =>
  let (s, r) := async_write (w_stream w) bs in
  Done (mk_world s (w_alloc w), match r with inl ec => inl (stream_error ec) | inr n => inr n end).

(** The [MsgHeader] written into the (indeterminate) array [chars]. *)
Definition msg_header (chars : list byte) (total_size req_id op : Z) : outcome (exn + list byte) :=
  let fields :=
    let! _ := dbuf_write_int_le int32_t (s32 total_size) in
    let! _ := dbuf_write_int_le int32_t (s32 req_id) in
    let! _ := dbuf_write_int_le int32_t (s32 0) in
    dbuf_write_int_le int32_t (s32 op) in
  let* (dbuf, r) := fields (mk_dbuf chars 0 0) in
  Done (match r with inl e => inl e | inr _ => inr (_buffer dbuf) end).

Definition send_message {M} `{MessageType M} (req_id : Z) (cont : M) : task unit :=
  let! content_buffers := lift (message_buffers cont) in
  let content_size := zlen (concat content_buffers) in
  let chars := replicate 16 x00 in
  let total_size := u64 (zlen chars + content_size) in
  let! header := lift (msg_header chars total_size req_id (opcode cont)) in
  match header with
  | inl e => throw e
  | inr header =>
      let! _ := write_all (header ++ concat content_buffers) in
      co_return tt
  end.

(** [resize_and_overwrite] with the copy of the first bytes of the buffer. *)
Definition resize_and_overwrite (ret : bson_doc AS) (len : Z) (src : list byte)
  : outcome (bson_doc AS * (exn + unit)) :=
  assert! 5 <=? len in
  let* (ret, r) := bson_doc_reserve ret (u32 len) in
  if r <? 0 then Done (ret, inl bad_alloc)
  else
    let* (ret, _) := doc_store ret (fun m =>
      let* m := wr_range m (_bson_document_data ret) (take (Z.to_nat len) src) in Done (m, 0)) in
    Done (ret, inr tt).

Definition any_section_read (a : AS) : co_task B (AS * any_section AS) := fun dbuf =>
  let* data := db_data dbuf in
  match data with
  | [] => throw (protocol_error "short read") dbuf
  | k :: _ =>
      let dbuf := db_consume dbuf 1 in
      let* data := db_data dbuf in
      if decide (k = x00) then
        if zlen data <? 5 then throw (protocol_error "short read") dbuf
        else
          match read_int_le uint32_t data with
          | inl e => throw e dbuf
          | inr (bson_len, _) =>
              if zlen data <? bson_len then throw (protocol_error "short read") dbuf
              else
                let* ret := _bson_new 5 a in
                let* (ret, r) := resize_and_overwrite ret bson_len data in
                match r with
                | inl e => throw e dbuf
                | inr _ =>
                    Done (db_consume dbuf bson_len, inr (bson_doc_get_allocator ret, any_body (mk_body ret)))
                end
          end
      else throw (protocol_error "unknown section kind") dbuf
  end.

(** The loop over the sections; [None] when the fuel runs out. *)
Fixpoint read_sections (fuel : nat) (tail_size : Z) (a : AS) (acc : list (any_section AS))
  : co_task B (option (AS * list (any_section AS))) := fun dbuf =>
  match fuel with
  | O => Done (dbuf, inr None)
  | S fuel =>
      let* data := db_data dbuf in
      if negb (zlen data >? tail_size) then Done (dbuf, inr (Some (a, acc)))
      else
        let* (dbuf, r) := any_section_read a dbuf in
        match r with
        | inl e => Done (dbuf, inl e)
        | inr (a, sec) => read_sections fuel tail_size a (acc ++ [sec]) dbuf
        end
  end.

(** The content of an OP_MSG, once it was read into [content_dbuf]. *)
Definition read_op_msg (fuel : nat) (content_dbuf : B) (requestID responseTo : Z) (a : AS)
  : outcome (exn + option (AS * any_message AS)) :=
  let run :=
    let! flagBits := dbuf_read_int_le int32_t in
    let has_checksum := Z.testbit flagBits 0 in
    read_sections fuel (if has_checksum then 4 else 0) a [] in
  let* (_, r) := run content_dbuf in
  Done match r with
       | inl e => inl e
       | inr None => inr None
       | inr (Some (a, secs)) => inr (Some (a, mk_any_message requestID responseTo (mk_op_msg secs)))
       end.

(** The four integers of the header. *)
Definition read_header (chars : list byte) : outcome (exn + Z * Z * Z * Z) :=
  let run :=
    let! messageLength := dbuf_read_int_le uint32_t in
    let! requestID := dbuf_read_int_le int32_t in
    let! responseTo := dbuf_read_int_le int32_t in
    let! opCode := dbuf_read_int_le int32_t in
    co_return (messageLength, requestID, responseTo, opCode) in
  let* (_, r) := run (db_commit (mk_dbuf chars 0 0) (zlen chars)) in Done r.

(** A content of [n] bytes has fewer than [n] sections. *)
Definition section_fuel (content : list byte) : nat := S (length content).

Definition recv_message : task (option (any_message AS)) :=
  let! chars := read_some 16 in
  if zlen chars <? 16 then throw_protocol_error "short read"
  else
    let! header := lift (read_header chars) in
    match header with
    | inl e => throw e
    | inr (messageLength, requestID, responseTo, opCode) =>
        if messageLength <? 16 then throw_protocol_error "invalid MsgHeader.messageLength"
        else if opCode =? 2013 then
          let remaining := messageLength - 16 in
          let! content := read_some remaining in
          if zlen content <? remaining then throw_protocol_error "short read"
          else fun w =>
            let* r := read_op_msg (section_fuel content) (dynamic_buffer content)
                        requestID responseTo (w_alloc w) in
            match r with
            | inl e => Done (w, inl e)
            | inr None => Done (w, inr None)
            | inr (Some (a, msg)) => Done (mk_world (w_stream w) a, inr (Some msg))
            end
        else throw_protocol_error "unknown MsgHeader.opCode"
    end.
End Proto.

(** ** Integers: round trip *)

(** The [k] bytes of [uv] from byte [n] on. *)
Fixpoint le_bytes (k n : nat) (uv : Z) : list byte :=
  match k with
  | O => []
  | S k => z2b (Z.land (Z.shiftr uv (8 * Z.of_nat n)) 255) :: le_bytes k (S n) uv
  end.

(** The encoding of a value. *)
Definition int_bytes (t : int_type) (v : Z) : list byte := le_bytes (sizeof t) 0 (to_unsigned t v).
#[global] Arguments int_bytes : simpl never.

Lemma length_le_bytes k n uv : length (le_bytes k n uv) = k.
Proof. revert n. induction k as [|k IH]; intros n; simpl; [done | by rewrite IH]. Qed.

Lemma zlen_int_bytes t v : zlen (int_bytes t v) = Z.of_nat (sizeof t).
Proof. unfold zlen, int_bytes. by rewrite length_le_bytes. Qed.

Lemma write_loop_spec t uv k : forall n out,
  (n + k = sizeof t)%nat -> (k <= length out)%nat ->
  write_int_loop t n uv out = (sizeof t, le_bytes k n uv ++ drop k out).
Proof.
  induction k as [|k IH]; intros n out Hn Hl.
  - assert (n = sizeof t) as -> by lia. destruct out; simpl; [done|]. by rewrite Nat.ltb_irrefl.
  - destruct out as [|c out]; simpl in *; [lia|]. destruct (Nat.ltb_spec n (sizeof t)); [|lia].
    rewrite IH by lia. done.
Qed.

Lemma write_int_spec t v out : (sizeof t <= length out)%nat ->
  write_int_le t out v = inr (int_bytes t v ++ drop (sizeof t) out).
Proof.
  intros Hl. unfold write_int_le. rewrite (write_loop_spec t _ (sizeof t)) by (done || lia).
  by rewrite Nat.ltb_irrefl.
Qed.

(** One more byte of a value. *)
Lemma low_bytes uv n :
  Z.lor (uv mod 2 ^ (8 * Z.of_nat n)) (Z.shiftl (Z.land (Z.shiftr uv (8 * Z.of_nat n)) 255) (8 * Z.of_nat n))
  = uv mod 2 ^ (8 * Z.of_nat (S n)).
Proof.
  set (k := 8 * Z.of_nat n). assert (0 <= k) by lia.
  assert (0 < 2 ^ k) by (apply Z.pow_pos_nonneg; lia).
  change 255 with (Z.ones 8). rewrite Z.land_ones, Z.shiftr_div_pow2 by lia.
  rewrite Z.lor_comm. change (Z.shiftl ?x k) with (Z.shiftl x k).
  rewrite lor_shiftl_add by (try lia; apply Z.mod_pos_bound; lia).
  replace (2 ^ (8 * Z.of_nat (S n))) with (2 ^ k * 2 ^ 8)
    by (rewrite <- Z.pow_add_r by lia; f_equal; lia).
  rewrite Z.rem_mul_r by lia. lia.
Qed.

Lemma byte_of_land z : b2z (z2b (Z.land z 255)) = Z.land z 255.
Proof. rewrite b2z_z2b. change 255 with (Z.ones 8). rewrite Z.land_ones by lia. apply Zmod_mod. Qed.

Lemma shifted_byte_fits t n x : (n < sizeof t)%nat -> 0 <= x < 256 ->
  to_unsigned t (Z.shiftl x (8 * Z.of_nat n)) = Z.shiftl x (8 * Z.of_nat n).
Proof.
  intros Hn Hx. unfold to_unsigned, span. rewrite Z.shiftl_mul_pow2 by lia. apply Z.mod_small.
  assert (2 ^ (8 * Z.of_nat (sizeof t)) = 2 ^ (8 * Z.of_nat n) * 2 ^ (8 * (Z.of_nat (sizeof t) - Z.of_nat n)))
    as -> by (rewrite <- Z.pow_add_r by lia; f_equal; lia).
  assert (2 ^ 8 <= 2 ^ (8 * (Z.of_nat (sizeof t) - Z.of_nat n))) by (apply Z.pow_le_mono_r; lia).
  assert (0 < 2 ^ (8 * Z.of_nat n)) by (apply Z.pow_pos_nonneg; lia).
  change (2 ^ 8) with 256 in *. nia.
Qed.

Lemma land_byte z : 0 <= Z.land z 255 < 256.
Proof. change 255 with (Z.ones 8). rewrite Z.land_ones by lia. apply Z.mod_pos_bound. lia. Qed.

Lemma read_loop_spec t uv rest k : forall n,
  (n + k = sizeof t)%nat ->
  read_int_loop t n (uv mod 2 ^ (8 * Z.of_nat n)) (le_bytes k n uv ++ rest) = (sizeof t, uv mod span t, rest).
Proof.
  induction k as [|k IH]; intros n Hn.
  - assert (n = sizeof t) as -> by lia. destruct rest; simpl; [done|]. by rewrite Nat.ltb_irrefl.
  - simpl. destruct (Nat.ltb_spec n (sizeof t)); [|lia].
    rewrite byte_of_land, shifted_byte_fits by (lia || apply land_byte).
    rewrite low_bytes. apply IH. lia.
Qed.

Lemma read_int_encoded t v rest :
  read_int_le t (int_bytes t v ++ rest) = inr (from_unsigned t (to_unsigned t v), rest).
Proof.
  unfold read_int_le, int_bytes. pose proof (read_loop_spec t (to_unsigned t v) rest (sizeof t) 0 eq_refl) as E.
  change (2 ^ (8 * Z.of_nat 0)) with 1 in E. rewrite Z.mod_1_r in E. rewrite E, Nat.ltb_irrefl.
  unfold to_unsigned at 1 2. by rewrite Zmod_mod.
Qed.

Lemma read_loop_count t : forall it n u, (n <= sizeof t)%nat ->
  fst (fst (read_int_loop t n u it)) = Nat.min (sizeof t) (n + length it).
Proof.
  induction it as [|c it IH]; intros n u Hn; simpl; [lia|].
  destruct (Nat.ltb_spec n (sizeof t)); [rewrite IH; lia | simpl; lia].
Qed.

Lemma read_int_short t rng : (length rng < sizeof t)%nat ->
  read_int_le t rng = inl (protocol_error "short read").
Proof.
  intros Hl. unfold read_int_le. pose proof (read_loop_count t rng 0 0 ltac:(lia)) as Hn.
  destruct (read_int_loop t 0 0 rng) as [[n u] it]. simpl in Hn.
  destruct (Nat.ltb_spec n (sizeof t)); [done | lia].
Qed.

(** The values of the type. *)
Definition in_type (t : int_type) (v : Z) : Prop :=
  if is_signed t then - (span t / 2) <= v < span t / 2 else 0 <= v < span t.

Lemma span_half t : (0 < sizeof t)%nat -> span t = 2 * (span t / 2) /\ 0 < span t / 2.
Proof.
  intros Hs. unfold span. replace (8 * Z.of_nat (sizeof t)) with (Z.succ (8 * Z.of_nat (sizeof t) - 1)) by lia.
  rewrite Z.pow_succ_r by lia. rewrite (Z.mul_comm 2 (2 ^ _)) at 2 3. rewrite Z.div_mul by lia.
  split; [done|]. apply Z.pow_pos_nonneg; lia.
Qed.

Lemma unsigned_roundtrip t v : (0 < sizeof t)%nat -> in_type t v -> from_unsigned t (to_unsigned t v) = v.
Proof.
  intros Hs. destruct (span_half t Hs) as [E Hp]. unfold in_type, from_unsigned, to_unsigned.
  destruct (is_signed t); cbn [andb]; intros Hv; [|by rewrite Z.mod_small].
  destruct (Z.leb_spec 0 v).
  - rewrite Z.mod_small by lia. destruct (Z.leb_spec (span t / 2) v); lia.
  - assert (v mod span t = v + span t) as ->.
    { rewrite <- (Z.mod_add v 1), Z.mul_1_l by lia. apply Z.mod_small. lia. }
    destruct (Z.leb_spec (span t / 2) (v + span t)); lia.
Qed.

Lemma write_loop_count t uv : forall out n, (n <= sizeof t)%nat ->
  fst (write_int_loop t n uv out) = Nat.min (sizeof t) (n + length out).
Proof.
  induction out as [|c out IH]; intros n Hn; simpl; [lia|].
  destruct (Nat.ltb_spec n (sizeof t)); [|simpl; lia].
  specialize (IH (S n) ltac:(lia)). destruct (write_int_loop t (S n) uv out). simpl in *. lia.
Qed.

(** Integers on the wire: for every integer type, writing a value to a range
    succeeds exactly when the range is long enough, changes only the first
    [sizeof] bytes, and reading the range gives the value back; a range that is
    too short is reported, never overrun. *)
Theorem wire_int_roundtrip t v out :
  (0 < sizeof t)%nat -> in_type t v ->
  (if (length out <? sizeof t)%nat
   then write_int_le t out v = inl (protocol_error "short read") /\
        read_int_le t out = inl (protocol_error "short read")
   else exists out', write_int_le t out v = inr out' /\ length out' = length out /\
        drop (sizeof t) out' = drop (sizeof t) out /\
        read_int_le t out' = inr (v, drop (sizeof t) out)).
Proof.
  intros Hs Hv. destruct (Nat.ltb_spec (length out) (sizeof t)).
  - split; [|by apply read_int_short]. unfold write_int_le.
    pose proof (write_loop_count t (to_unsigned t v) out 0 ltac:(lia)) as Hn.
    destruct (write_int_loop _ _ _ _) as [n o]. simpl in Hn. destruct (Nat.ltb_spec n (sizeof t)); [done | lia].
  - pose proof (zlen_int_bytes t v) as Hl. unfold zlen in Hl. eexists.
    split; [by apply write_int_spec|]. split_and!.
    + rewrite length_app, length_drop. lia.
    + rewrite drop_app_ge by lia. by replace (sizeof t - length (int_bytes t v))%nat with 0%nat by lia.
    + by rewrite read_int_encoded, unsigned_roundtrip.
Qed.

Lemma wire_int_roundtrip_witness :
  read_int_le int32_t (map z2b [254; 255; 255; 255; 7]) = inr (-2, [z2b 7]).
Proof.
  destruct (wire_int_roundtrip int32_t (-2) (map z2b [0; 0; 0; 0; 7])) as (out' & Ew & _ & _ & Er).
  - simpl. lia.
  - vm_compute. split; [discriminate | reflexivity].
  - vm_compute in Ew. injection Ew as <-. exact Er.
Defined.

(** ** Dynamic buffers *)

(** [data()] shows the bytes that were committed and not yet consumed. *)
Class DynamicBufferOk (B : Type) `{DynamicBuffer B} : Type := {
  readable : B -> list byte -> Prop;
  data_readable b l : readable b l -> db_data b = Done l;
  consume_readable b l k : readable b (l ++ k) -> readable (db_consume b (zlen l)) k }.

Definition dbuf_readable (b : generic_dynamic_buffer_v1) (l : list byte) : Prop :=
  exists pre post, _buffer b = pre ++ l ++ post /\ _input_offset b = zlen pre /\
    _output_offset b = zlen pre + zlen l /\ zlen (_buffer b) < UINT64_SPAN.

Lemma area_spec pre l post : area (pre ++ l ++ post) (zlen pre) (zlen l) = Done l.
Proof.
  unfold area. pose proof (zlen_nonneg pre). pose proof (zlen_nonneg l). pose proof (zlen_nonneg post).
  rewrite !zlen_app. destruct (_ && _) eqn:C; [|lia].
  by rewrite !zlen_to_nat, drop_app_length, take_app_length.
Qed.

Lemma dbuf_data_readable b l : dbuf_readable b l -> db_data b = Done l.
Proof.
  intros (pre & post & E & Ei & Eo & Hm). unfold db_data. simpl. unfold dbuf_data, dbuf_size.
  rewrite Eo, Ei. replace (zlen pre + zlen l - zlen pre) with (zlen l) by lia.
  pose proof (zlen_nonneg pre). pose proof (zlen_nonneg l). pose proof (zlen_nonneg post).
  rewrite E, !zlen_app in Hm. rewrite u64_id by (unfold is_u64; lia). rewrite E. apply area_spec.
Qed.

Lemma dbuf_consume_readable b l k : dbuf_readable b (l ++ k) -> dbuf_readable (db_consume b (zlen l)) k.
Proof.
  intros (pre & post & E & Ei & Eo & Hm). exists (pre ++ l), post. simpl.
  rewrite <- !app_assoc in *. split; [done|]. rewrite !zlen_app in *. split; [|split; [lia|done]].
  rewrite E, !zlen_app in Hm. pose proof (zlen_nonneg pre). pose proof (zlen_nonneg l).
  pose proof (zlen_nonneg post). pose proof (zlen_nonneg k).
  rewrite Ei, u64_id; [done | unfold is_u64; lia].
Qed.

#[export] Instance generic_dynamic_buffer_ok : DynamicBufferOk generic_dynamic_buffer_v1 := {
  readable := dbuf_readable;
  data_readable := dbuf_data_readable;
  consume_readable := dbuf_consume_readable }.

(** A buffer whose bytes are all committed, and one for writing. *)
Lemma committed_readable chars :
  zlen chars < UINT64_SPAN -> readable (db_commit (mk_dbuf chars 0 0) (zlen chars)) chars.
Proof.
  intros Hm. pose proof (zlen_nonneg chars). exists [], []. cbn -[u64]. rewrite app_nil_r, u64_id by (unfold is_u64; lia).
  done.
Qed.

Lemma dbuf_read_encoded {B} `{DynamicBufferOk B} t v rest b :
  (0 < sizeof t)%nat -> in_type t v -> readable b (int_bytes t v ++ rest) ->
  exists b', dbuf_read_int_le t b = Done (b', inr v) /\ readable b' rest.
Proof.
  intros Hs Hv Hb. unfold dbuf_read_int_le. rewrite (data_readable _ _ Hb). ostep.
  rewrite read_int_encoded, unsigned_roundtrip by done. eexists. split; [done|].
  rewrite <- (zlen_int_bytes t v). by apply consume_readable.
Qed.

Lemma dbuf_write_spec t v pre old post i :
  length old = sizeof t -> zlen (pre ++ old ++ post) < UINT64_SPAN ->
  dbuf_write_int_le t v (mk_dbuf (pre ++ old ++ post) i (zlen pre)) =
  Done (mk_dbuf (pre ++ int_bytes t v ++ post) i (zlen (pre ++ int_bytes t v)), inr tt).
Proof.
  intros Hl Hm. pose proof (zlen_nonneg pre). pose proof (zlen_nonneg post). pose proof (zlen_nonneg old).
  rewrite !zlen_app in Hm. assert (Z.of_nat (sizeof t) = zlen old) as E by (unfold zlen; lia).
  unfold dbuf_write_int_le, db_prepare. simpl. unfold dbuf_prepare. simpl. rewrite E, area_spec. ostep.
  rewrite write_int_spec, drop_ge, app_nil_r by lia. unfold dbuf_commit, dbuf_fill, splice_at. cbn [_buffer _input_offset _output_offset].
  rewrite zlen_to_nat, take_app_length, zlen_app, zlen_int_bytes, E, u64_id by (unfold is_u64; lia).
  do 4 f_equal. f_equal.
  pose proof (zlen_int_bytes t v) as Hi. unfold zlen in Hi.
  rewrite drop_app_ge by lia. replace (length pre + length (int_bytes t v) - length pre)%nat with (length old) by lia.
  by rewrite drop_app_length.
Qed.

(** ** The header *)

Lemma len4_split (chars : list byte) n : length chars = (4 + n)%nat ->
  exists a b, chars = a ++ b /\ length a = 4%nat /\ length b = n.
Proof.
  intros Hl. exists (take 4 chars), (drop 4 chars). rewrite take_drop, length_take, length_drop.
  split; [done | lia].
Qed.

(** The sixteen bytes of a header. *)
Definition header_bytes (total req resp op : Z) : list byte :=
  int_bytes int32_t total ++ int_bytes int32_t req ++ int_bytes int32_t resp ++ int_bytes int32_t op.

Lemma zlen_header_bytes a b c d : zlen (header_bytes a b c d) = 16.
Proof. unfold header_bytes. rewrite !zlen_app, !zlen_int_bytes. done. Qed.

(** Every byte of the array is written, whatever it held. *)
Lemma msg_header_spec chars total req op : length chars = 16%nat ->
  msg_header chars total req op = Done (inr (header_bytes (s32 total) (s32 req) (s32 0) (s32 op))).
Proof.
  intros Hl. destruct (len4_split chars 12 Hl) as (c0 & r0 & -> & L0 & Hl0).
  destruct (len4_split r0 8 Hl0) as (c1 & r1 & -> & L1 & Hl1).
  destruct (len4_split r1 4 Hl1) as (c2 & c3 & -> & L2 & L3).
  assert (forall t v, length (int_bytes t v) = sizeof t) as Li by (intros; apply length_le_bytes).
  unfold msg_header, co_await.
  pose proof (dbuf_write_spec int32_t (s32 total) [] c0 (c1 ++ c2 ++ c3) 0) as E0.
  change (zlen (@nil byte)) with 0 in E0. rewrite !app_nil_l in E0.
  rewrite E0; [|done|unfold zlen; rewrite !length_app; lia]. cbn [obind].
  rewrite dbuf_write_spec; [|done|unfold zlen; rewrite !length_app, ?Li, ?L1, ?L2, ?L3; simpl; lia].
  cbn [obind]. rewrite app_assoc.
  rewrite dbuf_write_spec; [|done|unfold zlen; rewrite !length_app, ?Li, ?L1, ?L2, ?L3; simpl; lia].
  cbn [obind]. rewrite (app_assoc (_ ++ _)). rewrite <- (app_nil_r c3).
  rewrite dbuf_write_spec; [|done|unfold zlen; rewrite !length_app, ?Li, ?L1, ?L2, ?L3; simpl; lia].
  cbn [obind]. unfold header_bytes. by rewrite app_nil_r, <- !app_assoc.
Qed.

Lemma read_header_spec total req resp op :
  0 <= total < 2 ^ 31 -> is_i32 req -> is_i32 resp -> is_i32 op ->
  read_header (header_bytes total req resp op) = Done (inr (total, req, resp, op)).
Proof.
  intros Ht Hq Hr Ho. unfold read_header. rewrite zlen_header_bytes.
  pose proof (committed_readable (header_bytes total req resp op)) as Hb.
  rewrite zlen_header_bytes in Hb. specialize (Hb eq_refl).
  assert (int_bytes int32_t total = int_bytes uint32_t total) as Et by done.
  unfold header_bytes in Hb at 2. rewrite Et in Hb.
  assert (forall z, is_i32 z -> in_type int32_t z) as Hi
    by (intros z Hz; unfold in_type, is_i32 in *; change (span int32_t / 2) with (2 ^ 31); simpl is_signed; cbv iota; lia).
  unfold co_await, co_return.
  assert (in_type uint32_t total) as Hu
    by (unfold in_type; change (span uint32_t) with (2 ^ 32); simpl is_signed; cbv iota; lia).
  destruct (dbuf_read_encoded uint32_t total _ _ ltac:(simpl; lia) Hu Hb) as (b1 & -> & H1). cbn [obind].
  destruct (dbuf_read_encoded int32_t req _ b1 ltac:(simpl; lia) (Hi _ Hq) H1) as (b2 & -> & H2). cbn [obind].
  destruct (dbuf_read_encoded int32_t resp _ b2 ltac:(simpl; lia) (Hi _ Hr) H2) as (b3 & -> & H3). cbn [obind].
  rewrite <- (app_nil_r (int_bytes int32_t op)) in H3.
  destruct (dbuf_read_encoded int32_t op _ b3 ltac:(simpl; lia) (Hi _ Ho) H3) as (b4 & -> & _). done.
Qed.

(** ** The two ways to gather the buffers of a message *)

Section Gather.
Context {BSON : Type} `{HasData BSON}.

(** Kind bytes in place, bodies still empty. *)
Definition with_kinds (secs : list (body_section BSON)) : list (list byte) :=
  concat (map (fun s => [[kind s]; []]) secs).

Lemma set_kinds_spec secs : forall i front,
  length front = (1 + i * 2)%nat ->
  set_kinds secs i (front ++ replicate (length secs * 2) []) = front ++ with_kinds secs.
Proof.
  induction secs as [|s secs IH]; intros i front Hf; [done|]. simpl.
  rewrite insert_app_r_alt by lia. replace (S (i * 2) - length front)%nat with 0%nat by lia. simpl.
  specialize (IH (S i) (front ++ [[kind s]; []])). rewrite <- !app_assoc in IH. simpl in IH.
  apply IH. rewrite length_app. simpl. lia.
Qed.

Lemma set_bodies_spec secs : forall i front,
  length front = (1 + i * 2)%nat ->
  set_bodies secs i (front ++ with_kinds secs) = let* bs := _buffers secs in Done (front ++ bs).
Proof.
  induction secs as [|s secs IH]; intros i front Hf; [done|]. simpl. unfold body_section_buffers.
  destruct (doc_bytes (body s)) as [b| |]; [|done|done]. cbn [obind].
  rewrite insert_app_r_alt by lia. replace (S (S (i * 2)) - length front)%nat with 1%nat by lia. simpl.
  specialize (IH (S i) (front ++ [[kind s]; b])). rewrite <- !app_assoc in IH. simpl in IH.
  unfold with_kinds in *. simpl in *. rewrite IH by (rewrite length_app; simpl; lia).
  destruct (_buffers secs); simpl; [|done|done]. by rewrite <- app_assoc.
Qed.

Lemma gather_agrees (secs : list (body_section BSON)) :
  _buffers_1 secs = op_msg_buffers (mk_op_msg secs).
Proof.
  unfold _buffers_1, op_msg_buffers. simpl.
  change (_flag_bits :: replicate (length secs * 2) []) with ([_flag_bits] ++ replicate (length secs * 2) []).
  rewrite set_kinds_spec by done. by rewrite set_bodies_spec.
Qed.

(** The allocation-free overload of [op_msg_message::buffers], which fills a
    fixed array in place, gives the same buffers as the general loop, for any
    number of body sections. *)
Theorem buffers_equivalent (secs : list (body_section BSON)) :
  _buffers_1 secs = op_msg_buffers (mk_op_msg secs).
Proof. apply gather_agrees. Qed.
End Gather.
