(* ===== verification/WireSpec.v ===== *)
(** * What the wire protocol accepts and how messages round trip

    An abstract parser of OP_MSG contents, the refinement of [recv_message] to
    it on arbitrary bytes, and the round trip of [send_message] with
    [recv_message] over any stream. *)
From Stdlib Require Import ZArith Lia.
From Stdlib Require Import Strings.Byte Strings.String.
From stdpp Require Import base numbers list sets.
From S2P Require Import Prelude.
From S2P Require Import Mem.
From S2P Require Import Types.
From S2P Require Import View.
From S2P Require Import Alloc.
From S2P Require Import Doc.
From S2P Require Import Wire.
Open Scope Z_scope.

(** ** The abstract parser *)

(** A result, an exception, an abort, or undefined behaviour. *)
Inductive parsed (A : Type) : Type :=
| p_ok (a : A)
| p_throw (e : exn)
| p_abort
| p_undef.
Arguments p_ok {A} a.
Arguments p_throw {A} e.
Arguments p_abort {A}.
Arguments p_undef {A}.

(** The little-endian value of the first four bytes. *)
Definition length_prefix (l : list byte) : Z :=
  match l with
  | b0 :: b1 :: b2 :: b3 :: _ => b2z b0 + 256 * b2z b1 + 65536 * b2z b2 + 16777216 * b2z b3
  | _ => 0
  end.

(** The documents are allocated while they are parsed, from [a]. *)
Section Parser.
Context {AS : Type} {HA : Allocator AS}.

(** What the allocator does for a received document of [n] bytes: it is asked for the bytes and their cookie, and the document
    is not received when it has none or when they are more than a size can say. *)
Definition document_allocation (a : AS) (n : Z) : option AS :=
  if INT32_MAX - 4 <? n then None
  else match mlib_allocate a (n + 4) with (a', Some _) => Some a' | (_, None) => None end.

(** The document of the first section and the remaining bytes, with the allocator after its allocation.  A length below
    the smallest document is an assertion failure, and the length of the empty
    document a store into the shared constant. *)
Definition parse_section (a : AS) (l : list byte) : parsed (AS * list byte * list byte) :=
  match l with
  | [] => p_throw (protocol_error "short read")
  | k :: l =>
      if decide (k = x00) then
        let n := length_prefix l in
        if (zlen l <? 5) || (zlen l <? n) then p_throw (protocol_error "short read")
        else if n <? 5 then p_abort
        else if n =? 5 then p_undef
        else match document_allocation a n with
             | Some a => p_ok (a, take (Z.to_nat n) l, drop (Z.to_nat n) l)
             | None => p_throw bad_alloc
             end
      else p_throw (protocol_error "unknown section kind")
  end.

Fixpoint parse_sections (fuel : nat) (tail_size : Z) (a : AS) (l : list byte) : parsed (AS * list (list byte)) :=
  match fuel with
  | O => p_ok (a, [])
  | S fuel =>
      if negb (zlen l >? tail_size) then p_ok (a, [])
      else
        match parse_section a l with
        | p_ok (a, d, l) =>
            match parse_sections fuel tail_size a l with
            | p_ok (a, ds) => p_ok (a, d :: ds)
            | other => other
            end
        | p_throw e => p_throw e
        | p_abort => p_abort
        | p_undef => p_undef
        end
  end.

(** A content: the flag bits, the sections, and the checksum when bit 0 is set. *)
Definition parse_content (a : AS) (l : list byte) : parsed (AS * list (list byte)) :=
  if zlen l <? 4 then p_throw (protocol_error "short read")
  else
    let flags := length_prefix l in
    parse_sections (S (length l)) (if Z.testbit flags 0 then 4 else 0) a (drop 4 l).

(** The allocator after the documents with the bodies [Bs], unless one is refused. *)
Fixpoint documents_allocation (a : AS) (Bs : list (list byte)) : option AS :=
  match Bs with
  | [] => Some a
  | B :: Bs => match document_allocation a (5 + zlen B) with Some a => documents_allocation a Bs | None => None end
  end.
End Parser.

(** ** Received documents *)

Section Received.
Context {AS : Type} {HA : Allocator AS} {HOK : AllocatorOk AS}.

(** The heap document holds the bytes [bs] at its start. *)
Record received (d : bson_doc AS) (bs : list byte) (cap : Z) : Prop := {
  rc_heap : heap_start <= b_base (doc_buf d);
  rc_static : is_static d = false;
  rc_data : _bson_document_data d = b_base (doc_buf d) + 4;
  rc_end : b_end (doc_buf d) = b_base (doc_buf d) + 4 + cap;
  rc_cap : cap + 4 <= INT32_MAX;
  rc_cookie : bytes_at (doc_buf d) (b_base (doc_buf d)) (le32 cap);
  rc_bytes : bytes_at (doc_buf d) (_bson_document_data d) bs }.

(** When the bytes are a framed document, it is a document in the sense of the
    owned documents. *)
Lemma received_frame d B cap : received d (frame B) cap -> doc_holds d B cap.
Proof.
  intros [? ? Hd ? ? Hc Hb]. apply holds_intro; try done. apply bytes_at_app.
  rewrite zlen_le32, <- Hd. done.
Qed.

(** The allocation of an empty document that is grown is the one of [document_allocation]. *)
Lemma static_realloc (a : AS) n d ok : _bson_realloc (mk_doc _bson_get_global_empty_doc_data static_block a) n = Done (d, ok) ->
  document_allocation a n = if ok then Some (_allocator d) else None.
Proof.
  unfold _bson_realloc, document_allocation, bson_doc_get_allocator, mlib_allocate. cbn [is_static _bson_document_data _allocator].
  rewrite Z.gtb_ltb. destruct (Z.ltb_spec (INT32_MAX - 4) n); [by intros [= _ <-]|].
  change (is_static _) with true. cbv iota. ostep.
  destruct (mlib_reallocate a None (n + 4) 0) as [a' [nb|]]; [|by intros [= _ <-]].
  destruct (_ <=? _); [|done]. destruct (_ <=? _); [|done].
  destruct (_bson_write_u32le _ _ _) as [[m1 p1]| |]; [|done..]. ostep.
  destruct (_bson_memcpy _ _ _ _) as [[m2 p2]| |]; [|done..]. ostep. by intros [= <- <-].
Qed.

Lemma resize_spec (a : AS) len src : 5 < len < UINT32_SPAN -> len <= zlen src ->
  let d0 := mk_doc _bson_get_global_empty_doc_data static_block a in
  match document_allocation a len with
  | None => exists d', resize_and_overwrite d0 len src = Done (d', inl bad_alloc)
  | Some a' => exists d' cap, resize_and_overwrite d0 len src = Done (d', inr tt) /\
      _allocator d' = a' /\ received d' (take (Z.to_nat len) src) cap
  end.
Proof.
  intros Hlen Hsrc d0. assert (doc_holds d0 [] 5) as Hd by by apply static_holds.
  unfold resize_and_overwrite. destruct (Z.leb_spec 5 len); [|lia]. rewrite u32_id by (unfold is_u32; lia).
  unfold bson_doc_reserve. rewrite (holds_capacity _ _ _ Hd). ostep. destruct (Z.leb_spec len 5); [lia|].
  destruct (realloc_spec d0 [] 5 len Hd ltac:(lia)) as (d1 & ok & E & Hok). rewrite (static_realloc _ _ _ _ E), E. ostep.
  destruct ok; [|by eexists]. cbn [negb]. destruct Hok as (Hs & r & Hd1 & Hr).
  rewrite (holds_capacity _ _ _ Hd1). ostep. rewrite s32_id by (pose proof (holds_room _ _ _ Hd1); destruct Hd1; unfold is_i32; rewrite ?zlen_nil in *; lia).
  destruct (Z.ltb_spec r 0); [lia|]. rewrite doc_store_heap by done.
  set (bs := take (Z.to_nat len) src).
  assert (zlen bs = len) as Hbs by (subst bs; unfold zlen in *; rewrite length_take; lia).
  pose proof (holds_end _ _ _ Hd1). pose proof (holds_data _ _ _ Hd1). pose proof (holds_cookie _ _ _ Hd1).
  pose proof (holds_home _ _ _ Hd1) as Hh. rewrite Hs in Hh. pose proof (holds_cap _ _ _ Hd1).
  destruct (wr_stored (doc_buf d1) (_bson_document_data d1) bs) as (m & -> & [A1 B1 E1 F1]); [lia..|].
  ostep. eexists _, r. split; [done|]. split; [done|].
  split; simpl; rewrite ?B1, ?E1; try done; [lia|]. apply F1; [done | rewrite zlen_le32; lia].
Qed.

Lemma new_empty (a : AS) : _bson_new 5 a = Done (mk_doc _bson_get_global_empty_doc_data static_block a).
Proof. done. Qed.

(** An empty document keeps the shared constant, into which the bytes are
    stored. *)
Lemma resize_empty (a : AS) d src : _bson_new 5 a = Done d -> resize_and_overwrite d 5 src = Undef.
Proof. intros [= <-]. done. Qed.
End Received.

(** ** Sections *)

Lemma length_prefix_range l : 0 <= length_prefix l < UINT32_SPAN.
Proof.
  destruct l as [|b0 [|b1 [|b2 [|b3 l]]]]; simpl; try lia.
  pose proof (b2z_range b0). pose proof (b2z_range b1). pose proof (b2z_range b2). pose proof (b2z_range b3). lia.
Qed.

Lemma read_4_prefix t l : sizeof t = 4%nat -> (4 <= length l)%nat ->
  read_int_le t l = inr (from_unsigned t (length_prefix l), drop 4 l).
Proof.
  intros Ht Hl. pose proof (length_prefix_range l) as Hn. destruct t as [w sg]. simpl in Ht. subst w.
  destruct l as [|b0 [|b1 [|b2 [|b3 l]]]]; [simpl in Hl; lia..|].
  change (drop 4 (b0 :: b1 :: b2 :: b3 :: l)) with l. cbn [length_prefix] in *.
  set (n := b2z b0 + 256 * b2z b1 + 65536 * b2z b2 + 16777216 * b2z b3) in *.
  pose proof (read_int_encoded (mk_int 4 sg) n l) as E.
  change (int_bytes (mk_int 4 sg) n) with (le32 (n mod 2 ^ 32)) in E.
  change (to_unsigned (mk_int 4 sg) n) with (n mod 2 ^ 32) in E.
  rewrite !Z.mod_small in E by (change (2 ^ 32) with UINT32_SPAN; lia). rewrite <- E.
  subst n. by rewrite le32_bytes.
Qed.

Lemma length_prefix_read l : (4 <= length l)%nat ->
  read_int_le uint32_t l = inr (length_prefix l, drop 4 l) /\ 0 <= length_prefix l < UINT32_SPAN.
Proof. intros Hl. split; [by apply (read_4_prefix uint32_t) | apply length_prefix_range]. Qed.

(** The sign does not touch the low bit. *)
Lemma signed_low_bit u : Z.testbit (from_unsigned int32_t u) 0 = Z.testbit u 0.
Proof.
  unfold from_unsigned. destruct (_ && _); [|done]. rewrite !Z.bit0_odd.
  change (span int32_t) with 4294967296. by rewrite Z.odd_sub, xorb_false_r.
Qed.

Section Refine.
Context {AS B : Type} {HA : Allocator AS} {HOK : AllocatorOk AS}.
Context {HB : DynamicBuffer B} {HBOK : DynamicBufferOk B}.

Definition body_of (d : bson_doc AS) : any_section AS := any_body (mk_body d).

Definition holds_bytes_of (bs : list byte) (d : bson_doc AS) : Prop := exists cap, received d bs cap.

Lemma section_refines (b : B) l a : readable b l ->
  match parse_section a l with
  | p_throw e => exists b', any_section_read a b = Done (b', inl e)
  | p_abort => any_section_read a b = Abort
  | p_undef => any_section_read a b = Undef
  | p_ok (a', bs, rest) =>
      exists b' d, any_section_read a b = Done (b', inr (a', body_of d)) /\ holds_bytes_of bs d /\ readable b' rest
  end.
Proof.
  intros Hb. unfold any_section_read, parse_section, throw. rewrite (data_readable _ _ Hb). ostep.
  destruct l as [|k l]; [eauto|]. apply (consume_readable b [k] l) in Hb. change (zlen [k]) with 1 in Hb.
  rewrite (data_readable _ _ Hb). ostep. destruct (decide (k = x00)) as [->|]; [|eauto].
  destruct (Z.ltb_spec (zlen l) 5) as [Hs|Hs]; cbn [orb]; [eauto|].
  destruct (length_prefix_read l) as [-> Hn]; [unfold zlen in Hs; lia|].
  set (n := length_prefix l) in *. destruct (Z.ltb_spec (zlen l) n); [eauto|].
  rewrite new_empty. ostep.
  destruct (Z.ltb_spec n 5); [unfold resize_and_overwrite; by destruct (Z.leb_spec 5 n); [lia|]|].
  destruct (Z.eqb_spec n 5) as [->|]; [done|].
  pose proof (resize_spec a n l ltac:(lia) ltac:(lia)) as Hr. cbv zeta in Hr.
  destruct (document_allocation a n) as [a'|]; [destruct Hr as (d1 & cap & -> & <- & Hr)|destruct Hr as (d1 & ->)]; ostep; [|eauto].
  eexists _, d1. split; [done|]. split; [by exists cap|].
  assert (zlen (take (Z.to_nat n) l) = n) as <- by (unfold zlen in *; rewrite length_take; lia).
  apply consume_readable. by rewrite zlen_to_nat, length_take_le, take_drop by (unfold zlen in *; lia).
Qed.

Lemma parse_section_consumes (a a' : AS) l d rest :
  parse_section a l = p_ok (a', d, rest) -> (length rest < length l)%nat.
Proof.
  unfold parse_section. destruct l as [|k l]; [done|]. repeat case_match; try done.
  intros [= _ _ <-]. simpl. rewrite length_drop. lia.
Qed.

(** What the run of the section loop says about the parser. *)
Definition agrees (acc : list (any_section AS)) (p : parsed (AS * list (list byte)))
  (r : outcome (B * (exn + option (AS * list (any_section AS))))) : Prop :=
  match p with
  | p_throw e => exists b', r = Done (b', inl e)
  | p_abort => r = Abort
  | p_undef => r = Undef
  | p_ok (a', bss) => exists b' ds, r = Done (b', inr (Some (a', acc ++ map body_of ds))) /\
      Forall2 holds_bytes_of bss ds
  end.

Lemma sections_refine tail fuel : forall (b : B) l a acc,
  readable b l -> (length l < fuel)%nat ->
  agrees acc (parse_sections fuel tail a l) (read_sections fuel tail a acc b).
Proof.
  induction fuel as [|fuel IH]; intros b l a acc Hb Hf; [lia|]. simpl.
  rewrite (data_readable _ _ Hb). ostep. destruct (negb (zlen l >? tail)).
  { exists b, []. simpl. by rewrite app_nil_r. }
  pose proof (section_refines b l a Hb) as Hsec.
  destruct (parse_section a l) as [[[a' bs] rest]|e| |] eqn:Ep.
  - destruct Hsec as (b' & d & -> & Hd & Hb'). ostep.
    apply parse_section_consumes in Ep.
    pose proof (IH b' rest a' (acc ++ [body_of d]) Hb' ltac:(lia)) as H.
    destruct (parse_sections fuel tail a' rest) as [[a2 bss]|e| |]; [|done..].
    destruct H as (b2 & ds & -> & Hds). exists b2, (d :: ds). simpl.
    rewrite <- app_assoc. split; [done | by constructor].
  - destruct Hsec as (b' & ->). simpl. eauto.
  - by rewrite Hsec.
  - by rewrite Hsec.
Qed.

(** The receiver of a content, as a function of the parser's result. *)
Definition content_agrees (requestID responseTo : Z) (p : parsed (AS * list (list byte)))
  (r : outcome (exn + option (AS * any_message AS))) : Prop :=
  match p with
  | p_throw e => r = Done (inl e)
  | p_abort => r = Abort
  | p_undef => r = Undef
  | p_ok (a', bss) => exists ds,
      r = Done (inr (Some (a', mk_any_message requestID responseTo (mk_op_msg (map body_of ds))))) /\
      Forall2 holds_bytes_of bss ds
  end.

Lemma content_refines (b : B) l rid rto a : readable b l ->
  content_agrees rid rto (parse_content a l) (read_op_msg (section_fuel l) b rid rto a).
Proof.
  intros Hb. unfold read_op_msg, parse_content, section_fuel, co_await, dbuf_read_int_le.
  rewrite (data_readable _ _ Hb). ostep. destruct (Z.ltb_spec (zlen l) 4) as [Hs|Hs].
  { rewrite read_int_short by (unfold zlen in Hs; simpl; lia). by ostep. }
  rewrite read_4_prefix by (done || (unfold zlen in Hs; lia)). ostep. rewrite signed_low_bit.
  assert (zlen (take 4 l) = 4) as H4 by (unfold zlen in *; rewrite length_take; lia).
  rewrite <- (take_drop 4 l) in Hb. apply consume_readable in Hb. rewrite H4 in Hb.
  change (Z.of_nat (sizeof int32_t)) with 4. set (tail := if Z.testbit _ 0 then 4 else 0).
  pose proof (sections_refine tail (S (length l)) _ (drop 4 l) a [] Hb ltac:(rewrite length_drop; lia)) as H.
  destruct (parse_sections _ tail a (drop 4 l)) as [[a' bss]|e| |].
  - destruct H as (b' & ds & -> & Hds). ostep. by exists ds.
  - destruct H as (b' & ->). done.
  - by rewrite H.
  - by rewrite H.
Qed.
End Refine.

(** ** Streams *)

(** A composed read or write completes when all its bytes are transferred, or
    with an error: a read of bytes that are there takes them off the stream, a
    write that succeeds puts its bytes on it. *)
Class StreamOk (ST : Type) `{Stream ST} : Type := {
  incoming : ST -> list byte;
  outgoing : ST -> list byte;
  read_length s n s' bs : async_read s n = (s', inr bs) -> 0 <= n -> zlen bs = n;
  read_there s bs rest : incoming s = bs ++ rest ->
    exists s', async_read s (zlen bs) = (s', inr bs) /\ incoming s' = rest;
  read_keeps s n s' r : async_read s n = (s', r) -> outgoing s' = outgoing s;
  write_sent s bs s' n : async_write s bs = (s', inr n) -> outgoing s' = outgoing s ++ bs }.

(** The integers of a header. *)
Definition header_fields (h : list byte) : Z * Z * Z * Z :=
  (length_prefix h, from_unsigned int32_t (length_prefix (drop 4 h)),
   from_unsigned int32_t (length_prefix (drop 8 h)), from_unsigned int32_t (length_prefix (drop 12 h))).

Lemma dbuf_read_4 {B} `{DynamicBufferOk B} t (b : B) l :
  sizeof t = 4%nat -> (4 <= length l)%nat -> readable b l ->
  exists b', dbuf_read_int_le t b = Done (b', inr (from_unsigned t (length_prefix l))) /\ readable b' (drop 4 l).
Proof.
  intros Ht Hl Hb. unfold dbuf_read_int_le. rewrite (data_readable _ _ Hb). ostep.
  rewrite read_4_prefix by done. eexists. split; [done|]. rewrite Ht. change (Z.of_nat 4) with 4.
  assert (zlen (take 4 l) = 4) as <- by (unfold zlen; rewrite length_take; lia).
  apply consume_readable. by rewrite take_drop.
Qed.

Lemma read_header_any h : zlen h = 16 -> read_header h = Done (inr (header_fields h)).
Proof.
  intros Hl. unfold read_header, co_await, co_return, header_fields.
  pose proof (committed_readable h ltac:(lia)) as H0. unfold zlen in Hl.
  destruct (dbuf_read_4 uint32_t _ h eq_refl ltac:(lia) H0) as (b1 & -> & H1). cbn [obind].
  destruct (dbuf_read_4 int32_t b1 (drop 4 h) eq_refl ltac:(rewrite length_drop; lia) H1) as (b2 & -> & H2). cbn [obind].
  rewrite drop_drop in H2.
  destruct (dbuf_read_4 int32_t b2 (drop 8 h) eq_refl ltac:(rewrite length_drop; lia) H2) as (b3 & -> & H3). cbn [obind].
  rewrite drop_drop in H3.
  destruct (dbuf_read_4 int32_t b3 (drop 12 h) eq_refl ltac:(rewrite length_drop; lia) H3) as (b4 & -> & H4). done.
Qed.

Section Receive.
Context {ST AS B : Type} {HS : Stream ST} {HSOK : StreamOk ST}.
Context {HA : Allocator AS} {HOK : AllocatorOk AS} {HB : DynamicBuffer B} {HBOK : DynamicBufferOk B}.
Context (dynamic_buffer : list byte -> B).
Context (Hdyn : forall c, zlen c < UINT64_SPAN -> readable (dynamic_buffer c) c).

Abbreviation outcome_of A := (outcome (world ST AS * (exn + A))).

(** What a receive left on the stream [s] says about the parser. *)
Definition recv_agrees (s : ST) (requestID responseTo : Z) (p : parsed (AS * list (list byte)))
  (r : outcome_of (option (any_message AS))) : Prop :=
  match p with
  | p_throw e => exists a, r = Done (mk_world s a, inl e)
  | p_abort => r = Abort
  | p_undef => r = Undef
  | p_ok (a, bss) => exists ds,
      r = Done (mk_world s a, inr (Some (mk_any_message requestID responseTo (mk_op_msg (map body_of ds))))) /\
      Forall2 holds_bytes_of bss ds
  end.

Lemma recv_content (w : world ST AS) s1 h s2 c total rid rto :
  async_read (w_stream w) 16 = (s1, inr h) -> zlen h = 16 -> header_fields h = (total, rid, rto, 2013) ->
  16 <= total -> async_read s1 (total - 16) = (s2, inr c) -> zlen c = total - 16 -> zlen c < UINT64_SPAN ->
  recv_agrees s2 rid rto (parse_content (w_alloc w) c) (recv_message dynamic_buffer w).
Proof.
  intros E1 Hl Hf Ht E2 Hc Hm. unfold recv_message, co_await, read_some, lift, throw_protocol_error.
  rewrite E1. ostep. destruct (Z.ltb_spec (zlen h) 16); [lia|].
  rewrite read_header_any, Hf by done. ostep. destruct (Z.ltb_spec total 16); [lia|].
  change (2013 =? 2013) with true. cbv iota. cbn [w_stream w_alloc]. rewrite E2. ostep.
  destruct (Z.ltb_spec (zlen c) (total - 16)); [lia|]. cbn [w_stream w_alloc].
  pose proof (content_refines (dynamic_buffer c) c rid rto (w_alloc w) (Hdyn c Hm)) as Hr. unfold content_agrees in Hr. unfold recv_agrees.
  destruct (parse_content (w_alloc w) c) as [[a' bss]|e| |].
  - destruct Hr as (ds & -> & Hds). ostep. exists ds. by split.
  - rewrite Hr. ostep. eauto.
  - by rewrite Hr.
  - by rewrite Hr.
Qed.

End Receive.

(** ** Messages of body sections *)

(** The view shows a document with body [B]. *)
Definition shows (v : bson_view) (B : list byte) : Prop :=
  v_data v <> 0 /\ bytes_at (v_mem v) (v_data v) (frame B) /\ 5 + zlen B <= INT32_MAX.

Lemma shows_bytes v B : shows v B -> doc_bytes v = Done (frame B).
Proof.
  intros (Hv & Hat & Hm). unfold doc_bytes, view_has_data, _bson_byte_size. pose proof (zlen_nonneg B).
  destruct (Z.eqb_spec (v_data v) 0); [done|].
  rewrite (read_le32 _ _ (4 + zlen B + 1)); [|unfold is_u32; lia|by eapply bytes_at_app_l].
  ostep. rewrite <- (rd_range_at _ _ _ Hat). f_equal. rewrite zlen_frame. lia.
Qed.

Definition sections_bytes (Bs : list (list byte)) : list byte := concat (map (fun B => x00 :: frame B) Bs).
Definition content_bytes (Bs : list (list byte)) : list byte := _flag_bits ++ sections_bytes Bs.
Definition message_size (Bs : list (list byte)) : Z := 16 + zlen (content_bytes Bs).
Definition message_bytes (req_id : Z) (Bs : list (list byte)) : list byte :=
  header_bytes (message_size Bs) req_id 0 2013 ++ content_bytes Bs.

Lemma buffers_content vs Bs : Forall2 shows vs Bs ->
  exists bufs, message_buffers (mk_op_msg (map mk_body vs)) = Done bufs /\ concat bufs = content_bytes Bs.
Proof.
  intros Hv. assert (exists bufs, _buffers (map mk_body vs) = Done bufs /\ concat bufs = sections_bytes Bs)
    as (bufs & Eb & Ec).
  { induction Hv as [|v B vs Bs Hv _ IH]; [by exists []|]. destruct IH as (bufs & Eb & Ec).
    eexists. split; [simpl; unfold body_section_buffers; cbn [body]; rewrite (shows_bytes v B Hv); cbn [obind]; rewrite Eb; done|].
    unfold sections_bytes in *. simpl. by rewrite Ec. }
  exists (_flag_bits :: bufs). split; [|simpl; by rewrite Ec].
  unfold message_buffers, array_message. cbn [sections]. rewrite gather_agrees. unfold op_msg_buffers.
  cbn [sections]. by rewrite Eb.
Qed.

(** The documents that a received section can hold. *)
Definition sendable (B : list byte) : Prop := B <> [] /\ 5 + zlen B <= INT32_MAX.

Lemma prefix_le32 n rest : 0 <= n < UINT32_SPAN -> length_prefix (le32 n ++ rest) = n.
Proof.
  intros Hn. rewrite le32_div. simpl. rewrite !b2z_z2b. divlia.
Qed.

Lemma parse_section_frame {AS} `{Allocator AS} (a : AS) B rest : sendable B ->
  parse_section a (x00 :: frame B ++ rest) =
    match document_allocation a (5 + zlen B) with Some a => p_ok (a, frame B, rest) | None => p_throw bad_alloc end.
Proof.
  intros [Hne Hm]. pose proof (zlen_nonneg rest). pose proof (zlen_nonneg B).
  assert (0 < zlen B) by (destruct B; [done|]; rewrite zlen_cons; pose proof (zlen_nonneg B); lia).
  unfold parse_section. rewrite decide_True by done.
  assert (length_prefix (frame B ++ rest) = zlen (frame B)) as ->.
  { unfold frame at 1. rewrite <- app_assoc, prefix_le32, zlen_frame by lia. lia. }
  rewrite zlen_app, zlen_frame. destruct (_ || _) eqn:E1; [lia|].
  destruct (Z.ltb_spec (5 + zlen B) 5); [lia|]. destruct (Z.eqb_spec (5 + zlen B) 5); [lia|].
  by rewrite <- zlen_frame, zlen_to_nat, take_app_length, drop_app_length.
Qed.

Lemma sections_bytes_cons B Bs : sections_bytes (B :: Bs) = x00 :: frame B ++ sections_bytes Bs.
Proof. done. Qed.

Lemma parse_sections_frames {AS} `{Allocator AS} Bs : Forall sendable Bs -> forall fuel (a : AS),
  (length (sections_bytes Bs) < fuel)%nat ->
  parse_sections fuel 0 a (sections_bytes Bs) =
    match documents_allocation a Bs with Some a => p_ok (a, map frame Bs) | None => p_throw bad_alloc end.
Proof.
  induction 1 as [|B Bs HB _ IH]; intros [|fuel] a Hf; try lia; [done|].
  rewrite sections_bytes_cons in *. cbn [parse_sections documents_allocation]. rewrite zlen_cons.
  pose proof (zlen_nonneg (frame B ++ sections_bytes Bs)).
  destruct (Z.gtb_spec (1 + zlen (frame B ++ sections_bytes Bs)) 0); [|lia].
  cbn [negb]. rewrite parse_section_frame by done. destruct (document_allocation a _) as [a'|]; [|done].
  rewrite IH; [by destruct (documents_allocation a' Bs)|].
  cbn [length] in Hf. rewrite length_app in Hf. lia.
Qed.

Lemma parse_content_frames {AS} `{Allocator AS} (a : AS) Bs : Forall sendable Bs ->
  parse_content a (content_bytes Bs) =
    match documents_allocation a Bs with Some a => p_ok (a, map frame Bs) | None => p_throw bad_alloc end.
Proof.
  intros HB. unfold parse_content, content_bytes. pose proof (zlen_nonneg (sections_bytes Bs)).
  rewrite zlen_app. change (zlen _flag_bits) with 4. destruct (Z.ltb_spec (4 + zlen (sections_bytes Bs)) 4); [lia|].
  change (length_prefix (_flag_bits ++ sections_bytes Bs)) with 0. change (Z.testbit 0 0) with false. cbv iota.
  change (drop 4 (_flag_bits ++ sections_bytes Bs)) with (sections_bytes Bs).
  apply parse_sections_frames; [done|]. rewrite length_app. lia.
Qed.

Section RoundTrip.
Context {ST AS B : Type} {HS : Stream ST} {HSOK : StreamOk ST}.
Context {HA : Allocator AS} {HOK : AllocatorOk AS} {HB : DynamicBuffer B} {HBOK : DynamicBufferOk B}.
Context (dynamic_buffer : list byte -> B).
Context (Hdyn : forall c, zlen c < UINT64_SPAN -> readable (dynamic_buffer c) c).

Lemma send_spec vs Bs rid (w : world ST AS) :
  Forall2 shows vs Bs -> message_size Bs <= INT32_MAX -> is_i32 rid ->
  exists w' r, send_message rid (mk_op_msg (map mk_body vs)) w = Done (w', r) /\
    match r with
    | inl e => exists ec, e = stream_error ec
    | inr _ => outgoing (w_stream w') = outgoing (w_stream w) ++ message_bytes rid Bs
    end.
Proof.
  intros Hv Hm Hr. destruct (buffers_content vs Bs Hv) as (bufs & Eb & Ec).
  unfold send_message, co_await, lift. rewrite Eb. ostep. rewrite msg_header_spec by done. ostep.
  rewrite Ec. change (zlen (replicate 16 x00)) with 16. fold (message_size Bs).
  assert (0 <= message_size Bs) by (unfold message_size; pose proof (zlen_nonneg (content_bytes Bs)); lia).
  rewrite u64_id by (unfold is_u64; lia). rewrite !s32_id by (unfold is_i32 in *; simpl; lia).
  unfold write_all. destruct (async_write (w_stream w) _) as [s' [ec|n]] eqn:Ew; ostep.
  - eexists _, _. split; [done|]. simpl. by exists ec.
  - eexists _, _. split; [done|]. simpl. by apply write_sent in Ew.
Qed.

Lemma recv_sent Bs rid (w : world ST AS) rest :
  Forall sendable Bs -> message_size Bs <= INT32_MAX -> is_i32 rid ->
  incoming (w_stream w) = message_bytes rid Bs ++ rest ->
  exists w' r, recv_message dynamic_buffer w = Done (w', r) /\ incoming (w_stream w') = rest /\
    match documents_allocation (w_alloc w) Bs with
    | None => r = inl bad_alloc
    | Some a => w_alloc w' = a /\ exists ds, r = inr (Some (mk_any_message rid 0 (mk_op_msg (map body_of ds)))) /\
       Forall2 (fun B d => exists cap, doc_holds d B cap) Bs ds
    end.
Proof.
  intros HBs Hm Hr Hin. unfold message_bytes in Hin. rewrite <- app_assoc in Hin.
  destruct (read_there _ _ _ Hin) as (s1 & E1 & Hin1). rewrite zlen_header_bytes in E1.
  destruct (read_there _ _ _ Hin1) as (s2 & E2 & Hin2).
  assert (zlen (content_bytes Bs) = message_size Bs - 16) as Hc by (unfold message_size; lia).
  pose proof (zlen_nonneg (content_bytes Bs)).
  set (h := header_bytes (message_size Bs) rid 0 2013) in *.
  assert (zlen h = 16) as Hl by apply zlen_header_bytes.
  assert (header_fields h = (message_size Bs, rid, 0, 2013)) as Hf.
  { pose proof (read_header_any h Hl) as Ha. subst h. rewrite read_header_spec in Ha by (done || lia).
    congruence. }
  rewrite Hc in E2.
  pose proof (recv_content dynamic_buffer Hdyn w s1 h s2 _ _ rid 0 E1 Hl Hf ltac:(lia) E2 Hc ltac:(lia)) as Hok.
  rewrite parse_content_frames in Hok by done. destruct (documents_allocation (w_alloc w) Bs) as [a|].
  2:{ destruct Hok as (a & ->). by eexists _, _. }
  destruct Hok as (ds & -> & Hds).
  eexists _, _. split; [done|]. split; [done|]. split; [done|]. exists ds. split; [done|].
  apply (Forall2_fmap_l frame) in Hds. eapply Forall2_impl; [exact Hds|]. intros B0 d (cap & Hd).
  exists cap. by apply received_frame.
Qed.

(** Receiving writes nothing. *)
Lemma recv_keeps (w w' : world ST AS) r :
  recv_message dynamic_buffer w = Done (w', r) -> outgoing (w_stream w') = outgoing (w_stream w).
Proof.
  unfold recv_message, co_await, read_some, lift, throw_protocol_error, throw.
  destruct (async_read (w_stream w) 16) as [s1 r1] eqn:E1. apply read_keeps in E1. ostep.
  destruct r1 as [ec|h]; [by intros [= <- _]|]. destruct (zlen h <? 16); [by intros [= <- _]|].
  destruct (read_header h) as [hd| |]; [|done..]. ostep.
  destruct hd as [e|[[[total rid] rto] op]]; [by intros [= <- _]|].
  destruct (total <? 16); [by intros [= <- _]|]. destruct (op =? 2013); [|by intros [= <- _]].
  cbn [w_stream w_alloc]. destruct (async_read s1 (total - 16)) as [s2 r2] eqn:E2. apply read_keeps in E2. ostep.
  rewrite E1 in E2. destruct r2 as [ec|c]; [by intros [= <- _]|].
  destruct (zlen c <? total - 16); [by intros [= <- _]|]. cbn [w_stream w_alloc].
  destruct (read_op_msg _ _ _ _ _) as [[e|[[a msg]|]]| |]; [by intros [= <- _]..|done|done].
Qed.

End RoundTrip.

(** ** A pipe, and messages that were not foreseen *)

(** Bytes to deliver and bytes written; reading past the end is an error. *)
Record pipe : Type := mk_pipe { p_in : list byte; p_out : list byte }.
Definition error_eof : Z := 2.

#[export] Instance pipe_stream : Stream pipe := {
  async_read s n :=
    if (0 <=? n) && (n <=? zlen (p_in s)) then
      (mk_pipe (drop (Z.to_nat n) (p_in s)) (p_out s), inr (take (Z.to_nat n) (p_in s)))
    else (s, inl error_eof);
  async_write s bs := (mk_pipe (p_in s) (p_out s ++ bs), inr (zlen bs)) }.

Lemma pipe_read_length s n s' bs : async_read s n = (s', inr bs) -> 0 <= n -> zlen bs = n.
Proof.
  unfold async_read. simpl. destruct (_ && _) eqn:E; [|done]. intros [= _ <-] Hn. unfold zlen in *.
  rewrite length_take. lia.
Qed.

Lemma pipe_read_there s bs rest : p_in s = bs ++ rest ->
  exists s', async_read s (zlen bs) = (s', inr bs) /\ p_in s' = rest.
Proof.
  intros E. unfold async_read. simpl. rewrite E, zlen_app. pose proof (zlen_nonneg bs). pose proof (zlen_nonneg rest).
  destruct (_ && _) eqn:C; [|lia]. rewrite zlen_to_nat, take_app_length, drop_app_length. eauto.
Qed.

Lemma pipe_write_sent s bs s' n : async_write s bs = (s', inr n) -> p_out s' = p_out s ++ bs.
Proof. by intros [= <- _]. Qed.

Lemma pipe_read_keeps s n s' r : async_read s n = (s', r) -> p_out s' = p_out s.
Proof. unfold async_read. simpl. by destruct (_ && _); intros [= <- _]. Qed.

#[export] Instance pipe_stream_ok : StreamOk pipe := {
  incoming := p_in;
  outgoing := p_out;
  read_length := pipe_read_length;
  read_there := pipe_read_there;
  read_keeps := pipe_read_keeps;
  write_sent := pipe_write_sent }.

(** The buffer class of the repository, all bytes committed. *)
Definition whole_buffer (c : list byte) : generic_dynamic_buffer_v1 := mk_dbuf c 0 (zlen c).

Lemma whole_buffer_readable c : zlen c < UINT64_SPAN -> readable (whole_buffer c) c.
Proof. intros H. exists [], []. simpl. by rewrite app_nil_r. Qed.

Definition pipe_world (l : list byte) : world pipe arena := mk_world (mk_pipe l []) (mk_arena 0 4096).

(** The body of the document with the one element [a : true]. *)
Definition sample_body : list byte := map z2b [8; 97; 0; 1].



(** A reply whose body is the empty document: its bytes are stored into the
    shared constant document. *)
Theorem receive_empty_document_undefined :
  recv_message whole_buffer (pipe_world (message_bytes 1 [[]])) = Undef.
Proof. by vm_compute. Qed.

(** A reply whose section declares fewer than five bytes stops the process. *)
Theorem receive_short_document_aborts :
  recv_message whole_buffer
    (pipe_world (header_bytes 26 1 0 2013 ++ map z2b [0; 0; 0; 0; 0; 4; 0; 0; 0; 0])) = Abort.
Proof. by vm_compute. Qed.

(** Sending a received message again: each section carries its kind byte twice,
    and the receiver rejects it. *)
Definition resend (l : list byte) : option exn :=
  match recv_message whole_buffer (pipe_world l) with
  | Done (w, inr (Some msg)) =>
      match send_message 5 msg w with
      | Done (w, inr _) =>
          match recv_message whole_buffer (pipe_world (p_out (w_stream w))) with
          | Done (_, inl e) => Some e
          | _ => None
          end
      | _ => None
      end
  | _ => None
  end.

Theorem resend_doubles_kind :
  resend (message_bytes 1 [sample_body]) = Some (protocol_error "short read").
Proof. by vm_compute. Qed.
