(* ===== verification/WireClient.v ===== *)
(** * Wire clients ([src/amongoc/wire/client.hpp], [src/amongoc/wire/error.cpp])

    The client that numbers its requests, the adaptors that retry and that check
    the reply, and how a reply of the server becomes an exception. *)
From Stdlib Require Import ZArith Lia.
From Stdlib Require Import Strings.Byte Strings.String.
From stdpp Require Import base numbers list sets.
From S2P Require Import Prelude.
From S2P Require Import Mem.
From S2P Require Import Types.
From S2P Require Import Value.
From S2P Require Import View.
From S2P Require Import Iterator.
From S2P Require Import IteratorSafe.
From S2P Require Import Codec.
From S2P Require Import Alloc.
From S2P Require Import Doc.
From S2P Require Import Wire.
From S2P Require Import WireSpec.
Open Scope Z_scope.

Definition key (s : string) : list byte := String.list_byte_of_string s.

(** ** Errors of the server ([wire/error.cpp]) *)

Section Errors.
Context {AS : Type} `{Allocator AS}.

(** [document::find], [noexcept]: the conversion to a view throws when the bytes
    are not a document, which terminates the process.  The fuel is enough for
    any document. *)
Definition document_find (d : bson_doc AS) (k : list byte) : outcome bson_iterator :=
  let m := doc_buf d in
  let* n := _bson_byte_size m (_bson_document_data d) in
  let* v := view_from_data m (_bson_document_data d) n in
  match v with
  | inr _ => Abort
  | inl p =>
      let* r := _bson_find (loop_fuel n) m p k in
      match r with Some it => Done it | None => Abort end
  end.

Definition document_end (d : bson_doc AS) : outcome bson_iterator :=
  _bson_end (doc_buf d) (_bson_document_data d).

(** [operator->], [noexcept]: the dereference throws on an errant iterator. *)
Definition arrow (it : bson_iterator) : outcome bson_iterator :=
  assert! bson_iterator_get_error it =? bson_iter_errc_okay in Done it.

Definition value_at (d : bson_doc AS) (it : bson_iterator) : outcome bson_value_ref :=
  let* it := arrow it in bson_iterator_value (doc_buf d) it.

(** The member [utf8] of a value: indeterminate for a value of another type. *)
Definition utf8_member (v : bson_value_ref) : outcome (list byte) :=
  match v with v_utf8 s => Done s | _ => Undef end.

(** The constructor [server_error(bson::document)]. *)
Definition make_server_error (msg : bson_doc AS) : outcome exn :=
  let* it := document_find msg (key "code") in
  let* v := value_at msg it in
  let* (_, code) := bson_value_as_int32 v in
  let* it := document_find msg (key "errmsg") in
  let* v := value_at msg it in
  let* what := utf8_member v in
  let* bytes := doc_bytes msg in
  Done (server_error code what bytes).

(** [throw_if_section_error]: the exception that is thrown, if any.  The body is
    copied into the exception. *)
Definition throw_if_body_error (body : bson_doc AS) : outcome (option exn) :=
  let* ok := document_find body (key "ok") in
  let* e := document_end body in
  if bson_iterator_eq ok e then Done None
  else
    let* v := value_at body ok in
    let* b := bson_value_as_bool v in
    if b then Done None
    else
      let* copy := _bson_copy_doc body in
      omap_outcome Some (make_server_error copy).

Definition throw_if_section_error (sec : any_section AS) : outcome (option exn) :=
  match sec with any_body s => throw_if_body_error (body s) end.

Fixpoint throw_if_sections_error (secs : list (any_section AS)) : outcome (option exn) :=
  match secs with
  | [] => Done None
  | sec :: secs =>
      let* r := throw_if_section_error sec in
      match r with Some e => Done (Some e) | None => throw_if_sections_error secs end
  end.

Definition throw_if_message_error (msg : any_message AS) : outcome (option exn) :=
  throw_if_sections_error (sections (content msg)).
End Errors.

(** ** Clients *)

(** The [client_interface] concept: a request on the state [C] of the client. *)
Class ClientInterface (C M R : Type) : Type := request : M -> co_task C R.

(** [std::system_error] and what derives from it. *)
Definition is_system_error (e : exn) : bool := match e with bad_alloc => false | _ => true end.

Section Client.
Context {ST AS B M : Type} `{Stream ST} `{Allocator AS} `{DynamicBuffer B} `{MessageType M}.
Context (dynamic_buffer : list byte -> B).

Record client : Type := mk_client { c_world : world ST AS; _request_id : Z }.

(** [client::_request]: the id of the request is the counter, which is
    incremented (a signed overflow is undefined). *)
Definition client_request (msg : M) : co_task client (any_message AS) := fun self =>
  let id := _request_id self in
  if id =? INT32_MAX then Undef
  else
    let task :=
      let! _ := send_message id msg in
      recv_message dynamic_buffer in
    let* (w, r) := task (c_world self) in
    let self := mk_client w (id + 1) in
    match r with
    | inl e => Done (self, inl e)
    | inr (Some reply) => Done (self, inr reply)
    | inr None => Abort
    end.
End Client.
Arguments client : clear implicits.

Section Adaptors.
Context {C M AS : Type} `{Allocator AS} {HC : ClientInterface C M (any_message AS)}.

Record retrying_client : Type := mk_retrying { rc_client : C; _n_tries : Z }.

(** The loop of [retrying_client::_request]; [None] when the fuel runs out. *)
Fixpoint retry_loop (fuel : nat) (msg : M) (tries_remaining : Z) : co_task C (option (any_message AS)) :=
  fun c =>
  match fuel with
  | O => Done (c, inr None)
  | S fuel =>
      let* (c, r) := request msg c in
      match r with
      | inr reply => Done (c, inr (Some reply))
      | inl err =>
          if is_system_error err then
            if tries_remaining =? INT32_MIN then Undef
            else
              let tries_remaining := tries_remaining - 1 in
              if tries_remaining <? 1 then Done (c, inl err)
              else retry_loop fuel msg tries_remaining c
          else Done (c, inl err)
      end
  end.

Definition retrying_request (msg : M) : co_task retrying_client (option (any_message AS)) := fun self =>
  let n := _n_tries self in
  let* (c, r) := retry_loop (S (Z.to_nat n)) msg n (rc_client self) in
  Done (mk_retrying c n, r).

(** [checking_client::_request]. *)
Definition checking_request (msg : M) : co_task C (any_message AS) :=
  let! resp := request msg in
  let! err := lift (throw_if_message_error resp) in
  match err with Some e => throw e | None => co_return resp end.

(** [simple_request]: the body of the one section of the reply. *)
Definition simple_request (msg : M) : co_task C (bson_doc AS) :=
  let! r := request msg in lift (expect_one_body_section_op_msg r).
End Adaptors.
Arguments retrying_client : clear implicits.

(** ** Lookup in a document that holds elements *)

(** The value of the first element with the key. *)
Definition first_value (es : list element) (k : list byte) : option bson_value_ref :=
  snd <$> List.find (fun kv => bool_decide (fst kv = k)) es.

(** The three members of a reply that are looked at can be read. *)
Definition reply_wf (es : list element) : Prop :=
  Forall elem_wf es /\ doc_size es <= INT32_MAX /\
  forall k v, first_value es (key k) = Some v -> Codec.readable v.

Lemma find_spec_position v es k : forall rest pre, es = pre ++ rest ->
  match first_value rest k with
  | None => find_spec v es pre rest k = iter_of v es es []
  | Some w => exists pre' rest', es = pre' ++ (k, w) :: rest' /\
      find_spec v es pre rest k = iter_of v es pre' ((k, w) :: rest')
  end.
Proof.
  unfold first_value. induction rest as [|[k' w] rest IH]; intros pre E; simpl; [done|].
  destruct (decide (k' = k)) as [->|Hne].
  - rewrite bool_decide_eq_true_2 by done. simpl. eauto.
  - rewrite bool_decide_eq_false_2 by done. apply IH. by rewrite <- app_assoc.
Qed.

Lemma frame_encode es : frame (encode_body es) = encode_doc es.
Proof. done. Qed.

Lemma body_at_least es : Z.of_nat (length es) <= zlen (encode_body es).
Proof.
  induction es as [|[k v] es IH]; [done|]. rewrite encode_body_cons, zlen_app, zlen_encode_elem.
  pose proof (zlen_nonneg k). pose proof (zlen_nonneg (encode_value v)). simpl length. lia.
Qed.

Lemma view_of_doc m p n : p <> 0 -> doc_at m p n ->
  _bson_byte_size m p = Done n /\ view_from_data m p n = Done (inl p).
Proof.
  intros Hp Hd. split; [by apply doc_at_size|]. destruct Hd as (Hn & Hh & Hz).
  unfold view_from_data, bson_view_from_data. destruct (Z.ltb_spec n 5); [lia|].
  rewrite (read_le32 _ _ n) by (done || (unfold is_u32; lia)). ostep.
  rewrite s32_id by (unfold is_i32; lia). destruct (Z.ltb_spec n 5); [lia|].
  rewrite u32_id by (unfold is_u32; lia). destruct (Z.gtb_spec n n); [lia|].
  by rewrite (rd8_at _ _ _ Hz).
Qed.

Section Reply.
Context {AS : Type} {HA : Allocator AS} {HOK : AllocatorOk AS}.
Context (d : bson_doc AS) (es : list element) (cap : Z).
Context (Hd : doc_holds d (encode_body es) cap) (Hwf : Forall elem_wf es) (Hmax : doc_size es <= INT32_MAX).

Lemma find_value k :
  exists it, document_find d k = Done it /\ document_end d = Done (iter_of (_bson_document_data d) es es []) /\
    match first_value es k with
    | None => bson_iterator_eq it (iter_of (_bson_document_data d) es es []) = true /\ value_at d it = Done v_eod
    | Some w => bson_iterator_eq it (iter_of (_bson_document_data d) es es []) = false /\
        (Codec.readable w -> value_at d it = Done w)
    end.
Proof.
  pose proof (holds_at _ _ _ Hd) as Hat. rewrite frame_encode in Hat.
  pose proof (holds_base_pos _ _ _ Hd) as Hb. set (p := _bson_document_data d) in *.
  assert (p <> 0) as Hp by (subst p; rewrite (holds_data _ _ _ Hd); lia).
  destruct (view_of_doc (doc_buf d) p (doc_size es) Hp) as [Hsz Hv]; [by apply encoded_doc_at|].
  unfold document_find. fold p. rewrite Hsz. ostep. rewrite Hv. ostep.
  rewrite (find_loop _ _ _ es k Hb Hat Hwf Hmax).
  2:{ unfold loop_fuel, doc_size. pose proof (body_at_least es). lia. }
  ostep. eexists. split; [done|]. unfold document_end. fold p. rewrite (end_encode _ _ es) by done.
  split; [done|]. pose proof (find_spec_position p es k es [] eq_refl) as Hf.
  destruct (first_value es k) as [w|].
  - destruct Hf as (pre & rest & E & ->).
    destruct (element_access _ p es Hb Hat Hwf Hmax pre k w rest E) as (_ & _ & Hval & He).
    destruct (doc_split _ p es Hat Hwf Hmax _ _ _ E) as (_ & Hlt & _).
    rewrite zlen_encode_elem in Hlt. pose proof (zlen_nonneg k). pose proof (zlen_nonneg (encode_value w)).
    split; [unfold bson_iterator_eq; simpl; apply Z.eqb_neq; lia|].
    intros Hr. unfold value_at, arrow. rewrite He. change (0 =? bson_iter_errc_okay) with true. by apply Hval.
  - rewrite Hf. split; [apply Z.eqb_refl|]. unfold value_at, arrow, iter_of. simpl. ostep.
    unfold bson_iterator_value, bson_iterator_type. simpl. by rewrite (rd8_at _ _ _ (doc_zero _ p es Hat Hmax)).
Qed.
End Reply.

(** ** What a reply means *)

(** The exception that a reply stands for: none without a false [ok] member;
    otherwise the error of the server with its code (0 when there is none) and
    its message, which is read without a check. *)
Definition reply_error (es : list element) : outcome (option exn) :=
  match first_value es (key "ok") with
  | None => Done None
  | Some v =>
      let* b := bson_value_as_bool v in
      if b then Done None
      else
        let* (_, code) := bson_value_as_int32 (default v_eod (first_value es (key "code"))) in
        let* what := utf8_member (default v_eod (first_value es (key "errmsg"))) in
        Done (Some (server_error code what (encode_doc es)))
  end.

Section ReplySpec.
Context {AS : Type} {HA : Allocator AS} {HOK : AllocatorOk AS}.

Lemma find_default (d : bson_doc AS) es cap k :
  doc_holds d (encode_body es) cap -> reply_wf es ->
  exists it, document_find d (key k) = Done it /\ value_at d it = Done (default v_eod (first_value es (key k))).
Proof.
  intros Hd (Hwf & Hmax & Hr). destruct (find_value d es cap Hd Hwf Hmax (key k)) as (it & E & _ & Hv).
  exists it. split; [done|]. specialize (Hr k). destruct (first_value es (key k)); [|by destruct Hv].
  destruct Hv as [_ Hv]. by apply Hv, Hr.
Qed.

Lemma doc_bytes_holds (d : bson_doc AS) B cap : doc_holds d B cap -> doc_bytes d = Done (frame B).
Proof.
  intros Hd. unfold doc_bytes, doc_has_data. pose proof (holds_at _ _ _ Hd) as Hat.
  pose proof (holds_room _ _ _ Hd). pose proof (holds_cap _ _ _ Hd). pose proof (zlen_nonneg B).
  pose proof (holds_base_pos _ _ _ Hd). pose proof (holds_data _ _ _ Hd).
  unfold _bson_byte_size. destruct (Z.eqb_spec (_bson_document_data d) 0); [lia|].
  rewrite (read_le32 _ _ (4 + zlen B + 1)); [|unfold is_u32; lia|by eapply bytes_at_app_l].
  ostep. replace (4 + zlen B + 1) with (zlen (frame B)) by (rewrite zlen_frame; lia). by apply rd_range_at.
Qed.

Lemma server_error_spec (d : bson_doc AS) es cap :
  doc_holds d (encode_body es) cap -> reply_wf es ->
  make_server_error d =
    let* (_, code) := bson_value_as_int32 (default v_eod (first_value es (key "code"))) in
    let* what := utf8_member (default v_eod (first_value es (key "errmsg"))) in
    Done (server_error code what (encode_doc es)).
Proof.
  intros Hd Hw. unfold make_server_error.
  destruct (find_default d es cap "code" Hd Hw) as (i1 & -> & E1). ostep. rewrite E1. ostep.
  destruct (bson_value_as_int32 _) as [[okay code]| |]; [|done..]. ostep.
  destruct (find_default d es cap "errmsg" Hd Hw) as (i2 & -> & E2). ostep. rewrite E2. ostep.
  destruct (utf8_member _); [|done..]. ostep. rewrite (doc_bytes_holds _ _ _ Hd). done.
Qed.

Lemma body_error_spec (d : bson_doc AS) es cap :
  doc_holds d (encode_body es) cap -> reply_wf es ->
  refused (doc_size es) (_allocator d) \/ throw_if_body_error d = reply_error es.
Proof.
  intros Hd Hw. pose proof Hw as (Hwf & Hmax & Hr). unfold throw_if_body_error, reply_error.
  destruct (find_value d es cap Hd Hwf Hmax (key "ok")) as (it & -> & He & Hv). ostep. rewrite He. ostep.
  destruct (first_value es (key "ok")) as [v|] eqn:Eok; destruct Hv as [-> Hv]; [|by right].
  rewrite (Hv (Hr "ok"%string v Eok)). ostep. destruct (bson_value_as_bool v) as [[]| |]; [by right| |by right..].
  ostep. pose proof (holds_data _ _ _ Hd). pose proof (holds_base_pos _ _ _ Hd).
  destruct (copy_spec (doc_buf d) (_bson_document_data d) (encode_body es) (_allocator d))
    as [Href | (d' & cap' & Ec & Hd')].
  - lia.
  - by eapply holds_at.
  - unfold doc_size in Hmax. lia.
  - left. unfold doc_size. by replace (4 + zlen (encode_body es) + 1) with (5 + zlen (encode_body es)) by lia.
  - right. unfold _bson_copy_doc, bson_doc_get_allocator. rewrite Ec. ostep.
    rewrite (server_error_spec d' es cap' Hd' Hw).
    destruct (bson_value_as_int32 _) as [[okay code]| |]; [|done..]. ostep. by destruct (utf8_member _).
Qed.
End ReplySpec.

(** ** Claims *)

(** The exception of the first section that is an error. *)
Fixpoint first_error (ess : list (list element)) : outcome (option exn) :=
  match ess with
  | [] => Done None
  | es :: ess =>
      let* r := reply_error es in
      match r with Some e => Done (Some e) | None => first_error ess end
  end.

Section Claims.
Context {AS : Type} {HA : Allocator AS} {HOK : AllocatorOk AS}.

(** The document holds the elements, and there is memory for a copy. *)
Definition reply_holds (es : list element) (d : bson_doc AS) : Prop :=
  (exists cap, doc_holds d (encode_body es) cap) /\ reply_wf es /\ ~ refused (doc_size es) (_allocator d).

Lemma message_error_spec ess ds : Forall2 reply_holds ess ds ->
  throw_if_sections_error (map body_of ds) = first_error ess.
Proof.
  induction 1 as [|es d ess ds ((cap & Hd) & Hw & Hn) _ IH]; [done|]. simpl.
  destruct (body_error_spec d es cap Hd Hw) as [Hr | ->]; [done|].
  destruct (reply_error es) as [[e|]| |]; [done | exact IH | done..].
Qed.

(** C18. Checked replies: a [checking_client] passes on what its client throws; a
    reply is returned when no section has a false [ok] member, and otherwise
    becomes the exception of the first such section, with the code and message
    of the server. *)
Theorem checking_request_spec {C M} `{ClientInterface C M (any_message AS)} msg (c c' : C) r :
  request msg c = Done (c', r) ->
  match r with
  | inl e => checking_request msg c = Done (c', inl e)
  | inr resp => forall ess ds, sections (content resp) = map body_of ds -> Forall2 reply_holds ess ds ->
      checking_request msg c =
        let* err := first_error ess in
        Done (c', match err with Some e => inl e | None => inr resp end)
  end.
Proof.
  intros E. unfold checking_request, co_await, lift. rewrite E. ostep. destruct r as [e|resp]; [done|].
  intros ess ds Es Hds. unfold throw_if_message_error. rewrite Es, (message_error_spec ess ds Hds).
  by destruct (first_error ess) as [[e|]| |].
Qed.

(** A client in which every request counts. *)
Definition counts {C M R} `{ClientInterface C M R} (count : C -> Z) : Prop :=
  forall msg c c' r, request msg c = Done (c', r) -> count c' = count c + 1.

Lemma retry_loop_count {C M} `{ClientInterface C M (any_message AS)} count (Hc : counts count) msg fuel :
  forall tries c c' r, retry_loop fuel msg tries c = Done (c', r) -> Z.max 1 tries <= Z.of_nat fuel ->
  r <> inr None /\ 1 <= count c' - count c <= Z.max 1 tries /\
  forall e, r = inl e -> is_system_error e = true -> count c' - count c = Z.max 1 tries.
Proof.
  induction fuel as [|fuel IH]; intros tries c c' r; [lia|]. simpl.
  destruct (request msg c) as [[c1 r1]| |] eqn:E; [|done..]. ostep. apply Hc in E.
  intros Hrun Hf. destruct r1 as [err|reply].
  2:{ injection Hrun as <- <-. split_and!; [done|lia|lia|done]. }
  destruct (is_system_error err) eqn:Es.
  2:{ injection Hrun as <- <-. split_and!; [done|lia|lia|]. intros e [= <-]. congruence. }
  destruct (tries =? INT32_MIN); [done|]. destruct (Z.ltb_spec (tries - 1) 1).
  - injection Hrun as <- <-. split_and!; [done|lia|lia|]. intros; lia.
  - destruct (IH _ _ _ _ Hrun ltac:(lia)) as (Hn & Hb & He). split_and!; [done|lia|lia|].
    intros e He1 He2. specialize (He e He1 He2). lia.
Qed.

(** Retrying: a [retrying_client] makes at least one attempt and at most as many
    as configured; it gives up with a system error only after the last of them,
    and a failed allocation is not retried. *)
Theorem retry_attempts {C M} `{ClientInterface C M (any_message AS)} count msg (self self' : retrying_client C) r :
  counts count -> retrying_request msg self = Done (self', r) ->
  let attempts := count (rc_client self') - count (rc_client self) in
  r <> inr None /\ 1 <= attempts <= Z.max 1 (_n_tries self) /\
  forall e, r = inl e -> is_system_error e = true -> attempts = Z.max 1 (_n_tries self).
Proof.
  intros Hc. unfold retrying_request.
  destruct (retry_loop _ msg (_n_tries self) (rc_client self)) as [[c r']| |] eqn:E; [|done..].
  intros [= <- <-]. simpl. eapply (retry_loop_count count Hc); [exact E | lia].
Qed.
End Claims.

Section Numbered.
Context {ST AS B : Type} {HS : Stream ST} {HSOK : StreamOk ST}.
Context {HA : Allocator AS} {HOK : AllocatorOk AS} {HB : DynamicBuffer B}.
Context (dynamic_buffer : list byte -> B).

(** Request ids: each request of a client carries the counter of the client as
    its id and increments it, whether or not the request succeeds. *)
Theorem client_request_numbered vs Bs (c c' : client ST AS) r :
  Forall2 shows vs Bs -> message_size Bs <= INT32_MAX -> is_i32 (_request_id c) ->
  client_request dynamic_buffer (mk_op_msg (map mk_body vs)) c = Done (c', r) ->
  _request_id c' = _request_id c + 1 /\ is_i32 (_request_id c') /\
  (outgoing (w_stream (c_world c')) =
     outgoing (w_stream (c_world c)) ++ message_bytes (_request_id c) Bs \/
   exists ec, r = inl (stream_error ec)).
Proof.
  intros Hv Hm Hi. unfold client_request. destruct (Z.eqb_spec (_request_id c) INT32_MAX); [done|].
  unfold co_await at 1.
  destruct (send_spec vs Bs (_request_id c) (c_world c) Hv Hm Hi) as (w1 & r1 & -> & H1). ostep.
  destruct r1 as [e|[]].
  - destruct H1 as (ec & ->). ostep. intros [= <- <-]. simpl. unfold is_i32 in *. split_and!; [lia..|eauto].
  - destruct (recv_message dynamic_buffer w1) as [[w2 r2]| |] eqn:E; [|done..]. ostep.
    apply recv_keeps in E. destruct r2 as [e|[reply|]]; [| |done]; intros [= <- <-]; simpl;
      unfold is_i32 in *; split_and!; try lia; left; congruence.
Qed.
End Numbered.

(** ** Witnesses *)

Lemma client_counts {ST AS B M} `{Stream ST} `{Allocator AS} `{DynamicBuffer B} `{MessageType M}
  (db : list byte -> B) :
  @counts _ M (any_message AS) (client_request db) (_request_id (ST := ST)).
Proof.
  intros msg c c' r. unfold request, client_request. destruct (_ =? _); [done|].
  destruct (co_await _ _ _) as [[w r']| |]; [|done..]. ostep.
  destruct r' as [e|[reply|]]; [| |done]; by intros [= <- _].
Qed.

#[export] Instance pipe_client
  : ClientInterface (client pipe arena) (op_msg_message (body_section bson_view)) (any_message arena) :=
  client_request whole_buffer.

Definition ping : op_msg_message (body_section bson_view) :=
  mk_op_msg [mk_body (mk_view (mk_block 4096 (frame sample_body)) 4096)].

(** Witness of [retry_attempts]: the peer is gone. *)
Lemma retry_attempts_witness :
  exists self', retrying_request ping (mk_retrying (mk_client (pipe_world []) 0) 3) =
      Done (self', inl (stream_error error_eof)) /\ _request_id (rc_client self') = 3.
Proof.
  destruct (retrying_request ping (mk_retrying (mk_client (pipe_world []) 0) 3)) as [[self' r]| |] eqn:E.
  - destruct (retry_attempts _request_id ping (mk_retrying (mk_client (pipe_world []) 0) 3) self' r)
      as (_ & _ & H).
    + exact (client_counts whole_buffer).
    + exact E.
    + assert (r = inl (stream_error error_eof)) as -> by (vm_compute in E; injection E as _ <-; reflexivity).
      exists self'. split; [reflexivity|]. specialize (H _ eq_refl eq_refl). simpl in H. lia.
  - vm_compute in E. discriminate E.
  - vm_compute in E. discriminate E.
Defined.

(** Witness of [client_request_numbered]. *)
Lemma client_request_numbered_witness :
  exists c' r, client_request whole_buffer ping (mk_client (pipe_world []) 41) = Done (c', r) /\
    _request_id c' = 42.
Proof.
  destruct (client_request whole_buffer ping (mk_client (pipe_world []) 41)) as [[c' r]| |] eqn:E.
  - exists c', r. split; [reflexivity|].
    destruct (client_request_numbered whole_buffer [mk_view (mk_block 4096 (frame sample_body)) 4096]
      [sample_body] (mk_client (pipe_world []) 41) c' r) as (H & _ & _).
    + constructor; [|constructor]. split; [discriminate|]. split; [|vm_compute; discriminate].
      apply bytes_at_check. vm_compute. reflexivity.
    + vm_compute. discriminate.
    + split; vm_compute; discriminate.
    + exact E.
    + exact H.
  - vm_compute in E. discriminate E.
  - vm_compute in E. discriminate E.
Defined.

(** A refusal of the server. *)
Definition refusal : list element :=
  [(key "ok", v_int32 0); (key "code", v_int32 13); (key "errmsg", v_utf8 (key "no"))].

Definition refused_reply : list byte := message_bytes 7 [encode_body refusal].

Lemma first_value_all es k v :
  Forall (fun kv => Codec.readable (snd kv)) es -> first_value es k = Some v -> Codec.readable v.
Proof.
  unfold first_value. intros Hr Hf. destruct (List.find _ es) as [[k' w]|] eqn:E; [|done].
  injection Hf as <-. apply List.find_some in E as [Hin _]. rewrite List.Forall_forall in Hr. by apply (Hr (k', w)).
Qed.

Lemma refusal_wf : reply_wf refusal.
Proof.
  assert (Forall (fun kv => elem_wf kv /\ Codec.readable (snd kv)) refusal) as H.
  { unfold refusal, elem_wf, Codec.readable. repeat (apply Forall_cons; split); try apply Forall_nil; simpl;
      split_and?; first [done | by vm_compute | by apply (bool_decide_unpack _); vm_compute]. }
  split; [|split; [by vm_compute|]]; [|intros k v; apply first_value_all];
    (eapply Forall_impl; [exact H|]; naive_solver).
Qed.

(** Witness of [checking_request_spec]. *)
Lemma checking_request_witness :
  exists c', checking_request ping (mk_client (pipe_world refused_reply) 0) =
    Done (c', inl (server_error 13 (key "no") (encode_doc refusal))).
Proof.
  destruct (request ping (mk_client (pipe_world refused_reply) 0)) as [[c' r]| |] eqn:E.
  2,3: vm_compute in E; discriminate E.
  pose proof (checking_request_spec ping _ c' r E) as H. vm_compute in E. injection E as <- <-.
  set (d := mk_doc 68 (mk_block 64 (le32 38 ++ encode_doc refusal)) (mk_arena 42 4054)).
  eexists. rewrite (H [refusal] [d]); [vm_compute; reflexivity | vm_compute; reflexivity |]. clear H.
  constructor; [|constructor]. split; [|split; [exact refusal_wf|]].
  - exists 38. split; [exists []; split; vm_compute; reflexivity | vm_compute; discriminate | reflexivity |
      vm_compute; discriminate].
  - intros (d0 & Hd). vm_compute in Hd. discriminate Hd.
Defined.

(** A refusal without a message: the member of the union that is read is not the
    one of the value. *)
Theorem missing_errmsg_undefined :
  checking_request ping
    (mk_client (pipe_world (message_bytes 7 [encode_body [(key "ok", v_int32 0)]])) 0) = Undef.
Proof. by vm_compute. Qed.

(** A reply with two sections stops the process. *)
Theorem two_sections_terminate :
  simple_request ping
    (mk_client (pipe_world (message_bytes 7 [sample_body; sample_body])) 0) = Abort.
Proof. by vm_compute. Qed.
