(* ===== verification/Uri.v ===== *)
(** * Connection strings ([src/amongoc/uri.hpp], [src/amongoc/uri.cpp])

    The interpretation of a connection string: scheme, host, port, credentials
    and the query parameters with their warnings.  Splitting the URL, decoding
    percent escapes (Boost.URL) and splitting on commas (neo) are parameters. *)
From Stdlib Require Import ZArith Lia.
From Stdlib Require Import Strings.Byte Strings.String.
From stdpp Require Import base numbers list sets.
From S2P Require Import Prelude.
Open Scope Z_scope.

(** A text, and the text of a literal. *)
Abbreviation text := (list byte).
Definition chars (s : string) : text := String.list_byte_of_string s.

(** ** Statuses *)

Inductive category : Type := generic_category | system_category | unknown_category.
Record status : Type := mk_status { st_category : category; st_code : Z }.

Definition EINVAL : Z := 22.
Definition EPROTONOSUPPORT : Z := 93.
Definition INT_MIN : Z := INT32_MIN.
Definition INT_MAX : Z := INT32_MAX.
Definition status_einval : status := mk_status generic_category EINVAL.

(** An error code of Boost: its category and its value. *)
Inductive boost_category : Type := boost_system | boost_generic | boost_url_grammar | boost_other.
Record boost_error : Type := mk_boost_error { be_category : boost_category; be_value : Z }.

Definition boost_err_to_status (ec : boost_error) : status :=
  match be_category ec with
  | boost_system => mk_status system_category (be_value ec)
  | boost_generic => mk_status generic_category (be_value ec)
  | boost_url_grammar => status_einval
  | boost_other => mk_status unknown_category (be_value ec)
  end.

(** ** Data *)

(** What Boost.URL says of a URL that it could split. *)
Inductive host_type : Type := host_none | host_name | host_ipv4 | host_ipv6 | host_ipvfuture.

Record url_view : Type := mk_url {
  scheme : text;
  encoded_host : text;
  u_host_type : host_type;
  host_text : text;
  ipv4_uint : Z;
  ipv6_bytes : list byte;
  port_text : text;
  has_port : bool;
  port_number : Z;
  encoded_params : list (text * text);
  has_userinfo : bool;
  user : text;
  pass : text;
  encoded_path : text;
  path : text }.

(** [std::variant<v4_address, v6_address, string>]. *)
Inductive host : Type :=
| v4_address (v : Z)
| v6_address (bytes : list byte)
| hostname (s : text).

Record uri_host : Type := mk_host { h_host : host; h_port : Z }.

Record uri_auth : Type := mk_auth { username : text; password : text; database : option text }.

(** A map of strings: an association list with distinct keys. *)
Abbreviation mapping := (list (text * text)).

(** The options of [connection_params] that parsing can set, by their type. *)
Inductive string_option : Type :=
| appname | authMechanism | authSource | replicaSet | readConcernLevel.
Inductive duration_option : Type :=
| connectTimeoutMS | heartbeatFrequencyMS | maxIdleTimeMS | timeoutMS | wTimeoutMS.
Inductive bool_option : Type := directConnection | journal | loadBalanced | tls | tlsInsecure.
Inductive int_option : Type := maxPoolSize | minPoolSize | zlibCompressionLevel.

#[export] Instance string_option_dec : EqDecision string_option.
Proof. solve_decision. Defined.
#[export] Instance duration_option_dec : EqDecision duration_option.
Proof. solve_decision. Defined.
#[export] Instance bool_option_dec : EqDecision bool_option.
Proof. solve_decision. Defined.
#[export] Instance int_option_dec : EqDecision int_option.
Proof. solve_decision. Defined.

(** The [std::optional] members of each type, and the members of other types. *)
Record connection_params : Type := mk_params {
  strings : string_option -> option text;
  durations : duration_option -> option Z;
  bools : bool_option -> option bool;
  ints : int_option -> option Z;
  authMechanismProperties : option mapping;
  compressors : list text;
  readPreferenceTags : list mapping;
  w : option (text + Z) }.

Definition no_params : connection_params :=
  mk_params (fun _ => None) (fun _ => None) (fun _ => None) (fun _ => None) None [] [] None.

Record connection_uri : Type := mk_uri {
  hosts : list uri_host;
  auth : option uri_auth;
  params : connection_params }.

(** The events fired, before their formatting. *)
Inductive uri_warning_event : Type :=
| invalid_integer (key value : text)
| invalid_boolean (key value : text)
| out_of_range (key : text) (value min max : Z)
| multiple_times (key : text)
| unknown_parameter (key : text).

(** ** Conversions of a parameter value *)

Definition ascii_tolower (c : byte) : byte :=
  if (65 <=? b2z c) && (b2z c <=? 90) then z2b (b2z c + 32) else c.

Definition is_digit (c : byte) : bool := (48 <=? b2z c) && (b2z c <=? 57).

(** The value of the longest prefix of digits, and how many there are. *)
Fixpoint digits (l : text) (acc : Z) (n : nat) : Z * nat :=
  match l with
  | c :: l => if is_digit c then digits l (10 * acc + (b2z c - 48)) (S n) else (acc, n)
  | [] => (acc, n)
  end.

(** [std::from_chars] to an [int], when [ec] is clear: a minus sign and digits,
    in range; what follows is ignored. *)
Definition from_chars (l : text) : option Z :=
  let (neg, l) := match l with
                  | c :: l' => if decide (c = x2d) then (true, l') else (false, l)
                  | [] => (false, l)
                  end in
  let (v, n) := digits l 0 0 in
  let v := if neg then - v else v in
  if (n =? 0)%nat then None
  else if (INT_MIN <=? v) && (v <=? INT_MAX) then Some v else None.

(** ** Parsing of the parameters *)

(** What the callbacks update: the options, the warnings, the status. *)
Record parsing : Type := mk_parsing {
  ret : connection_params;
  fired : list uri_warning_event;
  param_parse_status : option status }.

(** An action in the handling of the parameter with the given key. *)
Definition act (A : Type) : Type := text -> parsing -> parsing * A.

Definition fire (e : text -> uri_warning_event) : act unit := fun key st =>
  (mk_parsing (ret st) (fired st ++ [e key]) (param_parse_status st), tt).

(** [atop(f, g)]: [g] first. *)
Definition atop {A B} (f : A -> act B) (g : text -> act A) : text -> act B := fun x key st =>
  let (st, a) := g x key st in f a key st.

Definition opt_fmap {A B} (f : A -> act B) : option A -> act (option B) := fun o key st =>
  match o with
  | Some a => let (st, b) := f a key st in (st, Some b)
  | None => (st, None)
  end.

Definition try_parse_int (sv : text) : act (option Z) := fun key st =>
  match from_chars sv with
  | Some z => (st, Some z)
  | None => let (st, _) := fire (fun k => invalid_integer k sv) key st in (st, None)
  end.

Definition trues : list text := map chars ["true"; "1"; "yes"; "y"; "t"]%string.
Definition falses : list text := map chars ["false"; "0"; "-1"; "no"; "n"; "f"]%string.

(** The constant a text denotes. *)
Definition bool_of (v : text) : option bool :=
  if decide (v = chars "true") then Some true
  else if decide (v = chars "false") then Some false
  else if existsb (fun x => bool_decide (v = x)) trues then Some true
  else if existsb (fun x => bool_decide (v = x)) falses then Some false
  else None.

Definition try_parse_bool (v : text) : act (option bool) := fun key st =>
  match bool_of v with
  | Some b => (st, Some b)
  | None => let (st, _) := fire (fun k => invalid_boolean k v) key st in (st, None)
  end.

(** [std::clamp], with a warning. *)
Definition clamp_and_warn (min max ival : Z) : act Z := fun key st =>
  let st := if (ival <? min) || (ival >? max) then fst (fire (fun k => out_of_range k ival min max) key st) else st in
  (st, if ival <? min then min else if max <? ival then max else ival).

Definition try_parse_duration_ms : text -> act (option Z) :=
  atop (opt_fmap (clamp_and_warn 0 INT_MAX)) try_parse_int.

(** A member of the options: how it is read and written. *)
Record member (T : Type) : Type := mk_member {
  m_get : connection_params -> T;
  m_set : connection_params -> T -> connection_params }.
Arguments mk_member {T} m_get m_set.
Arguments m_get {T} m p.
Arguments m_set {T} m p v.

Definition update {K V} `{EqDecision K} (f : K -> V) (k : K) (v : V) : K -> V :=
  fun k' => if decide (k' = k) then v else f k'.

Definition string_member (o : string_option) : member (option text) :=
  mk_member (fun p => strings p o)
    (fun p v => mk_params (update (strings p) o v) (durations p) (bools p) (ints p)
                  (authMechanismProperties p) (compressors p) (readPreferenceTags p) (w p)).
Definition duration_member (o : duration_option) : member (option Z) :=
  mk_member (fun p => durations p o)
    (fun p v => mk_params (strings p) (update (durations p) o v) (bools p) (ints p)
                  (authMechanismProperties p) (compressors p) (readPreferenceTags p) (w p)).
Definition bool_member (o : bool_option) : member (option bool) :=
  mk_member (fun p => bools p o)
    (fun p v => mk_params (strings p) (durations p) (update (bools p) o v) (ints p)
                  (authMechanismProperties p) (compressors p) (readPreferenceTags p) (w p)).
Definition int_member (o : int_option) : member (option Z) :=
  mk_member (fun p => ints p o)
    (fun p v => mk_params (strings p) (durations p) (bools p) (update (ints p) o v)
                  (authMechanismProperties p) (compressors p) (readPreferenceTags p) (w p)).
Definition properties_member : member (option mapping) :=
  mk_member authMechanismProperties
    (fun p v => mk_params (strings p) (durations p) (bools p) (ints p) v
                  (compressors p) (readPreferenceTags p) (w p)).
Definition compressors_member : member (list text) :=
  mk_member compressors
    (fun p v => mk_params (strings p) (durations p) (bools p) (ints p)
                  (authMechanismProperties p) v (readPreferenceTags p) (w p)).
Definition tags_member : member (list mapping) :=
  mk_member readPreferenceTags
    (fun p v => mk_params (strings p) (durations p) (bools p) (ints p)
                  (authMechanismProperties p) (compressors p) v (w p)).
Definition w_member : member (option (text + Z)) :=
  mk_member w
    (fun p v => mk_params (strings p) (durations p) (bools p) (ints p)
                  (authMechanismProperties p) (compressors p) (readPreferenceTags p) v).

Definition assign {T} (m : member T) (v : T) : act unit := fun _ st =>
  (mk_parsing (m_set m (ret st) v) (fired st) (param_parse_status st), tt).

(** Assigns to an optional, with a warning when it has a value. *)
Definition opt_assign {T} (m : member (option T)) (value : T) : act unit := fun key st =>
  let st := match m_get m (ret st) with
            | Some _ => fst (fire multiple_times key st)
            | None => st
            end in
  assign m (Some value) key st.

Definition append_to {T} (m : member (list T)) (v : T) : act unit := fun key st =>
  assign m (m_get m (ret st) ++ [v]) key st.

Definition ignore {A} (x : act A) : act unit := fun key st => let (st, _) := x key st in (st, tt).

(** The special handler of [tls] and [ssl]. *)
Definition toggle_tls (sv : text) : act unit := fun key st =>
  let (st, b) := try_parse_bool sv key st in
  match b with
  | None => (st, tt)
  | Some b =>
      let st := match bools (ret st) tls with
                | Some old => if decide (old <> b)
                              then mk_parsing (ret st) (fired st) (Some status_einval) else st
                | None => st
                end in
      assign (bool_member tls) (Some b) key st
  end.

Definition handle_w (v : text) : text + Z :=
  match from_chars v with
  | Some z => if z <? 0 then inl v else inr z
  | None => inl v
  end.

Section Parse.
(** [boost::urls::parse_uri], [pct_string_view::decode], the tokenizer of
    comma-separated lists. *)
Context (parse_uri : text -> boost_error + url_view).
Context (decode : text -> text).
Context (comma_split : text -> list text).

(** Position of the first colon. *)
Fixpoint find_colon (l : text) : option nat :=
  match l with
  | [] => None
  | c :: l => if decide (c = x3a) then Some O else S <$> find_colon l
  end.

(** [map::emplace]: a key that is present keeps its value. *)
Definition emplace (m : mapping) (k v : text) : mapping :=
  if existsb (fun kv => bool_decide (fst kv = k)) m then m else m ++ [(k, v)].

(** [substr(0, npos)] and [substr(npos + 1)] are both the whole part. *)
Definition parse_mapping (sv : text) : mapping :=
  fold_left (fun ret part =>
    let key := match find_colon part with Some i => take i part | None => part end in
    let val := match find_colon part with Some i => drop (S i) part | None => part end in
    emplace ret (decode key) (decode val)) (comma_split sv) [].

Definition parse_seq (sv : text) : list text := comma_split sv.

Definition pure {A} (f : text -> A) : text -> act A := fun x _ st => (st, f x).

(** The recognized names, in the order they are tested, with their handlers. *)
Definition handlers : list (text * (text -> act unit)) := [
  (chars "appname", atop (opt_assign (string_member appname)) (pure id));
  (chars "authMechanism", atop (opt_assign (string_member authMechanism)) (pure id));
  (chars "authMechanismProperties",
     atop (assign properties_member) (pure (fun sv => Some (parse_mapping sv))));
  (chars "authSource", atop (opt_assign (string_member authSource)) (pure id));
  (chars "connectTimeoutMS", atop (assign (duration_member connectTimeoutMS)) try_parse_duration_ms);
  (chars "compressors", atop (assign compressors_member) (pure parse_seq));
  (chars "directConnection",
     atop (fun o => ignore (opt_fmap (opt_assign (bool_member directConnection)) o)) try_parse_bool);
  (chars "heartbeatFrequencyMS",
     atop (fun o => ignore (opt_fmap (opt_assign (duration_member heartbeatFrequencyMS)) o))
       (atop (opt_fmap (clamp_and_warn 500 INT_MAX)) try_parse_duration_ms));
  (chars "journal", atop (fun o => ignore (opt_fmap (opt_assign (bool_member journal)) o)) try_parse_bool);
  (chars "loadBalanced",
     atop (fun o => ignore (opt_fmap (opt_assign (bool_member loadBalanced)) o)) try_parse_bool);
  (chars "maxPoolSize", atop (fun o => ignore (opt_fmap (opt_assign (int_member maxPoolSize)) o)) try_parse_int);
  (chars "minPoolSize", atop (fun o => ignore (opt_fmap (opt_assign (int_member minPoolSize)) o)) try_parse_int);
  (chars "maxIdleTimeMS",
     atop (fun o => ignore (opt_fmap (opt_assign (duration_member maxIdleTimeMS)) o)) try_parse_duration_ms);
  (chars "replicaSet", atop (opt_assign (string_member replicaSet)) (pure id));
  (chars "readConcernLevel", atop (opt_assign (string_member readConcernLevel)) (pure id));
  (chars "readPreferenceTags", atop (append_to tags_member) (pure parse_mapping));
  (chars "tls", toggle_tls);
  (chars "tlsInsecure", atop (assign (bool_member tlsInsecure)) try_parse_bool);
  (chars "timeoutMS",
     atop (fun o => ignore (opt_fmap (opt_assign (duration_member timeoutMS)) o)) try_parse_duration_ms);
  (chars "ssl", toggle_tls);
  (chars "w", atop (opt_assign w_member) (pure handle_w));
  (chars "wTimeout",
     atop (fun o => ignore (opt_fmap (opt_assign (duration_member wTimeoutMS)) o)) try_parse_duration_ms);
  (chars "wTimeoutMS",
     atop (fun o => ignore (opt_fmap (opt_assign (duration_member wTimeoutMS)) o)) try_parse_duration_ms);
  (chars "zlibCompressionLevel",
     atop (fun o => ignore (opt_fmap (opt_assign (int_member zlibCompressionLevel)) o))
       (atop (opt_fmap (clamp_and_warn (-1) 9)) try_parse_int))].

(** [sr::equal] of the names without regard to case. *)
Definition name_matches (check_key key : text) : bool :=
  bool_decide (map ascii_tolower check_key = map ascii_tolower key).

(** One iteration of the loop over the parameters. *)
Definition handle_parameter (qp : text * text) (st : parsing) : parsing :=
  match List.find (fun h => name_matches (fst h) (fst qp)) handlers with
  | Some h => fst (snd h (snd qp) (fst qp) st)
  | None => fst (fire unknown_parameter (fst qp) st)
  end.

(** The loop: it stops when a parameter sets an error. *)
Fixpoint parse_params (qps : list (text * text)) (st : parsing) : parsing :=
  match qps with
  | [] => st
  | qp :: qps =>
      let st := handle_parameter qp st in
      match param_parse_status st with
      | Some _ => st
      | None => parse_params qps st
      end
  end.

Definition parse_auth (u : url_view) : option uri_auth :=
  if has_userinfo u then
    Some (mk_auth (user u) (pass u)
            (if negb (bool_decide (encoded_path u = chars "/")) && negb (bool_decide (encoded_path u = []))
             then Some (tail (path u)) else None))
  else None.

(** The host; the types that are not expected terminate the process. *)
Definition parse_host (u : url_view) : outcome uri_host :=
  let port := if has_port u then port_number u else -1 in
  match u_host_type u with
  | host_name => Done (mk_host (hostname (host_text u)) port)
  | host_ipv4 => Done (mk_host (v4_address (ipv4_uint u)) port)
  | host_ipv6 => Done (mk_host (v6_address (ipv6_bytes u)) port)
  | host_none | host_ipvfuture => Abort
  end.

(** The result, with the warnings that were fired. *)
Definition parse (url : text) : outcome (status + connection_uri) * list uri_warning_event :=
  match parse_uri url with
  | inl ec => (Done (inl (boost_err_to_status ec)), [])
  | inr got =>
      if negb (bool_decide (scheme got = chars "mongodb")) then
        (Done (inl (mk_status generic_category EPROTONOSUPPORT)), [])
      else if bool_decide (encoded_host got = []) then (Done (inl status_einval), [])
      else if existsb (fun c => bool_decide (c = x2f)) (encoded_host got) then (Done (inl status_einval), [])
      else if negb (bool_decide (port_text got = [])) && (port_number got =? 0) then
        (Done (inl status_einval), [])
      else
        let st := parse_params (encoded_params got) (mk_parsing no_params [] None) in
        match param_parse_status st with
        | Some e => (Done (inl e), fired st)
        | None =>
            (let* h := parse_host got in
             Done (inr (mk_uri [h] (parse_auth got) (ret st))), fired st)
        end
  end.
End Parse.

(** ** The effect of a parameter *)

Definition name_of (o : string_option) : text :=
  match o with
  | appname => chars "appname"
  | authMechanism => chars "authMechanism"
  | authSource => chars "authSource"
  | replicaSet => chars "replicaSet"
  | readConcernLevel => chars "readConcernLevel"
  end.

Definition is_tls_name (n : text) : bool := bool_decide (n = chars "tls") || bool_decide (n = chars "ssl").

(** The ranges of the numeric options. *)
Record in_ranges (p : connection_params) : Prop := {
  durations_range o z : durations p o = Some z -> 0 <= z <= INT_MAX;
  heartbeat_range z : durations p heartbeatFrequencyMS = Some z -> 500 <= z;
  ints_range o z : ints p o = Some z -> is_i32 z;
  zlib_range z : ints p zlibCompressionLevel = Some z -> -1 <= z <= 9 }.

(** The status after a value [b] for TLS. *)
Definition tls_status (old : option bool) (b : bool) (s : option status) : option status :=
  match old with
  | Some b' => if decide (b' <> b) then Some status_einval else s
  | None => s
  end.

(** What the handler with the name [n] does with the value [v]. *)
Record effect (n v : text) (st st' : parsing) : Prop := {
  e_strings o : strings (ret st') o = if decide (n = name_of o) then Some v else strings (ret st) o;
  e_tls : bools (ret st') tls =
    match (if is_tls_name n then bool_of v else None) with Some b => Some b | None => bools (ret st) tls end;
  e_status : param_parse_status st' =
    match (if is_tls_name n then bool_of v else None) with
    | Some b => tls_status (bools (ret st) tls) b (param_parse_status st)
    | None => param_parse_status st
    end;
  e_ranges : in_ranges (ret st) -> in_ranges (ret st') }.

(** A conversion that leaves the options alone and gives values with [Q]. *)
Definition quiet {A} (Q : A -> Prop) (g : text -> act (option A)) : Prop := forall v key st,
  let (st', r) := g v key st in
  ret st' = ret st /\ param_parse_status st' = param_parse_status st /\
  match r with Some a => Q a | None => True end.

Lemma from_chars_range l z : from_chars l = Some z -> is_i32 z.
Proof.
  unfold from_chars. destruct (match l with [] => _ | _ => _ end) as [neg l']. destruct (digits l' 0 0) as [d n].
  destruct (n =? 0)%nat; [done|]. destruct (_ && _) eqn:E; [|done]. intros [= <-].
  unfold is_i32, INT_MIN, INT_MAX in *. lia.
Qed.

Lemma quiet_int : quiet is_i32 try_parse_int.
Proof.
  intros v key st. unfold try_parse_int. destruct (from_chars v) eqn:E; simpl; [|done].
  split_and!; try done. by eapply from_chars_range.
Qed.

Lemma quiet_bool : quiet (fun _ => True) try_parse_bool.
Proof. intros v key st. unfold try_parse_bool. by destruct (bool_of v). Qed.

Lemma quiet_clamp (Q : Z -> Prop) lo hi g : lo <= hi -> quiet Q g ->
  quiet (fun z => lo <= z <= hi) (atop (opt_fmap (clamp_and_warn lo hi)) g).
Proof.
  intros Hle Hg v key st. unfold atop. specialize (Hg v key st). destruct (g v key st) as [st1 [z|]]; simpl; [|exact Hg].
  destruct Hg as (E1 & E2 & _). destruct (_ || _); simpl; rewrite E1, E2;
    (split; [done|]; split; [done|]; destruct (Z.ltb_spec z lo), (Z.ltb_spec hi z); lia).
Qed.

Lemma quiet_duration : quiet (fun z => 0 <= z <= INT_MAX) try_parse_duration_ms.
Proof. by apply (quiet_clamp is_i32); [|apply quiet_int]. Qed.

(** The handler left the status alone and, of the options, at most set the member
    [m] to a value with [P]; [must] tells that it did. *)
Definition sets {T} (m : member T) (P : T -> Prop) (must : bool) (st st' : parsing) : Prop :=
  param_parse_status st' = param_parse_status st /\
  ((must = false /\ ret st' = ret st) \/ exists o, P o /\ ret st' = m_set m (ret st) o).

Lemma opt_assign_sets {A} (m : member (option A)) a key st :
  ret (fst (opt_assign m a key st)) = m_set m (ret st) (Some a) /\
  param_parse_status (fst (opt_assign m a key st)) = param_parse_status st.
Proof. unfold opt_assign. by destruct (m_get m (ret st)). Qed.

Lemma sets_optional {A} (Q : A -> Prop) (m : member (option A)) g v key st : quiet Q g ->
  sets m (fun o => exists a, o = Some a /\ Q a) false st
    (fst (atop (fun o => ignore (opt_fmap (opt_assign m) o)) g v key st)).
Proof.
  intros Hg. unfold atop, ignore. specialize (Hg v key st). destruct (g v key st) as [st1 [a|]];
    destruct Hg as (E1 & E2 & Hq); unfold opt_fmap.
  - pose proof (opt_assign_sets m a key st1) as [R S]. destruct (opt_assign m a key st1) as [st2 u].
    simpl in *. split; [congruence|]. right. exists (Some a). split; [eauto|]. congruence.
  - simpl. split; [done|]. by left.
Qed.

Lemma sets_assigned {A} (Q : A -> Prop) (m : member (option A)) g v key st : quiet Q g ->
  sets m (fun o => match o with Some a => Q a | None => True end) true st (fst (atop (assign m) g v key st)).
Proof.
  intros Hg. unfold atop. specialize (Hg v key st). destruct (g v key st) as [st1 o].
  destruct Hg as (E1 & E2 & Hq). split; [done|]. right. exists o. split; [done|]. simpl. by rewrite E1.
Qed.

Lemma sets_text {A} (m : member (option A)) (f : text -> A) v key st :
  sets m (fun o => o = Some (f v)) true st (fst (atop (opt_assign m) (pure f) v key st)).
Proof.
  unfold atop, pure, opt_assign. split; [by destruct (m_get m (ret st))|].
  right. eexists. split; [done|]. by destruct (m_get m (ret st)).
Qed.

Lemma sets_pure {T} (m : member T) (f : text -> T) v key st :
  sets m (fun _ => True) true st (fst (atop (assign m) (pure f) v key st)).
Proof. split; [done|]. right. by eexists. Qed.

Lemma sets_appended {T} (m : member (list T)) (f : text -> T) v key st :
  sets m (fun _ => True) true st (fst (atop (append_to m) (pure f) v key st)).
Proof. split; [done|]. right. by eexists. Qed.

(** Setting the member [m] is what the handler [n] should do. *)
Definition fits {T} (n v : text) (m : member T) (P : T -> Prop) : Prop := forall p o, P o ->
  (forall s, strings (m_set m p o) s = if decide (n = name_of s) then Some v else strings p s) /\
  bools (m_set m p o) tls = bools p tls /\ (in_ranges p -> in_ranges (m_set m p o)).

Lemma sets_effect {T} n v (m : member T) P must st st' :
  is_tls_name n = false -> (must = false -> forall s, n <> name_of s) -> fits n v m P ->
  sets m P must st st' -> effect n v st st'.
Proof.
  intros Hn Hm Hf [Es [[-> E] | (o & Ho & E)]]; split; rewrite ?Hn, ?E; try done.
  - intros s. by rewrite decide_False by auto.
  - intros s. by apply (Hf (ret st) o Ho).
  - by apply (Hf (ret st) o Ho).
  - by apply (Hf (ret st) o Ho).
Qed.

Lemma fits_duration n v o (P : option Z -> Prop) :
  (forall s, n <> name_of s) ->
  (forall z, P (Some z) -> 0 <= z <= INT_MAX /\ (o = heartbeatFrequencyMS -> 500 <= z)) ->
  fits n v (duration_member o) P.
Proof.
  intros Hn HP p x Hx. simpl. split; [intros s; by rewrite decide_False by auto|]. split; [done|].
  intros [H1 H2 H3 H4]. split; simpl; unfold update; try done.
  - intros o' z. case_decide; [intros ->; by apply HP | apply H1].
  - intros z. case_decide; [intros ->; by apply HP | apply H2].
Qed.

Lemma fits_int n v o (P : option Z -> Prop) :
  (forall s, n <> name_of s) ->
  (forall z, P (Some z) -> is_i32 z /\ (o = zlibCompressionLevel -> -1 <= z <= 9)) ->
  fits n v (int_member o) P.
Proof.
  intros Hn HP p x Hx. simpl. split; [intros s; by rewrite decide_False by auto|]. split; [done|].
  intros [H1 H2 H3 H4]. split; simpl; unfold update; try done.
  - intros o' z. case_decide; [intros ->; by apply HP | apply H3].
  - intros z. case_decide; [intros ->; by apply HP | apply H4].
Qed.

Lemma fits_bool n v o P : (forall s, n <> name_of s) -> o <> tls -> fits n v (bool_member o) P.
Proof.
  intros Hn Ho p x _. simpl. split; [intros s; by rewrite decide_False by auto|].
  split; [unfold update; by rewrite decide_False | by intros [H1 H2 H3 H4]].
Qed.

Lemma fits_string v o : fits (name_of o) v (string_member o) (fun x => x = Some (id v)).
Proof.
  intros p x ->. simpl. split; [|split; [done | by intros [H1 H2 H3 H4]]].
  intros s. unfold update. destruct (decide (s = o)) as [->|Hne]; [by rewrite decide_True|].
  rewrite decide_False; [done|]. by destruct o, s.
Qed.

Lemma toggle_tls_effect n v key st : is_tls_name n = true -> (forall s, n <> name_of s) ->
  effect n v st (fst (toggle_tls v key st)).
Proof.
  intros Hn Hs. unfold toggle_tls, try_parse_bool.
  destruct (bool_of v) as [b|] eqn:Eb; simpl.
  - split; simpl; rewrite ?Hn, ?Eb.
    + intros o. rewrite decide_False by auto. destruct (bools (ret st) tls); [|done]. by case_decide.
    + done.
    + unfold tls_status. destruct (bools (ret st) tls) as [b'|]; [|done]. by case_decide.
    + intros [H1 H2 H3 H4]. destruct (bools (ret st) tls); [case_decide|]; by split.
  - split; simpl; rewrite ?Hn, ?Eb; try done. intros o. by rewrite decide_False by auto.
Qed.

Ltac no_string := intros [] E; vm_compute in E; discriminate E.

(** One handler, by its shape. *)
Ltac string_handler o :=
  eapply (sets_effect (name_of o) _ (string_member o)); [done | | | apply sets_text];
    [done | apply fits_string].
Ltac number_handler fits quiets :=
  eapply sets_effect; [done | | | first [apply sets_optional | apply sets_assigned]; exact quiets];
    [intros _; no_string | apply fits; [no_string|]; cbv beta iota].
Ltac bool_handler :=
  eapply sets_effect; [done | | | first [apply sets_optional | apply sets_assigned]; exact quiet_bool];
    [intros _; no_string | apply fits_bool; [no_string | done]].
Ltac other_handler :=
  eapply sets_effect; [done | | | first [apply sets_pure | apply sets_text | apply sets_appended]];
    [intros _; no_string|];
    intros p x _; simpl; split; [intros s; rewrite decide_False; [done | revert s; no_string]
                                | split; [done | by intros [H1 H2 H3 H4]]].

Lemma quiet_heartbeat : quiet (fun z => 500 <= z <= INT_MAX)
  (atop (opt_fmap (clamp_and_warn 500 INT_MAX)) try_parse_duration_ms).
Proof. by apply (quiet_clamp _ 500 INT_MAX _ ltac:(done) quiet_duration). Qed.

Lemma quiet_zlib : quiet (fun z => -1 <= z <= 9) (atop (opt_fmap (clamp_and_warn (-1) 9)) try_parse_int).
Proof. by apply (quiet_clamp _ (-1) 9 _ ltac:(done) quiet_int). Qed.

Lemma handlers_effect decode comma_split :
  Forall (fun h => forall v key st, effect (fst h) v st (fst (snd h v key st))) (handlers decode comma_split).
Proof.
  unfold handlers. repeat (apply Forall_cons; split); try (by apply Forall_nil); intros v key st; cbn [fst snd].
  all: try (by apply toggle_tls_effect; [|no_string]).
  all: first [string_handler appname | string_handler authMechanism | string_handler authSource
             | string_handler replicaSet | string_handler readConcernLevel
             | number_handler fits_duration quiet_duration | number_handler fits_duration quiet_heartbeat
             | number_handler fits_int quiet_int | number_handler fits_int quiet_zlib
             | bool_handler | other_handler].
  all: intros z; try (intros (a & [= <-] & Hz)); try (intros Hz).
  all: unfold INT_MAX, is_i32 in *; split; [lia | intros ?; try done; lia].
Qed.

(** ** The loop over the parameters *)

Section Loop.
Context (decode : text -> text) (comma_split : text -> list text).

Abbreviation lower := (map ascii_tolower).
Abbreviation names := (map fst (handlers decode comma_split)).

Lemma names_distinct : NoDup (map lower names).
Proof. by apply (bool_decide_unpack _). Qed.

Lemma same_name n n' key : n ∈ names -> n' ∈ names ->
  name_matches n key = true -> name_matches n' key = true -> n = n'.
Proof.
  unfold name_matches. rewrite !bool_decide_eq_true. intros Hn Hn' E E'. rewrite <- E' in E. clear E'.
  apply list_elem_of_lookup in Hn as [i Hi], Hn' as [j Hj].
  assert (i = j) as ->; [|congruence].
  apply (NoDup_lookup (map lower names) i j (lower n) names_distinct); rewrite list_lookup_fmap;
    [by rewrite Hi | rewrite Hj, E; done].
Qed.

Lemma string_name_in o : name_of o ∈ names.
Proof. by destruct o; apply (bool_decide_unpack _). Qed.

Lemma tls_name_in n : is_tls_name n = true -> n ∈ names.
Proof.
  unfold is_tls_name. rewrite orb_true_iff, !bool_decide_eq_true.
  by intros [-> | ->]; apply (bool_decide_unpack _).
Qed.

(** The parameter is one of the two spellings of TLS. *)
Definition tls_key (key : text) : bool := name_matches (chars "tls") key || name_matches (chars "ssl") key.

(** The value the parameter has for TLS, when it is one. *)
Definition tls_value (qp : text * text) : option bool := if tls_key (fst qp) then bool_of (snd qp) else None.

Lemma handle_effect qp st :
  let st' := handle_parameter decode comma_split qp st in
  (forall o, strings (ret st') o =
     if name_matches (name_of o) (fst qp) then Some (snd qp) else strings (ret st) o) /\
  bools (ret st') tls = match tls_value qp with Some b => Some b | None => bools (ret st) tls end /\
  param_parse_status st' =
    match tls_value qp with
    | Some b => tls_status (bools (ret st) tls) b (param_parse_status st)
    | None => param_parse_status st
    end /\
  (in_ranges (ret st) -> in_ranges (ret st')).
Proof.
  unfold handle_parameter, tls_value. destruct qp as [key v]. cbn [fst snd].
  destruct (List.find _ _) as [[n f]|] eqn:E.
  - apply List.find_some in E as [Hin Hm]. cbn [fst snd] in *. apply list_elem_of_In in Hin.
    assert (n ∈ names) as Hn by (apply list_elem_of_fmap; exists (n, f); done).
    pose proof (handlers_effect decode comma_split) as He. rewrite Forall_forall in He.
    destruct (He _ Hin v key st) as [E1 E2 E3 E4]. cbn [fst snd] in *.
    assert (tls_key key = is_tls_name n) as Ht.
    { unfold tls_key. destruct (is_tls_name n) eqn:En.
      - unfold is_tls_name in En. apply orb_true_iff in En as [En|En]; apply bool_decide_eq_true in En as <-;
          rewrite Hm; [done | apply orb_true_r].
      - apply orb_false_iff. unfold is_tls_name in En. apply orb_false_iff in En as [N1 N2].
        apply bool_decide_eq_false in N1, N2.
        split; apply not_true_is_false; intros Hx; [apply N1 | apply N2];
          eapply same_name; eauto; by apply tls_name_in. }
    rewrite Ht. split_and!; try done. intros o. rewrite E1. case_decide as Hd.
    + by rewrite <- Hd, Hm.
    + destruct (name_matches (name_of o) key) eqn:Ho; [|done]. exfalso. apply Hd.
      eapply same_name; eauto using string_name_in.
  - assert (forall n, n ∈ names -> name_matches n key = false) as Hno.
    { intros n Hn. apply list_elem_of_fmap in Hn as (h & -> & Hh). apply list_elem_of_In in Hh.
      by apply (List.find_none _ _ E h Hh). }
    assert (tls_key key = false) as ->.
    { unfold tls_key. rewrite !Hno; [done | by apply tls_name_in..]. }
    split_and!; try done. intros o. by rewrite Hno by apply string_name_in.
Qed.

(** The values given for a string option, in order. *)
Definition values_of (o : string_option) (qps : list (text * text)) : list text :=
  map snd (List.filter (fun qp => name_matches (name_of o) (fst qp)) qps).

Definition tls_values (qps : list (text * text)) : list bool := omap tls_value qps.

Lemma params_strings qps : forall st, param_parse_status (parse_params decode comma_split qps st) = None ->
  forall o, strings (ret (parse_params decode comma_split qps st)) o =
    match last (values_of o qps) with Some v => Some v | None => strings (ret st) o end.
Proof.
  induction qps as [|qp qps IH]; intros st Hs o; [done|]. simpl in *.
  destruct (handle_effect qp st) as (E1 & _). set (st1 := handle_parameter decode comma_split qp st) in *.
  destruct (param_parse_status st1) eqn:Es; [congruence|]. rewrite (IH st1 Hs o), E1.
  unfold values_of. simpl. destruct (name_matches (name_of o) (fst qp)); [|done].
  simpl. rewrite last_cons. by destruct (last _).
Qed.

Lemma params_ranges qps : forall st, in_ranges (ret st) -> in_ranges (ret (parse_params decode comma_split qps st)).
Proof.
  induction qps as [|qp qps IH]; intros st Hr; [done|]. simpl.
  destruct (handle_effect qp st) as (_ & _ & _ & E4). destruct (param_parse_status _); auto.
Qed.

Lemma params_tls qps : forall st old, param_parse_status st = None -> bools (ret st) tls = old ->
  let st' := parse_params decode comma_split qps st in
  let given := option_list old ++ tls_values qps in
  (param_parse_status st' = if bool_decide (true ∈ given /\ false ∈ given) then Some status_einval else None) /\
  (param_parse_status st' = None -> bools (ret st') tls = head given).
Proof.
  induction qps as [|qp qps IH]; intros st old Hs Ho; simpl.
  - rewrite app_nil_r. by destruct old as [[]|].
  - destruct (handle_effect qp st) as (_ & E2 & E3 & _).
    set (st1 := handle_parameter decode comma_split qp st) in *. rewrite Ho, Hs in *.
    unfold tls_values in *. simpl. destruct (tls_value qp) as [b|] eqn:Eb.
    + unfold tls_status in E3. destruct old as [b'|]; [destruct (decide (b' <> b)) as [Hne|Heq]|]; rewrite E3.
      * cbv iota. rewrite E3, bool_decide_eq_true_2 by (destruct b, b'; try done; simpl; set_solver). done.
      * assert (b' = b) as -> by (destruct (decide (b' = b)); [done | by destruct Heq]).
        destruct (IH st1 (Some b) E3 E2) as [I1 I2]. simpl in *. split; [|exact I2].
        rewrite I1. erewrite bool_decide_ext; [done|]. set_solver.
      * destruct (IH st1 (Some b) E3 E2) as [I1 I2]. done.
    + rewrite E3. by apply IH.
Qed.
End Loop.

(** ** Claims *)

(** What a URL must satisfy to be a connection string, parameters aside. *)
Definition acceptable (u : url_view) : Prop :=
  scheme u = chars "mongodb" /\ encoded_host u <> [] /\ x2f ∉ encoded_host u /\
  (port_text u <> [] -> port_number u <> 0).

#[export] Instance acceptable_dec u : Decision (acceptable u).
Proof. unfold acceptable. apply _. Defined.

Section Claims.
Context (parse_uri : text -> boost_error + url_view) (decode : text -> text) (comma_split : text -> list text).

Abbreviation initial := (mk_parsing no_params [] None).

Lemma no_params_ranges : in_ranges no_params.
Proof. by split. Qed.

(** C24. The result of parsing a connection string whose URL could be split: it is a
    URI exactly when the URL is acceptable, the values for TLS do not contradict
    each other and the host is a name or an address; the URI has the one host
    with its port (or -1), and credentials exactly when there is user
    information.  A URL that is not acceptable or contradicts itself gives an
    error status, and a host of another kind terminates the process. *)
Theorem uri_parse_result url u : parse_uri url = inr u ->
  let conflict := bool_decide (true ∈ tls_values (encoded_params u) /\ false ∈ tls_values (encoded_params u)) in
  match fst (parse parse_uri decode comma_split url) with
  | Done (inr uri) => acceptable u /\ conflict = false /\
      (exists h, hosts uri = [h] /\ parse_host u = Done h /\
         h_port h = if has_port u then port_number u else -1) /\
      (is_Some (auth uri) <-> has_userinfo u = true)
  | Done (inl e) => ~ acceptable u \/ conflict = true /\ e = status_einval
  | Abort => acceptable u /\ conflict = false /\ (u_host_type u = host_none \/ u_host_type u = host_ipvfuture)
  | Undef => False
  end.
Proof.
  intros E. cbv zeta. unfold parse, acceptable. rewrite E.
  destruct (bool_decide (scheme u = _)) eqn:E1; [apply bool_decide_eq_true in E1 | apply bool_decide_eq_false in E1; simpl; tauto].
  cbn [negb]. destruct (bool_decide (encoded_host u = [])) eqn:E2;
    [apply bool_decide_eq_true in E2; simpl; tauto | apply bool_decide_eq_false in E2].
  destruct (existsb _ (encoded_host u)) eqn:E3.
  { apply existsb_exists in E3 as (c & Hc & Ec%bool_decide_eq_true). subst c. apply list_elem_of_In in Hc. simpl. tauto. }
  assert (x2f ∉ encoded_host u) as Hs.
  { intros Hx. apply not_true_iff_false in E3. apply E3. apply existsb_exists. exists x2f.
    split; [by apply list_elem_of_In | by apply bool_decide_eq_true]. }
  destruct (negb _ && _) eqn:E4.
  { apply andb_true_iff in E4 as [E4%negb_true_iff%bool_decide_eq_false E5%Z.eqb_eq]. simpl. tauto. }
  assert (port_text u <> [] -> port_number u <> 0) as Hp.
  { intros Hne Hz. rewrite Hz, bool_decide_eq_false_2 in E4 by done. done. }
  destruct (params_tls decode comma_split (encoded_params u) initial None eq_refl eq_refl) as [Ht _].
  change (option_list None ++ tls_values (encoded_params u)) with (tls_values (encoded_params u)) in Ht.
  rewrite Ht. clear Ht. destruct (bool_decide (true ∈ _ /\ _)); simpl; [by right|].
  unfold parse_host. destruct (u_host_type u) eqn:Eh; simpl; try tauto.
  all: split; [tauto|]; split; [done|]; split; [by eexists|]; unfold parse_auth;
    destruct (has_userinfo u); split; (done || by intros [? ?]).
Qed.

(** C25. The options of a parsed connection string: each string option has the last
    value given for its name, whatever the case of the name; TLS has the value
    given under either of its names; the durations lie in their ranges (the
    heartbeat frequency at least 500 ms) and so does the compression level. *)
Theorem uri_options url u uri : parse_uri url = inr u ->
  fst (parse parse_uri decode comma_split url) = Done (inr uri) ->
  (forall o, strings (params uri) o = last (values_of o (encoded_params u))) /\
  bools (params uri) tls = head (tls_values (encoded_params u)) /\
  in_ranges (params uri).
Proof.
  intros E. unfold parse. rewrite E. repeat (case_match; [done|]).
  destruct (param_parse_status _) as [e|] eqn:Es; [done|]. cbn [fst].
  destruct (parse_host u) as [h| |]; [|done..]. intros [= <-]. cbn [params]. split_and!.
  - intros o. rewrite params_strings by done. by destruct (last _).
  - destruct (params_tls decode comma_split (encoded_params u) initial None eq_refl eq_refl) as [_ Ht].
    by rewrite Ht.
  - apply params_ranges, no_params_ranges.
Qed.
End Claims.

(** ** A concrete connection string *)

Definition sample_url : url_view :=
  mk_url (chars "mongodb") (chars "db.test") host_name (chars "db.test") 0 [] [] false 0
    [(chars "AppName", chars "one"); (chars "tls", chars "true"); (chars "heartbeatFrequencyMS", chars "7");
     (chars "appname", chars "two"); (chars "SSL", chars "yes"); (chars "nope", chars "1")]
    false [] [] (chars "/") (chars "/").

Definition sample_parse := parse (fun _ => inr sample_url) id (fun sv => [sv]) [].

Lemma uri_parse_result_witness :
  exists uri, fst sample_parse = Done (inr uri) /\ is_Some (head (hosts uri)) /\ auth uri = None.
Proof.
  destruct (fst sample_parse) as [[e|uri]| |] eqn:E; [vm_compute in E; discriminate E | |
    vm_compute in E; discriminate E..].
  pose proof (uri_parse_result (fun _ => inr sample_url) id (fun sv => [sv]) [] sample_url eq_refl) as H.
  cbv zeta in H. unfold sample_parse in E. rewrite E in H. destruct H as (_ & _ & (h & Eh & _) & Ha).
  exists uri. rewrite Eh. split; [reflexivity|]. split; [by exists h|].
  destruct (auth uri) as [a|]; [|reflexivity].
  assert (has_userinfo sample_url = true) as C by (apply Ha; exists a; reflexivity). discriminate C.
Defined.

Lemma uri_options_witness :
  exists uri, fst sample_parse = Done (inr uri) /\ strings (params uri) appname = Some (chars "two") /\
    bools (params uri) tls = Some true /\ durations (params uri) heartbeatFrequencyMS = Some 500.
Proof.
  destruct (fst sample_parse) as [[e|uri]| |] eqn:E; [vm_compute in E; discriminate E | |
    vm_compute in E; discriminate E..].
  destruct (uri_options (fun _ => inr sample_url) id (fun sv => [sv]) [] sample_url uri eq_refl E) as (H1 & H2 & _).
  exists uri. split; [reflexivity|]. split; [rewrite H1; vm_compute; reflexivity|].
  split; [rewrite H2; vm_compute; reflexivity|]. vm_compute in E. injection E as <-. reflexivity.
Defined.

(** Parameters that an observer might not expect: a number is read up to the
    first character that is no digit, a part of a mapping without a colon is its
    own key and value, and an empty port is the port zero. *)
Theorem lenient_conversions :
  from_chars (chars "12abc") = Some 12 /\
  parse_mapping id (fun sv => [sv]) (chars "dc") = [(chars "dc", chars "dc")] /\
  omap_outcome h_port (parse_host (mk_url (chars "mongodb") (chars "h") host_name (chars "h") 0 [] [] true 0 []
    false [] [] [] [])) = Done 0.
Proof. by vm_compute. Qed.
