(* ===== verification/Pool.v ===== *)
(** * Object and connection pools ([src/amongoc/pool.hpp], [connection_pool.hpp],
    [connection_pool.cpp])

    The pool of objects with its tickets, the pool of connections with its
    members, and the client that borrows a connection lazily.  Connecting
    (resolving, TCP, TLS) is a parameter.  Users of the connection pool
    interleave at the critical sections of its mutex and at the completions of
    their operations. *)
From Stdlib Require Import ZArith Lia.
From stdpp Require Import base numbers list gmap.
From S2P Require Import Prelude.
From S2P Require Import Wire.
From S2P Require Import WireClient.
From S2P Require Import Uri.
Open Scope Z_scope.

(** ** [object_pool] *)

Module ObjectPool.

(** The idle objects, front first, their count and the most to retain. *)
Record object_pool (T : Type) : Type := mk_pool {
  _objects : list T;
  _count : Z;
  _max_size : Z }.
Arguments mk_pool {T} _objects _count _max_size.
Arguments _objects {T} o.
Arguments _count {T} o.
Arguments _max_size {T} o.

Section ObjectPool.
Context {T : Type}.

Definition new_pool (max_size : Z) : object_pool T := mk_pool [] 0 max_size.

(** [checkout]: the object of the ticket; the factory runs only when the pool is
    empty. *)
Definition checkout {F} (factory : F -> F * T) (p : object_pool T) (f : F) : object_pool T * F * T :=
  match _objects p with
  | [] => let (f, x) := factory f in (p, f, x)
  | x :: rest => (mk_pool rest (u64 (_count p - 1)) (_max_size p), f, x)
  end.

(** [return_]: [None] when the object was taken, the object when it is left to be
    destroyed with the ticket. *)
Definition return_ (p : object_pool T) (x : T) : object_pool T * option T :=
  if _count p <? _max_size p
  then (mk_pool (x :: _objects p) (u64 (_count p + 1)) (_max_size p), None)
  else (p, Some x).

(** A ticket: its object, or nothing once it is moved from or discarded. *)
Definition ticket : Type := option T.

Definition discard (t : ticket) : ticket * option T := (None, t).

Definition destroy_ticket (p : object_pool T) (t : ticket) : object_pool T * option T :=
  match t with
  | Some x => return_ p x
  | None => (p, None)
  end.

(** The pool with its users: the objects made, lent and destroyed so far. *)
Record users : Type := mk_users {
  u_pool : object_pool T;
  made : list T;
  lent : list T;
  destroyed : list T }.

(** What a user can do: check out an object (the factory would make [x]), return
    or discard the [i]-th object that is lent. *)
Inductive op : Type := Checkout (x : T) | Return (i : nat) | Discard (i : nat).

Definition list_of (o : option T) : list T := match o with Some x => [x] | None => [] end.

Definition run_op (o : op) (s : users) : users :=
  match o with
  | Checkout x =>
      let '(p, new, y) := checkout (fun n => (S n, x)) (u_pool s) 0%nat in
      mk_users p (if (new =? 0)%nat then made s else x :: made s) (y :: lent s) (destroyed s)
  | Return i =>
      match lent s !! i with
      | None => s
      | Some x =>
          let (p, gone) := destroy_ticket (u_pool s) (Some x) in
          mk_users p (made s) (delete i (lent s)) (list_of gone ++ destroyed s)
      end
  | Discard i =>
      match lent s !! i with
      | None => s
      | Some x =>
          let (t, gone) := discard (Some x) in
          let (p, _) := destroy_ticket (u_pool s) t in
          mk_users p (made s) (delete i (lent s)) (list_of gone ++ destroyed s)
      end
  end.

Definition run (ops : list op) (max_size : Z) : users :=
  fold_left (fun s o => run_op o s) ops (mk_users (new_pool max_size) [] [] []).

(** The count is the number of idle objects and within the limit; every object
    made is idle, lent or destroyed. *)
Record accounted (s : users) : Prop := {
  a_count : _count (u_pool s) = zlen (_objects (u_pool s));
  a_limit : zlen (_objects (u_pool s)) <= _max_size (u_pool s) < UINT64_SPAN;
  a_objects : made s ≡ₚ _objects (u_pool s) ++ lent s ++ destroyed s }.

(** Moving a lent object to the idle or to the destroyed ones. *)
Lemma moved_idle (o : list T) x l d : o ++ (x :: l) ++ d ≡ₚ (x :: o) ++ l ++ d.
Proof. symmetry. apply (Permutation_middle o). Qed.
Lemma moved_destroyed (o : list T) x l d : o ++ (x :: l) ++ d ≡ₚ o ++ l ++ x :: d.
Proof. f_equiv. apply Permutation_middle. Qed.

Lemma run_op_accounted o s : accounted s -> accounted (run_op o s).
Proof.
  intros [Hc Hl Ho]. pose proof (zlen_nonneg (_objects (u_pool s))) as Hn. destruct o as [x|i|i]; simpl.
  - unfold checkout. destruct (_objects (u_pool s)) as [|y rest] eqn:E; simpl.
    + split; simpl; rewrite ?E; try done. by rewrite Ho.
    + rewrite zlen_cons in *. pose proof (zlen_nonneg rest). split; simpl; [|lia|].
      * rewrite Hc, u64_id by (unfold is_u64; lia). lia.
      * rewrite Ho. by rewrite <- Permutation_middle.
  - destruct (lent s !! i) as [x|] eqn:E; [|done]. unfold return_.
    pose proof (delete_Permutation _ _ _ E) as Hd. rewrite Hd in Ho.
    destruct (Z.ltb_spec (_count (u_pool s)) (_max_size (u_pool s))); simpl; split; simpl; rewrite ?zlen_cons; try done; try lia.
    + rewrite Hc, u64_id by (unfold is_u64; lia). lia.
    + etransitivity; [exact Ho | apply moved_idle].
    + etransitivity; [exact Ho | apply moved_destroyed].
  - destruct (lent s !! i) as [x|] eqn:E; [|done].
    pose proof (delete_Permutation _ _ _ E) as Hd. rewrite Hd in Ho.
    split; simpl; try done. etransitivity; [exact Ho | apply moved_destroyed].
Qed.

(** C27. Whatever the users do, the count of the pool is the number of its idle
    objects and never exceeds the limit, and every object that was made is in
    exactly one place: idle, lent to one user, or destroyed. *)
Theorem pool_accounted ops max_size :
  0 <= max_size < UINT64_SPAN -> accounted (run ops max_size).
Proof.
  intros Hm. unfold run. assert (accounted (mk_users (new_pool max_size) [] [] [])) as H0.
  { split; simpl; [done | by rewrite zlen_nil | done]. }
  revert H0. generalize (mk_users (new_pool max_size) [] [] []).
  induction ops as [|o ops IH]; intros s Hs; [done|]. simpl. apply IH. by apply run_op_accounted.
Qed.
End ObjectPool.

Lemma pool_accounted_witness :
  let s := run [Checkout 1%nat; Checkout 2%nat; Return 0; Return 0; Checkout 3%nat] 1 in
  destroyed s = [1%nat] /\ made s ≡ₚ _objects (u_pool s) ++ lent s ++ destroyed s.
Proof.
  split; [vm_compute; reflexivity|].
  apply (a_objects _ (pool_accounted [Checkout 1%nat; Checkout 2%nat; Return 0; Return 0; Checkout 3%nat] 1
    (conj (Z.le_0_1) eq_refl))).
Defined.
End ObjectPool.

(** ** [connection_pool] *)

Module ConnectionPool.
Section ConnectionPool.
(** The network, addresses, sockets, clients and handshake responses. *)
Context {W Addr Socket C Hello M R : Type} {HC : ClientInterface C M R}.

Record member_impl : Type := mk_member_impl {
  _client : C;
  handshake : Hello;
  _id : Z;
  m_generation : Z;
  _perished : bool }.

Record pool_impl : Type := mk_pool_impl {
  uri : connection_uri;
  _conn_ids : Z;
  _generation : Z;
  _idle_connections : list member_impl }.

Definition new_pool_impl (u : connection_uri) : pool_impl := mk_pool_impl u 1 1 [].

(** The construction of a member: its id is taken from the atomic counter, which
    wraps around. *)
Definition emplace_member (self : pool_impl) (client : C) (hs : Hello) : pool_impl * member_impl :=
  (mk_pool_impl (uri self) (s32 (_conn_ids self + 1)) (_generation self) (_idle_connections self),
   mk_member_impl client hs (_conn_ids self) (_generation self) false).

(** The critical section of [checkout]: an idle connection, when there is one. *)
Definition take_idle (self : pool_impl) : pool_impl * option member_impl :=
  match _idle_connections self with
  | [] => (self, None)
  | m :: rest => (mk_pool_impl (uri self) (_conn_ids self) (_generation self) rest, Some m)
  end.

(** [pool_impl::return_]. *)
Definition return_ (self : pool_impl) (m : member_impl) : pool_impl :=
  mk_pool_impl (uri self) (_conn_ids self) (_generation self) (m :: _idle_connections self).

(** [member::_perish], with the state the connection was left in. *)
Definition perish (m : member_impl) (c : C) : member_impl :=
  mk_member_impl c (handshake m) (_id m) (m_generation m) true.
Definition with_client (m : member_impl) (c : C) : member_impl :=
  mk_member_impl c (handshake m) (_id m) (m_generation m) (_perished m).

(** [~member]: a moved-from member has no connection. *)
Definition destroy_member (self : pool_impl) (m : option member_impl) : pool_impl :=
  match m with
  | Some m => if negb (_perished m) then return_ self m else self
  | None => self
  end.

(** [member::_request]. *)
Definition member_request (msg : M) : co_task member_impl R := fun self =>
  let* (c, r) := request msg (_client self) in
  match r with
  | inl e => Done (perish self c, inl e)
  | inr reply => Done (with_client self c, inr reply)
  end.

(** Resolving, connecting, wrapping the socket in a client without and with TLS,
    and the handshake. *)
Context (async_resolve : text -> Z -> co_task W Addr) (async_connect : Addr -> co_task W Socket).
Context (plain_client : Socket -> C) (tls_connect : Socket -> co_task W C).
Context (do_handshake : C -> option text -> co_task W (C * Hello)).

Definition prepare_client (self : pool_impl) (raw_socket : Socket) : co_task W C :=
  if negb (bool_decide (bools (params (uri self)) tls = Some true)) then co_return (plain_client raw_socket)
  else tls_connect raw_socket.

(** The part of [checkout] after the lock: a new connection to the first host,
    which must be a name. *)
Definition connect_new (self : pool_impl) : co_task W (C * Hello) :=
  match hosts (uri self) with
  | [] => fun _ => Undef
  | ep :: _ =>
      match h_host ep with
      | hostname name =>
          let! addr := async_resolve name (h_port ep) in
          let! socket := async_connect addr in
          let! client := prepare_client self socket in
          do_handshake client (strings (params (uri self)) appname)
      | _ => fun _ => Abort
      end
  end.

Definition checkout : co_task (pool_impl * W) member_impl := fun '(self, net) =>
  let (self, idle) := take_idle self in
  match idle with
  | Some m => Done ((self, net), inr m)
  | None =>
      let* (net, r) := connect_new self net in
      match r with
      | inl e => Done ((self, net), inl e)
      | inr (client, hs) =>
          let (self, m) := emplace_member self client hs in Done ((self, net), inr m)
      end
  end.

(** [pool_client]: the pool it refers to, the network, and its member. *)
Record pool_client : Type := mk_pool_client {
  pc_pool : pool_impl;
  pc_net : W;
  _pool_member : option member_impl }.

(** [pool_client::_request]: whatever throws resets the member. *)
Definition pool_client_request (msg : M) : co_task pool_client R := fun self =>
  let* (pool, net, m) :=
    match _pool_member self with
    | Some m => Done (pc_pool self, pc_net self, inr m)
    | None =>
        let* ((pool, net), r) := checkout (pc_pool self, pc_net self) in Done (pool, net, r)
    end in
  match m with
  | inl e => Done (mk_pool_client pool net None, inl e)
  | inr m =>
      let* (m, r) := member_request msg m in
      match r with
      | inl e => Done (mk_pool_client (destroy_member pool (Some m)) net None, inl e)
      | inr reply => Done (mk_pool_client pool net (Some m), inr reply)
      end
  end.

#[export] Instance pool_client_interface : ClientInterface pool_client M R := pool_client_request.

(** ** The users of a pool, interleaved *)

Record system : Type := mk_system {
  s_pool : pool_impl;
  s_held : gmap nat member_impl;
  s_made : Z }.

(** One atomic step of a user [u]: taking an idle connection; the completion of a
    new one; a request that completes or throws; the end of the member. *)
Inductive step : system -> system -> Prop :=
| step_take s u pool m :
    s_held s !! u = None -> take_idle (s_pool s) = (pool, Some m) ->
    step s (mk_system pool (<[u := m]> (s_held s)) (s_made s))
| step_connected s u client hs pool m :
    s_held s !! u = None -> emplace_member (s_pool s) client hs = (pool, m) ->
    step s (mk_system pool (<[u := m]> (s_held s)) (s_made s + 1))
| step_request s u m m' msg r :
    s_held s !! u = Some m -> member_request msg m = Done (m', r) ->
    step s (mk_system (s_pool s) (<[u := m']> (s_held s)) (s_made s))
| step_destroy s u m :
    s_held s !! u = Some m ->
    step s (mk_system (destroy_member (s_pool s) (Some m)) (delete u (s_held s)) (s_made s)).

Inductive reachable (u : connection_uri) : system -> Prop :=
| reach_init : reachable u (mk_system (new_pool_impl u) ∅ 0)
| reach_step s s' : reachable u s -> step s s' -> reachable u s'.

(** The ids of all connections, idle and held. *)
Definition held_ids (held : gmap nat member_impl) : list Z := map (fun p => _id (snd p)) (map_to_list held).
Definition all_ids (s : system) : list Z := map _id (_idle_connections (s_pool s)) ++ held_ids (s_held s).

(** While fewer than [2^31 - 1] connections were made: the counter, the ids, and
    the idle connections. *)
Record exclusive (s : system) : Prop := {
  x_counter : _conn_ids (s_pool s) = s_made s + 1;
  x_ids : Forall (fun i => 1 <= i <= s_made s) (all_ids s);
  x_distinct : NoDup (all_ids s);
  x_sound : Forall (fun m => _perished m = false) (_idle_connections (s_pool s)) }.

Lemma held_ids_insert held u m : held !! u = None -> held_ids (<[u := m]> held) ≡ₚ _id m :: held_ids held.
Proof. intros Hu. unfold held_ids. by rewrite map_to_list_insert. Qed.

Lemma held_ids_delete held u m : held !! u = Some m -> held_ids held ≡ₚ _id m :: held_ids (delete u held).
Proof. intros Hu. unfold held_ids. by rewrite <- (map_to_list_delete held u m). Qed.

Lemma held_ids_update held u m m' : held !! u = Some m -> _id m' = _id m ->
  held_ids (<[u := m']> held) ≡ₚ held_ids held.
Proof.
  intros Hu Hi. rewrite (held_ids_delete held u m Hu), <- Hi, <- insert_delete_eq.
  by rewrite held_ids_insert by apply lookup_delete_eq.
Qed.

Lemma member_request_id msg m m' r : member_request msg m = Done (m', r) ->
  _id m' = _id m /\ _perished m' = (match r with inl _ => true | inr _ => _perished m end).
Proof.
  unfold member_request. destruct (request msg (_client m)) as [[c [e|x]]| |]; try done; by intros [= <- <-].
Qed.

(** The ids do not change, up to their order. *)
Lemma exclusive_permuted s s' :
  exclusive s -> s_made s' = s_made s -> _conn_ids (s_pool s') = _conn_ids (s_pool s) ->
  all_ids s' ≡ₚ all_ids s -> Forall (fun m => _perished m = false) (_idle_connections (s_pool s')) -> exclusive s'.
Proof.
  intros [Hc Hi Hd Hs] Em Ec Ei Hs'. split; [congruence | by rewrite Ei, Em | by rewrite Ei | done].
Qed.

Lemma step_made s s' : step s s' -> s_made s <= s_made s'.
Proof. destruct 1; simpl; lia. Qed.

Lemma step_exclusive s s' : exclusive s -> step s s' -> s_made s' < INT32_MAX -> 0 <= s_made s -> exclusive s'.
Proof.
  intros Hx Hst Hm H0. destruct Hst as [s u pool m Hu Ht|s u client hs pool m Hu He|s u m m' msg r Hu Hr|s u m Hu]; simpl in *.
  - unfold take_idle in Ht. destruct (_idle_connections (s_pool s)) as [|m0 rest] eqn:E; [done|].
    injection Ht as <- ->. apply (exclusive_permuted s); try done; simpl.
    + unfold all_ids. simpl. rewrite E, held_ids_insert by done. simpl. by rewrite <- Permutation_middle.
    + destruct Hx as [_ _ _ Hs]. rewrite E in Hs. by apply Forall_cons in Hs as [_ ?].
  - injection He as <- <-. destruct Hx as [Hc Hi Hd Hs].
    assert (all_ids (mk_system (mk_pool_impl (uri (s_pool s)) (s32 (_conn_ids (s_pool s) + 1)) (_generation (s_pool s))
        (_idle_connections (s_pool s))) (<[u := mk_member_impl client hs (_conn_ids (s_pool s)) (_generation (s_pool s)) false]>
        (s_held s)) (s_made s + 1)) ≡ₚ (s_made s + 1) :: all_ids s) as E.
    { unfold all_ids. simpl. rewrite held_ids_insert by done. simpl. rewrite Hc. by rewrite <- Permutation_middle. }
    split; [simpl|rewrite E|rewrite E|done].
    + rewrite Hc, s32_id by (unfold is_i32; lia). done.
    + simpl. constructor; [lia|]. eapply Forall_impl; [exact Hi|]. simpl. lia.
    + constructor; [|done]. intros Hin. rewrite Forall_forall in Hi. specialize (Hi _ Hin). lia.
  - apply member_request_id in Hr as [Hi _]. apply (exclusive_permuted s); try done; simpl; [|by destruct Hx].
    unfold all_ids. simpl. by rewrite (held_ids_update _ _ m).
  - unfold destroy_member. destruct (_perished m) eqn:Ep; simpl.
    + destruct Hx as [Hc Hi Hd Hs]. unfold all_ids in *. rewrite (held_ids_delete _ _ _ Hu) in Hi, Hd.
      split; try done; unfold all_ids; simpl.
      * rewrite Forall_app, Forall_cons in Hi. rewrite Forall_app. tauto.
      * rewrite <- Permutation_middle in Hd. by apply NoDup_cons in Hd as [_ ?].
    + apply (exclusive_permuted s); try done; simpl.
      * unfold all_ids. simpl. rewrite (held_ids_delete _ _ _ Hu). by rewrite <- Permutation_middle.
      * destruct Hx as [_ _ _ Hs]. by constructor.
Qed.

Lemma reachable_made u s : reachable u s -> 0 <= s_made s.
Proof. induction 1 as [|s s' _ IH Hst]; [done|]. apply step_made in Hst. lia. Qed.

Lemma reachable_exclusive u s : reachable u s -> s_made s < INT32_MAX -> exclusive s.
Proof.
  induction 1 as [|s s' Hr IH Hst]; intros Hm.
  - split; simpl; try done; unfold all_ids, held_ids; simpl; by rewrite map_to_list_empty; constructor.
  - pose proof (step_made _ _ Hst). apply (step_exclusive s); [apply IH; lia | done | done | by eapply reachable_made].
Qed.

(** C26. The pool of connections, however its users interleave: no connection is
    held by two users, or held and idle, and no idle connection is one on which a
    request failed. *)
Theorem connections_exclusive u s : reachable u s -> s_made s < INT32_MAX ->
  (forall i j m n, s_held s !! i = Some m -> s_held s !! j = Some n -> _id m = _id n -> i = j) /\
  (forall i m n, s_held s !! i = Some m -> n ∈ _idle_connections (s_pool s) -> _id m <> _id n) /\
  Forall (fun m => _perished m = false) (_idle_connections (s_pool s)).
Proof.
  intros Hr Hm. destruct (reachable_exclusive u s Hr Hm) as [_ _ Hd Hs]. unfold all_ids in Hd.
  apply NoDup_app in Hd as (_ & Hsep & Hh). split_and!; [| |done].
  - intros i j m n Hi Hj He. destruct (decide (i = j)) as [|Hne]; [done|]. exfalso.
    rewrite (held_ids_delete _ _ _ Hi) in Hh. apply NoDup_cons in Hh as [Hni _]. apply Hni.
    rewrite (held_ids_delete _ j n) by by rewrite lookup_delete_ne. rewrite He. set_solver.
  - intros i m n Hi Hn He. apply (Hsep (_id n)).
    + by apply list_elem_of_fmap_2.
    + rewrite (held_ids_delete _ _ _ Hi), He. set_solver.
Qed.

(** A checkout that is not interleaved is a step of its user. *)
Lemma checkout_step s u net pool net' m :
  s_held s !! u = None -> checkout (s_pool s, net) = Done ((pool, net'), inr m) ->
  step s (mk_system pool (<[u := m]> (s_held s)) (s_made s)) \/
  step s (mk_system pool (<[u := m]> (s_held s)) (s_made s + 1)).
Proof.
  intros Hu. unfold checkout. destruct (take_idle (s_pool s)) as [p [m0|]] eqn:Et.
  - intros [= <- <- <-]. left. by apply step_take.
  - assert (p = s_pool s) as -> by (unfold take_idle in Et; destruct (_idle_connections _); by injection Et).
    destruct (connect_new (s_pool s) net) as [[n [e|[client hs]]]| |]; intros [= <- <- <-].
    right. by apply (step_connected s u client hs).
Qed.

(** The idle connections after a request of a client: a client without a member
    takes the first one. *)
Definition idle_after (self : pool_client) : list member_impl :=
  match _pool_member self with
  | Some _ => _idle_connections (pc_pool self)
  | None => tail (_idle_connections (pc_pool self))
  end.

(** The member a client works with, when that needs no new connection. *)
Definition available (self : pool_client) : option member_impl :=
  match _pool_member self with
  | Some m => Some m
  | None => head (_idle_connections (pc_pool self))
  end.

(** The request on a member, once the client has one. *)
Lemma request_on_member pool net m msg (self' : pool_client) r :
  (let* (m, r) := member_request msg m in
   match r with
   | inl e => Done (mk_pool_client (destroy_member pool (Some m)) net None, inl e)
   | inr reply => Done (mk_pool_client pool net (Some m), inr reply)
   end) = Done (self', r) ->
  _idle_connections (pc_pool self') = _idle_connections pool /\ pc_net self' = net /\
  match r with
  | inl _ => _pool_member self' = None
  | inr _ => exists m', _pool_member self' = Some m' /\ _id m' = _id m /\ _perished m' = _perished m
  end.
Proof.
  destruct (member_request msg m) as [[m' r']| |] eqn:Er; [|done|done].
  destruct (member_request_id _ _ _ _ Er) as [Hid Hp].
  destruct r' as [e|x]; intros [= <- <-]; cbn [pc_pool pc_net _pool_member].
  - by rewrite Hp.
  - split_and!; try done. by exists m'.
Qed.

Lemma checkout_available self : _pool_member self = None ->
  checkout (pc_pool self, pc_net self) =
    match available self with
    | Some m => Done ((mk_pool_impl (uri (pc_pool self)) (_conn_ids (pc_pool self)) (_generation (pc_pool self))
        (idle_after self), pc_net self), inr m)
    | None => checkout (pc_pool self, pc_net self)
    end.
Proof.
  intros Hn. unfold checkout, take_idle, available, idle_after. rewrite Hn.
  by destruct (_idle_connections (pc_pool self)).
Qed.

(** A checkout that connects. *)
Lemma checkout_connects (self : pool_impl) net x : _idle_connections self = [] -> checkout (self, net) = Done x ->
  _idle_connections (fst (fst x)) = [] /\ uri (fst (fst x)) = uri self /\
  (forall m, snd x = inr m -> _id m = _conn_ids self /\ _perished m = false).
Proof.
  intros Hi. unfold checkout, take_idle. rewrite Hi.
  destruct (connect_new self net) as [[net' [e|[client hs]]]| |]; [| |done|done]; intros [= <-]; split_and!; try done.
  by intros m [= <-].
Qed.

(** A request through a client that borrows from the pool: it uses the member
    it holds, else the first idle connection, and only else touches the network
    for a new connection with a fresh id; it keeps the member after a reply; after
    an exception the member is gone, and is not idle in the pool either. *)
Theorem pool_client_spec msg (self self' : pool_client) r :
  pool_client_request msg self = Done (self', r) ->
  _idle_connections (pc_pool self') = idle_after self /\
  (is_Some (available self) -> pc_net self' = pc_net self) /\
  match r with
  | inl _ => _pool_member self' = None
  | inr _ => exists m, _pool_member self' = Some m /\
      _id m = from_option _id (_conn_ids (pc_pool self)) (available self) /\
      _perished m = from_option _perished false (available self)
  end.
Proof.
  unfold pool_client_request. destruct (_pool_member self) as [m|] eqn:Em.
  - intros (Hi & Hn & Hr)%request_on_member. unfold idle_after, available. by rewrite Em.
  - rewrite (checkout_available self Em). destruct (available self) as [m|] eqn:Ea.
    + intros (Hi & Hn & Hr)%request_on_member. done.
    + assert (_idle_connections (pc_pool self) = []) as Hi.
      { unfold available in Ea. rewrite Em in Ea. by destruct (_idle_connections (pc_pool self)). }
      assert (idle_after self = []) as -> by (unfold idle_after; by rewrite Em, Hi).
      destruct (checkout _) as [[[pool net] x]| |] eqn:Ec; [|done|done].
      destruct (checkout_connects _ _ _ Hi Ec) as (Hp & _ & Hm). cbn [fst snd] in Hp, Hm.
      destruct x as [e|m].
      * intros [= <- <-]. cbn [pc_pool pc_net _pool_member]. split_and!; [done | by intros [? ?] | done].
      * intros (Hi' & _ & Hr)%request_on_member. destruct (Hm m eq_refl) as [Hid Hpe].
        split_and!; [by rewrite Hi' | by intros [? ?] |]. destruct r; [done|]. simpl. by rewrite <- Hid, <- Hpe.
Qed.
End ConnectionPool.

(** ** A concrete pool *)

(** A connection that counts its requests and fails on the message 0; a network
    that counts its connections. *)
#[local] Instance counting : ClientInterface nat nat nat :=
  fun msg c => Done (S c, if (msg =? 0)%nat then inl bad_alloc else inr c).

Definition demo_uri : connection_uri := mk_uri [mk_host (hostname []) 27017] None no_params.

Definition demo_request (msg : nat) : co_task (pool_client (W := nat) (C := nat) (Hello := unit)) nat :=
  pool_client_request (Addr := unit) (Socket := nat)
    (fun _ _ net => Done (net, inr tt)) (fun _ net => Done (S net, inr net))
    (fun s => s) (fun s net => Done (net, inr s)) (fun c _ net => Done (net, inr (c, tt))) msg.

Lemma pool_client_spec_witness :
  exists self, demo_request 0%nat (mk_pool_client (new_pool_impl demo_uri) 0%nat None) = Done (self, inl bad_alloc) /\
  _pool_member self = None /\ _idle_connections (pc_pool self) = [] /\ pc_net self = 1%nat.
Proof.
  destruct (demo_request 0%nat (mk_pool_client (new_pool_impl demo_uri) 0%nat None)) as [[self r]| |] eqn:E;
    [|discriminate E|discriminate E].
  unfold demo_request in E. destruct (pool_client_spec _ _ _ _ _ _ _ _ _ E) as (Hi & _ & Hr).
  assert (r = inl bad_alloc) as -> by (vm_compute in E; by injection E as <- <-).
  exists self. split; [done|]. split; [exact Hr|]. split; [exact Hi|]. vm_compute in E. by injection E as <-.
Defined.

Definition demo_system : @system nat unit :=
  mk_system (mk_pool_impl demo_uri 3 1 [])
    (<[1%nat := mk_member_impl 0%nat tt 2 1 false]> (<[0%nat := mk_member_impl 0%nat tt 1 1 false]> ∅)) 2.

Lemma demo_reachable : reachable demo_uri demo_system.
Proof.
  unfold demo_system. apply (reach_step _ (mk_system (mk_pool_impl demo_uri 2 1 [])
    (<[0%nat := mk_member_impl 0%nat tt 1 1 false]> ∅) 1)).
  - apply (reach_step _ (mk_system (new_pool_impl demo_uri) ∅ 0)); [apply reach_init|].
    by apply (step_connected (mk_system (new_pool_impl demo_uri) ∅ 0) 0%nat 0%nat tt (mk_pool_impl demo_uri 2 1 [])).
  - by refine (step_connected (M := nat) (R := nat) (mk_system (mk_pool_impl demo_uri 2 1 [])
      (<[0%nat := mk_member_impl 0%nat tt 1 1 false]> ∅) 1) 1%nat 0%nat tt (mk_pool_impl demo_uri 3 1 [])
      (mk_member_impl 0%nat tt 2 1 false) _ _).
Qed.

Lemma connections_exclusive_witness :
  exists m n, s_held demo_system !! 0%nat = Some m /\ s_held demo_system !! 1%nat = Some n /\ _id m <> _id n.
Proof.
  eexists _, _. split; [vm_compute; reflexivity|]. split; [vm_compute; reflexivity|]. intros He.
  destruct (connections_exclusive demo_uri demo_system demo_reachable eq_refl) as [Hu _].
  discriminate (Hu 0%nat 1%nat _ _ eq_refl eq_refl He).
Defined.
End ConnectionPool.
