(* ===== verification/Status.v ===== *)
(** * Statuses ([include/amongoc/status.h], [src/amongoc/status.cpp])

    Status codes with a category, what the categories say about them, their
    messages, and the conversions from and to C++ error codes. *)
From Stdlib Require Import ZArith Lia.
From Stdlib Require Import Strings.Byte Strings.String DecimalString.
From stdpp Require Import base numbers list sets strings.
From S2P Require Import Prelude.
From S2P Require Import Parse.
Open Scope Z_scope.

(** ** Server error codes *)

(** The enumerators of [amongoc_server_errc], in order. *)
Definition server_errc_0 : list (string * Z) := [
  ("InternalError", 1); ("BadValue", 2); ("NoSuchKey", 4); ("GraphContainsCycle", 5); ("HostUnreachable", 6);
  ("HostNotFound", 7); ("UnknownError", 8); ("FailedToParse", 9); ("CannotMutateObject", 10); ("UserNotFound", 11);
  ("UnsupportedFormat", 12); ("Unauthorized", 13); ("TypeMismatch", 14); ("Overflow", 15); ("InvalidLength", 16);
  ("ProtocolError", 17); ("AuthenticationFailed", 18); ("CannotReuseObject", 19); ("IllegalOperation", 20);
  ("EmptyArrayOperation", 21); ("InvalidBSON", 22); ("AlreadyInitialized", 23); ("LockTimeout", 24);
  ("RemoteValidationError", 25); ("NamespaceNotFound", 26); ("IndexNotFound", 27); ("PathNotViable", 28);
  ("NonExistentPath", 29); ("InvalidPath", 30); ("RoleNotFound", 31); ("RolesNotRelated", 32);
  ("PrivilegeNotFound", 33); ("CannotBackfillArray", 34); ("UserModificationFailed", 35);
  ("RemoteChangeDetected", 36); ("FileRenameFailed", 37); ("FileNotOpen", 38); ("FileStreamFailed", 39);
  ("ConflictingUpdateOperators", 40); ("FileAlreadyOpen", 41); ("LogWriteFailed", 42); ("CursorNotFound", 43);
  ("UserDataInconsistent", 45); ("LockBusy", 46); ("NoMatchingDocument", 47); ("NamespaceExists", 48);
  ("InvalidRoleModification", 49); ("MaxTimeMSExpired", 50); ("ManualInterventionRequired", 51);
  ("DollarPrefixedFieldName", 52); ("InvalidIdField", 53); ("NotSingleValueField", 54); ("InvalidDBRef", 55);
  ("EmptyFieldName", 56); ("DottedFieldName", 57); ("RoleModificationFailed", 58); ("CommandNotFound", 59);
  ("ShardKeyNotFound", 61); ("OplogOperationUnsupported", 62); ("StaleShardVersion", 63);
  ("WriteConcernFailed", 64); ("MultipleErrorsOccurred", 65); ("ImmutableField", 66); ("CannotCreateIndex", 67);
  ("IndexAlreadyExists", 68); ("AuthSchemaIncompatible", 69); ("ShardNotFound", 70); ("ReplicaSetNotFound", 71);
  ("InvalidOptions", 72); ("InvalidNamespace", 73); ("NodeNotFound", 74); ("WriteConcernLegacyOK", 75);
  ("NoReplicationEnabled", 76); ("OperationIncomplete", 77); ("CommandResultSchemaViolation", 78);
  ("UnknownReplWriteConcern", 79); ("RoleDataInconsistent", 80); ("NoMatchParseContext", 81);
  ("NoProgressMade", 82); ("RemoteResultsUnavailable", 83); ("IndexOptionsConflict", 85);
  ("IndexKeySpecsConflict", 86); ("CannotSplit", 87); ("NetworkTimeout", 89); ("CallbackCanceled", 90);
  ("ShutdownInProgress", 91); ("SecondaryAheadOfPrimary", 92); ("InvalidReplicaSetConfig", 93);
  ("NotYetInitialized", 94); ("NotSecondary", 95); ("OperationFailed", 96); ("NoProjectionFound", 97);
  ("DBPathInUse", 98); ("UnsatisfiableWriteConcern", 100); ("OutdatedClient", 101);
  ("IncompatibleAuditMetadata", 102); ("NewReplicaSetConfigurationIncompatible", 103); ("NodeNotElectable", 104);
  ("IncompatibleShardingMetadata", 105); ("DistributedClockSkewed", 106); ("LockFailed", 107);
  ("InconsistentReplicaSetNames", 108); ("ConfigurationInProgress", 109); ("CannotInitializeNodeWithData", 110);
  ("NotExactValueField", 111); ("WriteConflict", 112); ("InitialSyncFailure", 113);
  ("InitialSyncOplogSourceMissing", 114); ("CommandNotSupported", 115); ("DocTooLargeForCapped", 116);
  ("ConflictingOperationInProgress", 117); ("NamespaceNotSharded", 118)]%string.
Definition server_errc_1 : list (string * Z) := [
  ("InvalidSyncSource", 119); ("OplogStartMissing", 120); ("DocumentValidationFailure", 121);
  ("NotAReplicaSet", 123); ("IncompatibleElectionProtocol", 124); ("CommandFailed", 125);
  ("RPCProtocolNegotiationFailed", 126); ("UnrecoverableRollbackError", 127); ("LockNotFound", 128);
  ("LockStateChangeFailed", 129); ("SymbolNotFound", 130); ("FailedToSatisfyReadPreference", 133);
  ("ReadConcernMajorityNotAvailableYet", 134); ("StaleTerm", 135); ("CappedPositionLost", 136);
  ("IncompatibleShardingConfigVersion", 137); ("RemoteOplogStale", 138); ("JSInterpreterFailure", 139);
  ("InvalidSSLConfiguration", 140); ("SSLHandshakeFailed", 141); ("JSUncatchableError", 142); ("CursorInUse", 143);
  ("IncompatibleCatalogManager", 144); ("PooledConnectionsDropped", 145); ("ExceededMemoryLimit", 146);
  ("ZLibError", 147); ("ReadConcernMajorityNotEnabled", 148); ("NoConfigPrimary", 149); ("StaleEpoch", 150);
  ("OperationCannotBeBatched", 151); ("OplogOutOfOrder", 152); ("ChunkTooBig", 153);
  ("InconsistentShardIdentity", 154); ("CannotApplyOplogWhilePrimary", 155); ("CanRepairToDowngrade", 157);
  ("MustUpgrade", 158); ("DurationOverflow", 159); ("MaxStalenessOutOfRange", 160);
  ("IncompatibleCollationVersion", 161); ("CollectionIsEmpty", 162); ("ZoneStillInUse", 163);
  ("InitialSyncActive", 164); ("ViewDepthLimitExceeded", 165); ("CommandNotSupportedOnView", 166);
  ("OptionNotSupportedOnView", 167); ("InvalidPipelineOperator", 168);
  ("CommandOnShardedViewNotSupportedOnMongod", 169); ("TooManyMatchingDocuments", 170);
  ("CannotIndexParallelArrays", 171); ("TransportSessionClosed", 172); ("TransportSessionNotFound", 173);
  ("TransportSessionUnknown", 174); ("QueryPlanKilled", 175); ("FileOpenFailed", 176); ("ZoneNotFound", 177);
  ("RangeOverlapConflict", 178); ("WindowsPdhError", 179); ("BadPerfCounterPath", 180);
  ("AmbiguousIndexKeyPattern", 181); ("InvalidViewDefinition", 182); ("ClientMetadataMissingField", 183);
  ("ClientMetadataAppNameTooLarge", 184); ("ClientMetadataDocumentTooLarge", 185);
  ("ClientMetadataCannotBeMutated", 186); ("LinearizableReadConcernError", 187); ("IncompatibleServerVersion", 188);
  ("PrimarySteppedDown", 189); ("MasterSlaveConnectionFailure", 190); ("FailPointEnabled", 192);
  ("NoShardingEnabled", 193); ("BalancerInterrupted", 194); ("ViewPipelineMaxSizeExceeded", 195);
  ("InvalidIndexSpecificationOption", 197); ("ReplicaSetMonitorRemoved", 199); ("ChunkRangeCleanupPending", 200);
  ("CannotBuildIndexKeys", 201); ("NetworkInterfaceExceededTimeLimit", 202); ("ShardingStateNotInitialized", 203);
  ("TimeProofMismatch", 204); ("ClusterTimeFailsRateLimiter", 205); ("NoSuchSession", 206); ("InvalidUUID", 207);
  ("TooManyLocks", 208); ("StaleClusterTime", 209); ("CannotVerifyAndSignLogicalTime", 210); ("KeyNotFound", 211);
  ("IncompatibleRollbackAlgorithm", 212); ("DuplicateSession", 213); ("AuthenticationRestrictionUnmet", 214);
  ("DatabaseDropPending", 215); ("ElectionInProgress", 216); ("IncompleteTransactionHistory", 217);
  ("UpdateOperationFailed", 218); ("FTDCPathNotSet", 219); ("FTDCPathAlreadySet", 220); ("IndexModified", 221);
  ("CloseChangeStream", 222); ("IllegalOpMsgFlag", 223); ("QueryFeatureNotAllowed", 224);
  ("TransactionTooOld", 225); ("AtomicityFailure", 226); ("CannotImplicitlyCreateCollection", 227);
  ("SessionTransferIncomplete", 228); ("MustDowngrade", 229); ("DNSHostNotFound", 230); ("DNSProtocolError", 231);
  ("MaxSubPipelineDepthExceeded", 232); ("TooManyDocumentSequences", 233); ("RetryChangeStream", 234);
  ("InternalErrorNotSupported", 235); ("ForTestingErrorExtraInfo", 236); ("CursorKilled", 237)]%string.
Definition server_errc_2 : list (string * Z) := [
  ("NotImplemented", 238); ("SnapshotTooOld", 239); ("DNSRecordTypeMismatch", 240); ("ConversionFailure", 241);
  ("CannotCreateCollection", 242); ("IncompatibleWithUpgradedServer", 243); ("BrokenPromise", 245);
  ("SnapshotUnavailable", 246); ("ProducerConsumerQueueBatchTooLarge", 247);
  ("ProducerConsumerQueueEndClosed", 248); ("StaleDbVersion", 249); ("StaleChunkHistory", 250);
  ("NoSuchTransaction", 251); ("ReentrancyNotAllowed", 252); ("FreeMonHttpInFlight", 253);
  ("FreeMonHttpTemporaryFailure", 254); ("FreeMonHttpPermanentFailure", 255); ("TransactionCommitted", 256);
  ("TransactionTooLarge", 257); ("UnknownFeatureCompatibilityVersion", 258); ("KeyedExecutorRetry", 259);
  ("InvalidResumeToken", 260); ("TooManyLogicalSessions", 261); ("ExceededTimeLimit", 262);
  ("OperationNotSupportedInTransaction", 263); ("TooManyFilesOpen", 264); ("OrphanedRangeCleanUpFailed", 265);
  ("FailPointSetFailed", 266); ("PreparedTransactionInProgress", 267); ("CannotBackup", 268);
  ("DataModifiedByRepair", 269); ("RepairedReplicaSetNode", 270); ("JSInterpreterFailureWithStack", 271);
  ("MigrationConflict", 272); ("ProducerConsumerQueueProducerQueueDepthExceeded", 273);
  ("ProducerConsumerQueueConsumed", 274); ("ExchangePassthrough", 275); ("IndexBuildAborted", 276);
  ("AlarmAlreadyFulfilled", 277); ("UnsatisfiableCommitQuorum", 278); ("ClientDisconnect", 279);
  ("ChangeStreamFatalError", 280); ("TransactionCoordinatorSteppingDown", 281);
  ("TransactionCoordinatorReachedAbortDecision", 282); ("WouldChangeOwningShard", 283);
  ("ForTestingErrorExtraInfoWithExtraInfoInNamespace", 284); ("IndexBuildAlreadyInProgress", 285);
  ("ChangeStreamHistoryLost", 286); ("TransactionCoordinatorDeadlineTaskCanceled", 287); ("ChecksumMismatch", 288);
  ("WaitForMajorityServiceEarlierOpTimeAvailable", 289); ("TransactionExceededLifetimeLimitSeconds", 290);
  ("NoQueryExecutionPlans", 291); ("QueryExceededMemoryLimitNoDiskUseAllowed", 292); ("InvalidSeedList", 293);
  ("InvalidTopologyType", 294); ("InvalidHeartBeatFrequency", 295); ("TopologySetNameRequired", 296);
  ("HierarchicalAcquisitionLevelViolation", 297); ("InvalidServerType", 298); ("OCSPCertificateStatusRevoked", 299);
  ("RangeDeletionAbandonedBecauseCollectionWithUUIDDoesNotExist", 300); ("DataCorruptionDetected", 301);
  ("OCSPCertificateStatusUnknown", 302); ("SplitHorizonChange", 303); ("ShardInvalidatedForTargeting", 304);
  ("RangeDeletionAbandonedBecauseTaskDocumentDoesNotExist", 307); ("CurrentConfigNotCommittedYet", 308);
  ("ExhaustCommandFinished", 309); ("PeriodicJobIsStopped", 310); ("TransactionCoordinatorCanceled", 311);
  ("OperationIsKilledAndDelisted", 312); ("ResumableRangeDeleterDisabled", 313); ("ObjectIsBusy", 314);
  ("TooStaleToSyncFromSource", 315); ("QueryTrialRunCompleted", 316); ("ConnectionPoolExpired", 317);
  ("ForTestingOptionalErrorExtraInfo", 318); ("MovePrimaryInProgress", 319); ("TenantMigrationConflict", 320);
  ("TenantMigrationCommitted", 321); ("APIVersionError", 322); ("APIStrictError", 323);
  ("APIDeprecationError", 324); ("TenantMigrationAborted", 325); ("OplogQueryMinTsMissing", 326);
  ("NoSuchTenantMigration", 327); ("TenantMigrationAccessBlockerShuttingDown", 328);
  ("TenantMigrationInProgress", 329); ("SkipCommandExecution", 330); ("FailedToRunWithReplyBuilder", 331);
  ("CannotDowngrade", 332); ("ServiceExecutorInShutdown", 333); ("MechanismUnavailable", 334);
  ("TenantMigrationForgotten", 335); ("SocketException", 9001); ("CannotGrowDocumentInCappedNamespace", 10003);
  ("NotWritablePrimary", 10107); ("BSONObjectTooLarge", 10334); ("DuplicateKey", 11000);
  ("InterruptedAtShutdown", 11600); ("Interrupted", 11601); ("InterruptedDueToReplStateChange", 11602);
  ("BackgroundOperationInProgressForDatabase", 12586); ("BackgroundOperationInProgressForNamespace", 12587);
  ("MergeStageNoMatchingDocument", 13113); ("DatabaseDifferCase", 13297); ("StaleConfig", 13388);
  ("NotPrimaryNoSecondaryOk", 13435); ("NotPrimaryOrSecondary", 13436); ("OutOfDiskSpace", 14031);
  ("ClientMarkedKilled", 46841)]%string.
Definition amongoc_server_errc : list (string * Z) :=
  server_errc_0 ++ server_errc_1 ++ server_errc_2.

(** The reasons of TLS errors, those of [sslerr.h] with the prefix [ossl_]. *)
Definition tls_errc_0 : list (string * Z) := [
  ("okay", 0); ("ossl_application_data_after_close_notify", 291); ("ossl_app_data_in_handshake", 100);
  ("ossl_attempt_to_reuse_session_in_different_context", 272); ("ossl_at_least_tls_1_2_needed_in_suiteb_mode", 158);
  ("ossl_bad_certificate", 348); ("ossl_bad_change_cipher_spec", 103); ("ossl_bad_cipher", 186);
  ("ossl_bad_compression_algorithm", 326); ("ossl_bad_data", 390); ("ossl_bad_data_returned_by_callback", 106);
  ("ossl_bad_decompression", 107); ("ossl_bad_dh_value", 102); ("ossl_bad_digest_length", 111);
  ("ossl_bad_early_data", 233); ("ossl_bad_ecc_cert", 304); ("ossl_bad_ecpoint", 306); ("ossl_bad_extension", 110);
  ("ossl_bad_handshake_length", 332); ("ossl_bad_handshake_state", 236); ("ossl_bad_hello_request", 105);
  ("ossl_bad_hrr_version", 263); ("ossl_bad_key_share", 108); ("ossl_bad_key_update", 122);
  ("ossl_bad_legacy_version", 292); ("ossl_bad_length", 271); ("ossl_bad_packet", 240);
  ("ossl_bad_packet_length", 115); ("ossl_bad_protocol_version_number", 116); ("ossl_bad_psk", 219);
  ("ossl_bad_psk_identity", 114); ("ossl_bad_record_type", 443); ("ossl_bad_rsa_encrypt", 119);
  ("ossl_bad_signature", 123); ("ossl_bad_srp_a_length", 347); ("ossl_bad_srp_parameters", 371);
  ("ossl_bad_srtp_mki_value", 352); ("ossl_bad_srtp_protection_profile_list", 353); ("ossl_bad_ssl_filetype", 124);
  ("ossl_bad_value", 384); ("ossl_bad_write_retry", 127); ("ossl_binder_does_not_verify", 253);
  ("ossl_bio_not_set", 128); ("ossl_block_cipher_pad_is_wrong", 129); ("ossl_bn_lib", 130);
  ("ossl_callback_failed", 234); ("ossl_cannot_change_cipher", 109); ("ossl_cannot_get_group_name", 299);
  ("ossl_ca_dn_length_mismatch", 131); ("ossl_ca_key_too_small", 397); ("ossl_ca_md_too_weak", 398);
  ("ossl_ccs_received_early", 133); ("ossl_certificate_verify_failed", 134); ("ossl_cert_cb_error", 377);
  ("ossl_cert_length_mismatch", 135); ("ossl_ciphersuite_digest_has_changed", 218);
  ("ossl_cipher_code_wrong_length", 137); ("ossl_clienthello_tlsext", 226);
  ("ossl_compressed_length_too_long", 140); ("ossl_compression_disabled", 343); ("ossl_compression_failure", 141);
  ("ossl_compression_id_not_within_private_range", 307); ("ossl_compression_library_error", 142);
  ("ossl_connection_type_not_set", 144); ("ossl_conn_use_only", 356); ("ossl_context_not_dane_enabled", 167);
  ("ossl_cookie_gen_callback_failure", 400); ("ossl_cookie_mismatch", 308); ("ossl_copy_parameters_failed", 296);
  ("ossl_custom_ext_handler_already_installed", 206); ("ossl_dane_already_enabled", 172);
  ("ossl_dane_cannot_override_mtype_full", 173); ("ossl_dane_not_enabled", 175);
  ("ossl_dane_tlsa_bad_certificate", 180); ("ossl_dane_tlsa_bad_certificate_usage", 184);
  ("ossl_dane_tlsa_bad_data_length", 189); ("ossl_dane_tlsa_bad_digest_length", 192);
  ("ossl_dane_tlsa_bad_matching_type", 200); ("ossl_dane_tlsa_bad_public_key", 201);
  ("ossl_dane_tlsa_bad_selector", 202); ("ossl_dane_tlsa_null_data", 203);
  ("ossl_data_between_ccs_and_finished", 145); ("ossl_data_length_too_long", 146); ("ossl_decryption_failed", 147);
  ("ossl_decryption_failed_or_bad_record_mac", 281); ("ossl_dh_key_too_small", 394);
  ("ossl_dh_public_value_length_is_wrong", 148); ("ossl_digest_check_failed", 149);
  ("ossl_dtls_message_too_big", 334); ("ossl_duplicate_compression_id", 309);
  ("ossl_ecc_cert_not_for_signing", 318); ("ossl_ecdh_required_for_suiteb_mode", 374);
  ("ossl_ee_key_too_small", 399); ("ossl_empty_raw_public_key", 349);
  ("ossl_empty_srtp_protection_profile_list", 354); ("ossl_encrypted_length_too_long", 150);
  ("ossl_error_in_received_cipher_list", 151); ("ossl_error_setting_tlsa_base_domain", 204);
  ("ossl_exceeds_max_fragment_size", 194); ("ossl_excessive_message_size", 152);
  ("ossl_extension_not_received", 279); ("ossl_extra_data_in_message", 153); ("ossl_ext_length_mismatch", 163);
  ("ossl_failed_to_get_parameter", 316); ("ossl_failed_to_init_async", 405);
  ("ossl_feature_negotiation_not_complete", 417); ("ossl_feature_not_renegotiable", 413);
  ("ossl_fragmented_client_hello", 401); ("ossl_got_a_fin_before_a_ccs", 154); ("ossl_https_proxy_request", 155);
  ("ossl_http_request", 156); ("ossl_illegal_point_compression", 162); ("ossl_illegal_suiteb_digest", 380);
  ("ossl_inappropriate_fallback", 373); ("ossl_inconsistent_compression", 340);
  ("ossl_inconsistent_early_data_alpn", 222); ("ossl_inconsistent_early_data_sni", 231);
  ("ossl_inconsistent_extms", 104)]%string.
Definition tls_errc_1 : list (string * Z) := [
  ("ossl_insufficient_security", 241); ("ossl_invalid_alert", 205); ("ossl_invalid_ccs_message", 260);
  ("ossl_invalid_certificate_or_alg", 238); ("ossl_invalid_command", 280);
  ("ossl_invalid_compression_algorithm", 341); ("ossl_invalid_config", 283);
  ("ossl_invalid_configuration_name", 113); ("ossl_invalid_context", 282); ("ossl_invalid_ct_validation_type", 212);
  ("ossl_invalid_key_update_type", 120); ("ossl_invalid_max_early_data", 174); ("ossl_invalid_null_cmd_name", 385);
  ("ossl_invalid_raw_public_key", 350); ("ossl_invalid_record", 317); ("ossl_invalid_sequence_number", 402);
  ("ossl_invalid_serverinfo_data", 388); ("ossl_invalid_session_id", 999); ("ossl_invalid_srp_username", 357);
  ("ossl_invalid_status_response", 328); ("ossl_invalid_ticket_keys_length", 325);
  ("ossl_legacy_sigalg_disallowed_or_unsupported", 333); ("ossl_length_mismatch", 159);
  ("ossl_length_too_long", 404); ("ossl_length_too_short", 160); ("ossl_library_bug", 274);
  ("ossl_library_has_no_ciphers", 161); ("ossl_maximum_encrypted_pkts_reached", 395);
  ("ossl_missing_dsa_signing_cert", 165); ("ossl_missing_ecdsa_signing_cert", 381); ("ossl_missing_fatal", 256);
  ("ossl_missing_parameters", 290); ("ossl_missing_psk_kex_modes_extension", 310);
  ("ossl_missing_rsa_certificate", 168); ("ossl_missing_rsa_encrypting_cert", 169);
  ("ossl_missing_rsa_signing_cert", 170); ("ossl_missing_sigalgs_extension", 112);
  ("ossl_missing_signing_cert", 221); ("ossl_missing_srp_param", 358);
  ("ossl_missing_supported_groups_extension", 209); ("ossl_missing_tmp_dh_key", 171);
  ("ossl_missing_tmp_ecdh_key", 311); ("ossl_mixed_handshake_and_non_handshake_data", 293);
  ("ossl_not_on_record_boundary", 182); ("ossl_not_replacing_certificate", 289); ("ossl_not_server", 284);
  ("ossl_no_application_protocol", 235); ("ossl_no_certificates_returned", 176);
  ("ossl_no_certificate_assigned", 177); ("ossl_no_certificate_set", 179); ("ossl_no_change_following_hrr", 214);
  ("ossl_no_ciphers_available", 181); ("ossl_no_ciphers_specified", 183); ("ossl_no_cipher_match", 185);
  ("ossl_no_client_cert_method", 331); ("ossl_no_compression_specified", 187); ("ossl_no_cookie_callback_set", 287);
  ("ossl_no_gost_certificate_sent_by_peer", 330); ("ossl_no_method_specified", 188);
  ("ossl_no_pem_extensions", 389); ("ossl_no_private_key_assigned", 190); ("ossl_no_protocols_available", 191);
  ("ossl_no_renegotiation", 339); ("ossl_no_required_digest", 324); ("ossl_no_shared_cipher", 193);
  ("ossl_no_shared_groups", 410); ("ossl_no_shared_signature_algorithms", 376); ("ossl_no_srtp_profiles", 359);
  ("ossl_no_stream", 355); ("ossl_no_suitable_digest_algorithm", 297); ("ossl_no_suitable_groups", 295);
  ("ossl_no_suitable_key_share", 101); ("ossl_no_suitable_record_layer", 322);
  ("ossl_no_suitable_signature_algorithm", 118); ("ossl_no_valid_scts", 216);
  ("ossl_no_verify_cookie_callback", 403); ("ossl_null_ssl_ctx", 195); ("ossl_null_ssl_method_passed", 196);
  ("ossl_ocsp_callback_failure", 305); ("ossl_old_session_cipher_not_returned", 197);
  ("ossl_old_session_compression_algorithm_not_returned", 344); ("ossl_overflow_error", 237);
  ("ossl_packet_length_too_long", 198); ("ossl_parse_tlsext", 227); ("ossl_path_too_long", 270);
  ("ossl_peer_did_not_return_a_certificate", 199); ("ossl_pem_name_bad_prefix", 391);
  ("ossl_pem_name_too_short", 392); ("ossl_pipeline_failure", 406); ("ossl_poll_request_not_supported", 418);
  ("ossl_post_handshake_auth_encoding_err", 278); ("ossl_private_key_mismatch", 288);
  ("ossl_protocol_is_shutdown", 207); ("ossl_psk_identity_not_found", 223); ("ossl_psk_no_client_cb", 224);
  ("ossl_psk_no_server_cb", 225); ("ossl_quic_handshake_layer_error", 393); ("ossl_quic_network_error", 387);
  ("ossl_quic_protocol_error", 382); ("ossl_read_bio_not_set", 211); ("ossl_read_timeout_expired", 312);
  ("ossl_records_not_released", 321); ("ossl_record_layer_failure", 313); ("ossl_record_length_mismatch", 213);
  ("ossl_record_too_small", 298); ("ossl_remote_peer_address_not_set", 346); ("ossl_renegotiate_ext_too_long", 335);
  ("ossl_renegotiation_encoding_err", 336); ("ossl_renegotiation_mismatch", 337); ("ossl_request_pending", 285);
  ("ossl_request_sent", 286); ("ossl_required_cipher_missing", 215);
  ("ossl_required_compression_algorithm_missing", 342); ("ossl_scsv_received_when_renegotiating", 345);
  ("ossl_sct_verification_failed", 208); ("ossl_sequence_ctr_wrapped", 327); ("ossl_serverhello_tlsext", 275);
  ("ossl_session_id_context_uninitialized", 277)]%string.
Definition tls_errc_2 : list (string * Z) := [
  ("ossl_shutdown_while_in_init", 407); ("ossl_signature_algorithms_error", 360);
  ("ossl_signature_for_non_signing_certificate", 220); ("ossl_srp_a_calc", 361);
  ("ossl_srtp_could_not_allocate_profiles", 362); ("ossl_srtp_protection_profile_list_too_long", 363);
  ("ossl_srtp_unknown_protection_profile", 364); ("ossl_ssl3_ext_invalid_max_fragment_length", 232);
  ("ossl_ssl3_ext_invalid_servername", 319); ("ossl_ssl3_ext_invalid_servername_type", 320);
  ("ossl_ssl3_session_id_too_long", 300); ("ossl_sslv3_alert_bad_certificate", 1042);
  ("ossl_sslv3_alert_bad_record_mac", 1020); ("ossl_sslv3_alert_certificate_expired", 1045);
  ("ossl_sslv3_alert_certificate_revoked", 1044); ("ossl_sslv3_alert_certificate_unknown", 1046);
  ("ossl_sslv3_alert_decompression_failure", 1030); ("ossl_sslv3_alert_handshake_failure", 1040);
  ("ossl_sslv3_alert_illegal_parameter", 1047); ("ossl_sslv3_alert_no_certificate", 1041);
  ("ossl_sslv3_alert_unexpected_message", 1010); ("ossl_sslv3_alert_unsupported_certificate", 1043);
  ("ossl_ssl_command_section_empty", 117); ("ossl_ssl_command_section_not_found", 125);
  ("ossl_ssl_ctx_has_no_default_ssl_version", 228); ("ossl_ssl_handshake_failure", 229);
  ("ossl_ssl_library_has_no_ciphers", 230); ("ossl_ssl_negative_length", 372); ("ossl_ssl_section_empty", 126);
  ("ossl_ssl_section_not_found", 136); ("ossl_ssl_session_id_callback_failed", 301);
  ("ossl_ssl_session_id_conflict", 302); ("ossl_ssl_session_id_context_too_long", 273);
  ("ossl_ssl_session_id_has_bad_length", 303); ("ossl_ssl_session_id_too_long", 408);
  ("ossl_ssl_session_version_mismatch", 210); ("ossl_still_in_init", 121); ("ossl_stream_count_limited", 411);
  ("ossl_stream_finished", 365); ("ossl_stream_recv_only", 366); ("ossl_stream_reset", 375);
  ("ossl_stream_send_only", 379); ("ossl_tlsv13_alert_certificate_required", 1116);
  ("ossl_tlsv13_alert_missing_extension", 1109); ("ossl_tlsv1_alert_access_denied", 1049);
  ("ossl_tlsv1_alert_decode_error", 1050); ("ossl_tlsv1_alert_decryption_failed", 1021);
  ("ossl_tlsv1_alert_decrypt_error", 1051); ("ossl_tlsv1_alert_export_restriction", 1060);
  ("ossl_tlsv1_alert_inappropriate_fallback", 1086); ("ossl_tlsv1_alert_insufficient_security", 1071);
  ("ossl_tlsv1_alert_internal_error", 1080); ("ossl_tlsv1_alert_no_application_protocol", 1120);
  ("ossl_tlsv1_alert_no_renegotiation", 1100); ("ossl_tlsv1_alert_protocol_version", 1070);
  ("ossl_tlsv1_alert_record_overflow", 1022); ("ossl_tlsv1_alert_unknown_ca", 1048);
  ("ossl_tlsv1_alert_unknown_psk_identity", 1115); ("ossl_tlsv1_alert_user_cancelled", 1090);
  ("ossl_tlsv1_bad_certificate_hash_value", 1114); ("ossl_tlsv1_bad_certificate_status_response", 1113);
  ("ossl_tlsv1_certificate_unobtainable", 1111); ("ossl_tlsv1_unrecognized_name", 1112);
  ("ossl_tlsv1_unsupported_extension", 1110); ("ossl_tls_illegal_exporter_label", 367);
  ("ossl_tls_invalid_ecpointformat_list", 157); ("ossl_too_many_key_updates", 132);
  ("ossl_too_many_warn_alerts", 409); ("ossl_too_much_early_data", 164);
  ("ossl_unable_to_find_ecdh_parameters", 314); ("ossl_unable_to_find_public_key_parameters", 239);
  ("ossl_unable_to_load_ssl3_md5_routines", 242); ("ossl_unable_to_load_ssl3_sha1_routines", 243);
  ("ossl_unexpected_ccs_message", 262); ("ossl_unexpected_end_of_early_data", 178);
  ("ossl_unexpected_eof_while_reading", 294); ("ossl_unexpected_message", 244); ("ossl_unexpected_record", 245);
  ("ossl_uninitialized", 276); ("ossl_unknown_alert_type", 246); ("ossl_unknown_certificate_type", 247);
  ("ossl_unknown_cipher_returned", 248); ("ossl_unknown_cipher_type", 249); ("ossl_unknown_cmd_name", 386);
  ("ossl_unknown_command", 139); ("ossl_unknown_digest", 368); ("ossl_unknown_key_exchange_type", 250);
  ("ossl_unknown_mandatory_parameter", 323); ("ossl_unknown_pkey_type", 251); ("ossl_unknown_protocol", 252);
  ("ossl_unknown_ssl_version", 254); ("ossl_unknown_state", 255);
  ("ossl_unsafe_legacy_renegotiation_disabled", 338); ("ossl_unsolicited_extension", 217);
  ("ossl_unsupported_compression_algorithm", 257); ("ossl_unsupported_config_value", 414);
  ("ossl_unsupported_config_value_class", 415); ("ossl_unsupported_config_value_op", 416);
  ("ossl_unsupported_elliptic_curve", 315); ("ossl_unsupported_protocol", 258);
  ("ossl_unsupported_ssl_version", 259); ("ossl_unsupported_status_type", 329);
  ("ossl_unsupported_write_flag", 412); ("ossl_use_srtp_not_negotiated", 369); ("ossl_version_too_high", 166);
  ("ossl_version_too_low", 396); ("ossl_wrong_certificate_type", 383); ("ossl_wrong_cipher_returned", 261);
  ("ossl_wrong_curve", 378); ("ossl_wrong_rpk_type", 351); ("ossl_wrong_signature_length", 264);
  ("ossl_wrong_signature_size", 265); ("ossl_wrong_signature_type", 370); ("ossl_wrong_ssl_version", 266);
  ("ossl_wrong_version_number", 267); ("ossl_x509_lib", 268); ("ossl_x509_verification_setup_problems", 269)]%string.
Definition amongoc_tls_errc : list (string * Z) :=
  tls_errc_0 ++ tls_errc_1 ++ tls_errc_2.

(** The switch of [server_category_cls::_message_cstr]: the enumerator of each case
    and the string it returns. *)
Definition message_cases_0 : list (string * string) := [
  ("InternalError", "InternalError"); ("BadValue", "BadValue"); ("NoSuchKey", "NoSuchKey");
  ("GraphContainsCycle", "GraphContainsCycle"); ("HostUnreachable", "HostUnreachable");
  ("HostNotFound", "HostNotFound"); ("UnknownError", "UnknownError"); ("FailedToParse", "FailedToParse");
  ("CannotMutateObject", "CannotMutateObject"); ("UserNotFound", "UserNotFound");
  ("UnsupportedFormat", "UnsupportedFormat"); ("Unauthorized", "Unauthorized"); ("TypeMismatch", "TypeMismatch");
  ("Overflow", "Overflow"); ("InvalidLength", "InvalidLength"); ("ProtocolError", "ProtocolError");
  ("AuthenticationFailed", "AuthenticationFailed"); ("CannotReuseObject", "CannotReuseObject");
  ("IllegalOperation", "IllegalOperation"); ("EmptyArrayOperation", "EmptyArrayOperation");
  ("InvalidBSON", "InvalidBSON"); ("AlreadyInitialized", "AlreadyInitialized"); ("LockTimeout", "LockTimeout");
  ("RemoteValidationError", "RemoteValidationError"); ("NamespaceNotFound", "NamespaceNotFound");
  ("IndexNotFound", "IndexNotFound"); ("PathNotViable", "PathNotViable"); ("NonExistentPath", "NonExistentPath");
  ("InvalidPath", "InvalidPath"); ("RoleNotFound", "RoleNotFound"); ("RolesNotRelated", "RolesNotRelated");
  ("PrivilegeNotFound", "PrivilegeNotFound"); ("CannotBackfillArray", "CannotBackfillArray");
  ("UserModificationFailed", "UserModificationFailed"); ("RemoteChangeDetected", "RemoteChangeDetected");
  ("FileRenameFailed", "FileRenameFailed"); ("FileNotOpen", "FileNotOpen");
  ("FileStreamFailed", "FileStreamFailed"); ("ConflictingUpdateOperators", "ConflictingUpdateOperators");
  ("FileAlreadyOpen", "FileAlreadyOpen"); ("LogWriteFailed", "LogWriteFailed");
  ("CursorNotFound", "CursorNotFound"); ("UserDataInconsistent", "UserDataInconsistent"); ("LockBusy", "LockBusy");
  ("NoMatchingDocument", "NoMatchingDocument"); ("NamespaceExists", "NamespaceExists");
  ("InvalidRoleModification", "InvalidRoleModification"); ("MaxTimeMSExpired", "MaxTimeMSExpired");
  ("ManualInterventionRequired", "ManualInterventionRequired");
  ("DollarPrefixedFieldName", "DollarPrefixedFieldName"); ("InvalidIdField", "InvalidIdField");
  ("NotSingleValueField", "NotSingleValueField"); ("InvalidDBRef", "InvalidDBRef");
  ("EmptyFieldName", "EmptyFieldName"); ("DottedFieldName", "DottedFieldName");
  ("RoleModificationFailed", "RoleModificationFailed")]%string.
Definition message_cases_1 : list (string * string) := [
  ("CommandNotFound", "CommandNotFound"); ("ShardKeyNotFound", "ShardKeyNotFound");
  ("OplogOperationUnsupported", "OplogOperationUnsupported"); ("StaleShardVersion", "StaleShardVersion");
  ("WriteConcernFailed", "WriteConcernFailed"); ("MultipleErrorsOccurred", "MultipleErrorsOccurred");
  ("ImmutableField", "ImmutableField"); ("CannotCreateIndex", "CannotCreateIndex");
  ("IndexAlreadyExists", "IndexAlreadyExists"); ("AuthSchemaIncompatible", "AuthSchemaIncompatible");
  ("ShardNotFound", "ShardNotFound"); ("ReplicaSetNotFound", "ReplicaSetNotFound");
  ("InvalidOptions", "InvalidOptions"); ("InvalidNamespace", "InvalidNamespace"); ("NodeNotFound", "NodeNotFound");
  ("WriteConcernLegacyOK", "WriteConcernLegacyOK"); ("NoReplicationEnabled", "NoReplicationEnabled");
  ("OperationIncomplete", "OperationIncomplete"); ("CommandResultSchemaViolation", "CommandResultSchemaViolation");
  ("UnknownReplWriteConcern", "UnknownReplWriteConcern"); ("RoleDataInconsistent", "RoleDataInconsistent");
  ("NoMatchParseContext", "NoMatchParseContext"); ("NoProgressMade", "NoProgressMade");
  ("RemoteResultsUnavailable", "RemoteResultsUnavailable"); ("IndexOptionsConflict", "IndexOptionsConflict");
  ("IndexKeySpecsConflict", "IndexKeySpecsConflict"); ("CannotSplit", "CannotSplit");
  ("NetworkTimeout", "NetworkTimeout"); ("CallbackCanceled", "CallbackCanceled");
  ("ShutdownInProgress", "ShutdownInProgress"); ("SecondaryAheadOfPrimary", "SecondaryAheadOfPrimary");
  ("InvalidReplicaSetConfig", "InvalidReplicaSetConfig"); ("NotYetInitialized", "NotYetInitialized");
  ("NotSecondary", "NotSecondary"); ("OperationFailed", "OperationFailed");
  ("NoProjectionFound", "NoProjectionFound"); ("DBPathInUse", "DBPathInUse");
  ("UnsatisfiableWriteConcern", "UnsatisfiableWriteConcern"); ("OutdatedClient", "OutdatedClient");
  ("IncompatibleAuditMetadata", "IncompatibleAuditMetadata");
  ("NewReplicaSetConfigurationIncompatible", "NewReplicaSetConfigurationIncompatible");
  ("NodeNotElectable", "NodeNotElectable"); ("IncompatibleShardingMetadata", "IncompatibleShardingMetadata");
  ("DistributedClockSkewed", "DistributedClockSkewed"); ("LockFailed", "LockFailed");
  ("InconsistentReplicaSetNames", "InconsistentReplicaSetNames");
  ("ConfigurationInProgress", "ConfigurationInProgress");
  ("CannotInitializeNodeWithData", "CannotInitializeNodeWithData"); ("NotExactValueField", "NotExactValueField");
  ("WriteConflict", "WriteConflict"); ("InitialSyncFailure", "InitialSyncFailure");
  ("InitialSyncOplogSourceMissing", "InitialSyncOplogSourceMissing");
  ("CommandNotSupported", "CommandNotSupported"); ("DocTooLargeForCapped", "DocTooLargeForCapped");
  ("ConflictingOperationInProgress", "ConflictingOperationInProgress");
  ("NamespaceNotSharded", "NamespaceNotSharded")]%string.
Definition message_cases_2 : list (string * string) := [
  ("InvalidSyncSource", "InvalidSyncSource"); ("OplogStartMissing", "OplogStartMissing");
  ("DocumentValidationFailure", "DocumentValidationFailure"); ("NotAReplicaSet", "NotAReplicaSet");
  ("IncompatibleElectionProtocol", "IncompatibleElectionProtocol"); ("CommandFailed", "CommandFailed");
  ("RPCProtocolNegotiationFailed", "RPCProtocolNegotiationFailed");
  ("UnrecoverableRollbackError", "UnrecoverableRollbackError"); ("LockNotFound", "LockNotFound");
  ("LockStateChangeFailed", "LockStateChangeFailed"); ("SymbolNotFound", "SymbolNotFound");
  ("FailedToSatisfyReadPreference", "FailedToSatisfyReadPreference");
  ("ReadConcernMajorityNotAvailableYet", "ReadConcernMajorityNotAvailableYet"); ("StaleTerm", "StaleTerm");
  ("CappedPositionLost", "CappedPositionLost");
  ("IncompatibleShardingConfigVersion", "IncompatibleShardingConfigVersion");
  ("RemoteOplogStale", "RemoteOplogStale"); ("JSInterpreterFailure", "JSInterpreterFailure");
  ("InvalidSSLConfiguration", "InvalidSSLConfiguration"); ("SSLHandshakeFailed", "SSLHandshakeFailed");
  ("JSUncatchableError", "JSUncatchableError"); ("CursorInUse", "CursorInUse");
  ("IncompatibleCatalogManager", "IncompatibleCatalogManager");
  ("PooledConnectionsDropped", "PooledConnectionsDropped"); ("ExceededMemoryLimit", "ExceededMemoryLimit");
  ("ZLibError", "ZLibError"); ("ReadConcernMajorityNotEnabled", "ReadConcernMajorityNotEnabled");
  ("NoConfigPrimary", "NoConfigPrimary"); ("StaleEpoch", "StaleEpoch");
  ("OperationCannotBeBatched", "OperationCannotBeBatched"); ("OplogOutOfOrder", "OplogOutOfOrder");
  ("ChunkTooBig", "ChunkTooBig"); ("InconsistentShardIdentity", "InconsistentShardIdentity");
  ("CannotApplyOplogWhilePrimary", "CannotApplyOplogWhilePrimary");
  ("CanRepairToDowngrade", "CanRepairToDowngrade"); ("MustUpgrade", "MustUpgrade");
  ("DurationOverflow", "DurationOverflow"); ("MaxStalenessOutOfRange", "MaxStalenessOutOfRange");
  ("IncompatibleCollationVersion", "IncompatibleCollationVersion"); ("CollectionIsEmpty", "CollectionIsEmpty");
  ("ZoneStillInUse", "ZoneStillInUse"); ("InitialSyncActive", "InitialSyncActive");
  ("ViewDepthLimitExceeded", "ViewDepthLimitExceeded"); ("CommandNotSupportedOnView", "CommandNotSupportedOnView");
  ("OptionNotSupportedOnView", "OptionNotSupportedOnView"); ("InvalidPipelineOperator", "InvalidPipelineOperator");
  ("CommandOnShardedViewNotSupportedOnMongod", "CommandOnShardedViewNotSupportedOnMongod");
  ("TooManyMatchingDocuments", "TooManyMatchingDocuments");
  ("CannotIndexParallelArrays", "CannotIndexParallelArrays"); ("TransportSessionClosed", "TransportSessionClosed");
  ("TransportSessionNotFound", "TransportSessionNotFound"); ("TransportSessionUnknown", "TransportSessionUnknown");
  ("QueryPlanKilled", "QueryPlanKilled"); ("FileOpenFailed", "FileOpenFailed"); ("ZoneNotFound", "ZoneNotFound");
  ("RangeOverlapConflict", "RangeOverlapConflict")]%string.
Definition message_cases_3 : list (string * string) := [
  ("WindowsPdhError", "WindowsPdhError"); ("BadPerfCounterPath", "BadPerfCounterPath");
  ("AmbiguousIndexKeyPattern", "AmbiguousIndexKeyPattern"); ("InvalidViewDefinition", "InvalidViewDefinition");
  ("ClientMetadataMissingField", "ClientMetadataMissingField");
  ("ClientMetadataAppNameTooLarge", "ClientMetadataAppNameTooLarge");
  ("ClientMetadataDocumentTooLarge", "ClientMetadataDocumentTooLarge");
  ("ClientMetadataCannotBeMutated", "ClientMetadataCannotBeMutated");
  ("LinearizableReadConcernError", "LinearizableReadConcernError");
  ("IncompatibleServerVersion", "IncompatibleServerVersion"); ("PrimarySteppedDown", "PrimarySteppedDown");
  ("MasterSlaveConnectionFailure", "MasterSlaveConnectionFailure"); ("FailPointEnabled", "FailPointEnabled");
  ("NoShardingEnabled", "NoShardingEnabled"); ("BalancerInterrupted", "BalancerInterrupted");
  ("ViewPipelineMaxSizeExceeded", "ViewPipelineMaxSizeExceeded");
  ("InvalidIndexSpecificationOption", "InvalidIndexSpecificationOption");
  ("ReplicaSetMonitorRemoved", "ReplicaSetMonitorRemoved");
  ("ChunkRangeCleanupPending", "ChunkRangeCleanupPending"); ("CannotBuildIndexKeys", "CannotBuildIndexKeys");
  ("NetworkInterfaceExceededTimeLimit", "NetworkInterfaceExceededTimeLimit");
  ("ShardingStateNotInitialized", "ShardingStateNotInitialized"); ("TimeProofMismatch", "TimeProofMismatch");
  ("ClusterTimeFailsRateLimiter", "ClusterTimeFailsRateLimiter"); ("NoSuchSession", "NoSuchSession");
  ("InvalidUUID", "InvalidUUID"); ("TooManyLocks", "TooManyLocks"); ("StaleClusterTime", "StaleClusterTime");
  ("CannotVerifyAndSignLogicalTime", "CannotVerifyAndSignLogicalTime"); ("KeyNotFound", "KeyNotFound");
  ("IncompatibleRollbackAlgorithm", "IncompatibleRollbackAlgorithm"); ("DuplicateSession", "DuplicateSession");
  ("AuthenticationRestrictionUnmet", "AuthenticationRestrictionUnmet");
  ("DatabaseDropPending", "DatabaseDropPending"); ("ElectionInProgress", "ElectionInProgress");
  ("IncompleteTransactionHistory", "IncompleteTransactionHistory");
  ("UpdateOperationFailed", "UpdateOperationFailed"); ("FTDCPathNotSet", "FTDCPathNotSet");
  ("FTDCPathAlreadySet", "FTDCPathAlreadySet"); ("IndexModified", "IndexModified");
  ("CloseChangeStream", "CloseChangeStream"); ("IllegalOpMsgFlag", "IllegalOpMsgFlag");
  ("QueryFeatureNotAllowed", "QueryFeatureNotAllowed"); ("TransactionTooOld", "TransactionTooOld");
  ("AtomicityFailure", "AtomicityFailure");
  ("CannotImplicitlyCreateCollection", "CannotImplicitlyCreateCollection");
  ("SessionTransferIncomplete", "SessionTransferIncomplete"); ("MustDowngrade", "MustDowngrade");
  ("DNSHostNotFound", "DNSHostNotFound"); ("DNSProtocolError", "DNSProtocolError");
  ("MaxSubPipelineDepthExceeded", "MaxSubPipelineDepthExceeded");
  ("TooManyDocumentSequences", "TooManyDocumentSequences"); ("RetryChangeStream", "RetryChangeStream");
  ("InternalErrorNotSupported", "InternalErrorNotSupported");
  ("ForTestingErrorExtraInfo", "ForTestingErrorExtraInfo"); ("CursorKilled", "CursorKilled")]%string.
Definition message_cases_4 : list (string * string) := [
  ("NotImplemented", "NotImplemented"); ("SnapshotTooOld", "SnapshotTooOld");
  ("DNSRecordTypeMismatch", "DNSRecordTypeMismatch"); ("ConversionFailure", "ConversionFailure");
  ("CannotCreateCollection", "CannotCreateCollection");
  ("IncompatibleWithUpgradedServer", "IncompatibleWithUpgradedServer"); ("BrokenPromise", "BrokenPromise");
  ("SnapshotUnavailable", "SnapshotUnavailable");
  ("ProducerConsumerQueueBatchTooLarge", "ProducerConsumerQueueBatchTooLarge");
  ("ProducerConsumerQueueEndClosed", "ProducerConsumerQueueEndClosed"); ("StaleDbVersion", "StaleDbVersion");
  ("StaleChunkHistory", "StaleChunkHistory"); ("NoSuchTransaction", "NoSuchTransaction");
  ("ReentrancyNotAllowed", "ReentrancyNotAllowed"); ("FreeMonHttpInFlight", "FreeMonHttpInFlight");
  ("FreeMonHttpTemporaryFailure", "FreeMonHttpTemporaryFailure");
  ("FreeMonHttpPermanentFailure", "FreeMonHttpPermanentFailure"); ("TransactionCommitted", "TransactionCommitted");
  ("TransactionTooLarge", "TransactionTooLarge");
  ("UnknownFeatureCompatibilityVersion", "UnknownFeatureCompatibilityVersion");
  ("KeyedExecutorRetry", "KeyedExecutorRetry"); ("InvalidResumeToken", "InvalidResumeToken");
  ("TooManyLogicalSessions", "TooManyLogicalSessions"); ("ExceededTimeLimit", "ExceededTimeLimit");
  ("OperationNotSupportedInTransaction", "OperationNotSupportedInTransaction");
  ("TooManyFilesOpen", "TooManyFilesOpen"); ("OrphanedRangeCleanUpFailed", "OrphanedRangeCleanUpFailed");
  ("FailPointSetFailed", "FailPointSetFailed"); ("PreparedTransactionInProgress", "PreparedTransactionInProgress");
  ("CannotBackup", "CannotBackup"); ("DataModifiedByRepair", "DataModifiedByRepair");
  ("RepairedReplicaSetNode", "RepairedReplicaSetNode");
  ("JSInterpreterFailureWithStack", "JSInterpreterFailureWithStack"); ("MigrationConflict", "MigrationConflict");
  ("ProducerConsumerQueueProducerQueueDepthExceeded", "ProducerConsumerQueueProducerQueueDepthExceeded");
  ("ProducerConsumerQueueConsumed", "ProducerConsumerQueueConsumed");
  ("ExchangePassthrough", "ExchangePassthrough"); ("IndexBuildAborted", "IndexBuildAborted");
  ("AlarmAlreadyFulfilled", "AlarmAlreadyFulfilled"); ("UnsatisfiableCommitQuorum", "UnsatisfiableCommitQuorum");
  ("ClientDisconnect", "ClientDisconnect"); ("ChangeStreamFatalError", "ChangeStreamFatalError");
  ("TransactionCoordinatorSteppingDown", "TransactionCoordinatorSteppingDown");
  ("TransactionCoordinatorReachedAbortDecision", "TransactionCoordinatorReachedAbortDecision");
  ("WouldChangeOwningShard", "WouldChangeOwningShard");
  ("ForTestingErrorExtraInfoWithExtraInfoInNamespace", "ForTestingErrorExtraInfoWithExtraInfoInNamespace");
  ("IndexBuildAlreadyInProgress", "IndexBuildAlreadyInProgress");
  ("ChangeStreamHistoryLost", "ChangeStreamHistoryLost");
  ("TransactionCoordinatorDeadlineTaskCanceled", "TransactionCoordinatorDeadlineTaskCanceled");
  ("ChecksumMismatch", "ChecksumMismatch");
  ("WaitForMajorityServiceEarlierOpTimeAvailable", "WaitForMajorityServiceEarlierOpTimeAvailable");
  ("TransactionExceededLifetimeLimitSeconds", "TransactionExceededLifetimeLimitSeconds");
  ("NoQueryExecutionPlans", "NoQueryExecutionPlans");
  ("QueryExceededMemoryLimitNoDiskUseAllowed", "QueryExceededMemoryLimitNoDiskUseAllowed");
  ("InvalidSeedList", "InvalidSeedList"); ("InvalidTopologyType", "InvalidTopologyType")]%string.
Definition message_cases_5 : list (string * string) := [
  ("InvalidHeartBeatFrequency", "InvalidHeartBeatFrequency");
  ("TopologySetNameRequired", "TopologySetNameRequired");
  ("HierarchicalAcquisitionLevelViolation", "HierarchicalAcquisitionLevelViolation");
  ("InvalidServerType", "InvalidServerType"); ("OCSPCertificateStatusRevoked", "OCSPCertificateStatusRevoked");
  ("RangeDeletionAbandonedBecauseCollectionWithUUIDDoesNotExist", "RangeDeletionAbandonedBecauseCollectionWithUUIDDoesNotExist");
  ("DataCorruptionDetected", "DataCorruptionDetected");
  ("OCSPCertificateStatusUnknown", "OCSPCertificateStatusUnknown"); ("SplitHorizonChange", "SplitHorizonChange");
  ("ShardInvalidatedForTargeting", "ShardInvalidatedForTargeting");
  ("RangeDeletionAbandonedBecauseTaskDocumentDoesNotExist", "RangeDeletionAbandonedBecauseTaskDocumentDoesNotExist");
  ("CurrentConfigNotCommittedYet", "CurrentConfigNotCommittedYet");
  ("ExhaustCommandFinished", "ExhaustCommandFinished"); ("PeriodicJobIsStopped", "PeriodicJobIsStopped");
  ("TransactionCoordinatorCanceled", "TransactionCoordinatorCanceled");
  ("OperationIsKilledAndDelisted", "OperationIsKilledAndDelisted");
  ("ResumableRangeDeleterDisabled", "ResumableRangeDeleterDisabled"); ("ObjectIsBusy", "ObjectIsBusy");
  ("TooStaleToSyncFromSource", "TooStaleToSyncFromSource"); ("QueryTrialRunCompleted", "QueryTrialRunCompleted");
  ("ConnectionPoolExpired", "ConnectionPoolExpired");
  ("ForTestingOptionalErrorExtraInfo", "ForTestingOptionalErrorExtraInfo");
  ("MovePrimaryInProgress", "MovePrimaryInProgress"); ("TenantMigrationConflict", "TenantMigrationConflict");
  ("TenantMigrationCommitted", "TenantMigrationCommitted"); ("APIVersionError", "APIVersionError");
  ("APIStrictError", "APIStrictError"); ("APIDeprecationError", "APIDeprecationError");
  ("TenantMigrationAborted", "TenantMigrationAborted"); ("OplogQueryMinTsMissing", "OplogQueryMinTsMissing");
  ("NoSuchTenantMigration", "NoSuchTenantMigration");
  ("TenantMigrationAccessBlockerShuttingDown", "TenantMigrationAccessBlockerShuttingDown");
  ("TenantMigrationInProgress", "TenantMigrationInProgress"); ("SkipCommandExecution", "SkipCommandExecution");
  ("FailedToRunWithReplyBuilder", "FailedToRunWithReplyBuilder"); ("CannotDowngrade", "CannotDowngrade");
  ("ServiceExecutorInShutdown", "ServiceExecutorInShutdown"); ("MechanismUnavailable", "MechanismUnavailable");
  ("TenantMigrationForgotten", "TenantMigrationForgotten"); ("SocketException", "SocketException");
  ("CannotGrowDocumentInCappedNamespace", "CannotGrowDocumentInCappedNamespace");
  ("NotWritablePrimary", "NotWritablePrimary"); ("BSONObjectTooLarge", "BSONObjectTooLarge");
  ("DuplicateKey", "DuplicateKey"); ("InterruptedAtShutdown", "InterruptedAtShutdown");
  ("Interrupted", "Interrupted"); ("InterruptedDueToReplStateChange", "InterruptedDueToReplStateChange");
  ("BackgroundOperationInProgressForDatabase", "BackgroundOperationInProgressForDatabase");
  ("BackgroundOperationInProgressForNamespace", "BackgroundOperationInProgressForNamespace");
  ("MergeStageNoMatchingDocument", "MergeStageNoMatchingDocument"); ("DatabaseDifferCase", "DatabaseDifferCase");
  ("StaleConfig", "StaleConfig"); ("NotPrimaryNoSecondaryOk", "NotPrimaryNoSecondaryOk");
  ("NotPrimaryOrSecondary", "NotPrimaryOrSecondary"); ("OutOfDiskSpace", "OutOfDiskSpace");
  ("ClientMarkedKilled", "ClientMarkedKilled")]%string.
Definition message_cases : list (string * string) :=
  message_cases_0 ++ message_cases_1 ++ message_cases_2 ++ message_cases_3 ++ message_cases_4 ++ message_cases_5.

(** The value of an enumerator. *)
Definition enumerator (n : string) : option Z :=
  snd <$> List.find (fun kv => String.eqb (fst kv) n) amongoc_server_errc.

(** [server_category_cls::_message_cstr]: [None] is the null pointer. *)
Definition _message_cstr (ec : Z) : option string :=
  match List.find (fun kv => bool_decide (enumerator (fst kv) = Some ec)) message_cases with
  | Some (_, str) => Some str
  | None => if ec =? 40571 then Some "OP_MSG requests require a $db argument"%string else None
  end.

(** ** Categories *)

(** The known categories ([AMONGOC_STATUS_CATEGORY_X_LIST]). *)
Inductive known : Type := generic | system | netdb | addrinfo | io | server | client | tls | unknown.
#[export] Instance known_eq_dec : EqDecision known.
Proof. solve_decision. Defined.

Definition X_list : list known := [generic; system; netdb; addrinfo; io; server; client; tls; unknown].

(** The category of a status: a pointer to a table, which may be of the known
    categories, of the CRUD operations, or of the user. *)
Inductive category : Type := known_category (k : known) | crud_category | user_category (id : Z).
#[export] Instance category_eq_dec : EqDecision category.
Proof. solve_decision. Defined.

Record amongoc_status : Type := mk_status { st_category : category; st_code : Z }.

(** [amongoc_status::operator==]. *)
#[export] Instance status_eq_dec : EqDecision amongoc_status.
Proof. solve_decision. Defined.

(** A buffer for a message: the null pointer, or an array of a length. *)
Abbreviation buffer := (option Z).

Record amongoc_status_category_vtable : Type := mk_vtable {
  name : text;
  message : Z -> buffer -> outcome (option text);
  is_error : option (Z -> bool);
  is_cancellation : option (Z -> bool);
  is_timeout : option (Z -> bool) }.

(** A C++ error category: the counterpart of a known one, that of Asio's
    miscellaneous errors, or another. *)
Inductive cxx_category : Type := cxx_known (k : known) | cxx_asio_misc | cxx_other (id : Z).
Record error_code : Type := mk_error_code { ec_category : cxx_category; ec_value : Z }.

(** What the platform, Asio and OpenSSL define. *)
Record externals : Type := mk_externals {
  EISCONN : Z; ENOENT : Z; EINVAL : Z; ETIMEDOUT : Z; ECANCELED : Z; ENOMEM : Z; EPROTO : Z;
  already_open : Z; eof : Z; not_found : Z; fd_set_failure : Z;
  strerror : Z -> text;
  netdb_message : Z -> text;
  addrinfo_message : Z -> text;
  ERR_error_string : Z -> option text;
  ERR_GET_REASON : Z -> Z;
  cxx_name : known -> text;
  user_vtable : Z -> amongoc_status_category_vtable }.

(** [snprintf] of the text, then the buffer: the text that is cut to the length, or
    the null pointer; an array of length 0 holds no string. *)
Definition snprintf (buf : buffer) (t : text) : outcome (option text) :=
  match buf with
  | None => Done None
  | Some n => if n =? 0 then Undef else Done (Some (take (Z.to_nat (n - 1)) t))
  end.

(** The conversion [%d]. *)
Definition percent_d (z : Z) : text := lit (NilEmpty.string_of_int (Z.to_int z)).

Section Status.
Context (X : externals).

(** ** Messages *)

Definition io_message (ec : Z) (buf : buffer) : outcome (option text) :=
  if ec =? 1 then Done (Some (lit "connection closed"))
  else if ec =? 2 then Done (Some (lit "short read"))
  else snprintf buf (lit "amongoc.io:" ++ percent_d ec).

Definition server_message (ec : Z) (buf : buffer) : outcome (option text) :=
  match _message_cstr ec with
  | Some str => Done (Some (lit str))
  | None => snprintf buf (lit "amongoc.server:" ++ percent_d ec)
  end.

Definition client_message (ec : Z) (buf : buffer) : outcome (option text) :=
  if ec =? 0 then Done (Some (lit "no error"))
  else if ec =? 1 then Done (Some (lit "invalid document for an ‘update’ operation"))
  else snprintf buf (lit "amongoc.client:" ++ percent_d ec).

Definition tls_message (ec : Z) (buf : buffer) : outcome (option text) :=
  match ERR_error_string X (u64 ec) with
  | Some msg => Done (Some msg)
  | None => snprintf buf (lit "amongoc.tls:" ++ percent_d ec)
  end.

Definition unknown_message (ec : Z) : text := lit "amongoc.unknown:" ++ percent_d ec.

Definition crud_message (c : Z) (buf : buffer) : outcome (option text) :=
  if c =? 0 then Done (Some (lit "okay"))
  else if c =? 1 then Done (Some (lit "The operation resulted in one or more write errors"))
  else snprintf buf (lit "amongoc.crud:" ++ percent_d c).

(** ** The tables *)

(** [from_cxx_category]: the attributes that a category does not define are null;
    [get_msg] of a category without [message_noalloc] prints its message. *)
Definition known_vtable (k : known) : amongoc_status_category_vtable :=
  match k with
  | generic | system =>
      mk_vtable (cxx_name X k) (fun c _ => Done (Some (strerror X c))) None
        (Some (fun e => e =? ECANCELED X)) (Some (fun e => e =? ETIMEDOUT X))
  | netdb => mk_vtable (cxx_name X k) (fun c buf => snprintf buf (netdb_message X c)) None None None
  | addrinfo => mk_vtable (cxx_name X k) (fun c buf => snprintf buf (addrinfo_message X c)) None None None
  | io => mk_vtable (lit "amongoc.io") io_message None None None
  | server => mk_vtable (lit "amongoc.server") server_message None None None
  | client => mk_vtable (lit "amongoc.client") client_message None None None
  | tls => mk_vtable (lit "amongoc.tls") tls_message None None None
  | unknown => mk_vtable (lit "amongoc.unknown") (fun c buf => snprintf buf (unknown_message c)) None None None
  end.

Definition vtable (c : category) : amongoc_status_category_vtable :=
  match c with
  | known_category k => known_vtable k
  | crud_category => mk_vtable (lit "amongoc.crud") crud_message None None None
  | user_category id => user_vtable X id
  end.

Definition amongoc_is_error (st : amongoc_status) : bool :=
  match is_error (vtable (st_category st)) with
  | Some f => f (st_code st)
  | None => negb (st_code st =? 0)
  end.

Definition amongoc_is_cancellation (st : amongoc_status) : bool :=
  match is_cancellation (vtable (st_category st)) with Some f => f (st_code st) | None => false end.

Definition amongoc_is_timeout (st : amongoc_status) : bool :=
  match is_timeout (vtable (st_category st)) with Some f => f (st_code st) | None => false end.

Definition amongoc_message (st : amongoc_status) (buf : buffer) : outcome text :=
  let* s := message (vtable (st_category st)) (st_code st) buf in
  Done (match s with Some s => s | None => lit "Message text unavailable" end).

(** [status::message]: a buffer of 128 characters. *)
Definition status_message (st : amongoc_status) : outcome text := amongoc_message st (Some 128).

(** The reason is converted to the enumeration as it is. *)
Definition amongoc_status_tls_reason (st : amongoc_status) : Z :=
  if decide (st_category st = known_category tls) then ERR_GET_REASON X (u64 (st_code st)) else 0.

Definition amongoc_okay : amongoc_status := mk_status (known_category generic) 0.

(** ** Conversions *)

Definition from_misc (value : Z) : option amongoc_status :=
  if value =? already_open X then Some (mk_status (known_category generic) (EISCONN X))
  else if value =? eof X then Some (mk_status (known_category io) 1)
  else if value =? not_found X then Some (mk_status (known_category generic) (ENOENT X))
  else if value =? fd_set_failure X then Some (mk_status (known_category generic) (EINVAL X))
  else None.

(** [status::from]. *)
Definition from (ec : error_code) : amongoc_status :=
  match ec_category ec with
  | cxx_asio_misc =>
      match from_misc (ec_value ec) with
      | Some st => st
      | None => mk_status (known_category unknown) (ec_value ec)
      end
  | cxx_known k =>
      if bool_decide (k ∈ X_list) then mk_status (known_category k) (ec_value ec)
      else mk_status (known_category unknown) (ec_value ec)
  | cxx_other _ => mk_status (known_category unknown) (ec_value ec)
  end.

(** [status::as_error_code]. *)
Definition as_error_code (st : amongoc_status) : error_code :=
  match st_category st with
  | known_category k => if bool_decide (k ∈ X_list) then mk_error_code (cxx_known k) (st_code st)
                        else mk_error_code (cxx_known unknown) (st_code st)
  | _ => mk_error_code (cxx_known unknown) (st_code st)
  end.

(** ** Exceptions *)

(** [amongoc_status::throw_for_error]: the status that is thrown, if any. *)
Definition throw_for_error (st : amongoc_status) : option amongoc_status :=
  if amongoc_is_error st then Some st else None.
End Status.

(** ** The two tables of server errors agree *)

(** The name of the enumerator with the value. *)
Definition enumerator_of (ec : Z) : option string :=
  fst <$> List.find (fun kv => snd kv =? ec) amongoc_server_errc.

Lemma cases_are_enumerators : message_cases = map (fun kv => (fst kv, fst kv)) amongoc_server_errc.
Proof. reflexivity. Qed.

Lemma enumerators_distinct : Forall (fun kv => enumerator (fst kv) = Some (snd kv)) amongoc_server_errc.
Proof. apply (bool_decide_unpack _). vm_compute. exact Logic.I. Qed.

Lemma find_map_ext {A B} (f : A -> B) (p : B -> bool) (q : A -> bool) l : Forall (fun x => p (f x) = q x) l ->
  List.find p (map f l) = f <$> List.find q l.
Proof. induction 1 as [|x l Hx _ IH]; [done|]. simpl. rewrite Hx. by destruct (q x). Qed.

Lemma message_cstr_name ec :
  _message_cstr ec =
    match enumerator_of ec with
    | Some n => Some n
    | None => if ec =? 40571 then Some "OP_MSG requests require a $db argument"%string else None
    end.
Proof.
  unfold _message_cstr, enumerator_of. rewrite cases_are_enumerators, (find_map_ext _ _ (fun kv => snd kv =? ec)).
  - by destruct (List.find _ _) as [[n c]|].
  - eapply Forall_impl; [exact enumerators_distinct|]. intros [n c] E. simpl in *. rewrite E.
    destruct (Z.eqb_spec c ec) as [->|Hn]; [by apply bool_decide_eq_true_2|].
    apply bool_decide_eq_false_2. congruence.
Qed.

(** The message of a server error is the name of the enumerator with its code;
    but for one code that has a message and no enumerator, any other is printed as
    the code after the name of the category, cut to the buffer; no two enumerators
    of the server, and none of TLS, have the same code, and no server error has that
    of success. *)
Theorem server_messages X :
  (forall ec buf, message (vtable X (known_category server)) ec buf =
     match enumerator_of ec with
     | Some n => Done (Some (lit n))
     | None => if ec =? 40571 then Done (Some (lit "OP_MSG requests require a $db argument"))
               else snprintf buf (lit "amongoc.server:" ++ percent_d ec)
     end) /\
  enumerator_of 40571 = None /\
  NoDup (map snd amongoc_server_errc) /\ Forall (fun c => c <> 0) (map snd amongoc_server_errc) /\
  NoDup (map snd amongoc_tls_errc).
Proof.
  split; [|split_and!; apply (bool_decide_unpack _); vm_compute; exact Logic.I].
  intros ec buf. simpl. unfold server_message. rewrite message_cstr_name.
  destruct (enumerator_of ec); [done|]. by destruct (ec =? 40571).
Qed.

(** ** Conversions *)

(** A status of a known category survives the conversion to an error code and
    back, and any other becomes an unknown one with its code; an error code of a
    known category survives the conversion to a status and back, and any other
    but the errors of Asio that are translated becomes an unknown one. *)
Theorem status_roundtrip X :
  (forall st, from X (as_error_code st) =
     match st_category st with
     | known_category _ => st
     | _ => mk_status (known_category unknown) (st_code st)
     end) /\
  (forall ec, as_error_code (from X ec) =
     match ec_category ec with
     | cxx_known _ => ec
     | cxx_asio_misc =>
         match from_misc X (ec_value ec) with
         | Some st => mk_error_code (cxx_known (if decide (st_category st = known_category io) then io else generic)) (st_code st)
         | None => mk_error_code (cxx_known unknown) (ec_value ec)
         end
     | cxx_other _ => mk_error_code (cxx_known unknown) (ec_value ec)
     end).
Proof.
  split.
  - intros [[k| |id] c]; [by destruct k | done..].
  - intros [[k| |id] c]; [by destruct k | | done]. unfold as_error_code, from, from_misc. simpl.
    by repeat (destruct (_ =? _); [done|]).
Qed.

(** The constants of the platform that stand for errors. *)
Definition errors_nonzero (X : externals) : Prop :=
  EISCONN X <> 0 /\ ENOENT X <> 0 /\ EINVAL X <> 0 /\
  already_open X <> 0 /\ eof X <> 0 /\ not_found X <> 0 /\ fd_set_failure X <> 0.

Lemma from_is_error X ec : errors_nonzero X -> amongoc_is_error X (from X ec) = negb (ec_value ec =? 0).
Proof.
  intros (H1 & H2 & H3 & H4 & H5 & H6 & H7).
  assert (forall k c, amongoc_is_error X (mk_status (known_category k) c) = negb (c =? 0)) as Hk by by intros [].
  destruct ec as [[k| |id] c]; [destruct k; apply Hk | | apply Hk]. unfold from, from_misc. simpl.
  repeat case_match; simplify_eq; rewrite ?Hk;
    repeat match goal with H : (_ =? _) = true |- _ => apply Z.eqb_eq in H; subst end;
    rewrite ?(proj2 (Z.eqb_neq _ _)) by done; done.
Qed.

(** The conversion of an error code keeps whether it is an error; the result is
    cancelled or timed out exactly when it is the generic or the system code for
    that; and its message can be printed to a buffer of [amongoc_declmsg]. *)
Theorem from_keeps_errors X ec : errors_nonzero X ->
  let st := from X ec in
  amongoc_is_error X st = negb (ec_value ec =? 0) /\
  (amongoc_is_timeout X st = true <->
     st_category st ∈ [known_category generic; known_category system] /\ st_code st = ETIMEDOUT X) /\
  (amongoc_is_cancellation X st = true <->
     st_category st ∈ [known_category generic; known_category system] /\ st_code st = ECANCELED X) /\
  exists t, amongoc_message X st (Some 128) = Done t.
Proof.
  intros HX st. split; [by apply from_is_error|].
  assert (exists k, st_category st = known_category k) as [k Ek].
  { subst st. destruct ec as [[k| |id] c]; [destruct k; by eexists | | by eexists].
    unfold from, from_misc. simpl. repeat (destruct (_ =? _); [by eexists|]). by eexists. }
  unfold amongoc_is_timeout, amongoc_is_cancellation, amongoc_message. rewrite Ek. split_and!.
  - destruct k; simpl; rewrite ?Z.eqb_eq; set_solver.
  - destruct k; simpl; rewrite ?Z.eqb_eq; set_solver.
  - destruct k; simpl; unfold io_message, server_message, client_message, tls_message; repeat case_match; by eexists.
Qed.

(** Linux, with OpenSSL and the library's own messages left out. *)
Definition linux_externals : externals :=
  mk_externals 106 2 22 110 125 12 71 1 2 3 4 (fun _ => []) (fun _ => []) (fun _ => []) (fun _ => None) (fun _ => 0) (fun _ => [])
    (fun _ => mk_vtable [] (fun _ _ => Done None) None None None).

(** Witness of [from_keeps_errors]: the end of a stream is an error of the category
    [io]. *)
Lemma from_keeps_errors_witness :
  amongoc_is_error linux_externals (from linux_externals (mk_error_code cxx_asio_misc 2)) = true /\
  from linux_externals (mk_error_code cxx_asio_misc 2) = mk_status (known_category io) 1.
Proof.
  split; [|done].
  destruct (from_keeps_errors linux_externals (mk_error_code cxx_asio_misc 2)) as [E _].
  - repeat split; discriminate.
  - exact E.
Defined.
