(* ===== verification/Reply.v ===== *)
(** * Taking replies apart ([include/bson/parse.hpp], as the driver uses it)

    The rules of [Parse.v] applied to the bytes of a view, when the store is a C++
    object of type [R] and an exception may leave a rule; and what a [doc] rule
    whose parts do not get in each other's way gives.  Memory for the strings that
    are copied is available. *)
From Stdlib Require Import ZArith Lia.
From Stdlib Require Import Strings.Byte Strings.String.
From stdpp Require Import base numbers list sets.
From S2P Require Import Prelude.
From S2P Require Import Types.
From S2P Require Import Value.
From S2P Require Import Iterator.
From S2P Require Import IteratorSafe.
From S2P Require Import Codec.
From S2P Require Import Parse.
Open Scope Z_scope.

(** ** Objects under construction *)

(** What a parse throws: [must_parse], or the dereference of an iterator. *)
Inductive parse_exn : Type := parse_error (what : text) | iterator_error (errc : Z).

(** The object, unless something was thrown. *)
Definition stored (R : Type) : Type := outcome (parse_exn + R).

Definition on {R} (f : R -> stored R) (s : stored R) : stored R :=
  let* r := s in match r with inl e => Done (inl e) | inr h => f h end.
Definition modify {R} (f : R -> R) : stored R -> stored R := on (fun h => Done (inr (f h))).

(** [try_as]. *)
Definition as_bool (v : bson_value_ref) : option bool := match v with v_bool b => Some b | _ => None end.
Definition as_utf8 (v : bson_value_ref) : option text := match v with v_utf8 s => Some s | _ => None end.
Definition as_int32 (v : bson_value_ref) : option Z := match v with v_int32 z => Some z | _ => None end.
Definition as_int64 (v : bson_value_ref) : option Z := match v with v_int64 z => Some z | _ => None end.
Definition as_null (v : bson_value_ref) : option unit := match v with v_null => Some tt | _ => None end.
Definition as_array (v : bson_value_ref) : option (option (list byte)) :=
  match v with v_array d => Some d | _ => None end.
Definition as_view (v : bson_value_ref) : option (option (list byte)) :=
  match v with v_document d | v_array d => Some d | _ => None end.
(** The number of an [integer] rule. *)
Definition int_of (v : bson_value_ref) : option Z := match v with v_int32 z | v_int64 z => Some z | _ => None end.
Definition as_value (v : bson_value_ref) : option bson_value_ref := Some v.

(** ** Rules over the bytes of a view *)

Section Bytes.
Context {R : Type}.

(** An exception or another end of the process leaves the rule. *)
Definition leave (x : stored R) (s : stored R) : stored R * result := (on (fun _ => x) s, basic_result accept None).

(** A loop over the elements of a view that is left with a result: what the
    iterator gives, one element at a time; an errant iterator throws. *)
Definition for_elements {S} (body : S -> element -> S + (stored R * result)) (finish : S -> stored R * result)
  (store_of : S -> stored R) (d : option (list byte)) (s : S) : stored R * result :=
  match d with
  | None => leave Undef (store_of s)
  | Some d =>
      let m := mk_block 16 d in
      let loop :=
        let* b := _bson_begin m 16 in
        let* e := _bson_end m 16 in
        foreach_subrange m (loop_fuel (zlen d)) b e
          (fun s it =>
             let ec := bson_iterator_get_error it in
             if negb (ec =? bson_iter_errc_okay)
             then Done (inr (leave (Done (inl (iterator_error ec))) (store_of s)))
             else
               let* k := bson_key m it in
               let* v := bson_iterator_value m it in
               Done (body s (k, v))) s in
      match loop with
      | Done (Some (inl s)) => finish s
      | Done (Some (inr x)) => x
      | Done None | Abort => leave Abort (store_of s)
      | Undef => leave Undef (store_of s)
      end
  end.

(** [each] over a view. *)
Definition each_in (r : rule (stored R) element) : rule (stored R) (option (list byte)) :=
  for_elements
    (fun s el =>
       let (s, res) := r el s in
       if negb (did_accept res) then
         inr (s, mk_result (state res) (lit "field ‘" ++ fst el ++ lit "’ was rejected: " ++ format_to res))
       else inl s)
    (fun s => (s, basic_result accept None)) id.

(** [doc] applied to a view. *)
Definition doc_in (parts : list (part (stored R))) : rule (stored R) (option (list byte)) := fun d s =>
  for_elements
    (fun '(s, ps) el =>
       if forallb (fun p => done_looking (fst p) (snd p)) ps then inr (s, final_result ps)
       else
         let '(s, ps, merged) := offer ps el s in
         if decide (merged = error) then inr (s, final_result ps) else inl (s, ps))
    (fun '(s, ps) => (s, final_result ps)) fst d (s, map (fun p => (p, part_init)) parts).

(** [doc] applied to an element. *)
Definition doc_of (parts : list (part (stored R))) : rule (stored R) element := fun ref s =>
  match get_document_or_array (snd ref) with
  | None => (s, mk_result reject (lit "the given value is not a document element"))
  | Some d => doc_in parts (Some d) s
  end.

(** [each] applied to an element. *)
Definition each_of (r : rule (stored R) element) : rule (stored R) element := type_rule as_array (each_in r).

(** [must_parse] of a view into an object. *)
Definition parse_view (parts : list (part (stored R))) (d : list byte) (init : R) : outcome (parse_exn + R) :=
  let (s, res) := doc_in parts (Some d) (Done (inr init)) in
  let* r := s in
  match r with
  | inl e => Done (inl e)
  | inr x => Done (if decide (state res <> accept) then inl (parse_error (describe_error res)) else inr x)
  end.
End Bytes.

(** [require(key, rule)] and [field(key, rule)] as parts of [doc]. *)
Definition required {S} (key : string) (r : rule S element) : part S :=
  part_must (field (lit key) r) (lit "element ‘" ++ lit key ++ lit "’ not found").
Definition optional {S} (key : string) (r : rule S element) : part S := part_rule (field (lit key) r).

(** ** Views of encoded elements *)

Lemma length_elements es : (length es < loop_fuel (zlen (encode_doc es)))%nat.
Proof.
  unfold loop_fuel. rewrite zlen_encode_doc. unfold doc_size.
  assert (Z.of_nat (length es) <= zlen (encode_body es)); [|lia].
  induction es as [|[k v] es IH]; [done|]. rewrite encode_body_cons, zlen_app, zlen_encode_elem. simpl length.
  pose proof (zlen_nonneg k). pose proof (zlen_nonneg (encode_value v)). lia.
Qed.

Lemma bytes_at_whole d : bytes_at (mk_block 16 d) 16 d.
Proof. exists [], []. by rewrite app_nil_r. Qed.

(** The elements can be held by an array. *)
Definition holdable (es : list element) : Prop :=
  Forall elem_wf es /\ Forall (fun kv => Codec.readable (snd kv)) es /\ doc_size es <= INT32_MAX.

(** Concrete elements are held. *)
Ltac solve_holdable :=
  split_and!; [| |by vm_compute];
    repeat (apply Forall_cons; split); try apply Forall_nil; try exact Logic.I;
    repeat first [split | by (apply (bool_decide_unpack _); vm_compute) | by apply encode_doc_is_doc | done | by vm_compute].

Section Encoded.
Context {R : Type}.

Lemma for_encoded {S} (body : S -> element -> S + (stored R * result)) finish store_of es : holdable es ->
  forall s, for_elements body finish store_of (Some (encode_doc es)) s =
    match fold_until (fun _ kv _ s => body s kv) [] es s with inl s => finish s | inr x => x end.
Proof.
  intros (Hwf & Hr & Hmax) s. unfold for_elements. pose proof (bytes_at_whole (encode_doc es)) as Hat.
  rewrite (begin_encode _ 16 es), (end_encode _ 16 es) by done. ostep.
  rewrite (foreach_encode _ 16 es Hat Hwf Hmax _ (fun _ kv _ s => body s kv)); [done | | done | apply length_elements].
  intros pre [k w] rest s' E.
  destruct (element_access (mk_block 16 (encode_doc es)) 16 es eq_refl Hat Hwf Hmax pre k w rest E) as (Hk & _ & Hv & He).
  cbv beta zeta. rewrite He. change (negb (0 =? bson_iter_errc_okay)) with false. cbv iota. rewrite Hk. ostep.
  rewrite Hv; [done|]. rewrite E, Forall_app, Forall_cons in Hr. tauto.
Qed.

(** On the bytes of encoded elements, [each] over the iterator is [each] over the
    elements. *)
Lemma each_in_encoded (r : rule (stored R) element) es s : holdable es ->
  each_in r (Some (encode_doc es)) s = each r es s.
Proof.
  intros Hh. unfold each_in. rewrite for_encoded by done. generalize (@nil element). clear. revert s.
  induction es as [|el es IH]; intros s pre; [done|]. simpl.
  destruct (r el s) as [s1 res]. destruct (negb (did_accept res)); [done|]. apply IH.
Qed.

(** And [doc] over the iterator is [doc] over the elements. *)
Lemma doc_in_encoded (parts : list (part (stored R))) es s : holdable es ->
  doc_in parts (Some (encode_doc es)) s = doc parts es s.
Proof.
  intros Hh. unfold doc_in. rewrite for_encoded by done. unfold doc.
  generalize (map (fun p => (p, part_init)) parts). generalize (@nil element). clear. revert s.
  induction es as [|el es IH]; intros s pre ps; [done|]. simpl. destruct (forallb _ ps); [done|].
  destruct (offer ps el s) as [[s1 ps1] m]. destruct (decide (m = error)); [done|]. apply IH.
Qed.
End Encoded.
