(* ===== verification/ReplySpec.v ===== *)
(** * What a [doc] rule gives when its parts do not get in each other's way

    A rule acts on an object when its state does not depend on the object.  For
    parts of a [doc] rule that look at different elements and store in different
    places, the state of the document and the stores are those of the first
    element that each part takes; and what the combinators do to rules that act. *)
From Stdlib Require Import ZArith Lia.
From Stdlib Require Import Strings.Byte Strings.String.
From stdpp Require Import base numbers list sets.
From S2P Require Import Prelude.
From S2P Require Import Types.
From S2P Require Import Value.
From S2P Require Import Iterator.
From S2P Require Import IteratorSafe.
From S2P Require Import Codec.
From S2P Require Import Parse.
From S2P Require Import Reply.
Open Scope Z_scope.

Section Acts.
Context {R : Type}.

(** On the value [v] the rule has the state [st], and updates the object with [f]
    unless it errs. *)
Definition acts {T} (r : rule (stored R) T) (v : T) (st : pstate) (f : R -> R) : Prop :=
  exists t, forall x, exists x', r v (Done (inr x)) = (Done (inr x'), mk_result st t) /\ (st <> error -> x' = f x).

Lemma acts_intro {T} (r : rule (stored R) T) v st f t :
  (forall x, r v (Done (inr x)) = (Done (inr (f x)), mk_result st t)) -> acts r v st f.
Proof. intros Hr. exists t. intros x. by exists (f x). Qed.

(** ** Parts of a document *)

Record sem : Type := mk_sem {
  s_part : part (stored R);
  s_state : element -> pstate;
  s_eff : element -> R -> R }.

Definition described (el : element) (d : sem) : Prop :=
  match s_part d with
  | part_rule r | part_must r _ =>
      acts r el (s_state d el) (s_eff d el) /\ (s_state d el = reject -> forall x, s_eff d el x = x)
  | part_reject_others => False
  end.

Definition is_must (p : part (stored R)) : bool := match p with part_must _ _ => true | _ => false end.

(** The first element that the part does not reject. *)
Definition taken (d : sem) (es : list element) : option element :=
  List.find (fun el => negb (bool_decide (s_state d el = reject))) es.
Definition is_open (d : sem) (es : list element) : bool := negb (bool_decide (is_Some (taken d es))).
Definition errs (es : list element) (d : sem) : bool :=
  match taken d es with Some el => bool_decide (s_state d el = error) | None => false end.
Definition lacks (es : list element) (d : sem) : bool := is_must (s_part d) && is_open d es.
Definition value_in (es : list element) (x : R) (d : sem) : R :=
  match taken d es with Some el => s_eff d el x | None => x end.

Definition doc_state (ds : list sem) (es : list element) : pstate :=
  if existsb (errs es) ds then error else if existsb (lacks es) ds then reject else accept.
Definition doc_value (ds : list sem) (es : list element) (x : R) : R := fold_left (value_in es) ds x.

(** The parts look at different elements and store in different places. *)
Definition compatible (es : list element) (d1 d2 : sem) : Prop :=
  (forall el, el ∈ es -> s_state d1 el = reject \/ s_state d2 el = reject) /\
  (forall el el' x, el ∈ es -> el' ∈ es -> s_state d1 el <> reject -> s_state d2 el' <> reject ->
     s_eff d1 el (s_eff d2 el' x) = s_eff d2 el' (s_eff d1 el x)).

Lemma taken_app d es fs : taken d (es ++ fs) = match taken d es with Some el => Some el | None => taken d fs end.
Proof. unfold taken. induction es as [|el es IH]; [done|]. simpl. by destruct (negb _). Qed.

Lemma taken_one d el : taken d [el] = if decide (s_state d el = reject) then None else Some el.
Proof. unfold taken. simpl. by case_bool_decide; [rewrite decide_True | rewrite decide_False]. Qed.

Lemma open_taken d es : is_open d es = true <-> taken d es = None.
Proof. unfold is_open. by destruct (taken d es). Qed.
Lemma closed_taken d es : is_open d es = false <-> is_Some (taken d es).
Proof. unfold is_open. rewrite negb_false_iff. apply bool_decide_eq_true. Qed.

Lemma open_snoc d es el : is_open d (es ++ [el]) = is_open d es && bool_decide (s_state d el = reject).
Proof.
  unfold is_open. rewrite taken_app, taken_one. destruct (taken d es); simpl; [done|].
  destruct (decide (s_state d el = reject)); 
    [by rewrite (bool_decide_eq_true_2 (s_state d el = reject)) | by rewrite (bool_decide_eq_false_2 (s_state d el = reject))].
Qed.

Lemma errs_app d es fs : is_open d es = false -> errs (es ++ fs) d = errs es d.
Proof. intros [el E]%closed_taken. unfold errs. by rewrite taken_app, E. Qed.

(** ** One element against the parts *)

(** The state of the part of [d] after the elements [seen], none of which erred. *)
Definition tracks (seen : list element) (d : sem) (ps : part (stored R) * part_state) : Prop :=
  fst ps = s_part d /\ did_error (snd ps) = false /\ done_ok (snd ps) = negb (is_open d seen).

Definition step_value (seen : list element) (el : element) (x : R) (d : sem) : R :=
  if is_open d seen then s_eff d el x else x.

Lemma handle_sem seen el d st : described el d -> tracks seen d (s_part d, st) ->
  let m := if is_open d seen then s_state d el else reject in
  exists st', (forall x, exists x', handle_element (s_part d) st el (Done (inr x)) = (Done (inr x'), st', m) /\
      (m <> error -> x' = step_value seen el x d)) /\
    (if decide (m = error) then did_error st' = true else tracks (seen ++ [el]) d (s_part d, st')).
Proof.
  intros Hd (_ & He & Ho) m. simpl in He, Ho. unfold described in Hd.
  assert (exists r, (forall s, handle_element (s_part d) st el s = handle_rule r st el s) /\
    acts r el (s_state d el) (s_eff d el)) as (r & Eh & t & Hr).
  { destruct (s_part d) as [r|r t|]; [..|done]; exists r; by split; [|apply Hd]. }
  unfold tracks, step_value. cbn [fst snd]. setoid_rewrite Eh. unfold handle_rule. rewrite Ho. subst m.
  rewrite open_snoc. destruct (is_open d seen) eqn:Eo; cbn [negb andb].
  - destruct (s_state d el) eqn:Es; cbn [decide].
    all: eexists; split;
      [intros x; destruct (Hr x) as (x' & E & Hx); exists x'; rewrite E; split; [reflexivity | exact Hx]|].
    all: simpl; rewrite ?He; done.
  - exists st. split; [|done]. intros x. by exists x.
Qed.

Lemma tracks_rejected seen el d ps : s_state d el = reject -> tracks seen d ps -> tracks (seen ++ [el]) d ps.
Proof.
  intros Hs (E & He & Ho). unfold tracks. rewrite open_snoc, Hs, bool_decide_eq_true_2, andb_true_r by done. done.
Qed.

Lemma step_rejected seen el ds x : Forall (described el) ds -> Forall (fun d => s_state d el = reject) ds ->
  fold_left (step_value seen el) ds x = x.
Proof.
  intros Hd. revert x. induction Hd as [|d ds Hd _ IH]; intros x Hr; [done|]. apply Forall_cons in Hr as [Hr Hrs]. simpl.
  rewrite IH by done. unfold step_value. destruct (is_open d seen); [|done].
  unfold described in Hd. destruct (s_part d); [..|done]; by apply Hd.
Qed.

Lemma offer_sem seen el ds parts : Forall (described el) ds -> ForallOrdPairs (compatible [el]) ds ->
  Forall2 (tracks seen) ds parts ->
  exists parts' m,
    (forall x, exists x', offer parts el (Done (inr x)) = (Done (inr x'), parts', m) /\
       (m <> error -> x' = fold_left (step_value seen el) ds x)) /\
    (if decide (m = error) then existsb (final_is error) parts' = true /\ existsb (errs (seen ++ [el])) ds = true
     else Forall2 (tracks (seen ++ [el])) ds parts' /\
       existsb (fun d => is_open d seen && bool_decide (s_state d el = error)) ds = false).
Proof.
  intros Hd Hc Ht. induction Ht as [|d [p st] ds parts Hp Ht IH].
  { exists [], reject. split; [intros x; by exists x|]. simpl. split; [constructor | done]. }
  apply Forall_cons in Hd as [Hd Hds]. inversion_clear Hc as [|? ? Hcd Hcs].
  destruct (Hp) as (E & _). simpl in E. subst p.
  destruct (handle_sem seen el d st Hd Hp) as (st' & Hh & Hst). simpl.
  destruct (is_open d seen && negb (bool_decide (s_state d el = reject))) eqn:Etake.
  - apply andb_true_iff in Etake as [Eo Hn]. apply negb_true_iff, bool_decide_eq_false in Hn. rewrite Eo in Hh, Hst.
    assert (Forall (fun d => s_state d el = reject) ds) as Hrej.
    { eapply Forall_impl; [exact Hcd|]. intros d' [Hx _]. destruct (Hx el); [set_solver | done | done]. }
    exists ((s_part d, st') :: parts), (s_state d el). split.
    { intros x. destruct (Hh x) as (x' & -> & Hx). exists x'. rewrite decide_False by done. split; [done|].
      intros He. by rewrite (step_rejected seen el ds) by done; apply Hx. }
    destruct (decide (s_state d el = error)) as [He|He].
    + split.
      * simpl. apply orb_true_iff. left. unfold final_is, described in *. destruct (s_part d); [..|done]; simpl;
          rewrite Hst; done.
      * simpl. apply orb_true_iff. left. apply open_taken in Eo. unfold errs.
        rewrite taken_app, Eo, taken_one, decide_False by done. by apply bool_decide_eq_true_2.
    + split.
      * constructor; [done|]. clear -Ht Hrej. induction Ht; [constructor|].
        apply Forall_cons in Hrej as [? ?]. constructor; [by apply tracks_rejected | by apply IHHt].
      * simpl. rewrite bool_decide_eq_false_2, andb_false_r by done. simpl. clear -Hrej.
        induction Hrej as [|d ds Hd _ IH]; [done|]. simpl. rewrite Hd, IH, orb_false_r. by rewrite andb_false_r.
  - destruct (IH Hds Hcs) as (parts' & m & Ho & Hend).
    assert ((if is_open d seen then s_state d el else reject) = reject) as Em.
    { destruct (is_open d seen); [|done]. simpl in Etake. by apply negb_false_iff, bool_decide_eq_true in Etake. }
    rewrite Em in Hh, Hst. exists ((s_part d, st') :: parts'), m. split.
    { intros x. destruct (Hh x) as (x1 & -> & Hx1). rewrite (Hx1 ltac:(done)).
      destruct (Ho (step_value seen el x d)) as (x' & E & Hx'). exists x'. simpl. rewrite E. done. }
    destruct (decide (m = error)).
    + destruct Hend as [H1 H2]. simpl. rewrite H1, H2. by rewrite !orb_true_r.
    + destruct Hend as (H1 & H2). split; [by constructor|]. simpl. rewrite H2, orb_false_r.
      destruct (is_open d seen); [|done]. simpl. by rewrite Em.
Qed.

(** ** The whole document *)

Lemma compatible_sub es fs d1 d2 : fs ⊆ es -> compatible es d1 d2 -> compatible fs d1 d2.
Proof. intros Hs [H1 H2]. split; [intros el Hel; by apply H1, Hs|]. intros el el' x Hel Hel'. apply H2; by apply Hs. Qed.

Lemma pairs_sub es fs ds : fs ⊆ es -> ForallOrdPairs (compatible es) ds -> ForallOrdPairs (compatible fs) ds.
Proof.
  intros Hs Hc. induction Hc as [|d ds Hd _ IH]; constructor; [|done].
  eapply Forall_impl; [exact Hd|]. intros d'. by apply compatible_sub.
Qed.

Lemma step_eff seen el d (Hd : described el d) x : step_value seen el (value_in seen x d) d = value_in (seen ++ [el]) x d.
Proof.
  unfold step_value, value_in, is_open. rewrite taken_app, taken_one. destruct (taken d seen) as [e|]; [done|].
  cbn [negb bool_decide]. rewrite bool_decide_eq_false_2 by by intros [? ?]. simpl.
  destruct (decide (s_state d el = reject)) as [Hr|]; [|done].
  unfold described in Hd. destruct (s_part d); [..|done]; by apply Hd.
Qed.

(** The stores of the other parts do not disturb that of a part. *)
Lemma step_commutes es seen el d ds x : seen ++ [el] ⊆ es -> described el d -> Forall (compatible es d) ds ->
  step_value seen el (fold_left (value_in seen) ds x) d = fold_left (value_in seen) ds (step_value seen el x d).
Proof.
  intros Hsub Hde Hc. revert x. induction Hc as [|d' ds [_ Hd] _ IH]; intros x; [done|]. simpl. rewrite IH. f_equal.
  unfold step_value, value_in. destruct (is_open d seen); [|done]. destruct (taken d' seen) as [el'|] eqn:Et; [|done].
  destruct (decide (s_state d el = reject)) as [Hr|Hn].
  { assert (forall x, s_eff d el x = x) as Hid by (unfold described in Hde; destruct (s_part d); [..|done]; by apply Hde).
    by rewrite !Hid. }
  apply find_some in Et as [Hin Hne]. apply negb_true_iff, bool_decide_eq_false in Hne.
  apply list_elem_of_In in Hin. apply Hd; [| |done..]; apply Hsub; set_solver.
Qed.

Lemma step_all es seen el ds x : seen ++ [el] ⊆ es -> Forall (described el) ds -> ForallOrdPairs (compatible es) ds ->
  fold_left (step_value seen el) ds (fold_left (value_in seen) ds x) = fold_left (value_in (seen ++ [el])) ds x.
Proof.
  intros Hsub Hd Hc. revert x. induction Hc as [|d ds Hcd _ IH]; intros x; [done|].
  apply Forall_cons in Hd as [Hd Hds]. simpl. rewrite (step_commutes es) by done.
  by rewrite IH, (step_eff _ _ _ Hd).
Qed.

Lemma tracks_looked seen ds parts : Forall2 (tracks seen) ds parts -> Forall (fun d => s_part d <> part_reject_others) ds ->
  forallb (fun p => done_looking (fst p) (snd p)) parts = forallb (fun d => negb (is_open d seen)) ds.
Proof.
  intros Ht. induction Ht as [|d ps ds parts (E & _ & Ho) Ht IH]; intros Hn; [done|].
  apply Forall_cons in Hn as [Hn Hns]. simpl. rewrite IH by done. f_equal. rewrite E, <- Ho. by destruct (s_part d).
Qed.

Lemma described_open el d : described el d -> s_part d <> part_reject_others.
Proof. unfold described. by destruct (s_part d). Qed.

Lemma errs_none seen ds el : existsb (errs seen) ds = false ->
  existsb (fun d => is_open d seen && bool_decide (s_state d el = error)) ds = false ->
  existsb (errs (seen ++ [el])) ds = false.
Proof.
  induction ds as [|d ds IH]; [done|]. simpl. intros [H1 H1s]%orb_false_iff [H2 H2s]%orb_false_iff.
  rewrite IH, orb_false_r by done. destruct (is_open d seen) eqn:Eo; [|by rewrite errs_app].
  unfold errs. apply open_taken in Eo. rewrite taken_app, Eo, taken_one. simpl in H2. by destruct (decide _).
Qed.

Lemma errs_later seen rest ds : existsb (errs seen) ds = true -> existsb (errs (seen ++ rest)) ds = true.
Proof.
  intros (d & Hd & He)%existsb_exists. apply existsb_exists. exists d. split; [done|].
  unfold errs in *. rewrite taken_app. by destruct (taken d seen).
Qed.

Lemma errs_closed seen rest ds : forallb (fun d => negb (is_open d seen)) ds = true ->
  existsb (errs (seen ++ rest)) ds = existsb (errs seen) ds /\
  forall x, fold_left (value_in (seen ++ rest)) ds x = fold_left (value_in seen) ds x.
Proof.
  induction ds as [|d ds IH]; [done|]. simpl. intros [Ho Hos]%andb_true_iff. apply negb_true_iff in Ho.
  destruct (IH Hos) as [E1 E2]. rewrite E1, errs_app by done. split; [done|]. intros x. rewrite E2. f_equal.
  unfold value_in. rewrite taken_app. by apply closed_taken in Ho as [? ->].
Qed.

Lemma loop_sem ds es : ForallOrdPairs (compatible es) ds ->
  Forall (fun d => s_part d <> part_reject_others) ds ->
  forall rem seen parts, seen ++ rem ⊆ es -> existsb (errs seen) ds = false ->
  Forall (fun el => Forall (described el) ds) rem -> Forall2 (tracks seen) ds parts ->
  exists parts',
    (forall x, exists x', parse_loop parts rem (Done (inr (fold_left (value_in seen) ds x))) = (Done (inr x'), parts') /\
       (existsb (errs (seen ++ rem)) ds = false -> x' = fold_left (value_in (seen ++ rem)) ds x)) /\
    if existsb (errs (seen ++ rem)) ds then existsb (final_is error) parts' = true
    else exists last, (last = seen ++ rem \/ forallb (fun d => negb (is_open d last)) ds = true) /\
            (exists rest, seen ++ rem = last ++ rest) /\ Forall2 (tracks last) ds parts'.
Proof.
  intros Hc Hn. induction rem as [|el rem IH]; intros seen parts Hsub He Hd Ht.
  { exists parts. rewrite app_nil_r, He. split; [intros x; by eexists|]. exists seen.
    split_and!; [by left | exists []; by rewrite app_nil_r | done]. }
  cbn [parse_loop]. rewrite (tracks_looked _ _ _ Ht Hn). destruct (forallb _ ds) eqn:Ec.
  { destruct (errs_closed seen (el :: rem) ds Ec) as [E1 E2]. exists parts.
    rewrite E1, He. split; [intros x; rewrite E2; by eexists|]. exists seen.
    split_and!; [by right | by exists (el :: rem) | done]. }
  apply Forall_cons in Hd as [Hd Hds].
  destruct (offer_sem seen el ds parts Hd) as (parts1 & m & Eo & H1); [|done|].
  { eapply pairs_sub; [|exact Hc]. set_solver. }
  change (el :: rem) with ([el] ++ rem). rewrite app_assoc. destruct (decide (m = error)) as [->|Hne].
  - destruct H1 as [H1 H1e]. exists parts1. rewrite (errs_later _ _ _ H1e). split; [|done]. intros x.
    destruct (Eo (fold_left (value_in seen) ds x)) as (x' & -> & _). exists x'. by rewrite decide_True.
  - destruct H1 as (H1 & H1e). destruct (IH (seen ++ [el]) parts1) as (parts' & El & Hend); try done.
    + by rewrite <- app_assoc.
    + by apply errs_none.
    + exists parts'. split; [|done]. intros x. destruct (Eo (fold_left (value_in seen) ds x)) as (x1 & -> & Hx1).
      rewrite (Hx1 Hne), (step_all es); [|set_solver | done..]. destruct (El x) as (x' & E & Hx'). exists x'.
      by rewrite decide_False.
Qed.

Lemma final_sem seen ds parts : Forall2 (tracks seen) ds parts -> Forall (fun d => s_part d <> part_reject_others) ds ->
  state (final_result parts) = if existsb (lacks seen) ds then reject else accept.
Proof.
  intros Ht Hn. assert (forall s, existsb (final_is s) parts =
      existsb (fun d => bool_decide ((if lacks seen d then reject else accept) = s)) ds) as Hf.
  { intros s. induction Ht as [|d [p st] ds parts (E & Ee & Ho) Ht IH]; [done|]. apply Forall_cons in Hn as [Hn Hns].
    simpl in *. rewrite IH by done. f_equal. subst p. unfold final_is, lacks. simpl.
    destruct (s_part d); [..|done]; simpl; rewrite Ee, ?Ho; [done|]. rewrite negb_involutive. by destruct (is_open d seen). }
  rewrite final_result_state; rewrite Hf.
  - clear. induction ds as [|d ds IH]; [done|]. simpl. by destruct (lacks seen d).
  - apply existsb_const_false. intros d. by destruct (lacks seen d).
Qed.

Lemma lacks_closed last rest ds : forallb (fun d => negb (is_open d last)) ds = true ->
  existsb (lacks (last ++ rest)) ds = existsb (lacks last) ds.
Proof.
  induction ds as [|d ds IH]; [done|]. simpl. intros [Ho Hos]%andb_true_iff. rewrite IH by done. f_equal.
  apply negb_true_iff in Ho. unfold lacks. rewrite Ho. apply closed_taken in Ho as [e E].
  unfold is_open. by rewrite taken_app, E.
Qed.

(** The document has the state and the stores of what its parts take. *)
Lemma doc_acts ds es : Forall (fun el => Forall (described el) ds) es -> ForallOrdPairs (compatible es) ds ->
  Forall (fun d => s_part d <> part_reject_others) ds ->
  acts (doc (map s_part ds)) es (doc_state ds es) (doc_value ds es).
Proof.
  intros Hd Hc Hn.
  assert (Forall2 (tracks []) ds (map (fun p => (p, part_init)) (map s_part ds))) as Ht.
  { clear. induction ds; constructor; done. }
  destruct (loop_sem ds es Hc Hn es [] _ ltac:(done) (existsb_const_false ds (errs []) (fun _ => eq_refl)) Hd Ht)
    as (parts & El & Hend). simpl in El, Hend. exists (format_to (final_result parts)). intros x.
  destruct (El x) as (x' & E & Hx'). exists x'. unfold doc_state.
  assert (fold_left (value_in []) ds x = x) as E0 by (clear; by induction ds). rewrite E0 in E.
  unfold doc. rewrite E. destruct (existsb (errs es) ds) eqn:Ee.
  - split; [|done]. f_equal. unfold final_result. simpl. by rewrite Hend.
  - destruct Hend as (last & Hl & (rest & Er) & Htl). split; [|intros _; by apply Hx']. f_equal.
    assert (state (final_result parts) = if existsb (lacks es) ds then reject else accept) as <-;
      [|by destruct (final_result parts)].
    rewrite (final_sem last ds parts Htl Hn). destruct Hl as [->|Hcl]; [done|].
    by rewrite Er, (lacks_closed last rest ds Hcl).
Qed.

(** ** Combinators *)

Lemma acts_must {T} (r : rule (stored R) T) v st f : acts r v st f ->
  acts (must r) v (if decide (st = reject) then error else st) f.
Proof.
  intros [t Hr]. exists t. intros x. destruct (Hr x) as (x' & E & Hx). exists x'. unfold must. rewrite E.
  split; [done|]. by destruct (decide (st = reject)).
Qed.

Lemma acts_action {T} (g : T -> R -> R) v : acts (action (fun z => modify (g z))) v accept (g v).
Proof. eapply acts_intro. intros x. reflexivity. Qed.

Lemma acts_type {T} (try_as : bson_value_ref -> option T) (r : rule (stored R) T) el st f :
  (forall v, try_as (snd el) = Some v -> acts r v (st v) (f v)) ->
  acts (type_rule try_as r) el (from_option st reject (try_as (snd el))) (from_option f id (try_as (snd el))).
Proof.
  intros Hr. unfold acts, type_rule. destruct (try_as (snd el)) as [v|]; [by apply Hr|].
  eapply (acts_intro (fun _ s => (s, _)) tt). intros x. reflexivity.
Qed.

Lemma acts_store {T} (try_as : bson_value_ref -> option T) (g : T -> R -> R) el :
  acts (store try_as (fun z => modify (g z))) el
    (from_option (fun _ => accept) reject (try_as (snd el))) (from_option g id (try_as (snd el))).
Proof. apply (acts_type try_as _ el (fun _ => accept) g). intros v _. apply acts_action. Qed.

Lemma acts_integer (g : Z -> R -> R) el :
  acts (integer (action (fun z => modify (g z)))) el
    (from_option (fun _ => accept) reject (int_of (snd el))) (from_option g id (int_of (snd el))).
Proof. destruct el as [k v]. destruct v; eapply acts_intro; intros x; reflexivity. Qed.

Lemma acts_field k (r : rule (stored R) element) el st f : acts r el st f ->
  acts (field k r) el (if decide (fst el = k) then st else reject) (if decide (fst el = k) then f else id).
Proof.
  intros [t Hr]. unfold acts, field. destruct (decide (fst el = k)).
  - rewrite bool_decide_eq_true_2 by done. simpl. eexists. intros x. destruct (Hr x) as (x' & -> & Hx).
    exists x'. split; [reflexivity | done].
  - rewrite bool_decide_eq_false_2 by done. simpl. eexists. intros x. by exists x.
Qed.

Lemma acts_all2 {T} (r1 r2 : rule (stored R) T) v st1 st2 f1 f2 : acts r1 v st1 f1 -> acts r2 v st2 f2 ->
  acts (all [r1; r2]) v (if decide (st1 = accept) then st2 else st1)
    (if decide (st1 = accept) then fun x => f2 (f1 x) else f1).
Proof.
  intros [t1 H1] [t2 H2]. unfold acts, all, run_until. destruct (decide (st1 = accept)) as [->|Hn].
  - destruct st2; eexists; intros x; destruct (H1 x) as (x1 & -> & Hx1); cbn; rewrite <- (Hx1 ltac:(done));
      destruct (H2 x1) as (x2 & -> & Hx2); cbn; exists x2; (split; [reflexivity | exact Hx2]).
  - destruct st1; try done; eexists; intros x; destruct (H1 x) as (x1 & -> & Hx1); cbn; exists x1;
      (split; [reflexivity | exact Hx1]).
Qed.

Lemma acts_any2 {T} (r1 r2 : rule (stored R) T) v st1 st2 f1 f2 : acts r1 v st1 f1 -> acts r2 v st2 f2 ->
  acts (any [r1; r2]) v (if decide (st1 = reject) then st2 else st1)
    (if decide (st1 = reject) then fun x => f2 (f1 x) else f1).
Proof.
  intros [t1 H1] [t2 H2]. unfold acts, any, run_until. destruct (decide (st1 = reject)) as [->|Hn].
  - destruct st2; eexists; intros x; destruct (H1 x) as (x1 & -> & Hx1); cbn; rewrite <- (Hx1 ltac:(done));
      destruct (H2 x1) as (x2 & -> & Hx2); cbn; exists x2; (split; [reflexivity | exact Hx2]).
  - destruct st1; try done; eexists; intros x; destruct (H1 x) as (x1 & -> & Hx1); cbn; exists x1;
      (split; [reflexivity | exact Hx1]).
Qed.

(** [each]: the state of the first element that is not accepted. *)
Section Each.
Context (st : element -> pstate) (f : element -> R -> R).
Fixpoint each_state (es : list element) : pstate :=
  match es with [] => accept | el :: es => if decide (st el = accept) then each_state es else st el end.
Fixpoint each_eff (es : list element) (x : R) : R :=
  match es with [] => x | el :: es => if decide (st el = accept) then each_eff es (f el x) else f el x end.
End Each.

Lemma acts_each (r : rule (stored R) element) st f es : Forall (fun el => acts r el (st el) (f el)) es ->
  acts (each r) es (each_state st es) (each_eff st f es).
Proof.
  induction 1 as [|el es [t Hr] _ [t' Hg]]; [by eapply acts_intro|].
  unfold acts. cbn [each each_state each_eff]. destruct (decide (st el = accept)) as [Ha|Hn].
  - exists t'. intros x. destruct (Hr x) as (x1 & E & Hx1). rewrite E. unfold did_accept. cbn [state].
    rewrite Ha in *. rewrite bool_decide_eq_true_2 by done. cbn [negb]. rewrite <- Hx1 by done. apply Hg.
  - eexists. intros x. destruct (Hr x) as (x1 & E & Hx1). rewrite E. unfold did_accept. cbn [state].
    rewrite bool_decide_eq_false_2 by done. cbn [negb]. exists x1. split; [reflexivity | done].
Qed.

(** ** Values that hold documents *)

(** The elements of a document or an array. *)
Definition elements_of (v : bson_value_ref) : option (list element) :=
  match get_document_or_array v with
  | Some d => match read_elements (loop_fuel (zlen d)) (mk_block 16 d) 16 with Done (Some es) => Some es | _ => None end
  | None => None
  end.

(** The documents in a value, down to [n] levels, are encoded elements with distinct
    keys. *)
Fixpoint nested (n : nat) (v : bson_value_ref) : Prop :=
  match n with
  | O => True
  | S n =>
      match v with
      | v_document d | v_array d =>
          exists es, d = Some (encode_doc es) /\ holdable es /\ NoDup (map fst es) /\
            Forall (fun el => nested n (snd el)) es
      | _ => True
      end
  end.

Lemma elements_of_encoded d es v : holdable es -> d = Some (encode_doc es) -> v = v_document d \/ v = v_array d ->
  elements_of v = Some es.
Proof.
  intros (Hwf & Hr & Hmax) -> Hv. unfold elements_of.
  assert (get_document_or_array v = Some (encode_doc es)) as -> by by destruct Hv as [-> | ->].
  by rewrite (read_loop _ (mk_block 16 (encode_doc es)) 16 es eq_refl (bytes_at_whole _) Hwf Hr Hmax (length_elements es)).
Qed.

Lemma nested_elements n v : nested (S n) v ->
  match elements_of v with
  | Some es => get_document_or_array v = Some (encode_doc es) /\ holdable es /\ NoDup (map fst es) /\
      Forall (fun el => nested n (snd el)) es
  | None => get_document_or_array v = None
  end.
Proof.
  intros Hv. destruct v as [| | |d|d| | | | | | | | | | | | | | | | | |]; try done;
    destruct Hv as (es & -> & Hh & Hd & Hn); by rewrite (elements_of_encoded _ es _ Hh eq_refl) by eauto.
Qed.

Lemma acts_doc_of ds n el : nested (S n) (snd el) ->
  (forall es, elements_of (snd el) = Some es -> NoDup (map fst es) -> Forall (fun el => nested n (snd el)) es ->
     Forall (fun el => Forall (described el) ds) es /\ ForallOrdPairs (compatible es) ds) ->
  Forall (fun d => s_part d <> part_reject_others) ds ->
  acts (doc_of (map s_part ds)) el (from_option (doc_state ds) reject (elements_of (snd el)))
    (from_option (doc_value ds) id (elements_of (snd el))).
Proof.
  intros Hv Hds Hn. pose proof (nested_elements n (snd el) Hv) as He. unfold doc_of, acts.
  destruct (elements_of (snd el)) as [es|]; cbn [from_option].
  - destruct He as (-> & Hh & Hnd & Hes). destruct (Hds es eq_refl Hnd Hes) as [Hd Hc].
    destruct (doc_acts ds es Hd Hc Hn) as (t & Hf). exists t. intros x. rewrite doc_in_encoded by done. apply Hf.
  - rewrite He. eexists. intros x. by exists x.
Qed.

Lemma acts_each_of (r : rule (stored R) element) n st f el : nested (S n) (snd el) ->
  (forall el', nested n (snd el') -> acts r el' (st el') (f el')) ->
  let es := match as_array (snd el) with Some _ => elements_of (snd el) | None => None end in
  acts (each_of r) el (from_option (each_state st) reject es) (from_option (each_eff st f) id es).
Proof.
  intros Hv Hr es. subst es. unfold each_of, acts, type_rule. pose proof (nested_elements n (snd el) Hv) as He.
  destruct (snd el) as [| | | |d| | | | | | | | | | | | | | | | | |]; cbn [as_array];
    try (eexists; intros x; by exists x).
  destruct Hv as (es & -> & Hh & Hnd & Hes). rewrite (elements_of_encoded _ es _ Hh eq_refl) in * by eauto. cbn [from_option].
  assert (Forall (fun el => acts r el (st el) (f el)) es) as Ha by by eapply Forall_impl.
  destruct (acts_each r st f es Ha) as (t & Hf). exists t. intros x. rewrite each_in_encoded by done. apply Hf.
Qed.

(** The parse of a whole reply. *)
Lemma parse_view_spec ds es init : holdable es -> Forall (fun el => Forall (described el) ds) es ->
  ForallOrdPairs (compatible es) ds -> Forall (fun d => s_part d <> part_reject_others) ds ->
  if decide (doc_state ds es = accept)
  then parse_view (map s_part ds) (encode_doc es) init = Done (inr (doc_value ds es init))
  else exists what, parse_view (map s_part ds) (encode_doc es) init = Done (inl (parse_error what)).
Proof.
  intros Hh Hd Hc Hn. destruct (doc_acts ds es Hd Hc Hn) as (t & Hf). unfold parse_view.
  rewrite doc_in_encoded by done. destruct (Hf init) as (x' & -> & Hx'). ostep. cbn [state].
  destruct (decide (doc_state ds es = accept)) as [Ha|Ha].
  - rewrite Hx' by (by rewrite Ha). by rewrite decide_False by auto.
  - rewrite decide_True by done. by eexists.
Qed.
Lemma acts_ext {T} (r : rule (stored R) T) v st st' f g : acts r v st f -> st = st' ->
  (st <> error -> forall x, f x = g x) -> acts r v st' g.
Proof.
  intros [t Hr] <- Hfg. exists t. intros x. destruct (Hr x) as (x' & E & Hx). exists x'. split; [done|].
  intros He. by rewrite <- Hfg; [apply Hx|].
Qed.

(** ** Readers: what a part gets from the element with its key

    [r_get] gives the stores for a value, unless it is not what the part looks for;
    then the rule has the state [r_bad]. *)
Record reader : Type := mk_reader {
  r_part : part (stored R);
  r_keys : list text;
  r_get : bson_value_ref -> option (R -> R);
  r_bad : bson_value_ref -> pstate }.

Definition sem_of (r : reader) : sem :=
  mk_sem (r_part r)
    (fun el => if decide (fst el ∈ r_keys r) then (if r_get r (snd el) then accept else r_bad r (snd el)) else reject)
    (fun el => if decide (fst el ∈ r_keys r) then default id (r_get r (snd el)) else id).

(** The element that the part looks at. *)
Definition seen_by (r : reader) (es : list element) : option element :=
  List.find (fun el => bool_decide (fst el ∈ r_keys r)) es.

Definition read_ok (es : list element) (r : reader) : bool :=
  match seen_by r es with
  | Some el => bool_decide (is_Some (r_get r (snd el)))
  | None => negb (is_must (r_part r))
  end.
Definition read_one (es : list element) (x : R) (r : reader) : R :=
  match seen_by r es with Some el => default id (r_get r (snd el)) x | None => x end.

Definition all_read (rs : list reader) (es : list element) : bool := forallb (read_ok es) rs.
Definition read_all (rs : list reader) (es : list element) (x : R) : R := fold_left (read_one es) rs x.

(** A value that is not what the part looks for is an error, or the part is required
    and has one key. *)
Definition reader_wf (r : reader) : Prop :=
  s_part (sem_of r) <> part_reject_others /\ (forall v, r_get r v = None -> r_bad r v <> accept) /\
  ((forall v, r_get r v = None -> r_bad r v = error) \/ is_must (r_part r) = true /\ exists k, r_keys r = [k]).

(** Different keys, and stores in different places. *)
Definition apart (es : list element) (r1 r2 : reader) : Prop :=
  (forall k, k ∈ r_keys r1 -> k ∈ r_keys r2 -> False) /\
  (forall el el' f f', el ∈ es -> el' ∈ es -> fst el ∈ r_keys r1 -> fst el' ∈ r_keys r2 ->
     r_get r1 (snd el) = Some f -> r_get r2 (snd el') = Some f' -> forall x, f (f' x) = f' (f x)).

Lemma apart_compatible es r1 r2 : apart es r1 r2 -> compatible es (sem_of r1) (sem_of r2).
Proof.
  intros [Hk Hf]. split; simpl.
  - intros el _. destruct (decide (fst el ∈ r_keys r1)); [|by left]. right. rewrite decide_False; [done|].
    intros Hin. by eapply Hk.
  - intros el el' x Hel Hel'. destruct (decide (fst el ∈ r_keys r1)); [|done].
    destruct (decide (fst el' ∈ r_keys r2)); [|done]. intros _ _.
    destruct (r_get r1 (snd el)) as [f|] eqn:E1, (r_get r2 (snd el')) as [f'|] eqn:E2; simpl; try done. by apply (Hf el el' f f').
Qed.

Lemma taken_seen r es : reader_wf r -> NoDup (map fst es) ->
  taken (sem_of r) es =
    match seen_by r es with
    | Some el =>
        match r_get r (snd el) with
        | Some _ => Some el
        | None => if bool_decide (r_bad r (snd el) = reject) then None else Some el
        end
    | None => None
    end.
Proof.
  intros (_ & Hb & Hw). induction es as [|el es IH]; [done|]. intros [Hni Hnd]%NoDup_cons. unfold taken, seen_by in *.
  cbn [List.find sem_of s_state]. destruct (decide (fst el ∈ r_keys r)) as [Hk|Hk].
  - rewrite (bool_decide_eq_true_2 (fst el ∈ r_keys r)) by done.
    destruct (r_get r (snd el)) as [f|] eqn:Eg; [done|].
    destruct (bool_decide (r_bad r (snd el) = reject)) eqn:Hr; cbn [negb]; [|done].
    apply bool_decide_eq_true in Hr.
    destruct Hw as [Hw | (_ & k & Ek)]; [by rewrite Hw in Hr|]. rewrite Ek in Hk. apply list_elem_of_singleton in Hk.
    clear -Hni Hk Ek. induction es as [|el' es IH]; [done|]. cbn [List.find sem_of s_state]. simpl in Hni.
    rewrite decide_False; [apply IH; set_solver|]. rewrite Ek. set_solver.
  - rewrite (bool_decide_eq_false_2 (fst el ∈ r_keys r)) by done. exact (IH Hnd).
Qed.

Lemma reads_state rs es : Forall reader_wf rs -> NoDup (map fst es) ->
  doc_state (map sem_of rs) es = accept <-> all_read rs es = true.
Proof.
  intros Hw Hnd. unfold doc_state, all_read.
  assert (forall r, reader_wf r -> read_ok es r = negb (errs es (sem_of r) || lacks es (sem_of r))) as H.
  { intros r Hr. unfold errs, lacks, is_open, read_ok. rewrite (taken_seen r es Hr Hnd). simpl.
    destruct (seen_by r es) as [el|] eqn:Es; [|by destruct (is_must _)].
    assert (fst el ∈ r_keys r) as Hk by (apply find_some in Es as [_ Es]; by apply bool_decide_eq_true in Es).
    destruct (r_get r (snd el)) as [f|] eqn:Eg.
    - rewrite decide_True, Eg by done. simpl. by rewrite andb_false_r.
    - destruct Hr as (_ & Hb & Hw'). specialize (Hb _ Eg). destruct (r_bad r (snd el)) eqn:Eb; [|done|]; simpl.
      + destruct Hw' as [Hw' | [Hm _]]; [by rewrite (Hw' _ Eg) in Eb|]. by rewrite Hm.
      + by rewrite decide_True, Eg, Eb by done. }
  induction Hw as [|r rs Hr _ IH]; [done|]. simpl. rewrite (H r Hr).
  destruct (errs es (sem_of r)), (lacks es (sem_of r)); simpl; try done.
  by destruct (existsb (errs es) (map sem_of rs)).
Qed.

Lemma reads_value rs es x : Forall reader_wf rs -> NoDup (map fst es) ->
  doc_value (map sem_of rs) es x = read_all rs es x.
Proof.
  intros Hw Hnd. unfold doc_value, read_all. revert x. induction Hw as [|r rs Hr _ IH]; intros x; [done|]. simpl.
  rewrite IH. f_equal. unfold value_in, read_one. rewrite (taken_seen r es Hr Hnd).
  destruct (seen_by r es) as [el|] eqn:Es; [|done].
  assert (fst el ∈ r_keys r) as Hk by (apply find_some in Es as [_ Es]; by apply bool_decide_eq_true in Es).
  destruct (r_get r (snd el)) as [f|] eqn:Eg; simpl.
  - by rewrite decide_True, Eg.
  - destruct (bool_decide _); simpl; [done|]. by rewrite decide_True, Eg.
Qed.

(** What readers need of a document. *)
Definition reads (es : list element) (rs : list reader) : Prop :=
  Forall (fun el => Forall (fun r => described el (sem_of r)) rs) es /\ ForallOrdPairs (apart es) rs.

Lemma reads_described es rs : reads es rs ->
  Forall (fun el => Forall (described el) (map sem_of rs)) es /\ ForallOrdPairs (compatible es) (map sem_of rs).
Proof.
  intros [Hd Ha]. split.
  - eapply Forall_impl; [exact Hd|]. intros el. by rewrite Forall_map.
  - clear Hd. induction Ha as [|r rs Hr _ IH]; constructor; [|done]. apply Forall_map.
    eapply Forall_impl; [exact Hr|]. apply apart_compatible.
Qed.

Lemma parts_not_closed rs : Forall reader_wf rs -> Forall (fun d => s_part d <> part_reject_others) (map sem_of rs).
Proof. intros Hw. apply Forall_map. eapply Forall_impl; [exact Hw|]. by intros r (? & _). Qed.

Lemma parts_of rs : map s_part (map sem_of rs) = map r_part rs.
Proof. rewrite map_map. done. Qed.

(** The parse of a reply: it gives the object with all that was read, or a protocol
    error. *)
Lemma parse_reads rs es init : holdable es -> NoDup (map fst es) -> Forall reader_wf rs -> reads es rs ->
  if all_read rs es then parse_view (map r_part rs) (encode_doc es) init = Done (inr (read_all rs es init))
  else exists what, parse_view (map r_part rs) (encode_doc es) init = Done (inl (parse_error what)).
Proof.
  intros Hh Hnd Hw [Hd Hc]%reads_described.
  pose proof (parse_view_spec (map sem_of rs) es init Hh Hd Hc (parts_not_closed rs Hw)) as Hp. rewrite parts_of in Hp.
  rewrite reads_value in Hp by done. pose proof (reads_state rs es Hw Hnd) as Hs. destruct (decide _) as [Ha|Ha].
  - by rewrite (proj1 Hs Ha).
  - destruct (all_read rs es); [by destruct Ha; apply Hs | done].
Qed.

(** A nested document. *)
Definition get_doc (rs : list reader) (v : bson_value_ref) : option (R -> R) :=
  match elements_of v with Some es => if all_read rs es then Some (read_all rs es) else None | None => None end.
Definition bad_doc (rs : list reader) (v : bson_value_ref) : pstate :=
  match elements_of v with
  | Some es => if decide (doc_state (map sem_of rs) es = error) then error else reject
  | None => reject
  end.

Lemma acts_get_doc rs n el : nested (S n) (snd el) -> Forall reader_wf rs ->
  (forall es, NoDup (map fst es) -> Forall (fun el => nested n (snd el)) es -> reads es rs) ->
  acts (doc_of (map r_part rs)) el (if get_doc rs (snd el) then accept else bad_doc rs (snd el))
    (from_option (read_all rs) id (elements_of (snd el))).
Proof.
  intros Hv Hw Hr. rewrite <- parts_of. pose proof (nested_elements n (snd el) Hv) as He.
  eapply acts_ext; [apply (acts_doc_of _ n); [done | | by apply parts_not_closed] | |].
  - intros es _ Hnd Hes. by apply reads_described, Hr.
  - unfold get_doc, bad_doc. destruct (elements_of (snd el)) as [es|]; [|done]. simpl.
    destruct He as (_ & _ & Hnd & _). pose proof (reads_state rs es Hw Hnd) as Hs.
    destruct (all_read rs es); [by apply Hs|]. destruct (doc_state (map sem_of rs) es); [done | discriminate (proj1 Hs eq_refl) | done].
  - intros _ x. destruct (elements_of (snd el)) as [es|]; [|done]. simpl. apply reads_value; [done|]. by apply He.
Qed.

Lemma bad_doc_fails rs v : bad_doc rs v <> accept.
Proof. unfold bad_doc. destruct (elements_of v); [|done]. by destruct (decide _). Qed.

(** As a required value: anything else is an error. *)
Lemma acts_must_doc rs n el : nested (S n) (snd el) -> Forall reader_wf rs ->
  (forall es, NoDup (map fst es) -> Forall (fun el => nested n (snd el)) es -> reads es rs) ->
  acts (must (doc_of (map r_part rs))) el (if get_doc rs (snd el) then accept else error) (default id (get_doc rs (snd el))).
Proof.
  intros Hv Hw Hr. eapply acts_ext; [apply acts_must, (acts_get_doc rs n el Hv Hw Hr) | |].
  - pose proof (bad_doc_fails rs (snd el)) as Hb. destruct (get_doc rs (snd el)); [done|].
    destruct (decide (bad_doc rs (snd el) = reject)); [done|]. by destruct (bad_doc rs (snd el)).
  - intros He x. pose proof (bad_doc_fails rs (snd el)) as Hb. unfold get_doc in *.
    destruct (elements_of (snd el)) as [cs|]; [|done]. simpl. destruct (all_read rs cs); [done|].
    destruct (decide (bad_doc rs (snd el) = reject)); [done|]. by destruct (bad_doc rs (snd el)).
Qed.

(** With one required part, a document that is rejected stores nothing. *)
Lemma acts_one_doc r n el : nested (S n) (snd el) -> reader_wf r -> is_must (r_part r) = true ->
  (forall es, NoDup (map fst es) -> Forall (fun el => nested n (snd el)) es -> reads es [r]) ->
  acts (doc_of [r_part r]) el (if get_doc [r] (snd el) then accept else bad_doc [r] (snd el))
    (default id (get_doc [r] (snd el))).
Proof.
  intros Hv Hw Hm Hr. assert (Forall reader_wf [r]) as Hws by by constructor.
  eapply acts_ext; [apply (acts_get_doc [r] n el Hv Hws Hr) | done |].
  intros He x. unfold get_doc, bad_doc in *. pose proof (nested_elements n (snd el) Hv) as Hes.
  destruct (elements_of (snd el)) as [cs|]; [|done]. destruct Hes as (_ & _ & Hnd & _). cbn [from_option] in *.
  destruct (all_read [r] cs) eqn:Ea; [done|].
  destruct (decide (doc_state (map sem_of [r]) cs = error)) as [|Hne]; [done|].
  rewrite <- (reads_value [r]) by done.
  assert (doc_state (map sem_of [r]) cs <> accept) as Hna
    by (intros E; apply (reads_state [r]) in E; [congruence | done..]).
  revert Hne Hna. unfold doc_state, doc_value, value_in, errs, lacks, is_open. cbn [existsb map fold_left].
  destruct (taken (sem_of r) cs) as [e|] eqn:Et; [|done].
  assert (s_state (sem_of r) e <> reject) as Hs
    by (apply find_some in Et as [_ Et]; by apply negb_true_iff, bool_decide_eq_false in Et).
  destruct (s_state (sem_of r) e); simpl; rewrite ?andb_false_r; done.
Qed.

(** *** Fields *)

Definition field_reader (must_be : bool) (k : String.string) (r : rule (stored R) element)
  (get : bson_value_ref -> option (R -> R)) (bad : bson_value_ref -> pstate) : reader :=
  mk_reader (if must_be then required k r else optional k r) [lit k] get bad.

Lemma field_reads must_be k r (get : bson_value_ref -> option (R -> R)) bad el :
  (fst el = lit k -> acts r el (if get (snd el) then accept else bad (snd el)) (default id (get (snd el)))) ->
  described el (sem_of (field_reader must_be k r get bad)).
Proof.
  intros Hr. unfold described, required, optional. simpl.
  assert (acts (field (lit k) r) el
      (if decide (fst el ∈ [lit k]) then if get (snd el) then accept else bad (snd el) else reject)
      (if decide (fst el ∈ [lit k]) then default id (get (snd el)) else id)) as H.
  { destruct (decide (fst el ∈ [lit k])) as [Hk|Hk].
    - apply list_elem_of_singleton in Hk. eapply acts_ext; [by apply acts_field, Hr | by rewrite decide_True |].
      intros _ x. by rewrite decide_True.
    - unfold acts, field. rewrite bool_decide_eq_false_2 by (intros E; apply Hk; set_solver). simpl.
      eexists. intros x. by exists x. }
  assert ((if decide (fst el ∈ [lit k]) then if get (snd el) then accept else bad (snd el) else reject) = reject ->
    forall x, (if decide (fst el ∈ [lit k]) then default id (get (snd el)) else id) x = x) as Hj.
  { destruct (decide _); [|done]. by destruct (get (snd el)). }
  by destruct must_be.
Qed.

Lemma field_wf must_be k r (get : bson_value_ref -> option (R -> R)) bad : (forall v, get v = None -> bad v <> accept) ->
  (must_be = false -> forall v, get v = None -> bad v = error) -> reader_wf (field_reader must_be k r get bad).
Proof.
  intros Hb Ho. unfold reader_wf. simpl. split_and!; [by destruct must_be | done |].
  destruct must_be; [right; split; [done | by eexists] | left; by apply Ho].
Qed.

Lemma seen_by_field must_be k r get bad es :
  seen_by (field_reader must_be k r get bad) es = List.find (fun kv => bool_decide (fst kv = lit k)) es.
Proof.
  unfold seen_by. simpl. induction es as [|el es IH]; [done|]. simpl. rewrite IH.
  by rewrite (bool_decide_ext _ (fst el = lit k)) by set_solver.
Qed.
End Acts.
Arguments sem : clear implicits.
Arguments reader : clear implicits.
