(* ===== verification/Handshake.v ===== *)
(** * The handshake reply ([src/amongoc/handshake.hpp], [handshake.cpp])

    The reply of a server to [hello], taken apart by the rules of [Parse.v].  As
    there, the reply is given by its decoded elements; the arrays inside it are
    their bytes, which the rules iterate.  Memory for the copied strings is
    available. *)
From Stdlib Require Import ZArith Lia.
From Stdlib Require Import Strings.Byte Strings.String.
From stdpp Require Import base numbers list sets.
From S2P Require Import Prelude.
From S2P Require Import Types.
From S2P Require Import Value.
From S2P Require Import Iterator.
From S2P Require Import IteratorSafe.
From S2P Require Import Codec.
From S2P Require Import Parse.
From S2P Require Import Reply.
Open Scope Z_scope.

(** ** The response *)

(** The fields of [handshake_response], by their type. *)
Inductive bool_field : Type := isWritablePrimary | readOnly | secondary | arbiterOnly | passive | hidden.
Inductive size_field : Type := maxBsonObjectSize | maxMessageSizeBytes | maxWriteBatchSize.
Inductive int_field : Type := connectionId | minWireVersion | maxWireVersion.
Inductive string_field : Type := topologyVersion | setName | setVersion | primary | me | electionId | msg.
Inductive list_field : Type := compression | saslSupportedMechs | hosts | passives | arbiters.

#[export] Instance bool_field_eq_dec : EqDecision bool_field.
Proof. solve_decision. Defined.
#[export] Instance size_field_eq_dec : EqDecision size_field.
Proof. solve_decision. Defined.
#[export] Instance int_field_eq_dec : EqDecision int_field.
Proof. solve_decision. Defined.
#[export] Instance string_field_eq_dec : EqDecision string_field.
Proof. solve_decision. Defined.
#[export] Instance list_field_eq_dec : EqDecision list_field.
Proof. solve_decision. Defined.

(** An integer is [None] while it is indeterminate. *)
Record handshake_response : Type := mk_response {
  bools : bool_field -> bool;
  sizes : size_field -> Z;
  ints : int_field -> option Z;
  strings : string_field -> text;
  lists : list_field -> list text;
  logicalSessionTimeoutMinutes : Z }.

Definition new_response : handshake_response :=
  mk_response (fun _ => false)
    (fun f => match f with
              | maxBsonObjectSize => 16 * 1024 * 1024
              | maxMessageSizeBytes => 48000000
              | maxWriteBatchSize => 100000
              end)
    (fun f => match f with connectionId => None | _ => Some 0 end)
    (fun _ => []) (fun _ => []) 0.

Definition update {K V} `{EqDecision K} (f : K -> V) (k : K) (v : V) : K -> V :=
  fun k' => if decide (k' = k) then v else f k'.

Definition set_bool (f : bool_field) (b : bool) (r : handshake_response) : handshake_response :=
  mk_response (update (bools r) f b) (sizes r) (ints r) (strings r) (lists r) (logicalSessionTimeoutMinutes r).
Definition set_size (f : size_field) (z : Z) (r : handshake_response) : handshake_response :=
  mk_response (bools r) (update (sizes r) f z) (ints r) (strings r) (lists r) (logicalSessionTimeoutMinutes r).
Definition set_int (f : int_field) (z : Z) (r : handshake_response) : handshake_response :=
  mk_response (bools r) (sizes r) (update (ints r) f (Some z)) (strings r) (lists r) (logicalSessionTimeoutMinutes r).
Definition set_string (f : string_field) (s : text) (r : handshake_response) : handshake_response :=
  mk_response (bools r) (sizes r) (ints r) (update (strings r) f s) (lists r) (logicalSessionTimeoutMinutes r).
Definition push_string (f : list_field) (s : text) (r : handshake_response) : handshake_response :=
  mk_response (bools r) (sizes r) (ints r) (strings r) (update (lists r) f (lists r f ++ [s]))
    (logicalSessionTimeoutMinutes r).

(** ** The rules of [handshake_response::parse] *)

(** The response under construction. *)
Abbreviation partial := (stored handshake_response).

Definition store_bool (f : bool_field) : rule partial element :=
  store as_bool (fun b => modify (set_bool f b)).

Definition store_size (f : size_field) : rule partial element := fun el s =>
  (on (fun h => let* (_, z) := bson_value_as_int64 (snd el) in Done (inr (set_size f (u64 z) h))) s,
   basic_result accept None).

(** [integer(store(x))]: the value is converted to the type of [x]; a [string] is
    assigned the one character it converts to. *)
Definition store_int (f : int_field) : rule partial element :=
  integer (action (fun z => modify (set_int f (s32 z)))).
Definition store_flag (f : bool_field) : rule partial element :=
  integer (action (fun z => modify (set_bool f (negb (z =? 0))))).
Definition store_char (f : string_field) : rule partial element :=
  integer (action (fun z => modify (set_string f [z2b (z mod 256)]))).

Definition store_string (f : string_field) : rule partial element :=
  type_rule as_utf8 (action (fun sv => modify (set_string f sv))).

Definition append_strings (f : list_field) : rule partial element :=
  type_rule as_array
    (each_in (type_rule as_utf8 (fun sv s => (modify (push_string f sv) s, basic_result accept None)))).

(** The fields in their order, with the rule for each value. *)
Record hello_field : Type := mk_field { n_key : text; n_required : bool; n_rule : rule partial element }.

Definition req (key : string) (r : rule partial element) : hello_field := mk_field (lit key) true r.
Definition opt (key : string) (r : rule partial element) : hello_field := mk_field (lit key) false r.

Definition hello_fields : list hello_field := [
  req "isWritablePrimary" (store_bool isWritablePrimary);
  req "topologyVersion" just_accept;
  req "maxBsonObjectSize" (must (store_size maxBsonObjectSize));
  req "maxMessageSizeBytes" (must (store_size maxMessageSizeBytes));
  req "maxWriteBatchSize" (must (store_size maxWriteBatchSize));
  req "localTime" just_accept;
  req "logicalSessionTimeoutMinutes" just_accept;
  req "connectionId" (must (store_int connectionId));
  req "minWireVersion" (must (store_int minWireVersion));
  req "maxWireVersion" (must (store_int maxWireVersion));
  req "readOnly" (must (store_bool readOnly));
  opt "compression" (must (append_strings compression));
  opt "saslSupportedMechs" (must (append_strings saslSupportedMechs));
  opt "hosts" (must (append_strings hosts));
  opt "setName" (must (store_string setName));
  opt "setVersion" (must (store_string setVersion));
  opt "secondary" (must (store_char setVersion));
  opt "secondary" (must (store_char setVersion));
  opt "passives" (must (append_strings passives));
  opt "arbiters" (must (append_strings arbiters));
  opt "primary" (must (store_string primary));
  opt "arbiterOnly" (must (store_flag arbiterOnly));
  opt "passive" (must (store_flag passive));
  opt "hidden" (must (store_flag hidden));
  opt "me" (must (store_string me));
  opt "electionId" (must (store_string electionId));
  opt "msg" (must (store_string msg)) ]%string.

(** [require(key, rule)] and [field(key, rule)] as parts of [doc]. *)
Definition named_part (f : hello_field) : part partial :=
  if n_required f
  then part_must (field (n_key f) (n_rule f)) (lit "element ‘" ++ n_key f ++ lit "’ not found")
  else part_rule (field (n_key f) (n_rule f)).

Definition hello_rule : rule partial (list element) :=
  doc (map named_part hello_fields ++ [part_rule just_accept]).

(** [handshake_response::parse]. *)
Definition parse (reply : list element) : outcome (parse_exn + handshake_response) :=
  let (s, r) := must_parse reply hello_rule (Done (inr new_response)) in
  let* ret := s in
  match ret, r with
  | inl e, _ => Done (inl e)
  | inr _, inr what => Done (inl (parse_error what))
  | inr ret, inl _ => Done (inr ret)
  end.

(** ** Concrete replies *)

Definition strings_array (l : list string) : bson_value_ref :=
  v_array (Some (encode_doc (imap (fun i s => ([z2b (48 + Z.of_nat i)], v_utf8 (lit s))) l))).

Definition standalone : list element := [
  (lit "isWritablePrimary", v_bool true); (lit "topologyVersion", v_document (Some (encode_doc [])));
  (lit "maxBsonObjectSize", v_int32 16777216); (lit "maxMessageSizeBytes", v_int32 48000000);
  (lit "maxWriteBatchSize", v_int32 100000); (lit "localTime", v_datetime 0);
  (lit "logicalSessionTimeoutMinutes", v_int32 30); (lit "connectionId", v_int32 11);
  (lit "minWireVersion", v_int32 0); (lit "maxWireVersion", v_int32 21); (lit "readOnly", v_bool false);
  (lit "ok", v_double 4607182418800017408) ].
