(* ===== verification/HandshakeSpec.v ===== *)
(** * What the parse of a handshake reply gives

    Documents with named fields whose rules may err, an abstract table of the
    fields of the reply, and that the parse of [Handshake.v] agrees with it. *)
From Stdlib Require Import ZArith Lia.
From Stdlib Require Import Strings.Byte Strings.String.
From stdpp Require Import base numbers list sets.
From S2P Require Import Prelude.
From S2P Require Import Mem.
From S2P Require Import Types.
From S2P Require Import Value.
From S2P Require Import Iterator.
From S2P Require Import IteratorSafe.
From S2P Require Import Codec.
From S2P Require Import Parse.
From S2P Require Import Reply.
From S2P Require Import Handshake.
Open Scope Z_scope.

(** ** Documents with named fields that may err

    A field whose rule gives an error ends the parse; fields may share a key. *)

Definition started : partial := Done (inr new_response).

(** The state of the rule of a field on an element, when it does not depend on
    the store. *)
Definition verdict (f : hello_field) (el : element) : pstate := state (snd (n_rule f el started)).
Definition steady (el : element) (f : hello_field) : Prop := forall s, state (snd (n_rule f el s)) = verdict f el.

Definition hit (f : hello_field) (el : element) : bool :=
  bool_decide (fst el = n_key f) && bool_decide (verdict f el = accept).

(** An element against the fields with its key, up to the first that does not
    reject it. *)
Fixpoint offers (fs : list hello_field) (el : element) (s : partial) : partial * pstate :=
  match fs with
  | [] => (s, reject)
  | f :: fs =>
      if bool_decide (fst el = n_key f) then
        let (s, r) := n_rule f el s in
        if decide (state r = reject) then offers fs el s else (s, state r)
      else offers fs el s
  end.

Definition bad (fs : list hello_field) (el : element) : bool :=
  bool_decide (snd (offers fs el started) = error).

(** A required field shares its key with no other. *)
Fixpoint ordered (fs : list hello_field) : bool :=
  match fs with
  | [] => true
  | f :: fs =>
      forallb (fun g => negb (n_required f || n_required g) || negb (bool_decide (n_key g = n_key f))) fs && ordered fs
  end.

(** The state of the part of a field, after the elements [seen] and before [rem]. *)
Definition tracked (seen rem : list element) (f : hello_field) (ps : part partial * part_state) : Prop :=
  fst ps = named_part f /\ did_error (snd ps) = false /\
  (n_key f ∈ map fst rem -> done_ok (snd ps) = false) /\
  (n_required f = true -> done_ok (snd ps) = existsb (hit f) seen).

Lemma offers_steady fs el s : Forall (steady el) fs -> snd (offers fs el s) = snd (offers fs el started).
Proof.
  assert (forall s s', Forall (steady el) fs -> snd (offers fs el s) = snd (offers fs el s')) as H; [|by apply H].
  clear s. induction fs as [|f fs IH]; intros s s' Hs; [done|]. apply Forall_cons in Hs as [Hf Hs]. simpl.
  case_bool_decide; [|by apply IH]. pose proof (Hf s) as H1. pose proof (Hf s') as H2.
  destruct (n_rule f el s) as [s1 r1], (n_rule f el s') as [s2 r2]. simpl in *. rewrite H1, H2.
  destruct (decide _); [by apply IH | done].
Qed.

(** No field has the key of the element. *)
Lemma offers_foreign fs el s : Forall (fun f => fst el <> n_key f) fs -> offers fs el s = (s, reject).
Proof. induction 1 as [|f fs Hf _ IH]; [done|]. simpl. by rewrite bool_decide_eq_false_2. Qed.

Lemma tracked_skip seen el rem f p st st' :
  tracked seen (el :: rem) f (p, st) -> did_error st' = did_error st -> done_ok st' = done_ok st ->
  (n_required f = true -> hit f el = false) -> tracked (seen ++ [el]) rem f (p, st').
Proof.
  intros (E & He & Ho & Hr) E1 E2 Hh. unfold tracked. simpl in *. rewrite E1, E2. split_and!; try done.
  - intros Hin. apply Ho. set_solver.
  - intros Hq. rewrite existsb_app, (Hr Hq). simpl. by rewrite (Hh Hq), !orb_false_r.
Qed.

Lemma hit_foreign f el : fst el <> n_key f -> hit f el = false.
Proof. intros H. unfold hit. by rewrite bool_decide_eq_false_2. Qed.

(** The part of a field on an element whose key it does not have. *)
Lemma handle_foreign f st el s : fst el <> n_key f ->
  exists st', handle_element (named_part f) st el s = (s, st', reject) /\
    did_error st' = did_error st /\ done_ok st' = done_ok st.
Proof.
  intros Hk. assert (handle_element (named_part f) st el s = handle_rule (field (n_key f) (n_rule f)) st el s) as ->
    by (unfold named_part; by destruct (n_required f)).
  unfold handle_rule, field. rewrite bool_decide_eq_false_2 by done. destruct (done_ok st) eqn:E; simpl; eauto.
  eexists. split; [done|]. simpl. by rewrite orb_false_r.
Qed.

(** The part of an open field on an element with its key. *)
Lemma handle_match f st el s : fst el = n_key f -> done_ok st = false -> did_error st = false -> steady el f ->
  exists st', handle_element (named_part f) st el s = (fst (n_rule f el s), st', verdict f el) /\
    did_error st' = bool_decide (verdict f el = error) /\ done_ok st' = bool_decide (verdict f el = accept).
Proof.
  intros Hk Hd He Hs. assert (handle_element (named_part f) st el s = handle_rule (field (n_key f) (n_rule f)) st el s) as ->
    by (unfold named_part; by destruct (n_required f)).
  unfold handle_rule, field. rewrite Hd, bool_decide_eq_true_2 by done. simpl. specialize (Hs s).
  destruct (n_rule f el s) as [s1 [x t]]. simpl in *. subst x.
  destruct (verdict f el); simpl; eexists; (split; [done|]); simpl; by rewrite ?He.
Qed.

Lemma ordered_cons f fs : ordered (f :: fs) = true ->
  (forall g, g ∈ fs -> n_required f = true \/ n_required g = true -> n_key g <> n_key f) /\ ordered fs = true.
Proof.
  simpl. intros [Hf Ho]%andb_true_iff. split; [|done]. intros g Hg Hr. rewrite forallb_forall in Hf.
  specialize (Hf g (proj1 (list_elem_of_In _ _) Hg)). apply orb_true_iff in Hf as [Hf|Hf].
  - by destruct Hr as [Hr|Hr]; rewrite Hr in Hf; destruct (n_required f).
  - apply negb_true_iff in Hf. by apply bool_decide_eq_false in Hf.
Qed.

(** The parts that an element does not reach. *)
Lemma tracked_rest seen el rem fs parts :
  (forall g, g ∈ fs -> n_required g = true -> fst el <> n_key g) ->
  Forall2 (tracked seen (el :: rem)) fs parts -> Forall2 (tracked (seen ++ [el]) rem) fs parts.
Proof.
  intros Hk Ht. induction Ht as [|f [p st] fs parts Hf Ht IH]; constructor.
  - apply (tracked_skip _ _ _ _ _ st); try done. intros Hr. apply hit_foreign, Hk; [set_solver | done].
  - apply IH. intros g Hg. apply Hk. set_solver.
Qed.

Lemma final_error_part f st : did_error st = true -> final_is error (named_part f, st) = true.
Proof. intros H. unfold final_is, named_part. simpl. by destruct (n_required f); simpl; rewrite H. Qed.

Lemma offer_named el rem seen fs : ordered fs = true -> Forall (steady el) fs -> fst el ∉ map fst rem ->
  forall parts sfx s, Forall2 (tracked seen (el :: rem)) fs parts ->
  exists parts',
    offer (parts ++ sfx) el s =
      (let (s1, v) := offers fs el s in
       if decide (v = reject) then let '(s2, sfx', m) := offer sfx el s1 in (s2, parts' ++ sfx', m)
       else (s1, parts' ++ sfx, v)) /\
    (if decide (snd (offers fs el s) = error) then existsb (final_is error) parts' = true
     else Forall2 (tracked (seen ++ [el]) rem) fs parts').
Proof.
  intros Ho Hs Hni. induction fs as [|f fs IH]; intros parts sfx s Ht; inversion_clear Ht.
  { exists []. simpl. split; [by destruct (offer sfx el s) as [[? ?] ?] | constructor]. }
  rename H into Hf, H0 into Ht, y into ps, l' into parts'. destruct ps as [p st].
  apply ordered_cons in Ho as [Hk Ho]. apply Forall_cons in Hs as [Hsf Hs].
  destruct (Hf) as (E & He & Hop & Hr). simpl in E, He, Hop, Hr. subst p. simpl.
  destruct (decide (fst el = n_key f)) as [Hkey|Hkey].
  - rewrite bool_decide_eq_true_2 by done.
    destruct (handle_match f st el s Hkey) as (st' & -> & Ee & Ed); [apply Hop; set_solver | done | done |].
    pose proof (Hsf s) as Hv. destruct (n_rule f el s) as [s1 r]. simpl in *. rewrite Hv.
    destruct (verdict f el) eqn:Ev; simpl.
    + destruct (IH Ho Hs parts' sfx s1 Ht) as (parts2 & E2 & H2). exists ((named_part f, st') :: parts2).
      rewrite E2. split.
      { destruct (offers fs el s1) as [s2 v]. destruct (decide (v = reject)); [|done].
        by destruct (offer sfx el s2) as [[? ?] ?]. }
      destruct (decide (snd (offers fs el s1) = error)); [simpl; rewrite H2; by rewrite orb_true_r|].
      constructor; [|done]. apply (tracked_skip _ _ _ _ _ st); try done.
      * by rewrite Ee, He.
      * rewrite Ed. symmetry. apply Hop. set_solver.
      * intros _. unfold hit. by rewrite Ev, andb_false_r.
    + exists ((named_part f, st') :: parts'). split; [done|]. constructor.
      * unfold tracked. simpl. split_and!; [done | by rewrite Ee | by intros ?; rewrite <- Hkey in * |].
        intros _. rewrite Ed, existsb_app. simpl. unfold hit. rewrite Ev, bool_decide_eq_true_2 by done.
        by rewrite orb_true_r.
      * apply tracked_rest; [|done]. intros g Hg Hg'. rewrite Hkey. intros Eg. by apply (Hk g Hg (or_intror Hg')).
    + exists ((named_part f, st') :: parts'). split; [done|]. simpl. rewrite final_error_part; [done|]. by rewrite Ee.
  - rewrite bool_decide_eq_false_2 by done.
    destruct (handle_foreign f st el s Hkey) as (st' & -> & Ee & Ed). simpl.
    destruct (IH Ho Hs parts' sfx s Ht) as (parts2 & E2 & H2). exists ((named_part f, st') :: parts2).
    rewrite E2. split.
    { destruct (offers fs el s) as [s2 v]. destruct (decide (v = reject)); [|done].
      by destruct (offer sfx el s2) as [[? ?] ?]. }
    destruct (decide (snd (offers fs el s) = error)); [simpl; rewrite H2; by rewrite orb_true_r|].
    constructor; [|done]. apply (tracked_skip _ _ _ _ _ st); try done. intros _. by apply hit_foreign.
Qed.

(** The catch-all part. *)
Definition anything (st : part_state) : list (part partial * part_state) := [(part_rule just_accept, st)].

Lemma offer_anything st el s : did_error st = false ->
  exists st' m, offer (anything st) el s = (s, anything st', m) /\ m <> error /\ did_error st' = false.
Proof.
  intros He. unfold anything. simpl. unfold handle_rule. destruct (done_ok st); simpl; [by eexists _, _|].
  eexists _, _. split; [done|]. by rewrite He.
Qed.

(** When every field is fulfilled, the elements that are left match none. *)
Lemma all_done seen rem fs parts : Forall2 (tracked seen rem) fs parts ->
  forallb (fun ps => done_looking (fst ps) (snd ps)) parts = true ->
  forall el, el ∈ rem -> Forall (fun f => fst el <> n_key f) fs.
Proof.
  intros Ht Hd el Hel. induction Ht as [|f [p st] fs parts (E & _ & Ho & _) Ht IH]; [done|]. simpl in *. subst p.
  apply andb_true_iff in Hd as [Hd Hds]. constructor; [|by apply IH]. intros Hk.
  assert (done_ok st = true) as Hdo by (unfold named_part in Hd; by destruct (n_required f)).
  rewrite Ho in Hdo; [done|]. rewrite <- Hk. by apply list_elem_of_fmap_2.
Qed.

Definition effects (fs : list hello_field) (es : list element) (s : partial) : partial :=
  fold_left (fun s el => fst (offers fs el s)) es s.

Lemma effects_foreign fs es s :
  (forall el, el ∈ es -> Forall (fun f => fst el <> n_key f) fs) ->
  effects fs es s = s /\ existsb (bad fs) es = false /\ forall f, f ∈ fs -> existsb (hit f) es = false.
Proof.
  revert s. induction es as [|el es IH]; intros s He; [done|].
  assert (Forall (fun f => fst el <> n_key f) fs) as Hel by (apply He; set_solver).
  destruct (IH s) as (E1 & E2 & E3); [intros; apply He; set_solver|]. unfold effects in *. simpl. split_and!.
  - by rewrite offers_foreign.
  - rewrite E2, orb_false_r. unfold bad. by rewrite offers_foreign.
  - intros f Hf. rewrite (E3 f Hf), orb_false_r. rewrite Forall_forall in Hel. by apply hit_foreign, Hel.
Qed.

Lemma tracked_end seen rem fs parts : (forall f, f ∈ fs -> existsb (hit f) rem = false) ->
  Forall2 (tracked seen rem) fs parts -> Forall2 (tracked (seen ++ rem) []) fs parts.
Proof.
  intros Hn Ht. induction Ht as [|f ps fs parts (E & He & Ho & Hr) Ht IH]; constructor.
  - split_and!; try done; [by intros ?%elem_of_nil|]. intros Hq.
    rewrite existsb_app, (Hn f), orb_false_r by set_solver. by apply Hr.
  - apply IH. intros g Hg. apply Hn. set_solver.
Qed.

Lemma parse_named fs : ordered fs = true -> forall rem seen parts st s,
  Forall (fun el => Forall (steady el) fs) rem -> NoDup (map fst rem) ->
  Forall2 (tracked seen rem) fs parts -> did_error st = false ->
  exists s' parts' st', parse_loop (parts ++ anything st) rem s = (s', parts' ++ anything st') /\
    did_error st' = false /\
    (if existsb (bad fs) rem then existsb (final_is error) parts' = true
     else s' = effects fs rem s /\ Forall2 (tracked (seen ++ rem) []) fs parts').
Proof.
  intros Ho. induction rem as [|el rem IH]; intros seen parts st s Hs Hnd Ht He.
  { exists s, parts, st. split; [done|]. split; [done|]. by rewrite app_nil_r. }
  cbn [parse_loop]. destruct (forallb _ (parts ++ anything st)) eqn:Ed.
  - rewrite forallb_app in Ed. apply andb_true_iff in Ed as [Ed _].
    destruct (effects_foreign fs (el :: rem) s (all_done _ _ _ _ Ht Ed)) as (E1 & E2 & E3).
    exists s, parts, st. rewrite E1, E2. do 3 (split; [done|]). by apply tracked_end.
  - apply Forall_cons in Hs as [Hs Hss]. apply NoDup_cons in Hnd as [Hni Hnd].
    destruct (offer_named el rem seen fs Ho Hs Hni parts (anything st) s Ht) as (parts1 & -> & H1).
    pose proof (offers_steady fs el s Hs) as Hv. unfold effects. cbn [fold_left existsb].
    unfold bad at 1. rewrite <- Hv. destruct (offers fs el s) as [s1 v]. cbn [fst snd] in *.
    destruct (decide (v = error)) as [->|Hne].
    + exists s1, parts1, st. by rewrite bool_decide_eq_true_2.
    + rewrite bool_decide_eq_false_2 by done. cbn [orb].
      assert (exists st1 m, (if decide (v = reject)
          then let '(s2, sfx', m) := offer (anything st) el s1 in (s2, parts1 ++ sfx', m)
          else (s1, parts1 ++ anything st, v)) = (s1, parts1 ++ anything st1, m) /\ m <> error /\ did_error st1 = false)
        as (st1 & m & -> & Hm & He1).
      { destruct (decide (v = reject)); [|by exists st, v].
        destruct (offer_anything st el s1 He) as (st1 & m & -> & Hm & He1). by exists st1, m. }
      destruct (decide (m = error)); [done|].
      destruct (IH (seen ++ [el]) parts1 st1 s1 Hss Hnd H1 He1) as (s' & parts' & st' & -> & He' & Hend).
      exists s', parts', st'. do 2 (split; [done|]). by rewrite <- app_assoc in Hend.
Qed.

Lemma tracked_start fs es : Forall2 (tracked [] es) fs (map (fun p => (p, part_init)) (map named_part fs)).
Proof. induction fs as [|f fs IH]; constructor; [done | exact IH]. Qed.

(** The state of the whole, after all elements. *)
Lemma named_final es fs parts st : Forall2 (tracked es []) fs parts -> did_error st = false ->
  state (final_result (parts ++ anything st)) =
    if forallb (fun f => negb (n_required f) || existsb (hit f) es) fs then accept else reject.
Proof.
  intros Ht He. assert (forall s, existsb (final_is s) (parts ++ anything st) =
      bool_decide (s = accept) ||
      existsb (fun f => bool_decide ((if n_required f && negb (existsb (hit f) es) then reject else accept) = s)) fs) as Hf.
  { intros s. rewrite existsb_app, orb_comm. f_equal.
    - simpl. rewrite orb_false_r. unfold final_is. simpl. rewrite He. apply bool_decide_ext. split; congruence.
    - induction Ht as [|f [p st'] fs parts (E & Ee & _ & Hr) Ht IH]; [done|]. simpl in *. rewrite IH. f_equal. subst p.
      unfold final_is, named_part. simpl.
      destruct (n_required f); simpl; rewrite Ee; [rewrite Hr by done; by destruct (existsb _ es) | done]. }
  rewrite final_result_state; rewrite Hf; simpl.
  - clear. induction fs as [|f fs IH]; [done|]. simpl. destruct (n_required f), (existsb (hit f) es); simpl; done.
  - apply existsb_const_false. intros f. by destruct (_ && _).
Qed.

Lemma doc_named fs es s : ordered fs = true -> Forall (fun el => Forall (steady el) fs) es -> NoDup (map fst es) ->
  let res := doc (map named_part fs ++ [part_rule just_accept]) es s in
  state (snd res) = (if existsb (bad fs) es then error
    else if forallb (fun f => negb (n_required f) || existsb (hit f) es) fs then accept else reject) /\
  (existsb (bad fs) es = false -> fst res = effects fs es s).
Proof.
  intros Ho Hs Hnd. unfold doc. rewrite map_app. cbn [map].
  destruct (parse_named fs Ho es [] _ part_init s Hs Hnd (tracked_start fs es) eq_refl) as (s' & parts' & st' & E & He & Hend).
  unfold anything in E at 1. rewrite E. cbn [fst snd]. destruct (existsb (bad fs) es).
  - split; [|done]. unfold final_result. simpl. by rewrite existsb_app, Hend.
  - destruct Hend as [-> Hend]. split; [|done]. by apply named_final.
Qed.

(** ** The store stays a response *)

Definition is_response (s : partial) : Prop := exists h, s = Done (inr h).

Definition keeps (el : element) (p : part partial) : Prop :=
  match p with
  | part_rule r | part_must r _ => forall s, is_response s -> is_response (fst (r el s))
  | part_reject_others => True
  end.

Lemma offer_keeps el parts s : is_response s -> Forall (fun ps => keeps el (fst ps)) parts ->
  is_response (fst (fst (offer parts el s))) /\ map fst (snd (fst (offer parts el s))) = map fst parts.
Proof.
  revert s. induction parts as [|[p st] parts IH]; intros s Hs Hp; [done|]. apply Forall_cons in Hp as [Hp Hps]. simpl.
  assert (is_response (fst (fst (handle_element p st el s)))) as H1.
  { destruct p as [r|r t|]; simpl in *; try done; unfold handle_rule; destruct (done_ok st); try done;
      specialize (Hp s Hs); destruct (r el s) as [s1 x]; simpl in *; by destruct (decide _). }
  destruct (handle_element p st el s) as [[s1 st1] res]. simpl in H1. destruct (decide (res = reject)); [|done].
  specialize (IH s1 H1 Hps). destruct (offer parts el s1) as [[s2 parts2] m]. simpl in *.
  destruct IH as [? ->]. done.
Qed.

Lemma parse_loop_keeps es parts s : is_response s -> Forall (fun el => Forall (keeps el) (map fst parts)) es ->
  is_response (fst (parse_loop parts es s)).
Proof.
  revert parts s. induction es as [|el es IH]; intros parts s Hs Hk; [done|]. apply Forall_cons in Hk as [Hel Hk]. simpl.
  destruct (forallb _ parts); [done|].
  destruct (offer_keeps el parts s Hs) as [H1 E1]; [by rewrite Forall_map in Hel|].
  destruct (offer parts el s) as [[s1 parts1] m]. simpl in *. destruct (decide (m = error)); [done|].
  apply IH; [done|]. by rewrite E1.
Qed.

(** ** Arrays of strings *)

(** The strings of the elements, when they are nothing else. *)
Definition all_strings (es : list element) : option (list text) := mapM (fun kv => as_utf8 (snd kv)) es.

(** The strings of an array value, when it holds nothing else. *)
Definition strings_of (v : bson_value_ref) : option (list text) :=
  match v with
  | v_array (Some d) =>
      match read_elements (loop_fuel (zlen d)) (mk_block 16 d) 16 with
      | Done (Some es) => all_strings es
      | _ => None
      end
  | _ => None
  end.

Lemma strings_of_encoded es : holdable es ->
  strings_of (v_array (Some (encode_doc es))) = all_strings es.
Proof.
  intros (Hwf & Hr & Hmax). unfold strings_of.
  by rewrite (read_loop _ (mk_block 16 (encode_doc es)) 16 es eq_refl (bytes_at_whole _) Hwf Hr Hmax (length_elements es)).
Qed.

Definition push_strings (f : list_field) (l : list text) (h : handshake_response) : handshake_response :=
  fold_left (fun h s => push_string f s h) l h.

Lemma each_strings f es : let r := type_rule as_utf8 (fun sv s => (modify (push_string f sv) s, basic_result accept None)) in
  forall s, state (snd (each r es s)) = (if all_strings es then accept else reject) /\
    (is_response s -> is_response (fst (each r es s))) /\
    (forall h l, s = Done (inr h) -> all_strings es = Some l ->
       fst (each r es s) = Done (inr (push_strings f l h))).
Proof.
  intros r. induction es as [|[k v] es IH]; intros s.
  { simpl. split_and!; [done | done |]. by intros h l -> [= <-]. }
  assert (all_strings ((k, v) :: es) = match as_utf8 v with
    | Some sv => match all_strings es with Some l => Some (sv :: l) | None => None end | None => None end) as -> by done.
  cbn [each]. unfold r at 1 3 5, type_rule. cbn [snd]. destruct (as_utf8 v) as [sv|]; [|by split_and!].
  cbv beta iota zeta. change (did_accept (basic_result accept None)) with true. cbn [negb].
  destruct (IH (modify (push_string f sv) s)) as (E & Hk & Hl). rewrite E. split_and!.
  - by destruct (all_strings es).
  - intros [h ->]. apply Hk. by eexists.
  - intros h l -> Hm. destruct (all_strings es) as [l'|]; [|done]. injection Hm as <-. by apply (Hl _ l').
Qed.

(** ** The fields of a reply, abstractly *)

(** What a field holds and where it goes. *)
Inductive kind : Type :=
| any_value
| a_bool (f : bool_field)
| a_size (f : size_field)
| an_int (f : int_field)
| a_flag (f : bool_field)
| a_char (f : string_field)
| a_string (f : string_field)
| some_strings (f : list_field).

Definition number_of (v : bson_value_ref) : Z := match bson_value_as_int64 v with Done (_, z) => z | _ => 0 end.

Definition accepts (k : kind) (v : bson_value_ref) : bool :=
  match k with
  | any_value | a_size _ => true
  | a_bool _ => if as_bool v then true else false
  | an_int _ | a_flag _ | a_char _ => if int_of v then true else false
  | a_string _ => if as_utf8 v then true else false
  | some_strings _ => if strings_of v then true else false
  end.

Definition assign (k : kind) (v : bson_value_ref) (h : handshake_response) : handshake_response :=
  match k with
  | any_value => h
  | a_bool f => from_option (fun b => set_bool f b h) h (as_bool v)
  | a_size f => set_size f (u64 (number_of v)) h
  | an_int f => from_option (fun z => set_int f (s32 z) h) h (int_of v)
  | a_flag f => from_option (fun z => set_bool f (negb (z =? 0)) h) h (int_of v)
  | a_char f => from_option (fun z => set_string f [z2b (z mod 256)] h) h (int_of v)
  | a_string f => from_option (fun s => set_string f s h) h (as_utf8 v)
  | some_strings f => from_option (fun l => push_strings f l h) h (strings_of v)
  end.

Definition rule_of (k : kind) : rule partial element :=
  match k with
  | any_value => just_accept
  | a_bool f => store_bool f
  | a_size f => store_size f
  | an_int f => store_int f
  | a_flag f => store_flag f
  | a_char f => store_char f
  | a_string f => store_string f
  | some_strings f => append_strings f
  end.

(** The values that the rules can look at: arrays whose bytes are encoded
    elements, numbers that fit. *)
Definition sound (v : bson_value_ref) : Prop :=
  match v with
  | v_array d => exists es, d = Some (encode_doc es) /\ holdable es
  | v_double d => exists z, double_to_int64 d = Done z
  | _ => True
  end.

Lemma as_int64_sound v : sound v -> exists b, bson_value_as_int64 v = Done (b, number_of v).
Proof.
  unfold number_of. intros Hv. destruct v; try (by eexists). destruct Hv as [z E]. exists true.
  unfold bson_value_as_int64. by rewrite E.
Qed.

Lemma append_strings_spec f k v s : sound v ->
  state (snd (append_strings f (k, v) s)) = (if strings_of v then accept else reject) /\
  (is_response s -> is_response (fst (append_strings f (k, v) s))) /\
  (forall h l, s = Done (inr h) -> strings_of v = Some l ->
     fst (append_strings f (k, v) s) = Done (inr (push_strings f l h))).
Proof.
  intros Hv. unfold append_strings. destruct v as [| | | |d| | | | | | | | | | | | | | | | | |]; try by split_and!.
  destruct Hv as (es & -> & Hh). rewrite strings_of_encoded by done.
  unfold type_rule at 1 3 5. cbn [snd as_array]. rewrite each_in_encoded by done. apply each_strings.
Qed.

Lemma integer_spec (g : Z -> handshake_response -> handshake_response) k v s :
  let r := integer (action (fun z => modify (g z))) in
  state (snd (r (k, v) s)) = (if int_of v then accept else reject) /\
  (is_response s -> is_response (fst (r (k, v) s))) /\
  (forall h z, s = Done (inr h) -> int_of v = Some z -> fst (r (k, v) s) = Done (inr (g z h))).
Proof.
  unfold integer. destruct v; simpl; split_and!; try done; try (intros [h ->]; by eexists); by intros h x -> [= ->].
Qed.

(** The rules do what the table says. *)
Lemma rule_spec k key v s : sound v ->
  state (snd (rule_of k (key, v) s)) = (if accepts k v then accept else reject) /\
  (is_response s -> is_response (fst (rule_of k (key, v) s))) /\
  (forall h, s = Done (inr h) -> accepts k v = true ->
     fst (rule_of k (key, v) s) = Done (inr (assign k v h))).
Proof.
  intros Hv. destruct k; cbn [rule_of accepts assign].
  - split_and!; [done | done |]. by intros h ->.
  - unfold store_bool, store, type_rule. simpl. destruct (as_bool v); split_and!; try done.
    + intros [h ->]. by eexists.
    + by intros h -> _.
  - destruct (as_int64_sound v Hv) as [b E]. unfold store_size. split_and!; [done | |]; simpl.
    + intros [h ->]. simpl. rewrite E. by eexists.
    + intros h -> _. simpl. by rewrite E.
  - destruct (integer_spec (fun z => set_int f (s32 z)) key v s) as (E & Hk & Hl). split_and!; [|done|].
    + etransitivity; [exact E|]. by destruct (int_of v).
    + intros h -> Ha. destruct (int_of v) as [z|]; [|done]. by apply (Hl h z).
  - destruct (integer_spec (fun z => set_bool f (negb (z =? 0))) key v s) as (E & Hk & Hl). split_and!; [|done|].
    + etransitivity; [exact E|]. by destruct (int_of v).
    + intros h -> Ha. destruct (int_of v) as [z|]; [|done]. by apply (Hl h z).
  - destruct (integer_spec (fun z => set_string f [z2b (z mod 256)]) key v s) as (E & Hk & Hl). split_and!; [|done|].
    + etransitivity; [exact E|]. by destruct (int_of v).
    + intros h -> Ha. destruct (int_of v) as [z|]; [|done]. by apply (Hl h z).
  - unfold store_string, type_rule. simpl. destruct (as_utf8 v); split_and!; try done.
    + intros [h ->]. by eexists.
    + by intros h -> _.
  - destruct (append_strings_spec f key v s Hv) as (E & Hk & Hl). split_and!; [|done|].
    + rewrite E. by destruct (strings_of v).
    + intros h -> Ha. destruct (strings_of v) as [l|]; [|done]. by apply (Hl h l).
Qed.

(** A field: its key, whether it is required, whether a value of the wrong kind is
    an error, its kind. *)
Record entry : Type := mk_entry { e_key : string; e_required : bool; e_hard : bool; e_kind : kind }.

Definition hello_table : list entry := [
  mk_entry "isWritablePrimary" true false (a_bool isWritablePrimary);
  mk_entry "topologyVersion" true false any_value;
  mk_entry "maxBsonObjectSize" true true (a_size maxBsonObjectSize);
  mk_entry "maxMessageSizeBytes" true true (a_size maxMessageSizeBytes);
  mk_entry "maxWriteBatchSize" true true (a_size maxWriteBatchSize);
  mk_entry "localTime" true false any_value;
  mk_entry "logicalSessionTimeoutMinutes" true false any_value;
  mk_entry "connectionId" true true (an_int connectionId);
  mk_entry "minWireVersion" true true (an_int minWireVersion);
  mk_entry "maxWireVersion" true true (an_int maxWireVersion);
  mk_entry "readOnly" true true (a_bool readOnly);
  mk_entry "compression" false true (some_strings compression);
  mk_entry "saslSupportedMechs" false true (some_strings saslSupportedMechs);
  mk_entry "hosts" false true (some_strings hosts);
  mk_entry "setName" false true (a_string setName);
  mk_entry "setVersion" false true (a_string setVersion);
  mk_entry "secondary" false true (a_char setVersion);
  mk_entry "secondary" false true (a_char setVersion);
  mk_entry "passives" false true (some_strings passives);
  mk_entry "arbiters" false true (some_strings arbiters);
  mk_entry "primary" false true (a_string primary);
  mk_entry "arbiterOnly" false true (a_flag arbiterOnly);
  mk_entry "passive" false true (a_flag passive);
  mk_entry "hidden" false true (a_flag hidden);
  mk_entry "me" false true (a_string me);
  mk_entry "electionId" false true (a_string electionId);
  mk_entry "msg" false true (a_string msg) ]%string.

Definition field_of (e : entry) : hello_field :=
  mk_field (lit (e_key e)) (e_required e) (if e_hard e then must (rule_of (e_kind e)) else rule_of (e_kind e)).

Lemma hello_fields_table : hello_fields = map field_of hello_table.
Proof. reflexivity. Qed.

Definition find_entry (T : list entry) (k : text) : option entry :=
  List.find (fun e => bool_decide (k = lit (e_key e))) T.

Lemma field_state e k v s : sound v ->
  state (snd (n_rule (field_of e) (k, v) s)) =
    (if accepts (e_kind e) v then accept else if e_hard e then error else reject) /\
  (is_response s -> is_response (fst (n_rule (field_of e) (k, v) s))) /\
  (forall h, s = Done (inr h) -> accepts (e_kind e) v = true ->
     fst (n_rule (field_of e) (k, v) s) = Done (inr (assign (e_kind e) v h))).
Proof.
  intros Hv. destruct (rule_spec (e_kind e) k v s Hv) as (E & Hk & Ha). unfold field_of. simpl.
  destruct (e_hard e); [unfold must|]; [|by rewrite E].
  destruct (rule_of (e_kind e) (k, v) s) as [s1 r]. simpl in *. rewrite E. split_and!; try done.
  by destruct (accepts _ _).
Qed.

Lemma field_steady e el : sound (snd el) -> steady el (field_of e).
Proof.
  intros Hv s. unfold verdict. destruct el as [k v]. by rewrite !(proj1 (field_state e k v _ Hv)).
Qed.

Lemma field_verdict e el : sound (snd el) ->
  verdict (field_of e) el = if accepts (e_kind e) (snd el) then accept else if e_hard e then error else reject.
Proof. intros Hv. destruct el as [k v]. by apply field_state. Qed.

Lemma find_entry_some T k e : find_entry T k = Some e -> e ∈ T /\ k = lit (e_key e).
Proof.
  intros [Hin Hk]%find_some. split; [by apply list_elem_of_In | by apply bool_decide_eq_true in Hk].
Qed.

Lemma find_entry_key T k e : e ∈ T -> k = lit (e_key e) -> is_Some (find_entry T k).
Proof.
  intros Hin Hk. destruct (find_entry T k) as [e'|] eqn:E; [done|]. exfalso.
  apply list_elem_of_In in Hin. pose proof (find_none _ _ E e Hin) as Hn. by apply bool_decide_eq_false in Hn.
Qed.

(** A value of the wrong kind that is no error is that of a required field. *)
Definition strict (T : list entry) : Prop := Forall (fun e => e_hard e = true \/ e_required e = true) T.

Lemma offers_table T el s : ordered (map field_of T) = true -> strict T -> sound (snd el) ->
  offers (map field_of T) el s =
    match find_entry T (fst el) with
    | Some e => (fst (n_rule (field_of e) el s), verdict (field_of e) el)
    | None => (s, reject)
    end.
Proof.
  intros Ho Ht Hv. induction T as [|e T IH]; [done|]. apply Forall_cons in Ht as [He Ht].
  cbn [map] in Ho. apply ordered_cons in Ho as [Hk Ho]. unfold find_entry. cbn [map offers List.find n_key field_of].
  case_bool_decide as Hkey; [|by apply IH]. change (mk_field _ _ _) with (field_of e).
  pose proof (field_steady e el Hv s) as Hs. destruct (n_rule (field_of e) el s) as [s1 r].
  cbn [fst snd] in *. rewrite Hs.
  destruct (decide (verdict (field_of e) el = reject)) as [Hr|]; [|done]. rewrite offers_foreign, Hr; [done|].
  apply Forall_forall. intros g Hg Eg. apply (Hk g Hg); [|by rewrite <- Eg]. left. simpl.
  rewrite field_verdict in Hr by done. by destruct He as [He|He]; [rewrite He in Hr; destruct (accepts _ _)|].
Qed.

Section Table.
Context (T : list entry) (Hord : ordered (map field_of T) = true) (Hstrict : strict T).

Definition right_kind (el : element) : bool :=
  match find_entry T (fst el) with Some e => accepts (e_kind e) (snd el) | None => true end.

(** Every element with a known key holds the right kind, every required key is
    there. *)
Definition conforms (es : list element) : bool :=
  forallb right_kind es &&
  forallb (fun e => negb (e_required e) || bool_decide (lit (e_key e) ∈ map fst es)) T.

Definition assign_element (h : handshake_response) (el : element) : handshake_response :=
  match find_entry T (fst el) with Some e => assign (e_kind e) (snd el) h | None => h end.

Lemma right_not_bad el : sound (snd el) -> right_kind el = true -> bad (map field_of T) el = false.
Proof.
  intros Hv Hr. unfold bad. rewrite offers_table by done. unfold right_kind in Hr.
  destruct (find_entry T (fst el)); [|done]. cbn [snd]. by rewrite field_verdict, Hr.
Qed.

Lemma effects_right es h : Forall (fun el => sound (snd el)) es -> forallb right_kind es = true ->
  effects (map field_of T) es (Done (inr h)) = Done (inr (fold_left assign_element es h)).
Proof.
  revert h. induction es as [|el es IH]; intros h Hs Hr; [done|]. apply Forall_cons in Hs as [Hv Hs].
  cbn [forallb] in Hr. apply andb_true_iff in Hr as [Hr Hrs]. unfold effects. cbn [fold_left].
  rewrite offers_table by done. unfold right_kind in Hr. unfold assign_element at 2.
  destruct (find_entry T (fst el)) as [e|]; [|by apply IH]. cbn [fst]. destruct el as [k v].
  destruct (field_state e k v (Done (inr h)) Hv) as (_ & _ & Ha). rewrite (Ha h) by done. by apply IH.
Qed.

Lemma ordered_unique fs f g : ordered fs = true -> f ∈ fs -> g ∈ fs -> n_required f = true ->
  n_key f = n_key g -> f = g.
Proof.
  induction fs as [|a fs IH]; intros Ho Hf Hg Hr Hk; [by apply elem_of_nil in Hf|].
  apply ordered_cons in Ho as [Ha Ho]. apply elem_of_cons in Hf as [->|Hf]; apply elem_of_cons in Hg as [->|Hg]; auto.
  - exfalso. by apply (Ha g Hg (or_introl Hr)).
  - exfalso. by apply (Ha f Hf (or_intror Hr)).
Qed.

Lemma same_element (es : list element) a b : NoDup (map fst es) -> a ∈ es -> b ∈ es -> fst a = fst b -> a = b.
Proof.
  intros Hnd Ha Hb Hk. apply list_elem_of_lookup in Ha as [i Hi], Hb as [j Hj].
  assert (i = j) as ->; [|congruence]. apply (NoDup_lookup (map fst es) i j (fst a) Hnd).
  - by rewrite list_lookup_fmap, Hi.
  - by rewrite list_lookup_fmap, Hj, Hk.
Qed.

(** A required field in a document that conforms, and in one that does not. *)
Lemma conforming_hit es e : Forall (fun el => sound (snd el)) es -> forallb right_kind es = true ->
  e ∈ T -> e_required e = true -> lit (e_key e) ∈ map fst es -> existsb (hit (field_of e)) es = true.
Proof.
  intros Hs Hr He Hq Hin. apply list_elem_of_fmap in Hin as (el & Hk & Hel). apply existsb_exists. exists el.
  rewrite <- list_elem_of_In. split; [done|]. unfold hit. cbn [n_key field_of]. rewrite bool_decide_eq_true_2 by done.
  rewrite forallb_forall in Hr. specialize (Hr el (proj1 (list_elem_of_In _ _) Hel)). unfold right_kind in Hr.
  destruct (find_entry_key T (fst el) e He (eq_sym Hk)) as [e' E]. rewrite E in Hr.
  apply find_entry_some in E as [He' Hk']. rewrite Forall_forall in Hs. specialize (Hs el Hel).
  assert (field_of e = field_of e') as ->.
  { apply (ordered_unique (map field_of T)); [done | by apply list_elem_of_fmap_2 | by apply list_elem_of_fmap_2 | done |].
    simpl. congruence. }
  change (mk_field (lit (e_key e)) _ _) with (field_of e). by rewrite field_verdict, Hr by done.
Qed.

Lemma wrong_kind es el : Forall (fun el => sound (snd el)) es -> NoDup (map fst es) -> el ∈ es -> right_kind el = false ->
  bad (map field_of T) el = true \/ exists e, e ∈ T /\ e_required e = true /\ existsb (hit (field_of e)) es = false.
Proof.
  intros Hs Hnd Hel Hr. assert (sound (snd el)) as Hv by by rewrite Forall_forall in Hs; apply Hs.
  unfold right_kind in Hr. destruct (find_entry T (fst el)) as [e|] eqn:E; [|done].
  pose proof (field_verdict e el Hv) as Hver. rewrite Hr in Hver. destruct (e_hard e) eqn:Eh.
  - left. unfold bad. rewrite offers_table, E by done. cbn [snd]. by rewrite Hver.
  - right. exists e. apply find_entry_some in E as [He Hk]. split; [done|]. split.
    + unfold strict in Hstrict. rewrite Forall_forall in Hstrict. destruct (Hstrict e He); congruence.
    + apply not_true_is_false. intros (el' & Hel' & [Hk' Hh]%andb_true_iff)%existsb_exists.
      apply list_elem_of_In in Hel'. apply bool_decide_eq_true in Hk', Hh.
      assert (el' = el) as -> by (apply (same_element es); try done; by rewrite Hk, Hk'). by rewrite Hver in Hh.
Qed.

(** The state of the [doc] rule of a table. *)
Lemma table_state es s : Forall (fun el => sound (snd el)) es -> NoDup (map fst es) ->
  state (snd (doc (map named_part (map field_of T) ++ [part_rule just_accept]) es s)) = accept <-> conforms es = true.
Proof.
  intros Hs Hnd. destruct (doc_named (map field_of T) es s Hord) as [E _]; [|done|].
  { eapply Forall_impl; [exact Hs|]. intros el Hv. apply Forall_map, Forall_forall. intros e _. by apply field_steady. }
  rewrite E. clear E. unfold conforms. rewrite andb_true_iff. split.
  - destruct (existsb (bad _) es) eqn:Eb; [done|]. destruct (forallb _ (map field_of T)) eqn:Ef; [|done]. intros _.
    rewrite forallb_forall in Ef.
    assert (forall e, e ∈ T -> e_required e = true -> existsb (hit (field_of e)) es = true) as Hreq.
    { intros e He Hq. specialize (Ef (field_of e)). rewrite <- list_elem_of_In in Ef. simpl in Ef. rewrite Hq in Ef.
      apply Ef. by apply list_elem_of_fmap_2. }
    split; apply forallb_forall.
    + intros el Hel%list_elem_of_In. destruct (right_kind el) eqn:Er; [done|].
      destruct (wrong_kind es el Hs Hnd Hel Er) as [Hb|(e & He & Hq & Hh)].
      * assert (existsb (bad (map field_of T)) es = true); [|congruence]. apply existsb_exists. exists el.
        by rewrite <- list_elem_of_In.
      * rewrite (Hreq e He Hq) in Hh. done.
    + intros e He%list_elem_of_In. destruct (e_required e) eqn:Hq; [|done]. simpl. apply bool_decide_eq_true.
      destruct (proj1 (existsb_exists _ _) (Hreq e He Hq)) as (el & Hel & [Hk _]%andb_true_iff).
      apply bool_decide_eq_true in Hk. apply list_elem_of_fmap. exists el. by rewrite list_elem_of_In.
  - intros [Hr Hq]. assert (existsb (bad (map field_of T)) es = false) as ->.
    { apply not_true_is_false. intros (el & Hel & Hb)%existsb_exists. rewrite right_not_bad in Hb; [done| |].
      - rewrite Forall_forall in Hs. apply Hs. by apply list_elem_of_In.
      - rewrite forallb_forall in Hr. by apply Hr. }
    assert (forallb (fun f => negb (n_required f) || existsb (hit f) es) (map field_of T) = true) as ->; [|done].
    apply forallb_forall. intros f Hf%list_elem_of_In. apply list_elem_of_fmap in Hf as (e & -> & He). simpl.
    destruct (e_required e) eqn:Eq; [|done]. simpl. apply (conforming_hit es e); try done.
    rewrite forallb_forall in Hq. specialize (Hq e (proj1 (list_elem_of_In _ _) He)). rewrite Eq in Hq.
    by apply bool_decide_eq_true in Hq.
Qed.
End Table.

(** ** The parse of a reply *)

Lemma hello_ordered : ordered (map field_of hello_table) = true.
Proof. by vm_compute. Qed.
Lemma hello_strict : strict hello_table.
Proof. repeat (apply Forall_cons; split; [by first [left; reflexivity | right; reflexivity]|]). by apply Forall_nil. Qed.

Lemma hello_keeps es s : Forall (fun el => sound (snd el)) es -> is_response s -> is_response (fst (hello_rule es s)).
Proof.
  intros Hv Hs. unfold hello_rule, doc. rewrite hello_fields_table.
  pose proof (parse_loop_keeps es (map (fun p => (p, part_init)) (map named_part (map field_of hello_table) ++
    [part_rule just_accept])) s Hs) as Hk.
  destruct (parse_loop _ es s) as [s' parts]. apply Hk. eapply Forall_impl; [exact Hv|]. intros [k v] Hel.
  rewrite map_map. cbn [fst]. rewrite (map_id (_ ++ _)). apply Forall_app. split; [|apply Forall_singleton; intros s0 H0; exact H0].
  apply Forall_forall. intros p (f & -> & Hf)%list_elem_of_fmap. apply list_elem_of_fmap in Hf as (e & -> & _).
  assert (forall s, is_response s -> is_response (fst (n_rule (field_of e) (k, v) s))) as He by (intros; by apply field_state).
  unfold named_part, keeps. assert (forall s, is_response s ->
    is_response (fst (field (n_key (field_of e)) (n_rule (field_of e)) (k, v) s))) as Hf; [|by destruct (n_required _)].
  intros s0 H0. unfold field. destruct (negb _); [done|]. specialize (He s0 H0).
  by destruct (n_rule (field_of e) (k, v) s0).
Qed.

Lemma parse_result es : Forall (fun el => sound (snd el)) es -> NoDup (map fst es) ->
  if conforms hello_table es
  then parse es = Done (inr (fold_left (assign_element hello_table) es new_response))
  else exists what, parse es = Done (inl (parse_error what)).
Proof.
  intros Hv Hnd. unfold parse, must_parse.
  pose proof (table_state hello_table hello_ordered hello_strict es started Hv Hnd) as Hst.
  pose proof (hello_keeps es started Hv (ex_intro _ _ eq_refl)) as [h Hh].
  destruct (doc_named (map field_of hello_table) es started hello_ordered) as [_ He]; [|done|].
  { eapply Forall_impl; [exact Hv|]. intros el Hel. apply Forall_map, Forall_forall. intros e _. by apply field_steady. }
  assert (conforms hello_table es = true ->
    fst (hello_rule es started) = Done (inr (fold_left (assign_element hello_table) es new_response))) as Heff.
  { intros [Hr _]%andb_true_iff. rewrite <- (effects_right hello_table hello_ordered hello_strict) by done. apply He.
    apply not_true_is_false. intros (el & Hel & Hb)%existsb_exists.
    rewrite (right_not_bad hello_table hello_ordered hello_strict) in Hb; [done| |].
    - rewrite Forall_forall in Hv. apply Hv. by apply list_elem_of_In.
    - rewrite forallb_forall in Hr. by apply Hr. }
  fold hello_rule in Hst, He. change (doc (map named_part (map field_of hello_table) ++ [part_rule just_accept]))
    with hello_rule in Hst.
  fold started. destruct (hello_rule es started) as [s r]. cbn [fst snd] in *. subst s.
  destruct (conforms hello_table es).
  - rewrite decide_False by (intros Hn; apply Hn; by apply Hst). rewrite (Heff eq_refl). reflexivity.
  - rewrite decide_True by (intros Ha; by apply Hst in Ha). cbn. by eexists.
Qed.

(** The parse of a reply with distinct keys, whose arrays are well formed: it
    gives a response exactly when every required key is there and every known key
    has a value of the kind the table says, whatever other elements there are and
    in whatever order; then each element has been stored in its field, and the
    rest has its default.  Otherwise a protocol error is thrown; nothing else can
    happen. *)
Theorem hello_parse_spec es : Forall (fun el => sound (snd el)) es -> NoDup (map fst es) ->
  if conforms hello_table es
  then parse es = Done (inr (fold_left (assign_element hello_table) es new_response))
  else exists what, parse es = Done (inl (parse_error what)).
Proof. apply parse_result. Qed.

(** The value of the element with the key. *)
Definition value_of (es : list element) (k : string) : option bson_value_ref :=
  snd <$> List.find (fun kv => bool_decide (fst kv = lit k)) es.

(** A field [obs] of the response to which only the key [k] is stored. *)
Definition only_key {A} (obs : handshake_response -> A) (k : string) : Prop :=
  Forall (fun e => e_key e = k \/ forall v h, obs (assign (e_kind e) v h) = obs h) hello_table.

Lemma observe {A} (obs : handshake_response -> A) k e :
  only_key obs k -> find_entry hello_table (lit k) = Some e ->
  (forall v h h', obs h = obs h' -> obs (assign (e_kind e) v h) = obs (assign (e_kind e) v h')) ->
  forall es h, NoDup (map fst es) ->
  obs (fold_left (assign_element hello_table) es h) =
    match value_of es k with Some v => obs (assign (e_kind e) v h) | None => obs h end.
Proof.
  intros Honly Hfind Hext. assert (forall el h, fst el <> lit k -> obs (assign_element hello_table h el) = obs h) as Hother.
  { intros el h Hne. unfold assign_element. destruct (find_entry hello_table (fst el)) as [e'|] eqn:E; [|done].
    apply find_entry_some in E as [Hin Hk]. unfold only_key in Honly. rewrite Forall_forall in Honly.
    destruct (Honly e' Hin) as [Ek|Ho]; [|by apply Ho]. congruence. }
  assert (forall es h, lit k ∉ map fst es -> obs (fold_left (assign_element hello_table) es h) = obs h) as Hnone.
  { intros es. induction es as [|el es IH]; intros h Hni; [done|]. cbn [fold_left map] in *.
    apply not_elem_of_cons in Hni as [Hne Hni]. rewrite IH by done. by apply Hother. }
  intros es. induction es as [|el es IH]; intros h Hnd; [done|]. cbn [map] in Hnd. apply NoDup_cons in Hnd as [Hni Hnd].
  unfold value_of. cbn [fold_left List.find]. case_bool_decide as Hk; cbn [fmap option_fmap option_map].
  - rewrite Hnone by by rewrite <- Hk. unfold assign_element. by rewrite Hk, Hfind.
  - rewrite IH by done. fold (value_of es k). destruct (value_of es k); [apply Hext|]; by apply Hother.
Qed.

(** *** Which fields an assignment leaves alone *)

Ltac assigned k := destruct k; cbn [assign]; intros Hk;
  repeat match goal with |- context [from_option _ _ ?o] => destruct o; cbn [from_option] end; try done.

Lemma update_ne {K V} `{EqDecision K} (m : K -> V) k k' v : k <> k' -> update m k v k' = m k'.
Proof. intros H. unfold update. by rewrite decide_False. Qed.
Lemma update_eq {K V} `{EqDecision K} (m : K -> V) k v : update m k v k = v.
Proof. unfold update. by rewrite decide_True. Qed.

Lemma push_strings_lists f l h : lists (push_strings f l h) f = lists h f ++ l /\
  (forall g, f <> g -> lists (push_strings f l h) g = lists h g) /\
  bools (push_strings f l h) = bools h /\ sizes (push_strings f l h) = sizes h /\
  ints (push_strings f l h) = ints h /\ strings (push_strings f l h) = strings h.
Proof.
  unfold push_strings. revert h. induction l as [|s l IH]; intros h; simpl; [by rewrite app_nil_r|].
  destruct (IH (push_string f s h)) as (E & Eg & Eb & Es & Ei & Et). split_and!; try done.
  - rewrite E. simpl. by rewrite update_eq, <- app_assoc.
  - intros g Hg. rewrite Eg by done. simpl. by apply update_ne.
Qed.

Lemma bools_assign k v h f : match k with a_bool g | a_flag g => g <> f | _ => True end ->
  bools (assign k v h) f = bools h f.
Proof. assigned k; try by apply update_ne. by destruct (push_strings_lists f0 l h) as (_ & _ & -> & _). Qed.
Lemma sizes_assign k v h f : match k with a_size g => g <> f | _ => True end -> sizes (assign k v h) f = sizes h f.
Proof. assigned k; try by apply update_ne. by destruct (push_strings_lists f0 l h) as (_ & _ & _ & -> & _). Qed.
Lemma ints_assign k v h f : match k with an_int g => g <> f | _ => True end -> ints (assign k v h) f = ints h f.
Proof. assigned k; try by apply update_ne. by destruct (push_strings_lists f0 l h) as (_ & _ & _ & _ & -> & _). Qed.
Lemma strings_assign k v h f : match k with a_string g | a_char g => g <> f | _ => True end ->
  strings (assign k v h) f = strings h f.
Proof. assigned k; try by apply update_ne. by destruct (push_strings_lists f0 l h) as (_ & _ & _ & _ & _ & ->). Qed.
Lemma lists_assign k v h f : match k with some_strings g => g <> f | _ => True end -> lists (assign k v h) f = lists h f.
Proof. assigned k. destruct (push_strings_lists f0 l h) as (_ & E & _). by apply E. Qed.

(** Only one entry of the table stores to the field. *)
Ltac sole lem := unfold only_key, hello_table;
  repeat (apply Forall_cons; split;
    [first [left; reflexivity | right; intros; apply lem; first [exact Logic.I | discriminate]]|]); by apply Forall_nil.

Lemma required_value es k e : conforms hello_table es = true -> find_entry hello_table (lit k) = Some e ->
  e_required e = true -> exists v, value_of es k = Some v /\ accepts (e_kind e) v = true.
Proof.
  intros [Hr Hq]%andb_true_iff Hf Hreq. destruct (find_entry_some _ _ _ Hf) as [Hin Hk].
  rewrite forallb_forall in Hq. specialize (Hq e (proj1 (list_elem_of_In _ _) Hin)). rewrite Hreq in Hq.
  apply bool_decide_eq_true in Hq. rewrite <- Hk in Hq. apply list_elem_of_fmap in Hq as (el & Hkey & Hel).
  unfold value_of. destruct (List.find _ es) as [[k' v]|] eqn:E.
  - exists v. split; [done|]. apply find_some in E as [Hin' Hk']. apply bool_decide_eq_true in Hk'. simpl in Hk'.
    rewrite forallb_forall in Hr. specialize (Hr _ Hin'). unfold right_kind in Hr. cbn [fst snd] in Hr. by rewrite Hk', Hf in Hr.
  - exfalso. apply list_elem_of_In in Hel. pose proof (find_none _ _ E el Hel) as Hn. by apply bool_decide_eq_false in Hn.
Qed.

Definition size_key (f : size_field) : string :=
  match f with
  | maxBsonObjectSize => "maxBsonObjectSize"
  | maxMessageSizeBytes => "maxMessageSizeBytes"
  | maxWriteBatchSize => "maxWriteBatchSize"
  end.
Definition int_key (f : int_field) : string :=
  match f with connectionId => "connectionId" | minWireVersion => "minWireVersion" | maxWireVersion => "maxWireVersion" end.
Definition list_key (f : list_field) : string :=
  match f with
  | compression => "compression" | saslSupportedMechs => "saslSupportedMechs" | hosts => "hosts"
  | passives => "passives" | arbiters => "arbiters"
  end.
Definition string_key (f : string_field) : string :=
  match f with
  | topologyVersion => "topologyVersion" | setName => "setName" | setVersion => "setVersion"
  | primary => "primary" | me => "me" | electionId => "electionId" | msg => "msg"
  end.

(** The required fields of a response. *)
Definition required_fields (es : list element) (ret : handshake_response) : Prop :=
  value_of es "isWritablePrimary" = Some (v_bool (bools ret isWritablePrimary)) /\
  value_of es "readOnly" = Some (v_bool (bools ret readOnly)) /\
  (forall f, exists v, value_of es (size_key f) = Some v /\ sizes ret f = u64 (number_of v)) /\
  (forall f, exists v z, value_of es (int_key f) = Some v /\ int_of v = Some z /\ ints ret f = Some (s32 z)).

(** The optional ones: their value, or the default. *)
Definition optional_fields (es : list element) (ret : handshake_response) : Prop :=
  (forall f, lists ret f = from_option (fun v => default [] (strings_of v)) [] (value_of es (list_key f))) /\
  (forall f, f ∈ [setName; primary; me; electionId; msg] ->
     strings ret f = from_option (fun v => default [] (as_utf8 v)) [] (value_of es (string_key f))) /\
  bools ret secondary = false.

(** *** What an assignment stores *)

Lemma bools_stored f v h : bools (assign (a_bool f) v h) f = default (bools h f) (as_bool v).
Proof. cbn [assign]. destruct (as_bool v); [apply update_eq | done]. Qed.
Lemma sizes_stored f v h : sizes (assign (a_size f) v h) f = u64 (number_of v).
Proof. apply update_eq. Qed.
Lemma ints_stored f v h : ints (assign (an_int f) v h) f = from_option (fun z => Some (s32 z)) (ints h f) (int_of v).
Proof. cbn [assign]. destruct (int_of v); [apply update_eq | done]. Qed.
Lemma strings_stored f v h : strings (assign (a_string f) v h) f = default (strings h f) (as_utf8 v).
Proof. cbn [assign]. destruct (as_utf8 v); [apply update_eq | done]. Qed.
Lemma lists_stored f v h : lists (assign (some_strings f) v h) f = lists h f ++ default [] (strings_of v).
Proof.
  cbn [assign]. destruct (strings_of v) as [l|]; [apply push_strings_lists | by rewrite app_nil_r].
Qed.

Section Values.
Context (es : list element) (Hnd : NoDup (map fst es)) (Hc : conforms hello_table es = true).
Context (ret := fold_left (assign_element hello_table) es new_response).

Lemma bool_value k e f : only_key (fun h => bools h f) k -> find_entry hello_table (lit k) = Some e ->
  e_required e = true -> e_kind e = a_bool f -> value_of es k = Some (v_bool (bools ret f)).
Proof.
  intros Ho E Hr Hk. destruct (required_value es k e Hc E Hr) as (v & Ev & Ha).
  unfold ret. rewrite (observe _ k e Ho E); [|by intros w h h' Hh; rewrite Hk, !bools_stored, Hh|done].
  rewrite Ev, Hk, bools_stored. rewrite Hk in Ha. by destruct v.
Qed.

Lemma size_value k e f : only_key (fun h => sizes h f) k -> find_entry hello_table (lit k) = Some e ->
  e_required e = true -> e_kind e = a_size f -> exists v, value_of es k = Some v /\ sizes ret f = u64 (number_of v).
Proof.
  intros Ho E Hr Hk. destruct (required_value es k e Hc E Hr) as (v & Ev & Ha). exists v. split; [done|].
  unfold ret. rewrite (observe _ k e Ho E); [|by intros w h h' Hh; rewrite Hk, !sizes_stored|done].
  by rewrite Ev, Hk, sizes_stored.
Qed.

Lemma int_value k e f : only_key (fun h => ints h f) k -> find_entry hello_table (lit k) = Some e ->
  e_required e = true -> e_kind e = an_int f ->
  exists v z, value_of es k = Some v /\ int_of v = Some z /\ ints ret f = Some (s32 z).
Proof.
  intros Ho E Hr Hk. destruct (required_value es k e Hc E Hr) as (v & Ev & Ha). rewrite Hk in Ha. simpl in Ha.
  destruct (int_of v) as [z|] eqn:Ez; [|done]. exists v, z. split_and!; [done|done|].
  unfold ret. rewrite (observe _ k e Ho E); [|by intros w h h' Hh; rewrite Hk, !ints_stored, Hh|done].
  by rewrite Ev, Hk, ints_stored, Ez.
Qed.

Lemma list_value k e f : only_key (fun h => lists h f) k -> find_entry hello_table (lit k) = Some e ->
  e_kind e = some_strings f ->
  lists ret f = from_option (fun v => default [] (strings_of v)) [] (value_of es k).
Proof.
  intros Ho E Hk. unfold ret. rewrite (observe _ k e Ho E); [|by intros w h h' Hh; rewrite Hk, !lists_stored, Hh|done].
  destruct (value_of es k); [|done]. by rewrite Hk, lists_stored.
Qed.

Lemma string_value k e f : only_key (fun h => strings h f) k -> find_entry hello_table (lit k) = Some e ->
  e_kind e = a_string f ->
  strings ret f = from_option (fun v => default [] (as_utf8 v)) [] (value_of es k).
Proof.
  intros Ho E Hk. unfold ret. rewrite (observe _ k e Ho E); [|by intros w h h' Hh; rewrite Hk, !strings_stored, Hh|done].
  destruct (value_of es k); [|done]. by rewrite Hk, strings_stored.
Qed.

Lemma never_secondary : bools ret secondary = false.
Proof.
  unfold ret. assert (forall es h, bools (fold_left (assign_element hello_table) es h) secondary = bools h secondary) as ->; [|done].
  clear. intros es. induction es as [|el es IH]; intros h; [done|]. cbn [fold_left]. rewrite IH. unfold assign_element.
  destruct (find_entry hello_table (fst el)) as [e|] eqn:E; [|done]. apply find_entry_some in E as [Hin _].
  apply bools_assign. revert e Hin. apply Forall_forall. unfold hello_table.
  repeat (apply Forall_cons; split; [first [exact Logic.I | discriminate]|]). by apply Forall_nil.
Qed.

Lemma values_required : required_fields es ret.
Proof.
  unfold required_fields. split_and!.
  - eapply bool_value; [sole bools_assign | reflexivity | reflexivity | reflexivity].
  - eapply bool_value; [sole bools_assign | reflexivity | reflexivity | reflexivity].
  - intros []; (eapply size_value; [sole sizes_assign | reflexivity | reflexivity | reflexivity]).
  - intros []; (eapply int_value; [sole ints_assign | reflexivity | reflexivity | reflexivity]).
Qed.

Lemma values_optional : optional_fields es ret.
Proof.
  unfold optional_fields. split_and!; [| |apply never_secondary].
  - intros []; (eapply list_value; [sole lists_assign | reflexivity | reflexivity]).
  - intros f Hf. repeat (apply elem_of_cons in Hf as [->|Hf];
      [eapply string_value; [sole strings_assign | reflexivity | reflexivity]|]). by apply elem_of_nil in Hf.
Qed.
End Values.

(** What the response holds when the parse gives one: each required field the
    value of its element, converted to the width of the field; the lists and
    strings of a replica set the value of their elements, when there are, and
    nothing otherwise; the flag [secondary] is never set. *)
Theorem hello_values es ret : Forall (fun el => sound (snd el)) es -> NoDup (map fst es) ->
  parse es = Done (inr ret) -> required_fields es ret /\ optional_fields es ret.
Proof.
  intros Hv Hnd Hp. pose proof (parse_result es Hv Hnd) as H. destruct (conforms hello_table es) eqn:Hc.
  - rewrite Hp in H. injection H as ->. split; [by apply values_required | by apply values_optional].
  - destruct H as [what H]. congruence.
Qed.

(** ** Concrete replies *)

Definition shard_reply : list element :=
  standalone ++ [(lit "msg", v_utf8 (lit "isdbgrid")); (lit "hosts", strings_array ["a"; "b"]%string)].

Lemma array_sound l : holdable (imap (fun i s => ([z2b (48 + Z.of_nat i)], v_utf8 (lit s))) l) -> sound (strings_array l).
Proof. intros Hh. by eexists. Qed.

Lemma shard_sound : Forall (fun el => sound (snd el)) shard_reply /\ NoDup (map fst shard_reply).
Proof.
  split; [|by apply (bool_decide_unpack _); vm_compute].
  unfold shard_reply. apply Forall_app. split.
  { unfold standalone. repeat (apply Forall_cons; split; [first [exact Logic.I | exists 1; vm_compute; reflexivity]|]).
    by apply Forall_nil. }
  apply Forall_cons. split; [exact Logic.I|]. apply Forall_singleton.
  apply array_sound. split_and!; [| |by vm_compute].
  - repeat (apply Forall_cons; split; [split; [by apply (bool_decide_unpack _) | by vm_compute]|]). by apply Forall_nil.
  - repeat (apply Forall_cons; split; [split; [by vm_compute | discriminate]|]). by apply Forall_nil.
Qed.

Lemma hello_parse_witness : exists ret, parse shard_reply = Done (inr ret).
Proof.
  destruct shard_sound as [Hv Hnd]. pose proof (hello_parse_spec shard_reply Hv Hnd) as H.
  replace (conforms hello_table shard_reply) with true in H by (vm_compute; reflexivity). eexists. exact H.
Defined.

Lemma hello_values_witness : exists ret, parse shard_reply = Done (inr ret) /\
  lists ret hosts = [lit "a"; lit "b"] /\ ints ret maxWireVersion = Some 21.
Proof.
  destruct shard_sound as [Hv Hnd]. destruct (parse shard_reply) as [[e|ret]| |] eqn:E; [vm_compute in E; discriminate E| |vm_compute in E; discriminate E|vm_compute in E; discriminate E].
  exists ret. split; [reflexivity|]. destruct (hello_values shard_reply ret Hv Hnd E) as [(_ & _ & _ & Hi) (Hl & _)]. split.
  - rewrite (Hl hosts). vm_compute. reflexivity.
  - destruct (Hi maxWireVersion) as (v & z & Ev & Ez & ->). vm_compute in Ev. injection Ev as <-.
    injection Ez as <-. vm_compute. reflexivity.
Defined.

(** The replies of the members of a replica set are rejected: the version of the
    set is an integer, and the flags are booleans. *)
Lemma member_replies_rejected :
  (exists what, parse (standalone ++ [(lit "setVersion", v_int32 1)]) = Done (inl (parse_error what))) /\
  (exists what, parse (standalone ++ [(lit "secondary", v_bool true)]) = Done (inl (parse_error what))) /\
  (exists what, parse (standalone ++ [(lit "hidden", v_bool true)]) = Done (inl (parse_error what))).
Proof. split_and!; eexists; vm_compute; reflexivity. Qed.
