(* ===== verification/Make.v ===== *)
(** * Declarative construction of documents ([include/bson/make.hpp])

    Rules that append elements and values to a document through a mutator, and
    the document they build. *)
From Stdlib Require Import ZArith Lia.
From Stdlib Require Import Strings.Byte Strings.String.
From stdpp Require Import base numbers list sets.
From S2P Require Import Prelude.
From S2P Require Import Mem.
From S2P Require Import Types.
From S2P Require Import View.
From S2P Require Import Iterator.
From S2P Require Import Codec.
From S2P Require Import Alloc.
From S2P Require Import Str.
From S2P Require Import Doc.
From S2P Require Import Mut.
From S2P Require Import MutSpec.
From S2P Require Import MutElem.
From S2P Require Import MutRefine.
Open Scope Z_scope.

(** ** The rules *)

(** A value that can be emplaced, the combinators [doc], [array] and [range] (both
    [array] here), and [optional_value], whose operand is present when it is
    truthy. *)
Inductive value_rule : Type :=
| value (v : bson_value_ref)
| doc (els : list element_rule)
| array (vs : list value_rule)
| optional_value (opt : option value_rule)
with element_rule : Type :=
| pair (key : str_view) (v : value_rule)
| conditional (opt : option element_rule)
| optional_pair (key : str_view) (opt : option value_rule).

(** *** Sizes *)

Fixpoint ndigits_loop (fuel : nat) (nth ret : Z) : Z :=
  match fuel with
  | O => ret
  | S fuel => if 0 <? nth then ndigits_loop fuel (nth / 10) (ret + 1) else ret
  end.

(** [_ndigits] of a 64-bit number. *)
Definition _ndigits (nth : Z) : Z := if nth =? 0 then 1 else ndigits_loop 20 nth 0.

(** [value_byte_size] of an emplaced value; a visit of another type stops the
    process. *)
Definition value_byte_size (v : bson_value_ref) : outcome Z :=
  match v with
  | v_eod | v_null | v_undefined | v_minkey | v_maxkey => Done 0
  | v_binary _ data => Done (4 + 1 + zlen data)
  | v_datetime _ => Done 8
  | v_oid _ => Done 12
  | v_timestamp _ _ => Done 8
  | v_utf8 s | v_symbol s | v_code s => Done (zlen s + 1 + 4)
  | v_dbpointer c _ => Done (zlen c + 1 + 4 + 12)
  | v_decimal128 _ => Done 16
  | v_regex rx opt => Done (opt_len rx + 1 + opt_len opt + 1)
  | v_double _ => Done 8
  | v_bool _ => Done 1
  | v_int32 _ => Done 4
  | v_int64 _ => Done 8
  | v_document (Some d) | v_array (Some d) => bytes_size d
  | v_document None | v_array None => Undef
  | v_codewscope | v_unknown _ => Abort
  end.

(** The sum of the sizes in a list. *)
Section Sum.
Context {A : Type} (f : A -> outcome Z).
Fixpoint sum_sizes (l : list A) : outcome Z :=
  match l with
  | [] => Done 0
  | x :: l => let* n := f x in let* m := sum_sizes l in Done (n + m)
  end.
(** The elements of an array, with their keys. *)
Fixpoint sum_nth (nth : Z) (l : list A) : outcome Z :=
  match l with
  | [] => Done 0
  | x :: l => let* n := f x in let* m := sum_nth (nth + 1) l in Done (_ndigits nth + 1 + 1 + n + m)
  end.
End Sum.

Fixpoint rule_byte_size (v : value_rule) : outcome Z :=
  match v with
  | value v => value_byte_size v
  | doc els => sum_sizes (fun e => element_byte_size e) els
  | array vs => sum_nth (fun v => rule_byte_size v) 0 vs
  | optional_value None => Done 0
  | optional_value (Some v) => rule_byte_size v
  end
with element_byte_size (e : element_rule) : outcome Z :=
  match e with
  | pair key v => let* n := rule_byte_size v in Done (1 + zlen key + 1 + n)
  | conditional None => Done 0
  | conditional (Some e) => element_byte_size e
  | optional_pair _ None => Done 0
  | optional_pair key (Some v) => let* n := rule_byte_size v in Done (1 + zlen key + 1 + n)
  end.

(** *** Appending *)

Section Append.
Context {AS : Type} `{Allocator AS}.

(** An action on the document and the mutator; [false] is a thrown
    [std::bad_alloc]. *)
Definition action : Type := bson_doc AS -> bson_mut -> outcome (bson_doc AS * bson_mut * bool).

Definition skip : action := fun d mut => Done (d, mut, true).
Definition and_then (a b : action) : action := fun d mut =>
  let* (d, mut, ok) := a d mut in if ok : bool then b d mut else Done (d, mut, false).

Section Each.
Context {A : Type} (f : A -> action) (g : str_view -> A -> action).
Fixpoint append_all (l : list A) : action :=
  match l with [] => skip | x :: l => and_then (f x) (append_all l) end.
(** [append_nth_value], for each value from the [nth]. *)
Fixpoint append_nth (nth : Z) (l : list A) : action :=
  match l with
  | [] => skip
  | x :: l => and_then (g (bson_u32_string_create (u32 nth)) x) (append_nth (nth + 1) l)
  end.
End Each.

Definition emplace_back_action (key : str_view) (v : bson_value_ref) : action := fun d mut =>
  let* (d, mut, r) := emplace_back d mut key v in
  Done (d, mut, match r with inl _ => true | inr _ => false end).

(** The mutator of the parent: the edits through the child updated it. *)
Definition parent_of (mut child : bson_mut) : bson_mut :=
  match child with Child _ parent _ => parent | _ => mut end.

(** A nested document: [push_subdoc] or [push_array], then the contents. *)
Definition nested (push : bson_doc AS -> bson_mut -> str_view -> outcome (bson_doc AS * bson_mut))
  (contents : action) (key : str_view) : action := fun d mut =>
  let* (d, child) := push d mut key in
  let* (d, child, ok) := contents d child in Done (d, parent_of mut child, ok).

Fixpoint append_value (key : str_view) (v : value_rule) : action :=
  match v with
  | value v => emplace_back_action key v
  | doc els => nested push_subdoc (append_all (fun e => append_to e) els) key
  | array vs => nested push_array (append_nth (fun key v => append_value key v) 0 vs) key
  | optional_value None => skip
  | optional_value (Some v) => append_value key v
  end
with append_to (e : element_rule) : action :=
  match e with
  | pair key v => append_value key v
  | conditional None => skip
  | conditional (Some e) => append_to e
  | optional_pair _ None => skip
  | optional_pair key (Some v) => append_value key v
  end.

(** [doc::build]. *)
Definition build (els : list element_rule) (a : AS) : outcome (bson_doc AS * bool) :=
  let* n := rule_byte_size (doc els) in
  let* ret := _bson_new (u32 n) a in
  let* (ret, _, ok) := append_all append_to els ret (bson_mutate ret) in
  Done (ret, ok).
End Append.

(** ** The elements that the rules denote *)

(** An element with the key (cut at its first null), when there is a value. *)
Definition element_for (key : str_view) (v : option bson_value_ref) : list element :=
  match v with Some v => [(_mlib_str_view_chopnulls key, v)] | None => [] end.

Section Denote.
Context {A : Type} (f : A -> option bson_value_ref).
Fixpoint number_from (nth : Z) (l : list A) : list element :=
  match l with
  | [] => []
  | x :: l => element_for (bson_u32_string_create (u32 nth)) (f x) ++ number_from (nth + 1) l
  end.
End Denote.

Fixpoint denoted (v : value_rule) : option bson_value_ref :=
  match v with
  | value v => Some v
  | doc els => Some (subdoc false (concat (map (fun e => elements e) els)))
  | array vs => Some (subdoc true (number_from (fun v => denoted v) 0 vs))
  | optional_value None => None
  | optional_value (Some v) => denoted v
  end
with elements (e : element_rule) : list element :=
  match e with
  | pair key v => element_for key (denoted v)
  | conditional None => []
  | conditional (Some e) => elements e
  | optional_pair _ None => []
  | optional_pair key (Some v) => element_for key (denoted v)
  end.

Definition all_elements (els : list element_rule) : list element := concat (map elements els).

(** Rules whose values can be inserted. *)
Section All.
Context {A : Type} (P : A -> Prop).
Fixpoint every (l : list A) : Prop := match l with [] => True | x :: l => P x /\ every l end.
End All.

Fixpoint buildable (v : value_rule) : Prop :=
  match v with
  | value v => insertable v
  | doc els => every (fun e => appendable e) els
  | array vs => every (fun v => buildable v) vs
  | optional_value None => True
  | optional_value (Some v) => buildable v
  end
with appendable (e : element_rule) : Prop :=
  match e with
  | pair key v => zlen key <= object_limit /\ buildable v
  | conditional None => True
  | conditional (Some e) => appendable e
  | optional_pair _ None => True
  | optional_pair key (Some v) => zlen key <= object_limit /\ buildable v
  end.

(** *** Induction on nested rules *)

Section Induction.
Context (P : value_rule -> Prop) (Q : element_rule -> Prop).
Context (Hvalue : forall v, P (value v)) (Hdoc : forall els, Forall Q els -> P (doc els)).
Context (Harray : forall vs, Forall P vs -> P (array vs)).
Context (Hnone : P (optional_value None)) (Hsome : forall v, P v -> P (optional_value (Some v))).
Context (Hpair : forall k v, P v -> Q (pair k v)).
Context (Hcnone : Q (conditional None)) (Hcsome : forall e, Q e -> Q (conditional (Some e))).
Context (Honone : forall k, Q (optional_pair k None)) (Hosome : forall k v, P v -> Q (optional_pair k (Some v))).

Fixpoint value_rule_nested (v : value_rule) : P v :=
  match v with
  | value v => Hvalue v
  | doc els => Hdoc els ((fix go l : Forall Q l :=
      match l with [] => Forall_nil_2 Q | e :: l => Forall_cons_2 Q e l (element_rule_nested e) (go l) end) els)
  | array vs => Harray vs ((fix go l : Forall P l :=
      match l with [] => Forall_nil_2 P | v :: l => Forall_cons_2 P v l (value_rule_nested v) (go l) end) vs)
  | optional_value None => Hnone
  | optional_value (Some v) => Hsome v (value_rule_nested v)
  end
with element_rule_nested (e : element_rule) : Q e :=
  match e with
  | pair k v => Hpair k v (value_rule_nested v)
  | conditional None => Hcnone
  | conditional (Some e) => Hcsome e (element_rule_nested e)
  | optional_pair k None => Honone k
  | optional_pair k (Some v) => Hosome k v (value_rule_nested v)
  end.

Lemma rules_nested : (forall v, P v) /\ (forall e, Q e).
Proof. split; [exact value_rule_nested | exact element_rule_nested]. Qed.
End Induction.

(** ** The actions append what the rules denote *)

Section Does.
Context {AS : Type} {HA : Allocator AS} {HOK : AllocatorOk AS}.
Context (Hgenerous : forall a : AS, ~ denies a).

(** The bytes around the edited document. *)
Definition ctx_size (ctx : context) : Z := foldr (fun lr n => zlen (fst lr) + zlen (snd lr) + 5 + n) 0 ctx.

(** The root document stays below the largest size for which it can grow. *)
Definition fits (ctx : context) (es : list element) : Prop :=
  5 + zlen (encode_body es) + ctx_size ctx <= INT32_MAX - 516.

Definition does (a : action) (new : list element) : Prop :=
  forall (d : bson_doc AS) mut ctx es, edits d mut ctx es -> fits ctx (es ++ new) ->
  exists d' mut', a d mut = Done (d', mut', true) /\ edits d' mut' ctx (es ++ new).

Lemma root_size (d : bson_doc AS) mut : forall ctx B, mut_at d mut ctx B ->
  exists B0 cap, doc_holds d B0 cap /\ zlen B0 = zlen B + ctx_size ctx.
Proof.
  induction mut as [data | data parent IH off |]; intros [|[L R] ctx] B Hm; try done.
  - destruct Hm as (_ & cap & Hd). exists B, cap. split; [done|]. simpl. lia.
  - destruct Hm as (_ & _ & Hp). apply IH in Hp as (B0 & cap & Hd & E). exists B0, cap. split; [done|].
    rewrite E, !zlen_app, zlen_frame. simpl. lia.
Qed.

(** An edit that fits does not fail. *)
Lemma never_outgrows (d : bson_doc AS) mut ctx es extra : edits d mut ctx es ->
  5 + zlen (encode_body es) + extra + ctx_size ctx <= INT32_MAX - 516 -> ~ outgrows d extra.
Proof.
  intros [Hm _] Hfit (B & cap & Hd & Hlt & Hwhy). destruct (root_size _ _ _ _ Hm) as (B0 & cap0 & Hd0 & E).
  destruct (holds_size _ _ _ Hd) as [E1 _], (holds_size _ _ _ Hd0) as [E2 _]. rewrite E1 in E2. injection E2 as E2.
  destruct Hwhy as [Hbig | Hdeny]; [lia | by apply (Hgenerous (_allocator d))].
Qed.

Lemma zlen_body_app es fs : zlen (encode_body (es ++ fs)) = zlen (encode_body es) + zlen (encode_body fs).
Proof. by rewrite encode_body_app, zlen_app. Qed.
Lemma zlen_body_one k v : zlen (encode_body [(k, v)]) = zlen (encode_elem (k, v)).
Proof. rewrite encode_body_cons, app_nil_r. done. Qed.

Lemma insert_back (d : bson_doc AS) mut ctx es key v :
  let k := _mlib_str_view_chopnulls key in
  edits d mut ctx es -> zlen key <= object_limit -> insertable v -> fits ctx (es ++ [(k, v)]) ->
  exists d' mut', _bson_insert_value d mut (at_pos mut es []) key v = Done (d', mut', at_pos mut' es [(k, v)]) /\
    edits d' mut' ctx (es ++ [(k, v)]).
Proof.
  intros k He Hkey Hv Hfit. unfold fits in Hfit. rewrite zlen_body_app, zlen_body_one in Hfit.
  pose proof He as He0. rewrite <- (app_nil_r es) in He0.
  destruct (insert_edits d mut ctx es [] (at_pos mut es []) key v He0 (at_pos_ptr _ _ _) Hkey Hv)
    as (d' & mut' & it & E & [(_ & _ & _ & _ & Hout) | (He' & _ & _ & ->)]); [|by exists d', mut'].
  exfalso. revert Hout. apply (never_outgrows d mut ctx es); [done|]. fold k. lia.
Qed.

Lemma mut_end_edits (d : bson_doc AS) mut ctx es : edits d mut ctx es -> mut_end d mut = Done (at_pos mut es []).
Proof. intros [Hm _]. by rewrite (mut_end_at _ _ _ _ Hm), at_end_is. Qed.

(** The iterator of the last element is not the end. *)
Lemma last_not_end mut es kv : bson_iterator_eq (at_pos mut es [kv]) (at_pos mut (es ++ [kv]) []) = false.
Proof.
  unfold bson_iterator_eq. rewrite !at_pos_ptr. unfold cursor. rewrite zlen_body_app.
  pose proof (encode_body_pos [kv] ltac:(done)). apply Z.eqb_neq. lia.
Qed.

Lemma does_emplace key v : zlen key <= object_limit -> insertable v ->
  does (emplace_back_action key v) [(_mlib_str_view_chopnulls key, v)].
Proof.
  intros Hkey Hv d mut ctx es He Hfit. unfold emplace_back_action, emplace_back, emplace.
  rewrite (mut_end_edits _ _ _ _ He). ostep.
  destruct (insert_back d mut ctx es key v He Hkey Hv Hfit) as (d' & mut' & -> & He'). ostep.
  rewrite (mut_end_edits _ _ _ _ He'). ostep. rewrite last_not_end. ostep. by exists d', mut'.
Qed.

Lemma does_skip : does skip [].
Proof. intros d mut ctx es He _. exists d, mut. by rewrite app_nil_r. Qed.

Lemma does_and_then a b x y : does a x -> does b y -> does (and_then a b) (x ++ y).
Proof.
  intros Ha Hb d mut ctx es He Hfit. unfold and_then. rewrite app_assoc in Hfit.
  assert (fits ctx (es ++ x)) as Hx.
  { unfold fits in *. rewrite zlen_body_app in Hfit. pose proof (zlen_nonneg (encode_body y)). lia. }
  destruct (Ha d mut ctx es He Hx) as (d1 & mut1 & -> & He1). ostep.
  destruct (Hb d1 mut1 ctx _ He1 Hfit) as (d2 & mut2 & -> & He2). exists d2, mut2. by rewrite app_assoc.
Qed.

Lemma does_all {A} (f : A -> action) (den : A -> list element) l :
  Forall (fun x => does (f x) (den x)) l -> does (append_all f l) (concat (map den l)).
Proof. induction 1 as [|x l Hx _ IH]; [apply does_skip | by apply does_and_then]. Qed.

Lemma u32_string_short n : zlen (bson_u32_string_create n) <= object_limit.
Proof.
  assert (forall fuel v, (length (_bson_write_uint fuel v) <= S fuel)%nat) as H.
  { induction fuel as [|fuel IH]; intros v; simpl; [lia|]. destruct (v =? 0); [simpl; lia|].
    destruct (10 <=? v); [|simpl; lia]. rewrite length_app. specialize (IH (v / 10)).
    destruct (v <? 100); simpl; lia. }
  unfold bson_u32_string_create, zlen. specialize (H 10%nat n). lia.
Qed.

Lemma does_nth {A} (g : str_view -> A -> action) (den : A -> option bson_value_ref) l :
  Forall (fun x => forall key, zlen key <= object_limit -> does (g key x) (element_for key (den x))) l ->
  forall nth, does (append_nth g nth l) (number_from den nth l).
Proof.
  induction 1 as [|x l Hx _ IH]; intros nth; [apply does_skip|]. apply does_and_then; [|done]. apply Hx.
  apply u32_string_short.
Qed.

(** *** Nested documents *)

Definition push (arr : bool) : bson_doc AS -> bson_mut -> str_view -> outcome (bson_doc AS * bson_mut) :=
  if arr then push_array else push_subdoc.

Lemma subdoc_insertable arr : insertable (subdoc arr []).
Proof. split; [|by destruct arr]. destruct arr; by apply encode_doc_is_doc. Qed.

Lemma push_ok arr (d : bson_doc AS) mut ctx es key :
  let k := _mlib_str_view_chopnulls key in
  edits d mut ctx es -> zlen key <= object_limit -> fits ctx (es ++ [(k, subdoc arr [])]) ->
  exists d' c, push arr d mut key = Done (d', c) /\ edits d' c (layer es k arr [] :: ctx) [].
Proof.
  intros k He Hkey Hfit.
  destruct (insert_back d mut ctx es key (subdoc arr []) He Hkey (subdoc_insertable arr) Hfit) as (d' & mut' & E & He').
  destruct (child_edits d' mut' ctx es _ arr [] [] He' (Forall_nil_2 _)) as [Ec Hc].
  eexists d', _. split; [|exact Hc]. unfold push.
  destruct arr; unfold push_array, push_subdoc, insert_array, insert_subdoc; rewrite (mut_end_edits _ _ _ _ He); ostep.
  - change (_bson_insert_value d mut (at_pos mut es []) key (v_array None))
      with (_bson_insert_value d mut (at_pos mut es []) key (subdoc true [])). rewrite E. ostep. by rewrite Ec.
  - change (_bson_insert_value d mut (at_pos mut es []) key (v_document None))
      with (_bson_insert_value d mut (at_pos mut es []) key (subdoc false [])). rewrite E. ostep. by rewrite Ec.
Qed.

Lemma layer_fits es k arr ctx new : fits (layer es k arr [] :: ctx) new <-> fits ctx (es ++ [(k, subdoc arr new)]).
Proof.
  unfold fits. rewrite zlen_body_app, zlen_body_one, zlen_encode_elem. cbn [ctx_size foldr layer fst snd].
  rewrite zlen_app, zlen_elem_head. change (zlen (encode_body [])) with 0. fold (ctx_size ctx).
  assert (zlen (encode_value (subdoc arr new)) = 5 + zlen (encode_body new)) as ->; [|lia].
  destruct arr; simpl; rewrite zlen_encode_doc; unfold doc_size; lia.
Qed.

Lemma does_nested arr contents new key : zlen key <= object_limit -> does contents new ->
  does (nested (push arr) contents key) [(_mlib_str_view_chopnulls key, subdoc arr new)].
Proof.
  intros Hkey Hc d mut ctx es He Hfit. set (k := _mlib_str_view_chopnulls key) in *. unfold nested.
  pose proof (proj2 (layer_fits es k arr ctx new) Hfit) as Hfitc.
  assert (fits ctx (es ++ [(k, subdoc arr [])])) as Hfit0.
  { apply layer_fits. unfold fits in *. pose proof (zlen_nonneg (encode_body new)). change (zlen (encode_body [])) with 0. lia. }
  destruct (push_ok arr d mut ctx es key He Hkey Hfit0) as (d1 & c & -> & Hce). ostep.
  destruct (Hc d1 c _ [] Hce Hfitc) as (d2 & c2 & -> & Hce2). ostep. destruct (Hce2) as [Hm2 _].
  destruct c2 as [|data parent off|]; [done | | done].
  exists d2, parent. split; [done|]. destruct He as [_ Hwf].
  eapply parent_edits; [exact Hce2 | done | apply chopnulls_no_nul | by apply Forall_nil].
Qed.

(** *** All rules *)

Lemma every_Forall {A} (P : A -> Prop) l : every P l <-> Forall P l.
Proof. induction l as [|x l IH]; simpl; [by rewrite Forall_nil | by rewrite IH, Forall_cons]. Qed.

Lemma does_rules :
  (forall v, buildable v -> forall key, zlen key <= object_limit -> does (append_value key v) (element_for key (denoted v))) /\
  (forall e, appendable e -> does (append_to e) (elements e)).
Proof.
  apply rules_nested.
  - intros w Hw key Hkey. by apply does_emplace.
  - intros els IH Hb key Hkey. simpl in Hb. apply every_Forall in Hb.
    assert (Forall (fun e => does (append_to e) (elements e)) els) as Hall.
    { apply Forall_forall. intros e He. rewrite Forall_forall in IH, Hb. exact (IH e He (Hb e He)). }
    exact (does_nested false _ _ key Hkey (does_all append_to elements els Hall)).
  - intros vs IH Hb key Hkey. simpl in Hb. apply every_Forall in Hb.
    assert (Forall (fun v => forall key, zlen key <= object_limit ->
      does (append_value key v) (element_for key (denoted v))) vs) as Hall.
    { apply Forall_forall. intros v Hv. rewrite Forall_forall in IH, Hb. exact (IH v Hv (Hb v Hv)). }
    exact (does_nested true _ _ key Hkey (does_nth append_value denoted vs Hall 0)).
  - intros _ key _. apply does_skip.
  - intros w IH Hb key Hkey. by apply IH.
  - intros k w IH [Hk Hb]. by apply IH.
  - intros _. apply does_skip.
  - intros e IH Hb. by apply IH.
  - intros k _. apply does_skip.
  - intros k w IH [Hk Hb]. by apply IH.
Qed.

Lemma does_elements els : every appendable els -> does (append_all append_to els) (all_elements els).
Proof.
  intros Hb%every_Forall. apply does_all. eapply Forall_impl; [exact Hb|]. apply does_rules.
Qed.
End Does.

(** *** The reservation *)

(** Documents and arrays that the rules nest. *)
Fixpoint headers (v : value_rule) : Z :=
  match v with
  | value _ => 0
  | doc els => 1 + foldr (fun e n => element_headers e + n) 0 els
  | array vs => 1 + foldr (fun v n => headers v + n) 0 vs
  | optional_value None => 0
  | optional_value (Some v) => headers v
  end
with element_headers (e : element_rule) : Z :=
  match e with
  | pair _ v => headers v
  | conditional None => 0
  | conditional (Some e) => element_headers e
  | optional_pair _ None => 0
  | optional_pair _ (Some v) => headers v
  end.

Definition denoted_size (v : option bson_value_ref) : Z := from_option (fun v => zlen (encode_value v)) 0 v.

Lemma value_size v : insertable v -> value_byte_size v = Done (zlen (encode_value v)).
Proof.
  intros [Hv Hre]. destruct v as [|bits|s|[d|]|[d|]|sub data| |o|b|z| |[rx|] [opt|]|c o|s|s| |z|ti ts|z|b| | |t];
    cbn [framed] in Hv; try done; cbn [value_byte_size encode_value];
    rewrite ?zlen_encode_string, ?zlen_le64, ?zlen_le32; try (f_equal; lia); try (by rewrite bytes_size_doc).
  - rewrite !zlen_app, zlen_le32. change (zlen [sub]) with 1. f_equal. lia.
Qed.

Lemma ndigits_acc f v r : ndigits_loop f v r = r + ndigits_loop f v 0.
Proof.
  revert v r. induction f as [|f IH]; intros v r; simpl; [lia|]. destruct (0 <? v); [|lia].
  rewrite IH, (IH _ 1). lia.
Qed.

Lemma ndigits_pos f v : 0 <= ndigits_loop f v 0.
Proof.
  revert v. induction f as [|f IH]; intros v; simpl; [lia|]. destruct (0 <? v); [|lia].
  rewrite ndigits_acc. specialize (IH (v / 10)). lia.
Qed.

Lemma ndigits_mono f v w : 0 <= v <= w -> ndigits_loop f v 0 <= ndigits_loop f w 0.
Proof.
  revert v w. induction f as [|f IH]; intros v w H; simpl; [lia|].
  destruct (Z.ltb_spec 0 v), (Z.ltb_spec 0 w); try lia.
  - rewrite (ndigits_acc f (v / 10)), (ndigits_acc f (w / 10)). specialize (IH (v / 10) (w / 10)).
    assert (0 <= v / 10 <= w / 10) by divlia. lia.
  - rewrite ndigits_acc. pose proof (ndigits_pos f (w / 10)). lia.
Qed.

Lemma u32_string_digits fuel : forall f v, (fuel < f)%nat -> 0 < v ->
  Z.of_nat (length (_bson_write_uint fuel v)) <= ndigits_loop f v 0.
Proof.
  induction fuel as [|fuel IH]; intros f v Hf Hv; [simpl; apply ndigits_pos|].
  destruct f as [|f]; [lia|]. cbn [_bson_write_uint ndigits_loop].
  destruct (Z.eqb_spec v 0); [lia|]. destruct (Z.ltb_spec 0 v); [|lia]. rewrite ndigits_acc.
  destruct (Z.leb_spec 10 v).
  - rewrite length_app. assert (0 < v / 10) by divlia. specialize (IH f (v / 10) ltac:(lia) ltac:(lia)).
    destruct (Z.ltb_spec v 100); simpl length in *; [|lia].
    destruct f as [|f]; [lia|]. simpl. destruct (Z.ltb_spec 0 (v / 10)); [|lia].
    rewrite ndigits_acc. pose proof (ndigits_pos f (v / 10 / 10)). lia.
  - pose proof (ndigits_pos f (v / 10)). simpl. lia.
Qed.

(** An array key is no longer than [_ndigits] says. *)
Lemma key_digits n : 0 <= n -> zlen (bson_u32_string_create (u32 n)) <= _ndigits n.
Proof.
  intros Hn. unfold _ndigits, bson_u32_string_create, zlen. pose proof (u32_range n) as [Hr _].
  assert (u32 n <= n) as Hle by (unfold u32; divlia). destruct (Z.eqb_spec n 0) as [->|Hne]; [reflexivity|].
  destruct (Z.eqb_spec (u32 n) 0) as [->|Hu].
  - change (Z.of_nat (length (_bson_write_uint 10 0))) with 1.
    pose proof (ndigits_mono 20 1 n ltac:(lia)). change (ndigits_loop 20 1 0) with 1 in H. lia.
  - pose proof (u32_string_digits 10 20 (u32 n) ltac:(lia) ltac:(lia)).
    pose proof (ndigits_mono 20 (u32 n) n ltac:(lia)). lia.
Qed.

Lemma element_size key v : zlen (encode_body (element_for key (Some v))) <= 2 + zlen key + zlen (encode_value v).
Proof.
  unfold element_for. rewrite zlen_body_one, zlen_encode_elem. pose proof (chopnulls_len key). lia.
Qed.

(** A list of elements, and of numbered values. *)
Lemma sum_sizes_bound els :
  Forall (fun e => appendable e -> exists n, element_byte_size e = Done n /\ 0 <= n /\
    zlen (encode_body (elements e)) <= n + 5 * element_headers e) els ->
  every appendable els -> exists n, sum_sizes element_byte_size els = Done n /\ 0 <= n /\
    zlen (encode_body (all_elements els)) <= n + 5 * foldr (fun e n => element_headers e + n) 0 els.
Proof.
  induction 1 as [|e els He _ IH]; intros Hb; [by exists 0|]. destruct Hb as [Hb Hbs].
  destruct (He Hb) as (n & E & Hn & Hle), (IH Hbs) as (m & E' & Hm & Hle'). exists (n + m).
  cbn [sum_sizes foldr]. rewrite E, E'. split; [done|]. split; [lia|].
  unfold all_elements in *. cbn [map concat]. rewrite zlen_body_app. lia.
Qed.

Lemma sum_nth_bound vs :
  Forall (fun v => buildable v -> exists n, rule_byte_size v = Done n /\ 0 <= n /\
    denoted_size (denoted v) <= n + 5 * headers v) vs ->
  every buildable vs -> forall i, 0 <= i -> exists n, sum_nth rule_byte_size i vs = Done n /\ 0 <= n /\
    zlen (encode_body (number_from denoted i vs)) <= n + 5 * foldr (fun v n => headers v + n) 0 vs.
Proof.
  induction 1 as [|v vs Hv _ IH]; intros Hb i Hi; [by exists 0|]. destruct Hb as [Hb Hbs].
  destruct (Hv Hb) as (n & E & Hn & Hle), (IH Hbs (i + 1) ltac:(lia)) as (m & E' & Hm & Hle').
  exists (_ndigits i + 1 + 1 + n + m). cbn [sum_nth foldr number_from]. rewrite E, E'. split; [done|].
  pose proof (key_digits i Hi) as Hd. pose proof (zlen_nonneg (bson_u32_string_create (u32 i))). split; [lia|].
  rewrite zlen_body_app. destruct (denoted v) as [w|]; simpl in Hle.
  - pose proof (element_size (bson_u32_string_create (u32 i)) w). lia.
  - change (zlen (encode_body (element_for _ None))) with 0. lia.
Qed.

Lemma zlen_subdoc arr es : zlen (encode_value (subdoc arr es)) = 5 + zlen (encode_body es).
Proof. destruct arr; simpl; rewrite zlen_encode_doc; unfold doc_size; lia. Qed.

Lemma pair_bound key v :
  (buildable v -> exists n, rule_byte_size v = Done n /\ 0 <= n /\ denoted_size (denoted v) <= n + 5 * headers v) ->
  buildable v -> exists n, (let* n := rule_byte_size v in Done (1 + zlen key + 1 + n)) = Done n /\ 0 <= n /\
    zlen (encode_body (element_for key (denoted v))) <= n + 5 * headers v.
Proof.
  intros Hv Hb. destruct (Hv Hb) as (n & -> & Hn & Hle). ostep. eexists. split; [done|].
  pose proof (zlen_nonneg key). split; [lia|]. destruct (denoted v) as [w|]; simpl in Hle.
  - pose proof (element_size key w). lia.
  - change (zlen (encode_body (element_for _ None))) with 0. lia.
Qed.

(** The sizes are defined, and at most five bytes short for every nested
    document. *)
Lemma size_bounds :
  (forall v, buildable v -> exists n, rule_byte_size v = Done n /\ 0 <= n /\ denoted_size (denoted v) <= n + 5 * headers v) /\
  (forall e, appendable e -> exists n, element_byte_size e = Done n /\ 0 <= n /\
     zlen (encode_body (elements e)) <= n + 5 * element_headers e).
Proof.
  apply rules_nested.
  - intros v Hv. exists (zlen (encode_value v)). pose proof (zlen_nonneg (encode_value v)).
    split; [by apply value_size|]. simpl. lia.
  - intros els IH Hb. destruct (sum_sizes_bound els IH Hb) as (n & E & Hn & Hle). exists n. split; [exact E|].
    split; [done|]. change (zlen (encode_value (subdoc false (all_elements els))) <=
      n + 5 * (1 + foldr (fun e n => element_headers e + n) 0 els)). rewrite zlen_subdoc. lia.
  - intros vs IH Hb. destruct (sum_nth_bound vs IH Hb 0 ltac:(lia)) as (n & E & Hn & Hle). exists n. split; [exact E|].
    split; [done|]. change (zlen (encode_value (subdoc true (number_from denoted 0 vs))) <=
      n + 5 * (1 + foldr (fun v n => headers v + n) 0 vs)). rewrite zlen_subdoc. lia.
  - intros _. by exists 0.
  - intros v IH Hb. by apply IH.
  - intros k v IH [_ Hb]. by apply pair_bound.
  - intros _. by exists 0.
  - intros e IH Hb. by apply IH.
  - intros k _. by exists 0.
  - intros k v IH [_ Hb]. by apply pair_bound.
Qed.

(** ** Building a document *)

Lemma new_generous {AS} {HA : Allocator AS} {HOK : AllocatorOk AS} (a : AS) n : ~ denies a -> n <= INT32_MAX - 4 ->
  exists d cap, _bson_new n a = Done d /\ doc_holds d [] cap.
Proof.
  intros Hgen Hn. destruct (new_spec n a) as [(_ & (d & Hd) & Hlt) | (d & cap & E & Hd & _)]; [|by exists d, cap].
  destruct (reserve_spec (mk_doc _bson_get_global_empty_doc_data static_block a) [] 5 n) as (d' & r & E & Hr);
    [by apply static_holds|].
  rewrite E in Hd. injection Hd as <- ->. destruct Hr as [(_ & _ & _ & [H | H]) | (H & Hle & _)]; [lia | done | lia].
Qed.

Lemma header_bounds : (forall v, 0 <= headers v) /\ (forall e, 0 <= element_headers e).
Proof.
  apply rules_nested; try done.
  - intros els IH. cbn [headers]. enough (0 <= foldr (fun e n => element_headers e + n) 0 els) by lia.
    induction IH; simpl; lia.
  - intros vs IH. cbn [headers]. enough (0 <= foldr (fun v n => headers v + n) 0 vs) by lia.
    induction IH; simpl; lia.
Qed.

Lemma build_does {AS} {HA : Allocator AS} {HOK : AllocatorOk AS} (a : AS) els n :
  (forall a : AS, ~ denies a) -> every appendable els -> rule_byte_size (doc els) = Done n -> 0 <= n <= INT32_MAX - 4 ->
  5 + zlen (encode_body (all_elements els)) <= INT32_MAX - 516 ->
  exists d cap, build els a = Done (d, true) /\ doc_holds d (encode_body (all_elements els)) cap.
Proof.
  intros Hgen Hb E Hn Hfit. unfold build. rewrite E. ostep. rewrite (u32_id n) by (unfold is_u32; lia).
  destruct (new_generous a n (Hgen a) ltac:(lia)) as (d & cap & -> & Hd). ostep.
  assert (edits d (bson_mutate d) [] []) as He by (split; [split; [done | by exists cap] | by apply Forall_nil]).
  assert (fits [] ([] ++ all_elements els)) as Hf by (unfold fits; simpl app; simpl ctx_size; lia).
  destruct (does_elements Hgen els Hb d _ [] [] He Hf) as (d' & mut' & -> & [Hm _]). ostep.
  destruct (root_size d' mut' [] _ Hm) as (B0 & cap' & Hd' & _).
  destruct mut' as [data | |]; try done. destruct Hm as [_ [cap'' Hd'']]. by exists d', cap''.
Qed.

(** C29. Building a document from rules, when memory lasts, for rules of values that are inserted as they are ([appendable]: no regular
    expression, which is followed by bytes that are no element ([build_regex_corrupts]), no code with scope, which stops the process, no database pointer and no null
    view): the sizes of the rules are defined, short
    of the encoded document by at most five bytes for the document and every
    document nested in it; if the document may be reserved and grown, it holds
    in order the elements the rules denote (absent optionals append nothing,
    array elements have their positions as keys, nested documents are complete). *)
Theorem build_spec {AS} `{AllocatorOk AS} (els : list element_rule) (a : AS) :
  (forall a : AS, ~ denies a) -> every appendable els ->
  exists n, rule_byte_size (doc els) = Done n /\ 0 <= n /\
    doc_size (all_elements els) <= n + 5 * headers (doc els) /\
    (n + 5 * headers (doc els) <= INT32_MAX - 516 ->
     exists d cap, build els a = Done (d, true) /\ doc_holds d (encode_body (all_elements els)) cap).
Proof.
  intros Hgen Hb. destruct (proj1 size_bounds (doc els) Hb) as (n & E & Hn & Hle).
  change (denoted_size (denoted (doc els))) with (zlen (encode_value (subdoc false (all_elements els)))) in Hle.
  rewrite zlen_subdoc in Hle. exists n. unfold doc_size. split_and!; [exact E | exact Hn | lia |]. intros Hmax.
  pose proof (proj1 header_bounds (doc els)). apply (build_does a els n); [done | done | done | lia | lia].
Qed.

(** *** Concrete documents *)

Definition name (s : string) : str_view := String.list_byte_of_string s.

Definition sample_rules : list element_rule :=
  [pair (name "a") (value (v_int32 7));
   conditional None;
   optional_pair (name "b") (Some (array [value v_null; optional_value None; value (v_bool true)]));
   pair (name "c") (doc [pair (name "d") (doc [])])].

(** A regular expression in a document that is built: a loop over the document stops the process behind it. *)
Example build_regex_corrupts :
  match build [pair (name "r") (value (v_regex (Some (name "x")) (Some (name "i")))); pair (name "a") (value v_null)] (mk_ample 0) with
  | Done (d, true) => read_elements 20 (doc_buf d) (_bson_document_data d)
  | _ => Undef
  end = Abort.
Proof. vm_compute. reflexivity. Qed.

Lemma build_spec_witness : exists d cap,
  build sample_rules (mk_ample 0) = Done (d, true) /\
  doc_holds d (encode_body [(name "a", v_int32 7);
    (name "b", subdoc true [(name "0", v_null); (name "2", v_bool true)]);
    (name "c", subdoc false [(name "d", subdoc false [])])]) cap.
Proof.
  destruct (build_spec sample_rules (mk_ample 0) ample_never_denies) as (n & E & _ & _ & Hb).
  - repeat split; vm_compute; intuition discriminate.
  - vm_compute in E. injection E as <-. destruct Hb as (d & cap & E & Hd).
    + vm_compute. discriminate.
    + exists d, cap. split; [exact E | exact Hd].
Defined.

(** The size omits the header and the terminator of the document, and of each
    nested one: 5 and 12 bytes for an empty and a one-element document. *)
Lemma byte_size_omits_header :
  rule_byte_size (doc []) = Done 0 /\ doc_size (all_elements []) = 5 /\
  rule_byte_size (doc [pair (name "a") (value (v_int32 7))]) = Done 7 /\
  doc_size (all_elements [pair (name "a") (value (v_int32 7))]) = 12.
Proof. vm_compute. done. Qed.

(** When memory runs out, an empty nested document is dropped and the build still
    succeeds, and a nested document with contents stops the process: neither is
    [std::bad_alloc], which a failed [emplace_back] throws. *)
Lemma nested_insertion_unchecked :
  (exists d, build [pair (name "a") (doc [])] (mk_arena 0 0) = Done (d, true) /\ doc_holds d [] 5) /\
  build [pair (name "a") (doc [pair (name "b") (value (v_int32 7))])] (mk_arena 0 14) = Abort.
Proof. split; [|by vm_compute]. eexists. split; [by vm_compute | apply static_holds; done]. Qed.
