(* ===== verification/Hello.v ===== *)
(** * The [hello] exchange ([src/amongoc/handshake.hpp], [handshake.cpp])

    The command that opens a connection, built with [Make.v], and the coroutine
    that sends it with a client of [WireClient.v] and takes the reply apart with
    [Handshake.v]. *)
From Stdlib Require Import ZArith Lia.
From Stdlib Require Import Strings.Byte Strings.String.
From stdpp Require Import base numbers list sets.
From S2P Require Import Prelude.
From S2P Require Import Mem.
From S2P Require Import Types.
From S2P Require Import View.
From S2P Require Import Iterator.
From S2P Require Import IteratorSafe.
From S2P Require Import Codec.
From S2P Require Import Parse.
From S2P Require Import Reply.
From S2P Require Import Alloc.
From S2P Require Import Str.
From S2P Require Import Doc.
From S2P Require Import Wire.
From S2P Require Import WireSpec.
From S2P Require Import WireClient.
From S2P Require Import MutSpec.
From S2P Require Import MutElem.
From S2P Require Import MutRefine.
From S2P Require Import Make.
From S2P Require Import Handshake.
From S2P Require Import HandshakeSpec.
Open Scope Z_scope.

(** ** The command *)

(** The platforms that are told apart; [neo::operating_system] is a constant of
    the build. *)
Inductive operating_system : Type := windows | linux | macos | freebsd | openbsd | unknown.

Definition os_type (os : operating_system) : string :=
  match os with
  | windows => "Windows"
  | linux => "Linux"
  | macos => "Darwin"
  | freebsd => "FreeBSD"
  | openbsd => "OpenBSD"
  | unknown => "unknown"
  end.

Definition text_pair (k : string) (v : text) : element_rule := pair (lit k) (value (v_utf8 v)).

Definition command (os : operating_system) (app_name : option text) : list element_rule := [
  pair (lit "hello") (value (v_int32 1));
  text_pair "$db" (lit "admin");
  pair (lit "client") (Make.doc [
    conditional ((fun name => pair (lit "application") (Make.doc [text_pair "name" name])) <$> app_name);
    pair (lit "driver") (Make.doc [text_pair "name" (lit "amongoc"); text_pair "version" (lit "experimental-dev")]);
    pair (lit "os") (Make.doc [text_pair "type" (lit (os_type os))])])]%string.

Section Exchange.
Context {AS : Type} `{Allocator AS}.

(** The command, unless [std::bad_alloc] is thrown. *)
Definition create_handshake_command (os : operating_system) (alloc : AS) (app_name : option text)
  : outcome (bson_doc AS * bool) := build (command os app_name) alloc.

(** ** The exchange *)

(** [handshake_response::parse] of the document: its elements are those that the
    iterator gives.  An errant iterator throws; that it does so before the rules
    have seen the elements in front of it decides only what is thrown. *)
Definition parse_document (d : bson_doc AS) : outcome (parse_exn + handshake_response) :=
  let m := doc_buf d in
  let* n := _bson_byte_size m (_bson_document_data d) in
  let* b := _bson_begin m (_bson_document_data d) in
  let* e := _bson_end m (_bson_document_data d) in
  let* r := foreach_subrange m (loop_fuel n) b e
    (fun acc it =>
       let ec := bson_iterator_get_error it in
       if negb (ec =? bson_iter_errc_okay) then Done (inr ec)
       else
         let* k := bson_key m it in
         let* w := bson_iterator_value m it in
         Done (inl (acc ++ [(k, w)]))) [] in
  match r with
  | Some (inl es) => parse es
  | Some (inr ec) => Done (inl (iterator_error ec))
  | None => Abort
  end.

Definition view_of (d : bson_doc AS) : bson_view := mk_view (doc_buf d) (_bson_document_data d).

(** [handshake]: [alloc] is the allocator of the client. *)
Definition handshake {C} `{ClientInterface C (op_msg_message (body_section bson_view)) (any_message AS)}
  (os : operating_system) (alloc : AS) (app_name : option text) : co_task C (parse_exn + handshake_response) :=
  let! (cmd, ok) := lift (create_handshake_command os alloc app_name) in
  if negb ok then throw bad_alloc
  else
    let! resp := request (mk_op_msg [mk_body (view_of cmd)]) in
    let! body := lift (expect_one_body_section_op_msg resp) in
    lift (parse_document body).
End Exchange.

(** ** What is sent *)

Definition texts (l : list (string * text)) : list element := map (fun '(k, v) => (lit k, v_utf8 v)) l.

(** The document of the command. *)
Definition hello (os : operating_system) (app_name : option text) : list element := [
  (lit "hello", v_int32 1);
  (lit "$db", v_utf8 (lit "admin"));
  (lit "client", subdoc false (
    match app_name with
    | Some name => [(lit "application", subdoc false (texts [("name", name)]))]
    | None => []
    end ++
    [(lit "driver", subdoc false (texts [("name", lit "amongoc"); ("version", lit "experimental-dev")]));
     (lit "os", subdoc false (texts [("type", lit (os_type os))]))]))]%string.

Lemma command_denotes os app_name : all_elements (command os app_name) = hello os app_name.
Proof. by destruct app_name. Qed.

(** The longest application name considered. *)
Definition NAME_MAX : Z := 1073741824.

Lemma lit_insertable s : Z.leb (zlen (lit s)) 100 = true -> insertable (v_utf8 (lit s)).
Proof. intros H%Z.leb_le. split; [|done]. simpl. lia. Qed.

Lemma command_appendable os app_name : zlen (default [] app_name) <= NAME_MAX -> every appendable (command os app_name).
Proof.
  intros Hn. assert (forall s, Z.leb (zlen (lit s)) 100 = true -> zlen (lit s) <= object_limit) as Hkey.
  { intros s H%Z.leb_le. etrans; [exact H|]. by vm_compute. }
  assert (is_i32 1) by (unfold is_i32; lia).
  assert (every appendable (match app_name with Some name => [text_pair "name" name] | None => [] end)) as Hname.
  { destruct app_name as [name|]; [|done]. split; [|done]. split; [by apply Hkey|]. split; [|done].
    simpl in *. unfold NAME_MAX in Hn. lia. }
  destruct app_name as [name|], os; simpl every in *;
    repeat (split || (apply Hkey; reflexivity) || (apply lit_insertable; reflexivity) || apply Hname || done).
Qed.

Lemma command_size os app_name : exists n,
  rule_byte_size (Make.doc (command os app_name)) = Done n /\ 0 <= n <= 200 + zlen (default [] app_name) /\
  headers (Make.doc (command os app_name)) <= 6.
Proof.
  destruct app_name as [name|], os; (eexists; split; [cbv -[zlen Z.add lit]; reflexivity|]); simpl default;
    try pose proof (zlen_nonneg name); (split; [|by vm_compute]);
    repeat match goal with |- context [zlen (lit ?s)] =>
      let v := eval vm_compute in (zlen (lit s)) in change (zlen (lit s)) with v end;
    try change (zlen (@nil byte)) with 0; lia.
Qed.

Section Spec.
Context {AS : Type} {HA : Allocator AS} {HOK : AllocatorOk AS}.

Lemma create_command_spec os app_name (a : AS) :
  (forall a : AS, ~ denies a) -> zlen (default [] app_name) <= NAME_MAX ->
  exists d cap, create_handshake_command os a app_name = Done (d, true) /\
    doc_holds d (encode_body (hello os app_name)) cap.
Proof.
  intros Hgen Hname. unfold create_handshake_command. rewrite <- command_denotes.
  pose proof (command_appendable os app_name Hname) as Hb.
  destruct (command_size os app_name) as (n & E & Hn & Hh).
  destruct (proj1 size_bounds (Make.doc (command os app_name)) Hb) as (n' & E' & _ & Hle).
  rewrite E in E'. injection E' as <-.
  change (denoted_size _) with (zlen (encode_value (subdoc false (all_elements (command os app_name))))) in Hle.
  rewrite zlen_subdoc in Hle. unfold NAME_MAX in Hname.
  apply (build_does a (command os app_name) n); [done | done | done | lia | lia].
Qed.

Lemma view_of_shows (d : bson_doc AS) B cap : doc_holds d B cap -> shows (view_of d) B.
Proof.
  intros Hd. pose proof (holds_room _ _ _ Hd). pose proof (holds_cap _ _ _ Hd). pose proof (holds_data _ _ _ Hd).
  pose proof (holds_base_pos _ _ _ Hd). split; [cbn [view_of v_data]; lia|]. split; [by eapply holds_at | lia].
Qed.

(** The reply holds elements that the rules can look at. *)
Definition reply_document (es : list element) (d : bson_doc AS) : Prop :=
  (exists cap, doc_holds d (encode_body es) cap) /\ holdable es.

Lemma parse_document_spec es (d : bson_doc AS) : reply_document es d -> parse_document d = parse es.
Proof.
  intros [(cap & Hd) (Hwf & Hr & Hmax)]. pose proof (holds_at _ _ _ Hd) as Hat. pose proof (holds_base_pos _ _ _ Hd) as Hb.
  destruct (holds_size _ _ _ Hd) as [Hsize _]. pose proof (length_elements es) as Hfuel. rewrite zlen_encode_doc in Hfuel.
  change (frame (encode_body es)) with (encode_doc es) in Hat. unfold parse_document. rewrite Hsize. ostep.
  replace (5 + zlen (encode_body es)) with (doc_size es) by (unfold doc_size; lia).
  rewrite (begin_encode _ _ es), (end_encode _ _ es) by done. ostep.
  rewrite (foreach_encode _ _ es Hat Hwf Hmax _ (fun _ kv _ acc => inl (acc ++ [kv]))); try done.
  - ostep. by rewrite fold_collect.
  - intros pre [k w] rest acc E. cbv beta zeta.
    destruct (element_access _ _ es Hb Hat Hwf Hmax pre k w rest E) as (Hk & _ & Hv & He).
    rewrite He. change (negb (0 =? bson_iter_errc_okay)) with false. cbv iota. rewrite Hk. ostep.
    rewrite Hv; [done|]. rewrite E, Forall_app, Forall_cons in Hr. tauto.
Qed.

(** C28. The opening exchange of a connection: the command is built and holds the
    elements of [hello], and goes out as the one body section of the request; what
    the request throws is thrown; a reply with one body section becomes a response
    exactly when it conforms to the table, and otherwise a protocol error. *)
Theorem handshake_spec {C} `{ClientInterface C (op_msg_message (body_section bson_view)) (any_message AS)}
  os (a : AS) app_name :
  (forall a : AS, ~ denies a) -> zlen (default [] app_name) <= NAME_MAX ->
  exists view, shows view (encode_body (hello os app_name)) /\
  forall c c' r, request (mk_op_msg [mk_body view]) c = Done (c', r) ->
  match r with
  | inl e => handshake os a app_name c = Done (c', inl e)
  | inr resp => forall es d, sections (content resp) = [body_of d] -> reply_document es d ->
      Forall (fun el => sound (snd el)) es -> NoDup (map fst es) ->
      if conforms hello_table es
      then handshake os a app_name c =
             Done (c', inr (inr (fold_left (assign_element hello_table) es new_response)))
      else exists what, handshake os a app_name c = Done (c', inr (inl (parse_error what)))
  end.
Proof.
  intros Hgen Hname. destruct (create_command_spec os app_name a Hgen Hname) as (cmd & cap & E & Hd).
  exists (view_of cmd). split; [by eapply view_of_shows|]. intros c c' r Er.
  unfold handshake, co_await, lift. rewrite E. ostep. cbn [negb]. rewrite Er. ostep. destruct r as [e|resp]; [done|].
  intros es d Es Hdoc Hsound Hnd. unfold expect_one_body_section_op_msg. rewrite Es. unfold body_of. ostep.
  cbn [body]. rewrite (parse_document_spec es d Hdoc). pose proof (parse_result es Hsound Hnd) as Hp.
  destruct (conforms hello_table es); [rewrite Hp | destruct Hp as [what ->]; exists what]; by ostep.
Qed.
End Spec.

(** ** A concrete exchange *)

(** A client that gives the prepared replies, one for each request. *)
Definition replay : Type := list (any_message ample).
#[export] Instance replay_client
  : ClientInterface replay (op_msg_message (body_section bson_view)) (any_message ample) := fun _ c =>
  match c with [] => Done ([], inl (stream_error error_eof)) | r :: c => Done (c, inr r) end.

Definition reply_doc (es : list element) : bson_doc ample :=
  mk_doc 68 (mk_block 64 (le32 (doc_size es) ++ encode_doc es)) (mk_ample 0).
Definition reply_message (es : list element) : any_message ample :=
  mk_any_message 1 0 (mk_op_msg [any_body (mk_body (reply_doc es))]).

Lemma standalone_holdable : holdable standalone.
Proof.
  unfold standalone. solve_holdable.
Qed.

Lemma handshake_spec_witness : exists ret,
  handshake linux (mk_ample 0) (Some (lit "app")) [reply_message standalone] = Done ([], inr (inr ret)).
Proof.
  destruct (handshake_spec linux (mk_ample 0) (Some (lit "app"))) as (view & _ & H).
  - exact ample_never_denies.
  - vm_compute. discriminate.
  - specialize (H [reply_message standalone] [] (inr (reply_message standalone)) eq_refl
      standalone (reply_doc standalone) eq_refl).
    replace (conforms hello_table standalone) with true in H by (vm_compute; reflexivity).
    eexists. apply H.
    + split; [|exact standalone_holdable]. exists (doc_size standalone). split.
      * exists []. split; [vm_compute; reflexivity | vm_compute; reflexivity].
      * vm_compute. discriminate.
      * reflexivity.
      * vm_compute. discriminate.
    + pose proof (proj1 shard_sound) as Hs. unfold shard_reply in Hs. by apply Forall_app in Hs as [Hs _].
    + apply (bool_decide_unpack _). vm_compute. exact Logic.I.
Defined.
