(* ===== verification/StrMut.v ===== *)
(** * Owned strings ([include/mlib/str.h])

    A string owns a region: the length in a [size_t] in front of the characters, the
    characters, and a null.  The empty string is a constant object that all strings share.  The native order of
    the bytes of a [size_t] is little-endian. *)
From Stdlib Require Import ZArith Lia.
From Stdlib Require Import Strings.Byte.
From stdpp Require Import base numbers list.
From S2P Require Import Prelude.
From S2P Require Import Mem.
From S2P Require Import Alloc.
From S2P Require Import Str.
Open Scope Z_scope.

(** The static array of [_mlib_string_empty]: a [size_t] and a null. *)
Definition empty_string_block : block := mk_block 48 (le64 0 ++ [x00]).
Definition _mlib_string_empty : Z := b_base empty_string_block + 8.

Section Strings.
Context {AS : Type} `{Allocator AS}.

(** [mlib_str] and [mlib_str_mut]: the pointer (null is 0), with the memory that it refers to, and
    the allocator. *)
Record mlib_str : Type := mk_str { s_data : Z; s_mem : block; s_alloc : AS }.

Definition mlib_str_null (a : AS) : mlib_str := mk_str 0 (mk_block 0 []) a.

Definition _mlib_str_cookie (s : mlib_str) : Z := s_data s - 8.

Definition _mlib_str_length (s : mlib_str) : outcome Z := _bson_read_u64le (s_mem s) (_mlib_str_cookie s).

Definition _mlib_str_as_view (s : mlib_str) : outcome str_view :=
  let* len := _mlib_str_length s in rd_range (s_mem s) (s_data s) len.

(** A store of characters through the pointer: the shared empty string is constant. *)
Definition store_chars (s : mlib_str) (p : Z) (bs : list byte) : outcome mlib_str :=
  match bs with
  | [] => Done s
  | _ =>
    if s_data s =? _mlib_string_empty then Undef
    else let* m := wr_range (s_mem s) p bs in Done (mk_str (s_data s) m (s_alloc s))
  end.

Definition mlib_str_mut_resize (s : mlib_str) (new_len : Z) : outcome (mlib_str * bool) :=
  let* old_len := _mlib_str_length s in
  if new_len =? old_len then Done (s, true)
  else if new_len >? (INT64_MAX - 8) - 1 then Done (s, false)
  else
    let alloc_size := new_len + 8 + 1 in
    let* buf_ptr :=
      if s_data s =? _mlib_string_empty then Done None
      else if b_base (s_mem s) =? _mlib_str_cookie s then Done (Some (s_mem s)) else Undef in
    match mlib_reallocate (s_alloc s) buf_ptr alloc_size (u64 (old_len + 4 + 1)) with
    | (a, None) => Done (mk_str (s_data s) (s_mem s) a, false)
    | (a, Some new_data) =>
      let data := b_base new_data + 8 in
      let* (m, _) := _bson_write_u64le new_data (data - 8) new_len in
      let tail_len := new_len - old_len in
      let* m := if 0 <? tail_len then wr_range m (data + old_len) (replicate (Z.to_nat tail_len) x00) else Done m in
      let* m := wr_range m (data + new_len) [x00] in
      Done (mk_str data m a, true)
    end.

Definition _mlib_str_new (len : Z) (a : AS) : outcome mlib_str :=
  let* (ret, _) := mlib_str_mut_resize (mk_str _mlib_string_empty empty_string_block a) len in Done ret.

(** [memcpy(r.data, s, len)]. *)
Definition mlib_str_copy_data (s : str_view) (a : AS) : outcome mlib_str :=
  let* r := _mlib_str_new (zlen s) a in store_chars r (s_data r) s.

Definition _mlib_str_copy (s : str_view) (a : AS) : outcome mlib_str := mlib_str_copy_data s a.

(** The allocator, after the region was returned to it. *)
Definition mlib_str_delete (s : mlib_str) : outcome AS :=
  if (s_data s =? 0) || (s_data s =? _mlib_string_empty) then Done (s_alloc s)
  else
    let* len := _mlib_str_length s in
    if b_base (s_mem s) =? s_data s - 8 then Done (mlib_deallocate (s_alloc s) (Some (s_mem s)) (len + 8 + 1)) else Undef.

(** The allocator of the string that is replaced, and the string. *)
Definition mlib_str_assign (s from : mlib_str) : outcome (AS * mlib_str) :=
  let* a := mlib_str_delete s in Done (a, from).

(** The view [insert] may be null. *)
Definition _mlib_str_splice (s : str_view) (at_ del_count : Z) (insert : option str_view) (a : AS) : outcome mlib_str :=
  assert! at_ <=? zlen s in
  let remain := zlen s - at_ in
  let del_count := if remain <? del_count then remain else del_count in
  let insert_len := match insert with Some i => zlen i | None => 0 end in
  assert! zlen s - del_count <=? 18446744073709551615 - insert_len in
  let new_size := zlen s - del_count + insert_len in
  let* ret := _mlib_str_new new_size a in
  if s_data ret =? 0 then Done ret
  else
    let p := s_data ret in
    let* ret := store_chars ret p (take (Z.to_nat at_) s) in
    let p := p + at_ in
    let* (ret, p) :=
      match insert with
      | Some i => let* ret := store_chars ret p i in Done (ret, p + zlen i)
      | None => Done (ret, p)
      end in
    assert! del_count <=? zlen s - at_ in
    store_chars ret p (drop (Z.to_nat (at_ + del_count)) s).

(** The operations that pass no allocator use [mlib_default_allocator]. *)
Definition _mlib_str_append (default : AS) (s suffix : str_view) : outcome mlib_str :=
  _mlib_str_splice s (zlen s) 0 (Some suffix) default.
Definition mlib_str_insert (default : AS) (s : str_view) (pos : Z) (infix : str_view) : outcome mlib_str :=
  _mlib_str_splice s pos 0 (Some infix) default.
Definition mlib_str_erase (default : AS) (s : str_view) (pos count : Z) : outcome mlib_str :=
  _mlib_str_splice s pos count (Some []) default.
Definition mlib_str_remove_prefix (default : AS) (s : str_view) (count : Z) : outcome mlib_str :=
  _mlib_str_splice s 0 count (Some []) default.
Definition _mlib_str_remove_suffix (default : AS) (s : str_view) (len : Z) : outcome mlib_str :=
  assert! len <=? zlen s in mlib_str_erase default s (zlen s - len) len.

Definition _mlib_substr (default : AS) (s : str_view) (at_ len : Z) : outcome mlib_str :=
  assert! at_ <=? zlen s in
  let remain := zlen s - at_ in
  let len := if remain <? len then remain else len in
  let* r := _mlib_str_new len default in
  store_chars r (s_data r) (take (Z.to_nat len) (drop (Z.to_nat at_) s)).

(** ** What a string holds *)

Record text_of (s : mlib_str) (l : list byte) : Prop := {
  text_at : bytes_at (s_mem s) (s_data s - 8) (le64 (zlen l) ++ l ++ [x00]);
  text_fits : zlen l + 9 <= INT32_MAX;
  text_owned : s_data s <> _mlib_string_empty -> b_base (s_mem s) = s_data s - 8 /\ heap_start <= s_data s - 8;
  text_shared : s_data s = _mlib_string_empty -> s_mem s = empty_string_block /\ l = [] }.

Lemma text_length s l : text_of s l -> _mlib_str_length s = Done (zlen l).
Proof.
  intros [Ht Hf _ _]. unfold _mlib_str_length, _mlib_str_cookie. pose proof (zlen_nonneg l).
  apply read_le64; [unfold is_u64; lia|]. by apply bytes_at_app_l in Ht.
Qed.

Lemma text_view s l : text_of s l -> _mlib_str_as_view s = Done l.
Proof.
  intros Hs. unfold _mlib_str_as_view. rewrite (text_length s l Hs). ostep. apply rd_range_at.
  destruct Hs as [Ht _ _ _]. apply bytes_at_app_r in Ht. rewrite zlen_le64 in Ht. apply bytes_at_app_l in Ht.
  by replace (s_data s - 8 + 8) with (s_data s) in Ht by lia.
Qed.

Lemma text_empty (a : AS) : text_of (mk_str _mlib_string_empty empty_string_block a) [].
Proof.
  split; simpl; [|done|done|done]. exists [], []. split; [done|]. rewrite zlen_nil. done.
Qed.

Lemma write_u64_stored m a v : b_base m <= a -> a + 8 <= b_end m ->
  exists m', _bson_write_u64le m a v = Done (m', a + 8) /\ stored m m' a (le64 v).
Proof.
  intros Hb He. unfold _bson_write_u64le.
  destruct (write_u32_stored m a (u32 v)) as (m1 & -> & [A1 B1 E1 F1]); [lia|lia|]. ostep.
  destruct (write_u32_stored m1 (a + 4) (u32 (Z.shiftr v 32))) as (m2 & -> & [A2 B2 E2 F2]); [lia|lia|]. ostep.
  exists m2. split; [f_equal; f_equal; lia|]. split; [|congruence|congruence|].
  - rewrite le64_split. apply bytes_at_app. rewrite zlen_le32. split; [|done]. apply F2; [done|]. rewrite zlen_le32. lia.
  - intros b k Hk Hd. rewrite zlen_le64 in Hd. apply F2; [apply F1; [done|]|]; rewrite zlen_le32; lia.
Qed.

(** The stores of [mlib_str_mut_resize] into a new region that starts with the kept characters. *)
Lemma resize_stores (b : block) (kept : list byte) old_len new_len : let data := b_base b + 8 in
  0 <= old_len -> 0 <= new_len < UINT64_SPAN -> zlen kept = Z.min old_len new_len -> new_len + 9 <= zlen (b_bytes b) ->
  bytes_at b data kept -> exists m,
  (let* (m, _) := _bson_write_u64le b (data - 8) new_len in
   let* m := if 0 <? new_len - old_len then wr_range m (data + old_len) (replicate (Z.to_nat (new_len - old_len)) x00) else Done m in
   wr_range m (data + new_len) [x00]) = Done m /\
  b_base m = b_base b /\
  bytes_at m (data - 8) (le64 new_len ++ (kept ++ replicate (Z.to_nat (new_len - old_len)) x00) ++ [x00]).
Proof.
  intros data Ho Hn Hk Hs Hat. assert (b_base b = data - 8) as Eb by (unfold data; lia).
  assert (b_end b = b_base b + zlen (b_bytes b)) as Ee by done.
  destruct (write_u64_stored b (data - 8) new_len) as (m1 & -> & [A1 B1 E1 F1]); [lia|lia|]. ostep.
  assert (bytes_at m1 data kept) as K1 by (apply F1; [done|rewrite zlen_le64; lia]).
  assert (exists m2, (if 0 <? new_len - old_len then wr_range m1 (data + old_len) (replicate (Z.to_nat (new_len - old_len)) x00) else Done m1) = Done m2 /\
    b_base m2 = b_base b /\ b_end m2 = b_end b /\ bytes_at m2 (data - 8) (le64 new_len) /\ bytes_at m2 data kept /\
    bytes_at m2 (data + zlen kept) (replicate (Z.to_nat (new_len - old_len)) x00)) as (m2 & -> & B2 & E2 & A2 & K2 & Z2).
  { destruct (Z.ltb_spec 0 (new_len - old_len)) as [Hl|Hl].
    - destruct (wr_stored m1 (data + old_len) (replicate (Z.to_nat (new_len - old_len)) x00)) as (m2 & -> & [A B C F]);
        [lia|rewrite zlen_replicate by lia; lia|]. exists m2. split_and!; [done|congruence|congruence| | |].
      + apply F; [done|]. rewrite zlen_le64. lia.
      + apply F; [done|]. lia.
      + by replace (zlen kept) with old_len by lia.
    - exists m1. split_and!; [done|done|done|done|done|]. replace (Z.to_nat (new_len - old_len)) with 0%nat by lia. simpl.
      eapply (bytes_at_app_r m1 data kept []). by rewrite app_nil_r. }
  ostep. assert (new_len = zlen kept + Z.of_nat (Z.to_nat (new_len - old_len))) as El by lia.
  destruct (wr_stored m2 (data + new_len) [x00]) as (m3 & -> & [A3 B3 E3 F3]); [lia|rewrite zlen_cons, zlen_nil; lia|].
  exists m3. split; [done|]. split; [congruence|]. apply bytes_at_app. rewrite zlen_le64. replace (data - 8 + 8) with data by lia.
  split; [apply F3; [done|rewrite zlen_le64; lia]|]. apply bytes_at_app. rewrite zlen_app. unfold zlen at 2. rewrite length_replicate.
  split; [|by replace (data + (zlen kept + Z.of_nat (Z.to_nat (new_len - old_len)))) with (data + new_len) by lia].
  apply bytes_at_app. split; apply F3; [done|lia|done|]. unfold zlen at 2. rewrite length_replicate. lia.
Qed.

(** A new string: its characters are null; without memory it is the shared empty string. *)
Lemma string_new_spec `{!AllocatorOk AS} len (a : AS) : 0 <= len -> len + 9 <= INT32_MAX -> exists s,
  _mlib_str_new len a = Done s /\
  match mlib_reallocate a None (len + 9) 5 with
  | (_, Some _) => text_of s (replicate (Z.to_nat len) x00) /\ (0 < len -> s_data s <> _mlib_string_empty)
  | (_, None) => text_of s [] /\ s_data s = _mlib_string_empty
  end.
Proof.
  intros Hl Hf. unfold _mlib_str_new, mlib_str_mut_resize. rewrite (text_length _ [] (text_empty a)). ostep. rewrite zlen_nil.
  destruct (Z.eqb_spec len 0) as [->|Hne].
  { eexists. split; [done|]. destruct (mlib_reallocate a None (0 + 9) 5) as [? [?|]]; split; try apply text_empty; done. }
  destruct (Z.gtb_spec len ((INT64_MAX - 8) - 1)); [lia|]. simpl s_data. rewrite Z.eqb_refl. ostep. simpl s_alloc.
  replace (u64 (0 + 4 + 1)) with 5 by done. replace (len + 8 + 1) with (len + 9) by lia.
  destruct (mlib_reallocate a None (len + 9) 5) as [a' [b|]] eqn:Er; [|by eexists; split; [done|]; split; [apply text_empty|]].
  apply reallocate_region in Er as [Hb Hz]; [|lia].
  destruct (resize_stores b [] 0 len) as (m & Em & Bm & Am); [lia|lia|rewrite zlen_nil; lia|lia| |].
  { exists (take 8 (b_bytes b)), (drop 8 (b_bytes b)). simpl. rewrite take_drop. split; [done|].
    unfold zlen. rewrite length_take. unfold zlen in Hz. lia. }
  rewrite Z.sub_0_r in Em, Am. rewrite Z.sub_0_r. eexists. split.
  - destruct (_bson_write_u64le b (b_base b + 8 - 8) len) as [[m1 ?]| |]; [|done..]. cbn [obind] in Em |- *.
    destruct (if 0 <? len then _ else _) as [m2| |]; [|done..]. cbn [obind] in Em |- *. rewrite Em. cbn [obind]. done.
  - unfold heap_start in Hb. simpl. split; [|unfold _mlib_string_empty; simpl; lia]. split; simpl.
    + rewrite zlen_replicate by lia. simpl in Am. done.
    + rewrite zlen_replicate by lia. lia.
    + intros _. unfold heap_start. lia.
    + unfold _mlib_string_empty. simpl. lia.
Qed.
(** Characters stored over others of a string. *)
Lemma store_spec s l1 old l3 bs : text_of s (l1 ++ old ++ l3) -> zlen old = zlen bs ->
  (s_data s = _mlib_string_empty -> bs = []) -> exists s',
  store_chars s (s_data s + zlen l1) bs = Done s' /\ s_data s' = s_data s /\ text_of s' (l1 ++ bs ++ l3).
Proof.
  intros Hs Hl He. destruct bs as [|c bs].
  { destruct old; [|rewrite zlen_cons, zlen_nil in Hl; pose proof (zlen_nonneg old); lia]. by exists s. }
  unfold store_chars. destruct (Z.eqb_spec (s_data s) _mlib_string_empty) as [E|E]; [by apply He in E|].
  destruct Hs as [(pre & post & Eb & Ea) Hf Ho Hsh].
  assert (zlen (l1 ++ (c :: bs) ++ l3) = zlen (l1 ++ old ++ l3)) as Ez by (rewrite !zlen_app; lia).
  assert (exists h, h = le64 (zlen (l1 ++ old ++ l3)) /\ zlen h = 8) as (h & Eh & Zh) by (eexists; split; [done|apply zlen_le64]).
  rewrite <- Eh in Eb.
  assert (wr_range (s_mem s) (s_data s + zlen l1) (c :: bs) =
    Done (mk_block (b_base (s_mem s)) ((pre ++ h ++ l1) ++ (c :: bs) ++ l3 ++ [x00] ++ post))) as ->.
  { rewrite <- (wr_range_at (s_mem s) (pre ++ h ++ l1) old (l3 ++ [x00] ++ post) (c :: bs)); [|by rewrite Eb, <- !app_assoc|done].
    f_equal. rewrite !zlen_app. lia. }
  ostep. eexists. split; [done|]. simpl s_data. split; [done|].
  split; cbn [s_data s_mem s_alloc b_base b_bytes]; [|by rewrite Ez|done|done].
  exists pre, post. rewrite Ez, <- Eh. cbn [b_base b_bytes]. rewrite <- !app_assoc. done.
Qed.

(** A store that covers the front of what is left to be written. *)
Lemma store_next s done_ todo bs rest n : text_of s (done_ ++ replicate n x00) -> (n = length bs + length rest)%nat -> todo = bs ++ rest ->
  (s_data s = _mlib_string_empty -> n = 0%nat) -> exists s',
  store_chars s (s_data s + zlen done_) bs = Done s' /\ s_data s' = s_data s /\ text_of s' ((done_ ++ bs) ++ replicate (length rest) x00).
Proof.
  intros Hs -> -> He. rewrite replicate_add in Hs.
  destruct (store_spec s done_ (replicate (length bs) x00) (replicate (length rest) x00) bs) as (s' & E1 & Ed & Ht); [done| | |].
  - unfold zlen. by rewrite length_replicate.
  - intros Hd. apply He in Hd. destruct bs; [done|]. simpl in Hd. lia.
  - exists s'. rewrite <- app_assoc. done.
Qed.

(** The allocator refuses the region of a string of [len] characters. *)
Definition refused (a : AS) (len : Z) : Prop := snd (mlib_reallocate a None (len + 9) 5) = None.

(** Copying a string: with memory, the copy holds the same characters, followed by a null; when the
    allocator refuses, the characters are stored over the constant empty string, which is
    undefined (unless there are none). *)
Theorem string_copy_spec `{!AllocatorOk AS} (s : str_view) (a : AS) : zlen s + 9 <= INT32_MAX ->
  (~ refused a (zlen s) -> exists r, _mlib_str_copy s a = Done r /\ text_of r s /\ _mlib_str_as_view r = Done s) /\
  (refused a (zlen s) -> _mlib_str_copy s a = if decide (s = []) then Done (mk_str _mlib_string_empty empty_string_block a) else Undef).
Proof.
  intros Hf. pose proof (zlen_nonneg s). destruct (string_new_spec (zlen s) a) as (r & E1 & Hr); [lia|lia|].
  unfold _mlib_str_copy, mlib_str_copy_data, refused. rewrite E1. ostep.
  destruct (mlib_reallocate a None (zlen s + 9) 5) as [a' [b|]]; simpl; (split; [intros Hn|intros Hn]); try done.
  - destruct Hr as [Ht Hd]. rewrite zlen_to_nat in Ht.
    destruct (store_next r [] s s [] (length s) Ht) as (r' & Es & Ed & Ht'); [simpl; lia|by rewrite app_nil_r| |].
    { intros Hx. destruct s as [|c s]; [done|]. exfalso. apply Hd; [|done]. rewrite zlen_cons. pose proof (zlen_nonneg s). lia. }
    rewrite zlen_nil, Z.add_0_r in Es. simpl in Ht'. rewrite app_nil_r in Ht'.
    exists r'. split; [done|]. split; [done|]. by apply text_view.
  - destruct Hr as [Ht Hd]. case_decide as Hs.
    + subst s. simpl. unfold _mlib_str_new, mlib_str_mut_resize in E1. rewrite (text_length _ [] (text_empty a)) in E1.
      cbn [obind] in E1. rewrite zlen_nil, Z.eqb_refl in E1. by injection E1 as <-.
    + destruct s as [|c s]; [done|]. unfold store_chars. by rewrite Hd, Z.eqb_refl.
Qed.

(** [mlib_str_splice]: the result is a new string with [del_count] characters (or as many as
    there are) removed at [at] and the insertion in their place; a position past the end fails the
    assertion. *)
Theorem string_splice_spec `{!AllocatorOk AS} (s : str_view) at_ del_count insert (a : AS) :
  0 <= at_ -> 0 <= del_count -> zlen s + zlen (default [] insert) + 9 <= INT32_MAX ->
  let text := take (Z.to_nat at_) s ++ default [] insert ++ drop (Z.to_nat (at_ + del_count)) s in
  if at_ <=? zlen s then
    ~ refused a (zlen text) -> exists r, _mlib_str_splice s at_ del_count insert a = Done r /\ text_of r text
  else _mlib_str_splice s at_ del_count insert a = Abort.
Proof.
  intros Ha Hd Hf. set (i := default [] insert) in *. unfold _mlib_str_splice. destruct (Z.leb_spec at_ (zlen s)) as [Hat|Hat]; [|done].
  intros Hm. set (del := if zlen s - at_ <? del_count then zlen s - at_ else del_count).
  assert (0 <= del <= zlen s - at_ /\ drop (Z.to_nat (at_ + del_count)) s = drop (Z.to_nat (at_ + del)) s) as [Hdel Edrop].
  { unfold del. destruct (Z.ltb_spec (zlen s - at_) del_count); [|by split; [lia|]]. split; [lia|].
    rewrite !drop_ge; [done|..]; unfold zlen in *; lia. }
  assert (match insert with Some i => zlen i | None => 0 end = zlen i) as -> by (by destruct insert).
  pose proof (zlen_nonneg s). pose proof (zlen_nonneg i). rewrite (proj2 (Z.leb_le _ _)) by lia.
  rewrite Edrop in *. set (p1 := take (Z.to_nat at_) s) in *. set (p3 := drop (Z.to_nat (at_ + del)) s) in *.
  assert (zlen p1 = at_ /\ zlen p3 = zlen s - at_ - del) as [E1 E3].
  { unfold p1, p3, zlen. rewrite length_take, length_drop. unfold zlen in *. lia. }
  assert (zlen s - del + zlen i = zlen (p1 ++ i ++ p3)) as -> by (rewrite !zlen_app; lia).
  assert (zlen (p1 ++ i ++ p3) <= zlen s + zlen i) by (rewrite !zlen_app; lia).
  destruct (string_new_spec (zlen (p1 ++ i ++ p3)) a) as (r & -> & Hr); [apply zlen_nonneg|lia|]. ostep. unfold refused in Hm.
  destruct (mlib_reallocate a None (zlen (p1 ++ i ++ p3) + 9) 5) as [a' [b|]]; [|by destruct Hm]. destruct Hr as [Ht Hne].
  rewrite zlen_to_nat in Ht. rewrite !length_app in Ht.
  assert (s_data r = _mlib_string_empty -> (length p1 + (length i + length p3) = 0)%nat) as Hz.
  { intros Hx. destruct (decide (0 < zlen (p1 ++ i ++ p3))) as [Hp|Hp]; [by apply Hne in Hp|]. unfold zlen in Hp. rewrite !length_app in Hp. lia. }
  destruct (Z.eqb_spec (s_data r) 0) as [Hn0|_].
  { exfalso. destruct (decide (s_data r = _mlib_string_empty)) as [E|E]; [by rewrite E in Hn0|].
    destruct (text_owned _ _ Ht E) as [_ Hh]. unfold heap_start in Hh. lia. }
  destruct (store_next r [] (p1 ++ i ++ p3) p1 (i ++ p3) _ Ht) as (r1 & S1 & D1 & T1); [rewrite length_app; lia|done|done|].
  rewrite zlen_nil, Z.add_0_r in S1. rewrite S1. ostep. rewrite app_nil_l in T1.
  assert (exists r2, (match insert with Some i => let* ret := store_chars r1 (s_data r + at_) i in Done (ret, s_data r + at_ + zlen i) | None => Done (r1, s_data r + at_) end)
    = Done (r2, s_data r + at_ + zlen i) /\ s_data r2 = s_data r /\ text_of r2 ((p1 ++ i) ++ replicate (length p3) x00)) as (r2 & -> & D2 & T2).
  { rewrite length_app in T1. destruct (store_next r1 p1 (i ++ p3) i p3 _ T1) as (r2 & S2 & D2 & T2); [lia|done| |].
    - rewrite D1. intros Hx%Hz. lia.
    - rewrite D1, E1 in S2. subst i. destruct insert as [i|]; simpl in *.
      + exists r2. rewrite S2. ostep. split; [done|]. split; [congruence|done].
      + exists r1. rewrite zlen_nil, Z.add_0_r, app_nil_r. split; [done|]. split; [done|done]. }
  ostep. rewrite (proj2 (Z.leb_le _ _)) by lia. fold p3.
  destruct (store_next r2 (p1 ++ i) p3 p3 [] _ T2) as (r3 & S3 & D3 & T3); [simpl; lia|by rewrite app_nil_r| |].
  { rewrite D2. intros Hx%Hz. lia. }
  rewrite D2, zlen_app, E1, Z.add_assoc in S3. exists r3. split; [exact S3|]. simpl in T3. by rewrite app_nil_r, <- app_assoc in T3.
Qed.
(** The default allocator is [realloc], which looks at the region and not at the size that is passed. *)
Definition realloc_like : Prop := forall s m n k s' b, reallocate s (Some m) n k = (s', Some b) ->
  take (Z.to_nat n) (b_bytes m) = take (length (b_bytes m)) (take (Z.to_nat n) (b_bytes b)).

Lemma owned_bytes s l : text_of s l -> s_data s <> _mlib_string_empty -> exists post,
  b_bytes (s_mem s) = le64 (zlen l) ++ l ++ [x00] ++ post /\ b_base (s_mem s) = s_data s - 8.
Proof.
  intros [(pre & post & Eb & Ea) _ Ho _] Hne. destruct (Ho Hne) as [E _]. exists post. split; [|done].
  destruct pre; [|rewrite zlen_cons in Ea; pose proof (zlen_nonneg pre); lia]. rewrite Eb. simpl. by rewrite <- !app_assoc.
Qed.

(** The characters at the front of a region whose first bytes are those of the string. *)
Definition kept_of (b : block) (l : list byte) (new_len : Z) : list byte :=
  take (Z.to_nat (Z.min (zlen l) new_len)) (drop 8 (b_bytes b)).

Lemma kept_chars (b : block) (h l tail : list byte) k new_len : let kept := kept_of b l new_len in zlen h = 8 -> 8 <= k <= 8 + zlen l + 1 -> new_len + 9 <= zlen (b_bytes b) ->
  0 <= new_len -> take (Z.to_nat (Z.min k (new_len + 9))) (b_bytes b) = take (Z.to_nat (Z.min k (new_len + 9))) (h ++ l ++ tail) ->
  bytes_at b (b_base b + 8) kept /\ zlen kept = Z.min (zlen l) new_len /\
  forall i, Z.of_nat i < k - 8 -> Z.of_nat i < Z.min (zlen l) new_len -> kept !! i = l !! i.
Proof.
  intros kept Hh Hk Hb Hn Ht. subst kept. unfold kept_of. set (n := Z.to_nat (Z.min (zlen l) new_len)).
  assert (8 + n <= length (b_bytes b))%nat as Hlen by (unfold n, zlen in *; lia).
  split_and!.
  - exists (take 8 (b_bytes b)), (drop n (drop 8 (b_bytes b))). rewrite !take_drop. split; [done|]. unfold zlen. rewrite length_take. lia.
  - unfold zlen. rewrite length_take, length_drop. unfold n, zlen in *. lia.
  - intros i Hi Hi'. rewrite lookup_take_lt by (unfold n, zlen in *; lia). rewrite lookup_drop.
    assert (forall x : list byte, take (Z.to_nat (Z.min k (new_len + 9))) x !! (8 + i)%nat = x !! (8 + i)%nat) as Hl
      by (intros x; apply lookup_take_lt; unfold zlen in *; lia).
    rewrite <- (Hl (b_bytes b)), Ht, Hl. rewrite lookup_app_r by (unfold zlen in *; lia).
    rewrite lookup_app_l by (unfold zlen in *; lia). f_equal. unfold zlen in *. lia.
Qed.

(** [mlib_str_mut_resize] of a string that owns its characters: a refusal leaves it as it was;
    otherwise it has the new length, with null characters added at the end, but only the
    characters before the last three of the old ones are sure to be kept, since the size that is passed as the previous
    one is four bytes short; all of them are with an allocator like [realloc]. *)
Theorem string_resize_spec `{!AllocatorOk AS} `{!KeepsRequested AS} s l new_len : text_of s l -> s_data s <> _mlib_string_empty ->
  0 <= new_len -> new_len + 9 <= INT32_MAX -> new_len <> zlen l -> 3 <= zlen l -> exists s' ok,
  mlib_str_mut_resize s new_len = Done (s', ok) /\
  (if ok : bool then exists kept,
     text_of s' (kept ++ replicate (Z.to_nat (new_len - zlen l)) x00) /\ zlen kept = Z.min (zlen l) new_len /\
     take (Z.to_nat (zlen l - 3)) kept = take (Z.to_nat (Z.min (zlen l - 3) new_len)) l /\
     (realloc_like -> kept = take (Z.to_nat new_len) l)
   else text_of s' l).
Proof.
  intros Ht Hne Hn Hf Hd H3. destruct (owned_bytes s l Ht Hne) as (post & Eb & Ebase).
  unfold mlib_str_mut_resize. rewrite (text_length s l Ht). ostep. destruct (Z.eqb_spec new_len (zlen l)); [done|].
  destruct (Z.gtb_spec new_len ((INT64_MAX - 8) - 1)); [lia|]. destruct (Z.eqb_spec (s_data s) _mlib_string_empty); [done|].
  unfold _mlib_str_cookie. rewrite (proj2 (Z.eqb_eq _ _)) by done. ostep. pose proof (text_fits s l Ht). rewrite u64_id by (unfold is_u64; lia).
  replace (new_len + 8 + 1) with (new_len + 9) by lia. replace (zlen l + 4 + 1) with (zlen l + 5) by lia.
  destruct (mlib_reallocate (s_alloc s) (Some (s_mem s)) (new_len + 9) (zlen l + 5)) as [a' [b|]] eqn:Er.
  2: { do 2 eexists. split; [done|]. destruct Ht as [T1 T2 T3 T4]. by split. }
  pose proof Er as Er'. apply reallocate_region in Er' as [Hb Hz]; [|lia].
  assert (zlen (b_bytes (s_mem s)) = 8 + zlen l + 1 + zlen post) as Emem by (rewrite Eb, !zlen_app, zlen_le64; change (zlen [x00]) with 1; lia).
  pose proof (zlen_nonneg post). pose proof (keeps_requested _ _ _ _ _ _ Er ltac:(lia)) as Hk. rewrite Eb in Hk.
  destruct (kept_chars b (le64 (zlen l)) l ([x00] ++ post) (zlen l + 5) new_len) as (Kat & Kl & Ki); [apply zlen_le64|lia|lia|lia|done|].
  set (kept := kept_of b l new_len) in *.
  destruct (resize_stores b kept (zlen l) new_len) as (m & Em & Bm & Am); [apply zlen_nonneg|lia|done|lia|done|].
  do 2 eexists. split.
  { destruct (_bson_write_u64le b (b_base b + 8 - 8) new_len) as [[m1 ?]| |]; [|done..]. cbn [obind] in Em |- *.
    destruct (if 0 <? new_len - zlen l then _ else _) as [m2| |]; [|done..]. cbn [obind] in Em |- *. rewrite Em. cbn [obind]. done. }
  assert (zlen (kept ++ replicate (Z.to_nat (new_len - zlen l)) x00) = new_len) as Elen.
  { rewrite zlen_app, Kl. unfold zlen at 2. rewrite length_replicate. lia. }
  exists kept. split_and!; [|done| |].
  - unfold heap_start in Hb. split; cbn [s_data s_mem s_alloc]; rewrite ?Elen; [done|lia| |].
    + intros _. unfold heap_start. lia.
    + unfold _mlib_string_empty. simpl. lia.
  - apply list_eq_same_length with (n := Z.to_nat (Z.min (zlen l - 3) new_len)); [unfold zlen in *; rewrite length_take; lia..|].
    intros i x y Hi. rewrite !lookup_take_lt by lia. rewrite Ki by lia. congruence.
  - intros Hr. specialize (Hr _ _ _ _ _ _ Er).
    assert (take (Z.to_nat (Z.min (zlen l + 9) (new_len + 9))) (b_bytes b) =
            take (Z.to_nat (Z.min (zlen l + 9) (new_len + 9))) (le64 (zlen l) ++ l ++ [x00] ++ post)) as Hk'.
    { rewrite <- Eb. apply (f_equal (take (Z.to_nat (Z.min (zlen l + 9) (new_len + 9))))) in Hr. rewrite !take_take in Hr.
      rewrite !Nat.min_l in Hr by (unfold zlen in *; lia). done. }
    destruct (kept_chars b (le64 (zlen l)) l ([x00] ++ post) (zlen l + 9) new_len) as (_ & _ & Ki'); [apply zlen_le64|lia|lia|lia|done|].
    fold kept in Ki'. apply list_eq_same_length with (n := Z.to_nat (Z.min (zlen l) new_len)); [unfold zlen in *; rewrite ?length_take; lia..|].
    intros i x y Hi. rewrite lookup_take_lt by lia. rewrite Ki' by lia. congruence.
Qed.
End Strings.
Arguments mlib_str AS : clear implicits.

(** Deleting a string gives its region back to the allocator with the size it was requested with; the empty string
    and the null string own nothing. *)
Theorem string_delete_spec {AS} `{Allocator AS} (s : mlib_str AS) l : text_of s l ->
  mlib_str_delete s =
  Done (if s_data s =? _mlib_string_empty then s_alloc s else mlib_deallocate (s_alloc s) (Some (s_mem s)) (zlen l + 9)).
Proof.
  intros Ht. unfold mlib_str_delete. destruct (Z.eqb_spec (s_data s) _mlib_string_empty) as [E|E]; [by rewrite orb_true_r|].
  pose proof (text_owned s l Ht E) as [Eb Hh]. unfold heap_start in Hh. destruct (Z.eqb_spec (s_data s) 0); [lia|]. simpl.
  rewrite (text_length s l Ht). ostep. rewrite (proj2 (Z.eqb_eq _ _)) by done. by replace (zlen l + 8 + 1) with (zlen l + 9) by lia.
Qed.

(** ** Concrete runs *)

(** Two strings made of text. *)
Definition hello : str_view := map z2b [104; 101; 108; 108; 111].
Definition made (l : str_view) : mlib_str copier :=
  match _mlib_str_copy l (mk_copier 0 1000) with Done s => s | _ => mlib_str_null (mk_copier 0 0) end.

Lemma granted n : 0 <= n <= 900 -> ~ refused (mk_copier 0 1000) n.
Proof.
  intros Hn. unfold refused, mlib_reallocate, reallocate, copier_allocator. simpl.
  rewrite (proj2 (Z.ltb_lt _ _)), (proj2 (Z.leb_le _ _)) by lia. done.
Qed.

Lemma made_text l : zlen l <= 900 -> text_of (made l) l.
Proof.
  intros Hl. unfold made, _mlib_str_copy, mlib_str_copy_data. pose proof (zlen_nonneg l).
  destruct (string_new_spec (zlen l) (mk_copier 0 1000)) as (r & -> & Hr); [lia|lia|]. ostep.
  pose proof (granted (zlen l) ltac:(lia)) as Hg. unfold refused in Hg.
  destruct (mlib_reallocate (mk_copier 0 1000) None (zlen l + 9) 5) as [a' [b|]]; [|by destruct Hg]. destruct Hr as [Ht Hd].
  rewrite zlen_to_nat in Ht. destruct (store_next r [] l l [] (length l) Ht) as (r' & Es & _ & Ht'); [simpl; lia|by rewrite app_nil_r| |].
  - intros Hx. destruct (decide (0 < zlen l)) as [Hp|Hp]; [by apply Hd in Hp|]. unfold zlen in Hp. lia.
  - rewrite zlen_nil, Z.add_0_r in Es. rewrite Es. simpl in Ht'. by rewrite app_nil_r in Ht'.
Qed.

(** Witness of [string_copy_spec], with and without memory. *)
Lemma string_copy_spec_witness :
  (exists r, _mlib_str_copy hello (mk_copier 0 1000) = Done r /\ text_of r hello /\ _mlib_str_as_view r = Done hello) /\
  _mlib_str_copy hello (mk_copier 0 10) = Undef.
Proof.
  split.
  - apply (string_copy_spec hello (mk_copier 0 1000)); [vm_compute; discriminate|]. apply granted. vm_compute. split; discriminate.
  - destruct (string_copy_spec hello (mk_copier 0 10)) as [_ Hr]; [vm_compute; discriminate|]. rewrite Hr; [|done].
    destruct (decide (hello = [])) as [E|_]; [discriminate E|reflexivity].
Defined.

(** Witness of [string_splice_spec]: an insertion in place of two characters. *)
Lemma string_splice_spec_witness : exists r,
  _mlib_str_splice hello 1 2 (Some (map z2b [97])) (mk_copier 0 1000) = Done r /\ text_of r (map z2b [104; 97; 108; 111]).
Proof.
  apply (string_splice_spec hello 1 2 (Some (map z2b [97])) (mk_copier 0 1000)); [lia|lia|vm_compute; discriminate|].
  apply granted. vm_compute. split; discriminate.
Defined.

(** Witness of [string_delete_spec]. *)
Lemma string_delete_spec_witness : text_of (made hello) hello /\
  mlib_str_delete (made hello) =
  Done (if s_data (made hello) =? _mlib_string_empty then s_alloc (made hello)
        else mlib_deallocate (s_alloc (made hello)) (Some (s_mem (made hello))) (zlen hello + 9)).
Proof.
  assert (text_of (made hello) hello) as Ht by (apply made_text; vm_compute; discriminate).
  split; [exact Ht|]. exact (string_delete_spec (made hello) hello Ht).
Defined.

(** Witness of [string_resize_spec]: the string is made longer. *)
Lemma string_resize_spec_witness : exists s' ok,
  mlib_str_mut_resize (made hello) 7 = Done (s', ok) /\
  (if ok : bool then exists kept,
     text_of s' (kept ++ replicate (Z.to_nat (7 - zlen hello)) x00) /\ zlen kept = Z.min (zlen hello) 7 /\
     take (Z.to_nat (zlen hello - 3)) kept = take (Z.to_nat (Z.min (zlen hello - 3) 7)) hello /\
     (realloc_like (AS := copier) -> kept = take (Z.to_nat 7) hello)
   else text_of s' hello).
Proof.
  apply (string_resize_spec (made hello) hello 7); [apply made_text|..]; vm_compute; discriminate.
Defined.

(** With an allocator that keeps what it is told to keep, the last three characters of a string are lost when it
    grows. *)
Example resize_loses_text :
  (let* (s, _) := mlib_str_mut_resize (made hello) 7 in _mlib_str_as_view s) = Done (map z2b [104; 101; 0; 0; 0; 0; 0]).
Proof. vm_compute. reflexivity. Qed.
