(* ===== verification/Vec.v ===== *)
(** * Vectors ([include/mlib/vec.t.h])

    The container that the header declares for an element type [T] of [sizeof_T] bytes.  Elements are
    relocated as bytes; those that are given to [VecDestroyElement] are returned. *)
From Stdlib Require Import ZArith Lia.
From Stdlib Require Import Strings.Byte.
From stdpp Require Import base numbers list.
From S2P Require Import Prelude.
From S2P Require Import Mem.
From S2P Require Import Alloc.
Open Scope Z_scope.

Section Vec.
Context {AS : Type} `{Allocator AS}.
(** [sizeof(T)], and [VecInitElement] when it is defined: the bytes of the element that it makes. *)
Context (sizeof_T : Z) (VecInitElement : option (AS -> list byte)).

(** The null pointer is [None]. *)
Record vec : Type := mk_vec { v_data : option block; v_size : Z; v_allocator : AS }.

Definition vec_max_size : Z := Z.quot INT64_MAX sizeof_T.

(** [data[i]]. *)
Definition element (v : vec) (i : Z) : outcome (list byte) :=
  match v_data v with
  | Some b => rd_range b (b_base b + i * sizeof_T) sizeof_T
  | None => Undef
  end.

(** The loop that destroys [n] elements from [i] on. *)
Fixpoint destroy_from (v : vec) (i : Z) (n : nat) : outcome (list (list byte)) :=
  match n with
  | O => Done []
  | S n =>
    let* e := element v i in
    let* es := destroy_from v (i + 1) n in
    Done (e :: es)
  end.

(** The loop that initialises [n] elements from [iter] on. *)
Fixpoint init_from (m : block) (iter : Z) (e : list byte) (n : nat) : outcome block :=
  match n with
  | O => Done m
  | S n => let* m := wr_range m iter e in init_from m (iter + sizeof_T) e n
  end.

(** Returns the vector, whether it was resized, and what was destroyed. *)
Definition vec_resize (self : vec) (count : Z) : outcome (vec * bool * list (list byte)) :=
  if count >? vec_max_size then Done (self, false, [])
  else
    let* destroyed := if count <? v_size self then destroy_from self count (Z.to_nat (v_size self - count)) else Done [] in
    if count =? 0 then
      let a := mlib_deallocate (v_allocator self) (v_data self) (v_size self * sizeof_T) in
      Done (mk_vec None 0 a, true, destroyed)
    else
      let '(a, pointer) :=
        if negb (count =? v_size self)
        then mlib_reallocate (v_allocator self) (v_data self) (count * sizeof_T) (v_size self * sizeof_T)
        else (v_allocator self, v_data self) in
      match pointer with
      | None => Done (mk_vec (v_data self) (v_size self) a, false, destroyed)
      | Some m =>
        let* m :=
          if v_size self <? count then
            let iter := b_base m + v_size self * sizeof_T in
            let* (m, _) := _bson_memset m iter x00 (sizeof_T * (count - v_size self)) in
            match VecInitElement with
            | Some init => init_from m iter (init a) (Z.to_nat (count - v_size self))
            | None => Done m
            end
          else Done m in
        Done (mk_vec (Some m) count a, true, destroyed)
      end.

(** The address of the new element, unless there is no memory. *)
Definition vec_push (self : vec) : outcome (vec * option Z) :=
  let count := v_size self in
  let* (self, ok, _) := vec_resize self (count + 1) in
  if negb ok then Done (self, None)
  else match v_data self with Some b => Done (self, Some (b_base b + count * sizeof_T)) | None => Undef end.

Definition vec_new (a : AS) : vec := mk_vec None 0 a.

(** The allocator and what was destroyed. *)
Definition vec_delete (v : vec) : outcome (AS * list (list byte)) :=
  let* (v, _, destroyed) := vec_resize v 0 in Done (v_allocator v, destroyed).

Definition vec_new_n (n : Z) (a : AS) : outcome (vec * bool) :=
  let ret := vec_new a in
  let* (ret, okay, _) := vec_resize ret n in Done (ret, okay).

(** ** What a vector holds *)

Definition sized (es : list (list byte)) : Prop := Forall (fun e => zlen e = sizeof_T) es.

Definition holds (v : vec) (es : list (list byte)) : Prop :=
  v_size v = zlen es /\ sized es /\
  match v_data v with
  | None => es = []
  | Some b => 0 < zlen es /\ exists tail, b_bytes b = concat es ++ tail
  end.

(** The element that growing makes. *)
Definition fresh (a : AS) : list byte :=
  match VecInitElement with Some init => init a | None => replicate (Z.to_nat sizeof_T) x00 end.

Hypothesis sizeof_pos : 0 < sizeof_T.
Hypothesis init_sized : forall a, zlen (fresh a) = sizeof_T.

Lemma concat_len es : sized es -> zlen (concat es) = zlen es * sizeof_T.
Proof. induction 1 as [|e es He _ IH]; [done|]. simpl. rewrite zlen_app, zlen_cons, He, IH. lia. Qed.

Lemma sized_app es1 es2 : sized (es1 ++ es2) <-> sized es1 /\ sized es2.
Proof. apply Forall_app. Qed.

Lemma sized_replicate n a : sized (replicate n (fresh a)).
Proof. apply Forall_replicate. apply init_sized. Qed.

Lemma element_at v es1 e es2 : holds v (es1 ++ e :: es2) -> element v (zlen es1) = Done e.
Proof.
  intros (_ & Hs & Hd). unfold element. destruct (v_data v) as [b|]; [|by destruct es1].
  destruct Hd as (_ & tail & Eb). apply sized_app in Hs as [H1 H2]. inversion H2 as [|? ? He H3]. subst.
  rewrite <- He. apply rd_range_at. exists (concat es1), (concat es2 ++ tail).
  rewrite concat_app in Eb. simpl in Eb. rewrite Eb, <- !app_assoc. split; [done|]. rewrite concat_len by done. rewrite He. lia.
Qed.

Lemma destroy_from_spec v es2 : forall es1, holds v (es1 ++ es2) -> destroy_from v (zlen es1) (length es2) = Done es2.
Proof.
  induction es2 as [|e es2 IH]; intros es1 Hv; [done|]. simpl. rewrite (element_at v es1 e es2 Hv). ostep.
  replace (zlen es1 + 1) with (zlen (es1 ++ [e])) by (rewrite zlen_app; done).
  rewrite IH by (by rewrite <- app_assoc). done.
Qed.

Lemma init_from_spec e n : zlen e = sizeof_T -> forall m pre old post,
  b_bytes m = pre ++ old ++ post -> zlen old = Z.of_nat n * sizeof_T -> exists m',
  init_from m (b_base m + zlen pre) e n = Done m' /\ b_base m' = b_base m /\ b_bytes m' = pre ++ concat (replicate n e) ++ post.
Proof.
  intros He. induction n as [|n IH]; intros m pre old post Eb Ho; simpl.
  - destruct old; [|rewrite zlen_cons in Ho; pose proof (zlen_nonneg old); lia]. by exists m.
  - rewrite <- (take_drop (Z.to_nat sizeof_T) old), <- app_assoc in Eb.
    assert (zlen (take (Z.to_nat sizeof_T) old) = zlen e) as Ht by (unfold zlen in *; rewrite length_take; lia).
    rewrite (wr_range_at m pre _ _ e Eb Ht). ostep.
    destruct (IH (mk_block (b_base m) (pre ++ e ++ drop (Z.to_nat sizeof_T) old ++ post)) (pre ++ e) (drop (Z.to_nat sizeof_T) old) post) as (m' & E1 & B1 & Y1).
    { simpl. by rewrite <- app_assoc. }
    { unfold zlen in *. rewrite length_drop. lia. }
    exists m'. simpl in E1. rewrite zlen_app, He, Z.add_assoc in E1. rewrite E1. split; [done|]. split; [done|].
    by rewrite Y1, <- !app_assoc.
Qed.

(** The elements of [m] after [vec_resize] has initialised the new ones. *)
Lemma grow_spec m a es (n : nat) tail : sized es -> b_bytes m = concat es ++ tail -> Z.of_nat n * sizeof_T <= zlen tail -> exists m' tail',
  (let* (m1, _) := _bson_memset m (b_base m + zlen es * sizeof_T) x00 (sizeof_T * Z.of_nat n) in
   match VecInitElement with Some init => init_from m1 (b_base m + zlen es * sizeof_T) (init a) n | None => Done m1 end) = Done m' /\
  b_base m' = b_base m /\ b_bytes m' = concat (es ++ replicate n (fresh a)) ++ tail'.
Proof.
  intros Hs Eb Ht. pose proof (concat_len es Hs) as Hl. set (k := Z.to_nat (Z.of_nat n * sizeof_T)).
  assert (zlen (take k tail) = Z.of_nat n * sizeof_T) as Hk by (unfold k, zlen in *; rewrite length_take; lia).
  rewrite <- (take_drop k tail) in Eb. unfold _bson_memset. rewrite <- Hl.
  rewrite (wr_range_at m (concat es) (take k tail) (drop k tail)); [|done|rewrite Hk; unfold zlen; rewrite length_replicate; lia].
  ostep. rewrite concat_app. pose proof (init_sized a) as Hi. unfold fresh in Hi |- *. destruct VecInitElement as [init|].
  - destruct (init_from_spec (init a) n Hi (mk_block (b_base m) (concat es ++ replicate (Z.to_nat (sizeof_T * Z.of_nat n)) x00 ++ drop k tail))
      (concat es) (replicate (Z.to_nat (sizeof_T * Z.of_nat n)) x00) (drop k tail)) as (m' & E1 & B1 & Y1); [done| |].
    { unfold zlen. rewrite length_replicate. lia. }
    simpl in E1. exists m', (drop k tail). rewrite E1. split; [done|]. split; [done|]. by rewrite Y1, <- app_assoc.
  - eexists _, (drop k tail). split; [done|]. simpl. split; [done|]. rewrite <- app_assoc. do 2 f_equal.
    clear. replace (Z.to_nat (sizeof_T * Z.of_nat n)) with (n * Z.to_nat sizeof_T)%nat by nia.
    induction n as [|n IH]; [done|]. simpl. by rewrite replicate_add, IH.
Qed.

(** A region that grows or shrinks keeps the elements that have room in it. *)
Lemma kept_elements `{!KeepsRequested AS} (v : vec) es count a m : holds v es -> 0 <= count ->
  mlib_reallocate (v_allocator v) (v_data v) (count * sizeof_T) (zlen es * sizeof_T) = (a, Some m) ->
  exists tail, b_bytes m = concat (take (Z.to_nat count) es) ++ tail.
Proof.
  intros (_ & Hs & Hd) Hc Er. set (keep := take (Z.to_nat count) es). pose proof (zlen_nonneg es).
  assert (sized keep) as Hks by (apply Forall_take; done).
  assert (zlen keep = Z.min count (zlen es)) as Hkl by (unfold keep, zlen in *; rewrite length_take; lia).
  destruct (v_data v) as [b|] eqn:Ev; [|exists (b_bytes m); unfold keep; rewrite Hd, take_nil; done].
  destruct Hd as (Hpos & tl & Eb). pose proof (concat_len es Hs) as Hcl.
  pose proof (keeps_requested _ _ _ _ _ _ Er) as Hk. rewrite Eb, zlen_app, Hcl in Hk. pose proof (zlen_nonneg tl).
  specialize (Hk ltac:(nia)). pose proof (concat_len keep Hks) as Hkcl.
  exists (drop (length (concat keep)) (b_bytes m)). rewrite <- (take_drop (length (concat keep)) (b_bytes m)) at 1. f_equal.
  replace (Z.to_nat (Z.min (zlen es * sizeof_T) (count * sizeof_T))) with (length (concat keep)) in Hk
    by (unfold zlen in *; nia). rewrite Hk.
  unfold keep at 2. rewrite <- (take_drop (Z.to_nat count) es) at 1. rewrite concat_app, <- app_assoc. apply take_app_length.
Qed.

(** Resizing a vector: the elements past the new length are destroyed, each once and in order, the
    others are kept where they are in the sequence, and new ones are initialised at the end; when the allocator refuses, the vector
    has the region and the length that it had. *)
Theorem resize_elements `{!AllocatorOk AS} `{!KeepsRequested AS} (v : vec) es count : holds v es -> 0 <= count ->
  count * sizeof_T <= INT32_MAX -> exists v' ok,
  vec_resize v count = Done (v', ok, drop (Z.to_nat count) es) /\
  (if ok : bool then holds v' (take (Z.to_nat count) es ++ replicate (Z.to_nat (count - zlen es)) (fresh (v_allocator v')))
   else v_data v' = v_data v /\ v_size v' = v_size v /\
        snd (mlib_reallocate (v_allocator v) (v_data v) (count * sizeof_T) (zlen es * sizeof_T)) = None).
Proof.
  intros Hv Hc Hf. pose proof Hv as (Hsz & Hs & Hd). pose proof (zlen_nonneg es). unfold vec_resize, vec_max_size.
  destruct (Z.gtb_spec count (Z.quot INT64_MAX sizeof_T)) as [Hm|_].
  { assert (count <= INT64_MAX ÷ sizeof_T); [|lia]. apply Z.quot_le_lower_bound; lia. }
  assert ((if count <? v_size v then destroy_from v count (Z.to_nat (v_size v - count)) else Done []) = Done (drop (Z.to_nat count) es)) as ->.
  { rewrite Hsz. destruct (Z.ltb_spec count (zlen es)) as [Hlt|Hge]; [|rewrite drop_ge by (unfold zlen in *; lia); done].
    assert (zlen (take (Z.to_nat count) es) = count) as Ht by (unfold zlen in *; rewrite length_take; lia).
    rewrite <- Ht at 1. rewrite <- (destroy_from_spec v (drop (Z.to_nat count) es) (take (Z.to_nat count) es)) by (by rewrite take_drop).
    f_equal. rewrite length_drop. unfold zlen. lia. }
  ostep. destruct (Z.eqb_spec count 0) as [->|Hne].
  { do 2 eexists. split; [done|]. simpl.
    replace (Z.to_nat (0 - zlen es)) with 0%nat by lia. split; [done|]. split; [constructor|done]. }
  rewrite Hsz. destruct (Z.eqb_spec count (zlen es)) as [Heq|Hdiff]; simpl.
  - destruct (v_data v) as [b|] eqn:Ev; [|subst es; done]. rewrite (proj2 (Z.ltb_ge _ _)) by lia. ostep.
    do 2 eexists. split; [done|]. simpl. rewrite take_ge by (unfold zlen in *; lia). replace (Z.to_nat (count - zlen es)) with 0%nat by lia.
    simpl. rewrite app_nil_r. split; [simpl; lia|]. by split.
  - destruct (mlib_reallocate (v_allocator v) (v_data v) (count * sizeof_T) (zlen es * sizeof_T)) as [a [m|]] eqn:Er.
    2: { do 2 eexists. split; [done|]. by simpl. }
    pose proof Er as Er'. apply reallocate_region in Er' as [_ Hz]; [|nia].
    set (keep := take (Z.to_nat count) es). assert (sized keep) as Hks by (apply Forall_take; done).
    assert (zlen keep = Z.min count (zlen es)) as Hkl by (unfold keep, zlen in *; rewrite length_take; lia).
    destruct (kept_elements v es count a m Hv Hc Er) as [tail Etail]. fold keep in Etail.
    destruct (Z.ltb_spec (zlen es) count) as [Hgrow|Hshrink].
    + assert (keep = es) as Ekeep by (unfold keep; apply take_ge; unfold zlen in *; lia). rewrite Ekeep in *.
      pose proof (concat_len es Hs) as Hcl.
      destruct (grow_spec m a es (Z.to_nat (count - zlen es)) tail Hs Etail) as (m' & tail' & E1 & B1 & Y1).
      { rewrite Etail, zlen_app, Hcl in Hz. rewrite Z2Nat.id by lia. nia. }
      rewrite Z2Nat.id in E1 by lia. rewrite E1. ostep. do 2 eexists. split; [done|].
      split; [|split]; simpl.
      * rewrite zlen_app. unfold zlen at 2. rewrite length_replicate. lia.
      * apply sized_app. split; [done|]. apply sized_replicate.
      * split; [|by exists tail']. rewrite zlen_app. unfold zlen at 2. rewrite length_replicate. lia.
    + ostep. do 2 eexists. split; [done|]. replace (Z.to_nat (count - zlen es)) with 0%nat by lia. simpl. rewrite app_nil_r.
      split; [simpl; lia|]. split; [done|]. simpl. split; [lia|by exists tail].
Qed.
(** A new vector of [n] elements, and the deletion of a vector. *)
Lemma new_n_spec `{!AllocatorOk AS} n (a : AS) : 0 <= n -> n * sizeof_T <= INT32_MAX -> ~ denies a -> exists v,
  vec_new_n n a = Done (v, true) /\ holds v (replicate (Z.to_nat n) (fresh (v_allocator v))).
Proof.
  intros Hn Hf Hg. unfold vec_new_n, vec_resize, vec_new, vec_max_size. cbn [v_size v_data v_allocator].
  destruct (Z.gtb_spec n (Z.quot INT64_MAX sizeof_T)) as [Hm|_].
  { assert (n <= INT64_MAX ÷ sizeof_T); [|lia]. apply Z.quot_le_lower_bound; lia. }
  rewrite (proj2 (Z.ltb_ge _ _)) by lia. ostep. destruct (Z.eqb_spec n 0) as [->|Hne].
  { eexists. split; [done|]. split; [done|]. split; [constructor|done]. }
  cbn [negb]. destruct (mlib_reallocate a None (n * sizeof_T) (0 * sizeof_T)) as [a' [m|]] eqn:Er.
  2: { exfalso. apply Hg. exists None, (n * sizeof_T), (0 * sizeof_T). split; [nia|]. unfold mlib_reallocate in Er. by rewrite Er. }
  apply reallocate_region in Er as [Hb Hz]; [|nia]. rewrite (proj2 (Z.ltb_lt _ _)) by lia.
  destruct (grow_spec m a' [] (Z.to_nat n) (b_bytes m)) as (m' & tail' & Eg & Hb' & Hm'); [constructor|done|nia|].
  rewrite (zlen_nil (A := list byte)) in Eg. replace (Z.of_nat (Z.to_nat n)) with (n - 0) in Eg by lia.
  replace (Z.to_nat n) with (Z.to_nat (n - 0)) in Eg by lia.
  destruct (_bson_memset m (b_base m + 0 * sizeof_T) x00 (sizeof_T * (n - 0))) as [[m1 ?]| |]; cbn [obind] in Eg |- *; [|done..].
  rewrite Eg. ostep. eexists. split; [done|]. cbn [v_allocator]. split; [|split]; cbn [v_size v_data].
  - unfold zlen. rewrite length_replicate. lia.
  - apply sized_replicate.
  - split; [unfold zlen; rewrite length_replicate; lia|]. exists tail'. done.
Qed.

Lemma delete_elements v es : holds v es -> exists a, vec_delete v = Done (a, es).
Proof.
  intros Hv. pose proof Hv as (Hsz & Hs & Hd). pose proof (zlen_nonneg es). unfold vec_delete, vec_resize, vec_max_size.
  destruct (Z.gtb_spec 0 (Z.quot INT64_MAX sizeof_T)) as [Hm|_].
  { assert (0 <= INT64_MAX ÷ sizeof_T); [|lia]. apply Z.quot_pos; lia. }
  assert ((if 0 <? v_size v then destroy_from v 0 (Z.to_nat (v_size v - 0)) else Done []) = Done es) as ->.
  { rewrite Hsz. destruct (Z.ltb_spec 0 (zlen es)) as [Hl|Hl].
    - rewrite <- (destroy_from_spec v es [] Hv). f_equal. unfold zlen. lia.
    - destruct es; [done|]. rewrite zlen_cons in Hl. pose proof (zlen_nonneg es). lia. }
  ostep. rewrite Z.eqb_refl. ostep. by eexists.
Qed.
End Vec.
Arguments vec AS : clear implicits.

(** Witness of [resize_elements]: a vector of two elements of two bytes loses the second; and one
    that has no memory to grow. *)
Definition pair_vec : vec copier := mk_vec (Some (mk_block 64 [x01; x02; x03; x04])) 2 (mk_copier 4 3).

Lemma pair_holds : holds 2 pair_vec [[x01; x02]; [x03; x04]].
Proof.
  split; [done|]. split; [by repeat constructor|]. split; [done|]. by exists [].
Qed.

Lemma resize_elements_witness :
  (exists v' ok, vec_resize 2 None pair_vec 1 = Done (v', ok, [[x03; x04]]) /\
     (if ok : bool then holds 2 v' ([[x01; x02]] ++ []) else v_data v' = v_data pair_vec /\ v_size v' = 2 /\
        snd (mlib_reallocate (mk_copier 4 3) (v_data pair_vec) 2 4) = None)) /\
  (exists v' ok, vec_resize 2 None pair_vec 3 = Done (v', ok, []) /\
     (if ok : bool then holds 2 v' ([[x01; x02]; [x03; x04]] ++ [[x00; x00]]) else v_data v' = v_data pair_vec /\ v_size v' = 2 /\
        snd (mlib_reallocate (mk_copier 4 3) (v_data pair_vec) 6 4) = None)).
Proof.
  split.
  - apply (resize_elements 2 None ltac:(lia) ltac:(done) pair_vec [[x01; x02]; [x03; x04]] 1 pair_holds); [lia|vm_compute; discriminate].
  - apply (resize_elements 2 None ltac:(lia) ltac:(done) pair_vec [[x01; x02]; [x03; x04]] 3 pair_holds); [lia|vm_compute; discriminate].
Defined.
