(* ===== verification/OwnedValue.v ===== *)
(** * Owned BSON values ([include/bson/value.h])

    [bson_value] is a tagged union whose strings, documents and binary data own their memory: its copy, its deletion, and the
    view of it as a [bson_value_ref]. *)
From Stdlib Require Import ZArith Lia.
From Stdlib Require Import Strings.Byte.
From stdpp Require Import base numbers list.
From S2P Require Import Prelude.
From S2P Require Import Mem.
From S2P Require Import Types.
From S2P Require Import View.
From S2P Require Import Alloc.
From S2P Require Import Str.
From S2P Require Import Doc.
From S2P Require Import StrMut.
From S2P Require Import Vec.
Open Scope Z_scope.
Open Scope outcome_scope.

(** The types whose member is [string], and those whose member is [document]. *)
Inductive string_type : Type := t_utf8 | t_code | t_symbol.
Inductive document_type : Type := t_document | t_array.

Section OwnedValue.
Context {AS : Type} `{Allocator AS}.

(** [bson_value], and a tag that is not one of the enumeration. *)
Inductive bson_value : Type :=
| o_eod
| o_double (bits : Z)
| o_string (t : string_type) (s : mlib_str AS)
| o_document (t : document_type) (d : bson_doc AS)
| o_binary (bytes : vec AS) (subtype : byte)
| o_undefined
| o_oid (o : list byte)
| o_bool (b : bool)
| o_datetime (utc_ms_offset : Z)
| o_null
| o_regex (rx options : mlib_str AS)
| o_dbpointer (collection : mlib_str AS) (object_id : list byte)
| o_codewscope
| o_int32 (z : Z)
| o_timestamp (increment utc_sec_offset : Z)
| o_int64 (z : Z)
| o_decimal128 (bytes : list byte)
| o_maxkey
| o_minkey
| o_unknown (tag : Z).

(** What the deletion gives back: the allocators after it. *)
Definition bson_value_delete (val : bson_value) : outcome (list AS) :=
  match val with
  | o_string _ s => let* a := mlib_str_delete s in Done [a]
  | o_document _ d => let* a := bson_delete d in Done [a]
  | o_binary bytes _ => let* (a, _) := vec_delete 1 None bytes in Done [a]
  | o_dbpointer collection _ => let* a := mlib_str_delete collection in Done [a]
  | o_regex rx options =>
    let* a := mlib_str_delete rx in
    let* a' := mlib_str_delete options in
    Done [a; a']
  | _ => Done []
  end.

(** The bytes that [bson_view_from(doc)] refers to. *)
Definition doc_view_bytes (d : bson_doc AS) : outcome (list byte) :=
  let* n := _bson_byte_size (doc_buf d) (_bson_document_data d) in
  rd_range (doc_buf d) (_bson_document_data d) n.

(** The bytes of a vector of bytes. *)
Definition vec_bytes (v : vec AS) : outcome (list byte) :=
  match v_data v with Some b => rd_range b (b_base b) (v_size v) | None => if v_size v =? 0 then Done [] else Undef end.

(** A regular expression falls through to the case of the database pointer, whose member is not the active one. *)
Definition _bson_value_ref_from_value (val : bson_value) : outcome bson_value_ref :=
  match val with
  | o_eod => Done v_eod
  | o_undefined => Done v_undefined
  | o_null => Done v_null
  | o_maxkey => Done v_maxkey
  | o_minkey => Done v_minkey
  | o_double d => Done (v_double d)
  | o_string t s =>
    let* utf8 := _mlib_str_as_view s in
    Done (match t with t_utf8 => v_utf8 utf8 | t_code => v_code utf8 | t_symbol => v_symbol utf8 end)
  | o_document t d =>
    let* bytes := doc_view_bytes d in
    Done (match t with t_document => v_document (Some bytes) | t_array => v_array (Some bytes) end)
  | o_binary bytes subtype => let* data := vec_bytes bytes in Done (v_binary subtype data)
  | o_oid o => Done (v_oid o)
  | o_bool b => Done (v_bool b)
  | o_datetime z => Done (v_datetime z)
  | o_regex _ _ => Undef
  | o_dbpointer c o => let* collection := _mlib_str_as_view c in Done (v_dbpointer collection o)
  | o_codewscope => Abort
  | o_int32 z => Done (v_int32 z)
  | o_timestamp i s => Done (v_timestamp i s)
  | o_int64 z => Done (v_int64 z)
  | o_decimal128 d => Done (v_decimal128 d)
  | o_unknown _ => Abort
  end.

(** The arguments that [_bsonAsValue] converts; the integers of up to 32 bits with a sign, and those below, become [int32_t], and [uint32_t] an
    [int64_t]. *)
Inductive convertible : Type :=
| c_double (bits : Z)
| c_mlib_str (s : mlib_str AS)
| c_mlib_str_view (s : list byte)
| c_bson_view (v : option (list byte))
| c_bson_doc (d : bson_doc AS)
| c_bson_array_view (v : option (list byte))
| c_bson_binary_view (subtype : byte) (data : list byte)
| c_bson_oid (o : list byte)
| c_bool (b : bool)
| c_bson_datetime (z : Z)
| c_bson_regex_view (regex options : option (list byte))
| c_bson_dbpointer_view (collection object_id : list byte)
| c_bson_code_view (s : list byte)
| c_bson_symbol_view (s : list byte)
| c_int (z : Z)
| c_uint32 (z : Z)
| c_int64 (z : Z)
| c_bson_timestamp (increment utc_sec_offset : Z)
| c_bson_decimal128 (d : list byte)
| c_bson_value (v : bson_value)
| c_bson_value_ref (v : bson_value_ref).

Definition _bsonAsValue (x : convertible) : outcome bson_value_ref :=
  match x with
  | c_double d => Done (v_double d)
  | c_mlib_str s => omap_outcome v_utf8 (_mlib_str_as_view s)
  | c_mlib_str_view s => Done (v_utf8 s)
  | c_bson_view v => Done (v_document v)
  | c_bson_doc d => omap_outcome (fun bytes => v_document (Some bytes)) (doc_view_bytes d)
  | c_bson_array_view v => Done (v_array v)
  | c_bson_binary_view subtype data => Done (v_binary subtype data)
  | c_bson_oid o => Done (v_oid o)
  | c_bool b => Done (v_bool b)
  | c_bson_datetime z => Done (v_datetime z)
  | c_bson_regex_view r o => Done (v_regex r o)
  | c_bson_dbpointer_view c o => Done (v_dbpointer c o)
  | c_bson_code_view s => Done (v_code s)
  | c_bson_symbol_view s => Done (v_symbol s)
  | c_int z => Done (v_int32 z)
  | c_uint32 z | c_int64 z => Done (v_int64 z)
  | c_bson_timestamp i s => Done (v_timestamp i s)
  | c_bson_decimal128 d => Done (v_decimal128 d)
  | c_bson_value v => _bson_value_ref_from_value v
  | c_bson_value_ref v => Done v
  end.

(** [bson_new(view)]: the bytes of the view lie somewhere. *)
Definition bson_new_from_view (v : option (list byte)) (alloc : AS) : outcome (bson_doc AS) :=
  match v with
  | Some bytes => _bson_copy_view_with_allocator (mk_block 4096 bytes) 4096 alloc
  | None => _bson_copy_view_with_allocator (mk_block 4096 []) 0 alloc
  end.

(** A null view has no characters. *)
Definition or_empty (s : option (list byte)) : list byte := match s with Some s => s | None => [] end.

(** The copy of a string, or the empty value when its pointer is null. *)
Definition copied (s : list byte) (default : AS) (make : mlib_str AS -> outcome bson_value) : outcome bson_value :=
  let* s := _mlib_str_copy s default in
  if s_data s =? 0 then Done o_eod else make s.

(** Strings and documents are copied with the default allocator; of binary data the copy has the size. *)
Definition _bson_value_copy (default : AS) (val : bson_value_ref) (alloc : AS) : outcome bson_value :=
  match val with
  | v_eod => Done o_eod
  | v_undefined => Done o_undefined
  | v_null => Done o_null
  | v_maxkey => Done o_maxkey
  | v_minkey => Done o_minkey
  | v_double d => Done (o_double d)
  | v_utf8 s => copied s default (fun s => Done (o_string t_utf8 s))
  | v_document d | v_array d =>
    let* document := bson_new_from_view d default in
    if _bson_document_data document =? 0 then Done o_eod
    else Done (o_document (match val with v_array _ => t_array | _ => t_document end) document)
  | v_binary subtype data =>
    let* (bytes, alloc_okay) := vec_new_n 1 None (zlen data) alloc in
    if negb alloc_okay then Done o_eod else Done (o_binary bytes subtype)
  | v_oid o => Done (o_oid o)
  | v_bool b => Done (o_bool b)
  | v_datetime z => Done (o_datetime z)
  | v_regex regex options =>
    copied (or_empty regex) default (fun rx =>
      let* options := _mlib_str_copy (or_empty options) (s_alloc rx) in
      if s_data options =? 0 then let* _ := mlib_str_delete rx in Done o_eod
      else Done (o_regex rx options))
  | v_dbpointer collection o => copied collection default (fun c => Done (o_dbpointer c o))
  | v_code s => copied s default (fun s => Done (o_string t_code s))
  | v_symbol s => copied s default (fun s => Done (o_string t_symbol s))
  | v_int32 z => Done (o_int32 z)
  | v_timestamp i s => Done (o_timestamp i s)
  | v_int64 z => Done (o_int64 z)
  | v_decimal128 d => Done (o_decimal128 d)
  | v_codewscope => Abort
  | v_unknown t => Done (o_unknown t)
  end.

(** ** What a copy holds *)

(** The sizes of the value are in range, and its documents are framed. *)
Definition copyable (v : bson_value_ref) : Prop :=
  match v with
  | v_utf8 s | v_code s | v_symbol s | v_dbpointer s _ => zlen s + 9 <= INT32_MAX
  | v_regex r o => zlen (or_empty r) + 9 <= INT32_MAX /\ zlen (or_empty o) + 9 <= INT32_MAX
  | v_binary _ data => zlen data <= INT32_MAX
  | v_document d | v_array d => exists B, d = Some (frame B) /\ 5 + zlen B <= INT32_MAX - 4
  | v_codewscope | v_unknown _ => False
  | _ => True
  end.

(** What the view of the copy is. *)
Definition seen (v : bson_value_ref) : outcome bson_value_ref :=
  match v with
  | v_binary subtype data => Done (v_binary subtype (replicate (length data) x00))
  | v_regex _ _ => Undef
  | v => Done v
  end.

Context `{!AllocatorOk AS}.
Hypothesis granted : forall a : AS, ~ denies a.

Lemma copied_spec s default make : zlen s + 9 <= INT32_MAX ->
  exists r, text_of r s /\ copied s default make = make r.
Proof.
  intros Hs. destruct (string_copy_spec s default Hs) as [Hg _]. destruct Hg as (r & E & Ht & _).
  { intros Hr. apply (granted default). exists None, (zlen s + 9), 5. pose proof (zlen_nonneg s). split; [lia|exact Hr]. }
  exists r. split; [done|]. unfold copied. rewrite E. cbn [obind].
  assert (s_data r <> 0) as Hd.
  { destruct (decide (s_data r = _mlib_string_empty)) as [->|Hne]; [done|]. destruct (text_owned r s Ht Hne). unfold heap_start in *. lia. }
  by rewrite (proj2 (Z.eqb_neq _ _)).
Qed.

Lemma deleted_string r s : text_of r s -> exists a, mlib_str_delete r = Done a.
Proof. intros Ht. rewrite (string_delete_spec r s Ht). by eexists. Qed.

Lemma document_copied B default : 5 + zlen B <= INT32_MAX - 4 ->
  exists d cap, bson_new_from_view (Some (frame B)) default = Done d /\ doc_holds d B cap.
Proof.
  intros Hz. destruct (copy_spec (mk_block 4096 (frame B)) 4096 B default) as [Hr|H1]; [done| |lia| |exact H1].
  - exists [], []. split; [by rewrite app_nil_r|]. done.
  - by apply (not_refused granted) in Hr.
Qed.

Lemma document_seen d B cap : doc_holds d B cap -> 5 + zlen B <= INT32_MAX -> doc_view_bytes d = Done (frame B).
Proof.
  intros Hd Hz. pose proof (holds_at _ _ _ Hd) as Hat. pose proof (zlen_nonneg B). unfold doc_view_bytes, _bson_byte_size.
  rewrite (holds_not_null _ _ _ Hd).
  assert (_bson_read_u32le (doc_buf d) (_bson_document_data d) = Done (5 + zlen B)) as ->.
  { apply bytes_at_app_l in Hat. replace (5 + zlen B) with (4 + zlen B + 1) by lia. apply read_le32; [unfold is_u32; lia|done]. }
  ostep. rewrite <- zlen_frame. by apply rd_range_at.
Qed.

Lemma concat_zeros n : concat (replicate n [x00]) = replicate n x00.
Proof. induction n as [|n IH]; [done|]. simpl. by rewrite IH. Qed.

(** The bytes that a vector is made with are zeros. *)
Lemma bytes_made (n : Z) (a : AS) : 0 <= n <= INT32_MAX -> exists v, vec_new_n 1 None n a = Done (v, true) /\
  vec_bytes v = Done (replicate (Z.to_nat n) x00) /\ exists a', vec_delete 1 None v = Done (a', replicate (Z.to_nat n) [x00]).
Proof.
  intros Hn. destruct (new_n_spec 1 None ltac:(lia) ltac:(done) n a) as (v & E & Hv); [lia|lia|apply granted|].
  change (fresh 1 None (v_allocator v)) with [x00] in Hv.
  exists v. split; [done|]. split; [|by apply delete_elements].
  destruct Hv as (Hs & _ & Hd). assert (zlen (replicate (Z.to_nat n) [x00]) = n) as Hz by (unfold zlen; rewrite length_replicate; lia).
  unfold vec_bytes. rewrite Hs, Hz. destruct (v_data v) as [b|].
  - destruct Hd as (_ & tail & Eb). rewrite concat_zeros in Eb. replace n with (zlen (replicate (Z.to_nat n) x00)) at 1 by (unfold zlen; rewrite length_replicate; lia).
    apply rd_range_at. exists [], tail. split; [done|]. rewrite zlen_nil. lia.
  - rewrite Hd in Hz. assert (n = 0) as -> by done. done.
Qed.

(** What a copy of the value is: its view is the one that is [seen], and it can be deleted. *)
Definition copy_of (o : bson_value) (v : bson_value_ref) : Prop :=
  _bson_value_ref_from_value o = seen v /\ exists l, bson_value_delete o = Done l.

Lemma value_copied (default a : AS) v : copyable v -> exists o, _bson_value_copy default v a = Done o /\ copy_of o v.
Proof.
  unfold copy_of. intros Hv. destruct v as [|bits|s|d|d|sub data| |o|b|z| |rx opt|c o|s|s| |z|ti ts|z|b| | |t]; cbn [copyable] in Hv; try done;
    cbn [_bson_value_copy seen]; try (by eexists; split; [done|split; [done|by eexists]]).
  (* strings *)
  1, 6, 7, 8: match goal with |- context [copied ?s ?d ?m] => destruct (copied_spec s d m Hv) as (r & Ht & ->) end;
    destruct (deleted_string r _ Ht) as [a' Ha']; eexists; (split; [done|]); cbn [_bson_value_ref_from_value bson_value_delete];
    rewrite (text_view r _ Ht), Ha'; cbn [obind]; (split; [done|by eexists]).
  - destruct Hv as (B & -> & Hz). destruct (document_copied B default Hz) as (d & cap & -> & Hd). cbn [obind].
    rewrite (holds_not_null _ _ _ Hd). eexists. split; [done|]. cbn [_bson_value_ref_from_value bson_value_delete].
    rewrite (document_seen d B cap Hd) by lia. rewrite (holds_deleted d B cap Hd). cbn [obind]. split; [done|by eexists].
  - destruct Hv as (B & -> & Hz). destruct (document_copied B default Hz) as (d & cap & -> & Hd). cbn [obind].
    rewrite (holds_not_null _ _ _ Hd). eexists. split; [done|]. cbn [_bson_value_ref_from_value bson_value_delete].
    rewrite (document_seen d B cap Hd) by lia. rewrite (holds_deleted d B cap Hd). cbn [obind]. split; [done|by eexists].
  - destruct (bytes_made (zlen data) a) as (v & -> & Hb & a' & Hdel); [pose proof (zlen_nonneg data); lia|]. cbn [obind negb].
    eexists. split; [done|]. cbn [_bson_value_ref_from_value bson_value_delete]. rewrite Hb, Hdel. cbn [obind].
    rewrite zlen_to_nat. split; [done|by eexists].
  - destruct Hv as [Hr Ho]. match goal with |- context [copied ?s ?d ?m] => destruct (copied_spec s d m Hr) as (r & Ht & ->) end.
    destruct (copied_spec (or_empty opt) (s_alloc r) (fun o => Done (o_regex r o)) Ho) as (q & Hq & Eq). unfold copied in Eq.
    destruct (_mlib_str_copy (or_empty opt) (s_alloc r)) as [q'| |]; cbn [obind] in Eq |- *; [|done..].
    destruct (s_data q' =? 0); [done|]. injection Eq as ->. eexists. split; [done|]. cbn [_bson_value_ref_from_value bson_value_delete].
    destruct (deleted_string r _ Ht) as [a1 ->]. destruct (deleted_string q _ Hq) as [a2 ->]. cbn [obind]. split; [done|by eexists].
Qed.

(** C38. The copy of a value, when memory lasts, can be viewed as the same value, with the same strings and documents, and deleted: for every type but
    three.  The copy of binary data has its size and subtype, and zeros for its bytes; the view of a copied regular expression reads
    the member of another type; code with scope stops the process. *)
Theorem value_copy_spec (default a : AS) v : copyable v -> exists o,
  _bson_value_copy default v a = Done o /\ _bson_value_ref_from_value o = seen v /\ exists l, bson_value_delete o = Done l.
Proof. apply value_copied. Qed.

End OwnedValue.
Arguments bson_value AS : clear implicits.

(** ** Concrete values *)

(** Witness of [value_copy_spec]: a string and binary data, with an allocator that has memory. *)
Definition sample_bytes : list byte := [x61; x62; x63].

Lemma value_copy_spec_witness :
  (exists o, _bson_value_copy (mk_ample 0) (v_utf8 sample_bytes) (mk_ample 0) = Done o /\
     _bson_value_ref_from_value o = Done (v_utf8 sample_bytes) /\ exists l, bson_value_delete o = Done l) /\
  (exists o, _bson_value_copy (mk_ample 0) (v_binary x80 sample_bytes) (mk_ample 0) = Done o /\
     _bson_value_ref_from_value o = Done (v_binary x80 [x00; x00; x00]) /\ exists l, bson_value_delete o = Done l).
Proof.
  split.
  - apply (value_copy_spec ample_never_denies (mk_ample 0) (mk_ample 0) (v_utf8 sample_bytes)). vm_compute. discriminate.
  - apply (value_copy_spec ample_never_denies (mk_ample 0) (mk_ample 0) (v_binary x80 sample_bytes)). vm_compute. discriminate.
Defined.
