(* ===== verification/Collection.v ===== *)
(** * Operations of collections, databases and clients
    ([src/amongoc/collection.hpp], [collection.cpp], [database.cpp], [client.cpp],
    [coroutine.cpp], [include/amongoc/collection.h])

    Each operation builds a command with [Make.v], sends it with a client of
    [WireClient.v], takes the reply apart with [Reply.v] and resolves with a status
    and a value.  What is thrown becomes a status.  Values of a reply are copied as [OwnedValue.v] has it; memory for the messages of
    write errors and for the boxes is available. *)
From Stdlib Require Import ZArith Lia.
From Stdlib Require Import Strings.Byte Strings.String.
From stdpp Require Import base numbers list sets.
From S2P Require Import Prelude.
From S2P Require Import Mem.
From S2P Require Import Alloc.
From S2P Require Import Vec.
From S2P Require Import OwnedValue.
From S2P Require Import Types.
From S2P Require Import Value.
From S2P Require Import View.
From S2P Require Import Iterator.
From S2P Require Import IteratorSafe.
From S2P Require Import Codec.
From S2P Require Import Parse.
From S2P Require Import Alloc.
From S2P Require Import Str.
From S2P Require Import Doc.
From S2P Require Import Wire.
From S2P Require Import WireClient.
From S2P Require Import Status.
From S2P Require Import Reply.
From S2P Require Import Make.
From S2P Require Import Handshake.
From S2P Require Import Hello.
Open Scope Z_scope.

(** ** Parameters *)

(** A view in a parameter: its bytes, [None] for the null view. *)
Abbreviation view_bytes := (option (list byte)).

(** The milliseconds of a duration ([mlib/time.h]). *)
Record mlib_duration : Type := mk_duration { _usec : Z }.
Definition mlib_milliseconds_count (dur : mlib_duration) : Z := Z.quot (_usec dur) 1000.

Record amongoc_collection_drop_params : Type := mk_drop_params { drop_comment : bson_value_ref }.

Record amongoc_aggregate_params : Type := mk_aggregate_params {
  agg_allow_disk_use : bool; agg_batch_size : Z; agg_bypass_document_validation : bool; agg_collation : view_bytes;
  agg_max_await_time : mlib_duration; agg_comment : bson_value_ref; agg_hint : bson_value_ref; agg_let : view_bytes }.

Record amongoc_count_params : Type := mk_count_params {
  count_collation : view_bytes; count_hint : bson_value_ref; count_limit : Z; count_max_time : mlib_duration;
  count_skip : Z; count_comment : bson_value_ref }.

Record amongoc_delete_params : Type := mk_delete_params {
  delete_collation : view_bytes; delete_hint : bson_value_ref; delete_let : view_bytes; delete_comment : bson_value_ref }.

Record amongoc_distinct_params : Type := mk_distinct_params {
  distinct_collation : view_bytes; distinct_comment : bson_value_ref }.

Record amongoc_insert_params : Type := mk_insert_params {
  insert_bypass_document_validation : bool; insert_ordered : bool; insert_comment : bson_value_ref }.

(** [cursor_type] is the value of the enumerator. *)
Record amongoc_find_params : Type := mk_find_params {
  find_allow_disk_use : bool; find_allow_partial_results : bool; find_batch_size : Z; find_collation : view_bytes;
  find_comment : bson_value_ref; find_hint : bson_value_ref; find_cursor_type : Z; find_let : view_bytes;
  find_limit : Z; find_max : view_bytes; find_max_await_time_ms : Z; find_max_scan : Z;
  find_max_time : mlib_duration; find_min : view_bytes; find_no_cursor_timeout : bool; find_oplog_replay : bool;
  find_projection : view_bytes; find_return_key : bool; find_show_record_id : bool; find_skip : Z;
  find_snapshot : bool; find_sort : view_bytes }.

Definition amongoc_find_cursor_not_tailable : Z := 0.
Definition amongoc_find_cursor_tailable_await : Z := 2.

Record amongoc_find_plus_params : Type := mk_find_plus_params {
  fp_bypass_document_validation : bool; fp_collation : view_bytes; fp_comment : bson_value_ref;
  fp_hint : bson_value_ref; fp_let : view_bytes; fp_projection : view_bytes; fp_return_document_after : bool;
  fp_sort : view_bytes; fp_upsert : bool }.

Record amongoc_replace_params : Type := mk_replace_params {
  replace_bypass_document_validation : bool; replace_collation : view_bytes; replace_hint : bson_value_ref;
  replace_upsert : bool; replace_let : view_bytes; replace_comment : bson_value_ref }.

(** The array filters are the documents that the pointer refers to, [None] for the
    null pointer. *)
Record amongoc_update_params : Type := mk_update_params {
  update_array_filters : option (list view_bytes); update_array_filters_len : Z;
  update_bypass_document_validation : bool; update_collation : view_bytes; update_hint : bson_value_ref;
  update_upsert : bool; update_let : view_bytes; update_comment : bson_value_ref }.

(** The value-initialized parameters, which stand for a null pointer. *)
Definition no_drop_params := mk_drop_params v_eod.
Definition no_aggregate_params := mk_aggregate_params false 0 false None (mk_duration 0) v_eod v_eod None.
Definition no_count_params := mk_count_params None v_eod 0 (mk_duration 0) 0 v_eod.
Definition no_delete_params := mk_delete_params None v_eod None v_eod.
Definition no_distinct_params := mk_distinct_params None v_eod.
Definition no_insert_params := mk_insert_params false false v_eod.
Definition no_find_params :=
  mk_find_params false false 0 None v_eod v_eod 0 None 0 None 0 0 (mk_duration 0) None false false None false false 0
    false None.
Definition no_replace_params := mk_replace_params false None v_eod false None v_eod.
Definition no_update_params := mk_update_params None 0 false None v_eod false None v_eod.

(** Operands of [optional_pair], present when they are truthy. *)
Definition if_view (v : view_bytes) : option value_rule := (fun d => value (v_document (Some d))) <$> v.
Definition if_value (v : bson_value_ref) : option value_rule :=
  match v with v_eod => None | _ => Some (value v) end.
Definition if_true (b : bool) : option value_rule := if b then Some (value (v_bool b)) else None.
Definition if_int32 (z : Z) : option value_rule := if z =? 0 then None else Some (value (v_int32 z)).
Definition if_int64 (z : Z) : option value_rule := if z =? 0 then None else Some (value (v_int64 z)).

Definition view_value (v : view_bytes) : value_rule := value (v_document v).
Definition bool_pair (k : string) (b : bool) : element_rule := pair (lit k) (value (v_bool b)).
Definition opt_pair (k : string) (v : option value_rule) : element_rule := optional_pair (lit k) v.

(** [range(std::span(ptr, n))]: the documents must be there. *)
Definition span_of (ptr : list view_bytes) (n : Z) : outcome (list view_bytes) :=
  if n <=? zlen ptr then Done (take (Z.to_nat n) ptr) else Undef.
Definition range (l : list view_bytes) : value_rule := array (map view_value l).

(** ** Handles and commands *)

(** A collection handle; its client is the state of the operations. *)
Record amongoc_collection (AS : Type) : Type := mk_collection {
  database_name : text; collection_name : text; coll_allocator : AS }.
Arguments mk_collection {AS}.
Arguments database_name {AS}.
Arguments collection_name {AS}.
Arguments coll_allocator {AS}.

(** The rules of [amongoc_collection::make_command]. *)
Definition make_command {AS} (coll : amongoc_collection AS) (command_name : string) (elements : list element_rule)
  : list element_rule :=
  text_pair command_name (collection_name coll) :: text_pair "$db" (database_name coll) :: elements.

(** [_is_update_spec_doc]: the first key starts with a dollar sign. *)
Definition starts_with (p s : text) : bool := bool_decide (take (length p) s = p).

Definition _is_update_spec_doc (s : view_bytes) : outcome bool :=
  match s with
  | None => Undef
  | Some d =>
      let m := mk_block 16 d in
      let* b := _bson_begin m 16 in
      let* e := _bson_end m 16 in
      if bson_iterator_eq b e then Done false
      else if negb (bson_iterator_get_error b =? bson_iter_errc_okay) then Abort
      else let* k := bson_key m b in Done (starts_with (lit "$") k)
  end.

(** ** Results *)

Record amongoc_write_error : Type := mk_write_error { we_index : Z; we_code : Z; we_errmsg : text }.

(** [V] is the type of the id: the code has a [bson_value]. *)
Record amongoc_write_result (V : Type) : Type := mk_write_result {
  acknowledged : bool; inserted_count : Z; matched_count : Z; modified_count : Z; deleted_count : Z;
  upserted_count : Z; write_errors : list amongoc_write_error; upserted_id : V }.
Arguments mk_write_result {V}.
Arguments acknowledged {V}.
Arguments inserted_count {V}.
Arguments matched_count {V}.
Arguments modified_count {V}.
Arguments deleted_count {V}.
Arguments upserted_count {V}.
Arguments write_errors {V}.
Arguments upserted_id {V}.

Record amongoc_cursor (AS : Type) : Type := mk_cursor {
  cursor_id : Z; cursor_coll : option (amongoc_collection AS); records : bson_doc AS; _batch_size : Z }.
Arguments mk_cursor {AS}.
Arguments cursor_id {AS}.
Arguments cursor_coll {AS}.
Arguments records {AS}.
Arguments _batch_size {AS}.

(** What an operation throws: an exception of the requests, or of a parse. *)
Inductive thrown : Type := wire_exn (e : exn) | reply_exn (e : parse_exn).

(** The value in the box that an emitter resolves with. *)
Inductive boxed (AS : Type) : Type :=
| nil
| box_int32 (z : Z)
| box_int64 (z : Z)
| box_cursor (c : amongoc_cursor AS)
| box_values (l : list (bson_value AS))
| box_write_result (r : amongoc_write_result (bson_value AS))
| box_doc (d : option (bson_doc AS))
| box_body (d : list byte)
| box_what (e : thrown).
Arguments nil {AS}.
Arguments box_int32 {AS}.
Arguments box_int64 {AS}.
Arguments box_cursor {AS}.
Arguments box_values {AS}.
Arguments box_write_result {AS}.
Arguments box_doc {AS}.
Arguments box_body {AS}.
Arguments box_what {AS}.

Record emitter_result (AS : Type) : Type := mk_result { status : amongoc_status; er_value : boxed AS }.
Arguments mk_result {AS}.
Arguments status {AS}.
Arguments er_value {AS}.

(** ** Emitters *)

Section Emitters.
Context {AS C : Type} `{Allocator AS}.
Context (X : externals) (stream_code : Z -> error_code).

(** [emitter_promise::unhandled_exception], [noexcept]: an exception that no clause
    catches ends the process. *)
Definition unhandled_exception (e : thrown) : outcome (emitter_result AS) :=
  match e with
  | wire_exn (server_error code _ body) =>
      Done (mk_result (from X (mk_error_code (cxx_known server) code)) (box_body body))
  | wire_exn (protocol_error _) | reply_exn (parse_error _) =>
      Done (mk_result (from X (mk_error_code (cxx_known generic) (EPROTO X))) (box_what e))
  | wire_exn (stream_error ec) => Done (mk_result (from X (stream_code ec)) (box_what e))
  | wire_exn bad_alloc => Done (mk_result (mk_status (known_category generic) (ENOMEM X)) nil)
  | reply_exn (iterator_error _) => Abort
  end.

(** An operation on the state of the client, which always resolves. *)
Definition emitter : Type := C -> outcome (C * emitter_result AS).

Definition just (st : amongoc_status) (v : boxed AS) : emitter := fun c => Done (c, mk_result st v).

(** The body of an emitter's coroutine, which may throw. *)
Definition body (A : Type) : Type := C -> outcome (C * (thrown + A)).

Definition co_yield {A} (a : A) : body A := fun c => Done (c, inr a).
Definition raise {A} (e : thrown) : body A := fun c => Done (c, inl e).
Definition bind {A B} (x : body A) (k : A -> body B) : body B := fun c =>
  let* (c, r) := x c in match r with inl e => Done (c, inl e) | inr a => k a c end.

(** A task that is awaited, a call, a parse. *)
Definition await {A} (x : co_task C A) : body A := fun c =>
  let* (c, r) := x c in Done (c, match r with inl e => inl (wire_exn e) | inr a => inr a end).
Definition call {A} (x : outcome A) : body A := fun c => let* a := x in Done (c, inr a).
Definition parses {A} (x : outcome (parse_exn + A)) : body A := fun c =>
  let* r := x in Done (c, match r with inl e => inl (reply_exn e) | inr a => inr a end).

(** The coroutine as an emitter. *)
Definition run_emitter (b : body (emitter_result AS)) : emitter := fun c =>
  let* (c, r) := b c in
  match r with
  | inl e => let* res := unhandled_exception e in Done (c, res)
  | inr res => Done (c, res)
  end.

(** [co_return] of a value. *)
Definition resolve (v : boxed AS) : body (emitter_result AS) := co_yield (mk_result amongoc_okay v).

(** The conversion of a document to a view, [noexcept]. *)
Definition reply_bytes (d : bson_doc AS) : outcome (list byte) :=
  let m := doc_buf d in
  let* n := _bson_byte_size m (_bson_document_data d) in
  let* v := view_from_data m (_bson_document_data d) n in
  match v with inr _ => Abort | inl p => rd_range m p n end.

(** [must_parse] of a reply. *)
Definition parse_reply {R} (parts : list (part (stored R))) (resp : bson_doc AS) (init : R) : body R :=
  parses (let* b := reply_bytes resp in parse_view parts b init).

(** [bson_new(v, alloc)]: the null document when memory is denied. *)
Definition new_document (v : list byte) (alloc : AS) : outcome (bson_doc AS) :=
  _bson_copy_view_with_allocator (mk_block 16 v) 16 alloc.

(** [bson::document(v, alloc)]. *)
Definition copy_document (v : view_bytes) (alloc : AS) : body (bson_doc AS) :=
  bind (call match v with None => Undef | Some b => new_document b alloc end)
    (fun d => if _bson_document_data d =? 0 then raise (wire_exn bad_alloc) else co_yield d).
End Emitters.

Arguments emitter : clear implicits.
Arguments body : clear implicits.

Notation "'do' x ':=' e 'in' k" := (bind e (fun x => k))
  (at level 10, x pattern, e at level 200, k at level 200) : outcome_scope.

(** ** The parses of replies *)

(** *** Cursors *)

Record cursor_parts : Type := mk_cursor_parts { p_cursor_id : Z; p_batch : view_bytes }.

Definition set_batch (v : view_bytes) (p : cursor_parts) : cursor_parts := mk_cursor_parts (p_cursor_id p) v.
Definition set_cursor_id (id : Z) (p : cursor_parts) : cursor_parts := mk_cursor_parts id (p_batch p).

Definition store_batch : rule (stored cursor_parts) element := must (store as_view (fun v => modify (set_batch v))).

Definition cursor_doc : list (part (stored cursor_parts)) := [
  part_must (any [field (lit "firstBatch") store_batch; field (lit "nextBatch") store_batch])
    (lit "[unimplemented parsing error formating]");
  required "id" (store as_int64 (fun id => modify (set_cursor_id id)));
  optional "ns" just_accept].

Definition cursor_rule : list (part (stored cursor_parts)) := [required "cursor" (must (doc_of cursor_doc))].

(** *** Counts *)

(** [require("n", integer(store(n)))]. *)
Definition n_rule : list (part (stored Z)) := [required "n" (integer (Parse.action (fun z => modify (fun _ => z))))].

Definition count_batch : rule (stored Z) element :=
  must (any [
    doc_of [part_reject_others];
    doc_of [
      required "0" (doc_of [required "n" (must (store as_int32 (fun z => modify (fun _ => z))))]);
      part_reject_others]]).

Definition count_rule : list (part (stored Z)) :=
  [required "cursor" (doc_of [required "firstBatch" count_batch])].

(** *** Views *)

Definition store_view (as_ : bson_value_ref -> option view_bytes) : rule (stored view_bytes) element :=
  store as_ (fun v => modify (fun _ => v)).

Definition values_rule : list (part (stored view_bytes)) :=
  [required "values" (must (type_rule as_array (Parse.action (fun v => modify (fun _ => v)))))].

Definition value_or_null_rule : list (part (stored view_bytes)) :=
  [required "value" (any [type_rule as_null just_accept; store_view as_view])].

Definition first_batch_rule : list (part (stored view_bytes)) := [required "firstBatch" (must (store_view as_view))].

(** *** Write results *)

(** The member that receives [n]. *)
Inductive n_field : Type := into_inserted_count | into_matched_count.

(** The members of the result that are parsed, and the variables of
    [_parse_write_result]. *)
Record write_parse : Type := mk_write_parse {
  w_inserted : Z; w_matched : Z; w_modified : Z; w_upserted : Z; w_id : bson_value_ref;
  w_errors : list amongoc_write_error; v_index : Z; v_code : Z; v_msg : text }.

Definition new_write_parse : write_parse := mk_write_parse 0 0 0 0 v_eod [] 0 0 [].

Definition set_inserted (z : Z) (w : write_parse) : write_parse :=
  mk_write_parse z (w_matched w) (w_modified w) (w_upserted w) (w_id w) (w_errors w) (v_index w) (v_code w) (v_msg w).
Definition set_matched (z : Z) (w : write_parse) : write_parse :=
  mk_write_parse (w_inserted w) z (w_modified w) (w_upserted w) (w_id w) (w_errors w) (v_index w) (v_code w) (v_msg w).
Definition set_modified (z : Z) (w : write_parse) : write_parse :=
  mk_write_parse (w_inserted w) (w_matched w) z (w_upserted w) (w_id w) (w_errors w) (v_index w) (v_code w) (v_msg w).
Definition set_upserted (z : Z) (w : write_parse) : write_parse :=
  mk_write_parse (w_inserted w) (w_matched w) (w_modified w) z (w_id w) (w_errors w) (v_index w) (v_code w) (v_msg w).
Definition set_id (v : bson_value_ref) (w : write_parse) : write_parse :=
  mk_write_parse (w_inserted w) (w_matched w) (w_modified w) (w_upserted w) v (w_errors w) (v_index w) (v_code w) (v_msg w).
Definition set_index (z : Z) (w : write_parse) : write_parse :=
  mk_write_parse (w_inserted w) (w_matched w) (w_modified w) (w_upserted w) (w_id w) (w_errors w) z (v_code w) (v_msg w).
Definition set_code (z : Z) (w : write_parse) : write_parse :=
  mk_write_parse (w_inserted w) (w_matched w) (w_modified w) (w_upserted w) (w_id w) (w_errors w) (v_index w) z (v_msg w).
Definition set_msg (s : text) (w : write_parse) : write_parse :=
  mk_write_parse (w_inserted w) (w_matched w) (w_modified w) (w_upserted w) (w_id w) (w_errors w) (v_index w) (v_code w) s.
Definition set_n (f : n_field) : Z -> write_parse -> write_parse :=
  match f with into_inserted_count => set_inserted | into_matched_count => set_matched end.
Definition get_n (f : n_field) (w : write_parse) : Z :=
  match f with into_inserted_count => w_inserted w | into_matched_count => w_matched w end.

(** The action that appends a write error: the [index] of the new element stays 0;
    the conversion to the enumeration keeps the low 32 bits. *)
Definition push_write_error (w : write_parse) : write_parse :=
  mk_write_parse (w_inserted w) (w_matched w) (w_modified w) (w_upserted w) (w_id w)
    (w_errors w ++ [mk_write_error 0 (u32 (v_code w)) (v_msg w)]) (v_index w) (v_code w) (v_msg w).

Definition store_int (set : Z -> write_parse -> write_parse) : rule (stored write_parse) element :=
  integer (Parse.action (fun z => modify (set z))).

Definition write_error_doc : list (part (stored write_parse)) := [
  required "index" (store_int set_index);
  required "code" (store_int set_code);
  required "errmsg" (store as_utf8 (fun s => modify (set_msg s)))].

Definition parse_write_error : rule (stored write_parse) element :=
  all [doc_of write_error_doc; Parse.action (fun _ => modify push_write_error)].

Definition upserted_rule : rule (stored write_parse) element :=
  doc_of [required "0" (doc_of [required "_id" (store as_value (fun v => modify (set_id v)))])].

Definition write_rule (f : n_field) : list (part (stored write_parse)) := [
  required "n" (must (store_int (set_n f)));
  optional "nModified" (must (store_int set_modified));
  optional "nMatched" (must (store_int set_matched));
  optional "nUpserted" (must (store_int set_upserted));
  optional "upserted" (must upserted_rule);
  optional "writeErrors" (must (each_of parse_write_error))].

(** A signed 64-bit result. *)
Definition checked64 (z : Z) : outcome Z := if bool_decide (is_i64 z) then Done z else Undef.

(** The counts: an id that was upserted is one more, and what was upserted is not counted in the other member. *)
Definition finish_counts {V} (f : n_field) (w : write_parse) (id : V) : outcome (amongoc_write_result V) :=
  let* w := match w_id w with
            | v_eod => Done w
            | _ => let* n := checked64 (w_upserted w + 1) in Done (set_upserted n w)
            end in
  let* n := checked64 (get_n f w - w_upserted w) in
  let w := set_n f n w in
  Done (mk_write_result false (w_inserted w) (w_matched w) (w_modified w) 0 (w_upserted w) (w_errors w) id).

(** The end of [_parse_write_result]: the id is copied. *)
Definition finish_write_result {AS} `{Allocator AS} (mlib_default_allocator : AS) (f : n_field) (w : write_parse) (alloc : AS)
  : outcome (amongoc_write_result (bson_value AS)) :=
  let* id := _bson_value_copy mlib_default_allocator (w_id w) alloc in
  finish_counts f w id.

(** ** The commands *)

Section Commands.
Context {AS : Type}.

Definition drop_command (coll : amongoc_collection AS) (p : amongoc_collection_drop_params) : list element_rule :=
  make_command coll "drop" [opt_pair "comment" (if_value (drop_comment p))].

(** The elements after the target in both [aggregate] commands. *)
Definition aggregate_elements (pipeline : list view_bytes) (p : amongoc_aggregate_params) : list element_rule := [
  pair (lit "pipeline") (range pipeline);
  opt_pair "allowDiskUse" (if_true (agg_allow_disk_use p));
  opt_pair "bypassDocumentValidation" (if_true (agg_bypass_document_validation p));
  pair (lit "cursor") (doc [opt_pair "batchSize" (if_int32 (agg_batch_size p))]);
  opt_pair "collation" (if_view (agg_collation p));
  opt_pair "comment" (if_value (agg_comment p));
  opt_pair "hint" (if_value (agg_hint p));
  opt_pair "let" (if_view (agg_let p))].

Definition count_command (coll : amongoc_collection AS) (filter : view_bytes) (p : amongoc_count_params)
  : list element_rule :=
  make_command coll "aggregate" [
    pair (lit "pipeline") (array [
      doc [pair (lit "$match") (view_value filter)];
      optional_value ((fun v => doc [pair (lit "$skip") v]) <$> if_int64 (count_skip p));
      optional_value ((fun v => doc [pair (lit "$limit") v]) <$> if_int64 (count_limit p));
      doc [pair (lit "$group") (doc [
        pair (lit "_id") (value (v_int32 1));
        pair (lit "n") (doc [pair (lit "$sum") (value (v_int32 1))])])]]);
    pair (lit "cursor") (doc []);
    opt_pair "maxTimeMS" (if_int64 (mlib_milliseconds_count (count_max_time p)));
    opt_pair "hint" (if_value (count_hint p));
    opt_pair "collation" (if_view (count_collation p));
    opt_pair "comment" (if_value (count_comment p))].

Definition delete_command (coll : amongoc_collection AS) (filter : view_bytes) (delete_only_one : bool)
  (p : amongoc_delete_params) : list element_rule :=
  make_command coll "delete" [
    pair (lit "deletes") (array [doc [
      pair (lit "q") (view_value filter);
      pair (lit "limit") (value (v_int32 (if delete_only_one then 1 else 0)));
      opt_pair "collation" (if_view (delete_collation p));
      opt_pair "hint" (if_value (delete_hint p))]]);
    opt_pair "comment" (if_value (delete_comment p));
    opt_pair "let" (if_view (delete_let p))].

Definition distinct_command (coll : amongoc_collection AS) (field_name : text) (filter : view_bytes)
  (p : amongoc_distinct_params) : list element_rule :=
  make_command coll "distinct" [
    text_pair "key" field_name;
    opt_pair "query" (if_view filter);
    opt_pair "collation" (if_view (distinct_collation p));
    opt_pair "comment" (if_value (distinct_comment p))].

Definition estimated_count_command (coll : amongoc_collection AS) (p : amongoc_count_params) : list element_rule :=
  make_command coll "count" [
    opt_pair "maxTimeMS" (if_int64 (mlib_milliseconds_count (count_max_time p)));
    opt_pair "comment" (if_value (count_comment p))].

Definition find_command (coll : amongoc_collection AS) (filter : view_bytes) (p : amongoc_find_params)
  : list element_rule :=
  make_command coll "find" [
    pair (lit "filter") (view_value filter);
    opt_pair "sort" (if_view (find_sort p));
    opt_pair "projection" (if_view (find_projection p));
    opt_pair "hint" (if_value (find_hint p));
    opt_pair "skip" (if_int64 (find_skip p));
    opt_pair "limit" (if_int32 (find_limit p));
    opt_pair "batchSize" (if_int32 (find_batch_size p));
    bool_pair "singleBatch" (find_limit p <? 0);
    opt_pair "comment" (if_value (find_comment p));
    opt_pair "maxTimeMS" (if_int64 (mlib_milliseconds_count (find_max_time p)));
    opt_pair "max" (if_view (find_max p));
    opt_pair "min" (if_view (find_min p));
    bool_pair "returnKey" (find_return_key p);
    bool_pair "oplogReplay" (find_oplog_replay p);
    bool_pair "showRecordId" (find_show_record_id p);
    bool_pair "tailable" (negb (find_cursor_type p =? amongoc_find_cursor_not_tailable));
    bool_pair "noCursorTimeout" (find_no_cursor_timeout p);
    bool_pair "awaitData" (negb (Z.land (find_cursor_type p) amongoc_find_cursor_tailable_await =? 0));
    bool_pair "allowPartialResults" (find_allow_partial_results p);
    opt_pair "collation" (if_view (find_collation p));
    bool_pair "allowDiskUse" (find_allow_disk_use p);
    opt_pair "let" (if_view (find_let p))].

Definition get_more_command (coll : amongoc_collection AS) (id bat : Z) : list element_rule := [
  pair (lit "getMore") (value (v_int64 id));
  text_pair "$db" (database_name coll);
  text_pair "collection" (collection_name coll);
  opt_pair "batchSize" (if_int32 bat)].

Definition insert_command (coll : amongoc_collection AS) (documents : list view_bytes) (p : amongoc_insert_params)
  : list element_rule :=
  make_command coll "insert" [
    pair (lit "documents") (range documents);
    bool_pair "ordered" (insert_ordered p);
    bool_pair "bypassDocumentValidation" (insert_bypass_document_validation p)].

(** The pointer [updates] refers to the list; [pipeline_len] of its documents are a
    pipeline, and none stands for one update document. *)
Definition update_command (coll : amongoc_collection AS) (filter : view_bytes) (updates : list view_bytes)
  (pipeline_len : Z) (is_multi : bool) (p : amongoc_update_params) : outcome (list element_rule) :=
  let* one := if pipeline_len =? 0
              then match updates with u :: _ => Done u | [] => Undef end
              else Done None in
  let* many := if 0 <? pipeline_len then omap_outcome Some (span_of updates pipeline_len) else Done None in
  let* filters := match update_array_filters p with
                  | Some l => omap_outcome Some (span_of l (update_array_filters_len p))
                  | None => Done None
                  end in
  Done (make_command coll "update" [
    pair (lit "updates") (array [doc [
      pair (lit "q") (view_value filter);
      opt_pair "u" (if_view one);
      opt_pair "u" (range <$> many);
      bool_pair "upsert" (update_upsert p);
      bool_pair "multi" is_multi;
      opt_pair "arrayFilters" (range <$> filters);
      opt_pair "collation" (if_view (update_collation p));
      opt_pair "hint" (if_value (update_hint p))]]);
    opt_pair "let" (if_view (update_let p));
    opt_pair "comment" (if_value (update_comment p));
    opt_pair "bypassDocumentValidation" (if_true (update_bypass_document_validation p))]).

(** [opt_update_or_pipeline] is [None] for the null pointer; the parameters are read
    without a check. *)
Definition find_and_modify_command (coll : amongoc_collection AS) (filter : view_bytes) (remove : bool)
  (opt_update_or_pipeline : option (list view_bytes)) (pipeline_len : Z) (params : option amongoc_find_plus_params)
  : outcome (list element_rule) :=
  match params with
  | None => Undef
  | Some p =>
      let* one := match opt_update_or_pipeline with
                  | Some l => if pipeline_len =? 0 then match l with u :: _ => Done u | [] => Undef end else Done None
                  | None => Done None
                  end in
      let* many := if 0 <? pipeline_len
                   then match opt_update_or_pipeline with
                        | Some l => omap_outcome Some (span_of l pipeline_len)
                        | None => Undef
                        end
                   else Done None in
      Done (make_command coll "findAndModify" [
        pair (lit "query") (view_value filter);
        opt_pair "remove" (if_true remove);
        opt_pair "upsert" (if_true (fp_upsert p));
        bool_pair "new" (fp_return_document_after p);
        opt_pair "update" (if_view one);
        opt_pair "update" (range <$> many);
        opt_pair "collation" (if_view (fp_collation p));
        opt_pair "comment" (if_value (fp_comment p));
        opt_pair "let" (if_view (fp_let p));
        opt_pair "bypassDocumentValidation" (if_true (fp_bypass_document_validation p))])
  end.
End Commands.

(** ** The operations *)

Section Operations.
Context {AS C : Type} `{Allocator AS}.
Context `{ClientInterface C (op_msg_message (body_section bson_view)) (any_message AS)}.
Context (X : externals) (stream_code : Z -> error_code) (mlib_default_allocator : AS).

(** [amongoc_collection::simple_request] of a command that is built: the client
    checks the reply for an error of the server. *)
Definition simple_request_of (alloc : AS) (cmd : list element_rule) : body C (bson_doc AS) :=
  do (d, ok) := call (build cmd alloc) in
  if negb ok then raise (wire_exn bad_alloc)
  else await (simple_request (HC := checking_request) (mk_op_msg [mk_body (view_of d)])).

Abbreviation emits := (run_emitter X stream_code).

(** [_parse_cursor]. *)
Definition _parse_cursor (coll : amongoc_collection AS) (batch_size : Z) (resp : bson_doc AS)
  : body C (amongoc_cursor AS) :=
  do p := parse_reply cursor_rule resp (mk_cursor_parts 0 None) in
  do r := copy_document (p_batch p) (coll_allocator coll) in
  co_yield (mk_cursor (p_cursor_id p) (Some coll) r batch_size).

(** [_parse_write_result]. *)
Definition _parse_write_result (resp : bson_doc AS) (f : n_field) (alloc : AS) : body C (amongoc_write_result (bson_value AS)) :=
  do w := parse_reply (write_rule f) resp new_write_parse in call (finish_write_result mlib_default_allocator f w alloc).

Definition write_status {V} (r : amongoc_write_result V) : amongoc_status :=
  mk_status crud_category (match write_errors r with [] => 0 | _ => 1 end).

Definition amongoc_collection_drop (coll : amongoc_collection AS) (params : option amongoc_collection_drop_params)
  : emitter AS C := emits (
  do _ := simple_request_of (coll_allocator coll) (drop_command coll (default no_drop_params params)) in
  co_yield (mk_result amongoc_okay nil)).

Definition amongoc_collection_aggregate (coll : amongoc_collection AS) (pipeline : list view_bytes)
  (params : option amongoc_aggregate_params) : emitter AS C :=
  let p := default no_aggregate_params params in emits (
  do resp := simple_request_of (coll_allocator coll) (make_command coll "aggregate" (aggregate_elements pipeline p)) in
  do curs := _parse_cursor coll (agg_batch_size p) resp in
  resolve (box_cursor curs)).

Definition amongoc_count_documents (coll : amongoc_collection AS) (filter : view_bytes)
  (params : option amongoc_count_params) : emitter AS C := emits (
  do resp := simple_request_of (coll_allocator coll) (count_command coll filter (default no_count_params params)) in
  do n := parse_reply count_rule resp 0 in
  resolve (box_int32 n)).

Definition amongoc_delete_ex (coll : amongoc_collection AS) (filter : view_bytes) (delete_only_one : bool)
  (params : option amongoc_delete_params) : emitter AS C := emits (
  do resp := simple_request_of (coll_allocator coll)
    (delete_command coll filter delete_only_one (default no_delete_params params)) in
  do n := parse_reply n_rule resp (-1) in
  resolve (box_int64 n)).

Definition amongoc_delete_one (coll : amongoc_collection AS) (filter : view_bytes) (params : option amongoc_delete_params)
  : emitter AS C := amongoc_delete_ex coll filter true params.
Definition amongoc_delete_many (coll : amongoc_collection AS) (filter : view_bytes) (params : option amongoc_delete_params)
  : emitter AS C := amongoc_delete_ex coll filter false params.

(** A loop over the view of an array; the increment of an iterator is [noexcept], and stops the process at one with an error. *)
Definition for_array {T} (v : view_bytes) (body : block -> bson_iterator -> T -> outcome T) (init : T) : outcome T :=
  match v with
  | None => Undef
  | Some d =>
      let m := mk_block 16 d in
      let* b := _bson_begin m 16 in
      let* e := _bson_end m 16 in
      let* r := foreach_subrange (R := Empty_set) m (loop_fuel (zlen d)) b e
        (fun acc it =>
           if negb (bson_iterator_get_error it =? bson_iter_errc_okay) then Abort
           else let* acc := body m it acc in Done (inl acc)) init in
      match r with Some (inl l) => Done l | _ => Abort end
  end.

(** [std::ranges::distance]. *)
Definition array_distance (v : view_bytes) : outcome Z := for_array v (fun _ _ n => Done (n + 1)) 0.

(** The loop that copies the values into the [n] elements of the vector, which are zeros before. *)
Definition copy_values (v : view_bytes) (n : Z) : outcome (list (bson_value AS)) :=
  let* l := for_array v (fun m it l =>
    let* w := bson_iterator_value m it in
    let* o := _bson_value_copy mlib_default_allocator w mlib_default_allocator in
    if zlen l <? n then Done (l ++ [o]) else Undef) [] in
  Done (l ++ replicate (Z.to_nat (n - zlen l)) o_eod).

(** [sizeof(bson_value)]. *)
Definition sizeof_bson_value : Z := 40.

Definition amongoc_distinct (coll : amongoc_collection AS) (field_name : text) (filter : view_bytes)
  (params : option amongoc_distinct_params) : emitter AS C := emits (
  do resp := simple_request_of (coll_allocator coll)
    (distinct_command coll field_name filter (default no_distinct_params params)) in
  do values := parse_reply values_rule resp None in
  do n := call (array_distance values) in
  do (_, alloc_okay) := call (vec_new_n sizeof_bson_value None n (coll_allocator coll)) in
  if negb alloc_okay then raise (wire_exn bad_alloc)
  else
    do vec := call (copy_values values n) in
    resolve (box_values vec)).

(** The variable [n] is indeterminate until the parse stores it. *)
Definition amongoc_estimated_document_count (coll : amongoc_collection AS) (params : option amongoc_count_params)
  : emitter AS C := emits (
  do resp := simple_request_of (coll_allocator coll) (estimated_count_command coll (default no_count_params params)) in
  do n := parse_reply n_rule resp 0 in
  resolve (box_int64 n)).

Definition amongoc_find (coll : amongoc_collection AS) (filter : view_bytes) (params : option amongoc_find_params)
  : emitter AS C :=
  let p := default no_find_params params in emits (
  do resp := simple_request_of (coll_allocator coll) (find_command coll filter p) in
  do curs := _parse_cursor coll (find_batch_size p) resp in
  resolve (box_cursor curs)).

(** The cursor's collection handle is dereferenced; the old records are released
    first. *)
Definition amongoc_cursor_next (curs : amongoc_cursor AS) : emitter AS C := emits (
  do _ := call (bson_delete (records curs)) in
  do coll := call match cursor_coll curs with Some coll => Done coll | None => Undef end in
  let bat := _batch_size curs in
  do resp := simple_request_of (coll_allocator coll) (get_more_command coll (cursor_id curs) bat) in
  do curs := _parse_cursor coll bat resp in
  resolve (box_cursor curs)).

Definition set_acknowledged {V} (r : amongoc_write_result V) : amongoc_write_result V :=
  mk_write_result true (inserted_count r) (matched_count r) (modified_count r) (deleted_count r)
    (upserted_count r) (write_errors r) (upserted_id r).

Definition amongoc_insert_ex (coll : amongoc_collection AS) (documents : list view_bytes) (n_docs : Z)
  (params : option amongoc_insert_params) : emitter AS C := emits (
  do docs := call (span_of documents n_docs) in
  do resp := simple_request_of (coll_allocator coll) (insert_command coll docs (default no_insert_params params)) in
  do res := _parse_write_result resp into_inserted_count (coll_allocator coll) in
  co_yield (mk_result (write_status res) (box_write_result (set_acknowledged res)))).

Definition amongoc_insert_one (coll : amongoc_collection AS) (d : view_bytes) (params : option amongoc_insert_params)
  : emitter AS C := amongoc_insert_ex coll [d] 1 params.

Definition _invalid_update_doc_em : emitter AS C := just (mk_status (known_category client) 1) nil.

Definition amongoc_update_ex (coll : amongoc_collection AS) (filter : view_bytes) (updates : list view_bytes)
  (pipeline_len : Z) (is_multi : bool) (params : option amongoc_update_params) : emitter AS C := emits (
  do cmd := call (update_command coll filter updates pipeline_len is_multi (default no_update_params params)) in
  do resp := simple_request_of (coll_allocator coll) cmd in
  do res := _parse_write_result resp into_matched_count (coll_allocator coll) in
  co_yield (mk_result (write_status res) (box_write_result res))).

Definition amongoc_replace_one (coll : amongoc_collection AS) (filter replacement : view_bytes)
  (params : option amongoc_replace_params) : emitter AS C := fun c =>
  let p := default no_replace_params params in
  let* is_update := _is_update_spec_doc replacement in
  if is_update then _invalid_update_doc_em c
  else
    amongoc_update_ex coll filter [replacement] 0 false
      (Some (mk_update_params None 0 (replace_bypass_document_validation p) (replace_collation p) (replace_hint p)
        (replace_upsert p) (replace_let p) (replace_comment p))) c.

Definition amongoc_update_one_with_pipeline (coll : amongoc_collection AS) (filter : view_bytes)
  (pipe : list view_bytes) (pipeline_len : Z) (params : option amongoc_update_params) : emitter AS C :=
  amongoc_update_ex coll filter pipe pipeline_len false params.

Definition amongoc_update_many_with_pipeline (coll : amongoc_collection AS) (filter : view_bytes)
  (pipe : list view_bytes) (pipeline_len : Z) (params : option amongoc_update_params) : emitter AS C :=
  amongoc_update_ex coll filter pipe pipeline_len true params.

Definition amongoc_update_many (coll : amongoc_collection AS) (filter updates : view_bytes)
  (params : option amongoc_update_params) : emitter AS C := fun c =>
  let* is_update := _is_update_spec_doc updates in
  if negb is_update then _invalid_update_doc_em c
  else amongoc_update_ex coll filter [updates] 0 true params c.

Definition amongoc_update_one (coll : amongoc_collection AS) (filter updates : view_bytes)
  (params : option amongoc_update_params) : emitter AS C := fun c =>
  let* is_update := _is_update_spec_doc updates in
  if negb is_update then _invalid_update_doc_em c
  else amongoc_update_ex coll filter [updates] 0 false params c.

(** The value: the null document when there was none; a denied copy of the document
    is the null document too. *)
Definition amongoc_find_and_modify (coll : amongoc_collection AS) (filter : view_bytes) (remove : bool)
  (opt_update_or_pipeline : option (list view_bytes)) (pipeline_len : Z) (params : option amongoc_find_plus_params)
  : emitter AS C := emits (
  do cmd := call (find_and_modify_command coll filter remove opt_update_or_pipeline pipeline_len params) in
  do resp := simple_request_of (coll_allocator coll) cmd in
  do view := parse_reply value_or_null_rule resp None in
  do d := call match view with
               | Some v => omap_outcome Some (new_document v (coll_allocator coll))
               | None => Done None
               end in
  resolve (box_doc d)).

Definition amongoc_find_one_and_delete (coll : amongoc_collection AS) (filter : view_bytes)
  (params : option amongoc_find_plus_params) : emitter AS C :=
  amongoc_find_and_modify coll filter true None 0 params.
Definition amongoc_find_one_and_replace (coll : amongoc_collection AS) (filter replacement : view_bytes)
  (params : option amongoc_find_plus_params) : emitter AS C :=
  amongoc_find_and_modify coll filter false (Some [replacement]) 0 params.
Definition amongoc_find_one_and_update (coll : amongoc_collection AS) (filter : view_bytes)
  (update_or_pipeline : option (list view_bytes)) (pipeline_len : Z) (params : option amongoc_find_plus_params)
  : emitter AS C := amongoc_find_and_modify coll filter false update_or_pipeline pipeline_len params.

(** *** Databases and clients *)

Record amongoc_database : Type := mk_database { db_name : text; db_allocator : AS }.

(** The cursor that it resolves with has no collection. *)
Definition amongoc_database_aggregate (db : amongoc_database) (pipeline : list view_bytes)
  (params : option amongoc_aggregate_params) : emitter AS C :=
  let p := default no_aggregate_params params in emits (
  do resp := simple_request_of (db_allocator db)
    (pair (lit "aggregate") (value (v_int32 1)) :: text_pair "$db" (db_name db) :: aggregate_elements pipeline p) in
  do batch := parse_reply first_batch_rule resp None in
  do d := call match batch with Some v => new_document v (db_allocator db) | None => Undef end in
  resolve (box_cursor (mk_cursor 0 None d 0))).

(** [_command], on a client that does not check the reply. *)
Definition _command (doc : bson_view) : emitter AS C := emits (
  do resp := await (simple_request (mk_op_msg [mk_body doc])) in resolve (box_doc (Some resp))).

Definition amongoc_client_command_nocopy (doc : bson_view) : emitter AS C := _command doc.

(** [noexcept], and not a coroutine: a copy that is denied ends the process. *)
Definition amongoc_client_command (alloc : AS) (doc : bson_view) : emitter AS C := fun c =>
  let* d := _bson_copy_view_with_allocator (v_mem doc) (v_data doc) alloc in
  assert! negb (_bson_document_data d =? 0) in _command (view_of d) c.
End Operations.
