(* ===== verification/CollectionParse.v ===== *)
(** * What the operations read from replies

    Readers for the rules of [Collection.v], and abstract functions on the elements
    of a reply that say what they give. *)
From Stdlib Require Import ZArith Lia.
From Stdlib Require Import Strings.Byte Strings.String.
From stdpp Require Import base numbers list sets.
From S2P Require Import Prelude.
From S2P Require Import Types.
From S2P Require Import Value.
From S2P Require Import Iterator.
From S2P Require Import IteratorSafe.
From S2P Require Import Codec.
From S2P Require Import Parse.
From S2P Require Import Doc.
From S2P Require Import WireClient.
From S2P Require Import Reply.
From S2P Require Import ReplySpec.
From S2P Require Import Collection.
Open Scope Z_scope.

(** A reply with distinct keys, whose documents down to [n] levels are well formed. *)
Definition reply_ok (n : nat) (es : list element) : Prop :=
  holdable es /\ NoDup (map fst es) /\ Forall (fun el => nested n (snd el)) es.

(** The value of the first element with the key. *)
Definition at_key (k : String.string) (es : list element) : option bson_value_ref := first_value es (lit k).

Lemma seen_at_key {R} must_be k (r : rule (stored R) element) get bad es :
  match seen_by (field_reader must_be k r get bad) es with
  | Some el => at_key k es = Some (snd el) /\ fst el = lit k
  | None => at_key k es = None
  end.
Proof.
  rewrite seen_by_field. unfold at_key, first_value. destruct (List.find _ es) as [el|] eqn:E; [|done].
  apply find_some in E as [_ E]. by apply bool_decide_eq_true in E.
Qed.

(** A field is read when its value is what the rule looks for, or when it is not
    there and need not be. *)
Lemma field_read_ok {R} must_be k (r : rule (stored R) element) get bad es :
  read_ok es (field_reader must_be k r get bad) =
    match at_key k es with Some v => bool_decide (is_Some (get v)) | None => negb must_be end.
Proof.
  unfold read_ok. pose proof (seen_at_key must_be k r get bad es) as H.
  destruct (seen_by _ es) as [el|]; [by destruct H as [-> _] | rewrite H; by destruct must_be].
Qed.
Lemma field_read_one {R} must_be k (r : rule (stored R) element) get bad es x :
  read_one es x (field_reader must_be k r get bad) =
    match at_key k es with Some v => default id (get v) x | None => x end.
Proof.
  unfold read_one. pose proof (seen_at_key must_be k r get bad es) as H.
  destruct (seen_by _ es) as [el|]; [by destruct H as [-> _] | by rewrite H].
Qed.

(** *** Readers of scalars *)

Section Scalars.
Context {R : Type}.

Definition int_reader (must_be : bool) (k : String.string) (set : Z -> R -> R) : reader R :=
  field_reader must_be k (integer (Parse.action (fun z => modify (set z)))) (fun v => set <$> int_of v) (fun _ => reject).
Definition must_int_reader (must_be : bool) (k : String.string) (set : Z -> R -> R) : reader R :=
  field_reader must_be k (must (integer (Parse.action (fun z => modify (set z))))) (fun v => set <$> int_of v)
    (fun _ => error).
Definition store_reader {T} (k : String.string) (as_ : bson_value_ref -> option T) (set : T -> R -> R) : reader R :=
  field_reader true k (store as_ (fun z => modify (set z))) (fun v => set <$> as_ v) (fun _ => reject).

Lemma int_reads must_be k set el : described el (sem_of (int_reader must_be k set)).
Proof.
  apply field_reads. intros _. eapply acts_ext; [apply acts_integer | by destruct (int_of (snd el)) |].
  intros _ x. by destruct (int_of (snd el)).
Qed.
Lemma must_int_reads must_be k set el : described el (sem_of (must_int_reader must_be k set)).
Proof.
  apply field_reads. intros _. eapply acts_ext; [apply acts_must, acts_integer | by destruct (int_of (snd el)) |].
  intros _ x. by destruct (int_of (snd el)).
Qed.
Lemma store_reads {T} k as_ (set : T -> R -> R) el : described el (sem_of (store_reader k as_ set)).
Proof.
  apply field_reads. intros _. eapply acts_ext; [apply acts_store | by destruct (as_ (snd el)) |].
  intros _ x. by destruct (as_ (snd el)).
Qed.

Lemma int_wf k set : reader_wf (int_reader true k set).
Proof. by apply field_wf. Qed.
Lemma must_int_wf must_be k set : reader_wf (must_int_reader must_be k set).
Proof. by apply field_wf. Qed.
Lemma store_wf {T} k as_ (set : T -> R -> R) : reader_wf (store_reader k as_ set).
Proof. by apply field_wf. Qed.
End Scalars.

Definition int_at (k : String.string) (es : list element) : option Z := at_key k es ≫= int_of.

(** ** The number of documents *)

Definition n_readers : list (reader Z) := [int_reader true "n" (fun z _ => z)].

Lemma n_reads es : reads es n_readers.
Proof.
  split; [|by repeat constructor]. apply Forall_forall. intros el _. constructor; [apply int_reads | constructor].
Qed.

Lemma parse_n es init : reply_ok 0 es ->
  match int_at "n" es with
  | Some z => parse_view n_rule (encode_doc es) init = Done (inr z)
  | None => exists what, parse_view n_rule (encode_doc es) init = Done (inl (parse_error what))
  end.
Proof.
  intros (Hh & Hnd & _).
  pose proof (parse_reads n_readers es init Hh Hnd ltac:(constructor; [apply int_wf | constructor]) (n_reads es)) as Hp.
  unfold all_read, read_all, n_readers, int_reader in Hp. cbn [forallb fold_left] in Hp.
  rewrite field_read_ok, field_read_one in Hp. unfold int_at.
  destruct (at_key "n" es) as [v|]; [|done]. simpl. destruct (int_of v); exact Hp.
Qed.

(** *** Readers that are apart *)

Section Apart.
Context {R : Type}.

(** The stores of the one do not disturb those of the other. *)
Definition stores_apart (g1 g2 : bson_value_ref -> option (R -> R)) : Prop :=
  forall v v' f f', g1 v = Some f -> g2 v' = Some f' -> forall x, f (f' x) = f' (f x).

Lemma stores_fmap {T1 T2} (as1 : bson_value_ref -> option T1) (as2 : bson_value_ref -> option T2) set1 set2 :
  (forall a b (x : R), set1 a (set2 b x) = set2 b (set1 a x)) ->
  stores_apart (fun v => set1 <$> as1 v) (fun v => set2 <$> as2 v).
Proof. intros Hs v v' f f' (a & _ & ->)%fmap_Some (b & _ & ->)%fmap_Some. apply Hs. Qed.

Definition no_common_key (r1 r2 : reader R) : bool :=
  forallb (fun k => negb (bool_decide (k ∈ r_keys r2))) (r_keys r1).

Lemma apart_keys es (r1 r2 : reader R) : no_common_key r1 r2 = true ->
  stores_apart (r_get r1) (r_get r2) -> apart es r1 r2.
Proof.
  intros Hk Hs. split; [|intros el el' f f' _ _ _ _ E E'; by apply (Hs _ _ _ _ E E')].
  intros k H1 H2. unfold no_common_key in Hk. rewrite forallb_forall in Hk. specialize (Hk k).
  rewrite bool_decide_eq_true_2 in Hk by done. by discriminate Hk; apply list_elem_of_In.
Qed.
End Apart.

(** Readers that are pairwise apart; [tac] shows it of their stores. *)
Ltac pairwise tac :=
  repeat (apply FOP_cons;
    [repeat (apply Forall_cons_2; [first [assumption | apply apart_keys; [reflexivity | tac]]|]); apply Forall_nil_2|]);
  apply FOP_nil.

(** ** Cursors *)

Definition first_keys : list text := [lit "firstBatch"; lit "nextBatch"].

Definition batch_reader : reader cursor_parts :=
  mk_reader (part_must (any [field (lit "firstBatch") store_batch; field (lit "nextBatch") store_batch])
      (lit "[unimplemented parsing error formating]"))
    first_keys (fun v => set_batch <$> as_view v) (fun _ => error).

Definition cursor_readers : list (reader cursor_parts) := [
  batch_reader;
  store_reader "id" as_int64 set_cursor_id;
  field_reader false "ns" just_accept (fun _ => Some id) (fun _ => error)].

Definition reply_cursor_readers : list (reader cursor_parts) :=
  [field_reader true "cursor" (must (doc_of cursor_doc)) (get_doc cursor_readers) (fun _ => error)].

Lemma batch_reads el : described el (sem_of batch_reader).
Proof.
  unfold described. simpl. assert (forall k, acts (field (lit k) store_batch) el
    (if decide (fst el = lit k) then (if as_view (snd el) then accept else error) else reject)
    (if decide (fst el = lit k) then from_option set_batch id (as_view (snd el)) else id)) as Hf.
  { intros k. apply acts_field. eapply acts_ext; [apply acts_must, acts_store | by destruct (as_view (snd el)) | done]. }
  pose proof (acts_any2 _ _ _ _ _ _ _ (Hf "firstBatch"%string) (Hf "nextBatch"%string)) as Ha.
  assert (fst el ∈ first_keys <-> fst el = lit "firstBatch" \/ fst el = lit "nextBatch") as Hk.
  { unfold first_keys. rewrite !elem_of_cons, elem_of_nil. tauto. }
  split.
  - eapply acts_ext; [exact Ha | |].
    + destruct (decide (fst el = lit "firstBatch")), (decide (fst el = lit "nextBatch"));
        first [rewrite (decide_True (P := fst el ∈ _)) by tauto | rewrite (decide_False (P := fst el ∈ _)) by tauto];
        by destruct (as_view (snd el)).
    + intros _ x. destruct (decide (fst el = lit "firstBatch")), (decide (fst el = lit "nextBatch"));
        first [rewrite (decide_True (P := fst el ∈ _)) by tauto | rewrite (decide_False (P := fst el ∈ _)) by tauto];
        by destruct (as_view (snd el)).
  - destruct (decide (fst el ∈ first_keys)); [by destruct (as_view (snd el))|]. intros _ x. reflexivity.
Qed.

Lemma ns_reads el : described (R := cursor_parts) el (sem_of (field_reader false "ns" just_accept (fun _ => Some id) (fun _ => error))).
Proof. apply field_reads. intros _. eapply acts_intro. intros x. reflexivity. Qed.

Lemma cursor_wf : Forall reader_wf cursor_readers.
Proof.
  unfold cursor_readers. rewrite !Forall_cons. split_and!; [| apply store_wf | by apply field_wf | by apply Forall_nil].
  split_and!; [done | done | by left].
Qed.

Lemma cursor_reads es : reads es cursor_readers.
Proof.
  split.
  - apply Forall_forall. intros el _. unfold cursor_readers. rewrite !Forall_cons.
    split_and!; [apply batch_reads | apply store_reads | apply ns_reads | by apply Forall_nil].
  - unfold cursor_readers. pairwise ltac:(simpl; first [by apply stores_fmap | by intros v v' f f' _ [= <-]]).
Qed.

(** The id and the batch of a cursor in a reply. *)
Definition cursor_of (es : list element) : option (Z * view_bytes) :=
  cs ← at_key "cursor" es ≫= elements_of;
  b ← List.find (fun kv => bool_decide (fst kv ∈ first_keys)) cs ≫= (fun kv => as_view (snd kv));
  id ← at_key "id" cs ≫= as_int64;
  Some (id, b).

Lemma cursor_reader_gives v x :
  match elements_of v ≫= (fun cs =>
    b ← List.find (fun kv => bool_decide (fst kv ∈ first_keys)) cs ≫= (fun kv => as_view (snd kv));
    id ← at_key "id" cs ≫= as_int64; Some (id, b)) with
  | Some (id, b) => exists f, get_doc cursor_readers v = Some f /\ f x = mk_cursor_parts id b
  | None => get_doc cursor_readers v = None
  end.
Proof.
  unfold get_doc. destruct (elements_of v) as [cs|]; [|done]. cbn [mbind option_bind].
  set (ob := List.find _ cs ≫= _). set (oi := at_key "id" cs ≫= _).
  assert (all_read cursor_readers cs = bool_decide (is_Some ob) && bool_decide (is_Some oi)) as ->.
  { unfold all_read, cursor_readers, store_reader. cbn [forallb]. rewrite !field_read_ok. subst ob oi.
    unfold read_ok, seen_by. simpl. destruct (List.find _ cs) as [[k b]|]; simpl; [|done].
    destruct (as_view b), (at_key "id" cs) as [w|], (at_key "ns" cs); simpl; try done; by destruct (as_int64 w). }
  destruct ob as [b|] eqn:Eb; simpl; [|done]. destruct oi as [i|] eqn:Ei; simpl; [|done]. subst ob oi.
  eexists. split; [reflexivity|]. unfold read_all, cursor_readers, store_reader. cbn [fold_left].
  rewrite !field_read_one. unfold read_one, seen_by. simpl.
  destruct (List.find _ cs) as [[k d]|]; [|done]. simpl in *. rewrite Eb. simpl.
  destruct (at_key "id" cs) as [w|]; [|done]. simpl in *. rewrite Ei. by destruct (at_key "ns" cs).
Qed.

Lemma parse_cursor_parts es : reply_ok 1 es ->
  match cursor_of es with
  | Some (id, b) => parse_view cursor_rule (encode_doc es) (mk_cursor_parts 0 None) = Done (inr (mk_cursor_parts id b))
  | None => exists what, parse_view cursor_rule (encode_doc es) (mk_cursor_parts 0 None) = Done (inl (parse_error what))
  end.
Proof.
  intros (Hh & Hnd & Hn).
  assert (reads es reply_cursor_readers) as Hr.
  { split; [|by repeat constructor]. eapply Forall_impl; [exact Hn|]. intros el Hel. constructor; [|constructor].
    apply field_reads. intros _. apply (acts_must_doc cursor_readers 0 el Hel cursor_wf).
    intros cs _ _. apply cursor_reads. }
  pose proof (parse_reads reply_cursor_readers es (mk_cursor_parts 0 None) Hh Hnd
    ltac:(constructor; [by apply field_wf | constructor]) Hr) as Hp.
  unfold all_read, read_all, reply_cursor_readers in Hp. cbn [forallb fold_left] in Hp.
  rewrite field_read_ok, field_read_one in Hp. unfold cursor_of.
  destruct (at_key "cursor" es) as [v|]; [|exact Hp]. simpl.
  pose proof (cursor_reader_gives v (mk_cursor_parts 0 None)) as Hg. simpl in Hg.
  destruct (elements_of v ≫= _) as [[id b]|].
  - destruct Hg as (f & E & Ef). rewrite E in Hp. simpl in Hp. by rewrite Ef in Hp.
  - rewrite Hg in Hp. exact Hp.
Qed.

(** ** Views *)

Definition view_reader (k : String.string) (r : rule (stored view_bytes) element) (as_ : bson_value_ref -> option view_bytes)
  : reader view_bytes := field_reader true k r (fun v => (fun b _ => b) <$> as_ v) (fun _ => error).

Lemma parse_view_field k r (as_ : bson_value_ref -> option view_bytes) es : reply_ok 0 es ->
  (forall el, acts r el (if as_ (snd el) then accept else error) (from_option (fun b _ => b) id (as_ (snd el)))) ->
  match at_key k es ≫= as_ with
  | Some b => parse_view [required k r] (encode_doc es) None = Done (inr b)
  | None => exists what, parse_view [required k r] (encode_doc es) None = Done (inl (parse_error what))
  end.
Proof.
  intros (Hh & Hnd & _) Hr. assert (reads es [view_reader k r as_]) as Hrd.
  { split; [|by repeat constructor]. apply Forall_forall. intros el _. constructor; [|constructor].
    apply field_reads. intros _. eapply acts_ext; [apply Hr | by destruct (as_ (snd el)) |].
    intros _ x. by destruct (as_ (snd el)). }
  pose proof (parse_reads [view_reader k r as_] es None Hh Hnd ltac:(constructor; [by apply field_wf | constructor]) Hrd) as Hp.
  unfold all_read, read_all, view_reader in Hp. cbn [forallb fold_left] in Hp.
  rewrite field_read_ok, field_read_one in Hp. destruct (at_key k es) as [v|]; [|exact Hp]. simpl in *.
  by destruct (as_ v).
Qed.

Lemma parse_values es : reply_ok 0 es ->
  match at_key "values" es ≫= as_array with
  | Some b => parse_view values_rule (encode_doc es) None = Done (inr b)
  | None => exists what, parse_view values_rule (encode_doc es) None = Done (inl (parse_error what))
  end.
Proof.
  intros Ho. apply parse_view_field; [done|]. intros el.
  eapply acts_ext; [apply acts_must, acts_store | by destruct (as_array (snd el)) | done].
Qed.

Lemma parse_first_batch es : reply_ok 0 es ->
  match at_key "firstBatch" es ≫= as_view with
  | Some b => parse_view first_batch_rule (encode_doc es) None = Done (inr b)
  | None => exists what, parse_view first_batch_rule (encode_doc es) None = Done (inl (parse_error what))
  end.
Proof.
  intros Ho. apply parse_view_field; [done|]. intros el.
  eapply acts_ext; [apply acts_must, acts_store | by destruct (as_view (snd el)) | done].
Qed.

(** A document, or null. *)
Definition view_or_null (v : bson_value_ref) : option view_bytes :=
  match v with v_null => Some None | _ => as_view v end.

Lemma parse_value_or_null es : reply_ok 0 es ->
  match at_key "value" es ≫= view_or_null with
  | Some b => parse_view value_or_null_rule (encode_doc es) None = Done (inr b)
  | None => exists what, parse_view value_or_null_rule (encode_doc es) None = Done (inl (parse_error what))
  end.
Proof.
  intros (Hh & Hnd & _).
  set (rd := field_reader (R := view_bytes) true "value" (any [type_rule as_null just_accept; store_view as_view])
    (fun v => match v with v_null => Some id | _ => (fun b _ => b) <$> as_view v end) (fun _ => reject)).
  assert (reads es [rd]) as Hrd.
  { split; [|by repeat constructor]. apply Forall_forall. intros el _. constructor; [|constructor].
    apply field_reads. intros _. eapply acts_ext.
    - apply (acts_any2 _ _ _ _ _ _ _ (acts_type as_null just_accept el (fun _ => accept) (fun _ => id)
        (fun v _ => acts_intro just_accept v accept id _ (fun _ => eq_refl))) (acts_store as_view (fun b _ => b) el)).
    - destruct (snd el); simpl; done.
    - intros _ x. destruct (snd el); done. }
  pose proof (parse_reads [rd] es None Hh Hnd ltac:(constructor; [by apply field_wf | constructor]) Hrd) as Hp.
  unfold all_read, read_all, rd in Hp. cbn [forallb fold_left] in Hp.
  rewrite field_read_ok, field_read_one in Hp. destruct (at_key "value" es) as [v|]; [|exact Hp]. simpl in *.
  destruct v; exact Hp.
Qed.

(** ** The result of a count *)

(** The rule does not accept, whatever the object. *)
Definition fails {R T} (r : rule (stored R) T) (v : T) : Prop :=
  exists res, state res <> accept /\ forall x, exists x', r v (Done (inr x)) = (Done (inr x'), res).

Section Closed.
Context (k : String.string) (r : rule (stored Z) element).

Definition closed_parts : list (part (stored Z)) := [required k r; part_reject_others].
Definition closed_states (s0 s1 : part_state) : list (part (stored Z) * part_state) :=
  [(required k r, s0); (part_reject_others, s1)].

(** The document will not be accepted. *)
Definition spoilt (s0 s1 : part_state) : Prop := did_error s0 = true \/ is_Some (got_key s1).

Lemma spoilt_final s0 s1 : spoilt s0 s1 -> state (final_result (closed_states s0 s1)) <> accept.
Proof.
  destruct s0 as [d e r0 g0], s1 as [d1 e1 r1 g1]. unfold spoilt. simpl.
  intros [He|[g Hg]]; subst; destruct d; try destruct e; by vm_compute.
Qed.

(** One element: the states of the parts do not depend on the object. *)
Lemma closed_offer el st f s0 s1 : acts r el st f ->
  exists s0' s1' m, (forall x, exists x', offer (closed_states s0 s1) el (Done (inr x)) =
      (Done (inr x'), closed_states s0' s1', m)) /\
    (spoilt s0 s1 -> spoilt s0' s1') /\ (fst el <> lit k -> spoilt s0' s1') /\ (m = error -> spoilt s0' s1').
Proof.
  intros Hr. pose proof (acts_field (lit k) r el st f Hr) as [t Ht]. unfold closed_states, spoilt.
  cbn [offer handle_element required]. unfold handle_rule. destruct (done_ok s0) eqn:Ed.
  { eexists s0, _, reject. split; [intros x; exists x; reflexivity|]. simpl.
    split_and!; intros; right; by eexists. }
  destruct (if decide (fst el = lit k) then st else reject) eqn:Em.
  - eexists _, _, reject. split; [intros x; destruct (Ht x) as (x' & -> & _); exists x'; reflexivity|].
    simpl. split_and!; try done; intros; right; by eexists.
  - destruct (decide (fst el = lit k)) as [Hk|]; [|done].
    eexists _, s1, accept. split; [intros x; destruct (Ht x) as (x' & -> & _); exists x'; reflexivity|]. simpl.
    split_and!; [|done..]. intros [He|?]; [by left | by right].
  - eexists _, s1, error. split; [intros x; destruct (Ht x) as (x' & -> & _); exists x'; reflexivity|]. simpl.
    split_and!; intros; left; by rewrite orb_true_r.
Qed.

Lemma closed_loop es : Forall (fun el => exists st f, acts r el st f) es -> forall s0 s1,
  exists s0' s1', (forall x, exists x', parse_loop (closed_states s0 s1) es (Done (inr x)) =
      (Done (inr x'), closed_states s0' s1')) /\
    (spoilt s0 s1 \/ Exists (fun el => fst el <> lit k) es -> spoilt s0' s1').
Proof.
  induction 1 as [|el es (st & f & Hr) _ IH]; intros s0 s1.
  { exists s0, s1. split; [intros x; by exists x|]. intros [Hq|Hq]; [done | by apply Exists_nil in Hq]. }
  cbn [parse_loop]. destruct (forallb _ (closed_states s0 s1)) eqn:Ed.
  { exists s0, s1. split; [intros x; by exists x|]. intros _. right. unfold closed_states in Ed. simpl in Ed.
    rewrite andb_true_r in Ed. apply andb_true_iff in Ed as [_ Ed]. by apply bool_decide_eq_true in Ed. }
  destruct (closed_offer el st f s0 s1 Hr) as (s0a & s1a & m & Ho & Hs & Hk & Hm).
  destruct (decide (m = error)) as [->|Hne].
  - exists s0a, s1a. split; [|intros _; by apply Hm]. intros x. destruct (Ho x) as (x' & ->). by exists x'.
  - destruct (IH s0a s1a) as (s0b & s1b & Hl & Hsp). exists s0b, s1b. split.
    + intros x. destruct (Ho x) as (x1 & ->). destruct (Hl x1) as (x2 & E). exists x2. by rewrite decide_False.
    + intros [Hq|Hq]; [by apply Hsp; left; apply Hs|].
      apply Exists_cons in Hq as [Hq|Hq]; apply Hsp; [left; by apply Hk | by right].
Qed.

(** A stray element: the document is not accepted. *)
Lemma closed_stray es : Forall (fun el => exists st f, acts r el st f) es -> Exists (fun el => fst el <> lit k) es ->
  fails (doc closed_parts) es.
Proof.
  intros Hr Hx. destruct (closed_loop es Hr part_init part_init) as (s0 & s1 & Hl & Hs).
  exists (final_result (closed_states s0 s1)). split; [apply spoilt_final, Hs; by right|]. intros x.
  destruct (Hl x) as (x' & E). exists x'. unfold doc. cbn [map closed_parts].
  change [(required k r, part_init); (part_reject_others, part_init)] with (closed_states part_init part_init).
  by rewrite E.
Qed.

(** One element with the key: what the rule gives. *)
Lemma closed_one v st f : acts r (lit k, v) st f -> (st = reject -> forall x, f x = x) ->
  acts (doc closed_parts) [(lit k, v)] st f.
Proof.
  intros Hr Hj. pose proof (acts_field (lit k) r (lit k, v) st f Hr) as [t Ht]. rewrite !decide_True in Ht by done.
  unfold acts, doc, closed_parts, required. cbn [map parse_loop forallb done_looking fst snd part_init done_ok andb offer
    handle_element]. unfold handle_rule. cbn [done_ok part_init].
  destruct st; eexists; intros x; destruct (Ht x) as (x' & E & Hx); exists x'; rewrite E; (split; [reflexivity | done]).
Qed.
End Closed.

Lemma acts_any2_fails {R T} (r1 r2 : rule (stored R) T) v : acts r1 v reject id -> fails r2 v ->
  acts (must (any [r1; r2])) v error id.
Proof.
  intros [t1 H1] ([st t2] & Hne & H2). simpl in Hne. unfold acts, must, any, run_until.
  destruct st; [|done|]; eexists; intros x; destruct (H1 x) as (x1 & E1 & Hx1); destruct (H2 x1) as (x2 & E2);
    exists x2; rewrite E1; cbn; rewrite E2; (split; [reflexivity | done]).
Qed.

Lemma acts_any2_first {R T} (r1 r2 : rule (stored R) T) v f : acts r1 v accept f -> acts (any [r1; r2]) v accept f.
Proof.
  intros [t1 H1]. unfold acts, any, run_until. eexists. intros x. destruct (H1 x) as (x1 & E1 & Hx1). exists x1.
  rewrite E1. split; [reflexivity | exact Hx1].
Qed.

Definition n_must_reader : reader Z :=
  field_reader true "n" (must (store as_int32 (fun z => modify (fun _ => z)))) (fun v => (fun z _ => z) <$> as_int32 v)
    (fun _ => error).

Lemma n_must_wf : reader_wf n_must_reader.
Proof. by apply field_wf. Qed.

Lemma n_must_reads es : reads es [n_must_reader].
Proof.
  split; [|by repeat constructor]. apply Forall_forall. intros el _. constructor; [|constructor].
  apply field_reads. intros _. eapply acts_ext; [apply acts_must, acts_store | by destruct (as_int32 (snd el)) |].
  intros _ x. by destruct (as_int32 (snd el)).
Qed.

(** An array of no document, or of one with the count. *)
Definition get_batch (v : bson_value_ref) : option (Z -> Z) :=
  match elements_of v with
  | Some [] => Some id
  | Some [(k, w)] => if decide (k = lit "0") then get_doc [n_must_reader] w else None
  | _ => None
  end.

Lemma acts_empty n el : nested (S n) (snd el) ->
  acts (R := Z) (doc_of [part_reject_others]) el (if decide (elements_of (snd el) = Some []) then accept else reject) id.
Proof.
  intros Hv. pose proof (nested_elements n (snd el) Hv) as He. unfold acts, doc_of.
  destruct (elements_of (snd el)) as [es|].
  - destruct He as (-> & Hh & _). destruct es as [|e [|e' es]]; eexists; intros x; exists x;
      rewrite doc_in_encoded by done; (split; [reflexivity | done]).
  - rewrite He. eexists. intros x. by exists x.
Qed.

Definition zero_rule : rule (stored Z) element := doc_of [r_part n_must_reader].

Lemma acts_zero el : nested 1 (snd el) ->
  acts zero_rule el (if get_doc [n_must_reader] (snd el) then accept else bad_doc [n_must_reader] (snd el))
    (default id (get_doc [n_must_reader] (snd el))).
Proof. intros Hv. apply (acts_one_doc _ 0); [done | apply n_must_wf | done |]. intros es _ _. apply n_must_reads. Qed.

Lemma acts_count_batch el : nested 2 (snd el) ->
  acts count_batch el (if get_batch (snd el) then accept else error) (default id (get_batch (snd el))).
Proof.
  intros Hv. pose proof (nested_elements 1 (snd el) Hv) as He. pose proof (acts_empty 1 el Hv) as He0.
  unfold get_batch. set (r2 := doc_of (closed_parts "0" zero_rule)). change count_batch
    with (must (any [doc_of [part_reject_others]; r2])).
  assert (forall es, elements_of (snd el) = Some es -> forall s, r2 el s = doc (closed_parts "0" zero_rule) es s) as H2.
  { intros es E s. rewrite E in He. destruct He as (Eg & Hh & _). unfold r2, doc_of. by rewrite Eg, doc_in_encoded. }
  destruct (elements_of (snd el)) as [es|] eqn:E; cbn [mbind option_bind].
  - destruct He as (_ & _ & Hnd & Hn).
    assert (Forall (fun el => exists st f, acts zero_rule el st f) es) as Hz
      by (eapply Forall_impl; [exact Hn|]; intros e He; by eexists _, _; apply acts_zero).
    assert (Exists (fun e => fst e <> lit "0") es -> acts (must (any [doc_of [part_reject_others]; r2])) el error id) as Hstray.
    { intros Hx. apply acts_any2_fails.
      - rewrite decide_False in He0 by (intros [= ->]; by apply Exists_nil in Hx). exact He0.
      - destruct (closed_stray "0" zero_rule es Hz Hx) as (res & Hne & Hf). exists res. split; [done|].
        intros x. destruct (Hf x) as (x' & Ef). exists x'. by rewrite (H2 es eq_refl). }
    destruct es as [|[k w] [|[k' w'] es]].
    + rewrite decide_True in He0 by done. apply (acts_must _ _ accept), acts_any2_first, He0.
    + destruct (decide (k = lit "0")) as [->|Hk]; [|apply Hstray; by apply Exists_cons_hd].
      rewrite decide_False in He0 by done. apply Forall_cons in Hn as [Hw _].
      pose proof (closed_one "0" zero_rule w _ _ (acts_zero (lit "0", w) Hw)) as Hone. cbn [snd] in Hone.
      assert (acts r2 el (if get_doc [n_must_reader] w then accept else bad_doc [n_must_reader] w)
        (default id (get_doc [n_must_reader] w))) as Hr2.
      { destruct Hone as [t Ht]; [by destruct (get_doc [n_must_reader] w)|]. exists t. intros x.
        destruct (Ht x) as (x' & Ex & Hx). exists x'. by rewrite (H2 _ eq_refl). }
      eapply acts_ext; [apply acts_must, (acts_any2 _ _ _ _ _ _ _ He0 Hr2) | |]; rewrite ?(decide_True (P := reject = reject)) by done.
      * pose proof (bad_doc_fails [n_must_reader] w). destruct (get_doc [n_must_reader] w); [done|].
        by destruct (bad_doc [n_must_reader] w).
      * done.
    + apply Hstray. simpl in Hnd. apply NoDup_cons in Hnd as [Hni _].
      destruct (decide (k = lit "0")) as [->|]; [|by apply Exists_cons_hd].
      apply Exists_cons_tl, Exists_cons_hd. simpl. intros ->. apply Hni. set_solver.
  - rewrite decide_False in He0 by done. apply acts_any2_fails; [exact He0|].
    unfold r2, doc_of. eexists. split; [|intros x; exists x; rewrite He; reflexivity]. done.
Qed.

(** The count in a reply: that of the only document of the first batch, 0 without a
    document. *)
Definition count_in (v : bson_value_ref) : option Z :=
  es ← elements_of v;
  match es with
  | [] => Some 0
  | [(k, w)] => if decide (k = lit "0") then elements_of w ≫= (fun ns => at_key "n" ns ≫= as_int32) else None
  | _ => None
  end.
Definition count_of (es : list element) : option Z :=
  v ← at_key "cursor" es; cs ← elements_of v; w ← at_key "firstBatch" cs; count_in w.

Definition count_reader : reader Z := field_reader true "firstBatch" count_batch get_batch (fun _ => error).
Definition count_readers : list (reader Z) := [count_reader].
Definition reply_count_readers : list (reader Z) :=
  [field_reader true "cursor" (doc_of [required "firstBatch" count_batch]) (get_doc count_readers) (bad_doc count_readers)].

Lemma get_batch_gives v : (fun f => f 0) <$> get_batch v = count_in v.
Proof.
  unfold get_batch, count_in. destruct (elements_of v) as [[|[k w] [|]]|]; try done. simpl.
  destruct (decide (k = lit "0")); [|done]. unfold get_doc. destruct (elements_of w) as [ns|]; [|done]. simpl.
  unfold all_read, read_all, n_must_reader. cbn [forallb fold_left]. rewrite field_read_ok. unfold read_one.
  pose proof (seen_at_key true "n" (must (store as_int32 (fun z => modify (fun _ => z))))
    (fun v => (fun (z _ : Z) => z) <$> as_int32 v) (fun _ => error) ns) as Hs.
  destruct (seen_by _ ns) as [[k' u]|]; [destruct Hs as [-> _] | by rewrite Hs]. simpl.
  by destruct (as_int32 u).
Qed.

Lemma count_wf : Forall reader_wf count_readers.
Proof. constructor; [by apply field_wf | constructor]. Qed.

Lemma count_reads es : Forall (fun el => nested 2 (snd el)) es -> reads es count_readers.
Proof.
  intros Hn. split; [|by repeat constructor]. eapply Forall_impl; [exact Hn|]. intros el Hel. constructor; [|constructor].
  apply field_reads. intros _. by apply acts_count_batch.
Qed.

Lemma parse_count es : reply_ok 3 es ->
  match count_of es with
  | Some n => parse_view count_rule (encode_doc es) 0 = Done (inr n)
  | None => exists what, parse_view count_rule (encode_doc es) 0 = Done (inl (parse_error what))
  end.
Proof.
  intros (Hh & Hnd & Hn).
  assert (reads es reply_count_readers) as Hr.
  { split; [|by repeat constructor]. eapply Forall_impl; [exact Hn|]. intros el Hel. constructor; [|constructor].
    apply field_reads. intros _. apply (acts_one_doc count_reader 2); [done | apply (Forall_inv count_wf) | done |].
    intros cs _. apply count_reads. }
  pose proof (parse_reads reply_count_readers es 0 Hh Hnd
    ltac:(constructor; [apply field_wf; [intros; apply bad_doc_fails | done] | constructor]) Hr) as Hp.
  unfold all_read, read_all, reply_count_readers in Hp. cbn [forallb fold_left] in Hp.
  rewrite field_read_ok, field_read_one in Hp. unfold count_of.
  destruct (at_key "cursor" es) as [v|]; [|exact Hp]. simpl. unfold get_doc in Hp.
  destruct (elements_of v) as [cs|]; [|exact Hp]. simpl in *. unfold all_read, read_all, count_readers, count_reader in Hp.
  cbn [forallb fold_left] in Hp. rewrite field_read_ok in Hp. unfold read_one in Hp.
  pose proof (seen_at_key true "firstBatch" count_batch get_batch (fun _ => error) cs) as Hs.
  destruct (seen_by _ cs) as [[k w]|]; [destruct Hs as [Hs _]|]; rewrite Hs in *; [|exact Hp]. simpl in *.
  rewrite <- get_batch_gives. by destruct (get_batch w).
Qed.

(** ** Write results *)

(** The error that an element of [writeErrors] describes; its index is not kept. *)
Definition write_error_of (v : bson_value_ref) : option amongoc_write_error :=
  es ← elements_of v; _ ← int_at "index" es; c ← int_at "code" es; m ← at_key "errmsg" es ≫= as_utf8;
  Some (mk_write_error 0 (u32 c) m).

Definition errors_in (v : bson_value_ref) : option (list amongoc_write_error) :=
  match as_array v with Some _ => elements_of v ≫= mapM (fun el => write_error_of (snd el)) | None => None end.

(** The id of the document that was upserted, [v_eod] without one. *)
Definition upserted_in (v : bson_value_ref) : option bson_value_ref :=
  us ← elements_of v; z ← at_key "0" us; zs ← elements_of z; at_key "_id" zs.

(** An optional field: the default when it is not there. *)
Definition or_default {A} (d : A) (get : bson_value_ref -> option A) (o : option bson_value_ref) : option A :=
  match o with None => Some d | Some v => get v end.

(** The members of the result that a reply gives. *)
Definition write_reply (f : n_field) (es : list element) : option write_parse :=
  n ← int_at "n" es;
  modified ← or_default 0 int_of (at_key "nModified" es);
  matched ← or_default 0 int_of (at_key "nMatched" es);
  upserted ← or_default 0 int_of (at_key "nUpserted" es);
  id ← or_default v_eod upserted_in (at_key "upserted" es);
  errors ← or_default [] errors_in (at_key "writeErrors" es);
  Some (set_n f n (mk_write_parse 0 matched modified upserted id errors 0 0 [])).

(** *** Write errors *)

Definition error_readers : list (reader write_parse) := [
  int_reader true "index" set_index; int_reader true "code" set_code; store_reader "errmsg" as_utf8 set_msg].

Lemma error_wf : Forall reader_wf error_readers.
Proof. unfold error_readers. rewrite !Forall_cons. split_and!; [apply int_wf.. | apply store_wf | by apply Forall_nil]. Qed.

Lemma error_reads es : reads es error_readers.
Proof.
  split.
  - apply Forall_forall. intros el _. unfold error_readers. rewrite !Forall_cons.
    split_and!; [apply int_reads.. | apply store_reads | by apply Forall_nil].
  - unfold error_readers. pairwise ltac:(by apply stores_fmap).
Qed.

Definition error_state (el : element) : pstate :=
  if get_doc error_readers (snd el) then accept else bad_doc error_readers (snd el).
Definition error_eff (el : element) (w : write_parse) : write_parse :=
  let w := from_option (read_all error_readers) id (elements_of (snd el)) w in
  if decide (error_state el = accept) then push_write_error w else w.

Lemma acts_write_error el : nested 1 (snd el) -> acts parse_write_error el (error_state el) (error_eff el).
Proof.
  intros Hv. pose proof (acts_get_doc error_readers 0 el Hv error_wf (fun es _ _ => error_reads es)) as Ha.
  eapply acts_ext; [apply (acts_all2 _ _ _ _ _ _ _ Ha (acts_action (fun _ => push_write_error) el)) | |];
    unfold error_eff; fold (error_state el); by destruct (decide (error_state el = accept)).
Qed.

Definition add_errors (l : list amongoc_write_error) (w : write_parse) : write_parse :=
  mk_write_parse (w_inserted w) (w_matched w) (w_modified w) (w_upserted w) (w_id w) (w_errors w ++ l)
    (v_index w) (v_code w) (v_msg w).

(** What an error stores. *)
Lemma error_eff_spec el :
  match write_error_of (snd el) with
  | Some e => error_state el = accept /\ forall w, exists i c m, error_eff el w =
      set_index i (set_code c (set_msg m (add_errors [e] w)))
  | None => error_state el <> accept
  end.
Proof.
  pose proof (bad_doc_fails error_readers (snd el)) as Hb. unfold error_eff, error_state, write_error_of, get_doc in *.
  destruct (elements_of (snd el)) as [es|]; [|exact Hb]. cbn [mbind option_bind from_option].
  assert (all_read error_readers es = bool_decide (is_Some (int_at "index" es)) && bool_decide (is_Some (int_at "code" es)) &&
    bool_decide (is_Some (at_key "errmsg" es ≫= as_utf8))) as Ha.
  { unfold all_read, error_readers, int_reader, store_reader, int_at. cbn [forallb]. rewrite !field_read_ok, andb_true_r.
    destruct (at_key "index" es) as [vi|]; simpl; [destruct (int_of vi)|]; simpl; try done.
    all: destruct (at_key "code" es) as [vc|]; simpl; [destruct (int_of vc)|]; simpl; try done.
    all: destruct (at_key "errmsg" es) as [vm|]; simpl; [destruct (as_utf8 vm)|]; done. }
  rewrite Ha in *.
  destruct (int_at "index" es) as [i|] eqn:Ei; simpl; [|exact Hb].
  destruct (int_at "code" es) as [c|] eqn:Ec; simpl; [|exact Hb].
  destruct (at_key "errmsg" es ≫= as_utf8) as [m|] eqn:Em; simpl; [|exact Hb]. split; [done|]. intros w. exists i, c, m.
  unfold read_all, error_readers, int_reader, store_reader. cbn [fold_left]. rewrite !field_read_one.
  unfold int_at in *. destruct (at_key "index" es) as [vi|]; [|done]. destruct (at_key "code" es) as [vc|]; [|done].
  destruct (at_key "errmsg" es) as [vm|]; [|done]. simpl in *. rewrite Ei, Ec, Em. by destruct w.
Qed.

Lemma errors_spec es :
  match mapM (fun el => write_error_of (snd el)) es with
  | Some l => each_state error_state es = accept /\ forall w, exists i c m,
      each_eff error_state error_eff es w = set_index i (set_code c (set_msg m (add_errors l w)))
  | None => each_state error_state es <> accept
  end.
Proof.
  induction es as [|el es IH]; simpl.
  { split; [done|]. intros w. exists (v_index w), (v_code w), (v_msg w). destruct w. unfold add_errors. simpl. by rewrite app_nil_r. }
  pose proof (error_eff_spec el) as He. destruct (write_error_of (snd el)) as [e|]; simpl; [|by rewrite decide_False].
  destruct He as [Ea He]. rewrite decide_True by done. destruct (mapM _ es) as [l|]; simpl; [|exact IH].
  destruct IH as [Es IH]. split; [done|]. intros w. rewrite decide_True by done. destruct (He w) as (i & c & m & ->).
  destruct (IH (set_index i (set_code c (set_msg m (add_errors [e] w))))) as (i' & c' & m' & ->).
  exists i', c', m'. unfold add_errors. simpl. by rewrite <- app_assoc.
Qed.

(** *** The readers of a write result *)

Definition get_errors (v : bson_value_ref) : option (write_parse -> write_parse) :=
  match as_array v with
  | Some _ =>
      es ← elements_of v;
      if decide (each_state error_state es = accept) then Some (each_eff error_state error_eff es) else None
  | None => None
  end.

Definition errors_reader : reader write_parse :=
  field_reader false "writeErrors" (must (each_of parse_write_error)) get_errors (fun _ => error).

Lemma errors_reads el : nested 2 (snd el) -> described el (sem_of errors_reader).
Proof.
  intros Hv. apply field_reads. intros _.
  eapply acts_ext; [apply acts_must, (acts_each_of parse_write_error 1 error_state error_eff el Hv), acts_write_error | |];
    unfold get_errors; (destruct (as_array (snd el)); [|done]); (destruct (elements_of (snd el)) as [es|]; [|done]);
    cbn [from_option mbind option_bind]; destruct (each_state error_state es); done.
Qed.

(** The document that was upserted. *)
Definition id_reader : reader write_parse := store_reader "_id" as_value set_id.
Definition zero_reader : reader write_parse :=
  field_reader true "0" (doc_of [r_part id_reader]) (get_doc [id_reader]) (bad_doc [id_reader]).
Definition upserted_reader : reader write_parse :=
  field_reader false "upserted" (must upserted_rule) (fun v => set_id <$> upserted_in v) (fun _ => error).

Lemma get_one_field k (r : rule (stored write_parse) element) get bad v :
  get_doc [field_reader true k r get bad] v = elements_of v ≫= (fun es => at_key k es ≫= get).
Proof.
  unfold get_doc. destruct (elements_of v) as [es|]; [|done]. cbn [mbind option_bind]. unfold all_read, read_all.
  cbn [forallb fold_left]. rewrite field_read_ok, andb_true_r. unfold read_one.
  pose proof (seen_at_key true k r get bad es) as Hs.
  destruct (seen_by _ es) as [el|]; [destruct Hs as [-> _] | by rewrite Hs]. simpl. by destruct (get (snd el)).
Qed.

Lemma upserted_get v : get_doc [zero_reader] v = set_id <$> upserted_in v.
Proof.
  unfold zero_reader. rewrite get_one_field. unfold upserted_in. destruct (elements_of v) as [us|]; [|done]. simpl.
  destruct (at_key "0" us) as [z|]; [|done]. simpl. unfold id_reader, store_reader. rewrite get_one_field.
  destruct (elements_of z) as [zs|]; [|done]. simpl. by destruct (at_key "_id" zs).
Qed.

Lemma id_reads es : reads es [id_reader].
Proof.
  split; [|by repeat constructor]. apply Forall_forall. intros el _. constructor; [apply store_reads | constructor].
Qed.

Lemma zero_reads es : Forall (fun el => nested 1 (snd el)) es -> reads es [zero_reader].
Proof.
  intros Hn. split; [|by repeat constructor]. eapply Forall_impl; [exact Hn|]. intros el Hel. constructor; [|constructor].
  apply field_reads. intros _. apply (acts_one_doc id_reader 0 el Hel (store_wf _ _ _) eq_refl). intros es' _ _. apply id_reads.
Qed.

Lemma upserted_reads el : nested 2 (snd el) -> described el (sem_of upserted_reader).
Proof.
  intros Hv. apply field_reads. intros _. rewrite <- upserted_get. change upserted_rule with (doc_of (map r_part [zero_reader])).
  apply (acts_must_doc [zero_reader] 1 el Hv).
  - constructor; [|constructor]. apply field_wf; [intros; apply bad_doc_fails | done].
  - intros es _ Hes. by apply zero_reads.
Qed.

(** Stores that write errors do not disturb. *)
Definition undisturbed (g : write_parse -> write_parse) : Prop :=
  (forall z w, g (set_index z w) = set_index z (g w)) /\ (forall z w, g (set_code z w) = set_code z (g w)) /\
  (forall s w, g (set_msg s w) = set_msg s (g w)) /\ (forall l w, g (add_errors l w) = add_errors l (g w)).

Lemma errors_undisturbed v f g : undisturbed g -> get_errors v = Some f -> forall w, f (g w) = g (f w).
Proof.
  intros (Hi & Hc & Hm & Ha) E w. unfold get_errors in E. destruct (as_array v); [|done].
  destruct (elements_of v) as [es|]; [|done]. simpl in E. destruct (decide _) as [Hs|]; [|done]. injection E as <-.
  revert w. induction es as [|el es IH]; intros w; [done|]. simpl in *. pose proof (error_eff_spec el) as He.
  destruct (decide (error_state el = accept)) as [Hel|]; [|done]. destruct (write_error_of (snd el)) as [e|]; [|done].
  rewrite <- IH by done. f_equal. destruct He as [_ _]. unfold error_eff. rewrite !decide_True by done.
  assert (forall es w, read_all error_readers es (g w) = g (read_all error_readers es w)) as Hr.
  { intros cs x. unfold read_all, error_readers, int_reader, store_reader. cbn [fold_left]. rewrite !field_read_one.
    destruct (at_key "index" cs) as [vi|]; [destruct (int_of vi)|]; cbn [option_fmap option_map fmap from_option default id];
    destruct (at_key "code" cs) as [vc|]; try (destruct (int_of vc)); cbn [option_fmap option_map fmap from_option default id];
    destruct (at_key "errmsg" cs) as [vm|]; try (destruct (as_utf8 vm)); cbn [option_fmap option_map fmap from_option default id];
    unfold id; by rewrite <- ?Hi, <- ?Hc, <- ?Hm. }
  assert (forall w, push_write_error w = add_errors [mk_write_error 0 (u32 (v_code w)) (v_msg w)] w) as Hp by done.
  assert (forall w, v_code (g w) = v_code w /\ v_msg (g w) = v_msg w) as Hv.
  { intros x. specialize (Hc (v_code x) x). specialize (Hm (v_msg x) x).
    replace (set_code (v_code x) x) with x in Hc by by destruct x. replace (set_msg (v_msg x) x) with x in Hm by by destruct x.
    split; [by apply (f_equal v_code) in Hc | by apply (f_equal v_msg) in Hm]. }
  assert (forall w, push_write_error (g w) = g (push_write_error w)) as Hq.
  { intros x. rewrite !Hp, Ha. by destruct (Hv x) as [-> ->]. }
  destruct (elements_of (snd el)) as [cs|]; cbn [from_option]; unfold id; by rewrite ?Hr, Hq.
Qed.

Definition write_readers (f : n_field) : list (reader write_parse) := [
  must_int_reader true "n" (set_n f);
  must_int_reader false "nModified" set_modified;
  must_int_reader false "nMatched" set_matched;
  must_int_reader false "nUpserted" set_upserted;
  upserted_reader;
  errors_reader].

Lemma write_wf f : Forall reader_wf (write_readers f).
Proof.
  unfold write_readers. rewrite !Forall_cons. split_and!; [apply must_int_wf.. | | | by apply Forall_nil]; by apply field_wf.
Qed.

(** The counts of matched documents do not come twice. *)
Definition one_count (f : n_field) (es : list element) : Prop := f = into_matched_count -> at_key "nMatched" es = None.

Lemma at_key_absent k es el : at_key k es = None -> el ∈ es -> fst el <> lit k.
Proof.
  unfold at_key, first_value. intros E Hin Hk. apply list_elem_of_In in Hin.
  destruct (List.find _ es) as [e|] eqn:Ef; [done|].
  pose proof (find_none _ _ Ef el Hin) as Hf. simpl in Hf. by apply bool_decide_eq_false in Hf.
Qed.

Lemma stores_errors {T} (as_ : bson_value_ref -> option T) set : (forall z, undisturbed (set z)) ->
  stores_apart (fun v => set <$> as_ v) get_errors.
Proof. intros Hu v v' f f' (z & _ & ->)%fmap_Some E w. symmetry. by apply (errors_undisturbed v'). Qed.

Lemma write_reads f es : one_count f es -> Forall (fun el => nested 2 (snd el)) es -> reads es (write_readers f).
Proof.
  intros Hone Hn. split.
  - eapply Forall_impl; [exact Hn|]. intros el Hel. unfold write_readers. rewrite !Forall_cons.
    split_and!; [apply must_int_reads.. | by apply upserted_reads | by apply errors_reads | by apply Forall_nil].
  - assert (apart es (must_int_reader true "n" (set_n f)) (must_int_reader false "nMatched" set_matched)) as Hm.
    { destruct f; [by apply apart_keys; [reflexivity | simpl; apply stores_fmap]|]. split.
      - intros k H1%list_elem_of_singleton H2%list_elem_of_singleton. by rewrite H1 in H2.
      - intros el el' g g' _ Hin _ Hk%list_elem_of_singleton. by destruct (at_key_absent "nMatched" es el' (Hone eq_refl) Hin). }
    unfold write_readers. pairwise ltac:(simpl; first [by destruct f; apply stores_fmap | by apply stores_errors; intros z; destruct f]).
Qed.

(** The variables of the parse do not matter. *)
Lemma finish_forgets {V} f i c m w (id : V) :
  finish_counts f (set_index i (set_code c (set_msg m w))) id = finish_counts f w id.
Proof.
  destruct w as [a b d u v l i' c' m'], f; unfold finish_counts, checked64; simpl;
    destruct v; simpl; try reflexivity; by destruct (bool_decide (is_i64 (u + 1))).
Qed.

(** The reply of a write: the result that it gives, or a protocol error. *)
Lemma parse_write f es : reply_ok 2 es -> one_count f es ->
  match write_reply f es with
  | Some w => exists w', parse_view (write_rule f) (encode_doc es) new_write_parse = Done (inr w') /\
      w_id w' = w_id w /\ forall V (id : V), finish_counts f w' id = finish_counts f w id
  | None => exists what, parse_view (write_rule f) (encode_doc es) new_write_parse = Done (inl (parse_error what))
  end.
Proof.
  intros (Hh & Hnd & Hn) Hone.
  pose proof (parse_reads (write_readers f) es new_write_parse Hh Hnd (write_wf f) (write_reads f es Hone Hn)) as Hp.
  change (map r_part (write_readers f)) with (write_rule f) in Hp.
  unfold all_read, read_all, write_readers, must_int_reader, upserted_reader, errors_reader in Hp.
  cbn [forallb fold_left] in Hp. rewrite !field_read_ok, !field_read_one in Hp. unfold write_reply, int_at.
  destruct (at_key "n" es) as [vn|]; simpl in *; [|exact Hp]. destruct (int_of vn) as [n|]; simpl in *; [|exact Hp].
  destruct (at_key "nModified" es) as [vm|]; simpl in *; [destruct (int_of vm); simpl in *; [|exact Hp]|].
  all: destruct (at_key "nMatched" es) as [va|] eqn:Eone; simpl in *;
    [assert (f <> into_matched_count) by (intros ->; by rewrite Hone in Eone); destruct (int_of va); simpl in *; [|exact Hp]|].
  all: destruct (at_key "nUpserted" es) as [vu|]; simpl in *; [destruct (int_of vu); simpl in *; [|exact Hp]|].
  all: destruct (at_key "upserted" es) as [vd|]; simpl in *; [destruct (upserted_in vd); simpl in *; [|exact Hp]|].
  all: destruct (at_key "writeErrors" es) as [ve|]; simpl in *; [|eexists; split; [exact Hp | by destruct f]].
  all: unfold get_errors, errors_in in *; destruct (as_array ve); simpl in *; [|exact Hp].
  all: destruct (elements_of ve) as [xs|]; simpl in *; [|exact Hp].
  all: pose proof (errors_spec xs) as He; destruct (mapM _ xs) as [l|]; simpl in *; [|by rewrite decide_False in Hp].
  all: destruct He as [Ea He]; rewrite decide_True in Hp by done; eexists; split; [exact Hp|]; simpl.
  all: match goal with |- context [each_eff _ _ _ ?w] => destruct (He w) as (i & c & m & ->) end;
    split; [by destruct f|]; intros V id; rewrite finish_forgets; by destruct f.
Qed.
