(* ===== verification/CollectionSpec.v ===== *)
(** * What the operations of collections do

    Every operation is a command that is built and sent, and a result that is a
    function of the elements of the reply; what goes wrong becomes a status.  Values that a result keeps are copies of those of the
    reply. *)
From Stdlib Require Import ZArith Lia.
From Stdlib Require Import Strings.Byte Strings.String.
From stdpp Require Import base numbers list sets.
From S2P Require Import Prelude.
From S2P Require Import Mem.
From S2P Require Import Alloc.
From S2P Require Import Vec.
From S2P Require Import OwnedValue.
From S2P Require Import Types.
From S2P Require Import View.
From S2P Require Import Iterator.
From S2P Require Import IteratorSafe.
From S2P Require Import Codec.
From S2P Require Import Parse.
From S2P Require Import Alloc.
From S2P Require Import Str.
From S2P Require Import Doc.
From S2P Require Import Wire.
From S2P Require Import WireSpec.
From S2P Require Import WireClient.
From S2P Require Import MutElem.
From S2P Require Import MutRefine.
From S2P Require Import Status.
From S2P Require Import Make.
From S2P Require Import Reply.
From S2P Require Import ReplySpec.
From S2P Require Import Handshake.
From S2P Require Import HandshakeSpec.
From S2P Require Import Hello.
From S2P Require Import Collection.
From S2P Require Import CollectionParse.
Open Scope Z_scope.

(** ** Documents in a reply *)

Lemma value_smaller (el : element) es : el ∈ es -> 7 + zlen (encode_value (snd el)) <= doc_size es.
Proof.
  unfold doc_size. induction es as [|[k v] es IH]; [by intros ?%elem_of_nil|]. rewrite elem_of_cons.
  rewrite encode_body_cons, zlen_app, zlen_encode_elem. pose proof (zlen_nonneg k). pose proof (zlen_nonneg (encode_body es)).
  pose proof (zlen_nonneg (encode_value v)). intros [-> | Hin]; simpl; [lia|]. specialize (IH Hin). lia.
Qed.

Lemma elements_smaller v bs n : nested (S n) v -> elements_of v = Some bs -> zlen (encode_value v) = doc_size bs.
Proof.
  intros Hv E. pose proof (nested_elements n v Hv) as He. rewrite E in He. destruct He as [Hd _].
  destruct v; try done; simpl in Hd |- *; subst; apply zlen_encode_doc.
Qed.

(** The documents of the batch of a cursor, and its id. *)
Definition batch_of (es : list element) : option (Z * list element) :=
  cs ← at_key "cursor" es ≫= elements_of;
  b ← List.find (fun kv => bool_decide (fst kv ∈ first_keys)) cs ≫= (fun kv => elements_of (snd kv));
  id ← at_key "id" cs ≫= as_int64;
  Some (id, b).

Lemma at_key_in k es v : at_key k es = Some v -> (lit k, v) ∈ es.
Proof.
  unfold at_key, first_value. destruct (List.find _ es) as [[k' w]|] eqn:E; [|done]. intros [= <-].
  apply find_some in E as [Hin Hk]. apply bool_decide_eq_true in Hk. simpl in Hk. subst. by apply list_elem_of_In.
Qed.

Lemma nested_at n k es v : Forall (fun el => nested n (snd el)) es -> at_key k es = Some v -> nested n v.
Proof. intros Hn Hk%at_key_in. rewrite Forall_forall in Hn. by apply (Hn (lit k, v)). Qed.

Lemma nested_less n v : nested (S n) v -> nested n v.
Proof.
  revert v. induction n as [|n IH]; intros v Hv; [done|]. destruct v; try done;
    destruct Hv as (es & E & Hh & Hd & Hn); exists es; split_and!; try done; eapply Forall_impl; [exact Hn| |exact Hn|];
    intros el; apply IH.
Qed.

(** A view of a nested document shows its elements. *)
Lemma view_elements n v : nested (S n) v -> as_view v = (fun es => Some (encode_doc es)) <$> elements_of v.
Proof.
  intros Hv. pose proof (nested_elements n v Hv) as He.
  destruct (elements_of v); [destruct He as [He _]|]; destruct v; simpl in *; try done;
    try (destruct Hv as (? & -> & _)); congruence.
Qed.

Lemma cursor_batch es : reply_ok 2 es -> cursor_of es = (fun '(id, bs) => (id, Some (encode_doc bs))) <$> batch_of es.
Proof.
  intros (_ & _ & Hn). unfold cursor_of, batch_of. destruct (at_key "cursor" es) as [v|] eqn:Ev; [|done]. simpl.
  pose proof (nested_elements 1 v (nested_at 2 _ _ _ Hn Ev)) as He. destruct (elements_of v) as [cs|]; [|done]. simpl.
  destruct He as (_ & _ & _ & Hcs). destruct (List.find _ cs) as [[k b]|] eqn:Ef; [|done]. simpl.
  apply find_some in Ef as [Hin _]. apply list_elem_of_In in Hin. rewrite Forall_forall in Hcs.
  rewrite (view_elements 0 b (Hcs _ Hin)). destruct (elements_of b); [|done]. simpl. by destruct (at_key "id" cs ≫= as_int64).
Qed.

Lemma batch_fits es id bs : reply_ok 2 es -> batch_of es = Some (id, bs) -> doc_size bs <= INT32_MAX - 14.
Proof.
  intros ((_ & _ & Hmax) & _ & Hn). unfold batch_of. destruct (at_key "cursor" es) as [v|] eqn:Ev; [|done]. simpl.
  pose proof (nested_elements 1 v (nested_at 2 _ _ _ Hn Ev)) as He.
  destruct (elements_of v) as [cs|] eqn:Ecs; [|done]. simpl. destruct He as (_ & _ & _ & Hcs).
  destruct (List.find _ cs) as [[k b]|] eqn:Ef; [|done]. simpl. apply find_some in Ef as [Hin _].
  apply list_elem_of_In in Hin. rewrite Forall_forall in Hcs.
  destruct (elements_of b) as [bs'|] eqn:Eb; [|done]. simpl. destruct (at_key "id" cs ≫= as_int64); [|done]. intros [= _ <-].
  pose proof (value_smaller _ _ (at_key_in _ _ _ Ev)). pose proof (value_smaller _ _ Hin). simpl in *.
  rewrite (elements_smaller v cs 1) in * by (done || by eapply nested_at).
  rewrite (elements_smaller b bs' 0) in * by (done || apply (Hcs _ Hin)). lia.
Qed.

(** *** Values that are copied *)

(** The values of the elements of a document can be copied. *)
Lemma value_copyable v : Codec.readable v -> zlen (encode_value v) + 7 <= INT32_MAX -> copyable v.
Proof.
  intros [Hf _] Hz. destruct v as [|bits|s|[d|]|[d|]|sub data| |o|b|z| |[rx|] [opt|]|c o|s|s| |z|ti ts|z|b| | |t]; try done; cbn [encode_value copyable framed] in *.
  - rewrite zlen_encode_string in Hz. lia.
  - destruct Hf as (B & E & _). exists B. assert (zlen d = 5 + zlen B) as Hd.
    { apply (f_equal zlen) in E. rewrite !zlen_app, zlen_le32 in E. change (zlen [x00]) with 1 in E. lia. }
    split; [|lia]. f_equal. rewrite E at 1. unfold frame. do 2 f_equal. lia.
  - destruct Hf as (B & E & _). exists B. assert (zlen d = 5 + zlen B) as Hd.
    { apply (f_equal zlen) in E. rewrite !zlen_app, zlen_le32 in E. change (zlen [x00]) with 1 in E. lia. }
    split; [|lia]. f_equal. rewrite E at 1. unfold frame. do 2 f_equal. lia.
  - rewrite zlen_cstring_pair in Hz. pose proof (zlen_nonneg rx). pose proof (zlen_nonneg opt). simpl. lia.
  - rewrite zlen_encode_string in Hz. lia.
  - rewrite zlen_encode_string in Hz. lia.
Qed.

Lemma holdable_copyable es el : holdable es -> el ∈ es -> copyable (snd el).
Proof.
  intros (_ & Hr & Hmax) Hin. apply value_copyable; [by rewrite Forall_forall in Hr; apply Hr|]. pose proof (value_smaller el es Hin). lia.
Qed.

Lemma upserted_copyable v id : nested 2 v -> upserted_in v = Some id -> copyable id.
Proof.
  intros Hv. unfold upserted_in. pose proof (nested_elements 1 v Hv) as He. destruct (elements_of v) as [us|]; [|done]. simpl.
  destruct He as (_ & _ & _ & Hus). destruct (at_key "0" us) as [z|] eqn:Ez; [|done]. simpl.
  pose proof (nested_elements 0 z (nested_at 1 _ _ _ Hus Ez)) as Hz. destruct (elements_of z) as [zs|]; [|done]. simpl.
  destruct Hz as (_ & Hzs & _). intros Hid%at_key_in. by apply (holdable_copyable zs (lit "_id", id)).
Qed.

Lemma write_id_copyable f es w : reply_ok 2 es -> write_reply f es = Some w -> copyable (w_id w).
Proof.
  intros (_ & _ & Hn). unfold write_reply. destruct (int_at "n" es) as [n|]; [|done]. simpl.
  destruct (or_default 0 int_of (at_key "nModified" es)); [|done]. destruct (or_default 0 int_of (at_key "nMatched" es)); [|done].
  destruct (or_default 0 int_of (at_key "nUpserted" es)); [|done]. simpl.
  destruct (or_default v_eod upserted_in (at_key "upserted" es)) as [id|] eqn:Eid; [|done]. simpl.
  destruct (or_default [] errors_in (at_key "writeErrors" es)); [|done]. intros [= <-].
  assert (copyable id) as Hid.
  { unfold or_default in Eid. destruct (at_key "upserted" es) as [v|] eqn:Ev; [|by injection Eid as <-].
    by eapply upserted_copyable; [eapply nested_at|]. }
  by destruct f.
Qed.

(** ** The operations, abstractly *)

(** An operation on a collection with its parameters. *)
Inductive operation : Type :=
| op_drop (p : option amongoc_collection_drop_params)
| op_aggregate (pipeline : list view_bytes) (p : option amongoc_aggregate_params)
| op_count (filter : view_bytes) (p : option amongoc_count_params)
| op_remove (filter : view_bytes) (only_one : bool) (p : option amongoc_delete_params)
| op_distinct (field_name : text) (filter : view_bytes) (p : option amongoc_distinct_params)
| op_estimate (p : option amongoc_count_params)
| op_find (filter : view_bytes) (p : option amongoc_find_params)
| op_get_more (id batch_size : Z)
| op_insert (docs : list view_bytes) (p : option amongoc_insert_params)
| op_update (filter : view_bytes) (updates : list view_bytes) (pipeline_len : Z) (many : bool)
    (p : option amongoc_update_params)
| op_modify (filter : view_bytes) (remove : bool) (updates : option (list view_bytes)) (pipeline_len : Z)
    (p : option amongoc_find_plus_params).

(** What an operation resolves with. *)
Inductive answer : Type :=
| nothing
| number32 (z : Z)
| number64 (z : Z)
| batch (id : Z) (docs : list element) (batch_size : Z)
| values (l : list bson_value_ref)
| written (r : amongoc_write_result bson_value_ref)
| document (d : option (list element)).

Definition command_of {AS} (coll : amongoc_collection AS) (o : operation) : outcome (list element_rule) :=
  match o with
  | op_drop p => Done (drop_command coll (default no_drop_params p))
  | op_aggregate pipeline p =>
      Done (make_command coll "aggregate" (aggregate_elements pipeline (default no_aggregate_params p)))
  | op_count filter p => Done (count_command coll filter (default no_count_params p))
  | op_remove filter only_one p => Done (delete_command coll filter only_one (default no_delete_params p))
  | op_distinct field_name filter p => Done (distinct_command coll field_name filter (default no_distinct_params p))
  | op_estimate p => Done (estimated_count_command coll (default no_count_params p))
  | op_find filter p => Done (find_command coll filter (default no_find_params p))
  | op_get_more id n => Done (get_more_command coll id n)
  | op_insert docs p => Done (insert_command coll docs (default no_insert_params p))
  | op_update filter updates n many p => update_command coll filter updates n many (default no_update_params p)
  | op_modify filter remove updates n p => find_and_modify_command coll filter remove updates n p
  end.

(** The levels of nested documents in a reply that are looked at. *)
Definition levels (o : operation) : nat :=
  match o with
  | op_drop _ | op_remove _ _ _ | op_estimate _ => 0
  | op_distinct _ _ _ | op_modify _ _ _ _ _ => 1
  | op_aggregate _ _ | op_find _ _ | op_get_more _ _ | op_insert _ _ | op_update _ _ _ _ _ => 2
  | op_count _ _ => 3
  end.

Definition okay (a : answer) : amongoc_status * answer := (amongoc_okay, a).

(** The result of a write is that of the reply; a signed overflow is undefined. *)
Definition write_answer (f : n_field) (g : forall V, amongoc_write_result V -> amongoc_write_result V) (es : list element)
  : outcome (option (amongoc_status * answer)) :=
  match write_reply f es with
  | None => Done None
  | Some w => let* r := finish_counts f w (w_id w) in Done (Some (write_status r, written (g _ r)))
  end.

(** The result for the elements of a reply; [None] is a protocol error. *)
Definition answer_of (o : operation) (es : list element) : outcome (option (amongoc_status * answer)) :=
  match o with
  | op_drop _ => Done (Some (okay nothing))
  | op_aggregate _ p =>
      Done ((fun '(id, bs) => okay (batch id bs (agg_batch_size (default no_aggregate_params p)))) <$> batch_of es)
  | op_find _ p => Done ((fun '(id, bs) => okay (batch id bs (find_batch_size (default no_find_params p)))) <$> batch_of es)
  | op_get_more _ n => Done ((fun '(id, bs) => okay (batch id bs n)) <$> batch_of es)
  | op_count _ _ => Done ((fun n => okay (number32 n)) <$> count_of es)
  | op_remove _ _ _ | op_estimate _ => Done ((fun n => okay (number64 n)) <$> int_at "n" es)
  | op_distinct _ _ _ =>
      Done (v ← at_key "values" es; _ ← as_array v; vs ← elements_of v; Some (okay (values (map snd vs))))
  | op_insert _ _ => write_answer into_inserted_count (@set_acknowledged) es
  | op_update _ _ _ _ _ => write_answer into_matched_count (fun _ r => r) es
  | op_modify _ _ _ _ _ =>
      Done (v ← at_key "value" es;
            match v with
            | v_null => Some (okay (document None))
            | _ => (fun es => okay (document (Some es))) <$> elements_of v
            end)
  end.

(** ** The exchange *)

Section Exchange.
Context {AS : Type} {HA : Allocator AS} {HOK : AllocatorOk AS}.
Context (generous : forall a : AS, ~ denies a).

Lemma new_document_spec es (a : AS) : doc_size es <= INT32_MAX - 4 ->
  exists d cap, new_document (encode_doc es) a = Done d /\ doc_holds d (encode_body es) cap.
Proof.
  intros Hn. unfold new_document. unfold doc_size in Hn.
  destruct (copy_spec (mk_block 16 (encode_doc es)) 16 (encode_body es) a) as [Href | H]; [done | | lia | | exact H].
  - apply bytes_at_whole.
  - by apply (not_refused generous) in Href; [|lia].
Qed.

Lemma reply_bytes_spec es (d : bson_doc AS) : reply_document es d -> reply_bytes d = Done (encode_doc es).
Proof.
  intros [(cap & Hd) (_ & _ & Hmax)]. pose proof (holds_at _ _ _ Hd) as Hat. pose proof (holds_not_null _ _ _ Hd) as Hp.
  apply Z.eqb_neq in Hp. destruct (view_of_doc (doc_buf d) (_bson_document_data d) (doc_size es) Hp) as [Hsz Hv].
  { by apply encoded_doc_at. }
  unfold reply_bytes. rewrite Hsz. ostep. rewrite Hv. ostep. rewrite <- zlen_encode_doc. by apply rd_range_at.
Qed.

Lemma reply_document_wf es (d : bson_doc AS) : reply_document es d -> reply_wf es.
Proof. intros [_ (Hwf & Hr & Hmax)]. split_and!; [done..|]. intros k v Hf. by eapply first_value_all. Qed.

Lemma reply_checked es (d : bson_doc AS) : reply_document es d -> throw_if_body_error d = reply_error es.
Proof.
  intros Hr. pose proof (reply_document_wf es d Hr) as Hwf. destruct Hr as [(cap & Hd) _].
  destruct (body_error_spec d es cap Hd Hwf) as [Href | H]; [|done].
  pose proof (holds_room _ _ _ Hd). pose proof (holds_cap _ _ _ Hd). unfold doc_size in Href.
  by apply (not_refused generous) in Href; [|lia].
Qed.

(** A loop over an array keeps an invariant of the elements passed. *)
Lemma for_array_spec es {T} (body : block -> bson_iterator -> T -> outcome T) (P : list element -> T -> Prop) init : holdable es ->
  (forall pre k w rest s it, es = pre ++ (k, w) :: rest -> bson_iterator_value (mk_block 16 (encode_doc es)) it = Done w -> P pre s ->
     exists s', body (mk_block 16 (encode_doc es)) it s = Done s' /\ P (pre ++ [(k, w)]) s') ->
  P [] init -> exists s, for_array (Some (encode_doc es)) body init = Done s /\ P es s.
Proof.
  intros (Hwf & Hr & Hmax) Hbody Hi. unfold for_array. pose proof (bytes_at_whole (encode_doc es)) as Hat.
  rewrite (begin_encode _ 16 es), (end_encode _ 16 es) by done. ostep.
  match goal with |- context [foreach_subrange _ ?fuel _ _ ?b init] =>
    destruct (foreach_invariant (mk_block 16 (encode_doc es)) 16 es Hat Hwf Hmax b P fuel) with (rest := es) (pre := ([] : list element)) (s := init)
      as (s & Es & HP) end; [|done|apply length_elements|done|].
  - intros pre [k w] rest s E HP.
    destruct (element_access (mk_block 16 (encode_doc es)) 16 es eq_refl Hat Hwf Hmax pre k w rest E) as (_ & _ & Hv & He).
    cbv beta zeta. rewrite He. change (negb (0 =? bson_iter_errc_okay)) with false. cbv iota.
    destruct (Hbody pre k w rest s _ E (Hv ltac:(rewrite E, Forall_app, Forall_cons in Hr; tauto)) HP) as (s' & -> & HP').
    by exists s'.
  - exists s. by rewrite Es.
Qed.

Lemma array_distance_spec es : holdable es -> array_distance (Some (encode_doc es)) = Done (zlen es).
Proof.
  intros Hh. destruct (for_array_spec es (fun _ _ n => Done (n + 1)) (fun pre n => n = zlen pre) 0 Hh) as (n & E & ->); [|done|exact E].
  intros pre k w rest s it _ _ ->. eexists. split; [done|]. rewrite zlen_app. done.
Qed.

(** The values of an array are copied in order. *)
Lemma copy_values_spec (dflt : AS) es : holdable es -> exists l,
  copy_values dflt (Some (encode_doc es)) (zlen es) = Done l /\ Forall2 copy_of l (map snd es).
Proof.
  intros Hh. unfold copy_values.
  match goal with |- context [for_array _ ?b _] =>
    destruct (for_array_spec es b (fun pre l => Forall2 copy_of l (map snd pre)) [] Hh) as (l & E & Hl) end; [|done|].
  - intros pre k w rest l it E Hv Hl. rewrite Hv. ostep.
    destruct (value_copied generous dflt dflt w) as (o & -> & Ho).
    { apply (holdable_copyable es (k, w) Hh). rewrite E. apply elem_of_app. right. apply list_elem_of_here. }
    ostep. assert (zlen l = zlen pre) as Hz by (unfold zlen; apply Forall2_length in Hl; rewrite length_map in Hl; lia).
    assert (zlen pre < zlen es) as Hlt by (rewrite E, zlen_app, zlen_cons; pose proof (zlen_nonneg rest); lia).
    rewrite (proj2 (Z.ltb_lt _ _)) by lia. eexists. split; [done|]. rewrite map_app. by apply Forall2_app; [|repeat constructor; apply Ho].
  - rewrite E. ostep. assert (zlen l = zlen es) as -> by (unfold zlen; apply Forall2_length in Hl; rewrite length_map in Hl; lia).
    rewrite Z.sub_diag, app_nil_r. by exists l.
Qed.

Context {C : Type} {HC : ClientInterface C (op_msg_message (body_section bson_view)) (any_message AS)}.

Lemma checked_request (msg : op_msg_message (body_section bson_view)) c c' r : request msg c = Done (c', r) ->
  match r with
  | inl e => simple_request (HC := checking_request) msg c = Done (c', inl e)
  | inr resp => forall es d, sections (content resp) = [body_of d] -> reply_document es d ->
      simple_request (HC := checking_request) msg c =
        let* err := reply_error es in Done (c', match err with Some e => inl e | None => inr d end)
  end.
Proof.
  intros Er. change (simple_request (HC := checking_request) msg)
    with (co_await (checking_request msg) (fun r => lift (W := C) (expect_one_body_section_op_msg r))).
  unfold checking_request, co_await, lift. rewrite Er. ostep. destruct r as [e|resp]; [done|]. intros es d Es Hr.
  unfold throw_if_message_error. rewrite Es. cbn [throw_if_sections_error throw_if_section_error body_of Wire.body].
  rewrite (reply_checked es d Hr). destruct (reply_error es) as [[e|]| |]; try done. ostep. unfold co_return. ostep.
  unfold expect_one_body_section_op_msg. by rewrite Es.
Qed.

(** A command that can be built: its values can be inserted, and its size fits. *)
Definition sendable (cmd : list element_rule) : Prop :=
  every appendable cmd /\ exists n, rule_byte_size (Make.doc cmd) = Done n /\ 0 <= n /\
    n + 5 * headers (Make.doc cmd) <= INT32_MAX - 516.

(** The command goes out as one body section that holds its elements; the reply is
    checked for an error of the server. *)
Lemma simple_request_spec (a : AS) cmd : sendable cmd ->
  exists view, shows view (encode_body (all_elements cmd)) /\
  forall c c' r, request (mk_op_msg [mk_body view]) c = Done (c', r) ->
  match r with
  | inl e => simple_request_of a cmd c = Done (c', inl (wire_exn e))
  | inr resp => forall es d, sections (content resp) = [body_of d] -> reply_document es d ->
      simple_request_of a cmd c =
        let* err := reply_error es in
        Done (c', match err with Some e => inl (wire_exn e) | None => inr d end)
  end.
Proof.
  intros (Hb & n & E & Hn & Hmax). destruct (proj1 size_bounds (Make.doc cmd) Hb) as (n' & E' & _ & Hle).
  rewrite E in E'. injection E' as <-.
  change (denoted_size _) with (zlen (encode_value (MutRefine.subdoc false (all_elements cmd)))) in Hle. rewrite zlen_subdoc in Hle.
  pose proof (proj1 header_bounds (Make.doc cmd)).
  destruct (build_does a cmd n generous Hb E ltac:(lia) ltac:(lia)) as (d & cap & Eb & Hd).
  exists (view_of d). split; [by eapply view_of_shows|]. intros c c' r Er.
  unfold simple_request_of, bind, call. rewrite Eb. ostep. cbn [negb].
  unfold await. pose proof (checked_request _ c c' r Er) as Hc. destruct r as [e|resp]; [by rewrite Hc|].
  intros es d' Es Hr. rewrite (Hc es d' Es Hr). by destruct (reply_error es) as [[e|]| |].
Qed.
End Exchange.

(** ** The operations, as the code has them *)

Section Operations.
Context {AS : Type} {HA : Allocator AS} {HOK : AllocatorOk AS}.
Context {C : Type} {HC : ClientInterface C (op_msg_message (body_section bson_view)) (any_message AS)}.
Context (X : externals) (stream_code : Z -> error_code) (dflt : AS) (coll : amongoc_collection AS).

(** The function of the operation; the records that a cursor holds are released. *)
Definition perform (o : operation) (old : bson_doc AS) : emitter AS C :=
  match o with
  | op_drop p => amongoc_collection_drop X stream_code coll p
  | op_aggregate pipeline p => amongoc_collection_aggregate X stream_code coll pipeline p
  | op_count filter p => amongoc_count_documents X stream_code coll filter p
  | op_remove filter only_one p => amongoc_delete_ex X stream_code coll filter only_one p
  | op_distinct field_name filter p => amongoc_distinct X stream_code dflt coll field_name filter p
  | op_estimate p => amongoc_estimated_document_count X stream_code coll p
  | op_find filter p => amongoc_find X stream_code coll filter p
  | op_get_more id n => amongoc_cursor_next X stream_code (mk_cursor id (Some coll) old n)
  | op_insert docs p => amongoc_insert_ex X stream_code dflt coll docs (zlen docs) p
  | op_update filter updates n many p => amongoc_update_ex X stream_code dflt coll filter updates n many p
  | op_modify filter remove updates n p => amongoc_find_and_modify X stream_code coll filter remove updates n p
  end.

(** The write result with another id. *)
Definition with_id {V W} (id : W) (r : amongoc_write_result V) : amongoc_write_result W :=
  mk_write_result (acknowledged r) (inserted_count r) (matched_count r) (modified_count r) (deleted_count r)
    (upserted_count r) (write_errors r) id.

(** The value that an emitter resolves with stands for the answer: the values of a reply are copied. *)
Definition stands_for (v : boxed AS) (a : answer) : Prop :=
  match v, a with
  | nil, nothing => True
  | box_int32 z, number32 z' | box_int64 z, number64 z' => z = z'
  | box_cursor c, batch id bs n =>
      cursor_id c = id /\ cursor_coll c = Some coll /\ _batch_size c = n /\
      exists cap, doc_holds (records c) (encode_body bs) cap
  | box_values l, values l' => Forall2 copy_of l l'
  | box_write_result r, written r' => copy_of (upserted_id r) (upserted_id r') /\ r' = with_id (upserted_id r') r
  | box_doc None, document None => True
  | box_doc (Some d), document (Some es) => exists cap, doc_holds d (encode_body es) cap
  | _, _ => False
  end.

(** What follows the request. *)
Definition after (o : operation) (resp : bson_doc AS) : body C (emitter_result AS) :=
  match o with
  | op_drop _ => co_yield (mk_result amongoc_okay nil)
  | op_aggregate _ p =>
      bind (_parse_cursor coll (agg_batch_size (default no_aggregate_params p)) resp) (fun c => resolve (box_cursor c))
  | op_count _ _ => bind (parse_reply count_rule resp 0) (fun n => resolve (box_int32 n))
  | op_remove _ _ _ => bind (parse_reply n_rule resp (-1)) (fun n => resolve (box_int64 n))
  | op_distinct _ _ _ =>
      bind (parse_reply values_rule resp None) (fun v =>
      bind (call (array_distance v)) (fun n =>
      bind (call (vec_new_n sizeof_bson_value None n (coll_allocator coll))) (fun '(_, alloc_okay) =>
      if negb alloc_okay then raise (wire_exn bad_alloc)
      else bind (call (copy_values dflt v n)) (fun l => resolve (box_values l)))))
  | op_estimate _ => bind (parse_reply n_rule resp 0) (fun n => resolve (box_int64 n))
  | op_find _ p =>
      bind (_parse_cursor coll (find_batch_size (default no_find_params p)) resp) (fun c => resolve (box_cursor c))
  | op_get_more _ n => bind (_parse_cursor coll n resp) (fun c => resolve (box_cursor c))
  | op_insert _ _ =>
      bind (_parse_write_result dflt resp into_inserted_count (coll_allocator coll))
        (fun r => co_yield (mk_result (write_status r) (box_write_result (set_acknowledged r))))
  | op_update _ _ _ _ _ =>
      bind (_parse_write_result dflt resp into_matched_count (coll_allocator coll))
        (fun r => co_yield (mk_result (write_status r) (box_write_result r)))
  | op_modify _ _ _ _ _ =>
      bind (parse_reply value_or_null_rule resp None) (fun view =>
      bind (call match view with
                 | Some v => omap_outcome Some (new_document v (coll_allocator coll))
                 | None => Done None
                 end) (fun d => resolve (box_doc d)))
  end.

Lemma perform_runs o old a cmd c : command_of coll o = Done cmd -> bson_delete old = Done a ->
  perform o old c =
    run_emitter X stream_code (bind (simple_request_of (coll_allocator coll) cmd) (after o)) c.
Proof.
  intros Ec Ed. destruct o; cbn [command_of] in Ec; try (injection Ec as <-; reflexivity).
  - injection Ec as <-. cbn [perform]. unfold amongoc_cursor_next, run_emitter. unfold bind at 1 2 3, call. cbn [records cursor_coll].
    by rewrite Ed.
  - injection Ec as <-. cbn [perform]. unfold amongoc_insert_ex, run_emitter, span_of. unfold bind at 1, call.
    rewrite Z.leb_refl. unfold zlen. rewrite Nat2Z.id, firstn_all. done.
  - cbn [perform]. unfold amongoc_update_ex, run_emitter. unfold bind at 1, call. by rewrite Ec.
  - cbn [perform]. unfold amongoc_find_and_modify, run_emitter. unfold bind at 1, call. by rewrite Ec.
Qed.

Context (generous : forall a : AS, ~ denies a).

Lemma parse_reply_gives {R} (parts : list (part (stored R))) es (resp : bson_doc AS) init r (c : C) : reply_document es resp ->
  parse_view parts (encode_doc es) init = Done r ->
  parse_reply parts resp init c = Done (c, match r with inl e => inl (reply_exn e) | inr a => inr a end).
Proof. intros Hr E. unfold parse_reply, parses. rewrite (reply_bytes_spec es resp Hr). ostep. by rewrite E. Qed.

Lemma then_inr {A B} (x : body C A) (k : A -> body C B) c c' a : x c = Done (c', inr a) -> bind x k c = k a c'.
Proof. intros E. unfold bind. by rewrite E. Qed.
Lemma then_inl {A B} (x : body C A) (k : A -> body C B) c c' e : x c = Done (c', inl e) -> bind x k c = Done (c', inl e).
Proof. intros E. unfold bind. by rewrite E. Qed.

(** A cursor of the reply holds a copy of the batch. *)
Lemma parse_cursor_spec es (resp : bson_doc AS) n (c : C) : reply_document es resp -> reply_ok 2 es ->
  match batch_of es with
  | Some (id, bs) => exists curs, _parse_cursor coll n resp c = Done (c, inr curs) /\
      stands_for (box_cursor curs) (batch id bs n)
  | None => exists what, _parse_cursor coll n resp c = Done (c, inl (reply_exn (parse_error what)))
  end.
Proof.
  intros Hr Ho. assert (reply_ok 1 es) as Ho1.
  { destruct Ho as (Hh & Hd & Hn). split_and!; [done..|]. eapply Forall_impl; [exact Hn|]. intros el. apply nested_less. }
  pose proof (parse_cursor_parts es Ho1) as Hp. rewrite (cursor_batch es Ho) in Hp.
  destruct (batch_of es) as [[id bs]|] eqn:Eb; simpl in Hp.
  - pose proof (batch_fits es id bs Ho Eb). destruct (new_document_spec generous bs (coll_allocator coll)) as (d & cap & Ed & Hd); [lia|].
    unfold _parse_cursor. rewrite (then_inr _ _ _ _ _ (parse_reply_gives _ _ _ _ _ c Hr Hp)). cbn [p_batch p_cursor_id].
    eexists. split.
    + unfold copy_document, bind, call. rewrite Ed. ostep. rewrite (holds_not_null _ _ _ Hd). unfold co_yield. ostep. reflexivity.
    + cbn. eauto.
  - destruct Hp as [what Hp]. exists what. unfold _parse_cursor.
    by rewrite (then_inl _ _ _ _ _ (parse_reply_gives _ _ _ _ _ c Hr Hp)).
Qed.

(** The rest of an operation gives the answer. *)
Definition gives (x : outcome (C * (thrown + emitter_result AS))) (c : C)
  (e : outcome (option (amongoc_status * answer))) : Prop :=
  match e with
  | Done (Some (st, a)) => exists v, x = Done (c, inr (mk_result st v)) /\ stands_for v a
  | Done None => exists what, x = Done (c, inl (reply_exn (parse_error what)))
  | Undef => x = Undef
  | Abort => x = Abort
  end.

(** The id of the result has no part in its counts. *)
Lemma counts_with_id {V W} f w (id : V) (id' : W) : finish_counts f w id' = let* r := finish_counts f w id in Done (with_id id' r).
Proof. unfold finish_counts. destruct (w_id w); ostep; repeat (destruct (checked64 _); ostep); done. Qed.

Lemma parse_write_spec f (g : forall V, amongoc_write_result V -> amongoc_write_result V) es (resp : bson_doc AS) (c : C) :
  (forall V W (id : W) (r : amongoc_write_result V), g _ (with_id id r) = with_id id (g _ r) /\ upserted_id (g _ r) = upserted_id r /\ write_errors (g _ r) = write_errors r) ->
  reply_document es resp -> reply_ok 2 es -> one_count f es ->
  let k := bind (_parse_write_result dflt resp f (coll_allocator coll)) (fun r => co_yield (mk_result (write_status r) (box_write_result (g _ r)))) in
  gives (k c) c (write_answer f g es).
Proof.
  intros Hg Hr Ho Hone k. pose proof (parse_write f es Ho Hone) as Hp. pose proof (write_id_copyable f es) as Hid. unfold gives, write_answer.
  destruct (write_reply f es) as [w|].
  - destruct Hp as (w' & Hp & Ei & Ef). destruct (value_copied generous dflt (coll_allocator coll) (w_id w) (Hid w Ho eq_refl)) as (o & Eo & Hcopy).
    assert (k c = let* r := finish_counts f w o in Done (c, inr (mk_result (write_status r) (box_write_result (g _ r))))) as ->.
    { subst k. unfold _parse_write_result, bind. rewrite (parse_reply_gives _ _ _ _ _ c Hr Hp). ostep. unfold call, finish_write_result.
      rewrite Ei, Eo. ostep. rewrite Ef. by destruct (finish_counts f w o). }
    rewrite (counts_with_id f w o (w_id w)). destruct (finish_counts f w o) as [r| |] eqn:Er; [|done..]. ostep.
    assert (upserted_id r = o) as Hro.
    { clear -Er. unfold finish_counts in Er. inv_done. by destruct f. }
    eexists. split; [done|]. cbn [stands_for]. destruct (Hg _ _ (w_id w) r) as (-> & -> & _). by rewrite Hro.
  - destruct Hp as [what Hp]. exists what. subst k. unfold _parse_write_result, bind.
    by rewrite (parse_reply_gives _ _ _ _ _ c Hr Hp).
Qed.

(** The parse of one value, and what is done with it. *)
Lemma parse_then {R} (parts : list (part (stored R))) es (resp : bson_doc AS) init (o : option R)
  (k : R -> body C (emitter_result AS)) (g : R -> amongoc_status * answer) (c : C) : reply_document es resp ->
  match o with
  | Some x => parse_view parts (encode_doc es) init = Done (inr x)
  | None => exists what, parse_view parts (encode_doc es) init = Done (inl (parse_error what))
  end ->
  (forall x, o = Some x -> exists v, k x c = Done (c, inr (mk_result (fst (g x)) v)) /\ stands_for v (snd (g x))) ->
  gives (bind (parse_reply parts resp init) k c) c (Done (g <$> o)).
Proof.
  intros Hr Hp Hk. destruct o as [x|]; simpl.
  - rewrite (then_inr _ _ _ _ _ (parse_reply_gives _ _ _ _ _ c Hr Hp)). specialize (Hk x eq_refl). by destruct (g x).
  - destruct Hp as [what Hp]. exists what. by rewrite (then_inl _ _ _ _ _ (parse_reply_gives _ _ _ _ _ c Hr Hp)).
Qed.

Lemma cursor_then es (resp : bson_doc AS) n (c : C) : reply_document es resp -> reply_ok 2 es ->
  gives (bind (_parse_cursor coll n resp) (fun curs => resolve (box_cursor curs)) c) c
    (Done ((fun '(id, bs) => okay (batch id bs n)) <$> batch_of es)).
Proof.
  intros Hr Ho. pose proof (parse_cursor_spec es resp n c Hr Ho) as Hp. destruct (batch_of es) as [[id bs]|]; simpl.
  - destruct Hp as (curs & E & Hs). rewrite (then_inr _ _ _ _ _ E). by exists (box_cursor curs).
  - destruct Hp as [what E]. exists what. by rewrite (then_inl _ _ _ _ _ E).
Qed.

(** The counts of an update do not come twice; the values of a reply fit a region of memory. *)
Definition countable (o : operation) (es : list element) : Prop :=
  match o with
  | op_update _ _ _ _ _ => at_key "nMatched" es = None
  | op_distinct _ _ _ => forall v vs, at_key "values" es = Some v -> elements_of v = Some vs -> zlen vs * sizeof_bson_value <= INT32_MAX
  | _ => True
  end.

(** The values of a required array. *)
Lemma values_then field_name filter p es (resp : bson_doc AS) (c : C) : reply_document es resp -> reply_ok 1 es -> countable (op_distinct field_name filter p) es ->
  gives (after (op_distinct field_name filter p) resp c) c
    (Done (v ← at_key "values" es; _ ← as_array v; vs ← elements_of v; Some (okay (values (map snd vs))))).
Proof.
  intros Hr (Hh & Hd & Hn) Hc. pose proof (parse_values es ltac:(split_and!; [done..|]; by apply Forall_true)) as Hp. cbn [after countable] in *.
  destruct (at_key "values" es) as [v|] eqn:Ev; simpl in *.
  - pose proof (nested_elements 0 v (nested_at 1 _ _ _ Hn Ev)) as He. destruct (as_array v) as [d|] eqn:Ea; simpl in *.
    + destruct v; try done. injection Ea as ->. pose proof (nested_at 1 _ _ _ Hn Ev) as (vs & -> & Hvs & _).
      assert (elements_of (v_array (Some (encode_doc vs))) = Some vs) as Evs by (apply (elements_of_encoded _ vs _ Hvs eq_refl); eauto).
      rewrite Evs. simpl. destruct (copy_values_spec generous dflt vs Hvs) as (l & El & Hl). exists (box_values l). split; [|exact Hl].
      destruct (new_n_spec sizeof_bson_value None ltac:(done) ltac:(done) (zlen vs) (coll_allocator coll)) as (vec & Evec & _);
        [apply zlen_nonneg|by eapply Hc|apply generous|].
      rewrite (then_inr _ _ _ _ _ (parse_reply_gives _ _ _ _ _ c Hr Hp)). unfold bind, call.
      rewrite (array_distance_spec vs Hvs). ostep. rewrite Evec. ostep. cbn [negb]. by rewrite El.
    + destruct Hp as [what Hp]. exists what. by rewrite (then_inl _ _ _ _ _ (parse_reply_gives _ _ _ _ _ c Hr Hp)).
  - destruct Hp as [what Hp]. exists what. by rewrite (then_inl _ _ _ _ _ (parse_reply_gives _ _ _ _ _ c Hr Hp)).
Qed.

(** A document or null: a document is copied. *)
Lemma value_then es (resp : bson_doc AS) (c : C) : reply_document es resp -> reply_ok 1 es ->
  gives (bind (parse_reply value_or_null_rule resp None) (fun view =>
      bind (call match view with
                 | Some v => omap_outcome Some (new_document v (coll_allocator coll))
                 | None => Done None
                 end) (fun d => resolve (box_doc d))) c) c
    (Done (v ← at_key "value" es;
           match v with
           | v_null => Some (okay (document None))
           | _ => (fun es => okay (document (Some es))) <$> elements_of v
           end)).
Proof.
  intros Hr (Hh & Hd & Hn). pose proof (parse_value_or_null es ltac:(split_and!; [done..|]; by apply Forall_true)) as Hp.
  destruct (at_key "value" es) as [v|] eqn:Ev; simpl in *.
  2:{ destruct Hp as [what Hp]. exists what. by rewrite (then_inl _ _ _ _ _ (parse_reply_gives _ _ _ _ _ c Hr Hp)). }
  pose proof (nested_at 1 _ _ _ Hn Ev) as Hv. pose proof (view_elements 0 v Hv) as Hview.
  destruct (decide (v = v_null)) as [->|Hne].
  { exists (box_doc None). by rewrite (then_inr _ _ _ _ _ (parse_reply_gives _ _ _ _ _ c Hr Hp)). }
  assert (view_or_null v = as_view v) as Hvn by by destruct v. rewrite Hvn, Hview in Hp.
  assert (match v with v_null => Some (okay (document None)) | _ => (fun es => okay (document (Some es))) <$> elements_of v end
    = (fun es => okay (document (Some es))) <$> elements_of v) as -> by by destruct v.
  destruct (elements_of v) as [bs|] eqn:Eb; simpl in *.
  - pose proof (value_smaller _ _ (at_key_in _ _ _ Ev)) as Hs. simpl in Hs. rewrite (elements_smaller v bs 0 Hv Eb) in Hs.
    destruct Hh as (_ & _ & Hmax).
    destruct (new_document_spec generous bs (coll_allocator coll)) as (d & cap & Ed & Hdoc); [lia|].
    exists (box_doc (Some d)). split; [|by exists cap].
    rewrite (then_inr _ _ _ _ _ (parse_reply_gives _ _ _ _ _ c Hr Hp)). unfold bind, call. by rewrite Ed.
  - destruct Hp as [what Hp]. exists what. by rewrite (then_inl _ _ _ _ _ (parse_reply_gives _ _ _ _ _ c Hr Hp)).
Qed.

Lemma after_spec o es (resp : bson_doc AS) (c : C) : reply_document es resp -> reply_ok (levels o) es -> countable o es ->
  gives (after o resp c) c (answer_of o es).
Proof.
  intros Hr Ho Hc. destruct o; cbn [levels countable after answer_of] in *.
  - by exists nil.
  - by apply cursor_then.
  - apply (parse_then _ es); [exact Hr | by apply parse_count|]. intros n _. by exists (box_int32 n).
  - apply (parse_then _ es); [exact Hr | by apply parse_n|]. intros n _. by exists (box_int64 n).
  - by apply (values_then field_name filter p).
  - apply (parse_then _ es); [exact Hr | by apply parse_n|]. intros n _. by exists (box_int64 n).
  - by apply cursor_then.
  - by apply cursor_then.
  - apply (parse_write_spec into_inserted_count (@set_acknowledged)); [done | exact Hr | exact Ho | discriminate].
  - apply (parse_write_spec into_matched_count (fun _ r => r)); [done | exact Hr | exact Ho | by intros _].
  - by apply value_then.
Qed.

Lemma emitter_ends {c c' : C} {x : body C (emitter_result AS)} {r} : x c = Done (c', r) ->
  run_emitter X stream_code x c =
    match r with
    | inl e => let* res := unhandled_exception X stream_code e in Done (c', res)
    | inr res => Done (c', res)
    end.
Proof. intros E. unfold run_emitter. by rewrite E. Qed.

(** *** Documents of updates *)

(** The first key starts with a dollar sign. *)
Definition names_operator (es : list element) : bool :=
  match es with [] => false | (k, _) :: _ => starts_with (lit "$") k end.

Lemma is_update_spec es : holdable es -> _is_update_spec_doc (Some (encode_doc es)) = Done (names_operator es).
Proof.
  intros (Hwf & Hr & Hmax). unfold _is_update_spec_doc. pose proof (bytes_at_whole (encode_doc es)) as Hat.
  rewrite (begin_encode _ 16 es), (end_encode _ 16 es) by done. ostep. destruct es as [|[k v] es].
  - done.
  - destruct (element_access (mk_block 16 (encode_doc ((k, v) :: es))) 16 _ eq_refl Hat Hwf Hmax [] k v es eq_refl)
      as (Hk & _ & _ & He).
    destruct (doc_split _ 16 _ Hat Hwf Hmax [] (k, v) es eq_refl) as (_ & Hlt & _).
    rewrite zlen_encode_elem in Hlt. pose proof (zlen_nonneg k). pose proof (zlen_nonneg (encode_value v)).
    assert (bson_iterator_eq (iter_of 16 ((k, v) :: es) [] ((k, v) :: es)) (iter_of 16 ((k, v) :: es) ((k, v) :: es) [])
      = false) as -> by (unfold bson_iterator_eq; simpl; apply Z.eqb_neq; simpl in Hlt; lia).
    rewrite He. change (negb (0 =? bson_iter_errc_okay)) with false. cbv iota. by rewrite Hk.
Qed.

(** Documents of updates are looked at before anything is sent: an update must
    name an operator with its first key and a replacement must not; a document that
    is wrong is an error of the client, without a request, and one that is right is
    the update with that document and no pipeline. *)
Theorem update_documents_checked es filter old (c : C) : holdable es ->
  let d := Some (encode_doc es) in
  let invalid := Done (c, mk_result (mk_status (known_category client) 1) nil) in
  (forall p, amongoc_update_one X stream_code dflt coll filter d p c =
     if names_operator es then perform (op_update filter [d] 0 false p) old c else invalid) /\
  (forall p, amongoc_update_many X stream_code dflt coll filter d p c =
     if names_operator es then perform (op_update filter [d] 0 true p) old c else invalid) /\
  (forall p, amongoc_replace_one X stream_code dflt coll filter d p c =
     let p := default no_replace_params p in
     if names_operator es then invalid
     else perform (op_update filter [d] 0 false
       (Some (mk_update_params None 0 (replace_bypass_document_validation p) (replace_collation p) (replace_hint p)
         (replace_upsert p) (replace_let p) (replace_comment p)))) old c).
Proof.
  intros Hh d invalid. unfold amongoc_update_one, amongoc_update_many, amongoc_replace_one. subst d.
  rewrite (is_update_spec es Hh). ostep. by destruct (names_operator es).
Qed.

(** C8. An operation on a collection, when memory lasts and its command can be built ([sendable]: no parameter is a regular expression, code
    with scope, a database pointer or the null view of a value, and the size fits): it builds the command and sends it, as one body
    section with its elements; what the request throws, and an error that the reply
    reports, becomes the status and the value of the exception.  Otherwise, for a reply whose elements can be read ([reply_ok]: no empty
    string, database pointer or code with scope, distinct keys in the documents that are looked at) and can be counted ([countable]), the result
    is the answer for the elements of the reply (no batch, number, values, write
    result or document is lost or made up), or a protocol error when the reply does
    not have the form that the operation asks for.  The values of a distinct and the id that was upserted are copies ([copy_of]): of binary data the
    copy has zeros, and that of a regular expression cannot be viewed ([distinct_binary_is_zeros]). *)
Theorem operation_spec o old a cmd :
  command_of coll o = Done cmd -> sendable cmd -> bson_delete old = Done a ->
  exists view, shows view (encode_body (all_elements cmd)) /\
  forall c c' r, request (mk_op_msg [mk_body view]) c = Done (c', r) ->
  match r with
  | inl e => perform o old c = let* res := unhandled_exception X stream_code (wire_exn e) in Done (c', res)
  | inr resp => forall es d, sections (content resp) = [body_of d] -> reply_document es d ->
      reply_ok (levels o) es -> countable o es ->
      match reply_error es with
      | Done (Some e) => perform o old c = let* res := unhandled_exception X stream_code (wire_exn e) in Done (c', res)
      | Done None =>
          match answer_of o es with
          | Done (Some (st, a)) => exists v, perform o old c = Done (c', mk_result st v) /\ stands_for v a
          | Done None => exists what, perform o old c =
              let* res := unhandled_exception X stream_code (reply_exn (parse_error what)) in Done (c', res)
          | Undef => perform o old c = Undef
          | Abort => perform o old c = Abort
          end
      | Undef => perform o old c = Undef
      | Abort => perform o old c = Abort
      end
  end.
Proof.
  intros Ec Hs Hold. destruct (simple_request_spec generous (coll_allocator coll) cmd Hs) as (view & Hv & Hreq).
  exists view. split; [exact Hv|]. intros c c' r Er. rewrite !(perform_runs o old a cmd c Ec Hold). specialize (Hreq c c' r Er).
  destruct r as [e|resp]; [by rewrite (emitter_ends (then_inl _ _ _ _ _ Hreq))|].
  intros es d Es Hr Ho Hc. specialize (Hreq es d Es Hr). destruct (reply_error es) as [[e|]| |]; simpl in Hreq.
  - by rewrite (emitter_ends (then_inl _ _ _ _ _ Hreq)).
  - pose proof (after_spec o es d c' Hr Ho Hc) as Ha. rewrite <- (then_inr _ (after o) _ _ _ Hreq) in Ha.
    destruct (answer_of o es) as [[[st ans]|]| |]; simpl in Ha.
    + destruct Ha as (v & E & Hsv). exists v. by rewrite (emitter_ends E).
    + destruct Ha as [what E]. exists what. by rewrite (emitter_ends E).
    + unfold run_emitter. by rewrite Ha.
    + unfold run_emitter. by rewrite Ha.
  - unfold run_emitter, bind. by rewrite Hreq.
  - unfold run_emitter, bind. by rewrite Hreq.
Qed.
End Operations.

(** ** Concrete operations *)

Definition things : amongoc_collection ample := mk_collection (lit "db") (lit "things") (mk_ample 0).

Definition thing : list element := [(lit "_id", v_int32 1)].
Definition duplicate : list element :=
  [(lit "index", v_int32 1); (lit "code", v_int32 11000); (lit "errmsg", v_utf8 (lit "duplicate key"))].

(** The reply to the insertion of two documents with the same id. *)
Definition insert_reply : list element := [
  (lit "n", v_int32 1);
  (lit "writeErrors", v_array (Some (encode_doc [(lit "0", v_document (Some (encode_doc duplicate)))])));
  (lit "ok", v_int32 1)].

Definition insert_two : operation := op_insert [Some (encode_doc thing); Some (encode_doc thing)] None.

Lemma insert_reply_ok : reply_ok 2 insert_reply.
Proof.
  assert (holdable duplicate) by (unfold duplicate; solve_holdable).
  unfold insert_reply. split_and!; [solve_holdable | by (apply (bool_decide_unpack _); vm_compute) |].
  repeat (apply Forall_cons; split); [done | | done | by apply Forall_nil]. eexists. split; [reflexivity|].
  split_and!; [solve_holdable | by (apply (bool_decide_unpack _); vm_compute) |].
  apply Forall_cons; split; [|by apply Forall_nil]. eexists. split; [reflexivity|].
  split_and!; [done | by (apply (bool_decide_unpack _); vm_compute) | by apply Forall_true].
Qed.

Lemma reply_doc_holds es : holdable es -> 5 + doc_size es <= INT32_MAX -> reply_document es (reply_doc es).
Proof.
  intros Hh Hm. split; [|exact Hh]. exists (doc_size es). split; [| lia | done | done].
  exists []. rewrite app_nil_r. cbn [reply_doc doc_buf b_bytes]. split; [done|].
  change (frame (encode_body es)) with (encode_doc es). rewrite zlen_encode_doc. change (zlen []) with 0. lia.
Qed.

Definition insert_command_of : list element_rule := insert_command things
  [Some (encode_doc thing); Some (encode_doc thing)] no_insert_params.

Lemma insert_sendable : sendable insert_command_of.
Proof.
  split.
  - repeat split; first [done | by vm_compute | by apply encode_doc_is_doc].
  - eexists. split_and!; [vm_compute; reflexivity | done | by vm_compute].
Qed.

(** A reply for the replaying client. *)
Definition sample_stream_code (z : Z) : error_code := mk_error_code cxx_asio_misc z.

Lemma operation_spec_witness : exists c' v,
  perform linux_externals sample_stream_code (mk_ample 0) things insert_two (reply_doc []) [reply_message insert_reply] =
    Done (c', mk_result (mk_status crud_category 1) v) /\
  stands_for things v (written (mk_write_result true 1 0 0 0 0 [mk_write_error 0 11000 (lit "duplicate key")] v_eod)).
Proof.
  destruct (operation_spec linux_externals sample_stream_code (mk_ample 0) things ample_never_denies insert_two (reply_doc []) _ insert_command_of
    eq_refl insert_sendable eq_refl) as (view & _ & H).
  specialize (H [reply_message insert_reply] [] (inr (reply_message insert_reply)) eq_refl
    insert_reply (reply_doc insert_reply) eq_refl).
  destruct H as (v & E & Hv); [| exact insert_reply_ok | exact Logic.I |].
  { apply reply_doc_holds; [apply insert_reply_ok | by vm_compute]. }
  exists [], v. split; [exact E | exact Hv].
Defined.

(** The binary value of a reply to a distinct, and what it resolves with. *)
Definition distinct_reply : list element := [
  (lit "values", v_array (Some (encode_doc [(lit "0", v_binary x00 [x61; x62])])));
  (lit "ok", v_int32 1)].

Example distinct_binary_is_zeros :
  match perform linux_externals sample_stream_code (mk_ample 0) things (op_distinct (lit "k") None None) (reply_doc []) [reply_message distinct_reply] with
  | Done (_, r) => match er_value r with box_values [o] => _bson_value_ref_from_value o | _ => Undef end
  | _ => Undef
  end = Done (v_binary x00 [x00; x00]).
Proof. vm_compute. reflexivity. Qed.

Lemma update_documents_checked_witness :
  amongoc_update_one linux_externals sample_stream_code (mk_ample 0) things None (Some (encode_doc thing)) None ([] : replay) =
    Done ([], mk_result (mk_status (known_category client) 1) nil).
Proof.
  destruct (update_documents_checked linux_externals sample_stream_code (mk_ample 0) things thing None (reply_doc []) ([] : replay)) as [H _].
  - unfold thing. solve_holdable.
  - exact (H None).
Defined.

(** A reply whose second element has no type that the format knows: the parse of the
    reply throws what no clause catches, and the process ends. *)
Definition malformed_body : list byte := encode_body [(lit "ok", v_int32 1)] ++ [x1f; x6e; x00].
Definition malformed_reply : any_message ample :=
  mk_any_message 1 0 (mk_op_msg [any_body (mk_body (mk_doc 68
    (mk_block 64 (le32 (zlen (frame malformed_body)) ++ frame malformed_body)) (mk_ample 0)))]).

Lemma malformed_reply_terminates :
  amongoc_delete_one linux_externals sample_stream_code things (Some (encode_doc thing)) None [malformed_reply] = Abort.
Proof. by vm_compute. Qed.

(** A reply to an aggregation on a database, as servers send it: the batch is in the
    member [cursor], which is not looked at. *)
Definition cursor_reply : list element := [
  (lit "cursor", v_document (Some (encode_doc [(lit "firstBatch", v_array (Some (encode_doc []))); (lit "id", v_int64 0)])));
  (lit "ok", v_int32 1)].

Lemma database_aggregate_rejected : exists r what,
  amongoc_database_aggregate linux_externals sample_stream_code (mk_database (lit "db") (mk_ample 0)) [] None
    [reply_message cursor_reply] = Done ([], r) /\
  status r = mk_status (known_category generic) (EPROTO linux_externals) /\
  er_value r = box_what (reply_exn (parse_error what)).
Proof.
  eexists _, _. split; [vm_compute; reflexivity|]. split; reflexivity.
Qed.

(** The number of documents that a count resolves with has 32 bits. *)
Definition count_reply : list element := [
  (lit "cursor", v_document (Some (encode_doc [(lit "firstBatch", v_array (Some (encode_doc
    [(lit "0", v_document (Some (encode_doc [(lit "_id", v_int32 1); (lit "n", v_int32 7)])))])))])));
  (lit "ok", v_int32 1)].

Lemma count_is_32_bit :
  amongoc_count_documents linux_externals sample_stream_code things (Some (encode_doc [])) None [reply_message count_reply] =
    Done ([], mk_result amongoc_okay (box_int32 7)).
Proof. by vm_compute. Qed.
