(* ===== verification/Stop.v ===== *)
(** * Stop sources ([src/amongoc/nano/stop.hpp])

    [in_place_stop_source] and its callbacks: threads that interleave
    [request_stop], the constructor and the destructor of callbacks.  Every
    operation on an atomic is a step of its own; what is done between two such
    operations while the spin lock is held is one step. *)
From Stdlib Require Import ZArith Lia.
From stdpp Require Import base numbers list gmap sets.
From S2P Require Import Prelude.
Open Scope Z_scope.

(** ** The shared state *)

(** The object of a callback; names of destroyed callbacks are not used again,
    and every access to a destroyed one is undefined. *)
Definition id : Type := nat.

(** [enum state_t], with its bits. *)
Definition idle : Z := 0.
Definition locked : Z := 1.
Definition stopped : Z := 2.

(** What a [stop_callback_base**] points to. *)
Inductive place : Type := at_head | at_next (c : id).

(** [stop_callback_base]; [_did_remove] tells whether the pointer to the flag is
    set, [_src] whether the source is. *)
Record callback : Type := mk_callback {
  _src : bool;
  _next : option id;
  _prev_nextptr : option place;
  _did_remove : bool;
  _exec_done : bool }.

Definition new_callback : callback := mk_callback false None None false false.

Definition set_src (cb : callback) : callback :=
  mk_callback true (_next cb) (_prev_nextptr cb) (_did_remove cb) (_exec_done cb).
Definition set_next (n : option id) (cb : callback) : callback :=
  mk_callback (_src cb) n (_prev_nextptr cb) (_did_remove cb) (_exec_done cb).
Definition set_prev (p : option place) (cb : callback) : callback :=
  mk_callback (_src cb) (_next cb) p (_did_remove cb) (_exec_done cb).
Definition set_did_remove (b : bool) (cb : callback) : callback :=
  mk_callback (_src cb) (_next cb) (_prev_nextptr cb) b (_exec_done cb).
Definition set_exec_done (cb : callback) : callback :=
  mk_callback (_src cb) (_next cb) (_prev_nextptr cb) (_did_remove cb) true.

(** The source, the callbacks, and the local flag of [request_stop], while it is
    alive.  The rest records what happened: the callbacks executed, the requests
    that returned [true], the callbacks constructed so far ([born]) and those whose
    constructor has returned and whose destructor has not been called ([ready]). *)
Record mem : Type := mk_mem {
  _state : Z;
  _head_callback : option id;
  _stopping_thread : option nat;
  was_removed_during_exec : option bool;
  heap : gmap id callback;
  executed : list id;
  issued : nat;
  born : gset id;
  ready : gset id }.

Definition new_source : mem := mk_mem idle None None None ∅ [] 0 ∅ ∅.

Definition _set_state (z : Z) (m : mem) : mem :=
  mk_mem z (_head_callback m) (_stopping_thread m) (was_removed_during_exec m) (heap m) (executed m) (issued m) (born m) (ready m).
Definition set_head (h : option id) (m : mem) : mem :=
  mk_mem (_state m) h (_stopping_thread m) (was_removed_during_exec m) (heap m) (executed m) (issued m) (born m) (ready m).
Definition set_stopping (t : nat) (m : mem) : mem :=
  mk_mem (_state m) (_head_callback m) (Some t) (was_removed_during_exec m) (heap m) (executed m) (issued m) (born m) (ready m).
Definition set_flag (b : option bool) (m : mem) : mem :=
  mk_mem (_state m) (_head_callback m) (_stopping_thread m) b (heap m) (executed m) (issued m) (born m) (ready m).
Definition set_heap (h : gmap id callback) (m : mem) : mem :=
  mk_mem (_state m) (_head_callback m) (_stopping_thread m) (was_removed_during_exec m) h (executed m) (issued m) (born m) (ready m).
Definition log_execute (c : id) (m : mem) : mem :=
  mk_mem (_state m) (_head_callback m) (_stopping_thread m) (was_removed_during_exec m) (heap m) (executed m ++ [c]) (issued m) (born m) (ready m).
Definition log_issued (m : mem) : mem :=
  mk_mem (_state m) (_head_callback m) (_stopping_thread m) (was_removed_during_exec m) (heap m) (executed m) (S (issued m)) (born m) (ready m).
Definition set_born (b : gset id) (m : mem) : mem :=
  mk_mem (_state m) (_head_callback m) (_stopping_thread m) (was_removed_during_exec m) (heap m) (executed m) (issued m) b (ready m).
Definition set_ready (r : gset id) (m : mem) : mem :=
  mk_mem (_state m) (_head_callback m) (_stopping_thread m) (was_removed_during_exec m) (heap m) (executed m) (issued m) (born m) r.

(** Access to a callback. *)
Definition deref (m : mem) (c : id) : outcome callback :=
  match heap m !! c with Some cb => Done cb | None => Undef end.
Definition modify_cb (m : mem) (c : id) (f : callback -> callback) : outcome mem :=
  let* cb := deref m c in Done (set_heap (<[c := f cb]> (heap m)) m).
(** [if (n) n->_prev_nextptr = p]. *)
Definition relink_prev (m : mem) (n : option id) (p : option place) : outcome mem :=
  match n with Some d => modify_cb m d (set_prev p) | None => Done m end.
(** [*p = n]. *)
Definition store_at (m : mem) (p : place) (n : option id) : outcome mem :=
  match p with at_head => Done (set_head n m) | at_next d => modify_cb m d (set_next n) end.

Definition stop_requested (m : mem) : bool := Z.land (_state m) stopped =? stopped.

(** [~in_place_stop_source]: two assertions. *)
Definition destroy_source (m : mem) : outcome unit :=
  if negb (Z.land (_state m) locked =? 0) then Abort
  else match _head_callback m with Some _ => Abort | None => Done tt end.

(** ** The lock *)

(** An iteration of [_try_lock_unless_stopped]: [cur] is the local [cur_state],
    [None] before it is loaded; [weak] lets the exchange fail for no reason.  It
    goes on with a new local, or returns. *)
Definition _try_lock_unless_stopped (weak do_set_stopped : bool) (m : mem) (cur : option Z)
  : outcome (mem * (option Z + bool)) :=
  match cur with
  | None => Done (m, inl (Some (_state m)))
  | Some cur_state =>
      if negb (cur_state =? idle) then
        if negb (Z.land cur_state stopped =? 0) then Done (m, inr false)
        else if Z.land cur_state locked =? 0 then Abort
        else Done (m, inl None)
      else if weak || negb (_state m =? cur_state) then Done (m, inl (Some (_state m)))
      else Done (_set_state (if do_set_stopped then Z.lor locked stopped else locked) m, inr true)
  end.

(** An iteration of [_lock]. *)
Definition _lock (weak : bool) (m : mem) (cur : option Z) : mem * (option Z + Z) :=
  match cur with
  | None => (m, inl (Some (_state m)))
  | Some prev_state =>
      if negb (Z.land prev_state locked =? 0) then (m, inl None)
      else if weak || negb (_state m =? prev_state) then (m, inl (Some (_state m)))
      else (_set_state (Z.lor prev_state locked) m, inr prev_state)
  end.

(** ** The operations, by the point they have reached *)

Inductive rs_pc : Type :=
| rs_try (cur : option Z) | rs_owner | rs_loop | rs_popped (c : id) | rs_flag (c : id)
| rs_running (c : id) | rs_ran (c : id) | rs_done (c : id) | rs_relock (cur : option Z) | rs_finish.

Inductive con_pc : Type :=
| con_try (cur : option Z) | con_link | con_linked | con_src | con_running.

Inductive des_pc : Type :=
| des_start | des_lock (cur : option Z) | des_locked (prev_state : Z) | des_unlinked (prev_state : Z)
| des_popped (prev_state : Z) (stopping_thread : option nat) | des_check (stopping_thread : option nat)
| des_spin | des_end.

Inductive op : Type := RS (p : rs_pc) | CON (c : id) (p : con_pc) | DES (c : id) (p : des_pc).

(** [request_stop] on thread [t]; [None] when it returns. *)
Definition request_stop (t : nat) (weak : bool) (m : mem) (p : rs_pc) : outcome (mem * option op) :=
  match p with
  | rs_try cur =>
      let* (m, r) := _try_lock_unless_stopped weak true m cur in
      Done (m, match r with
               | inl cur => Some (RS (rs_try cur))
               | inr true => Some (RS rs_owner)
               | inr false => None
               end)
  | rs_owner =>
      if Z.land (_state m) locked =? 0 then Abort else Done (set_stopping t m, Some (RS rs_loop))
  | rs_loop =>
      match _head_callback m with
      | None => Done (m, Some (RS rs_finish))
      | Some c =>
          let* cb := deref m c in
          let* m := modify_cb m c (set_prev None) in
          let m := set_head (_next cb) m in
          let* m := relink_prev m (_next cb) (Some at_head) in
          Done (m, Some (RS (rs_popped c)))
      end
  | rs_popped c => Done (_set_state stopped m, Some (RS (rs_flag c)))
  | rs_flag c =>
      let m := set_flag (Some false) m in
      let* m := modify_cb m c (set_did_remove true) in
      Done (log_execute c m, Some (RS (rs_running c)))
  | rs_running c => Done (m, Some (RS (rs_ran c)))
  | rs_ran c =>
      match was_removed_during_exec m with
      | None => Undef
      | Some true => Done (set_flag None m, Some (RS (rs_relock None)))
      | Some false => let* m := modify_cb m c (set_did_remove false) in Done (m, Some (RS (rs_done c)))
      end
  | rs_done c =>
      let* m := modify_cb m c set_exec_done in
      Done (set_flag None m, Some (RS (rs_relock None)))
  | rs_relock cur =>
      let (m, r) := _lock weak m cur in
      Done (m, Some (RS (match r with inl cur => rs_relock cur | inr _ => rs_loop end)))
  | rs_finish => Done (log_issued (_set_state stopped m), None)
  end.

(** The constructor of [in_place_stop_callback]: [_try_register_or_execute] and
    [_try_register].  A callback that is running is code of the client. *)
Definition construct (weak : bool) (m : mem) (c : id) (p : con_pc) : outcome (mem * option op) :=
  let returns m := set_ready ({[c]} ∪ ready m) m in
  match p with
  | con_try cur =>
      let* (m, r) := _try_lock_unless_stopped weak false m cur in
      match r with
      | inl cur => Done (m, Some (CON c (con_try cur)))
      | inr true => Done (m, Some (CON c con_link))
      | inr false => let* _ := deref m c in Done (log_execute c m, Some (CON c con_running))
      end
  | con_link =>
      if Z.land (_state m) locked =? 0 then Abort
      else
        let* m := modify_cb m c (fun cb => set_prev (Some at_head) (set_next (_head_callback m) cb)) in
        let* m := relink_prev m (_head_callback m) (Some (at_next c)) in
        Done (set_head (Some c) m, Some (CON c con_linked))
  | con_linked => Done (_set_state idle m, Some (CON c con_src))
  | con_src => let* m := modify_cb m c set_src in Done (returns m, None)
  | con_running => Done (returns m, None)
  end.

(** The destructor: [_unregister], and the release of the object. *)
Definition destroy (t : nat) (weak : bool) (m : mem) (c : id) (p : des_pc) : outcome (mem * option op) :=
  match p with
  | des_start =>
      let* cb := deref m c in
      Done (m, Some (DES c (if _src cb then des_lock None else des_end)))
  | des_lock cur =>
      let (m, r) := _lock weak m cur in
      Done (m, Some (DES c (match r with inl cur => des_lock cur | inr prev => des_locked prev end)))
  | des_locked prev_state =>
      let* cb := deref m c in
      match _prev_nextptr cb with
      | Some p =>
          let* m := store_at m p (_next cb) in
          let* m := relink_prev m (_next cb) (Some p) in
          Done (m, Some (DES c (des_unlinked prev_state)))
      | None => Done (m, Some (DES c (des_popped prev_state (_stopping_thread m))))
      end
  | des_unlinked prev_state => Done (_set_state prev_state m, Some (DES c des_end))
  | des_popped prev_state owner => Done (_set_state prev_state m, Some (DES c (des_check owner)))
  | des_check owner =>
      if decide (owner = Some t) then
        let* cb := deref m c in
        if _did_remove cb then
          match was_removed_during_exec m with
          | Some _ => Done (set_flag (Some true) m, Some (DES c des_end))
          | None => Undef
          end
        else Done (m, Some (DES c des_end))
      else Done (m, Some (DES c des_spin))
  | des_spin =>
      let* cb := deref m c in
      Done (m, Some (DES c (if _exec_done cb then des_end else des_spin)))
  | des_end =>
      let* _ := deref m c in
      Done (set_heap (delete c (heap m)) m, None)
  end.

Definition op_step (t : nat) (weak : bool) (m : mem) (o : op) : outcome (mem * option op) :=
  match o with
  | RS p => request_stop t weak m p
  | CON c p => construct weak m c p
  | DES c p => destroy t weak m c p
  end.

(** ** Threads *)

(** The operations that a thread is in, the innermost first: all others have
    called a callback, whose code is that of the client. *)
Record config : Type := mk_config { memory : mem; threads : list (list op) }.

Definition running (o : op) : bool :=
  match o with RS (rs_running _) | CON _ con_running => true | _ => false end.

(** The thread executes code of the client, which may call. *)
Definition in_client (st : list op) : bool :=
  match st with [] => true | o :: _ => running o end.

(** What a thread does next: the operation proceeds (the code of a callback
    returns), or the client calls one.  It constructs callbacks that do not exist
    and destroys each after its constructor returned, once. *)
Inductive choice : Type :=
| proceed (weak : bool) | call_request_stop | call_construct (c : id) | call_destroy (c : id).

Definition act (t : nat) (ch : choice) (s : config) : option (outcome config) :=
  let m := memory s in
  match threads s !! t with
  | None => None
  | Some st =>
      let become m st := mk_config m (<[t := st]> (threads s)) in
      match ch with
      | proceed weak =>
          match st with
          | [] => None
          | o :: rest =>
              Some (let* (m, r) := op_step t weak m o in
                    Done (become m (match r with Some o => o :: rest | None => rest end)))
          end
      | call_request_stop =>
          if in_client st then Some (Done (become m (RS (rs_try None) :: st))) else None
      | call_construct c =>
          if in_client st && negb (bool_decide (c ∈ born m)) then
            let m := set_born ({[c]} ∪ born m) (set_heap (<[c := new_callback]> (heap m)) m) in
            Some (Done (become m (CON c (con_try None) :: st)))
          else None
      | call_destroy c =>
          if in_client st && bool_decide (c ∈ ready m) then
            Some (Done (become (set_ready (ready m ∖ {[c]}) m) (DES c des_start :: st)))
          else None
      end
  end.

Definition initial (n : nat) : config := mk_config new_source (replicate n []).

Inductive reachable (n : nat) : config -> Prop :=
| reach_initial : reachable n (initial n)
| reach_step s t ch s' : reachable n s -> act t ch s = Some (Done s') -> reachable n s'.

(** Every operation has returned. *)
Definition quiet (s : config) : Prop := Forall (fun st => st = []) (threads s).

(** Steps without calls. *)
Inductive proceeds : config -> config -> Prop :=
| proceeds_refl s : proceeds s s
| proceeds_step s t weak s' s'' :
    act t (proceed weak) s = Some (Done s') -> proceeds s' s'' -> proceeds s s''.

(** A run of scheduled choices. *)
Fixpoint run (sched : list (nat * choice)) (s : config) : option (outcome config) :=
  match sched with
  | [] => Some (Done s)
  | (t, ch) :: sched =>
      match act t ch s with
      | Some (Done s') => run sched s'
      | r => r
      end
  end.
