(* ===== verification/StopList.v ===== *)
(** * The list of callbacks of a stop source

    The intrusive list that [Stop.v] links through [_next] and [_prev_nextptr]:
    the segment predicate, and what popping, pushing and unlinking do to it. *)
From Stdlib Require Import ZArith Lia.
From stdpp Require Import base numbers list gmap sets.
From S2P Require Import Prelude.
From S2P Require Import Stop.
Open Scope Z_scope.

(** From the place [p], whose content is [hd], through the callbacks [l], to the
    place [q] with the content [n]. *)
Fixpoint seg (h : gmap id callback) (p : place) (hd : option id) (l : list id) (q : place) (n : option id) : Prop :=
  match l with
  | [] => p = q /\ hd = n
  | c :: l => hd = Some c /\ exists cb, h !! c = Some cb /\ _prev_nextptr cb = Some p /\ seg h (at_next c) (_next cb) l q n
  end.

Definition tail_place (p : place) (l : list id) : place := match last l with Some c => at_next c | None => p end.

(** The list [l] of callbacks starts at the head. *)
Definition chain (h : gmap id callback) (p : place) (hd : option id) (l : list id) : Prop :=
  seg h p hd l (tail_place p l) None.

Lemma tail_place_cons p c l : tail_place p (c :: l) = tail_place (at_next c) l.
Proof. unfold tail_place. rewrite last_cons. by destruct (last l). Qed.

Lemma chain_cons h p hd c l :
  chain h p hd (c :: l) <->
  hd = Some c /\ exists cb, h !! c = Some cb /\ _prev_nextptr cb = Some p /\ chain h (at_next c) (_next cb) l.
Proof. unfold chain. by rewrite tail_place_cons. Qed.

Lemma chain_nil h p hd : chain h p hd [] <-> hd = None.
Proof. unfold chain. simpl. naive_solver. Qed.

(** The same links in another heap. *)
Definition same_links (h h' : gmap id callback) (c : id) : Prop :=
  forall cb, h !! c = Some cb ->
  exists cb', h' !! c = Some cb' /\ _next cb' = _next cb /\ _prev_nextptr cb' = _prev_nextptr cb.

Lemma chain_frame h h' l : Forall (same_links h h') l -> forall p hd, chain h p hd l -> chain h' p hd l.
Proof.
  induction 1 as [|c l Hc _ IH]; intros p hd Hl; [exact Hl|]. apply chain_cons in Hl as (-> & cb & E & Hp & Hl).
  destruct (Hc cb E) as (cb' & E' & En & Ep). apply chain_cons. split; [done|]. exists cb'. rewrite En, Ep. auto.
Qed.

Lemma same_links_other h c c' cb : c' <> c -> same_links h (<[c' := cb]> h) c.
Proof. intros Hne cb0 E. exists cb0. by rewrite lookup_insert_ne. Qed.

Lemma same_links_alter h c cb cb' c' : h !! c = Some cb -> _next cb' = _next cb -> _prev_nextptr cb' = _prev_nextptr cb ->
  same_links h (<[c := cb']> h) c'.
Proof.
  intros E En Ep cb0 E0. destruct (decide (c' = c)) as [->|Hne]; [|exists cb0; by rewrite lookup_insert_ne].
  rewrite E in E0. injection E0 as <-. exists cb'. by rewrite lookup_insert_eq.
Qed.

Lemma chain_member h l : forall p hd c, chain h p hd l -> c ∈ l -> is_Some (h !! c).
Proof.
  induction l as [|d l IH]; intros p hd c Hl Hin; [by apply elem_of_nil in Hin|].
  apply chain_cons in Hl as (_ & cb & E & _ & Hl). apply elem_of_cons in Hin as [->|Hin]; [by rewrite E | by eapply IH].
Qed.

(** ** What the operations on the list do *)

(** Only links changed, and only of callbacks in [l]. *)
Definition relinked (l : list id) (h h' : gmap id callback) : Prop := forall c,
  match h !! c, h' !! c with
  | Some a, Some b => _src b = _src a /\ _did_remove b = _did_remove a /\ _exec_done b = _exec_done a /\ (c ∉ l -> b = a)
  | None, None => True
  | _, _ => False
  end.

Lemma relinked_refl l h : relinked l h h.
Proof. intros c. by destruct (h !! c). Qed.

Lemma relinked_trans l h h1 h2 : relinked l h h1 -> relinked l h1 h2 -> relinked l h h2.
Proof.
  intros H1 H2 c. specialize (H1 c). specialize (H2 c). destruct (h !! c), (h1 !! c), (h2 !! c); try done.
  destruct H1 as (? & ? & ? & E), H2 as (? & ? & ? & E'). split_and!; [congruence..|]. intros Hc. rewrite E', E; done.
Qed.

Definition links_only (f : callback -> callback) : Prop :=
  forall cb, _src (f cb) = _src cb /\ _did_remove (f cb) = _did_remove cb /\ _exec_done (f cb) = _exec_done cb.

Lemma relinked_modify l h c cb f : h !! c = Some cb -> c ∈ l -> links_only f -> relinked l h (<[c := f cb]> h).
Proof.
  intros E Hin Hf d. destruct (decide (d = c)) as [->|Hne]; [|rewrite lookup_insert_ne by done; by destruct (h !! d)].
  rewrite E, lookup_insert_eq. destruct (Hf cb) as (-> & -> & ->). done.
Qed.

Lemma links_next n : links_only (set_next n). Proof. done. Qed.
Lemma links_prev p : links_only (set_prev p). Proof. done. Qed.

Lemma modify_done m c cb f : heap m !! c = Some cb -> modify_cb m c f = Done (set_heap (<[c := f cb]> (heap m)) m).
Proof. intros E. unfold modify_cb, deref. by rewrite E. Qed.

Lemma not_in_after {A} (a b : A) l : NoDup (a :: l) -> b ∈ l -> a <> b.
Proof. intros Hnd Hb ->. apply NoDup_cons in Hnd as [Hni _]. done. Qed.

(** [n->_prev_nextptr = p] for the first callback of a list. *)
Lemma relink_spec m q n l p : chain (heap m) q n l -> NoDup l ->
  exists h, relink_prev m n (Some p) = Done (set_heap h m) /\ chain h p n l /\ relinked l (heap m) h /\
    (forall d, d ∉ l -> h !! d = heap m !! d).
Proof.
  intros Hl Hnd. destruct l as [|d l].
  - apply chain_nil in Hl as ->. exists (heap m). split; [by destruct m|].
    split; [by apply chain_nil|]. split; [apply relinked_refl | done].
  - apply chain_cons in Hl as (-> & cb & E & _ & Hl). simpl. rewrite (modify_done m d cb) by done.
    eexists. split; [done|]. split; [|split].
    + apply chain_cons. split; [done|]. exists (set_prev (Some p) cb). rewrite lookup_insert_eq. split; [done|].
      split; [done|]. eapply chain_frame; [|exact Hl]. apply Forall_forall. intros c Hc.
      apply same_links_other. by eapply not_in_after.
    + apply relinked_modify; [done | by left | apply links_prev].
    + intros c Hc. apply lookup_insert_ne. intros <-. apply Hc. by left.
Qed.

(** Popping the first callback. *)
Lemma pop_spec m c l : chain (heap m) at_head (_head_callback m) (c :: l) -> NoDup (c :: l) ->
  exists cb h, heap m !! c = Some cb /\
    (let* m := modify_cb m c (set_prev None) in
     let m := set_head (_next cb) m in
     relink_prev m (_next cb) (Some at_head)) = Done (set_head (_next cb) (set_heap h m)) /\
    chain h at_head (_next cb) l /\ relinked (c :: l) (heap m) h /\ h !! c = Some (set_prev None cb).
Proof.
  intros Hl Hnd. apply chain_cons in Hl as (Eh & cb & E & Hp & Hl). rewrite (modify_done m c cb) by done. ostep.
  set (m1 := set_head (_next cb) (set_heap (<[c := set_prev None cb]> (heap m)) m)).
  assert (chain (heap m1) (at_next c) (_next cb) l) as Hl1.
  { eapply chain_frame; [|exact Hl]. apply Forall_forall. intros d Hd. apply same_links_other. by eapply not_in_after. }
  apply NoDup_cons in Hnd as [Hni Hnd].
  destruct (relink_spec m1 _ _ l at_head Hl1 Hnd) as (h & Er & Hc & Hrel & Hout).
  exists cb, h. split; [done|]. split; [exact Er|]. split; [done|]. split.
  - eapply relinked_trans; [apply relinked_modify; [done | by left | apply (links_prev None)]|].
    intros d. specialize (Hrel d). cbn [heap m1 set_head set_heap] in *.
    destruct (_ !! d), (h !! d); try done. destruct Hrel as (? & ? & ? & Hx). split_and!; [done..|].
    intros Hd. apply Hx. intros Hin. apply Hd. by right.
  - rewrite Hout by done. cbn [heap m1 set_head set_heap]. apply lookup_insert_eq.
Qed.

(** Pushing a callback in front. *)
Lemma push_spec m c cb l : chain (heap m) at_head (_head_callback m) l -> NoDup (c :: l) -> heap m !! c = Some cb ->
  exists h,
    (let* m := modify_cb m c (fun cb => set_prev (Some at_head) (set_next (_head_callback m) cb)) in
     let* m := relink_prev m (_head_callback m) (Some (at_next c)) in
     Done (set_head (Some c) m)) = Done (set_head (Some c) (set_heap h m)) /\
    chain h at_head (Some c) (c :: l) /\ relinked (c :: l) (heap m) h.
Proof.
  intros Hl Hnd E. rewrite (modify_done m c cb) by done. ostep.
  set (cb1 := set_prev (Some at_head) (set_next (_head_callback m) cb)). set (m1 := set_heap (<[c := cb1]> (heap m)) m).
  assert (chain (heap m1) at_head (_head_callback m1) l) as Hl1.
  { eapply chain_frame; [|exact Hl]. apply Forall_forall. intros d Hd. apply same_links_other. by eapply not_in_after. }
  apply NoDup_cons in Hnd as [Hni Hnd].
  destruct (relink_spec m1 _ _ l (at_next c) Hl1 Hnd) as (h & Er & Hc & Hrel & Hout).
  exists h. rewrite Er. ostep. split_and!; [done| |].
  - apply chain_cons. split; [done|]. exists cb1. rewrite Hout by done. cbn [heap m1 set_heap].
    rewrite lookup_insert_eq. auto.
  - eapply relinked_trans; [apply (relinked_modify _ _ c cb (fun cb => set_prev (Some at_head) (set_next (_head_callback m) cb)));
      [done | by left | done]|].
    intros d. specialize (Hrel d). cbn [heap m1 set_heap] in *. fold cb1 in Hrel |- *.
    destruct (_ !! d), (h !! d); try done. destruct Hrel as (? & ? & ? & Hx). split_and!; [done..|].
    intros Hd. apply Hx. intros Hin. apply Hd. by right.
Qed.

(** *** Unlinking a callback anywhere *)

Lemma seg_app h l1 : forall p hd l2 q n, seg h p hd (l1 ++ l2) q n <->
  exists p' hd', seg h p hd l1 p' hd' /\ seg h p' hd' l2 q n.
Proof.
  induction l1 as [|c l1 IH]; intros p hd l2 q n; simpl; [naive_solver|]. split.
  - intros (-> & cb & E & Ep & (p' & hd' & H1 & H2)%IH). exists p', hd'. eauto 8.
  - intros (p' & hd' & (-> & cb & E & Ep & H1) & H2). split; [done|]. exists cb. rewrite IH. eauto 8.
Qed.

Lemma seg_frame h h' l : Forall (same_links h h') l -> forall p hd q n, seg h p hd l q n -> seg h' p hd l q n.
Proof.
  induction 1 as [|c l Hc _ IH]; intros p hd q n; [done|]. intros (-> & cb & E & Ep & Hl).
  destruct (Hc cb E) as (cb' & E' & En & Ep'). split; [done|]. exists cb'. rewrite Ep', En. auto.
Qed.

Lemma seg_end h l : forall p hd q n, seg h p hd l q n -> q = tail_place p l.
Proof.
  induction l as [|c l IH]; intros p hd q n; [intros [-> _]; done|].
  intros (_ & cb & _ & _ & Hl). rewrite tail_place_cons. by eapply IH.
Qed.

(** Another content for the last place of a segment. *)
Lemma seg_set_last h l d cb : forall p hd q n, NoDup (l ++ [d]) -> h !! d = Some cb -> seg h p hd (l ++ [d]) q n ->
  forall n', seg (<[d := set_next n' cb]> h) p hd (l ++ [d]) q n'.
Proof.
  intros p hd q n Hnd E (p' & hd' & H1 & H2)%seg_app n'. apply seg_app. exists p', hd'. split.
  - eapply seg_frame; [|exact H1]. apply Forall_forall. intros c Hc. apply same_links_other. intros ->.
    apply NoDup_app in Hnd as (_ & Hnd & _). apply (Hnd _ Hc). by left.
  - simpl in *. destruct H2 as (-> & cb' & E' & Ep & <- & _). rewrite E in E'. injection E' as <-.
    split; [done|]. eexists. rewrite lookup_insert_eq. split; [done|]. auto.
Qed.

Lemma store_last m l hd n n' : NoDup l -> seg (heap m) at_head hd l (tail_place at_head l) n -> hd = _head_callback m ->
  exists h hd', store_at m (tail_place at_head l) n' = Done (set_head hd' (set_heap h m)) /\
    seg h at_head hd' l (tail_place at_head l) n' /\ relinked l (heap m) h /\ (forall c, c ∉ l -> h !! c = heap m !! c).
Proof.
  intros Hnd Hl Ehd. destruct l as [|d l] using rev_ind.
  - exists (heap m), n'. destruct m. split; [done|]. split; [done|]. split; [apply relinked_refl | done].
  - clear IHl. unfold tail_place in *. rewrite last_snoc in *.
    assert (exists cb, heap m !! d = Some cb) as [cb E].
    { apply seg_app in Hl as (? & ? & _ & (_ & cb & E & _)). by exists cb. }
    exists (<[d := set_next n' cb]> (heap m)), hd. cbn [store_at]. rewrite (modify_done m d cb) by done.
    split; [subst hd; by destruct m|]. split; [by eapply seg_set_last|]. split.
    + apply relinked_modify; [done | apply elem_of_app; right; by left | apply links_next].
    + intros c Hc. apply lookup_insert_ne. intros <-. apply Hc, elem_of_app. right. by left.
Qed.

Lemma unlink_spec m c l1 l2 : chain (heap m) at_head (_head_callback m) (l1 ++ c :: l2) -> NoDup (l1 ++ c :: l2) ->
  exists cb p h hd, heap m !! c = Some cb /\ _prev_nextptr cb = Some p /\
    (let* m := store_at m p (_next cb) in relink_prev m (_next cb) (Some p)) = Done (set_head hd (set_heap h m)) /\
    chain h at_head hd (l1 ++ l2) /\ relinked (l1 ++ c :: l2) (heap m) h.
Proof.
  intros (p & hd0 & H1 & (-> & cb & E & Ep & H2))%seg_app Hnd. pose proof (seg_end _ _ _ _ _ _ H1) as ->.
  apply NoDup_app in Hnd as (Hnd1 & Hdisj & Hnd2). apply NoDup_cons in Hnd2 as [Hni Hnd2].
  destruct (store_last m l1 _ _ (_next cb) Hnd1 H1 eq_refl) as (h1 & hd & Es & Hs & Hrel1 & Hout1).
  set (p := tail_place at_head l1) in *. set (m1 := set_head hd (set_heap h1 m)).
  pose proof (seg_end _ _ _ _ _ _ H2) as Ht.
  assert (chain (heap m1) (at_next c) (_next cb) l2) as Hl1.
  { rewrite Ht in H2. eapply chain_frame; [|exact H2]. apply Forall_forall. intros d Hd cb0 E0.
    exists cb0. cbn [heap m1 set_head set_heap]. rewrite Hout1; [done|]. intros Hin. apply (Hdisj _ Hin). by right. }
  destruct (relink_spec m1 _ _ l2 p Hl1 Hnd2) as (h & Er & Hc & Hrel & Hout).
  exists cb, p, h, hd. split; [done|]. split; [done|]. split; [rewrite Es; exact Er|]. split.
  - apply seg_app. exists p, (_next cb). split.
    + eapply seg_frame; [|exact Hs]. apply Forall_forall. intros d Hd cb0 E0. exists cb0.
      rewrite Hout; [done|]. intros Hin. apply (Hdisj _ Hd). by right.
    + unfold chain in Hc. replace (tail_place at_head (l1 ++ l2)) with (tail_place p l2); [done|].
      unfold tail_place. rewrite last_app. destruct (last l2); [done|]. reflexivity.
  - intros d. specialize (Hrel1 d). specialize (Hrel d). cbn [heap m1 set_head set_heap] in Hrel.
    destruct (heap m !! d), (h1 !! d), (h !! d); try done.
    destruct Hrel1 as (? & ? & ? & Hx1), Hrel as (? & ? & ? & Hx). split_and!; [congruence..|]. intros Hd.
    rewrite Hx, Hx1; [done|..]; intros Hin; apply Hd, elem_of_app; [by left | right; by right].
Qed.

Lemma chain_head h hd l : chain h at_head hd l -> hd = head l.
Proof. destruct l; [by intros ->%chain_nil | by intros [-> _]%chain_cons]. Qed.
