(* ===== verification/StopInv.v ===== *)
(** * The invariant of a stop source

    What holds of the memory and of all operations in progress in [Stop.v],
    between any two steps of any threads, and that every step keeps it. *)
From Stdlib Require Import ZArith Lia.
From stdpp Require Import base numbers list gmap sets.
From S2P Require Import Prelude.
From S2P Require Import Stop.
From S2P Require Import StopList.
Open Scope Z_scope.

(** ** Counting operations *)

Section Count.
Context {A : Type} (f : A -> bool).
Fixpoint count (l : list A) : nat :=
  match l with [] => 0 | x :: l => (if f x then 1 else 0) + count l end.

Lemma count_app l l' : count (l ++ l') = (count l + count l')%nat.
Proof. induction l as [|x l IH]; simpl; lia. Qed.

Lemma count_none l : count l = 0%nat <-> Forall (fun x => f x = false) l.
Proof.
  induction l as [|x l IH]; simpl; [split; [by constructor | done]|]. rewrite Forall_cons, <- IH.
  destruct (f x); [split; [lia | by intros []] | split; [split; [done|lia] | intros []; lia]].
Qed.

Lemma count_member l x : x ∈ l -> f x = true -> (1 <= count l)%nat.
Proof.
  intros Hin Hf. destruct (count l) eqn:E; [|lia]. apply count_none in E. rewrite Forall_forall in E.
  rewrite (E x Hin) in Hf. done.
Qed.

Lemma count_some l : (1 <= count l)%nat -> exists x, x ∈ l /\ f x = true.
Proof.
  induction l as [|x l IH]; simpl; [lia|]. destruct (f x) eqn:E; [exists x; split; [by left | done]|].
  intros H. destruct IH as (y & Hy & Ey); [lia|]. exists y. split; [by right | done].
Qed.
End Count.

(** ** The invariant *)

(** An operation with its thread. *)
Definition tagged : Type := nat * op.

(** It holds the spin lock. *)
Definition holder (x : tagged) : bool :=
  match snd x with
  | RS (rs_owner | rs_loop | rs_popped _ | rs_finish) => true
  | CON _ (con_link | con_linked) => true
  | DES _ (des_locked _ | des_unlinked _ | des_popped _ _) => true
  | _ => false
  end.

(** It is the request that stops the source. *)
Definition active (x : tagged) : bool :=
  match snd x with RS (rs_try _) => false | RS _ => true | _ => false end.

(** It constructs or destroys the callback. *)
Definition owns (c : id) (x : tagged) : bool :=
  match snd x with CON d _ | DES d _ => bool_decide (d = c) | _ => false end.

(** The callback whose object [request_stop] will still access, given the flag. *)
Definition needs (flag : option bool) (o : op) : option id :=
  match o with
  | RS (rs_popped c | rs_flag c | rs_done c) => Some c
  | RS (rs_running c | rs_ran c) => if decide (flag = Some false) then Some c else None
  | _ => None
  end.

(** Where a callback is: not registered, executed by its own constructor, in the
    list, executed by [request_stop], executed, or released by its destructor. *)
Inductive life : Type := Fresh | Inline | Linked | Busy | Done_ | Gone.
#[export] Instance life_eq_dec : EqDecision life.
Proof. solve_decision. Defined.

(** What is not in the memory: whether a stop was requested, the life of the
    callbacks, and the list. *)
Record ghost : Type := mk_ghost { g_stop : bool; g_life : gmap id life; g_list : list id }.

Definition stop_bit (g : ghost) : Z := if g_stop g then stopped else idle.

Definition registered (lf : life) : Prop := lf = Linked \/ lf = Busy \/ lf = Done_.
Definition popped (lf : life) : Prop := lf = Busy \/ lf = Done_.
Definition lives (g : ghost) (c : id) (P : life -> Prop) : Prop := exists lf, g_life g !! c = Some lf /\ P lf.

Definition sourced (m : mem) (c : id) (b : bool) : Prop := exists cb, heap m !! c = Some cb /\ _src cb = b.
Definition flagged (m : mem) (c : id) (b : bool) : Prop := exists cb, heap m !! c = Some cb /\ _did_remove cb = b.
(** A local that was loaded from the state. *)
Definition cur_ok (g : ghost) (cur : option Z) : Prop :=
  match cur with Some z => 0 <= z <= 3 /\ (Z.land z stopped <> 0 -> g_stop g = true) | None => True end.

(** The constructor has returned. *)
Definition ready_ok (m : mem) (g : ghost) (c : id) : Prop :=
  (sourced m c false /\ lives g c (eq Inline)) \/ (sourced m c true /\ lives g c registered).

Definition request_ok (m : mem) (g : ghost) (t : nat) (p : rs_pc) : Prop :=
  let stopping := _stopping_thread m = Some t in
  match p with
  | rs_try cur => cur_ok g cur
  | rs_owner => forall c, ~ lives g c popped
  | rs_loop => stopping
  | rs_popped c | rs_flag c => stopping /\ lives g c (eq Busy) /\ flagged m c false /\ c ∉ executed m
  | rs_running c | rs_ran c => stopping /\ c ∈ executed m /\
      match was_removed_during_exec m with
      | Some false => lives g c (eq Busy) /\ flagged m c true
      | Some true => True
      | None => False
      end
  | rs_done c => stopping /\ lives g c (eq Busy) /\ flagged m c false /\ c ∈ executed m
  | rs_relock cur => stopping /\ cur_ok g cur
  | rs_finish => stopping /\ g_list g = []
  end.

Definition construct_ok (m : mem) (g : ghost) (c : id) (p : con_pc) : Prop :=
  sourced m c false /\
  match p with
  | con_try cur => cur_ok g cur /\ lives g c (eq Fresh)
  | con_link => g_stop g = false /\ lives g c (eq Fresh)
  | con_linked => g_stop g = false /\ lives g c (eq Linked)
  | con_src => lives g c registered
  | con_running => lives g c (eq Inline)
  end.

Definition destroy_ok (m : mem) (g : ghost) (t : nat) (c : id) (p : des_pc) : Prop :=
  match p with
  | des_start => ready_ok m g c
  | des_lock cur => cur_ok g cur /\ lives g c registered
  | des_locked prev => prev = stop_bit g /\ lives g c registered
  | des_unlinked prev => prev = stop_bit g /\ lives g c (eq Gone)
  | des_popped prev owner => prev = stop_bit g /\ lives g c popped /\ owner = _stopping_thread m
  | des_check owner => lives g c popped /\ owner = _stopping_thread m
  | des_spin => lives g c popped /\ _stopping_thread m <> Some t
  | des_end => lives g c (fun lf => lf = Inline \/ lf = Done_ \/ lf = Gone)
  end.

Definition op_ok (m : mem) (g : ghost) (x : tagged) : Prop :=
  match x with
  | (t, RS p) => request_ok m g t p
  | (t, CON c p) => construct_ok m g c p
  | (t, DES c p) => destroy_ok m g t c p
  end.

(** The fields of a callback. *)
Definition cb_ok (lf : life) (cb : callback) : Prop :=
  match lf with
  | Fresh | Inline => _prev_nextptr cb = None /\ _did_remove cb = false /\ _exec_done cb = false
  | Linked => _did_remove cb = false /\ _exec_done cb = false
  | Busy => _prev_nextptr cb = None /\ _exec_done cb = false
  | Done_ => _prev_nextptr cb = None /\ _did_remove cb = false /\ _exec_done cb = true
  | Gone => True
  end.

Definition exec_ok (lf : life) (ran : Prop) : Prop :=
  match lf with Fresh | Linked => ~ ran | Inline | Done_ => ran | _ => True end.

Definition b2n (b : bool) : nat := if b then 1 else 0.

(** [L] lists all operations of all threads. *)
Record Inv (m : mem) (L : list tagged) (g : ghost) : Prop := mk_Inv {
  i_state : _state m = stop_bit g + Z.of_nat (count holder L);
  i_lock : (count holder L <= 1)%nat;
  i_request : (count active L + issued m = b2n (g_stop g))%nat;
  i_finished : g_stop g = true -> count active L = 0%nat -> g_list g = [];
  i_chain : chain (heap m) at_head (_head_callback m) (g_list g);
  i_nodup : NoDup (g_list g);
  i_linked : forall c, g_life g !! c = Some Linked <-> c ∈ g_list g;
  i_dom : forall c, is_Some (g_life g !! c) <-> is_Some (heap m !! c);
  i_own : forall c, (count (owns c) L + b2n (bool_decide (c ∈ ready m)) = b2n (bool_decide (is_Some (heap m !! c))))%nat;
  i_born : forall c, is_Some (heap m !! c) \/ c ∈ executed m -> c ∈ born m;
  i_cb : forall c cb lf, heap m !! c = Some cb -> g_life g !! c = Some lf -> cb_ok lf cb;
  i_ready : forall c, c ∈ ready m -> ready_ok m g c;
  i_busy : forall c, g_life g !! c = Some Busy -> Exists (fun x => needs (was_removed_during_exec m) (snd x) = Some c) L;
  i_before : g_stop g = false -> forall c, lives g c (fun lf => lf = Fresh \/ lf = Linked \/ lf = Gone) \/ g_life g !! c = None;
  i_once : NoDup (executed m);
  i_exec : forall c lf, g_life g !! c = Some lf -> exec_ok lf (c ∈ executed m);
  i_ops : Forall (op_ok m g) L }.

(** ** Stability of the other operations *)

(** How a step changes the life of a callback that the stepping operation does not
    own. *)
Definition drift (a b : life) : Prop := b = a \/ (a = Linked /\ b = Busy) \/ (a = Busy /\ b = Done_).

Record stable (m : mem) (g : ghost) (m' : mem) (g' : ghost) (own : id -> bool) (x : tagged) : Prop := mk_stable {
  st_bit : g_stop g' = g_stop g \/ holder x = false;
  st_mono : g_stop g = true -> g_stop g' = true;
  st_thread : _stopping_thread m' = _stopping_thread m \/ (forall c, ~ lives g c popped);
  st_life : forall c, own c = false -> forall lf, g_life g !! c = Some lf ->
    exists lf', g_life g' !! c = Some lf' /\ drift lf lf';
  st_list : holder x = true -> forall c, own c = false -> lives g c (eq Linked) -> lives g' c (eq Linked);
  st_src : forall c b, own c = false -> sourced m c b -> sourced m' c b;
  st_request : active x = true ->
    _stopping_thread m' = _stopping_thread m /\
    was_removed_during_exec m' = was_removed_during_exec m /\ (g_list g = [] -> g_list g' = []) /\
    (forall c, lives g c (eq Busy) -> lives g' c (eq Busy)) /\
    (forall c, lives g' c popped -> lives g c popped) /\
    (forall c b, lives g c (eq Busy) -> flagged m c b -> flagged m' c b) /\
    (forall c, c ∈ executed m -> c ∈ executed m') /\
    (forall c, lives g c (eq Busy) -> c ∈ executed m' -> c ∈ executed m) }.

Lemma lives_drift m g m' g' own x c (P Q : life -> Prop) : stable m g m' g' own x -> own c = false ->
  (forall a b, P a -> drift a b -> Q b) -> lives g c P -> lives g' c Q.
Proof. intros Hs Ho HPQ (lf & E & HP). destruct (st_life _ _ _ _ _ _ Hs c Ho lf E) as (lf' & E' & Hd). exists lf'. eauto. Qed.

Ltac drifts := unfold registered, popped, drift; intros ? ? ? [-> | [[-> ->] | [-> ->]]];
  repeat match goal with H : _ \/ _ |- _ => destruct H end; subst; try congruence; auto.

Lemma stable_op m g m' g' own x :
  stable m g m' g' own x -> (forall c, owns c x = true -> own c = false) -> op_ok m g x -> op_ok m' g' x.
Proof.
  intros Hs Hown. assert (forall cur, cur_ok g cur -> cur_ok g' cur) as Hcur.
  { intros [z|]; [|done]. intros [Hz Hb]. split; [done|]. intros Hne. by apply (st_mono _ _ _ _ _ _ Hs), Hb. }
  destruct x as [t [p|c p|c p]].
  - destruct p; cbn [op_ok request_ok]; try done; try apply Hcur;
      destruct (st_request _ _ _ _ _ _ Hs eq_refl) as (Ht & Hr & Hl & Hb & Hp & Hf & He & He'); rewrite ?Ht, ?Hr; try done.
    + intros H c Hc. by apply (H c), Hp.
    + intros (? & ? & ? & ?). split_and!; eauto.
    + intros (? & ? & ? & ?). split_and!; eauto.
    + intros (? & ? & H). split_and!; [done | eauto |]. destruct (was_removed_during_exec m) as [[]|]; [done | | done].
      destruct H. eauto.
    + intros (? & ? & H). split_and!; [done | eauto |]. destruct (was_removed_during_exec m) as [[]|]; [done | | done].
      destruct H. eauto.
    + intros (? & ? & ? & ?). split_and!; eauto.
    + intros []. split; [done | by apply Hcur].
    + intros []. eauto.
  - pose proof (Hown c (bool_decide_eq_true_2 _ eq_refl)) as Ho.
    pose proof (fun P Q => lives_drift _ _ _ _ _ _ c P Q Hs Ho) as Hlf. pose proof (st_src _ _ _ _ _ _ Hs c) as Hsrc.
    pose proof (st_bit _ _ _ _ _ _ Hs) as Hbit. intros [Hso Hp]. split; [by apply Hsrc|].
    destruct p; cbn [op_ok construct_ok] in *; try (destruct Hbit as [->|]; [|done]);
      try (destruct Hp as [? Hp]; split; [first [done | by apply Hcur]|]);
      try (eapply Hlf; [|exact Hp]; drifts; fail).
    by apply (st_list _ _ _ _ _ _ Hs eq_refl).
  - pose proof (Hown c (bool_decide_eq_true_2 _ eq_refl)) as Ho.
    pose proof (fun P Q => lives_drift _ _ _ _ _ _ c P Q Hs Ho) as Hlf. pose proof (st_src _ _ _ _ _ _ Hs c) as Hsrc.
    pose proof (st_bit _ _ _ _ _ _ Hs) as Hbit. unfold stop_bit in *.
    assert (lives g c popped -> _stopping_thread m' = _stopping_thread m) as Hthr.
    { intros Hl. destruct (st_thread _ _ _ _ _ _ Hs) as [|Hn]; [done | by destruct (Hn c)]. }
    assert (lives g c popped -> lives g' c popped) as Hpop by (apply Hlf; drifts).
    assert (lives g c registered -> lives g' c registered) as Hreg by (apply Hlf; drifts).
    destruct p; cbn [op_ok destroy_ok] in *; unfold stop_bit; try (destruct Hbit as [->|]; [|done]).
    + intros [[? Hl] | [? Hl]]; [left | right]; (split; [by apply Hsrc|]); [|by apply Hreg].
      eapply Hlf; [|exact Hl]. drifts.
    + intros []. auto.
    + intros []. auto.
    + intros [? Hl]. split; [done|]. eapply Hlf; [|exact Hl]. drifts.
    + intros (? & Hl & ?). rewrite Hthr by done. auto.
    + intros (Hl & ?). rewrite Hthr by done. auto.
    + intros (Hl & ?). rewrite Hthr by done. auto.
    + apply Hlf. drifts.
Qed.

(** ** Steps that change one callback *)

(** The other callbacks keep their fields; only callbacks in the list are linked
    anew. *)
Definition kept (m m' : mem) (g : ghost) (c : id) : Prop := forall d, d <> c ->
  match heap m !! d, heap m' !! d with
  | Some a, Some b => _src b = _src a /\ _did_remove b = _did_remove a /\ _exec_done b = _exec_done a /\ (d ∉ g_list g -> b = a)
  | None, None => True
  | _, _ => False
  end.

Definition with_life (g : ghost) (c : id) (lf : life) (l : list id) : ghost :=
  mk_ghost (g_stop g) (<[c := lf]> (g_life g)) l.

Record update_ok (m m' : mem) (g : ghost) (c : id) (lf0 lf : life) (l : list id) : Prop := mk_update {
  u_from : g_life g !! c = Some lf0;
  u_kept : kept m m' g c;
  u_cb : exists cb, heap m' !! c = Some cb /\ cb_ok lf cb;
  u_chain : chain (heap m') at_head (_head_callback m') l;
  u_nodup : NoDup l;
  u_in : c ∈ l <-> lf = Linked;
  u_list : forall d, d <> c -> d ∈ l <-> d ∈ g_list g;
  u_born : born m' = born m;
  u_exec : forall d, d <> c -> d ∈ executed m' <-> d ∈ executed m;
  u_ran : exec_ok lf (c ∈ executed m');
  u_once : NoDup (executed m');
  u_ready : forall d, d <> c -> d ∈ ready m' -> d ∈ ready m;
  u_ready_c : c ∈ ready m' -> ready_ok m' (with_life g c lf l) c;
  u_early : g_stop g = false -> lf = Fresh \/ lf = Linked \/ lf = Gone }.

Section Update.
Context (m m' : mem) (L : list tagged) (g : ghost) (c : id) (lf0 lf : life) (l : list id).
Context (HI : Inv m L g) (HU : update_ok m m' g c lf0 lf l).
#[local] Notation g' := (with_life g c lf l).

Lemma life_same d : d <> c -> g_life g' !! d = g_life g !! d.
Proof. intros Hd. by apply lookup_insert_ne. Qed.
Lemma life_new : g_life g' !! c = Some lf.
Proof. apply lookup_insert_eq. Qed.

Lemma kept_dom d : is_Some (heap m' !! d) <-> is_Some (heap m !! d).
Proof.
  destruct (decide (d = c)) as [->|Hd].
  - destruct (u_cb _ _ _ _ _ _ _ HU) as (cb & E & _). rewrite E, <- (i_dom _ _ _ HI), (u_from _ _ _ _ _ _ _ HU). done.
  - pose proof (u_kept _ _ _ _ _ _ _ HU d Hd). destruct (heap m !! d), (heap m' !! d); done.
Qed.

Lemma kept_lives d P : d <> c -> lives g' d P <-> lives g d P.
Proof. intros Hd. unfold lives. by rewrite life_same. Qed.

Lemma kept_sourced d b : d <> c -> sourced m d b -> sourced m' d b.
Proof.
  intros Hd (cb & E & Eb). pose proof (u_kept _ _ _ _ _ _ _ HU d Hd) as Hk. rewrite E in Hk.
  destruct (heap m' !! d) as [cb'|] eqn:E'; [|done]. exists cb'. destruct Hk as (-> & _). done.
Qed.

Lemma kept_flagged d b : d <> c -> flagged m d b -> flagged m' d b.
Proof.
  intros Hd (cb & E & Eb). pose proof (u_kept _ _ _ _ _ _ _ HU d Hd) as Hk. rewrite E in Hk.
  destruct (heap m' !! d) as [cb'|] eqn:E'; [|done]. exists cb'. destruct Hk as (_ & -> & _). done.
Qed.

Lemma kept_cb d cb' lfd : d <> c -> heap m' !! d = Some cb' -> g_life g !! d = Some lfd -> cb_ok lfd cb'.
Proof.
  intros Hd E' El. pose proof (u_kept _ _ _ _ _ _ _ HU d Hd) as Hk. rewrite E' in Hk.
  destruct (heap m !! d) as [cb|] eqn:E; [|done]. destruct Hk as (_ & Hr & He & Hsame).
  pose proof (i_cb _ _ _ HI d cb lfd E El) as Hc. destruct (decide (lfd = Linked)) as [->|Hne].
  - simpl in *. by rewrite Hr, He.
  - rewrite Hsame; [done|]. intros Hin. apply (i_linked _ _ _ HI) in Hin. congruence.
Qed.

Lemma inv_update L' :
  _state m' = stop_bit g + Z.of_nat (count holder L') -> (count holder L' <= 1)%nat ->
  (count active L' + issued m' = b2n (g_stop g))%nat ->
  (g_stop g = true -> count active L' = 0%nat -> l = []) ->
  (forall d, count (owns d) L' + b2n (bool_decide (d ∈ ready m')) = count (owns d) L + b2n (bool_decide (d ∈ ready m)))%nat ->
  (forall d, g_life g' !! d = Some Busy -> Exists (fun x => needs (was_removed_during_exec m') (snd x) = Some d) L') ->
  Forall (op_ok m' g') L' -> Inv m' L' g'.
Proof.
  intros Hst Hlk Hrq Hfin Hown Hbusy Hops. split; try done.
  - apply (u_chain _ _ _ _ _ _ _ HU).
  - apply (u_nodup _ _ _ _ _ _ _ HU).
  - intros d. cbn [g_list with_life]. destruct (decide (d = c)) as [->|Hd].
    + rewrite life_new, (u_in _ _ _ _ _ _ _ HU). split; [by intros [= ->] | by intros ->].
    + rewrite life_same, (u_list _ _ _ _ _ _ _ HU) by done. apply (i_linked _ _ _ HI).
  - intros d. rewrite kept_dom. destruct (decide (d = c)) as [->|Hd].
    + rewrite life_new, <- (i_dom _ _ _ HI), (u_from _ _ _ _ _ _ _ HU). done.
    + rewrite life_same by done. apply (i_dom _ _ _ HI).
  - intros d. rewrite Hown, (i_own _ _ _ HI). f_equal. apply bool_decide_ext. by rewrite kept_dom.
  - intros d Hd. rewrite (u_born _ _ _ _ _ _ _ HU). apply (i_born _ _ _ HI). rewrite kept_dom in Hd.
    destruct Hd as [Hd|Hd]; [by left|]. destruct (decide (d = c)) as [->|Hne].
    + left. apply (i_dom _ _ _ HI). by rewrite (u_from _ _ _ _ _ _ _ HU).
    + right. by apply (u_exec _ _ _ _ _ _ _ HU).
  - intros d cb lfd E El. destruct (decide (d = c)) as [->|Hd].
    + rewrite life_new in El. injection El as <-. destruct (u_cb _ _ _ _ _ _ _ HU) as (cb' & E' & Hc). congruence.
    + rewrite life_same in El by done. by eapply kept_cb.
  - intros d Hd. destruct (decide (d = c)) as [->|Hne]; [by apply (u_ready_c _ _ _ _ _ _ _ HU)|].
    apply (u_ready _ _ _ _ _ _ _ HU) in Hd; [|done]. unfold ready_ok. rewrite !kept_lives by done.
    destruct (i_ready _ _ _ HI d Hd) as [[? ?] | [? ?]]; [left | right]; (split; [by apply kept_sourced | done]).
  - intros Hs d. destruct (decide (d = c)) as [->|Hd].
    + left. exists lf. split; [apply life_new | by apply (u_early _ _ _ _ _ _ _ HU)].
    + rewrite kept_lives, life_same by done. by apply (i_before _ _ _ HI).
  - apply (u_once _ _ _ _ _ _ _ HU).
  - intros d lfd El. destruct (decide (d = c)) as [->|Hd].
    + rewrite life_new in El. injection El as <-. apply (u_ran _ _ _ _ _ _ _ HU).
    + rewrite life_same in El by done. pose proof (i_exec _ _ _ HI d lfd El) as He.
      pose proof (u_exec _ _ _ _ _ _ _ HU d Hd) as Hiff. destruct lfd; simpl in *; tauto.
Qed.

(** Other operations stay good. *)
Lemma stable_update own x :
  _stopping_thread m' = _stopping_thread m ->
  (own c = false -> drift lf0 lf) -> (holder x = true -> own c = false -> lf0 = Linked -> lf = Linked) ->
  (forall b, own c = false -> sourced m c b -> sourced m' c b) ->
  (active x = true ->
    was_removed_during_exec m' = was_removed_during_exec m /\ (g_list g = [] -> l = []) /\
    (lf0 = Busy -> lf = Busy /\ (forall b, flagged m c b -> flagged m' c b) /\ executed m' = executed m) /\
    (popped lf -> popped lf0) /\ (forall d, d ∈ executed m -> d ∈ executed m')) ->
  stable m g m' g' own x.
Proof.
  intros Ht Hd Hl Hs Ha. pose proof (u_from _ _ _ _ _ _ _ HU) as Hfrom. split.
  - by left.
  - done.
  - by left.
  - intros d Hod lfd El. destruct (decide (d = c)) as [->|Hne].
    + rewrite Hfrom in El. injection El as <-. exists lf. split; [apply life_new | by apply Hd].
    + exists lfd. split; [by rewrite life_same | by left].
  - intros Hx d Hod Hlv. destruct (decide (d = c)) as [->|Hne]; [|by rewrite kept_lives].
    destruct Hlv as (lfd & El & <-). rewrite Hfrom in El. injection El as ->. exists lf. split; [apply life_new|].
    symmetry. by apply Hl.
  - intros d b Hod. destruct (decide (d = c)) as [->|Hne]; [by apply Hs | by apply kept_sourced].
  - intros Hx. destruct (Ha Hx) as (Hw & Hll & Hb & Hp & He). split_and!; [done..| | | | done|].
    + intros d Hlv. destruct (decide (d = c)) as [->|Hne]; [|by rewrite kept_lives].
      destruct Hlv as (lfd & El & <-). rewrite Hfrom in El. injection El as ->. destruct (Hb eq_refl) as [Elf _].
      exists lf. split; [apply life_new | by rewrite Elf].
    + intros d Hlv. destruct (decide (d = c)) as [->|Hne]; [|by rewrite kept_lives in Hlv].
      destruct Hlv as (lfd & El & Hpo). rewrite life_new in El. injection El as <-. exists lf0. auto.
    + intros d b Hlv. destruct (decide (d = c)) as [->|Hne]; [|by apply kept_flagged].
      destruct Hlv as (lfd & El & <-). rewrite Hfrom in El. injection El as ->. by apply Hb.
    + intros d Hlv. destruct (decide (d = c)) as [->|Hne]; [|by apply (u_exec _ _ _ _ _ _ _ HU)].
      destruct Hlv as (lfd & El & <-). rewrite Hfrom in El. injection El as ->. destruct (Hb eq_refl) as (_ & _ & ->). done.
Qed.
End Update.

(** ** Steps on the lock *)

Section Others.
Context (m : mem) (x : tagged) (L : list tagged) (g : ghost) (HI : Inv m (x :: L) g).

Lemma others_not_holder : holder x = true -> Forall (fun y => holder y = false) L.
Proof. intros Hx. apply count_none. pose proof (i_lock _ _ _ HI) as H. simpl in H. rewrite Hx in H. lia. Qed.

Lemma others_not_active : active x = true -> Forall (fun y => active y = false) L.
Proof.
  intros Hx. apply count_none. pose proof (i_request _ _ _ HI) as H. simpl in H. rewrite Hx in H.
  destruct (g_stop g); simpl in H; lia.
Qed.

Lemma active_stopped : active x = true -> g_stop g = true /\ issued m = 0%nat.
Proof.
  intros Hx. pose proof (i_request _ _ _ HI) as H. simpl in H. rewrite Hx in H. destruct (g_stop g); simpl in H; [split; lia | lia].
Qed.

Lemma own_once c : owns c x = true -> Forall (fun y => owns c y = false) L /\ c ∉ ready m /\ is_Some (heap m !! c).
Proof.
  intros Hx. pose proof (i_own _ _ _ HI c) as H. simpl in H. rewrite Hx in H.
  destruct (bool_decide (c ∈ ready m)) eqn:Er, (bool_decide (is_Some (heap m !! c))) eqn:Eh; simpl in H; try lia.
  split; [apply count_none; lia|]. split; [by apply bool_decide_eq_false in Er | by apply bool_decide_eq_true in Eh].
Qed.

Lemma others_own y c : y ∈ L -> owns c y = true -> owns c x = false.
Proof.
  intros Hy Ho. destruct (owns c x) eqn:Ex; [|done]. destruct (own_once c Ex) as [H _]. rewrite Forall_forall in H.
  rewrite (H y Hy) in Ho. done.
Qed.

(** The other operations stay good if the step is stable for them. *)
Lemma others_ok m' g' :
  (forall y, y ∈ L -> (holder x = true -> holder y = false) -> (active x = true -> active y = false) ->
    stable m g m' g' (fun c => owns c x) y) -> Forall (op_ok m' g') L.
Proof.
  intros Hs. pose proof (i_ops _ _ _ HI) as Hops. apply Forall_cons in Hops as [_ Hops]. apply Forall_forall. intros y Hy.
  rewrite Forall_forall in Hops. apply (stable_op m g _ _ (fun c => owns c x)); [apply Hs; [done|..]| |by apply Hops].
  - intros Hx. pose proof (others_not_holder Hx) as H. rewrite Forall_forall in H. by apply H.
  - intros Hx. pose proof (others_not_active Hx) as H. rewrite Forall_forall in H. by apply H.
  - intros c. by apply others_own.
Qed.

Lemma self_ok : op_ok m g x.
Proof. pose proof (i_ops _ _ _ HI) as H. by apply Forall_cons in H as [H _]. Qed.

(** What is executed by [request_stop] is needed by the active request. *)
Lemma busy_needed c : active x = true -> g_life g !! c = Some Busy -> needs (was_removed_during_exec m) (snd x) = Some c.
Proof.
  intros Hx Hc. apply (i_busy _ _ _ HI) in Hc. apply Exists_cons in Hc as [|Hc]; [done|]. exfalso.
  apply Exists_exists in Hc as (y & Hy & Hn). pose proof (others_not_active Hx) as H. rewrite Forall_forall in H.
  specialize (H y Hy). destruct y as [t [[]| |]]; simpl in *; done.
Qed.

Lemma holder_state : holder x = true -> _state m = stop_bit g + 1.
Proof.
  intros Hx. rewrite (i_state _ _ _ HI). pose proof (i_lock _ _ _ HI) as H. simpl in *. rewrite Hx in *. lia.
Qed.

End Others.

Lemma op_ok_state m g x z : op_ok m g x -> op_ok (_set_state z m) g x.
Proof. destruct x as [t [p|c p|c p]]; destruct p; exact (fun H => H). Qed.

(** The operation goes on, with another state of the source or the same. *)
Lemma inv_state m t o o' L g z : Inv m ((t, o) :: L) g ->
  z = stop_bit g + Z.of_nat (count holder ((t, o') :: L)) -> (count holder ((t, o') :: L) <= 1)%nat ->
  active (t, o') = active (t, o) -> (forall c, owns c (t, o') = owns c (t, o)) ->
  needs (was_removed_during_exec m) o' = needs (was_removed_during_exec m) o ->
  op_ok m g (t, o') -> Inv (_set_state z m) ((t, o') :: L) g.
Proof.
  intros HI Hz Hc Ha Ho Hn Hok. destruct HI. split; try done.
  - cbn [count]. rewrite Ha. done.
  - cbn [count]. rewrite Ha. done.
  - intros c. cbn [count]. rewrite Ho. apply i_own0.
  - intros c Hb. specialize (i_busy0 c Hb). rewrite Exists_cons in *. cbn [snd] in *. change (was_removed_during_exec _) with (was_removed_during_exec m).
    rewrite Hn. done.
  - apply Forall_cons in i_ops0 as [_ Hops]. apply Forall_cons. split; [by apply op_ok_state|].
    eapply Forall_impl; [exact Hops|]. intros x. apply op_ok_state.
Qed.

Lemma same_state m : _set_state (_state m) m = m.
Proof. by destruct m. Qed.

(** The operation goes on in the same state. *)
Lemma inv_local m t o o' L g : Inv m ((t, o) :: L) g ->
  holder (t, o') = holder (t, o) -> active (t, o') = active (t, o) -> (forall c, owns c (t, o') = owns c (t, o)) ->
  needs (was_removed_during_exec m) o' = needs (was_removed_during_exec m) o -> op_ok m g (t, o') ->
  Inv m ((t, o') :: L) g.
Proof.
  intros HI Hh Ha Ho Hn Hok. rewrite <- (same_state m).
  apply (inv_state m t o); [done | | |done..]; cbn [count]; rewrite Hh.
  - apply (i_state _ _ _ HI).
  - apply (i_lock _ _ _ HI).
Qed.

(** The lock is taken, or released. *)
Lemma inv_acquire m t o o' L g : Inv m ((t, o) :: L) g -> _state m = stop_bit g ->
  holder (t, o) = false -> holder (t, o') = true -> active (t, o') = active (t, o) -> (forall c, owns c (t, o') = owns c (t, o)) ->
  needs (was_removed_during_exec m) o' = needs (was_removed_during_exec m) o -> op_ok m g (t, o') ->
  Inv (_set_state (stop_bit g + 1) m) ((t, o') :: L) g.
Proof.
  intros HI Hz Hh Hh' Ha Ho Hn Hok. pose proof (i_state _ _ _ HI) as Hs. cbn [count] in Hs. rewrite Hh, Hz in Hs.
  apply (inv_state m t o); [done | | |done..]; cbn [count]; rewrite Hh'; lia.
Qed.

Lemma inv_release m t o o' L g : Inv m ((t, o) :: L) g ->
  holder (t, o) = true -> holder (t, o') = false -> active (t, o') = active (t, o) -> (forall c, owns c (t, o') = owns c (t, o)) ->
  needs (was_removed_during_exec m) o' = needs (was_removed_during_exec m) o -> op_ok m g (t, o') ->
  Inv (_set_state (stop_bit g) m) ((t, o') :: L) g.
Proof.
  intros HI Hh Hh' Ha Ho Hn Hok. pose proof (i_lock _ _ _ HI) as Hs. cbn [count] in Hs. rewrite Hh in Hs.
  apply (inv_state m t o); [done | | |done..]; cbn [count]; rewrite Hh'; lia.
Qed.

(** The state when nobody holds the lock. *)
Lemma unlocked_state m L g : Inv m L g -> Z.land (_state m) locked = 0 -> _state m = stop_bit g.
Proof.
  intros HI Hl. pose proof (i_state _ _ _ HI) as Hs. pose proof (i_lock _ _ _ HI) as Hk.
  destruct (count holder L) as [|[|]]; [lia| |lia]. exfalso. rewrite Hs in Hl. unfold stop_bit in Hl.
  destruct (g_stop g); discriminate Hl.
Qed.
