(* ===== verification/StopSteps.v ===== *)
(** * Every step of a stop source keeps its invariant

    The operations of [Stop.v], point by point: each is defined where the
    invariant of [StopInv.v] holds, and keeps it. *)
From Stdlib Require Import ZArith Lia.
From stdpp Require Import base numbers list gmap sets.
From S2P Require Import Prelude.
From S2P Require Import Stop.
From S2P Require Import StopList.
From S2P Require Import StopInv.
Open Scope Z_scope.

#[export] Instance rs_pc_eq_dec : EqDecision rs_pc.
Proof. solve_decision. Defined.
#[export] Instance con_pc_eq_dec : EqDecision con_pc.
Proof. solve_decision. Defined.
#[export] Instance des_pc_eq_dec : EqDecision des_pc.
Proof. solve_decision. Defined.
#[export] Instance op_eq_dec : EqDecision op.
Proof. solve_decision. Defined.

(** The operations after one returned or went on. *)
Definition plus (t : nat) (r : option op) (L : list tagged) : list tagged :=
  match r with Some o => (t, o) :: L | None => L end.

(** How much an operation has left to do; a callback in the list adds ten. *)
Definition cost (o : op) : nat :=
  match o with
  | RS p =>
      match p with
      | rs_try _ => 4 | rs_owner => 3 | rs_loop => 2 | rs_popped _ => 9 | rs_flag _ => 8 | rs_running _ => 7
      | rs_ran _ => 6 | rs_done _ => 5 | rs_relock _ => 3 | rs_finish => 1
      end
  | CON _ p => match p with con_try _ => 15 | con_link => 14 | con_linked => 3 | con_src => 2 | con_running => 1 end
  | DES _ p =>
      match p with
      | des_start => 8 | des_lock _ => 7 | des_locked _ => 6 | des_unlinked _ => 3 | des_popped _ _ => 5
      | des_check _ => 4 | des_spin => 3 | des_end => 1
      end
  end.

Fixpoint total (L : list tagged) : nat := match L with [] => 0 | x :: L => cost (snd x) + total L end.
Definition work (L : list tagged) (g : ghost) : nat := total L + 10 * length (g_list g).

(** The operation tries again. *)
Definition retries (o o' : op) : Prop :=
  match o, o' with
  | RS (rs_try _), RS (rs_try _) | RS (rs_relock _), RS (rs_relock _) => True
  | CON c (con_try _), CON c' (con_try _) => c = c'
  | DES c (des_lock _), DES c' (des_lock _) | DES c des_spin, DES c' des_spin => c = c'
  | _, _ => False
  end.

(** The step of thread [t] is defined, the invariant holds after it, and less is
    left to do, unless the operation tries again in the same state. *)
Definition kept_by (t : nat) (o : op) (L : list tagged) (g : ghost) (m : mem) (res : outcome (mem * option op)) : Prop :=
  exists m' r g', res = Done (m', r) /\ Inv m' (plus t r L) g' /\
    ((work (plus t r L) g' < work ((t, o) :: L) g)%nat \/ (m' = m /\ g' = g /\ exists o', r = Some o' /\ retries o o')).

Lemma kept_less t o L g m m' r g' : Inv m' (plus t r L) g' -> (work (plus t r L) g' < work ((t, o) :: L) g)%nat ->
  kept_by t o L g m (Done (m', r)).
Proof. intros H Hw. exists m', r, g'. auto. Qed.

Lemma kept_retry t o o' L g m : Inv m ((t, o') :: L) g -> retries o o' -> kept_by t o L g m (Done (m, Some o')).
Proof. intros H Hw. exists m, (Some o'), g. eauto 8. Qed.

Ltac less := unfold work; cbn [plus total cost snd g_list with_life];
  try match goal with E : g_list _ = _ |- _ => rewrite !E end; rewrite ?length_app; cbn [length]; lia.
Ltac keep g' := apply (kept_less _ _ _ _ _ _ _ g'); [|less].

(** ** The lock *)

Lemma state_cur m L g : Inv m L g -> cur_ok g (Some (_state m)).
Proof.
  intros HI. unfold cur_ok. rewrite (i_state _ _ _ HI). pose proof (i_lock _ _ _ HI).
  unfold stop_bit, stopped, idle. split; [destruct (g_stop g); lia|].
  destruct (g_stop g); [done|]. destruct (count holder L) as [|[|]]; [done | done | lia].
Qed.

(** An attempt goes on, fails because the source was stopped, or takes the lock. *)
Lemma try_lock_spec weak b m cur L g : Inv m L g -> cur_ok g cur ->
  (exists cur', _try_lock_unless_stopped weak b m cur = Done (m, inl cur') /\ cur_ok g cur') \/
  (_try_lock_unless_stopped weak b m cur = Done (m, inr false) /\ g_stop g = true) \/
  (_try_lock_unless_stopped weak b m cur = Done (_set_state (if b then 3 else 1) m, inr true) /\
   _state m = idle /\ g_stop g = false).
Proof.
  intros HI Hcur. unfold _try_lock_unless_stopped. destruct cur as [z|]; [|left; eexists; split; [done | by eapply state_cur]].
  destruct Hcur as [Hz Hb]. destruct (Z.eqb_spec z idle) as [->|Hne]; cbn [negb].
  - destruct (weak || negb (_state m =? idle)) eqn:E; [left; eexists; split; [done | by eapply state_cur]|].
    right; right. apply orb_false_iff in E as [_ E]. apply negb_false_iff, Z.eqb_eq in E.
    assert (_state m = stop_bit g) as Hst by (eapply unlocked_state; [exact HI | by rewrite E]).
    split; [by destruct b|]. split; [done|]. rewrite E in Hst. unfold stop_bit in Hst. by destruct (g_stop g).
  - destruct (Z.eqb_spec (Z.land z stopped) 0) as [Hs|Hs]; cbn [negb]; [|right; left; split; [done | by apply Hb]].
    assert (z = 1) as -> by (destruct (decide (z = 1)), (decide (z = 2)), (decide (z = 3)); subst; try done; unfold idle in Hne; lia).
    left. by exists None.
Qed.

Lemma lock_spec weak m cur L g : Inv m L g -> cur_ok g cur ->
  (exists cur', _lock weak m cur = (m, inl cur') /\ cur_ok g cur') \/
  (_lock weak m cur = (_set_state (stop_bit g + 1) m, inr (stop_bit g)) /\ _state m = stop_bit g).
Proof.
  intros HI Hcur. unfold _lock. destruct cur as [z|]; [|left; eexists; split; [done | by eapply state_cur]].
  destruct (Z.eqb_spec (Z.land z locked) 0) as [Hl|Hl]; cbn [negb]; [|left; by exists None].
  destruct (weak || negb (_state m =? z)) eqn:E; [left; eexists; split; [done | by eapply state_cur]|].
  right. apply orb_false_iff in E as [_ E]. apply negb_false_iff, Z.eqb_eq in E. subst z.
  assert (_state m = stop_bit g) as -> by (by eapply unlocked_state). split; [|done].
  unfold stop_bit. by destruct (g_stop g).
Qed.

Lemma locked_bit m x L g : Inv m (x :: L) g -> holder x = true -> (Z.land (_state m) locked =? 0) = false.
Proof.
  intros HI Hx. rewrite (holder_state _ _ _ _ HI Hx). unfold stop_bit. by destruct (g_stop g).
Qed.

Lemma lives_lookup g c P : lives g c P -> exists lf, g_life g !! c = Some lf /\ P lf.
Proof. done. Qed.

Lemma kept_insert m m' g c cb : heap m' = <[c := cb]> (heap m) -> kept m m' g c.
Proof. intros E d Hd. rewrite E, lookup_insert_ne by done. by destruct (heap m !! d). Qed.

Lemma kept_relinked m m' g c : relinked (g_list g) (heap m) (heap m') -> kept m m' g c.
Proof. intros H d _. exact (H d). Qed.

(** A change of the other fields than the links. *)
Lemma update_field m m' L g c cb cb' lf0 lf :
  Inv m L g -> heap m !! c = Some cb -> g_life g !! c = Some lf0 -> (lf0 = Linked <-> lf = Linked) ->
  heap m' = <[c := cb']> (heap m) -> _head_callback m' = _head_callback m -> born m' = born m ->
  _next cb' = _next cb -> _prev_nextptr cb' = _prev_nextptr cb -> cb_ok lf cb' ->
  (forall d, d <> c -> d ∈ executed m' <-> d ∈ executed m) -> exec_ok lf (c ∈ executed m') -> NoDup (executed m') ->
  (forall d, d <> c -> d ∈ ready m' -> d ∈ ready m) ->
  (c ∈ ready m' -> ready_ok m' (with_life g c lf (g_list g)) c) ->
  (g_stop g = false -> lf = Fresh \/ lf = Linked \/ lf = Gone) ->
  update_ok m m' g c lf0 lf (g_list g).
Proof.
  intros HI E El Hlk Eh Ehd Eb En Ep Hcb Hex Hran Honce Hr Hrc Hearly. split; try done.
  - by apply (kept_insert _ _ _ _ cb').
  - exists cb'. rewrite Eh, lookup_insert_eq. done.
  - rewrite Ehd, Eh. eapply chain_frame; [|apply (i_chain _ _ _ HI)]. apply Forall_forall. intros d _.
    by apply (same_links_alter _ c cb).
  - apply (i_nodup _ _ _ HI).
  - rewrite <- Hlk, <- (i_linked _ _ _ HI), El. split; [by intros [= ->] | by intros ->].
Qed.

Lemma busy_fields m L g c : Inv m L g -> lives g c (eq Busy) ->
  g_life g !! c = Some Busy /\ exists cb, heap m !! c = Some cb /\ cb_ok Busy cb.
Proof.
  intros HI (lf & E & <-). split; [done|]. destruct (heap m !! c) as [cb|] eqn:Ec.
  - exists cb. split; [done|]. by apply (i_cb _ _ _ HI c).
  - exfalso. assert (is_Some (heap m !! c)) as [? Hs]; [|congruence]. apply (i_dom _ _ _ HI). by rewrite E.
Qed.

Section Steps.
Context (m : mem) (L : list tagged) (g : ghost) (t : nat).

(** ** [request_stop] *)

(** The exchange that begins the stop. *)
Lemma begin_stop cur : Inv m ((t, RS (rs_try cur)) :: L) g -> _state m = idle -> g_stop g = false ->
  Inv (_set_state 3 m) ((t, RS rs_owner) :: L) (mk_ghost true (g_life g) (g_list g)).
Proof.
  intros HI Hst Hgs. pose proof (i_state _ _ _ HI) as Hc. rewrite Hst in Hc. unfold stop_bit in Hc. rewrite Hgs in Hc.
  pose proof (i_request _ _ _ HI) as Hr. rewrite Hgs in Hr. cbn [count holder active snd b2n] in *. unfold idle in Hc.
  assert (Forall (fun x => holder x = false) L) as Hh by (apply count_none; lia).
  assert (Forall (fun x => active x = false) L) as Ha by (apply count_none; lia).
  assert (forall c, ~ lives g c popped) as Hnp.
  { intros c (lf & E & Hp). destruct (i_before _ _ _ HI Hgs c) as [(lf' & E' & Hl)|E']; [|congruence].
    rewrite E in E'. injection E' as <-. unfold popped in Hp. naive_solver. }
  rewrite Forall_forall in Hh, Ha.
  split; cbn [count holder active snd b2n g_stop g_life g_list stop_bit]; try (by apply HI).
  - change (_state _) with 3. unfold stop_bit, stopped. simpl. lia.
  - lia.
  - change (issued _) with (issued m). lia.
  - lia.
  - intros c Hb. exfalso. apply (Hnp c). exists Busy. split; [done | by left].
  - done.
  - apply Forall_cons. split; [exact Hnp|]. apply (others_ok _ _ _ _ HI). intros y Hy _ _.
    split; try done; [right; by apply Hh | by left | intros c _ lf E; exists lf; split; [done | by left]].
Qed.

Lemma step_try weak cur : Inv m ((t, RS (rs_try cur)) :: L) g -> kept_by t (RS (rs_try cur)) L g m (request_stop t weak m (rs_try cur)).
Proof.
  intros HI. pose proof (self_ok _ _ _ _ HI) as Hcur. cbn [op_ok request_ok] in Hcur. unfold request_stop.
  destruct (try_lock_spec weak true m cur _ g HI Hcur) as [(cur' & -> & Hc) | [[-> _] | (-> & Hst & Hgs)]]; ostep.
  - apply kept_retry; [by apply (inv_local m t (RS (rs_try cur))) | done].
  - keep g. destruct HI. split; try done; cbn [count holder active snd] in *; try lia.
    + intros c Hb. specialize (i_busy c Hb). apply Exists_cons in i_busy as [|]; done.
    + by apply Forall_cons in i_ops as [_ ?].
  - keep (mk_ghost true (g_life g) (g_list g)). by apply (begin_stop cur).
Qed.

Lemma step_owner weak : Inv m ((t, RS rs_owner) :: L) g -> kept_by t (RS rs_owner) L g m (request_stop t weak m rs_owner).
Proof.
  intros HI. pose proof (self_ok _ _ _ _ HI) as Hnp. cbn [op_ok request_ok] in Hnp. unfold request_stop.
  rewrite (locked_bit _ _ _ _ HI eq_refl). keep g. split; try (by apply HI).
  { intros c Hb. destruct (Hnp c). exists Busy. split; [done | by left]. }
  apply Forall_cons. split; [done|]. apply (others_ok _ _ _ _ HI). intros y Hy _ Ha.
  split; try done; [by left | by right | intros c _ lf E; exists lf; split; [done | by left]|].
  intros Hact. rewrite Ha in Hact; done.
Qed.

(** Nothing else is executed while the active request is at this point. *)
Lemma no_busy o c : Inv m ((t, RS o) :: L) g -> active (t, RS o) = true ->
  needs (was_removed_during_exec m) (RS o) = None -> g_life g !! c <> Some Busy.
Proof. intros HI Ha Hn Hb. pose proof (busy_needed _ _ _ _ HI c Ha Hb) as H. cbn [snd] in H. congruence. Qed.

Lemma step_loop weak : Inv m ((t, RS rs_loop) :: L) g -> kept_by t (RS rs_loop) L g m (request_stop t weak m rs_loop).
Proof.
  intros HI. pose proof (self_ok _ _ _ _ HI) as Hst. cbn [op_ok request_ok] in Hst. unfold request_stop.
  destruct (active_stopped _ _ _ _ HI eq_refl) as [Hgs His]. pose proof (i_chain _ _ _ HI) as Hch.
  destruct (g_list g) as [|c l] eqn:El.
  - rewrite (proj1 (chain_nil _ _ _) Hch). keep g. apply (inv_local m t (RS rs_loop)); done.
  - rewrite (proj1 (proj1 (chain_cons _ _ _ _ _) Hch)). pose proof (i_nodup _ _ _ HI) as Hnd. rewrite El in Hnd.
    assert (g_life g !! c = Some Linked) as Hlf by (apply (i_linked _ _ _ HI); rewrite El; by left).
    destruct (pop_spec m c l Hch Hnd) as (cb & h & Ecb & Epop & Hch' & Hrel & Eh). unfold deref at 1. rewrite Ecb. ostep.
    rewrite (modify_done m c cb) in Epop |- * by done. cbn [obind] in Epop |- *. cbv zeta in Epop. rewrite Epop. ostep.
    pose proof (i_cb _ _ _ HI c cb Linked Ecb Hlf) as [Hdid Hexec].
    pose proof (i_exec _ _ _ HI c Linked Hlf) as Hnex. cbn [exec_ok] in Hnex.
    set (m' := set_head (_next cb) (set_heap h m)). keep (with_life g c Busy l).
    apply NoDup_cons in Hnd as [Hni Hnd].
    assert (update_ok m m' g c Linked Busy l) as HU.
    { split; try done.
      - apply kept_relinked. by rewrite El.
      - exists (set_prev None cb). done.
      - rewrite El. intros d Hd. rewrite elem_of_cons. naive_solver.
      - apply (i_once _ _ _ HI).
      - intros Hr. right. destruct (i_ready _ _ _ HI c Hr) as [[_ (lf & E & <-)] | [(cb' & E & Es) _]]; [congruence|].
        split; [|exists Busy; split; [apply lookup_insert_eq | by right; left]].
        rewrite Ecb in E. injection E as <-. exists (set_prev None cb). done.
      - congruence. }
    apply (inv_update m m' ((t, RS rs_loop) :: L) g c Linked); try done; try (by apply HI).
    + intros d Hd. destruct (decide (d = c)) as [->|Hne]; [by left|]. exfalso. rewrite life_same in Hd by done.
      by eapply (no_busy rs_loop).
    + apply Forall_cons. split.
      * split; [done|]. split; [exists Busy; split; [apply lookup_insert_eq | done]|].
        split; [|done]. exists (set_prev None cb). done.
      * apply (others_ok _ _ _ _ HI). intros y Hy Hh Ha. apply (stable_update _ _ _ _ _ _ _ HU); try done.
        -- intros _. right; left. done.
        -- intros Hx. rewrite Hh in Hx; done.
        -- intros b _ (cb' & E & Es). rewrite Ecb in E. injection E as <-. exists (set_prev None cb). done.
        -- intros Hx. rewrite Ha in Hx; done.
Qed.

Lemma step_popped weak c : Inv m ((t, RS (rs_popped c)) :: L) g -> kept_by t (RS (rs_popped c)) L g m (request_stop t weak m (rs_popped c)).
Proof.
  intros HI. pose proof (self_ok _ _ _ _ HI) as Hok. destruct (active_stopped _ _ _ _ HI eq_refl) as [Hgs _].
  keep g. replace stopped with (stop_bit g) by (unfold stop_bit; by rewrite Hgs).
  by apply (inv_release m t (RS (rs_popped c))).
Qed.

(** The request changes the callback that it executes. *)
Lemma request_update p p' m' c cb cb' lf : Inv m ((t, RS p) :: L) g ->
  active (t, RS p) = true -> active (t, RS p') = true -> holder (t, RS p') = holder (t, RS p) ->
  needs (was_removed_during_exec m) (RS p) = Some c -> heap m !! c = Some cb -> popped lf -> cb_ok lf cb' ->
  _src cb' = _src cb -> _next cb' = _next cb -> _prev_nextptr cb' = _prev_nextptr cb ->
  m' = mk_mem (_state m) (_head_callback m) (_stopping_thread m) (was_removed_during_exec m') (<[c := cb']> (heap m))
         (executed m') (issued m) (born m) (ready m) ->
  g_life g !! c = Some Busy ->
  (forall d, d <> c -> d ∈ executed m' <-> d ∈ executed m) -> exec_ok lf (c ∈ executed m') -> NoDup (executed m') ->
  (lf = Busy -> needs (was_removed_during_exec m') (RS p') = Some c) ->
  op_ok m' (with_life g c lf (g_list g)) (t, RS p') ->
  Inv m' ((t, RS p') :: L) (with_life g c lf (g_list g)).
Proof.
  intros HI Ha Ha' Hh Hn E Hpo Hcb Es En Ep Em Hb Hex Hran Honce Hbusy Hok.
  destruct (active_stopped _ _ _ _ HI Ha) as [Hgs _].
  assert (update_ok m m' g c Busy lf (g_list g)) as HU.
  { apply (update_field m m' ((t, RS p) :: L) g c cb cb'); try done; try (by rewrite Em); [by destruct Hpo as [-> | ->] | | congruence].
    intros Hr. right. rewrite Em in Hr. destruct (i_ready _ _ _ HI c Hr) as [[_ (lf' & E' & <-)] | [(cb0 & E' & Es') _]]; [congruence|].
    split; [|exists lf; split; [apply lookup_insert_eq | by right]].
    rewrite E in E'. injection E' as <-. exists cb'. rewrite Em. cbn [heap]. rewrite lookup_insert_eq, Es. done. }
  apply (inv_update m m' ((t, RS p) :: L) g c Busy); try done.
  - rewrite Em. cbn [count]. rewrite Hh. apply (i_state _ _ _ HI).
  - cbn [count]. rewrite Hh. apply (i_lock _ _ _ HI).
  - rewrite Em. pose proof (i_request _ _ _ HI) as Hr. cbn [count issued] in *. rewrite Ha'. rewrite Ha in Hr. done.
  - intros _. cbn [count]. rewrite Ha'. done.
  - intros d. by rewrite Em.
  - intros d Hd. destruct (decide (d = c)) as [->|Hne].
    + left. rewrite life_new in Hd. injection Hd as ->. by apply Hbusy.
    + exfalso. rewrite life_same in Hd by done. pose proof (busy_needed _ _ _ _ HI d Ha Hd) as H. cbn [snd] in H. congruence.
  - apply Forall_cons. split; [done|]. apply (others_ok _ _ _ _ HI). intros y Hy _ Hya.
    apply (stable_update _ _ _ _ _ _ _ HU); try done.
    + by rewrite Em.
    + intros _. unfold drift. destruct Hpo as [-> | ->]; auto.
    + intros b _ (cb0 & E' & Es'). rewrite E in E'. injection E' as <-. exists cb'. rewrite Em. cbn [heap].
      rewrite lookup_insert_eq, Es. done.
    + intros Hx. rewrite Hya in Hx; done.
Qed.

Lemma step_flag weak c : Inv m ((t, RS (rs_flag c)) :: L) g -> kept_by t (RS (rs_flag c)) L g m (request_stop t weak m (rs_flag c)).
Proof.
  intros HI. pose proof (self_ok _ _ _ _ HI) as (Hst & Hb & _ & Hnex). destruct (busy_fields _ _ _ _ HI Hb) as (El & cb & E & Hp & He).
  unfold request_stop. rewrite (modify_done _ c cb) by done. ostep. keep (with_life g c Busy (g_list g)).
  apply (request_update (rs_flag c) (rs_running c) _ c cb (set_did_remove true cb)); try done; [by left | | |].
  - intros d Hd. cbn [executed log_execute]. rewrite elem_of_app, list_elem_of_singleton. naive_solver.
  - cbn [executed log_execute]. apply NoDup_app. split; [apply (i_once _ _ _ HI)|]. split; [|apply NoDup_singleton].
    intros d Hd ->%list_elem_of_singleton. done.
  - split; [done|]. split; [apply elem_of_app; right; by left|]. split; [exists Busy; split; [apply lookup_insert_eq | done]|].
    eexists. split; [apply lookup_insert_eq | done].
Qed.

Lemma step_running weak c : Inv m ((t, RS (rs_running c)) :: L) g -> kept_by t (RS (rs_running c)) L g m (request_stop t weak m (rs_running c)).
Proof.
  intros HI. pose proof (self_ok _ _ _ _ HI) as Hok. keep g. by apply (inv_local m t (RS (rs_running c))).
Qed.

(** The flag goes out of scope. *)
Lemma drop_flag p : Inv m ((t, RS p) :: L) g -> active (t, RS p) = true -> holder (t, RS p) = false ->
  needs (was_removed_during_exec m) (RS p) = None -> _stopping_thread m = Some t ->
  Inv (set_flag None m) ((t, RS (rs_relock None)) :: L) g.
Proof.
  intros HI Ha Hh Hn Hst. destruct (active_stopped _ _ _ _ HI Ha) as [Hgs _].
  pose proof (i_state _ _ _ HI) as Hs. pose proof (i_lock _ _ _ HI) as Hk. pose proof (i_request _ _ _ HI) as Hr.
  cbn [count] in Hs, Hk, Hr. rewrite Hh in Hs, Hk. rewrite Ha in Hr.
  split; try (by apply HI); try done; try exact Hs; try exact Hk; try exact Hr.
  - intros c Hb. by destruct (no_busy p c HI Ha Hn).
  - apply Forall_cons. split; [done|]. apply (others_ok _ _ _ _ HI). intros y Hy _ Hya.
    split; try done; [by left | by left | intros c _ lf E; exists lf; split; [done | by left]|].
    intros Hact. rewrite Hya in Hact; done.
Qed.

Lemma step_ran weak c : Inv m ((t, RS (rs_ran c)) :: L) g -> kept_by t (RS (rs_ran c)) L g m (request_stop t weak m (rs_ran c)).
Proof.
  intros HI. pose proof (self_ok _ _ _ _ HI) as (Hst & Hex & Hf). unfold request_stop.
  destruct (was_removed_during_exec m) as [[]|] eqn:Ew; [| |done].
  - keep g. apply (drop_flag (rs_ran c)); try done. simpl. by rewrite Ew.
  - destruct Hf as [Hb _]. destruct (busy_fields _ _ _ _ HI Hb) as (El & cb & E & Hp & He).
    rewrite (modify_done _ c cb) by done. ostep. keep (with_life g c Busy (g_list g)).
    apply (request_update (rs_ran c) (rs_done c) _ c cb (set_did_remove false cb)); try done; [|by left| |].
    + simpl. by rewrite Ew.
    + apply (i_once _ _ _ HI).
    + split; [done|]. split; [exists Busy; split; [apply lookup_insert_eq | done]|]. split; [|done].
      eexists. split; [apply lookup_insert_eq | done].
Qed.

Lemma step_done weak c : Inv m ((t, RS (rs_done c)) :: L) g -> kept_by t (RS (rs_done c)) L g m (request_stop t weak m (rs_done c)).
Proof.
  intros HI. pose proof (self_ok _ _ _ _ HI) as (Hst & Hb & (cb & E & Hd) & Hex).
  destruct (busy_fields _ _ _ _ HI Hb) as (El & cb' & E' & Hp & He). rewrite E in E'. injection E' as <-.
  unfold request_stop. rewrite (modify_done _ c cb) by done. ostep. keep (with_life g c Done_ (g_list g)).
  apply (request_update (rs_done c) (rs_relock None) _ c cb (set_exec_done cb)); try done; [by right|].
  apply (i_once _ _ _ HI).
Qed.

Lemma step_relock weak cur : Inv m ((t, RS (rs_relock cur)) :: L) g -> kept_by t (RS (rs_relock cur)) L g m (request_stop t weak m (rs_relock cur)).
Proof.
  intros HI. pose proof (self_ok _ _ _ _ HI) as (Hst & Hcur). unfold request_stop.
  destruct (lock_spec weak m cur _ g HI Hcur) as [(cur' & -> & Hc) | [-> Hu]].
  - apply kept_retry; [by apply (inv_local m t (RS (rs_relock cur))) | done].
  - keep g. by apply (inv_acquire m t (RS (rs_relock cur))).
Qed.

Lemma step_finish weak : Inv m ((t, RS rs_finish) :: L) g -> kept_by t (RS rs_finish) L g m (request_stop t weak m rs_finish).
Proof.
  intros HI. pose proof (self_ok _ _ _ _ HI) as (Hst & Hl). destruct (active_stopped _ _ _ _ HI eq_refl) as [Hgs His].
  pose proof (i_lock _ _ _ HI) as Hk. pose proof (i_request _ _ _ HI) as Hr. cbn [count holder active snd] in Hk, Hr.
  keep g. split; try (by apply HI); cbn [plus].
  - change (_state _) with stopped. unfold stop_bit. rewrite Hgs. unfold stopped. lia.
  - lia.
  - change (issued _) with (S (issued m)). lia.
  - done.
  - intros c Hb. by destruct (no_busy rs_finish c HI eq_refl eq_refl).
  - apply (others_ok _ _ _ _ HI). intros y Hy _ Hya.
    split; try done; [by left | by left | intros c _ lf E; exists lf; split; [done | by left]].
Qed.

(** ** The constructor *)

(** The constructor or the destructor changes its callback. *)
Lemma owner_update o r m' c lf0 lf l : Inv m ((t, o) :: L) g -> owns c (t, o) = true ->
  update_ok m m' g c lf0 lf l ->
  _state m' = _state m -> _stopping_thread m' = _stopping_thread m ->
  was_removed_during_exec m' = was_removed_during_exec m -> issued m' = issued m ->
  count holder (plus t r L) = count holder ((t, o) :: L) -> count active (plus t r L) = count active L ->
  (forall d, count (owns d) (plus t r L) + b2n (bool_decide (d ∈ ready m')) =
     count (owns d) ((t, o) :: L) + b2n (bool_decide (d ∈ ready m)))%nat ->
  (g_stop g = true -> g_list g = [] -> l = []) -> (popped lf -> popped lf0) ->
  (lf0 = Busy -> (forall b, flagged m c b -> flagged m' c b)) -> (popped lf0 -> lf = lf0 /\ executed m' = executed m) ->
  (forall d, d ∈ executed m -> d ∈ executed m') ->
  match r with Some o' => op_ok m' (with_life g c lf l) (t, o') | None => True end ->
  Inv m' (plus t r L) (with_life g c lf l).
Proof.
  intros HI Ho HU Es Et Ew Ei Hh Ha Hown Hl Hpo Hfl Hex Hsub Hok. pose proof (u_from _ _ _ _ _ _ _ HU) as Hfrom.
  assert (active (t, o) = false) as Hna by (by destruct o).
  pose proof (i_request _ _ _ HI) as Hr. cbn [count] in Hr. rewrite Hna in Hr.
  apply (inv_update m m' ((t, o) :: L) g c lf0); try done.
  - rewrite Es, Hh. apply (i_state _ _ _ HI).
  - rewrite Hh. apply (i_lock _ _ _ HI).
  - rewrite Ha, Ei. done.
  - intros Hs Hz. apply Hl; [done|]. apply (i_finished _ _ _ HI Hs). cbn [count]. rewrite Hna, <- Ha. done.
  - intros d Hd. assert (g_life g !! d = Some Busy) as Hd0.
    { destruct (decide (d = c)) as [->|Hne]; [|by rewrite life_same in Hd]. rewrite life_new in Hd. injection Hd as Elf.
      destruct (Hpo ltac:(left; done)) as [E|E]; [congruence|]. destruct (Hex ltac:(right; done)) as [E' _]. congruence. }
    pose proof (i_busy _ _ _ HI d Hd0) as Hn. rewrite Ew. apply Exists_cons in Hn as [Hn|Hn].
    + exfalso. destruct o; done.
    + destruct r; [by right | done].
  - assert (Forall (op_ok m' (with_life g c lf l)) L) as Hothers; [|destruct r; [by apply Forall_cons | done]].
    apply (others_ok _ _ _ _ HI). intros y Hy _ _. apply (stable_update _ _ _ _ _ _ _ HU); try done.
    + by rewrite Ho.
    + by rewrite Ho.
    + by rewrite Ho.
    + intros Hx. split; [done|]. pose proof (count_member _ _ _ Hy Hx). split; [|split; [|done]].
      * apply Hl. destruct (g_stop g); [done|]. simpl in Hr. lia.
      * intros E. destruct (Hex ltac:(left; done)) as [-> ->]. split; [done|]. split; [by apply Hfl | done].
Qed.

(** The callback of an operation exists. *)
Lemma owned_cb o c : Inv m ((t, o) :: L) g -> owns c (t, o) = true ->
  exists cb lf, heap m !! c = Some cb /\ g_life g !! c = Some lf /\ cb_ok lf cb /\ c ∉ ready m.
Proof.
  intros HI Ho. destruct (own_once _ _ _ _ HI c Ho) as (_ & Hr & [cb E]).
  assert (is_Some (g_life g !! c)) as [lf El] by (apply (i_dom _ _ _ HI); by rewrite E).
  exists cb, lf. split; [done|]. split; [done|]. split; [by apply (i_cb _ _ _ HI c) | done].
Qed.

Lemma lives_is c P lf : lives g c P -> g_life g !! c = Some lf -> P lf.
Proof. intros (lf' & E & HP) E'. by simplify_eq. Qed.

(** A step to which the operation returns, with the callback handed over. *)
Lemma owns_handed o c m' d : Inv m ((t, o) :: L) g -> owns c (t, o) = true -> (forall d, d <> c -> owns d (t, o) = false) ->
  ready m' = {[c]} ∪ ready m ->
  (count (owns d) L + b2n (bool_decide (d ∈ ready m')) = count (owns d) ((t, o) :: L) + b2n (bool_decide (d ∈ ready m)))%nat.
Proof.
  intros HI Ho Hne Er. rewrite Er. destruct (own_once _ _ _ _ HI c Ho) as (_ & Hr & _). cbn [count].
  destruct (decide (d = c)) as [->|Hd].
  - rewrite Ho, (bool_decide_eq_true_2 (c ∈ {[c]} ∪ ready m)), (bool_decide_eq_false_2 (c ∈ ready m)) by set_solver. simpl. lia.
  - rewrite Hne by done. simpl. f_equal. f_equal. apply bool_decide_ext. set_solver.
Qed.

Lemma owns_other d c t0 p : d <> c -> owns d (t0, CON c p) = false.
Proof. intros Hd. apply bool_decide_eq_false. congruence. Qed.

Lemma step_con_try weak c cur : Inv m ((t, CON c (con_try cur)) :: L) g -> kept_by t (CON c (con_try cur)) L g m (construct weak m c (con_try cur)).
Proof.
  intros HI. pose proof (self_ok _ _ _ _ HI) as (Hsrc & Hcur & Hf). unfold construct.
  destruct (try_lock_spec weak false m cur _ g HI Hcur) as [(cur' & -> & Hc) | [[-> Hgs] | (-> & Hst & Hgs)]]; ostep.
  - apply kept_retry; [by apply (inv_local m t (CON c (con_try cur))) | done].
  - destruct (owned_cb _ c HI (bool_decide_eq_true_2 _ eq_refl)) as (cb & lf & E & El & Hcb & Hr).
    pose proof (lives_is _ _ _ Hf El) as <-. destruct Hcb as (Hp & Hd & He). pose proof (i_exec _ _ _ HI c _ El) as Hnex.
    unfold deref. rewrite E. ostep. keep (with_life g c Inline (g_list g)).
    assert (forall d, d ∈ executed m ++ [c] <-> d ∈ executed m \/ d = c) as Hex.
    { intros d. by rewrite elem_of_app, list_elem_of_singleton. }
    apply (owner_update (CON c (con_try cur)) _ _ c Fresh); try done.
    + apply bool_decide_eq_true_2. done.
    + apply (update_field m _ ((t, CON c (con_try cur)) :: L) g c cb cb); try done; [by rewrite insert_id | | | | congruence].
      * intros d Hd'. cbn [executed log_execute]. rewrite Hex. naive_solver.
      * cbn [executed log_execute exec_ok]. rewrite Hex. by right.
      * cbn [executed log_execute]. apply NoDup_app. split; [apply (i_once _ _ _ HI)|]. split; [|apply NoDup_singleton].
        intros d Hd' ->%list_elem_of_singleton. done.
    + by intros [|].
    + by intros [|].
    + intros d Hd'. cbn [executed log_execute]. rewrite Hex. by left.
    + split; [done|]. exists Inline. split; [apply lookup_insert_eq | done].
  - keep g. change (_set_state 1 m) with (_set_state (idle + 1) m).
    assert (stop_bit g = idle) as Hb by (unfold stop_bit; by rewrite Hgs). rewrite <- Hb.
    apply (inv_acquire m t (CON c (con_try cur))); try done. by rewrite Hst.
Qed.

Lemma step_con_link weak c : Inv m ((t, CON c con_link) :: L) g -> kept_by t (CON c con_link) L g m (construct weak m c con_link).
Proof.
  intros HI. pose proof (self_ok _ _ _ _ HI) as (Hsrc & Hgs & Hf). unfold construct.
  rewrite (locked_bit _ _ _ _ HI eq_refl).
  destruct (owned_cb _ c HI (bool_decide_eq_true_2 _ eq_refl)) as (cb & lf & E & El & Hcb & Hr).
  pose proof (lives_is _ _ _ Hf El) as <-. destruct Hcb as (Hp & Hd & He). pose proof (i_exec _ _ _ HI c _ El) as Hnex.
  assert (c ∉ g_list g) as Hni by (rewrite <- (i_linked _ _ _ HI); congruence).
  assert (NoDup (c :: g_list g)) as Hnd by (apply NoDup_cons; split; [done | apply (i_nodup _ _ _ HI)]).
  destruct (push_spec m c cb (g_list g) (i_chain _ _ _ HI) Hnd E) as (h & Epush & Hch & Hrel).
  destruct (modify_cb m c _) as [m1| |] eqn:Em1; [|done..]. cbn [obind] in Epush |- *.
  destruct (relink_prev m1 _ _) as [m2| |] eqn:Em2; [|done..]. cbn [obind] in Epush |- *.
  assert (set_head (Some c) m2 = set_head (Some c) (set_heap h m)) as -> by congruence. clear Epush. set (m' := set_head (Some c) (set_heap h m)). keep (with_life g c Linked (c :: g_list g)).
  pose proof (Hrel c) as Hrc. rewrite E in Hrc. destruct (h !! c) as [cb'|] eqn:E'; [|done]. destruct Hrc as (Es' & Ed' & Ee' & _).
  apply (owner_update (CON c con_link) _ _ c Fresh); try done.
  - apply bool_decide_eq_true_2. done.
  - split; try done.
    + intros d Hd'. specialize (Hrel d). cbn [heap m' set_head set_heap]. destruct (heap m !! d), (h !! d); try done.
      destruct Hrel as (? & ? & ? & Hx). split_and!; [done..|]. intros Hin. apply Hx. by intros [->|]%elem_of_cons.
    + exists cb'. split; [done|]. split; congruence.
    + split; [done | by left].
    + intros d Hd'. rewrite elem_of_cons. naive_solver.
    + apply (i_once _ _ _ HI).
    + auto.
  - congruence.
  - by intros [|].
  - by intros [|].
  - split; [|split; [done | exists Linked; split; [apply lookup_insert_eq | done]]].
    exists cb'. split; [done|]. destruct Hsrc as (cb0 & E0 & Hs0). rewrite E in E0. injection E0 as <-. congruence.
Qed.

Lemma step_con_linked weak c : Inv m ((t, CON c con_linked) :: L) g -> kept_by t (CON c con_linked) L g m (construct weak m c con_linked).
Proof.
  intros HI. pose proof (self_ok _ _ _ _ HI) as (Hsrc & Hgs & Hf). keep g.
  assert (stop_bit g = idle) as <- by (unfold stop_bit; by rewrite Hgs). apply (inv_release m t (CON c con_linked)); try done.
  split; [done|]. destruct Hf as (lf & El & <-). exists Linked. split; [done | by left].
Qed.

Lemma step_con_src weak c : Inv m ((t, CON c con_src) :: L) g -> kept_by t (CON c con_src) L g m (construct weak m c con_src).
Proof.
  intros HI. pose proof (self_ok _ _ _ _ HI) as (Hsrc & Hf). unfold construct.
  destruct (owned_cb _ c HI (bool_decide_eq_true_2 _ eq_refl)) as (cb & lf & E & El & Hcb & Hr).
  pose proof (lives_is _ _ _ Hf El) as Hreg. rewrite (modify_done m c cb) by done. ostep.
  keep (with_life g c lf (g_list g)). apply (owner_update (CON c con_src) None _ c lf); try done.
  - apply bool_decide_eq_true_2. done.
  - apply (update_field m _ ((t, CON c con_src) :: L) g c cb (set_src cb)); try done.
    + apply (i_exec _ _ _ HI c lf El).
    + apply (i_once _ _ _ HI).
    + intros d Hd. cbn [ready set_ready set_heap]. set_solver.
    + intros _. right. split; [eexists; split; [apply lookup_insert_eq | done]|]. exists lf. split; [apply lookup_insert_eq | done].
    + intros Hgs. pose proof (i_before _ _ _ HI Hgs c) as [Hl | Hn]; [|congruence]. by apply (lives_is _ _ _ Hl El).
  - intros d. apply (owns_handed _ c); try done; [by apply bool_decide_eq_true_2 | by intros; apply owns_other].
  - intros _ b (cb0 & E0 & Hd0). rewrite E in E0. injection E0 as <-. exists (set_src cb). split; [apply lookup_insert_eq | done].
Qed.

Lemma step_con_running weak c : Inv m ((t, CON c con_running) :: L) g -> kept_by t (CON c con_running) L g m (construct weak m c con_running).
Proof.
  intros HI. pose proof (self_ok _ _ _ _ HI) as (Hsrc & Hf). unfold construct.
  destruct (owned_cb _ c HI (bool_decide_eq_true_2 _ eq_refl)) as (cb & lf & E & El & Hcb & Hr).
  pose proof (lives_is _ _ _ Hf El) as <-.
  keep (with_life g c Inline (g_list g)). apply (owner_update (CON c con_running) None _ c Inline); try done.
  - apply bool_decide_eq_true_2. done.
  - apply (update_field m _ ((t, CON c con_running) :: L) g c cb cb); try done.
    + by rewrite insert_id.
    + apply (i_exec _ _ _ HI c Inline El).
    + apply (i_once _ _ _ HI).
    + intros d Hd. cbn [ready set_ready]. set_solver.
    + intros _. left. split; [done|]. exists Inline. split; [apply lookup_insert_eq | done].
    + intros Hgs. pose proof (i_before _ _ _ HI Hgs c) as [Hl | Hn]; [|congruence]. by apply (lives_is _ _ _ Hl El).
  - intros d. apply (owns_handed _ c); try done; [by apply bool_decide_eq_true_2 | by intros; apply owns_other].
Qed.

(** ** The destructor *)

Lemma step_des_start weak c : Inv m ((t, DES c des_start) :: L) g -> kept_by t (DES c des_start) L g m (destroy t weak m c des_start).
Proof.
  intros HI. pose proof (self_ok _ _ _ _ HI) as Hok. cbn [op_ok destroy_ok] in Hok. unfold destroy, deref.
  destruct Hok as [[(cb & E & Es) Hl] | [(cb & E & Es) Hl]]; rewrite E; ostep; rewrite Es; keep g;
    apply (inv_local m t (DES c des_start)); try done.
  destruct Hl as (lf & El & <-). exists Inline. split; [done | by left].
Qed.

Lemma step_des_lock weak c cur : Inv m ((t, DES c (des_lock cur)) :: L) g -> kept_by t (DES c (des_lock cur)) L g m (destroy t weak m c (des_lock cur)).
Proof.
  intros HI. pose proof (self_ok _ _ _ _ HI) as (Hcur & Hl). unfold destroy.
  destruct (lock_spec weak m cur _ g HI Hcur) as [(cur' & -> & Hc) | [-> Hu]].
  - apply kept_retry; [by apply (inv_local m t (DES c (des_lock cur))) | done].
  - keep g. by apply (inv_acquire m t (DES c (des_lock cur))).
Qed.

Lemma step_des_locked weak c prev : Inv m ((t, DES c (des_locked prev)) :: L) g ->
  kept_by t (DES c (des_locked prev)) L g m (destroy t weak m c (des_locked prev)).
Proof.
  intros HI. pose proof (self_ok _ _ _ _ HI) as (-> & Hl). unfold destroy.
  destruct (owned_cb _ c HI (bool_decide_eq_true_2 _ eq_refl)) as (cb & lf & E & El & Hcb & Hr).
  unfold deref. rewrite E. ostep. pose proof (lives_is _ _ _ Hl El) as Hreg.
  destruct (decide (lf = Linked)) as [->|Hne].
  - pose proof (i_nodup _ _ _ HI) as Hnd. pose proof (i_chain _ _ _ HI) as Hch.
    assert (c ∈ g_list g) as (l1 & l2 & Eg)%list_elem_of_split by (by apply (i_linked _ _ _ HI)).
    rewrite Eg in Hnd, Hch. destruct (unlink_spec m c l1 l2 Hch Hnd) as (cb0 & p & h & hd & E0 & Ep & Eun & Hch' & Hrel).
    rewrite E in E0. injection E0 as <-. rewrite Ep.
    destruct (store_at m p (_next cb)) as [m1| |]; [|done..]. cbn [obind] in Eun |- *. rewrite Eun. ostep.
    set (m' := set_head hd (set_heap h m)). keep (with_life g c Gone (l1 ++ l2)).
    pose proof (Hrel c) as Hrc. rewrite E in Hrc. destruct (h !! c) as [cb'|] eqn:E'; [|done].
    assert (forall d, d ∈ l1 ++ c :: l2 <-> d = c \/ d ∈ l1 ++ l2) as Hin.
    { intros d. rewrite !elem_of_app, elem_of_cons. tauto. }
    assert (c ∉ l1 ++ l2 /\ NoDup (l1 ++ l2)) as [Hni Hnd'].
    { rewrite <- Permutation_middle in Hnd. by apply NoDup_cons in Hnd. }
    apply (owner_update (DES c (des_locked (stop_bit g))) _ _ c Linked); try done.
    + apply bool_decide_eq_true_2. done.
    + split; try done.
      * intros d Hd. specialize (Hrel d). rewrite <- Eg in Hrel. exact Hrel.
      * exists cb'. done.
      * intros d Hd. rewrite Eg, Hin. naive_solver.
      * apply (i_once _ _ _ HI).
      * auto.
    + rewrite Eg. intros _ Hnil. by destruct l1.
    + by intros [|].
    + by intros [|].
    + split; [done|]. exists Gone. split; [apply lookup_insert_eq | done].
  - assert (popped lf) as Hpo by (destruct Hreg as [|[|]]; [done | by left | by right]).
    assert (_prev_nextptr cb = None) as -> by (destruct Hpo as [-> | ->]; apply Hcb).
    keep g. apply (inv_local m t (DES c (des_locked (stop_bit g)))); try done.
    split; [done|]. split; [by exists lf | done].
Qed.

Lemma step_des_unlinked weak c prev : Inv m ((t, DES c (des_unlinked prev)) :: L) g ->
  kept_by t (DES c (des_unlinked prev)) L g m (destroy t weak m c (des_unlinked prev)).
Proof.
  intros HI. pose proof (self_ok _ _ _ _ HI) as (-> & Hl). keep g.
  apply (inv_release m t (DES c (des_unlinked (stop_bit g)))); try done.
  destruct Hl as (lf & El & <-). exists Gone. auto.
Qed.

Lemma step_des_popped weak c prev owner : Inv m ((t, DES c (des_popped prev owner)) :: L) g ->
  kept_by t (DES c (des_popped prev owner)) L g m (destroy t weak m c (des_popped prev owner)).
Proof.
  intros HI. pose proof (self_ok _ _ _ _ HI) as (-> & Hl & Ho). keep g.
  by apply (inv_release m t (DES c (des_popped (stop_bit g) owner))).
Qed.

(** The request that executes a callback. *)
Lemma busy_request x c : Inv m (x :: L) g -> active x = false -> g_life g !! c = Some Busy ->
  exists t' p, (t', RS p) ∈ L /\ needs (was_removed_during_exec m) (RS p) = Some c /\ _stopping_thread m = Some t' /\
    ((running (RS p) = true \/ p = rs_ran c) /\ was_removed_during_exec m = Some false /\ flagged m c true \/
     running (RS p) = false /\ flagged m c false) /\
    forall y, y ∈ L -> active y = true -> y <> (t', RS p) -> False.
Proof.
  intros HI Ha Hb. pose proof (i_busy _ _ _ HI c Hb) as Hn. apply Exists_cons in Hn as [Hn|Hn]; [by destruct x as [? [[]| |]]|].
  apply Exists_exists in Hn as ([t' o'] & Hy & Hn). cbn [snd] in Hn. pose proof (i_ops _ _ _ HI) as Hops.
  apply Forall_cons in Hops as [_ Hops]. rewrite Forall_forall in Hops. specialize (Hops _ Hy).
  destruct o' as [p| |]; [|done..]. exists t', p. split; [done|]. split; [done|].
  assert (forall y, y ∈ L -> active y = true -> y <> (t', RS p) -> False) as Huniq.
  { intros y Hyin Hya Hne. pose proof (i_request _ _ _ HI) as Hr. cbn [count] in Hr. rewrite Ha in Hr.
    apply list_elem_of_split in Hy as (L1 & L2 & ->). rewrite count_app in Hr. cbn [count] in Hr.
    assert (active (t', RS p) = true) as Hap by (by destruct p). rewrite Hap in Hr.
    assert (1 <= count active L1 + count active L2)%nat; [|destruct (g_stop g); simpl in Hr; lia].
    rewrite elem_of_app, elem_of_cons in Hyin. destruct Hyin as [Hyin|[->|Hyin]]; [|done|];
      pose proof (count_member active _ _ Hyin Hya); lia. }
  destruct p; simpl in Hn, Hops; try discriminate Hn.
  - injection Hn as ->. destruct Hops as (? & _ & ? & _). split_and!; [done | by right | done].
  - injection Hn as ->. destruct Hops as (? & _ & ? & _). split_and!; [done | by right | done].
  - destruct (decide _) as [Ew|]; [|done]. injection Hn as ->. rewrite Ew in Hops. destruct Hops as (? & _ & _ & ?).
    split_and!; [done | left; split_and!; [by left | done | done] | done].
  - destruct (decide _) as [Ew|]; [|done]. injection Hn as ->. rewrite Ew in Hops. destruct Hops as (? & _ & _ & ?).
    split_and!; [done | left; split_and!; [by right | done | done] | done].
  - injection Hn as ->. destruct Hops as (? & _ & ? & _). split_and!; [done | by right | done].
Qed.

(** Below the innermost operation of a thread all others run callbacks. *)
Definition below : Prop := Forall (fun x => fst x = t -> running (snd x) = true) L.

(** The destructor was called by the callback itself, or by code it called. *)
Lemma remove_self c cb : Inv m ((t, DES c (des_check (Some t))) :: L) g -> below ->
  heap m !! c = Some cb -> _stopping_thread m = Some t -> g_life g !! c = Some Busy ->
  _did_remove cb = true /\ was_removed_during_exec m = Some false /\
  Inv (set_flag (Some true) m) ((t, DES c des_end) :: L) (with_life g c Gone (g_list g)).
Proof.
  intros HI Hbel E Hst El. destruct (busy_request _ c HI eq_refl El) as (t' & p & Hy & Hn & Ht' & Hcase & Huniq).
  rewrite Hst in Ht'. injection Ht' as <-. unfold below in Hbel. rewrite Forall_forall in Hbel. pose proof (Hbel _ Hy eq_refl) as Hrun.
  destruct Hcase as [(_ & Ew & (cb0 & E0 & Hdid)) | [Hnr _]]; [|cbn [snd] in Hrun; congruence].
  rewrite E in E0. injection E0 as <-. split; [done|]. split; [done|].
  destruct p as [| | | | |c'| | | |]; try discriminate Hrun. simpl in Hn. destruct (decide _); [|done]. injection Hn as ->.
  assert (update_ok m (set_flag (Some true) m) g c Busy Gone (g_list g)) as HU.
  { apply (update_field m _ ((t, DES c (des_check (Some t))) :: L) g c cb cb); try done; [by rewrite insert_id | apply (i_once _ _ _ HI) | | by auto].
    intros Hr. destruct (own_once _ _ _ _ HI c (bool_decide_eq_true_2 _ eq_refl)) as (_ & Hnr & _). done. }
  apply (inv_update m _ ((t, DES c (des_check (Some t))) :: L) g c Busy); try done; try (by apply HI).
  - intros d Hd. destruct (decide (d = c)) as [->|Hne]; [rewrite life_new in Hd; done|]. rewrite life_same in Hd by done.
    exfalso. destruct (busy_request _ d HI eq_refl Hd) as (t2 & p2 & Hy2 & Hn2 & _ & _ & _).
    destruct (decide ((t2, RS p2) = (t, RS (rs_running c)))) as [[= -> ->]|Hne2].
    + simpl in Hn2. destruct (decide _); [|done]. by injection Hn2 as ->.
    + apply (Huniq _ Hy2); [by destruct p2 | done].
  - apply Forall_cons. split; [exists Gone; split; [apply lookup_insert_eq | auto]|]. apply Forall_forall. intros y Hyin.
    pose proof (i_ops _ _ _ HI) as Hops. apply Forall_cons in Hops as [_ Hops]. rewrite Forall_forall in Hops.
    destruct (active y) eqn:Ea.
    + destruct (decide (y = (t, RS (rs_running c)))) as [->|Hne]; [|by destruct (Huniq _ Hyin Ea Hne)].
      destruct (Hops _ Hyin) as (? & ? & _). done.
    + apply (stable_op m g _ _ (fun d => owns d (t, DES c (des_check (Some t))))); [| |by apply Hops].
      * apply (stable_update _ _ _ _ _ _ _ HU); try done; [|by rewrite Ea].
        unfold owns. cbn [snd]. by rewrite bool_decide_eq_true_2.
      * intros d. by apply (others_own _ _ _ _ HI).
Qed.

Lemma step_des_check weak c owner : Inv m ((t, DES c (des_check owner)) :: L) g -> below ->
  kept_by t (DES c (des_check owner)) L g m (destroy t weak m c (des_check owner)).
Proof.
  intros HI Hbel. pose proof (self_ok _ _ _ _ HI) as (Hl & ->). unfold destroy.
  destruct (owned_cb _ c HI (bool_decide_eq_true_2 _ eq_refl)) as (cb & lf & E & El & Hcb & Hr).
  destruct (decide (_stopping_thread m = Some t)) as [Est|Hne].
  - rewrite Est in HI. unfold deref. rewrite E. ostep. destruct (lives_is _ _ _ Hl El) as [-> | ->].
    + destruct (remove_self c cb HI Hbel E Est El) as (-> & -> & HI'). keep (with_life g c Gone (g_list g)). exact HI'.
    + destruct Hcb as (_ & -> & _). keep g. apply (inv_local m t (DES c (des_check (Some t)))); try done.
      exists Done_. auto.
  - keep g. by apply (inv_local m t (DES c (des_check (_stopping_thread m)))).
Qed.

Lemma step_des_spin weak c : Inv m ((t, DES c des_spin) :: L) g -> kept_by t (DES c des_spin) L g m (destroy t weak m c des_spin).
Proof.
  intros HI. pose proof (self_ok _ _ _ _ HI) as (Hl & Hne). unfold destroy.
  destruct (owned_cb _ c HI (bool_decide_eq_true_2 _ eq_refl)) as (cb & lf & E & El & Hcb & Hr).
  unfold deref. rewrite E. ostep. destruct (lives_is _ _ _ Hl El) as [-> | ->].
  - destruct Hcb as (_ & ->). by apply kept_retry.
  - destruct Hcb as (_ & _ & ->). keep g. apply (inv_local m t (DES c des_spin)); try done. exists Done_. auto.
Qed.

Lemma step_des_end weak c : Inv m ((t, DES c des_end) :: L) g -> kept_by t (DES c des_end) L g m (destroy t weak m c des_end).
Proof.
  intros HI. pose proof (self_ok _ _ _ _ HI) as Hl. cbn [op_ok destroy_ok] in Hl. unfold destroy.
  destruct (owned_cb _ c HI (bool_decide_eq_true_2 _ eq_refl)) as (cb & lf & E & El & Hcb & Hr).
  pose proof (lives_is _ _ _ Hl El) as Hlf. simpl in Hlf. unfold deref. rewrite E. ostep.
  assert (c ∉ g_list g) as Hni by (rewrite <- (i_linked _ _ _ HI), El; naive_solver).
  set (g' := mk_ghost (g_stop g) (delete c (g_life g)) (g_list g)).
  assert (forall d lfd, g_life g' !! d = Some lfd -> d <> c /\ g_life g !! d = Some lfd) as Hold.
  { intros d lfd Hd. cbn [g_life g'] in Hd. by apply lookup_delete_Some in Hd as [? ?]. }
  assert (forall d, d <> c -> g_life g' !! d = g_life g !! d) as Hsame by (intros; by apply lookup_delete_ne).
  assert (forall d P, d <> c -> lives g d P -> lives g' d P) as Hlv.
  { intros d P Hd (lfd & Ed & HP). exists lfd. by rewrite Hsame. }
  assert (forall d b, d <> c -> sourced m d b -> sourced (set_heap (delete c (heap m)) m) d b) as Hsrc.
  { intros d b Hd (cbd & Ed & Hb). exists cbd. cbn [heap set_heap]. by rewrite lookup_delete_ne. }
  apply (kept_less _ _ _ _ _ _ _ g'); [|unfold g'; less]. pose proof (i_own _ _ _ HI) as Hown. cbn [count] in Hown.
  split; try (by apply HI); cbn [plus].
  - eapply chain_frame; [|apply (i_chain _ _ _ HI)]. apply Forall_forall. intros d Hd cbd Ed. exists cbd.
    cbn [heap set_heap]. rewrite lookup_delete_ne; [done|]. by intros ->.
  - intros d. destruct (decide (d = c)) as [->|Hd]; [|rewrite Hsame by done; apply (i_linked _ _ _ HI)].
    cbn [g_life g']. rewrite lookup_delete_eq. done.
  - intros d. cbn [heap set_heap]. destruct (decide (d = c)) as [->|Hd].
    + cbn [g_life g']. by rewrite !lookup_delete_eq.
    + rewrite Hsame, lookup_delete_ne by done. apply (i_dom _ _ _ HI).
  - intros d. specialize (Hown d). cbn [heap set_heap]. destruct (decide (d = c)) as [->|Hd].
    + change (owns c (t, DES c des_end)) with (bool_decide (c = c)) in Hown. rewrite (bool_decide_eq_true_2 (c = c)) in Hown by done.
      rewrite (bool_decide_eq_true_2 (is_Some _)) in Hown by (by rewrite E).
      rewrite (bool_decide_eq_false_2 (is_Some _)) by (by rewrite lookup_delete_eq; intros []).
      change (ready _) with (ready m). simpl in *. lia.
    + rewrite lookup_delete_ne by done. rewrite <- Hown. unfold owns at 2. cbn [snd].
      rewrite (bool_decide_eq_false_2 (c = d)) by congruence. done.
  - intros d [Hd|Hd]; apply (i_born _ _ _ HI); [left | by right]. cbn [heap set_heap] in Hd.
    destruct (decide (d = c)) as [->|Hne]; [rewrite lookup_delete_eq in Hd; by destruct Hd | by rewrite lookup_delete_ne in Hd].
  - intros d cbd lfd Ed [Hne El']%Hold. cbn [heap set_heap] in Ed. rewrite lookup_delete_ne in Ed by done.
    by apply (i_cb _ _ _ HI d).
  - intros d Hd. change (ready _) with (ready m) in Hd. assert (d <> c) as Hne by (by intros ->).
    destruct (i_ready _ _ _ HI d Hd) as [[? ?] | [? ?]]; [left | right]; auto.
  - intros d [Hne Hb]%Hold. pose proof (i_busy _ _ _ HI d Hb) as Hn. by apply Exists_cons in Hn as [|].
  - intros Hs d. destruct (decide (d = c)) as [->|Hd]; [right; apply lookup_delete_eq|]. rewrite Hsame by done.
    destruct (i_before _ _ _ HI Hs d); [left; by apply Hlv | by right].
  - intros d lfd [Hne El']%Hold. by apply (i_exec _ _ _ HI d).
  - apply (others_ok _ _ _ _ HI). intros y Hy _ _.
    assert (forall d, owns d (t, DES c des_end) = false -> d <> c) as Hnc by (intros d Hd; apply bool_decide_eq_false in Hd; congruence).
    split; try done; [by left | by left | | | |].
    + intros d Hd lfd Ed. exists lfd. rewrite Hsame by auto. split; [done | by left].
    + intros _ d Hd. apply Hlv. auto.
    + intros d b Hd. apply Hsrc. auto.
    + intros _. split_and!; try done.
      * intros d (lfd & Ed & <-). exists Busy. rewrite Hsame; [done|]. intros ->. rewrite El in Ed. naive_solver.
      * intros d (lfd & [_ Ed]%Hold & Hp). by exists lfd.
      * intros d b (lfd & Ed & <-) (cbd & Ecd & Hb). exists cbd. cbn [heap set_heap]. rewrite lookup_delete_ne; [done|].
        intros ->. rewrite El in Ed. naive_solver.
Qed.
End Steps.
