(* ===== verification/StopSpec.v ===== *)
(** * What a stop source promises

    The invariant of [StopInv.v] for configurations of threads: nothing undefined
    happens, callbacks run once, and whatever was started can finish. *)
From Stdlib Require Import ZArith Lia.
From stdpp Require Import base numbers list gmap sets.
From S2P Require Import Prelude.
From S2P Require Import Stop.
From S2P Require Import StopList.
From S2P Require Import StopInv.
From S2P Require Import StopSteps.
Open Scope Z_scope.

(** ** Calls *)

Lemma count_perm {A} (f : A -> bool) l l' : l ≡ₚ l' -> count f l = count f l'.
Proof. induction 1; simpl; lia. Qed.

Lemma inv_perm m L L' g : L ≡ₚ L' -> Inv m L g -> Inv m L' g.
Proof.
  intros HP HI. destruct HI. split; try done; rewrite <- ?(count_perm _ _ _ HP); try done.
  - intros c. rewrite <- (count_perm _ _ _ HP). apply i_own.
  - intros c Hc. specialize (i_busy c Hc). apply Exists_exists in i_busy as (x & Hx & Hn). apply Exists_exists.
    exists x. split; [by rewrite <- HP | done].
  - by rewrite <- HP.
Qed.

Lemma inv_call_request m L g t : Inv m L g -> Inv m ((t, RS (rs_try None)) :: L) g.
Proof.
  intros HI. destruct HI. split; try done.
  - intros c Hc. right. by apply i_busy.
  - by apply Forall_cons.
Qed.

Lemma inv_call_construct m L g t c : Inv m L g -> c ∉ born m ->
  Inv (set_born ({[c]} ∪ born m) (set_heap (<[c := new_callback]> (heap m)) m)) ((t, CON c (con_try None)) :: L)
    (mk_ghost (g_stop g) (<[c := Fresh]> (g_life g)) (g_list g)).
Proof.
  intros HI Hc. assert (heap m !! c = None) as Hh.
  { destruct (heap m !! c) eqn:E; [|done]. destruct Hc. apply (i_born _ _ _ HI). left. by rewrite E. }
  assert (g_life g !! c = None) as Hg.
  { destruct (g_life g !! c) eqn:E; [|done]. assert (is_Some (heap m !! c)) as [? ?]; [|congruence].
    apply (i_dom _ _ _ HI). by rewrite E. }
  assert (c ∉ executed m) as Hex by (intros Hx; apply Hc, (i_born _ _ _ HI); by right).
  assert (forall d P, lives g d P -> d <> c) as Hlne by (intros d P (lf & E & _) ->; congruence).
  assert (forall d P, lives g d P -> lives (mk_ghost (g_stop g) (<[c := Fresh]> (g_life g)) (g_list g)) d P) as Hlv.
  { intros d P Hl. pose proof (Hlne _ _ Hl). destruct Hl as (lf & E & HP). exists lf. cbn [g_life]. by rewrite lookup_insert_ne. }
  assert (forall d cb, heap m !! d = Some cb -> <[c := new_callback]> (heap m) !! d = Some cb) as Hhp.
  { intros d cb E. rewrite lookup_insert_ne; [done | congruence]. }
  pose proof (i_own _ _ _ HI) as Hown.
  split; try (by apply HI); cbn [heap set_born set_heap g_life].
  - eapply chain_frame; [|apply (i_chain _ _ _ HI)]. apply Forall_forall. intros d _ cb E. exists cb. auto.
  - intros d. destruct (decide (d = c)) as [->|Hd]; [|rewrite lookup_insert_ne by done; apply (i_linked _ _ _ HI)].
    rewrite lookup_insert_eq. cbn [g_list]. rewrite <- (i_linked _ _ _ HI), Hg. done.
  - intros d. destruct (decide (d = c)) as [->|Hd]; [by rewrite !lookup_insert_eq|].
    rewrite !lookup_insert_ne by done. apply (i_dom _ _ _ HI).
  - intros d. specialize (Hown d). change (ready _) with (ready m). cbn [count owns snd]. destruct (decide (d = c)) as [->|Hd].
    + rewrite lookup_insert_eq. rewrite Hh in Hown. rewrite (bool_decide_eq_false_2 (is_Some None)) in Hown by (by intros []).
      rewrite (bool_decide_eq_true_2 (is_Some _)) by done. rewrite (bool_decide_eq_true_2 (c = c)) by done. simpl in *. lia.
    + rewrite lookup_insert_ne by done. rewrite (bool_decide_eq_false_2 (c = d)) by congruence. done.
  - intros d. cbn [born]. change (executed _) with (executed m). destruct (decide (d = c)) as [->|Hd]; [set_solver|].
    rewrite lookup_insert_ne by done. intros H%(i_born _ _ _ HI). set_solver.
  - intros d cb lf E El. cbn [g_life] in El. destruct (decide (d = c)) as [->|Hd].
    + rewrite lookup_insert_eq in E. rewrite lookup_insert_eq in El. by simplify_eq.
    + rewrite lookup_insert_ne in E by done. rewrite lookup_insert_ne in El by done. by apply (i_cb _ _ _ HI d).
  - intros d Hd. change (ready _) with (ready m) in Hd.
    destruct (i_ready _ _ _ HI d Hd) as [[(cb & E & Hs) ?] | [(cb & E & Hs) ?]]; [left | right];
      (split; [exists cb; split; [by apply Hhp | done] | by apply Hlv]).
  - intros d Hd. destruct (decide (d = c)) as [->|Hne]; [rewrite lookup_insert_eq in Hd; done|].
    rewrite lookup_insert_ne in Hd by done. right. by apply (i_busy _ _ _ HI).
  - intros Hs d. cbn [g_life]. destruct (decide (d = c)) as [->|Hne].
    + left. exists Fresh. split; [apply lookup_insert_eq | by left].
    + rewrite lookup_insert_ne by done. destruct (i_before _ _ _ HI Hs d); [left; by apply Hlv | by right].
  - intros d lf El. cbn [g_life] in El. destruct (decide (d = c)) as [->|Hne].
    + rewrite lookup_insert_eq in El. by injection El as <-.
    + rewrite lookup_insert_ne in El by done. by apply (i_exec _ _ _ HI d).
  - apply Forall_cons. split.
    + split; [eexists; split; [apply lookup_insert_eq | done]|]. split; [done|]. exists Fresh. split; [apply lookup_insert_eq | done].
    + eapply Forall_impl; [apply (i_ops _ _ _ HI)|]. intros y. apply (stable_op _ _ _ _ (fun _ => false)); [|done].
      split; try done; [by left | by left | | | |].
      * intros d _ lf E. exists lf. split; [|by left]. cbn [g_life]. rewrite lookup_insert_ne; [done | congruence].
      * intros _ d _. apply Hlv.
      * intros d b _ (cb & E & Hs). exists cb. split; [by apply Hhp | done].
      * intros _. split_and!; try done; [intros d; apply Hlv | | intros d b _ (cb & E & Hs); exists cb; split; [by apply Hhp | done]].
        intros d (lf & E & Hp). cbn [g_life] in E. destruct (decide (d = c)) as [->|Hne].
        -- rewrite lookup_insert_eq in E. injection E as <-. by destruct Hp.
        -- rewrite lookup_insert_ne in E by done. by exists lf.
Qed.

Lemma inv_call_destroy m L g t c : Inv m L g -> c ∈ ready m ->
  Inv (set_ready (ready m ∖ {[c]}) m) ((t, DES c des_start) :: L) g.
Proof.
  intros HI Hc. pose proof (i_own _ _ _ HI) as Hown. split; try (by apply HI).
  - intros d. specialize (Hown d). cbn [count owns snd]. change (heap _) with (heap m). cbn [ready set_ready].
    rewrite <- Hown. destruct (decide (d = c)) as [->|Hd].
    + rewrite (bool_decide_eq_true_2 (c = c)), (bool_decide_eq_true_2 (c ∈ ready m)), (bool_decide_eq_false_2 (c ∈ _ ∖ _)) by set_solver.
      simpl. lia.
    + rewrite (bool_decide_eq_false_2 (c = d)) by congruence. simpl. f_equal. f_equal. apply bool_decide_ext. set_solver.
  - intros d Hd. apply (i_ready _ _ _ HI). cbn [ready set_ready] in Hd. set_solver.
  - intros d Hb. right. by apply (i_busy _ _ _ HI).
  - apply Forall_cons. split; [by apply (i_ready _ _ _ HI)|]. eapply Forall_impl; [apply (i_ops _ _ _ HI)|].
    intros [t' [p|d p|d p]]; destruct p; exact (fun H => H).
Qed.

(** ** Configurations *)

(** All operations, with their threads counted from [n]. *)
Fixpoint all_ops (n : nat) (ths : list (list op)) : list tagged :=
  match ths with [] => [] | st :: ths => map (fun o => (n, o)) st ++ all_ops (S n) ths end.

Lemma all_ops_at ths : forall n t st, ths !! t = Some st -> exists L,
  all_ops n ths ≡ₚ map (fun o => ((n + t)%nat, o)) st ++ L /\
  (forall st', all_ops n (<[t := st']> ths) ≡ₚ map (fun o => ((n + t)%nat, o)) st' ++ L) /\
  Forall (fun x => fst x <> (n + t)%nat) L.
Proof.
  assert (forall ths n k, (k < n)%nat -> Forall (fun x => fst x <> k) (all_ops n ths)) as Hlater.
  { intros ths0. induction ths0 as [|st0 ths0 IH]; intros n k Hk; simpl; [by apply Forall_nil|]. apply Forall_app.
    split; [|apply IH; lia]. apply Forall_forall. intros x Hx. apply list_elem_of_fmap in Hx as (o & -> & _). simpl. lia. }
  induction ths as [|st0 ths IH]; intros n t st Ht; [done|]. destruct t as [|t]; simpl in *.
  - injection Ht as ->. exists (all_ops (S n) ths). rewrite Nat.add_0_r. split; [done|]. split; [done|]. apply Hlater. lia.
  - destruct (IH (S n) t st Ht) as (L & H & H' & HL). exists (map (fun o => (n, o)) st0 ++ L).
    replace (n + S t)%nat with (S n + t)%nat by lia. split; [|split].
    + rewrite H. solve_Permutation.
    + intros st'. rewrite H'. solve_Permutation.
    + apply Forall_app. split; [|done]. apply Forall_forall. intros x Hx. apply list_elem_of_fmap in Hx as (o & -> & _). simpl. lia.
Qed.

Definition stack_ok (st : list op) : Prop := Forall (fun o => running o = true) (tail st).

(** The invariant of a configuration. *)
Definition safe (s : config) : Prop :=
  Forall stack_ok (threads s) /\ exists g, Inv (memory s) (all_ops 0 (threads s)) g.

Lemma step_op t weak m o L g : Inv m ((t, o) :: L) g -> below L t -> kept_by t o L g m (op_step t weak m o).
Proof.
  intros HI Hb. destruct o as [p|c p|c p]; cbn [op_step]; destruct p.
  - by eapply step_try.
  - by eapply step_owner.
  - by eapply step_loop.
  - by eapply step_popped.
  - by eapply step_flag.
  - by eapply step_running.
  - by eapply step_ran.
  - by eapply step_done.
  - by eapply step_relock.
  - by eapply step_finish.
  - by eapply step_con_try.
  - by eapply step_con_link.
  - by eapply step_con_linked.
  - by eapply step_con_src.
  - by eapply step_con_running.
  - by eapply step_des_start.
  - by eapply step_des_lock.
  - by eapply step_des_locked.
  - by eapply step_des_unlinked.
  - by eapply step_des_popped.
  - by eapply step_des_check.
  - by eapply step_des_spin.
  - by eapply step_des_end.
Qed.

Lemma below_stack t rest L : Forall (fun o => running o = true) rest -> Forall (fun x => fst x <> t) L ->
  below (map (fun o => (t, o)) rest ++ L) t.
Proof.
  intros Hr HL. apply Forall_app. split.
  - apply Forall_forall. intros x Hx _. apply list_elem_of_fmap in Hx as (o & -> & Ho). rewrite Forall_forall in Hr. by apply Hr.
  - eapply Forall_impl; [exact HL|]. by intros x Hne.
Qed.

Lemma in_client_ok st : stack_ok st -> in_client st = true -> Forall (fun o => running o = true) st.
Proof. destruct st as [|o rest]; [by intros; apply Forall_nil|]. intros Hok Ho. by apply Forall_cons. Qed.

(** Every enabled choice is defined, and keeps the invariant. *)
Lemma act_safe t ch s res : safe s -> act t ch s = Some res -> exists s', res = Done s' /\ safe s'.
Proof.
  intros [Hst [g HI]] Hact. unfold act in Hact. destruct (threads s !! t) as [st|] eqn:Et; [|done].
  destruct (all_ops_at _ 0 t st Et) as (L & HP & HP' & HL). simpl in HP, HP', HL.
  pose proof (proj1 (Forall_lookup _ _) Hst t st Et) as Hok.
  assert (forall m st', stack_ok st' -> (exists g', Inv m (map (fun o => (t, o)) st' ++ L) g') ->
    safe (mk_config m (<[t := st']> (threads s)))) as Hnext.
  { intros m st' Hok' [g' HI']. split; [by apply Forall_insert|]. exists g'. eapply inv_perm; [symmetry; apply HP' | done]. }
  destruct ch as [weak| |c|c].
  - destruct st as [|o rest]; [done|]. injection Hact as <-.
    pose proof (inv_perm _ _ _ _ HP HI) as HI0. cbn [map app] in HI0.
    destruct (step_op t weak _ o _ g HI0 (below_stack t rest L Hok HL)) as (m' & r & g' & -> & HI' & _). ostep.
    eexists. split; [done|]. apply Hnext.
    + destruct r; [done|]. unfold stack_ok in *. destruct rest; [done|]. by apply Forall_cons in Hok as [_ ?].
    + exists g'. by destruct r.
  - destruct (in_client st) eqn:Ec; [|done]. injection Hact as <-. eexists. split; [done|]. apply Hnext; [by apply in_client_ok|].
    exists g. apply inv_call_request. by eapply inv_perm.
  - destruct (in_client st) eqn:Ec; [|done]. destruct (bool_decide _) eqn:Eb; [done|]. apply bool_decide_eq_false in Eb.
    injection Hact as <-. eexists. split; [done|]. apply Hnext; [by apply in_client_ok|].
    eexists. apply inv_call_construct; [|done]. by eapply inv_perm.
  - destruct (in_client st) eqn:Ec; [|done]. destruct (bool_decide _) eqn:Eb; [|done]. apply bool_decide_eq_true in Eb.
    injection Hact as <-. eexists. split; [done|]. apply Hnext; [by apply in_client_ok|].
    exists g. apply inv_call_destroy; [|done]. by eapply inv_perm.
Qed.

Lemma initial_safe n : safe (initial n).
Proof.
  assert (all_ops 0 (replicate n []) = []) as Hops by (generalize 0%nat; induction n; intros k; simpl; [done | apply IHn]).
  split; [apply Forall_replicate; by apply Forall_nil|]. exists (mk_ghost false ∅ []). cbn [memory threads initial]. rewrite Hops.
  split; try done; cbn; try lia.
  - apply NoDup_nil_2.
  - intros c. rewrite lookup_empty. split; [done | by intros ?%elem_of_nil].
  - intros c. by rewrite !lookup_empty.
  - intros c [[? Hc] | Hc]; [by rewrite lookup_empty in Hc | by apply elem_of_nil in Hc].
  - intros _ c. right. apply lookup_empty.
  - apply NoDup_nil_2.
Qed.

Lemma reachable_safe n s : reachable n s -> safe s.
Proof.
  induction 1 as [|s t ch s' _ IH Hact]; [apply initial_safe|]. destruct (act_safe _ _ _ _ IH Hact) as (s2 & [= <-] & H). done.
Qed.

(** ** Progress *)

Definition at_ghost (s : config) (g : ghost) : Prop :=
  Forall stack_ok (threads s) /\ Inv (memory s) (all_ops 0 (threads s)) g.
Definition left_to_do (s : config) (g : ghost) : nat := work (all_ops 0 (threads s)) g.

Lemma total_app L L' : total (L ++ L') = (total L + total L')%nat.
Proof. induction L as [|x L IH]; simpl; lia. Qed.
Lemma total_perm L L' : L ≡ₚ L' -> total L = total L'.
Proof. induction 1; simpl; lia. Qed.
Lemma work_perm L L' g : L ≡ₚ L' -> work L g = work L' g.
Proof. intros H. unfold work. by rewrite (total_perm _ _ H). Qed.
Lemma retries_cost o o' : retries o o' -> cost o' = cost o.
Proof. destruct o as [[]|? []|? []], o' as [[]|? []|? []]; done. Qed.

Lemma all_ops_elem ths : forall n t o, (t, o) ∈ all_ops n ths -> exists k st, ths !! k = Some st /\ t = (n + k)%nat /\ o ∈ st.
Proof.
  induction ths as [|st ths IH]; intros n t o Hin; simpl in Hin; [by apply elem_of_nil in Hin|].
  apply elem_of_app in Hin as [Hin | Hin].
  - apply list_elem_of_fmap in Hin as (o' & [= -> ->] & Ho). exists 0%nat, st. split; [done|]. split; [lia | done].
  - apply IH in Hin as (k & st' & Hk & -> & Ho). exists (S k), st'. split; [done|]. split; [lia | done].
Qed.

(** A thread that is in an operation proceeds: less is left to do, or it tries
    again. *)
Lemma proceed_step s g t o rest : at_ghost s g -> threads s !! t = Some (o :: rest) ->
  exists s' g', act t (proceed false) s = Some (Done s') /\ at_ghost s' g' /\
    ((left_to_do s' g' < left_to_do s g)%nat \/
     (left_to_do s' g' = left_to_do s g /\ memory s' = memory s /\ g' = g /\ exists o', threads s' = <[t := o' :: rest]> (threads s) /\
      retries o o' /\ op_step t false (memory s) o = Done (memory s, Some o'))).
Proof.
  intros [Hst HI] Et. destruct (all_ops_at _ 0 t _ Et) as (L & HP & HP' & HL). simpl in HP, HP', HL.
  pose proof (proj1 (Forall_lookup _ _) Hst t _ Et) as Hok. pose proof (inv_perm _ _ _ _ HP HI) as HI0. cbn [map app] in HI0.
  destruct (step_op t false _ o _ g HI0 (below_stack t rest L Hok HL)) as (m' & r & g' & E & HI' & Hw).
  unfold act. rewrite Et, E. ostep. set (st' := match r with Some o => o :: rest | None => rest end).
  exists (mk_config m' (<[t := st']> (threads s))), g'. split; [done|].
  assert (plus t r (map (fun o => (t, o)) rest ++ L) ≡ₚ all_ops 0 (<[t := st']> (threads s))) as HP2.
  { rewrite HP'. by destruct r. }
  split; [split|].
  - apply Forall_insert; [done|]. destruct r; [done|]. unfold st', stack_ok in *. destruct rest; [done|].
    by apply Forall_cons in Hok as [_ ?].
  - by eapply inv_perm.
  - unfold left_to_do. cbn [threads]. rewrite <- (work_perm _ _ _ HP2), (work_perm _ _ _ HP). cbn [map app].
    destruct Hw as [Hw | (-> & -> & o' & -> & Hr)]; [by left|]. right. split; [|eauto 8].
    unfold work. simpl. rewrite (retries_cost _ _ Hr). done.
Qed.

Definition locking (o : op) : bool :=
  match o with RS (rs_try _ | rs_relock _) | CON _ (con_try _) | DES _ (des_lock _) => true | _ => false end.
Definition waiting (o : op) : bool := match o with DES _ des_spin => true | _ => false end.

(** How far the local of an attempt is from the value of the free lock. *)
Definition near (m : mem) (cur : option Z) : nat :=
  match cur with
  | None => 1
  | Some z => if z =? _state m then 0 else if Z.land z locked =? 0 then 1 else 2
  end.
Definition dist (m : mem) (o : op) : nat :=
  match o with RS (rs_try cur | rs_relock cur) | CON _ (con_try cur) | DES _ (des_lock cur) => near m cur | _ => 0 end.

Lemma try_lock_nearer b m m' cur cur' : Z.land (_state m) locked = 0 ->
  _try_lock_unless_stopped false b m cur = Done (m', inl cur') -> (near m cur' < near m cur)%nat.
Proof.
  intros Hu E. unfold _try_lock_unless_stopped in E. unfold near. destruct cur as [z|].
  - destruct (Z.eqb_spec z idle) as [->|Hz]; cbn [negb] in E.
    + destruct (Z.eqb_spec (_state m) idle) as [Es|Es]; cbn [negb orb] in E; [done|]. injection E as _ <-. rewrite Z.eqb_refl.
      destruct (Z.eqb_spec idle (_state m)); [congruence|]. simpl. lia.
    + destruct (Z.eqb_spec (Z.land z stopped) 0); [|done]. cbn [negb] in E.
      destruct (Z.eqb_spec (Z.land z locked) 0) as [|Hl]; [done|]. injection E as _ <-.
      destruct (Z.eqb_spec z (_state m)) as [->|]; [done|]. lia.
  - injection E as _ <-. rewrite Z.eqb_refl. lia.
Qed.

Lemma lock_nearer m m' cur cur' : Z.land (_state m) locked = 0 ->
  _lock false m cur = (m', inl cur') -> (near m cur' < near m cur)%nat.
Proof.
  intros Hu E. unfold _lock in E. unfold near. destruct cur as [z|].
  - destruct (Z.eqb_spec (Z.land z locked) 0) as [Hl|Hl]; cbn [negb] in E.
    + destruct (Z.eqb_spec (_state m) z) as [Es|Es]; cbn [negb orb] in E; [done|]. injection E as _ <-. rewrite Z.eqb_refl.
      destruct (Z.eqb_spec z (_state m)); [congruence|]. lia.
    + injection E as _ <-. destruct (Z.eqb_spec z (_state m)) as [->|]; [done|]. lia.
  - injection E as _ <-. rewrite Z.eqb_refl. lia.
Qed.

Lemma retry_nearer t m o o' : locking o = true -> Z.land (_state m) locked = 0 ->
  op_step t false m o = Done (m, Some o') -> retries o o' -> (dist m o' < dist m o)%nat /\ locking o' = true.
Proof.
  intros Hl Hu E Hr. split; [|by destruct o as [[]|? []|? []], o' as [[]|? []|? []]].
  destruct o as [[]|? []|? []]; try discriminate Hl; simpl in E.
  - destruct (_try_lock_unless_stopped _ _ _ _) as [[m1 [cur'|[]]]| |] eqn:Et; try done; injection E as -> <-; [|done].
    by apply try_lock_nearer in Et.
  - destruct (_lock _ _ _) as [m1 [cur'|z]] eqn:Et; injection E as -> <-; [|done]. by apply lock_nearer in Et.
  - destruct (_try_lock_unless_stopped _ _ _ _) as [[m1 [cur'|[]]]| |] eqn:Et; try done; simpl in E.
    + injection E as -> <-. by apply try_lock_nearer in Et.
    + injection E as -> <-. done.
    + destruct (deref m1 c); [|done..]. by injection E as _ <-.
  - destruct (_lock _ _ _) as [m1 [cur'|z]] eqn:Et; injection E as -> <-; [|done]. by apply lock_nearer in Et.
Qed.

(** A thread that attempts to take the free lock succeeds, or gives up. *)
Lemma acquires k : forall s g t o rest, at_ghost s g -> threads s !! t = Some (o :: rest) -> locking o = true ->
  Z.land (_state (memory s)) locked = 0 -> (dist (memory s) o < k)%nat ->
  exists s' g', proceeds s s' /\ at_ghost s' g' /\ (left_to_do s' g' < left_to_do s g)%nat.
Proof.
  induction k as [|k IH]; intros s g t o rest Hs Et Hl Hu Hd; [lia|].
  destruct (proceed_step s g t o rest Hs Et) as (s' & g' & Ha & Hs' & [Hw | (Hw & Em & -> & o' & Eth & Hr & Eo)]).
  - exists s', g'. split; [|done]. by eapply proceeds_step; [exact Ha | apply proceeds_refl].
  - destruct (retry_nearer t _ o o' Hl Hu Eo Hr) as [Hn Hl'].
    destruct (IH s' g t o' rest Hs') as (s2 & g2 & Hp & Hs2 & Hw2); [|done|by rewrite Em|rewrite Em; lia|].
    + rewrite Eth. apply list_lookup_insert_eq. by eapply lookup_lt_Some.
    + exists s2, g2. split; [by eapply proceeds_step | split; [done|lia]].
Qed.

Definition top (f : op -> bool) (st : list op) : bool := match st with [] => false | o :: _ => f o end.

Lemma exists_top f ths : Exists (fun st => top f st = true) ths -> exists t o rest, ths !! t = Some (o :: rest) /\ f o = true.
Proof.
  intros (st & Hin & Hf)%Exists_exists. apply list_elem_of_lookup in Hin as [t Et]. destruct st as [|o rest]; [done|]. eauto 6.
Qed.

Lemma no_top f ths t o rest : ~ Exists (fun st => top f st = true) ths -> ths !! t = Some (o :: rest) -> f o = false.
Proof.
  intros Hn Et. destruct (f o) eqn:E; [|done]. destruct Hn. apply Exists_exists. exists (o :: rest).
  split; [by eapply list_elem_of_lookup_2 | done].
Qed.

(** When all threads attempt to lock or wait, nobody holds the lock. *)
Lemma unlocked_when s g : at_ghost s g ->
  (forall t o rest, threads s !! t = Some (o :: rest) -> locking o || waiting o = true) ->
  Z.land (_state (memory s)) locked = 0.
Proof.
  intros [Hst HI] Htops. assert (count holder (all_ops 0 (threads s)) = 0%nat) as Hc.
  { apply count_none, Forall_forall. intros [t o] Hin. apply all_ops_elem in Hin as (k & st & Ek & _ & Ho).
    pose proof (proj1 (Forall_lookup _ _) Hst k st Ek) as Hok. destruct st as [|o1 rest]; [by apply elem_of_nil in Ho|].
    apply elem_of_cons in Ho as [->|Ho].
    - specialize (Htops k o1 rest Ek). by destruct o1 as [[]|? []|? []].
    - unfold stack_ok in Hok. cbn [tail] in Hok. rewrite Forall_forall in Hok. specialize (Hok o Ho).
      by destruct o as [[]|? []|? []]. }
  rewrite (i_state _ _ _ HI), Hc. unfold stop_bit. by destruct (g_stop g).
Qed.

(** A destructor that waits for a callback waits for another thread that is in an
    operation. *)
Lemma waiter_done s g t c rest : at_ghost s g ->
  (forall t o rest, threads s !! t = Some (o :: rest) -> waiting o = true) ->
  threads s !! t = Some (DES c des_spin :: rest) ->
  exists cb, heap (memory s) !! c = Some cb /\ _exec_done cb = true.
Proof.
  intros [Hst HI] Htops Et. destruct (all_ops_at _ 0 t _ Et) as (L & HP & _ & _). simpl in HP.
  pose proof (inv_perm _ _ _ _ HP HI) as HI0. cbn [map app] in HI0.
  pose proof (self_ok _ _ _ _ HI0) as (Hl & _).
  destruct (owned_cb (memory s) _ g t _ c HI0 (bool_decide_eq_true_2 _ eq_refl)) as (cb & lf & E & El & Hcb & _).
  exists cb. split; [done|]. destruct (lives_is _ _ _ _ Hl El) as [-> | ->]; [|apply Hcb]. exfalso.
  destruct (busy_request _ _ g _ c HI0 eq_refl El) as (t' & p & Hin & _ & Hthr & _ & _).
  assert ((t', RS p) ∈ all_ops 0 (threads s)) as Hin' by (rewrite HP; by right).
  apply all_ops_elem in Hin' as (k & st & Ek & -> & Ho). destruct st as [|o2 rest2]; [by apply elem_of_nil in Ho|].
  pose proof (Htops k o2 rest2 Ek) as Hw. destruct (all_ops_at _ 0 k _ Ek) as (L2 & HP2 & _ & _). simpl in HP2.
  pose proof (i_ops _ _ _ (inv_perm _ _ _ _ HP2 HI)) as Hops. apply Forall_cons in Hops as [Hok _].
  destruct o2 as [|? []|? []]; try discriminate Hw. destruct Hok as [_ Hne]. done.
Qed.

Lemma progress s g : at_ghost s g -> ~ quiet s ->
  exists s' g', proceeds s s' /\ at_ghost s' g' /\ (left_to_do s' g' < left_to_do s g)%nat.
Proof.
  intros Hs Hq.
  destruct (decide (Exists (fun st => top (fun o => negb (locking o || waiting o)) st = true) (threads s))) as [Hf|Hf].
  { apply exists_top in Hf as (t & o & rest & Et & Ho).
    destruct (proceed_step s g t o rest Hs Et) as (s' & g' & Ha & Hs' & [Hw | (_ & _ & _ & o' & _ & Hr & _)]).
    - exists s', g'. split; [|done]. by eapply proceeds_step; [exact Ha | apply proceeds_refl].
    - exfalso. by destruct o as [[]|? []|? []]. }
  assert (forall t o rest, threads s !! t = Some (o :: rest) -> locking o || waiting o = true) as Htops.
  { intros t o rest Et. apply negb_false_iff. by apply (no_top (fun o => negb (locking o || waiting o)) _ _ _ _ Hf Et). }
  destruct (decide (Exists (fun st => top locking st = true) (threads s))) as [Hl|Hl].
  { apply exists_top in Hl as (t & o & rest & Et & Ho).
    apply (acquires (S (dist (memory s) o)) s g t o rest); [done..| |lia]. by eapply unlocked_when. }
  assert (forall t o rest, threads s !! t = Some (o :: rest) -> waiting o = true) as Hwait.
  { intros t o rest Et. specialize (Htops t o rest Et). by rewrite (no_top _ _ _ _ _ Hl Et) in Htops. }
  assert (exists t o rest, threads s !! t = Some (o :: rest)) as (t & o & rest & Et).
  { apply not_Forall_Exists in Hq; [|intros st; destruct st; [by left | by right]].
    apply Exists_exists in Hq as (st & Hin & Hne). apply list_elem_of_lookup in Hin as [t Et].
    destruct st as [|o rest]; [by destruct (Hne eq_refl) | eauto]. }
  pose proof (Hwait t o rest Et) as Hw. destruct o as [|? []|c []]; try discriminate Hw.
  destruct (waiter_done s g t c rest Hs Hwait Et) as (cb & E & Hdone).
  destruct (proceed_step s g t _ rest Hs Et) as (s' & g' & Ha & Hs' & [Hw' | (_ & _ & _ & o' & _ & Hr & Eo)]).
  - exists s', g'. split; [|done]. by eapply proceeds_step; [exact Ha | apply proceeds_refl].
  - exfalso. simpl in Eo. unfold deref in Eo. rewrite E in Eo. simpl in Eo. rewrite Hdone in Eo. by injection Eo as <-.
Qed.

Lemma proceeds_trans s s1 s2 : proceeds s s1 -> proceeds s1 s2 -> proceeds s s2.
Proof. induction 1; [done|]. intros H2. eapply proceeds_step; [done | auto]. Qed.

Lemma finishes n : forall s g, at_ghost s g -> (left_to_do s g < n)%nat -> exists s', proceeds s s' /\ quiet s'.
Proof.
  induction n as [|n IH]; intros s g Hs Hn; [lia|].
  destruct (decide (quiet s)) as [Hq|Hq]; [exists s; split; [apply proceeds_refl | done]|].
  destruct (progress s g Hs Hq) as (s1 & g1 & Hp & Hs1 & Hlt). destruct (IH s1 g1 Hs1 ltac:(lia)) as (s2 & Hp2 & Hq2).
  exists s2. split; [by eapply proceeds_trans | done].
Qed.

(** ** The theorems *)

(** The operation is in progress on the thread. *)
Definition in_progress (s : config) (t : nat) (o : op) : Prop := exists st, threads s !! t = Some st /\ o ∈ st.

Lemma in_progress_ok s g t o : at_ghost s g -> in_progress s t o -> op_ok (memory s) g (t, o) /\ (t, o) ∈ all_ops 0 (threads s).
Proof.
  intros [_ HI] (st & Et & Ho). destruct (all_ops_at _ 0 t st Et) as (L & HP & _ & _). simpl in HP.
  assert ((t, o) ∈ all_ops 0 (threads s)) as Hin.
  { rewrite HP. apply elem_of_app. left. by apply list_elem_of_fmap_2. }
  split; [|done]. pose proof (i_ops _ _ _ HI) as Hops. rewrite Forall_forall in Hops. by apply Hops.
Qed.

Lemma quiet_ops ths : forall n, Forall (fun st => st = []) ths -> all_ops n ths = [].
Proof. induction ths as [|st ths IH]; intros n H; [done|]. apply Forall_cons in H as [-> H]. simpl. by apply IH. Qed.

(** C7. Safety of stop sources, however many threads interleave [request_stop],
    constructors and destructors of callbacks, also from inside callbacks: no step
    accesses a destroyed callback or the flag of a request that ended, no
    assertion fails; at most one operation holds the lock; a callback that is
    running has not been destroyed, except by itself on the thread that runs it;
    and when all operations have returned and all callbacks are gone, the source can
    be destroyed. *)
Theorem source_safe n s : reachable n s ->
  (forall t ch res, act t ch s = Some res -> exists s', res = Done s') /\
  (count holder (all_ops 0 (threads s)) <= 1)%nat /\
  (forall t c, in_progress s t (RS (rs_running c)) ->
     is_Some (heap (memory s) !! c) \/ was_removed_during_exec (memory s) = Some true) /\
  (forall t c, in_progress s t (CON c con_running) -> is_Some (heap (memory s) !! c)) /\
  (quiet s -> heap (memory s) = ∅ -> destroy_source (memory s) = Done tt).
Proof.
  intros Hr. pose proof (reachable_safe n s Hr) as Hs. split; [|split; [|split; [|split]]].
  - intros t ch res Ha. destruct (act_safe t ch s res Hs Ha) as (s' & -> & _). by exists s'.
  - destruct Hs as [_ [g HI]]. apply (i_lock _ _ _ HI).
  - intros t c Hp. destruct Hs as [Hst [g HI]]. destruct (in_progress_ok s g t _ (conj Hst HI) Hp) as [(_ & _ & Hok) _].
    destruct (was_removed_during_exec (memory s)) as [[]|]; [by right | | done]. left. destruct Hok as [_ (cb & -> & _)]. done.
  - intros t c Hp. destruct Hs as [Hst [g HI]]. destruct (in_progress_ok s g t _ (conj Hst HI) Hp) as [((cb & -> & _) & _) _]. done.
  - intros Hq Hh. destruct Hs as [_ [g HI]]. rewrite (quiet_ops _ 0 Hq) in HI. unfold destroy_source.
    pose proof (i_state _ _ _ HI) as Es. pose proof (i_chain _ _ _ HI) as Hch. simpl in Es.
    replace (Z.land (_state (memory s)) locked) with 0 by (rewrite Es; unfold stop_bit; by destruct (g_stop g)). simpl.
    destruct (g_list g) as [|c l]; [by apply chain_nil in Hch as ->|].
    destruct (chain_member _ _ _ _ c Hch ltac:(by left)) as [cb E]. rewrite Hh, lookup_empty in E. done.
Qed.

(** C21. Callbacks: no callback runs twice; at most one request returns [true];
    before a stop is requested no live callback has run, and once the request has
    returned [true] every live callback whose constructor has returned has run. *)
Theorem callbacks_run_once n s : reachable n s ->
  NoDup (executed (memory s)) /\ (issued (memory s) <= 1)%nat /\
  (stop_requested (memory s) = false -> forall c, c ∈ ready (memory s) -> c ∉ executed (memory s)) /\
  (issued (memory s) = 1%nat -> forall c, c ∈ ready (memory s) -> c ∈ executed (memory s)).
Proof.
  intros Hr. destruct (reachable_safe n s Hr) as [Hst [g HI]]. pose proof (i_request _ _ _ HI) as Hreq.
  assert (forall c, c ∈ ready (memory s) -> exists lf, g_life g !! c = Some lf /\ (lf = Inline \/ registered lf)) as Hlife.
  { intros c Hc. destruct (i_ready _ _ _ HI c Hc) as [[_ (lf & E & <-)] | [_ (lf & E & H)]]; eauto. }
  split; [apply (i_once _ _ _ HI)|]. split; [destruct (g_stop g); simpl in Hreq; lia|]. split.
  - intros Hz c Hc. destruct (Hlife c Hc) as (lf & E & Hlf). assert (g_stop g = false) as Hgs.
    { unfold stop_requested in Hz. rewrite (i_state _ _ _ HI) in Hz. pose proof (i_lock _ _ _ HI) as Hk. unfold stop_bit in Hz.
      destruct (g_stop g); [|done]. by destruct (count holder _) as [|[|]]; [| |lia]. }
    pose proof (i_exec _ _ _ HI c lf E) as Hex. destruct (i_before _ _ _ HI Hgs c) as [Hl|Hn]; [|congruence].
    pose proof (lives_is _ _ _ _ Hl E) as Hearly. simpl in Hearly. unfold registered in Hlf.
    destruct Hearly as [-> | [-> | ->]]; [done | done |]. naive_solver.
  - intros Hi c Hc. destruct (Hlife c Hc) as (lf & E & Hlf). pose proof (i_exec _ _ _ HI c lf E) as Hex.
    assert (g_stop g = true /\ count active (all_ops 0 (threads s)) = 0%nat) as [Hgs Ha].
    { destruct (g_stop g); simpl in Hreq; split; (done || lia). }
    destruct Hlf as [-> | [-> | [-> | ->]]]; [done | | | done].
    + apply (i_linked _ _ _ HI) in E. rewrite (i_finished _ _ _ HI Hgs Ha) in E. by apply elem_of_nil in E.
    + apply (i_busy _ _ _ HI), Exists_exists in E as (x & Hx & Hn). exfalso. apply count_none in Ha. rewrite Forall_forall in Ha.
      specialize (Ha x Hx). by destruct x as [t [[]| |]].
Qed.

(** C22. Progress of stop sources: from every configuration that can be reached, if
    no further operation is called and the callbacks that run return, there are
    steps after which all operations of all threads have returned; no thread waits
    for the lock or for a callback for ever, whatever the others were doing. *)
Theorem operations_finish n s : reachable n s -> exists s', proceeds s s' /\ quiet s'.
Proof. intros Hr. destruct (reachable_safe n s Hr) as [Hst [g HI]]. apply (finishes (S (left_to_do s g)) s g (conj Hst HI)). lia. Qed.

(** ** A concrete run *)

Lemma run_reachable n sched : forall s s', reachable n s -> run sched s = Some (Done s') -> reachable n s'.
Proof.
  induction sched as [|[t ch] sched IH]; intros s s' Hr E; simpl in E; [by injection E as <-|].
  destruct (act t ch s) as [[s1| |]|] eqn:Ea; try done. by apply (IH s1); [eapply reach_step|].
Qed.

Definition go : choice := proceed false.

(** Thread 0 constructs two callbacks; thread 1 requests the stop and runs the
    second one, which thread 0 destroys meanwhile: it waits. *)
Definition two_threads : list (nat * choice) :=
  [(0%nat, call_construct 1%nat)] ++ repeat (0%nat, go) 5 ++ [(0%nat, call_construct 2%nat)] ++ repeat (0%nat, go) 5 ++
  [(1%nat, call_request_stop)] ++ repeat (1%nat, go) 6 ++ [(0%nat, call_destroy 2%nat)] ++ repeat (0%nat, go) 7.

Definition busy_config : config :=
  match run two_threads (initial 2) with Some (Done s) => s | _ => initial 2 end.

Lemma busy_reachable : reachable 2 busy_config.
Proof. apply (run_reachable 2 two_threads (initial 2)); [apply reach_initial | vm_compute; reflexivity]. Qed.

Example busy_threads : threads busy_config = [[DES 2%nat des_spin]; [RS (rs_running 2%nat)]].
Proof. vm_compute. reflexivity. Qed.

Lemma source_safe_witness :
  in_progress busy_config 1 (RS (rs_running 2%nat)) /\ is_Some (heap (memory busy_config) !! 2%nat).
Proof.
  destruct (source_safe 2 busy_config busy_reachable) as (_ & _ & H & _).
  assert (in_progress busy_config 1 (RS (rs_running 2%nat))) as Hp by (exists [RS (rs_running 2%nat)]; split; [vm_compute; reflexivity | by left]).
  split; [exact Hp|]. destruct (H 1%nat 2%nat Hp) as [Hs|Hs]; [exact Hs | vm_compute in Hs; discriminate Hs].
Defined.

Lemma operations_finish_witness : exists s', proceeds busy_config s' /\ quiet s'.
Proof. exact (operations_finish 2 busy_config busy_reachable). Defined.

(** The callback returns, the destructor ends, the other callback runs. *)
Definition stopped_config : config :=
  match run (repeat (1%nat, go) 3 ++ repeat (0%nat, go) 2 ++ repeat (1%nat, go) 12) busy_config with
  | Some (Done s) => s
  | _ => busy_config
  end.

Lemma stopped_reachable : reachable 2 stopped_config.
Proof.
  apply (run_reachable 2 (repeat (1%nat, go) 3 ++ repeat (0%nat, go) 2 ++ repeat (1%nat, go) 12) busy_config);
    [apply busy_reachable | vm_compute; reflexivity].
Qed.

Lemma callbacks_run_once_witness :
  threads stopped_config = [[]; []] /\ issued (memory stopped_config) = 1%nat /\ 1%nat ∈ ready (memory stopped_config) /\
  1%nat ∈ executed (memory stopped_config).
Proof.
  destruct (callbacks_run_once 2 stopped_config stopped_reachable) as (_ & _ & _ & H).
  assert (issued (memory stopped_config) = 1%nat) as Hi by (vm_compute; reflexivity).
  assert (1%nat ∈ ready (memory stopped_config)) as Hr by (apply (bool_decide_unpack _); vm_compute; exact Logic.I).
  split; [vm_compute; reflexivity|]. split; [exact Hi|]. split; [exact Hr|]. exact (H Hi 1%nat Hr).
Defined.
