(* ===== verification/Tls.v ===== *)
(** * TLS streams

    [src/amongoc/tls/detail/stream_base.hpp], [stream_base.cpp] and
    [tls/stream.hpp]: an operation (connect, read, write) drives the OpenSSL engine,
    moves the bytes of its BIO over the wrapped stream, and re-enters when the
    wrapped stream has completed.  [Module OpenSSL] is the interface of the engine, [step]
    the events of the program; [TlsSpec.v] has what they guarantee. *)
From Stdlib Require Import ZArith Lia.
From Stdlib Require Import Strings.Byte.
From stdpp Require Import base numbers list gmap.
From S2P Require Import Prelude.
From S2P Require Import Status.
Open Scope Z_scope.
Open Scope outcome_scope.

Abbreviation bytes := (list byte).

(** ** The engine

    The OpenSSL functions that the stream calls, on a state that holds the [::SSL]
    object with its pair of BIOs, the error queue of the thread, and [errno]. *)

Inductive ssl_error : Type :=
| SSL_ERROR_NONE | SSL_ERROR_SSL | SSL_ERROR_WANT_READ | SSL_ERROR_WANT_WRITE
| SSL_ERROR_SYSCALL | SSL_ERROR_ZERO_RETURN | SSL_ERROR_other (code : Z).

Class Engine (E : Type) : Type := {
  SSL_connect : E -> Z * E;
  (** The bytes are those stored in the buffer. *)
  SSL_read : E -> Z -> Z * bytes * E;
  (** The buffer, and the number that is passed. *)
  SSL_write : E -> bytes -> Z -> Z * E;
  SSL_get_error : E -> Z -> ssl_error;
  SSL_want_read : E -> bool;
  SSL_set_tlsext_host_name : E -> list byte -> Z * E;
  BIO_write : E -> bytes -> Z * E;
  BIO_ctrl_pending : E -> Z;
  BIO_read : E -> Z -> Z * bytes * E;
  ERR_get_error : E -> Z * E;
  ERR_clear_error : E -> E;
  errno : E -> Z;
  (** What a system call leaves. *)
  set_errno : E -> Z -> E }.

(** What the OpenSSL manual says of the results: the functions that transfer data
    return the number of bytes when they succeed, which is at most the number asked
    for, and move nothing otherwise; [BIO_read] of a memory BIO gives all that is
    pending when there is room for it. *)
Class EngineOk (E : Type) `{Engine E} : Prop := {
  ssl_write_some : forall e data num, 0 < (SSL_write e data num).1 -> (SSL_write e data num).1 <= num;
  ssl_read_some : forall e num, 0 < (SSL_read e num).1.1 ->
    zlen (SSL_read e num).1.2 = (SSL_read e num).1.1 /\ (SSL_read e num).1.1 <= num;
  ssl_read_none : forall e num, (SSL_read e num).1.1 <= 0 -> (SSL_read e num).1.2 = [];
  bio_write_some : forall e data, (BIO_write e data).1 <= zlen data;
  bio_pending : forall e, 0 <= BIO_ctrl_pending e <= INT32_MAX;
  bio_read_all : forall e, (BIO_read e (BIO_ctrl_pending e)).1.1 = BIO_ctrl_pending e /\
    zlen (BIO_read e (BIO_ctrl_pending e)).1.2 = BIO_ctrl_pending e }.

(** ** State *)

(** [connect_op_base], [read_operation], [write_operation]. *)
Inductive kind : Type := op_connect | op_read | op_write.
#[export] Instance kind_eq_dec : EqDecision kind.
Proof. solve_decision. Defined.

(** [operation_base] and its transfer state: the buffer sequence with its contents. *)
Record operation : Type := mk_operation {
  op_kind : kind;
  _buffers : list bytes;
  _n_transferred : Z }.

Abbreviation op_id := nat.

(** The members of [stream_base]; the operation that [_live_operation] owns is named. *)
Record stream_base (E : Type) : Type := mk_stream {
  _ssl : E;
  _live_operation : option op_id;
  _pending_output : bytes;
  _pending_input : bytes }.
Arguments mk_stream {E} _ssl _live_operation _pending_output _pending_input.
Arguments _ssl {E} s.
Arguments _live_operation {E} s.
Arguments _pending_output {E} s.
Arguments _pending_input {E} s.

(** The history of a run: what went through the BIO, through the wrapped stream, and
    between the engine and the buffers of an operation; what was started and completed.  [Overwritten] is input that the
    engine had not taken when its place was given to the next read. *)
Inductive event : Type :=
| Started (k : kind) (bufs : list bytes)
| Fed (bs : bytes)
| Overwritten (bs : bytes)
| Taken (bs : bytes)
| Sent (bs : bytes)
| Received (bs : bytes)
| Moved (bs : bytes)
| Completed (op : operation) (ec : error_code).

(** [std::error_code] converted to [bool]. *)
Definition is_set (ec : error_code) : bool := negb (ec_value ec =? 0).
(** [std::error_code()], which [{}] makes. *)
Definition no_error : error_code := mk_error_code (cxx_known system) 0.

(** [_io_callback::is_read]: which transfer of the wrapped stream was started. *)
Inductive io : Type := do_write_some | do_read_some.
#[export] Instance io_eq_dec : EqDecision io.
Proof. solve_decision. Defined.

(** What [reenter] ends with. *)
Inductive verdict : Type := complete (ec : error_code) | wait (i : io).

Section Stream.
Context {E : Type} `{Engine E} (X : externals) (EIO : Z).

Definition with_ssl (s : stream_base E) (e : E) : stream_base E :=
  mk_stream e (_live_operation s) (_pending_output s) (_pending_input s).
Definition with_output (s : stream_base E) (bs : bytes) : stream_base E :=
  mk_stream (_ssl s) (_live_operation s) bs (_pending_input s).
Definition with_input (s : stream_base E) (bs : bytes) : stream_base E :=
  mk_stream (_ssl s) (_live_operation s) (_pending_output s) bs.
Definition with_live (s : stream_base E) (l : option op_id) : stream_base E :=
  mk_stream (_ssl s) l (_pending_output s) (_pending_input s).

(** [std::error_code(e, tls_category())]: the code is narrowed to [int]. *)
Definition tls_code (e : Z) : error_code := mk_error_code (cxx_known tls) (s32 e).

(** ** Transfers *)

(** [first_nonempty]: what is left of the first buffer that was not transferred in full. *)
Fixpoint first_nonempty (bufseq : list bytes) (remaining_skip : Z) : bytes :=
  match bufseq with
  | [] => []
  | one_buffer :: bufseq =>
    if zlen one_buffer <=? remaining_skip then first_nonempty bufseq (remaining_skip - zlen one_buffer)
    else drop (Z.to_nat remaining_skip) one_buffer
  end.

(** The bytes [data] stored at position [pos] of the buffers. *)
Fixpoint store_at (bufseq : list bytes) (pos : Z) (data : bytes) : outcome (list bytes) :=
  match bufseq with
  | [] => match data with [] => Done [] | _ => Undef end
  | one_buffer :: rest =>
    if zlen one_buffer <=? pos
    then omap_outcome (cons one_buffer) (store_at rest (pos - zlen one_buffer) data)
    else if pos + zlen data <=? zlen one_buffer
    then Done ((take (Z.to_nat pos) one_buffer ++ data ++ drop (Z.to_nat (pos + zlen data)) one_buffer) :: rest)
    else Undef
  end.

(** [_transfer_more(bufseq, ssl_transfer)] of [SSL_write]: the number of bytes, or zero, or a negative SSL
    error; the engine, the operation, and what the engine took. *)
Definition write_more (e : E) (op : operation) : Z * E * operation * list event :=
  let one_buffer := first_nonempty (_buffers op) (_n_transferred op) in
  if zlen one_buffer =? 0 then (0, e, op, [])
  else
    let '(n_transfer, e) := SSL_write e one_buffer (s32 (zlen one_buffer)) in
    if 0 <? n_transfer
    then (n_transfer, e, mk_operation (op_kind op) (_buffers op) (_n_transferred op + n_transfer),
          [Moved (take (Z.to_nat n_transfer) one_buffer)])
    else (n_transfer, e, op, []).

(** The same with [SSL_read], that stores into the buffer. *)
Definition read_more (e : E) (op : operation) : outcome (Z * E * operation * list event) :=
  let one_buffer := first_nonempty (_buffers op) (_n_transferred op) in
  if zlen one_buffer =? 0 then Done (0, e, op, [])
  else
    let '(n_transfer, data, e) := SSL_read e (s32 (zlen one_buffer)) in
    let* bufs := store_at (_buffers op) (_n_transferred op) data in
    if 0 <? n_transfer
    then Done (n_transfer, e, mk_operation (op_kind op) bufs (_n_transferred op + n_transfer), [Moved data])
    else Done (n_transfer, e, mk_operation (op_kind op) bufs (_n_transferred op), []).

Definition do_ssl_operation (e : E) (op : operation) : outcome (Z * E * operation * list event) :=
  match op_kind op with
  | op_connect => let '(r, e) := SSL_connect e in Done (r, e, op, [])
  | op_write => Done (write_more e op)
  | op_read => read_more e op
  end.

(** ** [reenter] *)

(** The error code that the [switch] chooses. *)
Definition ssl_error_code (ssl_err : ssl_error) (eno sys_err : Z) : error_code :=
  match ssl_err with
  | SSL_ERROR_WANT_READ | SSL_ERROR_WANT_WRITE | SSL_ERROR_NONE => no_error
  | SSL_ERROR_SYSCALL => mk_error_code (cxx_known system) eno
  | SSL_ERROR_SSL => tls_code sys_err
  | SSL_ERROR_ZERO_RETURN => mk_error_code (cxx_known generic) EIO
  | SSL_ERROR_other _ => mk_error_code (cxx_known generic) (EPROTO X)
  end.

(** The pending input is fed to the engine: the error that ends the operation, if any. *)
Definition feed (s : stream_base E) : option error_code * stream_base E * list event :=
  match _pending_input s with
  | [] => (None, s, [])
  | data =>
    let '(n_given, e) := BIO_write (_ssl s) data in
    if n_given <? 0
    then let '(code, e) := ERR_get_error e in (Some (tls_code code), with_ssl s e, [])
    else (None, with_input (with_ssl s e) (drop (Z.to_nat n_given) data), [Fed (take (Z.to_nat n_given) data)])
  end.

(** [std::string::resize(n)]. *)
Definition resize (bs : bytes) (n : nat) : bytes := take n bs ++ replicate (n - length bs) x00.

(** The string is the buffer of the read: what it still holds is written over, or cut off when the read completes. *)
Definition overwritten (bs : bytes) : list event := match bs with [] => [] | _ => [Overwritten bs] end.

(** After the engine has worked: its output is sent, or it is given input, or the
    operation is done. *)
Definition transmit (s : stream_base E) (ec : error_code) : outcome (stream_base E * verdict * list event) :=
  let n_pending := BIO_ctrl_pending (_ssl s) in
  if negb (n_pending =? 0) then
    let '(nbytes, bs, e) := BIO_read (_ssl s) (s32 n_pending) in
    assert! (nbytes =? s32 n_pending) in
    Done (with_output (with_ssl s e) (_pending_output s ++ bs), wait do_write_some, [Taken bs])
  else if SSL_want_read (_ssl s) then
    Done (with_input s (resize (_pending_input s) 1024), wait do_read_some, overwritten (_pending_input s))
  else Done (s, complete ec, []).

Definition reenter (s : stream_base E) (op : operation) (ec : error_code)
  : outcome (stream_base E * operation * verdict * list event) :=
  if is_set ec then Done (s, op, complete ec, [])
  else match feed s with
  | (Some ec, s, evs) => Done (s, op, complete ec, evs)
  | (None, s, evs) =>
    let* (op_result, e, op, evs') := do_ssl_operation (ERR_clear_error (_ssl s)) op in
    let ssl_err := SSL_get_error e op_result in
    let eno := errno e in
    let '(sys_err, e) := ERR_get_error e in
    let s := with_ssl s e in
    let ec := ssl_error_code ssl_err eno (s32 sys_err) in
    if is_set ec then Done (s, op, complete ec, evs ++ evs')
    else
      let* (s, v, evs'') := transmit s ec in
      Done (s, op, v, evs ++ evs' ++ evs'')
  end.

(** ** The program

    The operation objects that are alive, the transfers of the wrapped stream in
    flight, and the history. *)
Record machine : Type := mk_machine {
  m_stream : stream_base E;
  m_ops : gmap op_id operation;
  m_io : list (op_id * io);
  m_next : op_id;
  m_log : list event }.

(** [operation_base::complete]: [_live_operation] is moved out, and destroyed when the handler
    has returned.  The object of a connect operation belongs to its creator, who may destroy it from
    then on. *)
Definition finish (m : machine) (s : stream_base E) (id : op_id) (op : operation) (ec : error_code) (evs : list event) : machine :=
  let ops := match _live_operation s with Some l => delete l (m_ops m) | None => m_ops m end in
  mk_machine (with_live s None) (delete id ops) (m_io m) (m_next m) (m_log m ++ evs ++ [Completed op ec]).

(** [reenter] of the operation [id]. *)
Definition run_reenter (m : machine) (id : op_id) (ec : error_code) : outcome machine :=
  match m_ops m !! id with
  | None => Undef
  | Some op =>
    let* (s, op, v, evs) := reenter (m_stream m) op ec in
    match v with
    | complete ec => Done (finish m s id op ec evs)
    | wait i => Done (mk_machine s (<[id := op]> (m_ops m)) ((id, i) :: m_io m) (m_next m) (m_log m ++ evs))
    end
  end.

(** An operation object is made. *)
Definition create (m : machine) (live : bool) (k : kind) (bufs : list bytes) : machine :=
  mk_machine (if live then with_live (m_stream m) (Some (m_next m)) else m_stream m)
    (<[m_next m := mk_operation k bufs 0]> (m_ops m)) (m_io m) (S (m_next m)) (m_log m ++ [Started k bufs]).

(** [_assert_no_outstanding_io]. *)
Definition no_outstanding_io (m : machine) : bool := bool_decide (_live_operation (m_stream m) = None).

(** [async_write_some] and [async_read_some]. *)
Definition async_some (k : kind) (m : machine) (bufs : list bytes) : outcome machine :=
  assert! (no_outstanding_io m) in run_reenter (create m true k bufs) (m_next m) no_error.
Definition async_write_some := async_some op_write.
Definition async_read_some := async_some op_read.

(** [connect()], connected and started. *)
Definition connect (m : machine) : outcome machine :=
  run_reenter (create m false op_connect []) (m_next m) no_error.

(** [io_callback]: the wrapped stream has completed, with [nbytes] read. *)
Definition io_callback (m : machine) (id : op_id) (is_read : bool) (ec : error_code) (nbytes : Z) : outcome machine :=
  let s := m_stream m in
  let s := if is_read then with_input s (resize (_pending_input s) (Z.to_nat nbytes)) else s in
  run_reenter (mk_machine s (m_ops m) (m_io m) (m_next m) (m_log m)) id ec.

(** The completion of [asio::async_write(next_layer(), dynamic_buffer(_pending_output), transfer_at_least(1))]:
    [n] bytes were transmitted, and trimmed from the front; [eno] is what the system calls left in
    [errno]. *)
Definition on_written (m : machine) (id : op_id) (n : nat) (ec : error_code) (eno : Z) : outcome machine :=
  let s := m_stream m in
  let s' := with_output (with_ssl s (set_errno (_ssl s) eno)) (drop n (_pending_output s)) in
  io_callback
    (mk_machine s' (m_ops m) (list_difference (m_io m) [(id, do_write_some)]) (m_next m)
       (m_log m ++ [Sent (take n (_pending_output s))]))
    id false ec 0.

(** The completion of [asio::async_read(next_layer(), buffer(_pending_input), transfer_at_least(1))]: the
    bytes [bs] were stored at the front of the string. *)
Definition on_read (m : machine) (id : op_id) (bs : bytes) (ec : error_code) (eno : Z) : outcome machine :=
  let s := m_stream m in
  let s' := with_input (with_ssl s (set_errno (_ssl s) eno)) (bs ++ drop (length bs) (_pending_input s)) in
  io_callback
    (mk_machine s' (m_ops m) (list_difference (m_io m) [(id, do_read_some)]) (m_next m) (m_log m ++ [Received bs]))
    id true ec (zlen bs).

(** What Asio promises of the two compositions: at least a byte without an error, and
    never more than the buffer.  When the wrapped stream is not [short] it takes all of it. *)
Definition at_least_one (ec : error_code) (n size : nat) : Prop :=
  (n <= size)%nat /\ (is_set ec = false -> (1 <= n)%nat).
Definition takes (short : bool) (ec : error_code) (n size : nat) : Prop :=
  short = false -> is_set ec = false -> n = size.

(** The events of the program.  An operation on the stream is started when there is none, as the class
    requires ([step_connect], [step_some]). *)
Inductive step (short : bool) (m : machine) : outcome machine -> Prop :=
| step_connect : m_ops m = ∅ -> step short m (connect m)
| step_some k bufs : m_ops m = ∅ -> k <> op_connect -> step short m (async_some k m bufs)
| step_written id n ec eno : (id, do_write_some) ∈ m_io m -> at_least_one ec n (length (_pending_output (m_stream m))) ->
    takes short ec n (length (_pending_output (m_stream m))) ->
    step short m (on_written m id n ec eno)
| step_read id bs ec eno : (id, do_read_some) ∈ m_io m -> at_least_one ec (length bs) (length (_pending_input (m_stream m))) ->
    step short m (on_read m id bs ec eno).

(** The constructor, with the engine that [SSL_new] gave. *)
Definition stream_init (e : E) : machine := mk_machine (mk_stream e None [] []) ∅ [] 0 [].

Inductive reachable (short : bool) (e : E) : machine -> Prop :=
| reach_init : reachable short e (stream_init e)
| reach_step m m' : reachable short e m -> step short m (Done m') -> reachable short e m'.

(** [set_server_name]. *)
Definition set_server_name (s : stream_base E) (sn : list byte) : error_code * stream_base E :=
  let '(ec, e) := SSL_set_tlsext_host_name (_ssl s) sn in
  if ec =? 0 then let '(code, e) := ERR_get_error e in (tls_code code, with_ssl s e) else (no_error, with_ssl s e).

End Stream.

(** ** Verification of the peer *)

Section Verify.
Abbreviation cb_id := nat.

(** What the [::SSL] object keeps for the verification: its mode, the C callback (that of
    [_replace_ssl_verify] is the only one there is), the application data, which is the callback object; and the
    callback objects that are alive. *)
Record verification : Type := mk_verification {
  verify_mode : Z;
  verify_callback : bool;
  app_data : option cb_id;
  callbacks : gset cb_id }.

(** [verify_callback_base::do_verify] of an object. *)
Context (do_verify : cb_id -> bool -> Z).

(** [delete] of a callback object or of the null pointer. *)
Definition delete_callback (cb : option cb_id) (alive : gset cb_id) : outcome (gset cb_id) :=
  match cb with
  | None => Done alive
  | Some cb => if bool_decide (cb ∈ alive) then Done (alive ∖ {[cb]}) else Undef
  end.

Definition set_verify_mode (v : verification) (mode : Z) : error_code * verification :=
  (no_error, mk_verification mode (verify_callback v) (app_data v) (callbacks v)).

Definition _replace_ssl_verify (v : verification) (cb : cb_id) : outcome (error_code * verification) :=
  let* alive := delete_callback (app_data v) (callbacks v) in
  Done (no_error, mk_verification (verify_mode v) true (Some cb) alive).

(** [set_verify_callback(fn)] with a new object [cb]. *)
Definition set_verify_callback (v : verification) (cb : cb_id) : outcome (error_code * verification) :=
  _replace_ssl_verify (mk_verification (verify_mode v) (verify_callback v) (app_data v) (callbacks v ∪ {[cb]})) cb.

(** The C callback: [ctx] is the certificate store context, with the [::SSL] handle in its
    data. *)
Definition ssl_verifiy_cb (v : verification) (preverified : Z) (ctx : option bool) : outcome Z :=
  match ctx with
  | None => Done 0
  | Some ssl =>
    if negb ssl then Done 0 else
    match app_data v with
    | None => Done 0
    | Some cb => if bool_decide (cb ∈ callbacks v) then Done (do_verify cb (negb (preverified =? 0))) else Undef
    end
  end.

(** [~stream_base]. *)
Definition destroy_stream_base (v : verification) : outcome (gset cb_id) :=
  delete_callback (app_data v) (callbacks v).

(** A setting of the stream, with the object it makes. *)
Inductive setting : Type := mode_is (mode : Z) | callback_is (cb : cb_id).

Fixpoint configure (v : verification) (l : list setting) : outcome verification :=
  match l with
  | [] => Done v
  | mode_is mode :: l => configure (set_verify_mode v mode).2 l
  | callback_is cb :: l => let* (_, v) := set_verify_callback v cb in configure v l
  end.

End Verify.
