(* ===== verification/TlsSpec.v ===== *)
(** * What TLS streams guarantee

    Over every run of [Tls.step]: no operation is re-entered after it was destroyed, the wrapped
    stream sees one transfer at a time, the ciphertext keeps its order, and the
    number of bytes that an operation reports are those that the engine moved.  Runs
    on a small engine show where the code departs from this. *)
From Stdlib Require Import ZArith Lia.
From Stdlib Require Import Strings.Byte.
From stdpp Require Import base numbers list gmap.
From S2P Require Import Prelude.
From S2P Require Import Status.
From S2P Require Import Tls.
Open Scope Z_scope.
Open Scope outcome_scope.

(** ** Buffer sequences *)

Lemma s32_le z : 0 <= z -> s32 z <= z.
Proof. unfold s32, u32. case_match; divlia. Qed.

Lemma drop_concat_skip (b : bytes) (n : Z) (l : list bytes) :
  zlen b <= n -> drop (Z.to_nat n) (concat (b :: l)) = drop (Z.to_nat (n - zlen b)) (concat l).
Proof.
  intros Hn. pose proof (zlen_nonneg b). simpl. rewrite drop_app_ge by (unfold zlen in *; lia). f_equal. unfold zlen in *. lia.
Qed.

(** What [first_nonempty] gives is the next bytes of the sequence, none only at its end. *)
Lemma first_nonempty_spec bufs : forall n, 0 <= n -> exists tail,
  drop (Z.to_nat n) (concat bufs) = first_nonempty bufs n ++ tail /\
  (first_nonempty bufs n = [] -> zlen (concat bufs) <= n).
Proof.
  induction bufs as [|b bufs IH]; intros n Hn; simpl first_nonempty.
  { exists []. simpl. by rewrite drop_nil. }
  pose proof (zlen_nonneg b). destruct (Z.leb_spec (zlen b) n) as [Hb|Hb].
  - destruct (IH (n - zlen b)) as (tail & E & Hz); [lia|]. exists tail. rewrite drop_concat_skip by done.
    split; [exact E|]. intros Hf. apply Hz in Hf. simpl. rewrite zlen_app. lia.
  - exists (concat bufs). simpl. rewrite drop_app_le by (unfold zlen in *; lia). split; [done|].
    intros Hf%(f_equal length). rewrite length_drop in Hf. unfold zlen in *. simpl in Hf. lia.
Qed.

Lemma first_nonempty_take bufs n k : 0 <= n -> 0 <= k <= zlen (first_nonempty bufs n) ->
  take (Z.to_nat (n + k)) (concat bufs) = take (Z.to_nat n) (concat bufs) ++ take (Z.to_nat k) (first_nonempty bufs n).
Proof.
  intros Hn Hk. destruct (first_nonempty_spec bufs n Hn) as (tail & E & _).
  rewrite Z2Nat.inj_add by lia. rewrite <- take_take_drop, E. by rewrite take_app_le by (unfold zlen in *; lia).
Qed.

Lemma first_nonempty_room bufs n : 0 <= n <= zlen (concat bufs) -> n + zlen (first_nonempty bufs n) <= zlen (concat bufs).
Proof.
  intros Hn. destruct (first_nonempty_spec bufs n) as (tail & E & _); [lia|]. apply (f_equal length) in E.
  rewrite length_drop, length_app in E. unfold zlen in *. lia.
Qed.

Lemma store_at_nil bufs : forall n, 0 <= n -> store_at bufs n [] = Done bufs.
Proof.
  induction bufs as [|b bufs IH]; intros n Hn; [done|]. simpl. pose proof (zlen_nonneg b).
  destruct (Z.leb_spec (zlen b) n); [by rewrite IH by lia|]. rewrite zlen_nil.
  destruct (Z.leb_spec (n + 0) (zlen b)); [|lia]. by rewrite Z.add_0_r, take_drop.
Qed.

(** What is stored replaces as many bytes of the sequence, whose buffers keep their
    sizes. *)
Lemma store_at_spec data bufs : forall n, 0 <= n -> zlen data <= zlen (first_nonempty bufs n) -> exists bufs',
  store_at bufs n data = Done bufs' /\ length <$> bufs' = length <$> bufs /\
  (data <> [] -> concat bufs' = take (Z.to_nat n) (concat bufs) ++ data ++ drop (Z.to_nat (n + zlen data)) (concat bufs)).
Proof.
  induction bufs as [|b bufs IH]; intros n Hn Hd; simpl in *.
  { rewrite zlen_nil in Hd. destruct data; [|zlens; simpl in *; lia]. by exists []. }
  pose proof (zlen_nonneg b). pose proof (zlen_nonneg data). destruct (Z.leb_spec (zlen b) n) as [Hb|Hb].
  - destruct (IH (n - zlen b)) as (bufs' & -> & Hl & Hc); [lia|done|]. exists (b :: bufs'). split; [done|].
    split; [simpl; f_equal; exact Hl|]. intros Hne. simpl. rewrite Hc by done.
    rewrite take_app_ge, drop_app_ge by (unfold zlen in *; lia). rewrite <- !app_assoc. repeat f_equal; unfold zlen in *; lia.
  - assert (n + zlen data <= zlen b) as Hs.
    { unfold zlen in *. rewrite length_drop in Hd. lia. }
    destruct (Z.leb_spec (n + zlen data) (zlen b)); [|lia]. eexists. split; [done|]. simpl. split.
    + f_equal. rewrite !length_app, length_take, length_drop. unfold zlen in *. lia.
    + intros _. rewrite take_app_le, drop_app_le by (unfold zlen in *; lia). by rewrite <- !app_assoc.
Qed.

(** ** The history *)

Definition sent (ev : event) : bytes := match ev with Sent bs => bs | _ => [] end.
Definition taken (ev : event) : bytes := match ev with Taken bs => bs | _ => [] end.
Definition received (ev : event) : bytes := match ev with Received bs => bs | _ => [] end.
(** Input that has left the string of the stream: fed to the engine, or written over. *)
Definition consumed (ev : event) : bytes := match ev with Fed bs | Overwritten bs => bs | _ => [] end.

(** The bytes of the events of a sort, in order. *)
Definition all_of (f : event -> bytes) (log : list event) : bytes := concat (f <$> log).

Lemma all_of_app f l k : all_of f (l ++ k) = all_of f l ++ all_of f k.
Proof. unfold all_of. by rewrite fmap_app, concat_app. Qed.

Lemma all_of_cons f ev l : all_of f (ev :: l) = f ev ++ all_of f l.
Proof. done. Qed.

Lemma all_of_snoc f l ev : f ev = [] -> all_of f (l ++ [ev]) = all_of f l.
Proof. intros Hev. rewrite all_of_app, all_of_cons, Hev. apply app_nil_r. Qed.

(** The operation that was started last, and what the engine moved since. *)
Definition since1 (acc : option (kind * list bytes) * bytes) (ev : event) : option (kind * list bytes) * bytes :=
  match ev with
  | Started k bufs => (Some (k, bufs), [])
  | Moved bs => (acc.1, acc.2 ++ bs)
  | _ => acc
  end.
Definition since (log : list event) : option (kind * list bytes) * bytes := foldl since1 (None, []) log.

Lemma since_app l k : since (l ++ k) = foldl since1 (since l) k.
Proof. apply foldl_app. Qed.

(** The operation has moved the first bytes of what it was started with, as many as it counts: a write
    those of its buffers; a read has stored them there. *)
Definition progress (log : list event) (op : operation) : Prop :=
  0 <= _n_transferred op <= zlen (concat (_buffers op)) /\ zlen (since log).2 = _n_transferred op /\
  exists bufs, (since log).1 = Some (op_kind op, bufs) /\
    match op_kind op with
    | op_connect => _n_transferred op = 0
    | op_write => _buffers op = bufs /\ (since log).2 = take (Z.to_nat (_n_transferred op)) (concat bufs)
    | op_read => length <$> _buffers op = length <$> bufs /\
                 concat (_buffers op) = (since log).2 ++ drop (Z.to_nat (_n_transferred op)) (concat bufs)
    end.

(** Nothing of the history of the operation is in the event. *)
Definition quiet (ev : event) : Prop := match ev with Started _ _ | Moved _ => False | _ => True end.

Lemma since_quiet log evs : Forall quiet evs -> since (log ++ evs) = since log.
Proof.
  rewrite since_app. intros Hq. induction Hq as [|ev evs Hev Hq IH] in log |- *; [done|]. simpl.
  replace (since1 (since log) ev) with (since log) by (by destruct ev). apply IH.
Qed.

Lemma progress_quiet log evs op : Forall quiet evs -> progress log op -> progress (log ++ evs) op.
Proof. intros Hq. unfold progress. by rewrite since_quiet. Qed.

(** Only bytes between the engine and the buffers. *)
Definition moves (ev : event) : Prop := match ev with Moved _ => True | _ => False end.

Section Spec.
Context {E : Type} `{EngineOk E} (X : externals) (EIO : Z).

Lemma write_more_spec log (e : E) op r e' op' evs : op_kind op = op_write -> progress log op ->
  write_more e op = (r, e', op', evs) -> progress (log ++ evs) op' /\ op_kind op' = op_write.
Proof.
  intros Hk Hop. pose proof Hop as (Hn & Hlen & bufs & Hs & Hp). rewrite Hk in Hp. destruct Hp as [Hb Hp]. subst bufs. unfold write_more.
  set (b := first_nonempty _ _). pose proof (zlen_nonneg b).
  destruct (Z.eqb_spec (zlen b) 0) as [_|_]; [intros [= <- <- <- <-]; by rewrite app_nil_r|].
  pose proof (ssl_write_some e b (s32 (zlen b))) as Hw. destruct (SSL_write e b (s32 (zlen b))) as [n e1]. simpl in Hw.
  destruct (Z.ltb_spec 0 n) as [Hpos|_]; intros [= <- <- <- <-]; [|by rewrite app_nil_r]. specialize (Hw Hpos).
  assert (n <= zlen b) as Hnb. { pose proof (s32_le (zlen b)). lia. }
  pose proof (first_nonempty_room (_buffers op) (_n_transferred op) Hn) as Hroom. fold b in Hroom.
  unfold progress. rewrite since_app. simpl. rewrite Hs, Hk. split_and!; [lia|lia| | |done].
  - rewrite zlen_app, Hlen. unfold zlen. rewrite length_take. unfold zlen in *. lia.
  - eexists. split; [done|]. split; [done|]. rewrite first_nonempty_take by (fold b; lia). by rewrite <- Hp.
Qed.

Lemma read_more_spec log (e : E) op : op_kind op = op_read -> progress log op -> exists r e' op' evs,
  read_more e op = Done (r, e', op', evs) /\ progress (log ++ evs) op' /\ op_kind op' = op_read.
Proof.
  intros Hk Hop. pose proof Hop as (Hn & Hlen & bufs & Hs & Hp). rewrite Hk in Hp. destruct Hp as [Hb Hp]. unfold read_more.
  set (b := first_nonempty _ _). pose proof (zlen_nonneg b).
  destruct (Z.eqb_spec (zlen b) 0) as [_|_]; [by exists 0, e, op, []; rewrite app_nil_r|].
  pose proof (ssl_read_some e (s32 (zlen b))) as Hr. pose proof (ssl_read_none e (s32 (zlen b))) as Hz.
  destruct (SSL_read e (s32 (zlen b))) as [[n data] e1]. simpl in Hr, Hz.
  destruct (Z.ltb_spec 0 n) as [Hpos|Hneg].
  2: { rewrite Hz by lia. rewrite store_at_nil by lia. simpl.
    exists n, e1, op, []. rewrite app_nil_r. destruct op. done. }
  destruct (Hr Hpos) as [Hd Hnb]. pose proof (s32_le (zlen b)).
  destruct (store_at_spec data (_buffers op) (_n_transferred op)) as (bufs' & -> & Hl & Hc); [lia|fold b; lia|].
  assert (data <> []) as Hne by (intros ->; rewrite zlen_nil in Hd; lia). specialize (Hc Hne).
  pose proof (first_nonempty_room (_buffers op) (_n_transferred op) Hn) as Hroom. fold b in Hroom.
  assert (take (Z.to_nat (_n_transferred op)) (concat (_buffers op)) = (since log).2) as Ht.
  { rewrite Hp, take_app_length'; [done|]. unfold zlen in *. lia. }
  assert (drop (Z.to_nat (_n_transferred op + n)) (concat (_buffers op)) = drop (Z.to_nat (_n_transferred op + n)) (concat bufs)) as Hdr.
  { rewrite Hp, drop_app_ge by (unfold zlen in *; lia). rewrite drop_drop. f_equal. unfold zlen in *. lia. }
  rewrite Ht, Hd, Hdr in Hc. simpl. do 4 eexists. split; [done|]. split; [|done].
  unfold progress. rewrite since_app. simpl. rewrite Hs, Hk, Hc. split_and!; [lia| |by rewrite zlen_app; lia|].
  - rewrite !zlen_app, Hlen, Hd. pose proof (zlen_nonneg (drop (Z.to_nat (_n_transferred op + n)) (concat bufs))). lia.
  - exists bufs. split; [done|]. split; [congruence|]. by rewrite <- app_assoc.
Qed.

Lemma all_of_moved f evs : (forall ev, moves ev -> f ev = []) -> Forall moves evs -> all_of f evs = [].
Proof. intros Hf. induction 1 as [|ev evs Hev _ IH]; [done|]. by rewrite all_of_cons, Hf, IH. Qed.

Lemma do_ssl_operation_spec log (e : E) op : progress log op -> exists r e' op' evs,
  do_ssl_operation e op = Done (r, e', op', evs) /\ progress (log ++ evs) op' /\ op_kind op' = op_kind op /\ Forall moves evs.
Proof.
  intros Hop. unfold do_ssl_operation. destruct (op_kind op) eqn:Hk.
  - destruct (SSL_connect e) as [r e']. exists r, e', op, []. rewrite app_nil_r. auto.
  - destruct (read_more_spec log e op Hk Hop) as (r & e' & op' & evs & E1 & Hp & Hk'). exists r, e', op', evs.
    split_and!; [done..|]. unfold read_more in E1. repeat case_match; inv_done; by repeat constructor.
  - destruct (write_more e op) as [[[r e'] op'] evs] eqn:E1. destruct (write_more_spec _ _ _ _ _ _ _ Hk Hop E1) as [Hp Hk'].
    exists r, e', op', evs. split_and!; [done..|]. unfold write_more in E1. repeat case_match; simplify_eq; by repeat constructor.
Qed.

(** Input that a [BIO_write] has left: the end of what it was given. *)
Definition left_by_bio (bs : bytes) : Prop := bs <> [] /\ exists (e : E) data,
  0 <= (BIO_write e data).1 /\ bs = drop (Z.to_nat (BIO_write e data).1) data.

(** What [reenter] does to the two strings of the stream, with the events [evs]. *)
Record reentered (s s' : stream_base E) (v : verdict) (evs : list event) : Prop := {
  re_live : _live_operation s' = _live_operation s;
  re_output : _pending_output s' = _pending_output s ++ all_of taken evs;
  re_sent : all_of sent evs = [];
  re_received : all_of received evs = [];
  re_input : _pending_input s = all_of consumed evs ++ match v with wait do_read_some => [] | _ => _pending_input s' end;
  re_overwritten : forall bs, Overwritten bs ∈ evs -> left_by_bio bs;
  re_taken : v <> wait do_write_some -> all_of taken evs = [];
  re_write : v = wait do_write_some -> _pending_output s' <> [];
  re_read : v = wait do_read_some -> length (_pending_input s') = 1024%nat;
  re_events : Forall (fun ev => match ev with Started _ _ | Completed _ _ => False | _ => True end) evs }.

Lemma feed_spec (s : stream_base E) :
  let '(o, s', evs) := feed s in
  _live_operation s' = _live_operation s /\ _pending_output s' = _pending_output s /\ Forall quiet evs /\
  Forall (fun ev => match ev with Fed _ => True | _ => False end) evs /\
  match o with
  | Some _ => evs = [] /\ _pending_input s' = _pending_input s
  | None => all_of consumed evs ++ _pending_input s' = _pending_input s /\ (_pending_input s' <> [] -> left_by_bio (_pending_input s'))
  end.
Proof.
  unfold feed. destruct (_pending_input s) as [|b data] eqn:Ed; [by split_and!|].
  destruct (BIO_write (_ssl s) (b :: data)) as [n e] eqn:Ew. destruct (Z.ltb_spec n 0) as [Hn|Hn].
  { destruct (ERR_get_error e) as [code e']. by split_and!. }
  split_and!; [done|done|by repeat constructor|by repeat constructor| |].
  - unfold all_of. cbn [fmap list_fmap concat consumed with_input _pending_input]. by rewrite app_nil_r, take_drop.
  - intros Hne. split; [exact Hne|]. exists (_ssl s), (b :: data). by rewrite Ew.
Qed.

Lemma resize_length bs n : length (resize bs n) = n.
Proof. unfold resize. rewrite length_app, length_take, length_replicate. lia. Qed.

Lemma transmit_spec (s : stream_base E) ec : exists s' v evs,
  transmit s ec = Done (s', v, evs) /\ _live_operation s' = _live_operation s /\
  _pending_output s' = _pending_output s ++ all_of taken evs /\
  match v with
  | complete ec' => ec' = ec /\ s' = s /\ evs = [] /\ BIO_ctrl_pending (_ssl s) = 0 /\ SSL_want_read (_ssl s) = false
  | wait do_write_some => _pending_output s' <> [] /\ _pending_input s' = _pending_input s /\ exists bs, evs = [Taken bs] /\ bs <> []
  | wait do_read_some => BIO_ctrl_pending (_ssl s) = 0 /\ SSL_want_read (_ssl s) = true /\ _ssl s' = _ssl s /\
                         length (_pending_input s') = 1024%nat /\ evs = overwritten (_pending_input s)
  end.
Proof.
  unfold transmit. pose proof (bio_pending (_ssl s)) as Hb. pose proof (bio_read_all (_ssl s)) as Hr.
  destruct (Z.eqb_spec (BIO_ctrl_pending (_ssl s)) 0) as [Hz|Hz]; simpl.
  - assert (all_of taken (overwritten (_pending_input s)) = []) as Ht by by destruct (_pending_input s).
    destruct (SSL_want_read (_ssl s)) eqn:Hw; do 3 eexists; (split; [done|]); simpl; rewrite ?Ht, ?app_nil_r, ?resize_length;
      split_and!; done.
  - rewrite s32_id by (unfold is_i32; lia). destruct (BIO_read (_ssl s) (BIO_ctrl_pending (_ssl s))) as [[n bs] e].
    simpl in Hr. destruct Hr as [-> Hbs]. rewrite Z.eqb_refl. do 3 eexists. split; [done|]. simpl.
    unfold all_of. simpl. rewrite app_nil_r. assert (bs <> []) as Hne by (intros ->; by rewrite zlen_nil in Hbs).
    split_and!; [done|done| |done|by eexists]. by intros [_ ->]%app_nil.
Qed.

Lemma overwritten_spec l : all_of consumed (overwritten l) = l /\ all_of taken (overwritten l) = [] /\ all_of sent (overwritten l) = [] /\
  all_of received (overwritten l) = [] /\ Forall quiet (overwritten l).
Proof. destruct l as [|b l]; [done|]. unfold overwritten, all_of. simpl. rewrite app_nil_r. split_and!; try done. by repeat constructor. Qed.

Lemma overwritten_in bs l : Overwritten bs ∈ overwritten l -> bs = l /\ l <> [].
Proof. destruct l as [|b l]; [by intros ?%elem_of_nil|]. simpl. rewrite list_elem_of_singleton. by intros [= ->]. Qed.

(** What the events of [transmit] are, and what they leave of the input. *)
Lemma transmit_events (s s' : stream_base E) v evs ec : transmit s ec = Done (s', v, evs) ->
  Forall quiet evs /\ all_of sent evs = [] /\ all_of received evs = [] /\
  all_of consumed evs ++ match v with wait do_read_some => [] | _ => _pending_input s' end = _pending_input s /\
  (v <> wait do_write_some -> all_of taken evs = []) /\
  (forall bs, Overwritten bs ∈ evs -> bs = _pending_input s /\ bs <> []) /\
  Forall (fun ev => match ev with Started _ _ | Completed _ _ => False | _ => True end) evs.
Proof.
  intros Et. destruct (transmit_spec s ec) as (s1 & v1 & evs1 & Et1 & _ & _ & Hv). rewrite Et1 in Et. injection Et as -> -> ->.
  destruct v as [?|[]].
  - destruct Hv as (_ & -> & -> & _). split_and!; try done. by intros bs ?%elem_of_nil.
  - destruct Hv as (_ & Hi & bs & -> & _). split_and!; try done; [by repeat constructor| |by repeat constructor].
    intros bs' Hb. apply list_elem_of_singleton in Hb. discriminate Hb.
  - destruct Hv as (_ & _ & _ & _ & ->). destruct (overwritten_spec (_pending_input s)) as (Hc & Ht & Hs & Hr & Hq).
    rewrite Hc, app_nil_r. split_and!; try done.
    + intros bs [-> Hne]%overwritten_in. done.
    + destruct (_pending_input s); by repeat constructor.
Qed.

Lemma reenter_spec log (s : stream_base E) op ec : progress log op -> exists s' op' v evs,
  reenter X EIO s op ec = Done (s', op', v, evs) /\ progress (log ++ evs) op' /\ op_kind op' = op_kind op /\
  reentered s s' v evs.
Proof.
  intros Hop. unfold reenter. destruct (is_set ec).
  { exists s, op, (complete ec), []. rewrite app_nil_r. split_and!; [done..|]. split; rewrite ?app_nil_r; try done. by intros bs ?%elem_of_nil. }
  pose proof (feed_spec s) as Hf. destruct (feed s) as [[o s1] evs]. destruct Hf as (Hl & Ho & Hq & Hfed & Hf).
  destruct o as [ec'|].
  { destruct Hf as [-> Hi]. exists s1, op, (complete ec'), []. rewrite app_nil_r. split_and!; [done..|].
    split; rewrite ?app_nil_r; try done. by intros bs ?%elem_of_nil. }
  destruct Hf as [Hf Hleft]. apply (progress_quiet _ evs) in Hop; [|done].
  destruct (do_ssl_operation_spec _ (ERR_clear_error (_ssl s1)) op Hop) as (r & e' & op' & evs' & -> & Hp & Hk & Hm). ostep.
  destruct (ERR_get_error e') as [sys e2]. set (ec1 := ssl_error_code _ _ _ _ _).
  assert (forall f, (forall ev, match ev with Fed _ => True | _ => False end -> f ev = []) ->
    (forall ev, moves ev -> f ev = []) -> all_of f (evs ++ evs') = []) as Hnone.
  { intros f Hf1 Hf2. rewrite all_of_app, (all_of_moved f evs') by done. rewrite app_nil_r.
    clear -Hfed Hf1. induction Hfed as [|ev evs Hev _ IH]; [done|]. by rewrite all_of_cons, Hf1, IH. }
  assert (all_of consumed evs' = []) as Hfed' by (apply all_of_moved; [by intros []|done]).
  assert (all_of taken (evs ++ evs') = [] /\ all_of sent (evs ++ evs') = [] /\ all_of received (evs ++ evs') = []) as (Ht & Hs & Hrc).
  { split_and!; apply Hnone; by intros []. }
  assert (forall bs, Overwritten bs ∉ evs ++ evs') as Hov.
  { intros bs [Hin|Hin]%elem_of_app; [rewrite Forall_forall in Hfed; by apply Hfed in Hin|rewrite Forall_forall in Hm; by apply Hm in Hin]. }
  assert (Forall (fun ev => match ev with Started _ _ | Completed _ _ => False | _ => True end) (evs ++ evs')) as Hev.
  { apply Forall_app. split; (eapply Forall_impl; [eassumption|]); by intros []. }
  destruct (is_set ec1).
  { exists (with_ssl s1 e2), op', (complete ec1), (evs ++ evs'). rewrite app_assoc. split_and!; [done..|].
    split; try done; rewrite ?Ht, ?app_nil_r; try done; [by rewrite all_of_app, Hfed', app_nil_r|]. by intros bs ?%Hov. }
  destruct (transmit_spec (with_ssl s1 e2) ec1) as (s' & v & evs'' & Et & Hl' & Ho' & Hv). rewrite Et. ostep.
  destruct (transmit_events _ _ _ _ _ Et) as (Hq' & Hs' & Hr' & Hc' & Ht' & Hov' & Hev'). simpl in Hl', Ho', Hv, Hc', Hov'.
  exists s', op', v, (evs ++ evs' ++ evs''). rewrite !app_assoc.
  rewrite <- app_assoc in Hp. split_and!; [done|by apply progress_quiet; rewrite ?app_assoc in *|done|].
  split; rewrite ?(all_of_app _ (evs ++ evs')), ?Ht, ?Hs, ?Hrc, ?Hs', ?Hr'; simpl; [congruence|by rewrite Ho', Ho|done|done|..].
  - by rewrite all_of_app, Hfed', app_nil_r, <- app_assoc, Hc'.
  - intros bs [?%Hov|Hin]%elem_of_app; [done|]. destruct (Hov' _ Hin) as [-> Hne]. by apply Hleft.
  - intros Hne. by apply Ht'.
  - intros ->. apply Hv.
  - intros ->. apply Hv.
  - by apply Forall_app.
Qed.

(** ** The invariant of a run *)

(** The transfer of an operation in flight. *)
Definition waits (s : stream_base E) (i : io) : Prop :=
  match i with
  | do_write_some => _pending_output s <> []
  | do_read_some => length (_pending_input s) = 1024%nat
  end.

(** The operation that [_live_operation] owns, when [op] is the one in progress. *)
Definition live_of (id : op_id) (op : operation) : option op_id :=
  if decide (op_kind op = op_connect) then None else Some id.

(** Every operation that was completed had moved what it counts. *)
Definition completed_ok (log : list event) : Prop :=
  forall l1 op ec l2, log = l1 ++ Completed op ec :: l2 -> progress l1 op.

(** The ciphertext of the engine in order: what the wrapped stream took, then what it
    is to be given. *)
Definition output_ok (log : list event) (s : stream_base E) : Prop :=
  all_of sent log ++ _pending_output s = all_of taken log.

(** The input is what was fed to the engine or written over, then [unread]; it is written over only when the engine has left it. *)
Definition input_ok (log : list event) (unread : bytes) : Prop :=
  all_of received log = all_of consumed log ++ unread /\ forall bs, Overwritten bs ∈ log -> left_by_bio bs.

(** What a read of the wrapped stream in flight may overwrite is no input. *)
Definition unread (m : machine (E := E)) : bytes :=
  match m_io m with (_, do_read_some) :: _ => [] | _ => _pending_input (m_stream m) end.

Definition idle (m : machine (E := E)) : Prop :=
  m_ops m = ∅ /\ m_io m = [] /\ _live_operation (m_stream m) = None.

Definition in_flight (m : machine (E := E)) (id : op_id) (op : operation) (i : io) : Prop :=
  m_ops m = {[id := op]} /\ m_io m = [(id, i)] /\ _live_operation (m_stream m) = live_of id op /\
  waits (m_stream m) i.

(** An operation has failed. *)
Definition failed (log : list event) : Prop := exists op ec, Completed op ec ∈ log /\ is_set ec = true.

(** Nothing waits to be sent, unless it is being sent. *)
Definition flushed (m : machine (E := E)) : Prop :=
  _pending_output (m_stream m) = [] \/ (exists id, m_io m = [(id, do_write_some)]) \/ failed (m_log m).

Record stream_inv (short : bool) (m : machine (E := E)) : Prop := {
  inv_state : idle m \/ exists id op i, in_flight m id op i /\ progress (m_log m) op;
  inv_output : output_ok (m_log m) (m_stream m);
  inv_input : input_ok (m_log m) (unread m);
  inv_completed : completed_ok (m_log m);
  inv_flushed : short = false -> flushed m }.

(** An operation that is about to be re-entered. *)
Record entering (short : bool) (m : machine (E := E)) (id : op_id) (op : operation) (ec : error_code) : Prop := {
  en_ops : m_ops m = {[id := op]};
  en_io : m_io m = [];
  en_live : _live_operation (m_stream m) = live_of id op;
  en_progress : progress (m_log m) op;
  en_output : output_ok (m_log m) (m_stream m);
  en_input : input_ok (m_log m) (_pending_input (m_stream m));
  en_completed : completed_ok (m_log m);
  en_flushed : short = false -> _pending_output (m_stream m) = [] \/ failed (m_log m) \/ is_set ec = true }.

Lemma completed_ok_app log evs : completed_ok log ->
  Forall (fun ev => match ev with Completed _ _ => False | _ => True end) evs -> completed_ok (log ++ evs).
Proof.
  intros Hc Hev l1 op ec l2 Heq. apply app_eq_inv in Heq as [(k & -> & E2)|(k & -> & E2)].
  - destruct k as [|ev k]; simpl in E2; [|injection E2 as <- ->; by eapply Hc].
    exfalso. rewrite <- E2 in Hev. by inversion Hev.
  - exfalso. rewrite E2 in Hev. apply Forall_app in Hev as [_ Hev]. by inversion Hev.
Qed.

Lemma completed_ok_snoc log op ec : completed_ok log -> progress log op -> completed_ok (log ++ [Completed op ec]).
Proof.
  intros Hc Hp l1 op' ec' l2 Heq. destruct l2 as [|ev l2] using rev_ind.
  - apply app_inj_tail in Heq as [<- [= -> ->]]. done.
  - rewrite app_comm_cons, app_assoc in Heq. apply app_inj_tail in Heq as [E1 _]. by eapply Hc.
Qed.

(** An event that is no input. *)
Lemma input_ok_snoc log ev l : received ev = [] -> consumed ev = [] -> (forall bs, ev <> Overwritten bs) -> input_ok log l -> input_ok (log ++ [ev]) l.
Proof.
  intros Hr Hc Hne [Hi Hov]. split; [by rewrite !all_of_snoc by done|].
  intros bs [?|<-%list_elem_of_singleton]%elem_of_app; [auto|by destruct (Hne bs)].
Qed.

Lemma failed_app log evs : failed log -> failed (log ++ evs).
Proof. intros (op & ec & Hin & Hs). exists op, ec. split; [|done]. apply elem_of_app. by left. Qed.

Lemma reenter_error (s : stream_base E) op ec : is_set ec = true -> reenter X EIO s op ec = Done (s, op, complete ec, []).
Proof. unfold reenter. by intros ->. Qed.

Lemma run_reenter_inv short m id op ec : entering short m id op ec ->
  exists m', run_reenter X EIO m id ec = Done m' /\ stream_inv short m'.
Proof.
  intros [Hops Hio Hlive Hp Ho Hi Hc Hfl]. unfold run_reenter. rewrite Hops, lookup_singleton_eq.
  destruct (reenter_spec (m_log m) (m_stream m) op ec Hp) as (s' & op' & v & evs & Ere & Hp' & Hk & Hr).
  rewrite Ere. ostep. destruct Hr as [Rl Ro Rs Rr Ri Rov Rt Rw Rrd Rev].
  assert (completed_ok (m_log m ++ evs)) as Hc'.
  { apply completed_ok_app; [done|]. eapply Forall_impl; [exact Rev|]. by intros []. }
  assert (output_ok (m_log m ++ evs) s') as Ho'.
  { unfold output_ok in *. rewrite !all_of_app, Rs, Ro, app_nil_r, app_assoc. by rewrite Ho. }
  assert (input_ok (m_log m ++ evs) (match v with wait do_read_some => [] | _ => _pending_input s' end)) as Hi'.
  { destruct Hi as [Hi Hov]. split; [by rewrite !all_of_app, Rr, app_nil_r, Hi, Ri, app_assoc|].
    intros bs [?|?]%elem_of_app; auto. }
  assert (live_of id op' = live_of id op) as Hl by (unfold live_of; by rewrite Hk).
  destruct v as [ec'|i]; (eexists; split; [done|]).
  - unfold finish. split; simpl.
    + left. split_and!; [|done|done]. simpl. rewrite Rl, Hlive, Hops. unfold live_of.
      case_decide; rewrite ?delete_singleton_eq, ?delete_empty; done.
    + unfold output_ok. rewrite app_assoc, !all_of_snoc by done. exact Ho'.
    + unfold unread. simpl. rewrite Hio, app_assoc. by apply input_ok_snoc.
    + rewrite app_assoc. by apply completed_ok_snoc.
    + intros Hsh. unfold flushed. simpl. rewrite Ro, Rt, app_nil_r by done. destruct (Hfl Hsh) as [Hn|[Hf|Hec]].
      * by left.
      * right. right. by apply failed_app.
      * right. right. rewrite reenter_error in Ere by done. injection Ere as <- <- <- <-.
        exists op, ec. split; [|done]. rewrite !elem_of_app, list_elem_of_singleton. auto.
  - split; simpl; [|done| |done|].
    + right. exists id, op', i. split; [|done]. unfold in_flight. simpl. rewrite insert_singleton_eq, Hio, Rl, Hlive, Hl.
      split_and!; try done. destruct i; simpl; auto.
    + unfold unread. simpl. by destruct i.
    + intros Hsh. unfold flushed. simpl. rewrite Hio. destruct i; [right; left; by exists id|].
      rewrite Ro, Rt, app_nil_r by done. destruct (Hfl Hsh) as [Hn|[Hf|Hec]]; [by left|right; right; by apply failed_app|].
      by rewrite reenter_error in Ere.
Qed.

Lemma create_entering short m k bufs : stream_inv short m -> m_ops m = ∅ ->
  entering short (create m (bool_decide (k <> op_connect)) k bufs) (m_next m) (mk_operation k bufs 0) no_error.
Proof.
  intros [[(Hops & Hio & Hlive)|(id & op & i & (Hops & _) & _)] Ho Hi Hc Hfl] He; [|by rewrite Hops in He].
  split; simpl.
  - by rewrite Hops.
  - done.
  - unfold live_of. simpl. case_bool_decide as Hk; case_decide; simpl; congruence.
  - unfold progress. rewrite since_app. simpl. pose proof (zlen_nonneg (concat bufs)). split_and!; [lia|lia|done|].
    exists bufs. split; [done|]. by destruct k.
  - unfold output_ok in *. rewrite !all_of_snoc by done. by case_bool_decide.
  - unfold unread in Hi. rewrite Hio in Hi. apply input_ok_snoc; try done. by case_bool_decide.
  - by apply completed_ok_app; [|repeat constructor].
  - intros Hsh. destruct (Hfl Hsh) as [Hn|[[id Hn]|Hf]]; [left; by case_bool_decide|by rewrite Hio in Hn|].
    right. left. by apply failed_app.
Qed.

Lemma list_difference_self (x : op_id * io) : list_difference [x] [x] = [].
Proof. simpl. case_decide as Hx; [done|]. destruct Hx. by apply list_elem_of_singleton. Qed.

(** A transfer of the wrapped stream that completes is that of the operation in progress. *)
Lemma in_flight_of short m id i : stream_inv short m -> (id, i) ∈ m_io m -> exists op, in_flight m id op i /\ progress (m_log m) op.
Proof.
  intros [[(_ & Hio & _)|(id' & op & i' & Hf & Hp)] _ _ _ _] Hin.
  { rewrite Hio in Hin. by apply elem_of_nil in Hin. }
  pose proof Hf as (_ & Hio & _). rewrite Hio in Hin. apply list_elem_of_singleton in Hin. injection Hin as -> ->. by exists op.
Qed.

Lemma on_written_inv short m id n ec eno : stream_inv short m -> (id, do_write_some) ∈ m_io m ->
  takes short ec n (length (_pending_output (m_stream m))) ->
  exists m', on_written X EIO m id n ec eno = Done m' /\ stream_inv short m'.
Proof.
  intros Hm Hin Hn. destruct (in_flight_of _ _ _ _ Hm Hin) as (op & (Hops & Hio & Hlive & _) & Hp). destruct Hm as [_ Ho Hi Hc Hfl].
  unfold on_written, io_callback. simpl. apply (run_reenter_inv short _ id op ec). split; simpl; try done.
  - by rewrite Hio, list_difference_self.
  - by apply progress_quiet; [repeat constructor|].
  - unfold output_ok in *. simpl. rewrite all_of_app, (all_of_snoc taken) by done. rewrite all_of_cons. simpl.
    unfold all_of at 2. simpl. rewrite app_nil_r, <- app_assoc, take_drop. exact Ho.
  - unfold unread in Hi. rewrite Hio in Hi. by apply input_ok_snoc.
  - by apply completed_ok_app; [|repeat constructor].
  - intros Hsh. destruct (is_set ec) eqn:Hec; [auto|]. left. rewrite (Hn Hsh Hec). apply drop_all.
Qed.

Lemma on_read_inv short m id bs ec eno : stream_inv short m -> (id, do_read_some) ∈ m_io m ->
  exists m', on_read X EIO m id bs ec eno = Done m' /\ stream_inv short m'.
Proof.
  intros Hm Hin. destruct (in_flight_of _ _ _ _ Hm Hin) as (op & (Hops & Hio & Hlive & _) & Hp). destruct Hm as [_ Ho Hi Hc Hfl].
  unfold on_read, io_callback. simpl. apply (run_reenter_inv short _ id op ec). split; simpl; try done.
  - by rewrite Hio, list_difference_self.
  - by apply progress_quiet; [repeat constructor|].
  - unfold output_ok in *. simpl. by rewrite !all_of_snoc by done.
  - unfold input_ok, unread in *. rewrite Hio in Hi. destruct Hi as [Hi Hov]. split.
    2: { intros bs' [?|Hb%list_elem_of_singleton]%elem_of_app; [auto|discriminate Hb]. }
    rewrite all_of_app, (all_of_snoc consumed), Hi by done.
    rewrite app_nil_r. f_equal. rewrite all_of_cons. unfold all_of, resize. simpl. rewrite app_nil_r, zlen_to_nat.
    rewrite take_app_length, length_app, length_drop.
    replace (length bs - (length bs + (length (_pending_input (m_stream m)) - length bs)))%nat with 0%nat by lia. simpl. by rewrite app_nil_r.
  - by apply completed_ok_app; [|repeat constructor].
  - intros Hsh. destruct (Hfl Hsh) as [Hn|[[id' Hn]|Hf]]; [by left|by rewrite Hio in Hn|]. right. left. by apply failed_app.
Qed.

Lemma step_inv short m r : stream_inv short m -> step X EIO short m r -> exists m', r = Done m' /\ stream_inv short m'.
Proof.
  intros Hm Hs. destruct Hs as [He|k bufs He Hk|id n ec eno Hin _ Hn|id bs ec eno Hin _].
  - apply (run_reenter_inv _ _ _ _ _ (create_entering _ m op_connect [] Hm He)).
  - unfold async_some, no_outstanding_io. rewrite bool_decide_true.
    + pose proof (create_entering _ m k bufs Hm He) as Hen. rewrite bool_decide_true in Hen by done. by eapply run_reenter_inv.
    + destruct Hm as [[(_ & _ & Hl)|(id & op & i & (Hops & _) & _)] _ _ _ _]; [done|]. by rewrite Hops in He.
  - by apply on_written_inv.
  - by apply on_read_inv.
Qed.

Lemma init_inv short e : stream_inv short (stream_init e).
Proof.
  split; simpl.
  - by left.
  - done.
  - split; [done|]. by intros bs ?%elem_of_nil.
  - intros l1 op ec l2 Heq. by destruct l1.
  - by left.
Qed.

Lemma reachable_inv short e m : reachable X EIO short e m -> stream_inv short m.
Proof.
  induction 1 as [|m m' _ IH Hs]; [apply init_inv|].
  by destruct (step_inv _ _ _ IH Hs) as (m1 & [= ->] & Hm).
Qed.

(** ** The guarantees *)

(** C13. A TLS stream on which one operation at a time is started never re-enters an operation that was
    destroyed and never stops the process, whatever the engine and the wrapped stream do, and has at most one transfer of
    the wrapped stream in flight; and while a read or a write is in progress,
    starting another read or write stops the process.  (A connect in progress is not noticed: [read_during_connect].) *)
Theorem tls_stream_safe short (e : E) m : reachable X EIO short e m ->
  (forall r, step X EIO short m r -> exists m', r = Done m') /\
  (length (m_io m) <= 1)%nat /\
  (forall id op bufs, m_ops m !! id = Some op -> op_kind op <> op_connect ->
     async_read_some X EIO m bufs = Abort /\ async_write_some X EIO m bufs = Abort).
Proof.
  intros Hm%reachable_inv. split_and!.
  - intros r Hs. destruct (step_inv _ _ _ Hm Hs) as (m' & -> & _). by exists m'.
  - by destruct Hm as [[(_ & -> & _)|(id & op & i & (_ & -> & _) & _)] _ _ _ _]; simpl; lia.
  - intros id op bufs Hid Hk. destruct Hm as [[(Hops & _)|(id' & op' & i & (Hops & _ & Hl & _) & _)] _ _ _ _]; rewrite Hops in Hid; [done|].
    apply lookup_singleton_Some in Hid as [-> ->]. unfold live_of in Hl. rewrite decide_False in Hl by done.
    unfold async_read_some, async_write_some, async_some, no_outstanding_io. by rewrite Hl.
Qed.

(** C32. Order of the ciphertext: whatever was taken from the engine was sent, or is kept to be
    sent, in the order in which the engine produced it; and whatever the wrapped stream gave has left the string of the stream, or is kept to
    be fed, in the order of its arrival.  It leaves the string by being fed to the engine, with one exception: what [BIO_write] left of
    the bytes it was given is written over when the stream goes on to read ([thin_engine_loses_input]). *)
Theorem tls_ciphertext_order short (e : E) m : reachable X EIO short e m ->
  all_of sent (m_log m) ++ _pending_output (m_stream m) = all_of taken (m_log m) /\
  all_of received (m_log m) = all_of consumed (m_log m) ++ unread m /\
  (forall bs, Overwritten bs ∈ m_log m -> left_by_bio bs).
Proof. intros [_ Ho [Hi Hov] _ _]%reachable_inv. by split_and!. Qed.

(** An operation that completes, with or without an error, reports the number of the bytes
    that the engine moved for it: those are the first bytes of the buffers of a write; a read has them at the
    front of its buffers, and left the rest as it was. *)
Theorem tls_transfers short (e : E) m l1 op ec l2 : reachable X EIO short e m ->
  m_log m = l1 ++ Completed op ec :: l2 -> progress l1 op.
Proof. intros [_ _ _ Hc _]%reachable_inv. apply Hc. Qed.

(** Over a wrapped stream that writes all it is given, nothing that the engine
    produced is left behind, as long as no operation has failed: when a stream waits for input, and when it is idle,
    everything taken from the engine was sent. *)
Theorem tls_flushed (e : E) m : reachable X EIO false e m -> ~ failed (m_log m) ->
  (forall id, m_io m <> [(id, do_write_some)]) -> all_of sent (m_log m) = all_of taken (m_log m).
Proof.
  intros [_ Ho _ _ Hf]%reachable_inv Hnf Hio. destruct (Hf eq_refl) as [Hn|[[id Hn]|Hn]]; [|by apply Hio in Hn|done].
  unfold output_ok in Ho. by rewrite Hn, app_nil_r in Ho.
Qed.

(** How an operation goes on: an error of the wrapped stream ends it at once; otherwise it waits for a
    write exactly when the engine has output, for a read only when the engine has none and wants to read, and it ends
    without an error only when the engine wants neither (or when it refused the input without giving a
    reason). *)
Theorem tls_reenter log (s : stream_base E) op ec : progress log op -> exists s' op' v evs,
  reenter X EIO s op ec = Done (s', op', v, evs) /\
  match v with
  | wait do_write_some => is_set ec = false /\ exists bs, last evs = Some (Taken bs) /\ bs <> [] /\ _pending_output s' = _pending_output s ++ bs
  | wait do_read_some => is_set ec = false /\ BIO_ctrl_pending (_ssl s') = 0 /\ SSL_want_read (_ssl s') = true
  | complete ec' => is_set ec' = false ->
      is_set ec = false /\
      (BIO_ctrl_pending (_ssl s') = 0 /\ SSL_want_read (_ssl s') = false \/
       (BIO_write (_ssl s) (_pending_input s)).1 < 0 /\ s32 (ERR_get_error (BIO_write (_ssl s) (_pending_input s)).2).1 = 0)
  end.
Proof.
  intros Hop. destruct (reenter_spec log s op ec Hop) as (s' & op' & v & evs & Ere & _ & _ & [_ Ro _ _ _ _ Rt Rw _ _]).
  exists s', op', v, evs. split; [exact Ere|]. unfold reenter in Ere. destruct (is_set ec) eqn:Hec; simplify_eq.
  { by rewrite Hec. }
  pose proof (feed_spec s) as Hfs. unfold feed in Ere, Hfs.
  destruct (match _pending_input s with [] => _ | _ => _ end) as [[o s1] evs0] eqn:Ef.
  destruct Hfs as (_ & Hfo & _). destruct o as [ec'|].
  { simplify_eq. destruct (_pending_input s) as [|b data] eqn:Ei; [done|].
    destruct (BIO_write (_ssl s) (b :: data)) as [n e1]. simpl. destruct (Z.ltb_spec n 0); [|done].
    destruct (ERR_get_error e1) as [code e2] eqn:Eg. simplify_eq. simpl. unfold is_set, tls_code. simpl.
    intros Hz%negb_false_iff%Z.eqb_eq. split; [done|]. right. done. }
  destruct (do_ssl_operation (ERR_clear_error (_ssl s1)) op) as [[[[r e'] op1] evs1]| |]; try done. ostep. cbn [obind] in Ere.
  destruct (ERR_get_error e') as [sys e2]. set (ec1 := ssl_error_code _ _ _ _ _) in *. destruct (is_set ec1) eqn:Hec1; simplify_eq.
  { by rewrite Hec1. }
  destruct (transmit_spec (with_ssl s1 e2) ec1) as (s2 & v' & evs2 & Et & _ & Ho2 & Hv). rewrite Et in Ere. cbn [obind] in Ere. simplify_eq.
  destruct v as [?|[]].
  - destruct Hv as (-> & -> & -> & Hp & Hw). auto.
  - destruct Hv as (_ & _ & bs & -> & Hne). split; [done|]. exists bs. rewrite !app_assoc, last_snoc. split_and!; [done..|].
    rewrite Ho2. unfold all_of. simpl. by rewrite app_nil_r, Hfo.
  - destruct Hv as (Hp & Hw & -> & _). auto.
Qed.
End Spec.

(** ** A small engine

    The handshake is one byte in each direction, the ciphertext is the text; the results
    of [SSL_get_error] are chosen as in OpenSSL: a result that is positive is no error, then
    the error queue, then what the engine wants, else a system call has failed. *)
Record toy : Type := mk_toy {
  toy_hello : bool;
  toy_done : bool;
  toy_want : bool;
  toy_in : bytes;
  toy_out : bytes;
  toy_errno : Z }.

Definition toy_connect (e : toy) : Z * toy :=
  if toy_done e then (1, e) else
  match toy_hello e, toy_in e with
  | true, _ :: rest => (1, mk_toy true true false rest (toy_out e) (toy_errno e))
  | true, [] => (-1, mk_toy true false true [] (toy_out e) (toy_errno e))
  | false, l => (-1, mk_toy true false true l (toy_out e ++ [x16]) (toy_errno e))
  end.

#[export] Instance toy_engine : Engine toy := {
  SSL_connect := toy_connect;
  SSL_read e num :=
    let data := take (Z.to_nat num) (toy_in e) in
    match data with
    | [] => (-1, [], mk_toy (toy_hello e) (toy_done e) true (toy_in e) (toy_out e) (toy_errno e))
    | _ => (zlen data, data, mk_toy (toy_hello e) (toy_done e) false (drop (Z.to_nat num) (toy_in e)) (toy_out e) (toy_errno e))
    end;
  SSL_write e data num :=
    let data := take (Z.to_nat num) data in
    (zlen data, mk_toy (toy_hello e) (toy_done e) false (toy_in e) (toy_out e ++ data) (toy_errno e));
  SSL_get_error e r := if 0 <? r then SSL_ERROR_NONE else if toy_want e then SSL_ERROR_WANT_READ else SSL_ERROR_SYSCALL;
  SSL_want_read := toy_want;
  SSL_set_tlsext_host_name e sn := (1, e);
  BIO_write e data := (zlen data, mk_toy (toy_hello e) (toy_done e) (toy_want e) (toy_in e ++ data) (toy_out e) (toy_errno e));
  BIO_ctrl_pending e := Z.min (zlen (toy_out e)) 17408;
  BIO_read e num :=
    let data := take (Z.to_nat num) (toy_out e) in
    (zlen data, data, mk_toy (toy_hello e) (toy_done e) (toy_want e) (toy_in e) (drop (Z.to_nat num) (toy_out e)) (toy_errno e));
  ERR_get_error e := (0, e);
  ERR_clear_error e := e;
  errno := toy_errno;
  set_errno e n := mk_toy (toy_hello e) (toy_done e) (toy_want e) (toy_in e) (toy_out e) n }.

#[export] Instance toy_ok : EngineOk toy.
Proof.
  split; intros e; simpl.
  - intros data num. unfold zlen. rewrite length_take. lia.
  - intros num. destruct (take _ _) eqn:Ht; simpl; [lia|]. apply (f_equal length) in Ht.
    rewrite length_take in Ht. unfold zlen. simpl in *. lia.
  - intros num. destruct (take _ _) eqn:Ht; simpl; [done|]. unfold zlen. simpl. lia.
  - intros data. lia.
  - pose proof (zlen_nonneg (toy_out e)). lia.
  - unfold zlen. rewrite length_take. lia.
Qed.

(** A fresh engine, and one whose handshake is done. *)
Definition toy_fresh : toy := mk_toy false false false [] [] 0.
Definition toy_ready : toy := mk_toy true true false [] [] 0.

Definition after (r : outcome (machine (E := toy))) : machine :=
  match r with Done m => m | _ => stream_init toy_fresh end.

Lemma reach_after short e m r : reachable linux_externals 5 short e m -> step linux_externals 5 short m r ->
  (if r is Done _ then true else false) = true -> reachable linux_externals 5 short e (after r).
Proof. intros Hm Hs. destruct r as [m'| |]; [|done..]. intros _. by eapply reach_step. Qed.

(** A handshake: the greeting is written, the answer is read. *)
Definition hs1 := after (connect linux_externals 5 (stream_init toy_fresh)).
Definition hs2 := after (on_written linux_externals 5 hs1 0 1 no_error 0).
Definition hs3 := after (on_read linux_externals 5 hs2 0 [x02] no_error 0).

(** A write of two bytes in two buffers. *)
Definition wr1 := after (async_write_some linux_externals 5 (stream_init toy_ready) [[x41]; []; [x42]]).
Definition wr2 := after (on_written linux_externals 5 wr1 0 1 no_error 0).
Definition wr3 := after (on_written linux_externals 5 wr2 0 1 no_error 0).

Ltac reach_by c :=
  eapply reach_after; [| c | vm_compute; reflexivity].

Lemma hs1_reachable : reachable linux_externals 5 false toy_fresh hs1.
Proof. reach_by ltac:(by apply step_connect). apply reach_init. Qed.
Lemma hs2_reachable : reachable linux_externals 5 false toy_fresh hs2.
Proof.
  reach_by ltac:(apply step_written; [vm_compute; by left|split; vm_compute; intros; lia|done]). apply hs1_reachable.
Qed.
Lemma hs3_reachable : reachable linux_externals 5 false toy_fresh hs3.
Proof. reach_by ltac:(apply step_read; [vm_compute; by left|split; vm_compute; intros; lia]). apply hs2_reachable. Qed.
Lemma wr1_reachable : reachable linux_externals 5 false toy_ready wr1.
Proof. reach_by ltac:(by apply step_some). apply reach_init. Qed.
Lemma wr2_reachable : reachable linux_externals 5 false toy_ready wr2.
Proof. reach_by ltac:(apply step_written; [vm_compute; by left|split; vm_compute; intros; lia|done]). apply wr1_reachable. Qed.
Lemma wr3_reachable : reachable linux_externals 5 false toy_ready wr3.
Proof. reach_by ltac:(apply step_written; [vm_compute; by left|split; vm_compute; intros; lia|done]). apply wr2_reachable. Qed.

Example handshake_log : m_log hs3 =
  [Started op_connect []; Taken [x16]; Sent [x16]; Received [x02]; Fed [x02]; Completed (mk_operation op_connect [] 0) no_error].
Proof. vm_compute. reflexivity. Qed.

Example write_log : m_log wr3 =
  [Started op_write [[x41]; []; [x42]]; Moved [x41]; Taken [x41]; Sent [x41]; Moved [x42]; Taken [x42]; Sent [x42];
   Completed (mk_operation op_write [[x41]; []; [x42]] 2) no_error].
Proof. vm_compute. reflexivity. Qed.

(** Witness of [tls_stream_safe]: during the write of two buffers. *)
Lemma tls_stream_safe_witness :
  (forall r, step linux_externals 5 false wr2 r -> exists m', r = Done m') /\
  (length (m_io wr2) <= 1)%nat /\
  (forall bufs, async_read_some linux_externals 5 wr2 bufs = Abort /\ async_write_some linux_externals 5 wr2 bufs = Abort).
Proof.
  destruct (tls_stream_safe linux_externals 5 false toy_ready wr2 wr2_reachable) as (Hs & Hl & Ha). split; [exact Hs|]. split; [exact Hl|].
  intros bufs. apply (Ha 0%nat (mk_operation op_write [[x41]; []; [x42]] 2)); [vm_compute; reflexivity|discriminate].
Defined.

(** Witness of [tls_ciphertext_order]: after the handshake. *)
Lemma tls_ciphertext_order_witness :
  all_of sent (m_log hs3) = [x16] /\ all_of taken (m_log hs3) = [x16] /\ all_of received (m_log hs3) = [x02] /\ all_of consumed (m_log hs3) = [x02] /\
  all_of sent (m_log hs3) ++ _pending_output (m_stream hs3) = all_of taken (m_log hs3) /\
  all_of received (m_log hs3) = all_of consumed (m_log hs3) ++ unread hs3 /\
  (forall bs, Overwritten bs ∈ m_log hs3 -> left_by_bio (E := toy) bs).
Proof.
  do 4 (split; [vm_compute; reflexivity|]).
  exact (tls_ciphertext_order linux_externals 5 false toy_fresh hs3 hs3_reachable).
Defined.

(** Witness of [tls_transfers]: the write of two buffers. *)
Lemma tls_transfers_witness :
  progress [Started op_write [[x41]; []; [x42]]; Moved [x41]; Taken [x41]; Sent [x41]; Moved [x42]; Taken [x42]; Sent [x42]]
    (mk_operation op_write [[x41]; []; [x42]] 2).
Proof.
  apply (tls_transfers linux_externals 5 false toy_ready wr3 _ _ no_error []); [exact wr3_reachable|vm_compute; reflexivity].
Defined.

(** Witness of [tls_flushed]: the same write, when it is done. *)
Lemma tls_flushed_witness : all_of sent (m_log wr3) = all_of taken (m_log wr3).
Proof.
  apply (tls_flushed linux_externals 5 toy_ready wr3 wr3_reachable).
  - rewrite write_log. intros (op & ec & Hin & Hs). repeat (apply elem_of_cons in Hin as [Hin|Hin]; [try discriminate Hin|]).
    + injection Hin as -> ->. discriminate Hs.
    + by apply elem_of_nil in Hin.
  - intros id. vm_compute. discriminate.
Defined.

(** Witness of [tls_reenter]: a read with no input waits for some. *)
Lemma tls_reenter_witness : exists s' op' v evs,
  reenter linux_externals 5 (mk_stream toy_ready (Some 0%nat) [] []) (mk_operation op_read [[x00]] 0) no_error = Done (s', op', v, evs) /\
  match v with
  | wait do_write_some => is_set no_error = false /\ exists bs, last evs = Some (Taken bs) /\ bs <> [] /\ _pending_output s' = [] ++ bs
  | wait do_read_some => is_set no_error = false /\ BIO_ctrl_pending (_ssl s') = 0 /\ SSL_want_read (_ssl s') = true
  | complete ec' => is_set ec' = false ->
      is_set no_error = false /\
      (BIO_ctrl_pending (_ssl s') = 0 /\ SSL_want_read (_ssl s') = false \/
       (BIO_write toy_ready []).1 < 0 /\ s32 (ERR_get_error (BIO_write toy_ready []).2).1 = 0)
  end.
Proof.
  apply (tls_reenter linux_externals 5 [Started op_read [[x00]]] (mk_stream toy_ready (Some 0%nat) [] []) (mk_operation op_read [[x00]] 0) no_error).
  unfold progress. simpl. split_and!; [lia|vm_compute; discriminate|done|]. by exists [[x00]].
Defined.

(** ** Departures *)

(** A write that has been sent in full is re-entered, with nothing to transfer: the engine is asked about
    the result 0 of a call that was not made, it says that a system call has failed, and the operation ends with
    whatever the last one left in [errno] (here [EAGAIN]), although all bytes were transferred. *)
Example write_ends_with_errno :
  last (m_log (after (on_written linux_externals 5 (after (async_write_some linux_externals 5 (stream_init toy_ready) [[x41]])) 0 1 no_error 11))) =
  Some (Completed (mk_operation op_write [[x41]] 1) (mk_error_code (cxx_known system) 11)).
Proof. vm_compute. reflexivity. Qed.

(** When the wrapped stream takes a part of the ciphertext, the operation ends without an error while the rest
    stays in [_pending_output], and no transfer is in flight. *)
Example short_write_keeps_output :
  let m := after (on_written linux_externals 5 (after (async_write_some linux_externals 5 (stream_init toy_ready) [[x41; x42]])) 0 1 no_error 0) in
  last (m_log m) = Some (Completed (mk_operation op_write [[x41; x42]] 2) no_error) /\
  _pending_output (m_stream m) = [x42] /\ m_io m = [].
Proof. vm_compute. split_and!; reflexivity. Qed.

(** A read that is started while a connect is in progress is not noticed: two transfers of the wrapped stream are in flight. *)
Example read_during_connect : length (m_io (after (async_read_some linux_externals 5 hs1 [[x00]]))) = 2%nat.
Proof. vm_compute. reflexivity. Qed.

(** An engine whose BIO takes one byte at a time, and that wants to read as long as its handshake is not done: the second
    byte of the answer is written over by the read that follows. *)
Definition thin_engine : Engine toy := {|
  SSL_connect e := (-1, mk_toy true false true [] (toy_out e) (toy_errno e));
  SSL_read := SSL_read; SSL_write := SSL_write; SSL_get_error := SSL_get_error; SSL_want_read := SSL_want_read;
  SSL_set_tlsext_host_name := SSL_set_tlsext_host_name;
  BIO_write e data := (Z.min 1 (zlen data), mk_toy (toy_hello e) (toy_done e) (toy_want e) (toy_in e ++ take 1 data) (toy_out e) (toy_errno e));
  BIO_ctrl_pending := BIO_ctrl_pending; BIO_read := BIO_read; ERR_get_error := ERR_get_error; ERR_clear_error := ERR_clear_error;
  errno := toy_errno; set_errno := set_errno |}.

Example thin_engine_loses_input :
  let m := after (on_read (H := thin_engine) linux_externals 5 (after (connect (H := thin_engine) linux_externals 5 (stream_init toy_fresh))) 0 [x02; x03] no_error 0) in
  m_log m = [Started op_connect []; Received [x02; x03]; Fed [x02]; Overwritten [x03]] /\ m_io m = [(0%nat, do_read_some)].
Proof. vm_compute. split; reflexivity. Qed.

(** ** Verification of the peer *)

(** The last callback and the last mode of some settings. *)
Fixpoint last_callback (acc : option nat) (l : list setting) : option nat :=
  match l with [] => acc | callback_is cb :: l => last_callback (Some cb) l | _ :: l => last_callback acc l end.
Fixpoint last_mode (acc : Z) (l : list setting) : Z :=
  match l with [] => acc | mode_is mode :: l => last_mode mode l | _ :: l => last_mode acc l end.

(** The callback objects made by some settings. *)
Fixpoint made (l : list setting) : list nat :=
  match l with [] => [] | callback_is cb :: l => cb :: made l | _ :: l => made l end.

Definition owns (v : verification) : Prop :=
  callbacks v = match app_data v with Some cb => {[cb]} | None => ∅ end.

Lemma configure_spec l : forall v, owns v -> NoDup (option_list (app_data v) ++ made l) -> exists v',
  configure v l = Done v' /\ owns v' /\ app_data v' = last_callback (app_data v) l /\ verify_mode v' = last_mode (verify_mode v) l /\
  (verify_callback v' = match made l with [] => verify_callback v | _ => true end).
Proof.
  induction l as [|[mode|cb] l IH]; intros v Ho Hnd; [by exists v| |]; simpl.
  - apply (IH (set_verify_mode v mode).2 Ho Hnd).
  - unfold set_verify_callback, _replace_ssl_verify, delete_callback. simpl.
    assert (exists alive, (match app_data v with None => Done (callbacks v ∪ {[cb]}) | Some c =>
      if bool_decide (c ∈ callbacks v ∪ {[cb]}) then Done ((callbacks v ∪ {[cb]}) ∖ {[c]}) else Undef end) = Done alive /\ alive = {[cb]}) as (alive & -> & ->).
    { unfold owns in Ho. destruct (app_data v) as [c|]; rewrite Ho; [|eexists; split; [done|set_solver]].
      rewrite bool_decide_true by set_solver. eexists. split; [done|]. simpl in Hnd. apply NoDup_cons in Hnd as [Hnd _].
      rewrite elem_of_cons in Hnd. set_solver. }
    ostep. destruct (IH (mk_verification (verify_mode v) true (Some cb) {[cb]})) as (v' & E1 & Ho' & Ha & Hm & Hc); [done| |].
    { apply NoDup_app in Hnd as (_ & _ & Hnd). exact Hnd. }
    exists v'. split_and!; [done..|]. rewrite Hc. by destruct (made l).
Qed.

(** Whatever the order in which the verification mode and callbacks of a stream are set, the peer is verified by the
    callback that was set last, under the mode that was set last; each callback object that was
    replaced is deleted once, and the last one with the stream. *)
Theorem verify_callbacks do_verify l : NoDup (made l) -> exists v,
  configure (mk_verification 0 false None ∅) l = Done v /\ verify_mode v = last_mode 0 l /\
  (forall preverified ctx, ssl_verifiy_cb do_verify v preverified ctx =
     Done match ctx, last_callback None l with
          | Some true, Some cb => do_verify cb (negb (preverified =? 0))
          | _, _ => 0
          end) /\
  destroy_stream_base v = Done ∅.
Proof.
  intros Hnd. destruct (configure_spec l (mk_verification 0 false None ∅)) as (v & E1 & Ho & Ha & Hm & _); [done..|].
  exists v. simpl in Ha. unfold owns in Ho. split_and!; [done|done| |].
  - intros pre ctx. unfold ssl_verifiy_cb. destruct ctx as [[]|]; simpl; [|done|done]. rewrite <- Ha, Ho.
    destruct (app_data v) as [cb|]; [|done]. by rewrite bool_decide_true by set_solver.
  - unfold destroy_stream_base, delete_callback. rewrite Ho. destruct (app_data v) as [cb|]; [|done].
    rewrite bool_decide_true by set_solver. f_equal. set_solver.
Qed.

(** Witness of [verify_callbacks]: two callbacks, with a mode between them. *)
Lemma verify_callbacks_witness : exists v,
  configure (mk_verification 0 false None ∅) [callback_is 1%nat; mode_is 1; callback_is 2%nat] = Done v /\ verify_mode v = 1 /\
  (forall preverified ctx, ssl_verifiy_cb (fun cb _ => Z.of_nat cb) v preverified ctx = Done match ctx with Some true => 2 | _ => 0 end) /\
  destroy_stream_base v = Done ∅.
Proof.
  destruct (verify_callbacks (fun cb _ => Z.of_nat cb) [callback_is 1%nat; mode_is 1; callback_is 2%nat]) as (v & E1 & Hm & Hv & Hd).
  - apply NoDup_cons. split; [|apply NoDup_singleton]. rewrite list_elem_of_singleton. discriminate.
  - exists v. split_and!; [exact E1|exact Hm| |exact Hd]. intros pre ctx. rewrite Hv. by destruct ctx as [[]|].
Defined.
