(* ===== verification/Race.v ===== *)
(** * Simultaneous operations ([src/amongoc/nano])

    [simultaneous.hpp] starts several operations whose results go to one handler: [Module First] is that of
    [first.hpp] (the first accepted result stops the others), [Module All] that of [all.hpp] (all results are
    collected).  The operations complete on any thread, in any order: the steps are the critical section
    of the mutex, the atomic decrement, and what comes before and after them. *)
From Stdlib Require Import ZArith Lia.
From stdpp Require Import base numbers list.
From S2P Require Import Prelude.
Open Scope Z_scope.
Open Scope outcome_scope.

(** ** Sums over the operations *)

Definition total {A} (w : A -> Z) (l : list A) : Z := foldr (fun x acc => w x + acc) 0 l.

Lemma total_insert {A} (w : A -> Z) l i x y : l !! i = Some x -> total w (<[i := y]> l) = total w l - w x + w y.
Proof.
  revert i. induction l as [|a l IH]; intros [|i] Hi; simpl in *; [done|done| |].
  - injection Hi as ->. lia.
  - rewrite (IH i Hi). lia.
Qed.

Lemma total_nonneg {A} (w : A -> Z) l : (forall x, 0 <= w x) -> 0 <= total w l.
Proof. intros Hw. induction l as [|a l IH]; simpl; [lia|]. specialize (Hw a). lia. Qed.

Lemma total_le {A} (w w' : A -> Z) l : (forall x, w x <= w' x) -> total w l <= total w' l.
Proof. intros Hw. induction l as [|a l IH]; simpl; [lia|]. specialize (Hw a). lia. Qed.

Lemma total_pos {A} (w : A -> Z) l i x : (forall x, 0 <= w x) -> l !! i = Some x -> w x <= total w l.
Proof.
  intros Hw. revert i. induction l as [|a l IH]; intros [|i] Hi; simpl in *; [done|done| |].
  - injection Hi as ->. pose proof (total_nonneg w l Hw). lia.
  - specialize (IH i Hi). specialize (Hw a). lia.
Qed.

Lemma total_zero {A} (w : A -> Z) l i x : (forall x, 0 <= w x) -> total w l = 0 -> l !! i = Some x -> w x = 0.
Proof. intros Hw Hz Hi. pose proof (total_pos w l i x Hw Hi). specialize (Hw x). lia. Qed.

Lemma total_all {A} (w : A -> Z) l : (forall i x, l !! i = Some x -> w x = 0) -> total w l = 0.
Proof.
  induction l as [|a l IH]; intros Hl; [done|]. simpl. rewrite (Hl 0%nat a eq_refl), IH; [done|]. intros i x Hi. by apply (Hl (S i)).
Qed.

Lemma total_witness {A} (w : A -> Z) l : (forall x, 0 <= w x) -> total w l <> 0 -> exists i x, l !! i = Some x /\ w x <> 0.
Proof.
  intros Hw. induction l as [|a l IH]; intros Ht; [done|]. destruct (decide (w a = 0)) as [Ha|Ha]; [|by exists 0%nat, a].
  destruct IH as (i & x & Hi & Hx); [simpl in Ht; lia|]. by exists (S i), x.
Qed.

Lemma total_replicate {A} (w : A -> Z) n x : total w (replicate n x) = Z.of_nat n * w x.
Proof. induction n as [|n IH]; [done|]. simpl replicate. cbn [total foldr]. fold (total w (replicate n x)). lia. Qed.

(** Two phases of different operations. *)
Lemma total_two {A} (w : A -> Z) l i j x y : (forall x, 0 <= w x) -> i <> j -> l !! i = Some x -> l !! j = Some y -> w x + w y <= total w l.
Proof.
  intros Hw Hne Hi Hj. pose proof (total_insert w l i x x Hi) as Ht. rewrite list_insert_id in Ht by done.
  revert i j Hne Hi Hj. clear Ht. induction l as [|a l IH]; intros [|i] [|j] Hne Hi Hj; simpl in *; try done.
  - injection Hi as ->. pose proof (total_pos w l j y Hw Hj). lia.
  - injection Hj as ->. pose proof (total_pos w l i x Hw Hi). lia.
  - specialize (IH i j ltac:(congruence) Hi Hj). specialize (Hw a). lia.
Qed.

(** ** [first_where] *)

Module First.
Section First.
Context {V : Type}.

(** The predicate, and whether it has [on_none_accepted]. *)
Context (predicate : nat -> V -> bool) (on_none_accepted : bool).

(** Where a sub-operation is: not started, started, its result judged by the predicate, inside the critical section with
    its result accepted, past the critical section, returned.  [nremain] is the local variable of [nth_result]. *)
Inductive phase : Type :=
| pending
| running
| judged (x : V) (accepted : bool)
| stopping (x : V) (nremain : Z)
| unlocked (nremain : Z)
| returned.

(** The members of [handler], the sub-operations, and the history: the results in the order of the critical sections,
    and what the final receiver got. *)
Record handler : Type := mk_handler {
  _outstanding : Z;
  _result : option (nat * V);
  _stopper : bool;
  _mtx : option nat;
  phases : list phase;
  judgements : list (nat * V * bool);
  delivered : list (nat * V) }.

(** [connect]: the handler of [n] senders. *)
Definition connect (n : nat) : handler := mk_handler (Z.of_nat n) None false None (replicate n pending) [] [].

Definition with_phase (h : handler) (N : nat) (p : phase) : handler :=
  mk_handler (_outstanding h) (_result h) (_stopper h) (_mtx h) (<[N := p]> (phases h)) (judgements h) (delivered h).

(** [_start_one] of the [N]th. *)
Definition _start_one (h : handler) (N : nat) : handler := with_phase h N running.

(** [nth_result<N>(x)] up to the lock. *)
Definition judge (h : handler) (N : nat) (x : V) : handler := with_phase h N (judged x (predicate N x)).

(** The critical section, up to the request to stop when this is the first accepted result. *)
Definition lock_section (h : handler) (N : nat) (x : V) (accepted : bool) : handler :=
  let nremain := _outstanding h - 1 in
  if bool_decide (_result h = None) && accepted
  then mk_handler nremain (_result h) true (Some N) (<[N := stopping x nremain]> (phases h)) (judgements h ++ [(N, x, accepted)]) (delivered h)
  else mk_handler nremain (_result h) (_stopper h) None (<[N := unlocked nremain]> (phases h)) (judgements h ++ [(N, x, accepted)]) (delivered h).

(** The rest of it: the result is stored and the mutex released. *)
Definition emplace (h : handler) (N : nat) (x : V) (nremain : Z) : handler :=
  mk_handler (_outstanding h) (Some (N, x)) (_stopper h) None (<[N := unlocked nremain]> (phases h)) (judgements h) (delivered h).

(** After the critical section.  Without [on_none_accepted] the process is terminated; with it, the predicate is
    told, and the empty optional is dereferenced. *)
Definition after_lock (h : handler) (N : nat) (nremain : Z) : outcome handler :=
  if nremain =? 0 then
    match _result h with
    | None => if on_none_accepted then Undef else Abort
    | Some r => Done (mk_handler (_outstanding h) (_result h) (_stopper h) (_mtx h) (<[N := returned]> (phases h)) (judgements h) (delivered h ++ [r]))
    end
  else Done (with_phase h N returned).

(** The stop forwarder: the token of the final receiver was triggered. *)
Definition forward_stop (h : handler) : handler :=
  mk_handler (_outstanding h) (_result h) true (_mtx h) (phases h) (judgements h) (delivered h).

(** The steps.  [sync]: a sub-operation may complete inside its stop callback, which [request_stop] runs in the thread that has
    the mutex: locking it again is undefined. *)
Inductive step (sync : bool) (h : handler) : outcome handler -> Prop :=
| step_start N : phases h !! N = Some pending -> step sync h (Done (_start_one h N))
| step_judge N x : phases h !! N = Some running -> step sync h (Done (judge h N x))
| step_lock N x accepted : phases h !! N = Some (judged x accepted) -> _mtx h = None -> step sync h (Done (lock_section h N x accepted))
| step_emplace N x nremain : phases h !! N = Some (stopping x nremain) -> step sync h (Done (emplace h N x nremain))
| step_relock N M x nremain : sync = true -> phases h !! N = Some (stopping x nremain) -> phases h !! M = Some running -> step sync h Undef
| step_after N nremain : phases h !! N = Some (unlocked nremain) -> step sync h (after_lock h N nremain)
| step_forward : delivered h = [] -> step sync h (Done (forward_stop h)).

Inductive reachable (sync : bool) (n : nat) : handler -> Prop :=
| reach_connect : reachable sync n (connect n)
| reach_step h h' : reachable sync n h -> step sync h (Done h') -> reachable sync n h'.

(** [empty_start]: a race of no senders. *)
Definition empty_start : outcome unit := if on_none_accepted then Done tt else Abort.

End First.
Arguments phase V : clear implicits.
Arguments handler V : clear implicits.

(** [always]: the predicate of [first_completed]. *)
Definition always {V} : nat -> V -> bool := fun _ _ => true.
End First.

(** ** [when_all] *)

Module All.
Section All.
Context {V : Type}.

(** Not started, started, its result stored, past the decrement (with the value before it), returned. *)
Inductive phase : Type := pending | running | stored | counted (before : Z) | returned.

Record handler : Type := mk_handler {
  _opts : list (option V);
  _n_remaining : Z;
  phases : list phase;
  delivered : list (list V);
  results : list (nat * V)   (* history: what each sub-operation resolved to *) }.

Definition connect (n : nat) : handler := mk_handler (replicate n None) (Z.of_nat n) (replicate n pending) [] [].

Definition _start_one (h : handler) (N : nat) : handler :=
  mk_handler (_opts h) (_n_remaining h) (<[N := running]> (phases h)) (delivered h) (results h).

(** [nth_result<N>(x)]: the result is stored in its own slot; *)
Definition store (h : handler) (N : nat) (x : V) : handler :=
  mk_handler (<[N := Some x]> (_opts h)) (_n_remaining h) (<[N := stored]> (phases h)) (delivered h) (results h ++ [(N, x)]).

(** the counter is decremented, [fetch_sub(1)]; *)
Definition fetch_sub (h : handler) (N : nat) : handler :=
  mk_handler (_opts h) (_n_remaining h - 1) (<[N := counted (_n_remaining h)]> (phases h)) (delivered h) (results h).

(** [_finish]: every optional is dereferenced. *)
Definition _finish (h : handler) : outcome (list V) :=
  match mapM id (_opts h) with Some l => Done l | None => Undef end.

(** [empty_start], without senders. *)
Definition empty_start : outcome (list V) := _finish (connect 0).

(** and when it was the last, the receiver gets them all. *)
Definition after_count (h : handler) (N : nat) (before : Z) : outcome handler :=
  if before =? 1 then
    let* fin := _finish h in
    Done (mk_handler (_opts h) (_n_remaining h) (<[N := returned]> (phases h)) (delivered h ++ [fin]) (results h))
  else Done (mk_handler (_opts h) (_n_remaining h) (<[N := returned]> (phases h)) (delivered h) (results h)).

Inductive step (h : handler) : outcome handler -> Prop :=
| step_start N : phases h !! N = Some pending -> step h (Done (_start_one h N))
| step_store N x : phases h !! N = Some running -> step h (Done (store h N x))
| step_count N : phases h !! N = Some stored -> step h (Done (fetch_sub h N))
| step_after N before : phases h !! N = Some (counted before) -> step h (after_count h N before).

Inductive reachable (n : nat) : handler -> Prop :=
| reach_connect : reachable n (connect n)
| reach_step h h' : reachable n h -> step h (Done h') -> reachable n h'.

End All.
Arguments handler V : clear implicits.
End All.
