(* ===== verification/RaceSpec.v ===== *)
(** * What simultaneous operations guarantee

    The invariants of [Race.v] on every interleaving, what the final receiver gets, and that a race ends; with [sync] a sub-operation may also
    complete inside its stop callback. *)
From Stdlib Require Import ZArith Lia.
From stdpp Require Import base numbers list.
From S2P Require Import Prelude.
From S2P Require Import Race.
Open Scope Z_scope.
Open Scope outcome_scope.

(** One sub-operation changes its phase. *)
Lemma lookup_insert_cases {A} (l : list A) N M x y : <[N := x]> l !! M = Some y ->
  (M = N /\ y = x) \/ (M <> N /\ l !! M = Some y).
Proof.
  intros Hl. destruct (decide (M = N)) as [->|Hne]; [|rewrite list_lookup_insert_ne in Hl by done; auto].
  left. apply lookup_lt_Some in Hl as Hlt. rewrite length_insert in Hlt.
  rewrite list_lookup_insert_eq in Hl by done. split; congruence.
Qed.

Lemma zlen_nil_iff {A} (l : list A) : zlen l <= 0 -> l = [].
Proof. destruct l as [|a l]; [done|]. rewrite zlen_cons. pose proof (zlen_nonneg l). lia. Qed.

(** ** [first_where] *)

Section First.
Context {V : Type} (predicate : nat -> V -> bool) (on_none_accepted : bool).
(** Whether a sub-operation may complete inside its stop callback. *)
Context (sync : bool).
Import Race.First.

(** The first judgement that was in favour. *)
Fixpoint first_accepted (js : list (nat * V * bool)) : option (nat * V) :=
  match js with
  | [] => None
  | (N, x, true) :: _ => Some (N, x)
  | _ :: js => first_accepted js
  end.

Lemma first_accepted_snoc js N x a : first_accepted (js ++ [(N, x, a)]) =
  match first_accepted js with Some r => Some r | None => if a then Some (N, x) else None end.
Proof. induction js as [|[[M y] []] js IH]; simpl; [by destruct a|done|done]. Qed.

(** The sub-operation has not been through the critical section. *)
Definition before_lock (p : phase V) : Z := match p with pending | running | judged _ _ => 1 | _ => 0 end.
(** It is the last, and the final receiver waits for it. *)
Definition last_one (p : phase V) : Z :=
  match p with stopping _ r | unlocked r => if r =? 0 then 1 else 0 | _ => 0 end.
(** How many steps it has ahead. *)
Definition ahead (p : phase V) : Z :=
  match p with pending => 5 | running => 4 | judged _ _ => 3 | stopping _ _ => 2 | unlocked _ => 1 | returned => 0 end.

Lemma before_lock_nonneg p : 0 <= before_lock p. Proof. by destruct p. Qed.
Lemma last_one_nonneg p : 0 <= last_one p. Proof. destruct p; simpl; try done; by case_match. Qed.
Lemma ahead_nonneg p : 0 <= ahead p. Proof. by destruct p. Qed.

Record race_inv (n : nat) (h : handler V) : Prop := {
  ri_length : length (phases h) = n;
  ri_outstanding : _outstanding h = total before_lock (phases h);
  ri_mutex : forall N x r, phases h !! N = Some (stopping x r) ->
    _mtx h = Some N /\ r = _outstanding h /\ first_accepted (judgements h) = Some (N, x);
  ri_held : forall N, _mtx h = Some N -> _result h = None /\ exists x r, phases h !! N = Some (stopping x r);
  ri_result : _mtx h = None -> _result h = first_accepted (judgements h);
  ri_last : total last_one (phases h) + zlen (delivered h) = if _outstanding h =? 0 then 1 else 0;
  ri_delivered : forall v, v ∈ delivered h -> _result h = Some v;
  ri_judged : forall N x a, phases h !! N = Some (judged x a) -> a = predicate N x;
  ri_judgements : forall N x a, (N, x, a) ∈ judgements h -> a = predicate N x;
  ri_stopped : first_accepted (judgements h) <> None -> _stopper h = true }.

Lemma connect_inv n : (0 < n)%nat -> race_inv n (connect n).
Proof.
  intros Hn. split; simpl; try done.
  - apply length_replicate.
  - rewrite total_replicate. simpl. lia.
  - intros N x r Hl. by apply lookup_replicate in Hl as [? _].
  - rewrite total_replicate. unfold zlen. simpl. destruct (Z.eqb_spec (Z.of_nat n) 0); lia.
  - intros v Hv. by apply elem_of_nil in Hv.
  - intros N x a Hl. by apply lookup_replicate in Hl as [? _].
  - intros N x a Hv. by apply elem_of_nil in Hv.
Qed.

(** A step of a sub-operation that leaves what it counts for unchanged. *)
Lemma quiet_inv n h N p p' : race_inv n h -> phases h !! N = Some p -> before_lock p' = before_lock p -> last_one p' = last_one p ->
  (forall x r, p' <> stopping x r) -> (forall x r, p <> stopping x r) -> (forall x a, p' = judged x a -> a = predicate N x) ->
  race_inv n (with_phase h N p').
Proof.
  intros [L O M Hd R La D J Js S] Hp Hb Hl Hs Hs' Hj. split; simpl; try done.
  - by rewrite length_insert.
  - rewrite (total_insert _ _ _ _ _ Hp). lia.
  - intros N' x r [[-> E]|[_ E]]%lookup_insert_cases; [by destruct (Hs x r)|by apply M].
  - intros N' HN. destruct (Hd N' HN) as (? & x & r & E). split; [done|]. exists x, r.
    destruct (decide (N' = N)) as [->|]; [|by rewrite list_lookup_insert_ne]. rewrite Hp in E. injection E as ->. by destruct (Hs' x r).
  - rewrite (total_insert _ _ _ _ _ Hp). lia.
  - intros N' x a [[-> Ha]|[_ E]]%lookup_insert_cases; [by eapply Hj|by apply (J N')].
Qed.

Lemma lock_inv n h N x a : race_inv n h -> phases h !! N = Some (judged x a) -> _mtx h = None -> race_inv n (lock_section h N x a).
Proof.
  intros Hi Hp Hm. pose proof Hi as [L O M Hd R La D J Js S]. pose proof (J N x a Hp) as Ha.
  assert (0 < _outstanding h) as Hpos. { rewrite O. pose proof (total_pos before_lock _ _ _ before_lock_nonneg Hp) as Ht. simpl in Ht. lia. }
  rewrite (proj2 (Z.eqb_neq _ _)) in La by lia. pose proof (total_nonneg last_one (phases h) last_one_nonneg). pose proof (zlen_nonneg (delivered h)).
  assert (delivered h = []) as Hdel. { apply zlen_nil_iff. lia. }
  assert (forall p', before_lock p' = 0 -> _outstanding h - 1 = total before_lock (<[N := p']> (phases h))) as Hout.
  { intros p' Hz. rewrite (total_insert _ _ _ _ _ Hp). simpl. lia. }
  assert (forall r, total last_one (<[N := unlocked r]> (phases h)) = (if r =? 0 then 1 else 0) /\
                    forall y, total last_one (<[N := stopping y r]> (phases h)) = (if r =? 0 then 1 else 0)) as Hlast.
  { intros r. split; [|intros y]; rewrite (total_insert _ _ _ _ _ Hp); simpl; lia. }
  assert (forall N' y r, phases h !! N' = Some (stopping y r) -> False) as Hno.
  { intros N' y r E. destruct (M N' y r E) as [E' _]. by rewrite Hm in E'. }
  assert (forall N' y b, (N', y, b) ∈ judgements h ++ [(N, x, a)] -> b = predicate N' y) as Hjs.
  { intros N' y b [Hin|Hin]%elem_of_app; [by apply Js|]. apply list_elem_of_singleton in Hin. by injection Hin as -> -> ->. }
  unfold lock_section. destruct (bool_decide (_result h = None) && a) eqn:Eb.
  - apply andb_true_iff in Eb as [Hres%bool_decide_eq_true Hta]. rewrite Hta in *.
    split; cbn [_outstanding _result _stopper _mtx phases judgements delivered]; try done.
    + by rewrite length_insert.
    + by apply Hout.
    + intros N' y r [[-> E]|[_ E]]%lookup_insert_cases; [|by apply Hno in E]. injection E as -> ->.
      rewrite first_accepted_snoc, <- (R Hm), Hres. done.
    + intros N' [= <-]. split; [done|]. exists x, (_outstanding h - 1). apply list_lookup_insert_eq. by eapply lookup_lt_Some.
    + rewrite Hdel, zlen_nil. destruct (Hlast (_outstanding h - 1)) as [_ Hl]. rewrite Hl. lia.
    + by intros N' y b [[-> E]|[_ E]]%lookup_insert_cases; [done|apply J].
  - assert (first_accepted (judgements h ++ [(N, x, a)]) = _result h) as Hres.
    { rewrite first_accepted_snoc, <- (R Hm). destruct (_result h) as [r|]; [done|]. simpl in Eb. by rewrite Eb. }
    split; cbn [_outstanding _result _stopper _mtx phases judgements delivered]; try done.
    + by rewrite length_insert.
    + by apply Hout.
    + by intros N' y r [[-> E]|[_ E]]%lookup_insert_cases; [|apply Hno in E].
    + rewrite Hdel, zlen_nil. destruct (Hlast (_outstanding h - 1)) as [Hl _]. rewrite Hl. lia.
    + by intros N' y b [[-> E]|[_ E]]%lookup_insert_cases; [done|apply J].
    + rewrite Hres, (R Hm). apply S.
Qed.

Lemma emplace_inv n h N x r : race_inv n h -> phases h !! N = Some (stopping x r) -> race_inv n (emplace h N x r).
Proof.
  intros [L O M Hd R La D J Js S] Hp. destruct (M N x r Hp) as (Hm & Hr & Hf). destruct (Hd N Hm) as [Hres _].
  split; cbn [emplace _outstanding _result _stopper _mtx phases judgements delivered]; try done.
  - by rewrite length_insert.
  - rewrite (total_insert _ _ _ _ _ Hp). simpl. lia.
  - intros N' y r' [[-> E]|[Hne E]]%lookup_insert_cases; [done|]. destruct (M N' y r' E) as [Hm' _]. rewrite Hm in Hm'. by injection Hm'.
  - rewrite (total_insert _ _ _ _ _ Hp). simpl. lia.
  - intros v Hv. apply D in Hv. by rewrite Hres in Hv.
  - by intros N' y b [[-> E]|[_ E]]%lookup_insert_cases; [done|apply J].
Qed.

(** When the last operation has left the critical section, the mutex is free and nobody is before it. *)
Lemma last_unlocked n h N r : race_inv n h -> phases h !! N = Some (unlocked r) -> r = 0 ->
  _outstanding h = 0 /\ _mtx h = None /\ delivered h = [].
Proof.
  intros [L O M Hd R La D J Js S] Hp ->. pose proof (total_pos last_one _ _ _ last_one_nonneg Hp) as Ht. simpl in Ht.
  pose proof (zlen_nonneg (delivered h)). destruct (Z.eqb_spec (_outstanding h) 0) as [Ho|Ho]; [|lia]. split; [done|].
  split; [|apply zlen_nil_iff; lia].
  destruct (_mtx h) as [M'|] eqn:Em; [|done]. exfalso. destruct (Hd M' eq_refl) as (_ & x & r & E). destruct (M M' x r E) as (_ & -> & _).
  assert (M' <> N) as Hne by (intros ->; rewrite Hp in E; done).
  pose proof (total_two last_one _ _ _ _ _ last_one_nonneg Hne E Hp) as H2. simpl in H2. rewrite Ho in H2. simpl in H2. lia.
Qed.

Lemma after_inv n h N r : race_inv n h -> phases h !! N = Some (unlocked r) ->
  (exists h', after_lock on_none_accepted h N r = Done h' /\ race_inv n h') \/
  (after_lock on_none_accepted h N r = (if on_none_accepted then Undef else Abort) /\ _outstanding h = 0 /\ first_accepted (judgements h) = None).
Proof.
  intros Hi Hp. unfold after_lock. destruct (Z.eqb_spec r 0) as [Hr|Hr].
  - destruct (last_unlocked n h N r Hi Hp Hr) as (Ho & Hm & Hdel). pose proof Hi as [L O M Hd R La D J Js S].
    destruct (_result h) as [v|] eqn:Ev; [|right; split; [by destruct on_none_accepted|]; by rewrite <- (R Hm)].
    left. eexists. split; [done|]. split; cbn [_outstanding _result _stopper _mtx phases judgements delivered]; try done.
    + by rewrite length_insert.
    + rewrite (total_insert _ _ _ _ _ Hp). simpl. lia.
    + intros N' y r' [[-> E]|[_ E]]%lookup_insert_cases; [done|by apply M].
    + intros N' E. by rewrite Hm in E.
    + rewrite (total_insert _ _ _ _ _ Hp). cbn [last_one]. rewrite Hr. rewrite Ho, Hdel in La |- *. unfold zlen in *. simpl in *. lia.
    + rewrite Hdel. intros v' Hv'. apply list_elem_of_singleton in Hv'. congruence.
    + by intros N' y b [[-> E]|[_ E]]%lookup_insert_cases; [done|apply J].
  - left. eexists. split; [done|]. eapply quiet_inv; try done. simpl. by rewrite (proj2 (Z.eqb_neq _ _)).
Qed.

Lemma forward_inv n h : race_inv n h -> race_inv n (forward_stop h).
Proof. by intros [L O M Hd R La D J Js S]; split. Qed.

(** The mutex is locked again by the thread that has it: a sub-operation completes in the stop callback that the request to stop, in
    the critical section of the first accepted result, has run. *)
Definition relocks (h : handler V) : Prop :=
  exists N M x r, _mtx h = Some N /\ phases h !! N = Some (stopping x r) /\ phases h !! M = Some running.

Lemma race_step_inv n h r : race_inv n h -> step predicate on_none_accepted sync h r ->
  (exists h', r = Done h' /\ race_inv n h') \/
  (r = (if on_none_accepted then Undef else Abort) /\ _outstanding h = 0 /\ first_accepted (judgements h) = None) \/
  (sync = true /\ r = Undef /\ relocks h).
Proof.
  intros Hi Hs. destruct Hs as [N Hp|N x Hp|N x a Hp Hm|N x r Hp|N M x r Hsync Hp Hq|N r Hp|_].
  - left. eexists. split; [done|]. by eapply quiet_inv.
  - left. eexists. split; [done|]. eapply quiet_inv; try done. by intros y b [= -> ->].
  - left. eexists. split; [done|]. by apply lock_inv.
  - left. eexists. split; [done|]. by apply emplace_inv.
  - right. right. split_and!; [done|done|]. exists N, M, x, r. by split_and!; [apply (ri_mutex n h Hi N x r)|..].
  - destruct (after_inv n h N r Hi Hp) as [?|?]; auto.
  - left. eexists. split; [done|]. by apply forward_inv.
Qed.

Lemma race_reachable_inv n h : (0 < n)%nat -> reachable predicate on_none_accepted sync n h -> race_inv n h.
Proof.
  intros Hn. induction 1 as [|h h' _ IH Hs]; [by apply connect_inv|].
  destruct (race_step_inv n h _ IH Hs) as [(h1 & [= ->] & Hi)|[[Hr _]|(_ & ? & _)]]; [done| |done]. by destruct on_none_accepted.
Qed.

Lemma first_accepted_in js N x : first_accepted js = Some (N, x) -> (N, x, true) ∈ js.
Proof. induction js as [|[[M' y] []] js IH]; simpl; [done|intros [= -> ->]; by left|]. intros E. right. by apply IH. Qed.

Lemma accepted_by n h N x : race_inv n h -> first_accepted (judgements h) = Some (N, x) -> predicate N x = true.
Proof. intros Hi Hf. symmetry. eapply (ri_judgements n h Hi). by apply first_accepted_in. Qed.

(** Every sub-operation has resolved, and left the critical section. *)
Definition all_resolved (h : handler V) : Prop :=
  forall N p, phases h !! N = Some p -> match p with unlocked _ | returned => True | _ => False end.

(** What the final receiver has got. *)
Lemma final_result n (h : handler V) : (0 < n)%nat -> reachable predicate on_none_accepted sync n h ->
  delivered h = [] \/
  exists N x, delivered h = [(N, x)] /\ first_accepted (judgements h) = Some (N, x) /\ predicate N x = true /\ _stopper h = true /\ all_resolved h.
Proof.
  intros Hn Hr. pose proof (race_reachable_inv n h Hn Hr) as Hi.
  pose proof Hi as [L O M Hd R La D J Js S]. destruct (delivered h) as [|v l] eqn:Ed; [by left|]. right.
  rewrite zlen_cons in La. pose proof (zlen_nonneg l). pose proof (total_nonneg last_one (phases h) last_one_nonneg).
  destruct (Z.eqb_spec (_outstanding h) 0) as [Ho|]; [|lia].
  assert (l = []) as -> by (apply zlen_nil_iff; lia).
  assert (_result h = Some v) as Hv by (apply D; by left).
  assert (_mtx h = None) as Hm. { destruct (_mtx h) as [M'|] eqn:Em; [|done]. destruct (Hd M' eq_refl) as [E _]. congruence. }
  pose proof (R Hm) as Hf. rewrite Hv in Hf. destruct v as [N x]. exists N, x. split_and!; try done.
  - by eapply accepted_by.
  - apply S. congruence.
  - intros N' p E. pose proof (total_zero before_lock _ _ _ before_lock_nonneg (eq_trans (eq_sym O) Ho) E) as Hz.
    destruct p; simpl in Hz; try done. destruct (M N' _ _ E) as [E' _]. congruence.
Qed.

(** The critical sections are counted, and belong to sub-operations. *)
Lemma judgement_log n (h : handler V) : reachable predicate on_none_accepted sync n h ->
  zlen (judgements h) + _outstanding h = Z.of_nat n /\ length (phases h) = n /\
  forall N x a, (N, x, a) ∈ judgements h -> (N < n)%nat.
Proof.
  induction 1 as [|h h' _ IH Hs].
  - simpl. rewrite length_replicate, zlen_nil. split_and!; [lia|done|]. intros N x a Ha. by apply not_elem_of_nil in Ha.
  - destruct IH as (Hz & Hl & Hn). inversion Hs as [N Hp|N x Hp|N x a Hp Hm|N x r Hp| |N r Hp E|Hd]; subst; try done.
    + unfold _start_one, with_phase. simpl. by rewrite length_insert.
    + unfold judge, with_phase. simpl. by rewrite length_insert.
    + apply lookup_lt_Some in Hp. unfold lock_section.
      destruct (bool_decide _ && a); simpl; rewrite length_insert, zlen_app, zlen_cons, zlen_nil; (split_and!; [lia|done|]);
        intros M y b [Hb|[= -> -> ->]%list_elem_of_singleton]%elem_of_app; [by eapply Hn|lia|by eapply Hn|lia].
    + unfold emplace. simpl. by rewrite length_insert.
    + unfold after_lock in E. destruct (r =? 0); [destruct (_result h); [|by destruct on_none_accepted]|]; injection E as <-; simpl; by rewrite length_insert.
Qed.

(** C12. A race of operations, however they interleave: the final receiver is invoked at most once, after
    every sub-operation has resolved and left the critical section, with the first result that the predicate
    accepted (in the order of the critical sections), and the others were told to stop.  A step is undefined or stops the process in
    two situations only: no result was accepted at all; or ([sync]) a sub-operation completes inside the stop callback that the critical
    section has run, and its thread locks the mutex again. *)
Theorem race_result n (h : handler V) : (0 < n)%nat -> reachable predicate on_none_accepted sync n h ->
  (delivered h = [] \/
   exists N x, delivered h = [(N, x)] /\ first_accepted (judgements h) = Some (N, x) /\ predicate N x = true /\ _stopper h = true /\ all_resolved h) /\
  (forall r, step predicate on_none_accepted sync h r -> (forall h', r <> Done h') ->
     (first_accepted (judgements h) = None /\ _outstanding h = 0 /\ r = (if on_none_accepted then Undef else Abort)) \/
     (sync = true /\ r = Undef /\ relocks h)).
Proof.
  intros Hn Hr. pose proof (race_reachable_inv n h Hn Hr) as Hi. split; [by eapply final_result|].
  intros r Hs Hnd. destruct (race_step_inv n h r Hi Hs) as [(h' & -> & _)|[(-> & Ho & Hf)|?]]; [by destruct (Hnd h')|by left|by right].
Qed.

(** ** Progress *)

(** The steps that the sub-operations have ahead. *)
Definition todo (h : handler V) : Z := total ahead (phases h).

(** A run to the end: every sub-operation has returned, or the process has stopped. *)
Inductive run : handler V -> outcome (handler V) -> Prop :=
| run_end h : todo h = 0 -> run h (Done h)
| run_stop h r : step predicate on_none_accepted sync h r -> (forall h', r <> Done h') -> run h r
| run_step h h' r : step predicate on_none_accepted sync h (Done h') -> todo h' < todo h -> run h' r -> run h r.

Lemma todo_insert h N p p' : phases h !! N = Some p -> ahead p' < ahead p -> total ahead (<[N := p']> (phases h)) < todo h.
Proof. intros Hp Ha. unfold todo. rewrite (total_insert _ _ _ _ _ Hp). lia. Qed.

Lemma race_progress (results : nat -> V) n h : race_inv n h -> todo h <> 0 -> exists r,
  step predicate on_none_accepted sync h r /\ ((exists h', r = Done h') \/ r = (if on_none_accepted then Undef else Abort)) /\
  forall h', r = Done h' -> todo h' < todo h.
Proof.
  intros [L O M Hd R La D J Js S] Ht. destruct (_mtx h) as [N|] eqn:Hm.
  { destruct (Hd N eq_refl) as (_ & x & r & Hp). eexists. split; [by eapply step_emplace|]. split; [by left; eexists|]. intros h' [= <-]. by eapply todo_insert. }
  destruct (total_witness ahead (phases h) ahead_nonneg Ht) as (N & p & Hp & Ha). destruct p as [| |x a|x r|r|]; [..|done].
  - eexists. split; [by apply step_start|]. split; [by left; eexists|]. intros h' [= <-]. by eapply todo_insert.
  - eexists. split; [by apply (step_judge _ _ _ _ N (results N))|]. split; [by left; eexists|]. intros h' [= <-]. by eapply todo_insert.
  - eexists. split; [by eapply step_lock|]. split; [by left; eexists|]. intros h' [= <-]. unfold lock_section. destruct (bool_decide _ && a); by eapply todo_insert.
  - destruct (M N x r Hp) as [E _]. done.
  - eexists. split; [by eapply step_after|]. unfold after_lock. destruct (r =? 0); [destruct (_result h)|].
    + split; [by left; eexists|]. intros h' [= <-]. by eapply todo_insert.
    + split; [by right|by destruct on_none_accepted].
    + split; [by left; eexists|]. intros h' [= <-]. by eapply todo_insert.
Qed.

(** When all have returned the receiver was invoked. *)
Lemma ended n h : race_inv n h -> (0 < n)%nat -> todo h = 0 -> exists N x, delivered h = [(N, x)] /\ predicate N x = true.
Proof.
  intros Hi Hn Hz.
  assert (forall N p, phases h !! N = Some p -> p = returned) as Hret.
  { intros N p E. pose proof (total_zero ahead _ _ _ ahead_nonneg Hz E) as Ha. by destruct p. }
  pose proof Hi as [L O M Hd R La D J Js S].
  assert (forall w, w returned = 0 -> total w (phases h) = 0) as Hw.
  { intros w Hwr. apply total_all. by intros N p ->%Hret. }
  rewrite (Hw last_one eq_refl) in La. rewrite (Hw before_lock eq_refl) in O. rewrite O in La. simpl in La.
  destruct (delivered h) as [|v [|v' l]] eqn:Ed; [done| |rewrite !zlen_cons in La; pose proof (zlen_nonneg l); lia].
  assert (_result h = Some v) as Hv by (apply D; by left). destruct v as [N x]. exists N, x. split; [done|].
  assert (_mtx h = None) as Hm. { destruct (_mtx h) as [M'|] eqn:Em; [|done]. destruct (Hd M' eq_refl) as [E _]. congruence. }
  rewrite (R Hm) in Hv. by apply (accepted_by n h N x).
Qed.

(** C31. A race ends: whatever the sub-operations resolve to ([results]), from every configuration that an interleaving has led
    to the race can be run to its end, by at most five steps of each sub-operation, and then
    the final receiver has been invoked, once; only a race in which nothing was accepted ends otherwise.  In this run every
    sub-operation completes outside of its stop callback: then the mutex does not block it.  (One that completes inside
    is undefined, [race_result].) *)
Theorem race_finishes (results : nat -> V) n h : (0 < n)%nat -> reachable predicate on_none_accepted sync n h -> exists r,
  run h r /\ todo h <= 5 * Z.of_nat n /\
  match r with
  | Done h' => exists N x, delivered h' = [(N, x)] /\ predicate N x = true
  | _ => r = (if on_none_accepted then Undef else Abort)
  end.
Proof.
  intros Hn Hr. pose proof (race_reachable_inv n h Hn Hr) as Hi. clear Hr.
  assert (todo h <= 5 * Z.of_nat n) as Hb.
  { destruct Hi as [L _ _ _ _ _ _ _ _ _]. rewrite <- L. unfold todo. clear. induction (phases h) as [|p l IH]; simpl; [done|].
    destruct p; simpl; lia. }
  assert (exists k, todo h <= Z.of_nat k) as [k Hk] by (exists (Z.to_nat (todo h)); lia).
  assert (exists r, run h r /\ match r with Done h' => exists N x, delivered h' = [(N, x)] /\ predicate N x = true | _ => r = (if on_none_accepted then Undef else Abort) end)
    as (r & Hrun & Hout); [clear Hb|by exists r].
  induction k as [|k IH] in h, Hi, Hk |- *; (destruct (decide (todo h = 0)) as [Hz|Hz];
    [exists (Done h); split; [by apply run_end|]; by apply (ended n)|]); [pose proof (total_nonneg ahead (phases h) ahead_nonneg); unfold todo in *; lia|].
  destruct (race_progress results n h Hi Hz) as (r & Hs & Hout & Hdec).
  destruct Hout as [[h' ->] | ->]; [destruct (race_step_inv n h _ Hi Hs) as [(h1 & [= <-] & Hi')|[(Hr & _)|(_ & Hr & _)]]; [|by destruct on_none_accepted|done]|].
  - specialize (Hdec h' eq_refl). destruct (IH h' Hi') as (r & Hrun & Hout); [lia|]. exists r. split; [by eapply run_step|done].
  - exists (if on_none_accepted then Undef else Abort). split; [apply run_stop; [done|by destruct on_none_accepted]|by destruct on_none_accepted].
Qed.
End First.

(** ** [when_all] *)

Section All.
Context {V : Type}.
Import Race.All.

Definition before_count (p : phase) : Z := match p with pending | running | stored => 1 | _ => 0 end.
Definition last_counted (p : phase) : Z := match p with counted b => if b =? 1 then 1 else 0 | _ => 0 end.

Definition before_store (p : phase) : Z := match p with pending | running => 1 | _ => 0 end.

Lemma before_count_nonneg p : 0 <= before_count p. Proof. by destruct p. Qed.
Lemma last_counted_nonneg p : 0 <= last_counted p. Proof. destruct p; simpl; try done; by case_match. Qed.

(** A slot is filled from the phase [stored] on. *)
Definition slot_ok (p : phase) (o : option V) : Prop :=
  match p with pending | running => o = None | _ => is_Some o end.

Record all_inv (n : nat) (h : handler V) : Prop := {
  ai_length : length (phases h) = n;
  ai_remaining : _n_remaining h = total before_count (phases h);
  ai_slots : Forall2 slot_ok (phases h) (_opts h);
  ai_last : total last_counted (phases h) + zlen (delivered h) = if _n_remaining h =? 0 then 1 else 0;
  ai_delivered : forall l, l ∈ delivered h -> _opts h = Some <$> l;
  ai_results : forall N x, _opts h !! N = Some (Some x) <-> (N, x) ∈ results h;
  ai_count : zlen (results h) + total before_store (phases h) = Z.of_nat n }.

Lemma all_connect_inv n : (0 < n)%nat -> all_inv n (connect n).
Proof.
  intros Hn. split; simpl.
  - apply length_replicate.
  - rewrite total_replicate. simpl. lia.
  - clear Hn. induction n; by constructor.
  - rewrite total_replicate. unfold zlen. simpl. destruct (Z.eqb_spec (Z.of_nat n) 0); lia.
  - intros l Hl. by apply elem_of_nil in Hl.
  - intros N x. rewrite elem_of_nil. split; [|done]. intros E. by apply lookup_replicate in E as [[=] _].
  - rewrite total_replicate, zlen_nil. simpl. lia.
Qed.

(** While a sub-operation is before the decrement, nothing was delivered. *)
Lemma not_delivered n h N p : all_inv n h -> phases h !! N = Some p -> before_count p = 1 -> 0 < _n_remaining h /\ delivered h = [].
Proof.
  intros [L R S La D _ _] Hp Hb. pose proof (total_pos before_count _ _ _ before_count_nonneg Hp). rewrite (proj2 (Z.eqb_neq _ _)) in La by lia.
  split; [lia|]. pose proof (total_nonneg last_counted (phases h) last_counted_nonneg).
  apply zlen_nil_iff. lia.
Qed.

Lemma slots_filled (ps : list phase) os : Forall2 slot_ok ps os -> total before_count ps = 0 -> exists l, mapM id os = Some l /\ os = Some <$> l.
Proof.
  induction 1 as [|p o ps os Hp _ IH]; intros Ht; [by exists []|]. cbn [total foldr] in Ht. fold (total before_count ps) in Ht.
  pose proof (total_nonneg before_count ps before_count_nonneg). pose proof (before_count_nonneg p).
  destruct IH as (l & El & ->); [lia|]. destruct p; simpl in Ht, Hp; try lia; destruct Hp as [x ->]; exists (x :: l); simpl; by rewrite El.
Qed.

Lemma store_results (h : handler V) N x M y : Forall2 slot_ok (phases h) (_opts h) -> (forall M y, _opts h !! M = Some (Some y) <-> (M, y) ∈ results h) ->
  phases h !! N = Some running -> (<[N := Some x]> (_opts h) !! M = Some (Some y) <-> (M, y) ∈ results h ++ [(N, x)]).
Proof.
  intros S E Hp. destruct (Forall2_lookup_l _ _ _ _ _ S Hp) as (o & Ho & Hok). simpl in Hok. subst o.
  rewrite elem_of_app, list_elem_of_singleton, <- E. destruct (decide (M = N)) as [->|Hne].
  - rewrite list_lookup_insert_eq by (by eapply lookup_lt_Some). rewrite Ho. split; [intros [= ->]; by right|]. by intros [[=]|[= ->]].
  - rewrite list_lookup_insert_ne by done. split; [by left|]. by intros [?|[= -> ->]].
Qed.

Lemma all_step_inv n h r : all_inv n h -> step h r -> exists h', r = Done h' /\ all_inv n h'.
Proof.
  intros Hi Hs. pose proof Hi as [L R S La D E C]. destruct Hs as [N Hp|N x Hp|N Hp|N b Hp].
  - destruct (not_delivered n h N _ Hi Hp eq_refl) as [_ Hd]. eexists. split; [done|]. split; simpl; rewrite ?length_insert, ?(total_insert _ _ _ _ _ Hp); simpl; rewrite ?Z.sub_0_r, ?Z.add_0_r; try done; try lia.
    rewrite <- (list_insert_id (_opts h) N None); [apply Forall2_insert; done|].
    destruct (Forall2_lookup_l _ _ _ _ _ S Hp) as (o & Ho & Hok). by simpl in Hok; subst o.
  - destruct (not_delivered n h N _ Hi Hp eq_refl) as [_ Hd]. eexists. split; [done|]. split; simpl; rewrite ?length_insert, ?(total_insert _ _ _ _ _ Hp); simpl; rewrite ?Z.sub_0_r, ?Z.add_0_r; try done; try lia.
    + apply Forall2_insert; [done|]. by eexists.
    + intros l. rewrite Hd. by intros ?%elem_of_nil.
    + intros M y. by apply store_results.
    + rewrite zlen_app, zlen_cons, zlen_nil. lia.
  - destruct (not_delivered n h N _ Hi Hp eq_refl) as [Hpos Hd]. eexists. split; [done|]. rewrite (proj2 (Z.eqb_neq _ _)) in La by lia.
    split; simpl; rewrite ?length_insert, ?(total_insert _ _ _ _ _ Hp); simpl; try done; try lia.
    + rewrite <- (list_insert_id (_opts h) N) with (x := default None (_opts h !! N)).
      * apply Forall2_insert; [done|]. destruct (Forall2_lookup_l _ _ _ _ _ S Hp) as (o & Ho & Hok). by rewrite Ho.
      * destruct (Forall2_lookup_l _ _ _ _ _ S Hp) as (o & Ho & Hok). by rewrite Ho.
    + rewrite Hd in *. destruct (Z.eqb_spec (_n_remaining h) 1), (Z.eqb_spec (_n_remaining h - 1) 0); lia.
  - assert (Forall2 slot_ok (<[N := returned]> (phases h)) (_opts h)) as S'.
    { destruct (Forall2_lookup_l _ _ _ _ _ S Hp) as (o & Ho & Hok). rewrite <- (list_insert_id (_opts h) N o Ho). by apply Forall2_insert. }
    unfold after_count. destruct (Z.eqb_spec b 1) as [->|Hb].
    + pose proof (total_pos last_counted _ _ _ last_counted_nonneg Hp) as Hl. simpl in Hl. pose proof (zlen_nonneg (delivered h)).
      destruct (Z.eqb_spec (_n_remaining h) 0) as [Hz|]; [|lia].
      assert (delivered h = []) as Hd by (apply zlen_nil_iff; lia).
      destruct (slots_filled _ _ S) as (l & El & Eo); [lia|]. unfold _finish. rewrite El. ostep.
      eexists. split; [done|]. split; simpl; rewrite ?length_insert, ?(total_insert _ _ _ _ _ Hp); simpl; try done; try lia.
      * rewrite Hd in *. rewrite Hz. unfold zlen in *. simpl in *. lia.
      * rewrite Hd. intros l' Hl'. apply list_elem_of_singleton in Hl'. congruence.
    + eexists. split; [done|]. split; simpl; rewrite ?length_insert, ?(total_insert _ _ _ _ _ Hp); simpl; rewrite ?(proj2 (Z.eqb_neq b 1)) by done; try done; try lia.
Qed.

Lemma all_reachable_inv n (h : handler V) : (0 < n)%nat -> reachable n h -> all_inv n h.
Proof.
  intros Hn. induction 1 as [|h h' _ IH Hs]; [by apply all_connect_inv|].
  destruct (all_step_inv n h _ IH Hs) as (h1 & [= ->] & Hi). done.
Qed.

(** C40. [when_all]: however the sub-operations interleave (on any thread, in any order), no step is undefined or stops the process; the
    receiver is invoked at most once, only when all of them have resolved, and then with
    the list in which the place [N] holds what the sub-operation [N] resolved to ([results]), whichever resolved first;
    and it has been invoked when all of them have returned. *)
Theorem all_result n (h : handler V) : (0 < n)%nat -> reachable n h ->
  (forall r, step h r -> exists h', r = Done h') /\
  (delivered h = [] \/ exists l, delivered h = [l] /\ length l = n /\ length (results h) = n /\ forall N x, (N, x) ∈ results h <-> l !! N = Some x) /\
  ((forall N p, phases h !! N = Some p -> p = returned) -> exists l, delivered h = [l]).
Proof.
  intros Hn Hr. pose proof (all_reachable_inv n h Hn Hr) as Hi. pose proof Hi as [L R S La D E C]. split_and!.
  - intros r Hs. destruct (all_step_inv n h r Hi Hs) as (h' & -> & _). by exists h'.
  - destruct (delivered h) as [|l ls] eqn:Ed; [by left|]. right. exists l.
    pose proof (total_nonneg last_counted (phases h) last_counted_nonneg). rewrite zlen_cons in La. pose proof (zlen_nonneg ls).
    destruct (Z.eqb_spec (_n_remaining h) 0) as [Hz|]; [|lia].
    assert (ls = []) as -> by (apply zlen_nil_iff; lia).
    assert (_opts h = Some <$> l) as Eo by (apply D; by left). split_and!; [done| | |].
    + apply Forall2_length in S. rewrite Eo, length_fmap in S. congruence.
    + pose proof (total_le before_store before_count (phases h) ltac:(by intros [])). pose proof (total_nonneg before_store (phases h) ltac:(by intros [])).
      unfold zlen in C. lia.
    + intros N x. rewrite <- E, Eo, list_lookup_fmap. destruct (l !! N); simpl; naive_solver.
  - intros Hret. assert (forall w, w returned = 0 -> total w (phases h) = 0) as Hw.
    { intros w Hwr. apply total_all. by intros N p ->%Hret. }
    rewrite (Hw last_counted eq_refl) in La. rewrite R, (Hw before_count eq_refl) in La. simpl in La.
    destruct (delivered h) as [|l [|l' ls]]; [done|by exists l|rewrite !zlen_cons in La; pose proof (zlen_nonneg ls); lia].
Qed.
End All.

(** ** Concrete races *)

(** The first result that is positive, of two operations. *)
Definition positive : nat -> Z -> bool := fun _ x => 0 <? x.

(** Both are started, the second resolves and has the mutex, its result accepted; then it has stored it. *)
Definition race1 : First.handler Z := First._start_one (First._start_one (First.connect 2) 0) 1.
Definition race2 := First.lock_section (First.judge positive race1 1 7) 1 7 true.
Definition race3 := First.emplace race2 1 7 1.
(** The first one resolves too; both return. *)
Definition race4 := First.lock_section (First.judge positive race3 0 8) 0 8 true.
Definition race5 := First.with_phase race4 1 First.returned.
Definition race6 : First.handler Z :=
  First.mk_handler 0 (Some (1%nat, 7)) true None [First.returned; First.returned] [(1%nat, 7, true); (0%nat, 8, true)] [(1%nat, 7)].

Lemma race2_reachable sync : First.reachable positive false sync 2 race2.
Proof.
  apply (First.reach_step _ _ _ _ (First.judge positive race1 1 7)); [|by apply First.step_lock].
  apply (First.reach_step _ _ _ _ race1); [|by apply First.step_judge].
  apply (First.reach_step _ _ _ _ (First._start_one (First.connect 2) 0)); [|by apply First.step_start].
  apply (First.reach_step _ _ _ _ (First.connect 2)); [|by apply First.step_start]. apply First.reach_connect.
Qed.

Lemma race6_reachable sync : First.reachable positive false sync 2 race6.
Proof.
  apply (First.reach_step _ _ _ _ race5); [|by apply (First.step_after positive false sync race5 0 0)].
  apply (First.reach_step _ _ _ _ race4); [|by apply (First.step_after positive false sync race4 1 1)].
  apply (First.reach_step _ _ _ _ (First.judge positive race3 0 8)); [|by apply First.step_lock].
  apply (First.reach_step _ _ _ _ race3); [|by apply First.step_judge].
  apply (First.reach_step _ _ _ _ race2); [|by apply First.step_emplace]. apply race2_reachable.
Qed.

(** Witness of [race_result]: the accepted result that came first is delivered. *)
Lemma race_result_witness :
  (First.delivered race6 = [] \/
   exists N x, First.delivered race6 = [(N, x)] /\ first_accepted (First.judgements race6) = Some (N, x) /\ positive N x = true /\
     First._stopper race6 = true /\ all_resolved race6) /\
  (forall r, First.step positive false true race6 r -> (forall h', r <> Done h') ->
     (first_accepted (First.judgements race6) = None /\ First._outstanding race6 = 0 /\ r = (if false then Undef else Abort)) \/
     (true = true /\ r = Undef /\ relocks race6)).
Proof. exact (race_result positive false true 2 race6 ltac:(lia) (race6_reachable true)). Defined.

(** Witness of [race_finishes]: from the moment that the second operation has the mutex. *)
Lemma race_finishes_witness : exists r,
  run positive false true race2 r /\ todo race2 <= 5 * Z.of_nat 2 /\
  match r with
  | Done h' => exists N x, First.delivered h' = [(N, x)] /\ positive N x = true
  | _ => r = (if false then Undef else Abort)
  end.
Proof. exact (race_finishes positive false true (fun _ => 3) 2 race2 ltac:(lia) (race2_reachable true)). Defined.

(** A sub-operation that completes inside its stop callback locks the mutex that its thread has. *)
Example synchronous_stop_is_undefined : First.reachable positive false true 2 race2 /\ First.step positive false true race2 Undef.
Proof. split; [apply race2_reachable|]. by apply (First.step_relock positive false true race2 1 0 7 1). Qed.

(** With a predicate that says what to do when nothing is accepted, the empty result is used after it was told. *)
Definition refused1 := First.lock_section (First.judge positive (First._start_one (First.connect 1) 0) 0 (-1)) 0 (-1) false.
Example none_accepted_is_undefined : First.reachable positive true false 1 refused1 /\ First.step positive true false refused1 Undef.
Proof.
  split; [|by apply (First.step_after positive true false refused1 0 0)].
  apply (First.reach_step _ _ _ _ (First.judge positive (First._start_one (First.connect 1) 0) 0 (-1))); [|by apply First.step_lock].
  apply (First.reach_step _ _ _ _ (First._start_one (First.connect 1) 0)); [|by apply First.step_judge].
  apply (First.reach_step _ _ _ _ (First.connect 1)); [|by apply First.step_start]. apply First.reach_connect.
Qed.

(** Two operations of which the second stores its result first. *)
Definition all1 : All.handler Z := All._start_one (All._start_one (All.connect 2) 0) 1.
Definition all2 := All.fetch_sub (All.store all1 1 7) 1.
Definition all3 := All.fetch_sub (All.store all2 0 8) 0.
Definition all4 : All.handler Z := All.mk_handler [Some 8; Some 7] 0 [All.returned; All.counted 2] [[8; 7]] [(1%nat, 7); (0%nat, 8)].

Lemma all4_reachable : All.reachable 2 all4.
Proof.
  apply (All.reach_step _ all3); [|by apply (All.step_after all3 0 1)].
  apply (All.reach_step _ (All.store all2 0 8)); [|by apply All.step_count].
  apply (All.reach_step _ all2); [|by apply All.step_store].
  apply (All.reach_step _ (All.store all1 1 7)); [|by apply All.step_count].
  apply (All.reach_step _ all1); [|by apply All.step_store].
  apply (All.reach_step _ (All._start_one (All.connect 2) 0)); [|by apply All.step_start].
  apply (All.reach_step _ (All.connect 2)); [|by apply All.step_start]. apply All.reach_connect.
Qed.

(** Witness of [all_result]. *)
Lemma all_result_witness :
  (forall r, All.step all4 r -> exists h', r = Done h') /\
  (All.delivered all4 = [] \/ exists l, All.delivered all4 = [l] /\ length l = 2%nat /\ length (All.results all4) = 2%nat /\
     forall N x, (N, x) ∈ All.results all4 <-> l !! N = Some x) /\
  ((forall N p, All.phases all4 !! N = Some p -> p = All.returned) -> exists l, All.delivered all4 = [l]).
Proof. exact (all_result 2 all4 ltac:(lia) all4_reachable). Defined.
