(* ===== verification/Box.v ===== *)
(** * Boxes ([include/amongoc/box.h], [box.hpp], [src/amongoc/box.compress.hpp])

    The type-erased values of the C API: small objects lie in the box, others in a region that the box
    owns; a box may carry a destructor.  [world] has the regions and the history of destructors and
    deallocations. *)
From Stdlib Require Import ZArith Lia.
From Stdlib Require Import Strings.Byte.
From stdpp Require Import base numbers list gmap.
From S2P Require Import Prelude.
Open Scope Z_scope.
Open Scope outcome_scope.

Abbreviation bytes := (list byte).

(** A destructor function, an allocator, the address of a region. *)
Abbreviation destructor := nat.
Abbreviation allocator := nat.
Abbreviation loc := positive.

(** The sizes of a 64-bit platform: three pointers, and one pointer less. *)
Abbreviation AMONGOC_BOX_SMALL_SIZE := 24.
Abbreviation AMONGOC_BOX_FN_PTR_SIZE := 8.
Abbreviation AMONGOC_BOX_SMALL_SIZE_WITH_DTOR := 16.
(** [sizeof(struct _amongoc_dynamic_box)]. *)
Abbreviation sizeof_dynamic_box := 48.

(** [struct _amongoc_dynamic_box] in its region. *)
Record dynamic_block : Type := mk_dynamic {
  d_alloc : allocator;
  d_destroy : option destructor;
  d_alloc_size : Z;
  d_object : bytes }.

(** [union _amongoc_box_union]; the pointer may be null. *)
Inductive box_union : Type :=
| trivial_inline (b : bytes)
| nontrivial_inline (b : bytes) (dtor : destructor)
| dynamic (p : option loc).

(** [amongoc_box]. *)
Record box : Type := mk_box {
  u : box_union;
  is_dynamic : bool;
  has_dtor : bool;
  inline_size : Z }.

(** What the program did with objects (the bytes from the pointer on) and regions. *)
Inductive effect : Type :=
| Ran (dtor : destructor) (object : bytes)
| Freed (alloc : allocator) (size : Z).

Record world : Type := mk_world { heap : gmap loc dynamic_block; effects : list effect }.

Definition log (w : world) (e : effect) : world := mk_world (heap w) (effects w ++ [e]).

(** Where an object lies. *)
Inductive place : Type := in_box | in_region (p : loc).

Definition zeros (n : Z) : bytes := replicate (Z.to_nat n) x00.

(** The bytes [src] over the front of [dst]. *)
Definition overwrite (dst src : bytes) : bytes := src ++ drop (length src) dst.

Section Box.
(** Whether the allocator grants a region of the size. *)
Context (grants : allocator -> Z -> bool).

(** [amongoc_nil]. *)
Definition amongoc_nil : box := mk_box (trivial_inline (zeros 24)) false false 0.

(** Returns the box and the place of the object, which is null when there is no memory. *)
Definition _amongocBoxInitStorage (w : world) (allow_inline : bool) (size : Z) (dtor : option destructor) (alloc : allocator)
  : world * box * option place :=
  match dtor with
  | None =>
    if allow_inline && (size <=? AMONGOC_BOX_SMALL_SIZE)
    then (w, mk_box (trivial_inline (zeros 24)) false false (Z.land size 63), Some in_box)
    else
      let alloc_size := sizeof_dynamic_box + size in
      if grants alloc alloc_size then
        let p := fresh (dom (heap w)) in
        (mk_world (<[p := mk_dynamic alloc None alloc_size (zeros size)]> (heap w)) (effects w),
         mk_box (dynamic (Some p)) true false 0, Some (in_region p))
      else (w, mk_box (dynamic None) true false 0, None)
  | Some d =>
    if allow_inline && (size <=? AMONGOC_BOX_SMALL_SIZE_WITH_DTOR)
    then (w, mk_box (nontrivial_inline (zeros 16) d) false true (Z.land size 63), Some in_box)
    else
      let alloc_size := sizeof_dynamic_box + size in
      if grants alloc alloc_size then
        let p := fresh (dom (heap w)) in
        (mk_world (<[p := mk_dynamic alloc (Some d) alloc_size (zeros size)]> (heap w)) (effects w),
         mk_box (dynamic (Some p)) true true 0, Some (in_region p))
      else (w, mk_box (dynamic None) true true 0, None)
  end.

(** The region that a pointer refers to. *)
Definition deref (w : world) (p : option loc) : outcome (loc * dynamic_block) :=
  match p with
  | Some p => match heap w !! p with Some d => Done (p, d) | None => Undef end
  | None => Undef
  end.

(** The members of the union, which must be the active one. *)
Definition u_dynamic (b : box) : outcome (option loc) := match u b with dynamic p => Done p | _ => Undef end.
Definition u_bytes (b : box) : outcome bytes :=
  match u b with trivial_inline l | nontrivial_inline l _ => Done l | _ => Undef end.
Definition u_dtor (b : box) : outcome destructor := match u b with nontrivial_inline _ d => Done d | _ => Undef end.

Definition amongoc_box_free_storage (w : world) (b : box) : outcome world :=
  if is_dynamic b then
    let* p := u_dynamic b in
    let* (p, d) := deref w p in
    Done (mk_world (delete p (heap w)) (effects w ++ [Freed (d_alloc d) (d_alloc_size d)]))
  else Done w.

(** The bytes from [_amongocBoxDataPtr] on. *)
Definition _amongocBoxDataPtr (w : world) (b : box) : outcome bytes :=
  if is_dynamic b then let* p := u_dynamic b in let* (_, d) := deref w p in Done (d_object d)
  else u_bytes b.

Definition amongoc_box_destroy (w : world) (b : box) : outcome world :=
  let* w :=
    if has_dtor b then
      if is_dynamic b then
        let* p := u_dynamic b in
        let* (_, d) := deref w p in
        match d_destroy d with Some f => Done (log w (Ran f (d_object d))) | None => Undef end
      else
        let* dtor := u_dtor b in
        let* object := _amongocBoxDataPtr w b in
        Done (log w (Ran dtor object))
    else Done w in
  amongoc_box_free_storage w b.

(** An object is constructed in the place that was prepared. *)
Definition construct (w : world) (b : box) (pl : place) (object : bytes) : outcome (world * box) :=
  match pl with
  | in_region p =>
    let* (p, d) := deref w (Some p) in
    Done (mk_world (<[p := mk_dynamic (d_alloc d) (d_destroy d) (d_alloc_size d) (overwrite (d_object d) object)]> (heap w)) (effects w), b)
  | in_box =>
    match u b with
    | trivial_inline l => Done (w, mk_box (trivial_inline (overwrite l object)) (is_dynamic b) (has_dtor b) (inline_size b))
    | nontrivial_inline l d => Done (w, mk_box (nontrivial_inline (overwrite l object) d) (is_dynamic b) (has_dtor b) (inline_size b))
    | dynamic _ => Undef
    end
  end.

(** [amongoc_box_take]: [size] bytes are moved out, and the box is made nil. *)
Definition _amongoc_box_take_impl (w : world) (size : Z) (b : box) : outcome (world * bytes * box) :=
  let* data := _amongocBoxDataPtr w b in
  let* w := amongoc_box_free_storage w b in
  Done (w, take (Z.to_nat size) data, amongoc_nil).

(** *** [unique_box] *)

(** What is thrown: [bad_alloc], or what the constructor of the object throws. *)
Inductive thrown : Type := bad_alloc | by_constructor.

(** [prepare_storage<T>]: the size of [T], whether it is trivially relocatable. *)
Definition prepare_storage (w : world) (relocatable : bool) (size : Z) (dtor : option destructor) (alloc : allocator)
  : world * box * (thrown + place) :=
  let '(w, b, p) := _amongocBoxInitStorage w relocatable size dtor alloc in
  (w, b, match p with Some p => inr p | None => inl bad_alloc end).

(** [box_inlinable_type]: whether the type of the object is relocatable, its size, and its destructor when it is not trivial. *)
Definition inlined (relocatable : bool) (size : Z) (dtor : option destructor) : bool :=
  relocatable && (size <=? match dtor with Some _ => AMONGOC_BOX_SMALL_SIZE_WITH_DTOR | None => AMONGOC_BOX_SMALL_SIZE end).

(** [unique_box::make<T>(alloc, args...)]: [dtor] unless [T] is trivially destructible; the constructor gives the object, or throws.
    The box is owned from the start, so that an exception destroys it, unless a handler has released it to free its region. *)
Definition make (w : world) (alloc : allocator) (relocatable : bool) (size : Z) (dtor : option destructor) (object : option bytes)
  : outcome (world * (thrown + box)) :=
  let '(w, ret, p) := prepare_storage w relocatable size dtor alloc in
  match p with
  | inl e => let* w := amongoc_box_destroy w ret in Done (w, inl e)
  | inr p =>
    match object with
    | Some object => let* (w, ret) := construct w ret p object in Done (w, inr ret)
    | None =>
      let* w := if inlined relocatable size dtor then amongoc_box_destroy w ret else amongoc_box_free_storage w ret in
      Done (w, inl by_constructor)
    end
  end.

(** [unique_box::from(alloc, obj, D)]: the box is not owned while it is made. *)
Definition from (w : world) (alloc : allocator) (relocatable : bool) (size : Z) (dtor : destructor) (object : bytes)
  : outcome (world * (thrown + box)) :=
  let '(w, ret, p) := prepare_storage w relocatable size (Some dtor) alloc in
  match p with
  | inl e => Done (w, inl e)
  | inr p => let* (w, ret) := construct w ret p object in Done (w, inr ret)
  end.

(** [unique_box::take<T>]. *)
Definition take_object (w : world) (size : Z) (b : box) : outcome (world * bytes) :=
  let* data := _amongocBoxDataPtr w b in
  let* w := amongoc_box_free_storage w b in
  Done (w, take (Z.to_nat size) data).

(** ** Compression *)

(** [compressed_box<N, WithDtor>], [uncompressed_box], [dynamic_box]. *)
Inductive compressed : Type :=
| compressed_trivial (Nbytes : Z) (buffer : bytes)
| compressed_dtor (Nbytes : Z) (dtor : destructor) (buffer : bytes)
| uncompressed_box (b : box)
| dynamic_box (ptr : option loc).

(** [_make_compressed<N, AddDtor>]; what the buffer has past the object is indeterminate ([junk]). *)
Definition _make_compressed (junk : byte) (N : Z) (AddDtor : bool) (w : world) (b : box) : outcome compressed :=
  let* buffer :=
    if N =? 0 then Done []
    else let* data := _amongocBoxDataPtr w b in
         Done (overwrite (replicate (Z.to_nat N) junk) (take (Z.to_nat (inline_size b)) data)) in
  if AddDtor then let* dtor := u_dtor b in Done (compressed_dtor N dtor buffer)
  else Done (compressed_trivial N buffer).

Fixpoint _compress_p1 (junk : byte) (w : world) (b : box) (Sz : list Z) : outcome compressed :=
  match Sz with
  | [] => Done (uncompressed_box b)
  | Try :: Sz => if inline_size b <=? Try then _make_compressed junk Try (has_dtor b) w b else _compress_p1 junk w b Sz
  end.

Definition compress (junk : byte) (w : world) (b : box) (Sz : list Z) : outcome compressed :=
  if is_dynamic b then let* p := u_dynamic b in Done (dynamic_box p)
  else _compress_p1 junk w b Sz.

Definition recover (w : world) (c : compressed) : outcome box :=
  match c with
  | compressed_trivial N buffer =>
    if N =? 0 then Done amongoc_nil
    else Done (mk_box (trivial_inline (overwrite (zeros 24) buffer)) false false N)
  | compressed_dtor N dtor buffer =>
    if N =? 0 then Done (mk_box (nontrivial_inline (zeros 16) dtor) false true 0)
    else Done (mk_box (nontrivial_inline (overwrite (zeros 16) buffer) dtor) false true N)
  | uncompressed_box b => Done b
  | dynamic_box p =>
    let* (p, d) := deref w p in
    Done (mk_box (dynamic (Some p)) true (if d_destroy d then true else false) 0)
  end.

(** The destructor of a compressed box that was not recovered: [dynamic_box] declares none. *)
Definition destroy_compressed (w : world) (c : compressed) : outcome world :=
  match c with
  | compressed_trivial _ _ | dynamic_box _ => Done w
  | compressed_dtor _ _ _ => let* b := recover w c in amongoc_box_destroy w b
  | uncompressed_box b => amongoc_box_destroy w b
  end.

(** ** The life of a box *)

(** A box that owns an object: the flags tell the active member, the region is allocated. *)
Definition owns (w : world) (b : box) : Prop :=
  match u b with
  | trivial_inline l => is_dynamic b = false /\ has_dtor b = false /\ zlen l = 24 /\ 0 <= inline_size b <= 24
  | nontrivial_inline l _ => is_dynamic b = false /\ has_dtor b = true /\ zlen l = 16 /\ 0 <= inline_size b <= 16
  | dynamic (Some p) => is_dynamic b = true /\ exists d, heap w !! p = Some d /\ has_dtor b = bool_decide (is_Some (d_destroy d))
  | dynamic None => False
  end.

(** What destroying it does. *)
Definition destroyed (w : world) (b : box) : world :=
  match u b with
  | trivial_inline _ => w
  | nontrivial_inline l d => log w (Ran d l)
  | dynamic (Some p) =>
    match heap w !! p with
    | Some d => mk_world (delete p (heap w))
        (effects w ++ match d_destroy d with Some f => [Ran f (d_object d)] | None => [] end ++ [Freed (d_alloc d) (d_alloc_size d)])
    | None => w
    end
  | dynamic None => w
  end.

Lemma destroy_owned w b : owns w b -> amongoc_box_destroy w b = Done (destroyed w b).
Proof.
  unfold owns, destroyed, amongoc_box_destroy, amongoc_box_free_storage, _amongocBoxDataPtr, u_dynamic, u_dtor, u_bytes, deref.
  destruct (u b) as [l|l d|[p|]]; [intros (-> & -> & _)..|intros (-> & d & Hd & ->)|done]; [done|done|].
  rewrite Hd. destruct d as [a [f|] sz o]; simpl; rewrite ?Hd; simpl; rewrite ?Hd; simpl; rewrite <- ?app_assoc; done.
Qed.

Lemma zeros_len n : 0 <= n -> zlen (zeros n) = n.
Proof. intros. unfold zeros, zlen. rewrite length_replicate. lia. Qed.

Lemma overwrite_len dst src : zlen src <= zlen dst -> zlen (overwrite dst src) = zlen dst.
Proof. unfold overwrite, zlen. rewrite length_app, length_drop. lia. Qed.

Lemma overwrite_take dst src : take (length src) (overwrite dst src) = src.
Proof. unfold overwrite. apply take_app_length. Qed.

Lemma overwrite_zeros object size : zlen object = size -> overwrite (zeros size) object = object.
Proof. intros Hs. unfold overwrite, zeros. rewrite drop_ge; [apply app_nil_r|]. rewrite length_replicate. unfold zlen in Hs. lia. Qed.

Lemma land_63 n : 0 <= n <= 24 -> Z.land n 63 = n.
Proof. intros Hn. change 63 with (Z.ones 6). rewrite Z.land_ones by lia. apply Z.mod_small. lia. Qed.

(** The storage that is prepared: in the box, or in a new region, or none. *)
Lemma init_spec w allow size dtor alloc : 0 <= size ->
  _amongocBoxInitStorage w allow size dtor alloc =
  if inlined allow size dtor
  then (w, match dtor with Some d => mk_box (nontrivial_inline (zeros 16) d) false true size | None => mk_box (trivial_inline (zeros 24)) false false size end, Some in_box)
  else if grants alloc (sizeof_dynamic_box + size)
  then let p := fresh (dom (heap w)) in
       (mk_world (<[p := mk_dynamic alloc dtor (sizeof_dynamic_box + size) (zeros size)]> (heap w)) (effects w),
        mk_box (dynamic (Some p)) true (bool_decide (is_Some dtor)) 0, Some (in_region p))
  else (w, mk_box (dynamic None) true (bool_decide (is_Some dtor)) 0, None).
Proof.
  intros Hs. unfold _amongocBoxInitStorage, inlined. destruct dtor as [d|]; (destruct allow; [|by case_match]);
    cbn [andb]; case_match eqn:Hc; try (by case_match); apply Z.leb_le in Hc; by rewrite land_63 by lia.
Qed.

Lemma fresh_region (h : gmap loc dynamic_block) : h !! fresh (dom h) = None.
Proof. apply not_elem_of_dom. apply is_fresh. Qed.

(** The life of a box that [unique_box::make] creates: when its object is stored in the box or the allocator
    grants a region, the box owns the object, and destroying it runs the destructor once, on that object, gives the region
    back with its size and leaves every other region alone; when the constructor throws, the region is given back and no
    destructor runs, but in the box itself the destructor runs on the zeros where no object was made; when the allocator refuses,
    the box is destroyed through a null pointer. *)
Theorem make_spec w alloc relocatable size dtor object : 0 <= size ->
  (forall l, object = Some l -> zlen l = size) ->
  let granted := grants alloc (sizeof_dynamic_box + size) in
  let freed := if inlined relocatable size dtor then [] else [Freed alloc (sizeof_dynamic_box + size)] in
  if inlined relocatable size dtor || granted then
    match object with
    | Some l => exists w' b data, make w alloc relocatable size dtor object = Done (w', inr b) /\ owns w' b /\
        _amongocBoxDataPtr w' b = Done data /\ take (Z.to_nat size) data = l /\ effects w' = effects w /\
        amongoc_box_destroy w' b = Done (mk_world (heap w) (effects w ++ match dtor with Some d => [Ran d data] | None => [] end ++ freed))
    | None => make w alloc relocatable size dtor object = Done (mk_world (heap w) (effects w ++
        (if inlined relocatable size dtor then match dtor with Some d => [Ran d (zeros 16)] | None => [] end else freed)), inl by_constructor)
    end
  else make w alloc relocatable size dtor object = Undef.
Proof.
  intros Hs Hl granted freed. unfold make, prepare_storage. rewrite init_spec by done. subst granted freed.
  destruct (inlined relocatable size dtor) eqn:Hi; cbn [orb].
  - unfold inlined in Hi. apply andb_true_iff in Hi as [_ Hi%Z.leb_le]. destruct object as [l|].
    2: { unfold amongoc_box_destroy, amongoc_box_free_storage. destruct dtor; simpl; rewrite ?app_nil_r; by destruct w. }
    specialize (Hl l eq_refl). destruct dtor as [d|]; cbn [construct u obind is_dynamic has_dtor inline_size].
    + assert (zlen (overwrite (zeros 16) l) = 16) as Hz by (rewrite overwrite_len; rewrite zeros_len; lia).
      do 3 eexists. split; [done|]. assert (owns w (mk_box (nontrivial_inline (overwrite (zeros 16) l) d) false true size)) as Ho by done.
      split_and!; [done|done| |done|rewrite (destroy_owned _ _ Ho); done]. rewrite <- Hl, zlen_to_nat. apply overwrite_take.
    + assert (zlen (overwrite (zeros 24) l) = 24) as Hz by (rewrite overwrite_len; rewrite zeros_len; lia).
      do 3 eexists. split; [done|]. assert (owns w (mk_box (trivial_inline (overwrite (zeros 24) l)) false false size)) as Ho by done.
      split_and!; [done|done| |done|rewrite (destroy_owned _ _ Ho); simpl; rewrite app_nil_r; by destruct w]. rewrite <- Hl, zlen_to_nat. apply overwrite_take.
  - destruct (grants alloc (sizeof_dynamic_box + size)); cbn beta iota zeta.
    2: { unfold amongoc_box_destroy, amongoc_box_free_storage. simpl. by case_bool_decide. }
    set (p := fresh (dom (heap w))). pose proof (fresh_region (heap w)) as Hp. fold p in Hp. destruct object as [l|].
    + specialize (Hl l eq_refl). unfold construct, deref. simpl. rewrite lookup_insert_eq. simpl.
      rewrite insert_insert_eq, overwrite_zeros by done.
      set (w1 := mk_world (<[p := mk_dynamic alloc dtor (sizeof_dynamic_box + size) l]> (heap w)) (effects w)).
      assert (owns w1 (mk_box (dynamic (Some p)) true (bool_decide (is_Some dtor)) 0)) as Ho.
      { unfold owns. simpl. split; [done|]. eexists. rewrite lookup_insert_eq. done. }
      exists w1. do 2 eexists. split; [done|]. split; [exact Ho|]. split; [|split; [|split; [done|]]].
      * unfold _amongocBoxDataPtr, deref. simpl. rewrite lookup_insert_eq. done.
      * simpl. rewrite take_ge; [done|]. unfold zlen in Hl. lia.
      * rewrite (destroy_owned _ _ Ho). unfold destroyed. simpl. rewrite lookup_insert_eq. simpl. by rewrite delete_insert_id.
    + unfold amongoc_box_free_storage, deref. simpl. rewrite lookup_insert_eq. simpl. by rewrite delete_insert_id.
Qed.

(** ** Compression and recovery *)

(** The sizes that the code compresses to: those of [amongoc_let], of [amongoc_then], of [amongoc_just]. *)
Definition code_sizes (Sz : list Z) : Prop :=
  Sz = [0] \/ Sz = [0; 8; 16] \/ Sz = [0; 1; 2; 4; 8; 12; 16; 24].

(** The size that is chosen. *)
Fixpoint chosen (n : Z) (Sz : list Z) : option Z :=
  match Sz with [] => None | Try :: Sz => if n <=? Try then Some Try else chosen n Sz end.

Lemma compress_chosen junk w b Sz : _compress_p1 junk w b Sz =
  match chosen (inline_size b) Sz with
  | Some N => _make_compressed junk N (has_dtor b) w b
  | None => Done (uncompressed_box b)
  end.
Proof. induction Sz as [|N Sz IH]; [done|]. simpl. by destruct (inline_size b <=? N). Qed.

Lemma chosen_fits n Sz N : code_sizes Sz -> 0 <= n -> chosen n Sz = Some N -> n <= N <= 24 /\ (n <= 16 -> N <= 16).
Proof. intros [->|[->| ->]] Hn; simpl; intros Hc; repeat (case_match; [simplify_eq; lia|]); done. Qed.

(** The destructor that a box carries. *)
Definition dtor_of (w : world) (b : box) : option destructor :=
  match u b with
  | nontrivial_inline _ d => Some d
  | dynamic (Some p) => match heap w !! p with Some d => d_destroy d | None => None end
  | _ => None
  end.

(** The object of the box [b] lies in [b'] too. *)
Definition same_object (w : world) (b b' : box) : Prop := exists d d',
  _amongocBoxDataPtr w b = Done d /\ _amongocBoxDataPtr w b' = Done d' /\
  (if is_dynamic b then d' = d else take (Z.to_nat (inline_size b)) d' = take (Z.to_nat (inline_size b)) d).

Lemma buffer_take (size N n : Z) (junk : byte) (l : bytes) : 0 <= n <= N -> N <= size -> zlen l = size ->
  let buffer := overwrite (replicate (Z.to_nat N) junk) (take (Z.to_nat n) l) in
  zlen buffer = N /\ zlen (overwrite (zeros size) buffer) = size /\
  take (Z.to_nat n) (overwrite (zeros size) buffer) = take (Z.to_nat n) l.
Proof.
  intros Hn HN Hl buffer. assert (zlen (take (Z.to_nat n) l) = n) as Ht by (unfold zlen in *; rewrite length_take; lia).
  assert (zlen (replicate (Z.to_nat N) junk) = N) as Hr by (unfold zlen; rewrite length_replicate; lia).
  assert (zlen buffer = N) as Hb by (unfold buffer; rewrite overwrite_len; lia). split; [done|].
  split; [rewrite overwrite_len; rewrite zeros_len; lia|]. unfold overwrite at 1. rewrite take_app_le by (unfold zlen in *; lia).
  unfold buffer, overwrite. rewrite take_app_le by (unfold zlen in *; lia). rewrite take_take. f_equal. unfold zlen in *. lia.
Qed.

(** C33. Compressing a box and recovering it gives a box that owns the same object with the same destructor, for every list of
    sizes in the code; and dropping a compressed box that is never recovered destroys the object just like
    the box would have, except that the object of a box with a region is neither destroyed nor freed. *)
Theorem compress_spec junk w b Sz : owns w b -> code_sizes Sz -> exists c b',
  compress junk w b Sz = Done c /\ recover w c = Done b' /\ owns w b' /\ same_object w b b' /\ dtor_of w b' = dtor_of w b /\
  destroy_compressed w c = Done (if is_dynamic b then w else destroyed w b').
Proof.
  intros Ho Hsz. unfold compress. rewrite compress_chosen. destruct (is_dynamic b) eqn:Hdyn.
  { unfold owns in Ho. destruct b as [[l|l d|[p|]] dy hd n]; cbn [u is_dynamic has_dtor inline_size] in *; [by destruct Ho as [? _]; subst dy..| |done].
    subst dy. destruct Ho as (_ & d & Hd & Hh). unfold u_dynamic, deref. simpl.
    exists (dynamic_box (Some p)), (mk_box (dynamic (Some p)) true (bool_decide (is_Some (d_destroy d))) 0).
    split; [done|]. unfold recover, deref. rewrite Hd. simpl.
    split; [by destruct (d_destroy d)|]. split; [by split; [|exists d]|]. split; [|done].
    exists (d_object d), (d_object d). unfold _amongocBoxDataPtr, deref. simpl. by rewrite Hd. }
  destruct (chosen (inline_size b) Sz) as [N|] eqn:Hc.
  2: { exists (uncompressed_box b), b. split_and!; try done; [|by apply destroy_owned].
    unfold same_object, _amongocBoxDataPtr, u_bytes. rewrite Hdyn. unfold owns in Ho. destruct (u b) as [l|l d|[p|]]; [by exists l, l..|by destruct Ho as [E _]; rewrite Hdyn in E|done]. }
  unfold owns in Ho. destruct b as [[l|l d|[p|]] dy hd n]; cbn [u is_dynamic has_dtor inline_size] in *; [| |by destruct Ho; subst|done];
    destruct Ho as (_ & -> & Hl & Hn); subst dy; pose proof (chosen_fits n Sz N Hsz ltac:(lia) Hc) as [HN H16];
    unfold _make_compressed, _amongocBoxDataPtr, u_bytes, u_dtor; cbn [u is_dynamic has_dtor inline_size obind];
    set (buffer := overwrite (replicate (Z.to_nat N) junk) (take (Z.to_nat n) l)).
  - destruct (buffer_take 24 N n junk l) as (Hb & Hz & Ht); [lia|lia|done|]. fold buffer in Hb, Hz, Ht.
    destruct (Z.eqb_spec N 0) as [->|HN0].
    + assert (n = 0) as -> by lia. exists (compressed_trivial 0 []), amongoc_nil. split_and!; try done. by exists l, (zeros 24).
    + exists (compressed_trivial N buffer), (mk_box (trivial_inline (overwrite (zeros 24) buffer)) false false N).
      cbn [recover]. rewrite (proj2 (Z.eqb_neq N 0)) by done. split_and!; try done; [split_and!; try done; simpl; lia|].
      by exists l, (overwrite (zeros 24) buffer).
  - destruct (buffer_take 16 N n junk l) as (Hb & Hz & Ht); [lia|lia|done|]. fold buffer in Hb, Hz, Ht.
    destruct (Z.eqb_spec N 0) as [->|HN0].
    + assert (n = 0) as -> by lia. exists (compressed_dtor 0 d []), (mk_box (nontrivial_inline (zeros 16) d) false true 0).
      split_and!; try done. by exists l, (zeros 16).
    + set (b' := mk_box (nontrivial_inline (overwrite (zeros 16) buffer) d) false true N).
      assert (owns w b') as Ho' by (unfold owns; simpl; split_and!; done || lia).
      exists (compressed_dtor N d buffer), b'. cbn [destroy_compressed recover]. rewrite (proj2 (Z.eqb_neq N 0)) by done.
      split_and!; try done; by exists l, (overwrite (zeros 16) buffer).
Qed.

End Box.

(** ** Concrete boxes *)

(** An allocator that grants at most 100 bytes. *)
Definition up_to_100 (_ : allocator) (size : Z) : bool := size <=? 100.
Definition empty_world : world := mk_world ∅ [].
Definition sample_object : bytes := replicate 40 x07.

Lemma make_spec_witness : exists w' b data,
  make up_to_100 empty_world 1%nat true 40 (Some 5%nat) (Some sample_object) = Done (w', inr b) /\ owns w' b /\
  _amongocBoxDataPtr w' b = Done data /\ take 40 data = sample_object /\ effects w' = [] /\
  amongoc_box_destroy w' b = Done (mk_world ∅ [Ran 5%nat data; Freed 1%nat 88]).
Proof.
  apply (make_spec up_to_100 empty_world 1%nat true 40 (Some 5%nat) (Some sample_object)); [lia|].
  intros l Hl. injection Hl as <-. reflexivity.
Defined.

(** A box with a destructor and three bytes, compressed to eight. *)
Definition small_box : box := mk_box (nontrivial_inline ([x01; x02; x03] ++ zeros 13) 5%nat) false true 3.

Lemma compress_spec_witness : owns empty_world small_box /\ exists c b',
  compress x09 empty_world small_box [0; 8; 16] = Done c /\ recover empty_world c = Done b' /\ owns empty_world b' /\
  same_object empty_world small_box b' /\ dtor_of empty_world b' = Some 5%nat /\
  destroy_compressed empty_world c = Done (destroyed empty_world b').
Proof.
  assert (owns empty_world small_box) as Ho by (unfold owns; simpl; split_and!; reflexivity || lia).
  split; [exact Ho|]. apply (compress_spec x09 empty_world small_box [0; 8; 16] Ho). right; left; reflexivity.
Defined.

(** A compressed box with a region that is dropped is leaked: neither its destructor nor its allocator is called. *)
Example dropped_dynamic_box_leaks : exists w b c,
  make up_to_100 empty_world 1%nat true 40 (Some 5%nat) (Some sample_object) = Done (w, inr b) /\
  compress x09 w b [0; 8; 16] = Done c /\ destroy_compressed w c = Done w /\ effects w = [] /\ size (heap w) = 1%nat.
Proof. do 3 eexists. split; [vm_compute; reflexivity|]. split; [vm_compute; reflexivity|]. split; [reflexivity|]. split; reflexivity. Qed.
