(* ===== verification/Emitter.v ===== *)
(** * Emitters, handlers, operations

    The C interface of asynchronous operations ([include/amongoc/emitter.h], [handler.h], [operation.h],
    [emitter_result.hpp], [async.h]) and its composition ([src/amongoc/async.cpp], [async.just.cpp], [async.then.cpp],
    [async.let.cpp], on the senders of [nano/then.detail.hpp], [nano/let.detail.hpp] and the adaptors of
    [nano/simple.hpp]).

    The functions of a table are functions on the state of the program; to call a handler is to call
    the rest of the program.  The time that an operation waits lies in its start function: the state is
    what the program has made of it when the handler is called. *)
From Stdlib Require Import ZArith Lia.
From Stdlib Require Import Strings.Byte.
From stdpp Require Import base numbers list gmap.
From S2P Require Import Prelude.
From S2P Require Import Status.
From S2P Require Import Box.
Open Scope Z_scope.
Open Scope outcome_scope.

(** ** State *)

Abbreviation pointer := nat.

(** The regions of the boxes, and the variables of the program that pointers refer to. *)
Record state : Type := mk_state {
  boxes : world;
  status_vars : gmap pointer amongoc_status;
  box_vars : gmap pointer box }.

Definition with_boxes (s : state) (w : world) : state := mk_state w (status_vars s) (box_vars s).

(** What an object owns, in the order in which it is destroyed: boxes, as they are or compressed. *)
Inductive owned : Type := owned_box (b : box) | owned_compressed (c : compressed).

Definition destroy_one (s : state) (o : owned) : outcome state :=
  let* w := match o with
            | owned_box b => amongoc_box_destroy (boxes s) b
            | owned_compressed c => destroy_compressed (boxes s) c
            end in
  Done (with_boxes s w).

Fixpoint destroy_all (s : state) (l : list owned) : outcome state :=
  match l with
  | [] => Done s
  | o :: l => let* s := destroy_one s o in destroy_all s l
  end.

(** ** The interfaces *)

(** [amongoc_handler]: completing it returns what the handler still owns. *)
Record amongoc_handler : Type := mk_handler {
  complete : amongoc_status -> box -> state -> outcome (state * list owned);
  get_allocator : option allocator;
  h_owned : list owned }.

Definition amongoc_handler_complete (hnd : amongoc_handler) (st : amongoc_status) (result : box) (s : state)
  : outcome (state * list owned) := complete hnd st result s.

Definition amongoc_handler_get_allocator (hnd : amongoc_handler) (dflt : allocator) : allocator :=
  match get_allocator hnd with Some a => a | None => dflt end.

Definition amongoc_handler_delete (hnd : amongoc_handler) (s : state) : outcome state := destroy_all s (h_owned hnd).

(** [amongoc_operation]: starting it returns what is left to be destroyed when it has completed. *)
Record amongoc_operation : Type := mk_operation {
  start_callback : state -> outcome (state * list owned);
  o_owned : list owned }.

Definition amongoc_start (op : amongoc_operation) (s : state) : outcome (state * list owned) := start_callback op s.

Definition amongoc_operation_delete (op : amongoc_operation) (s : state) : outcome state := destroy_all s (o_owned op).

(** [amongoc_emitter]: [em_region] tells that its userdata is a box with a region. *)
Record amongoc_emitter : Type := mk_emitter {
  vtable_connect : amongoc_handler -> state -> outcome (state * amongoc_operation);
  em_region : bool;
  e_owned : list owned }.

Definition amongoc_emitter_connect (emit : amongoc_emitter) (hnd : amongoc_handler) (s : state)
  : outcome (state * amongoc_operation) := vtable_connect emit hnd s.

Definition amongoc_emitter_delete (emit : amongoc_emitter) (s : state) : outcome state := destroy_all s (e_owned emit).

(** A [compressed_emitter] that is dropped: the region of its userdata is leaked, with all that is in it. *)
Definition compressed_owned (emit : amongoc_emitter) : list owned := if em_region emit then [] else e_owned emit.

(** The functions of an event loop that the composition calls. *)
Record amongoc_loop : Type := mk_loop {
  call_soon : amongoc_status -> box -> amongoc_handler -> state -> outcome (state * list owned);
  call_later : Z * Z -> box -> amongoc_handler -> state -> outcome (state * list owned);
  loop_allocator : option allocator }.

(** The functions of the user.  Of [amongoc_then]: userdata, status, value. *)
Abbreviation then_transformer := (box -> amongoc_status -> box -> state -> outcome (state * amongoc_status * box)).

(** That of [amongoc_let] returns the next emitter. *)
Abbreviation let_transformer := (box -> amongoc_status -> box -> state -> outcome (state * amongoc_emitter)).

(** A C++ transformer: it returns also what it still owns. *)
Abbreviation continuation := (amongoc_status -> box -> state -> outcome (state * amongoc_status * box * list owned)).

Section Emitter.
Context (X : externals) (mlib_default_allocator : allocator).
(** As in [Box.v]: what the allocators grant, and the indeterminate bytes. *)
Context (grants : allocator -> Z -> bool) (junk : byte).

(** The closures and operation states that are stored in boxes of their own. *)
Inductive closure : Type :=
| just_connector (value : compressed) (okay : bool)
| just_starter (value : compressed) (okay : bool)
| then_sender (em : amongoc_emitter) (ud : compressed) (forward_errors : bool)
| then_operation
| then_receiver (ud : compressed)
| pair_sender (em : amongoc_emitter) (st : amongoc_status) (value : compressed) (forward_errors : bool)
| pair_receiver (st : amongoc_status) (value : compressed)
| let_sender (em : amongoc_emitter) (ud : compressed) (forward_errors default_alloc : bool)
| let_operation (ud : compressed)
| let_receiver (ud : compressed)
| status_pair (st : amongoc_status) (value : compressed)
| schedule_sender
| schedule_operation.

(** How the compiler lays a closure out: whether it is relocatable, its size, whether it has a destructor. *)
Record layout : Type := mk_layout { l_relocatable : bool; l_size : Z; l_dtor : bool }.
Context (layout_of : closure -> layout).

Definition closure_inlined (f : closure) : bool :=
  inlined (l_relocatable (layout_of f)) (l_size (layout_of f)) (if l_dtor (layout_of f) then Some 0%nat else None).

(** A closure is moved into a box, with [unique_box::make].  When there is no memory the box is destroyed
    through a null pointer ([Box.make_spec]), before anything is caught. *)
Definition boxed (f : closure) (alloc : allocator) : outcome unit :=
  if closure_inlined f || grants alloc (sizeof_dynamic_box + l_size (layout_of f)) then Done tt else Undef.

(** ** C++ objects as C objects *)

(** [unique_operation::from_starter(hnd, fn)]. *)
Definition from_starter (hnd : amongoc_handler) (f : closure) (fn : amongoc_handler -> state -> outcome (state * list owned)) (fn_owned : list owned)
  : outcome amongoc_operation :=
  let* _ := boxed f (amongoc_handler_get_allocator hnd mlib_default_allocator) in
  Done (mk_operation (fn hnd) (h_owned hnd ++ fn_owned)).

(** [unique_emitter::from_connector(alloc, fn)]. *)
Definition from_connector (alloc : allocator) (f : closure) (fn : amongoc_handler -> state -> outcome (state * amongoc_operation)) (fn_owned : list owned)
  : outcome amongoc_emitter :=
  let* _ := boxed f alloc in
  Done (mk_emitter fn (negb (closure_inlined f)) fn_owned).

(** [unique_handler::from(alloc, fn)]: the callable may take the value out of the result; what it leaves is destroyed after the
    call. *)
Definition handler_from (alloc : allocator) (fn : amongoc_status -> box -> state -> outcome (state * option box * list owned)) : amongoc_handler :=
  mk_handler
    (fun st result s =>
      let* (s, value, rest) := fn st result s in
      match value with
      | Some v => let* w := amongoc_box_destroy (boxes s) v in Done (with_boxes s w, rest)
      | None => Done (s, rest)
      end)
    (Some alloc) [].

(** [as_handler(recv)], for a receiver around another handler, whose allocator it has. *)
Definition as_handler (f : closure) (next : amongoc_handler) (recv : amongoc_status -> box -> state -> outcome (state * list owned)) (recv_owned : list owned)
  : outcome amongoc_handler :=
  let a := amongoc_handler_get_allocator next mlib_default_allocator in
  let* _ := boxed f a in
  Done (mk_handler recv (Some a) recv_owned).

(** [as_emitter(alloc, sender)]: the operation state is made in a box when the emitter is connected. *)
Definition as_emitter (alloc : allocator) (f operation_type : closure) (connect : amongoc_handler -> state -> outcome (state * amongoc_operation))
  (sender_owned : list owned) : outcome amongoc_emitter :=
  from_connector alloc f
    (fun hnd s =>
      let* _ := boxed operation_type (amongoc_handler_get_allocator hnd mlib_default_allocator) in
      connect hnd s)
    sender_owned.

(** ** [amongoc_alloc_failure], [amongoc_just] *)

Definition amongoc_alloc_failure : amongoc_emitter :=
  mk_emitter
    (fun h s =>
      let nomem := mk_status (known_category generic) (ENOMEM X) in
      Done (s, mk_operation (fun s => amongoc_handler_complete h nomem amongoc_nil s) (h_owned h)))
    false [].

Definition just_sizes : list Z := [0; 1; 2; 4; 8; 12; 16; 24].

Definition amongoc_just (st : amongoc_status) (value : box) (alloc : allocator) (s : state) : outcome amongoc_emitter :=
  let* c := compress junk (boxes s) value just_sizes in
  let okay := bool_decide (st = amongoc_okay) in
  let get_status := if okay then amongoc_okay else st in
  from_connector alloc (just_connector c okay)
    (fun hnd s =>
      let* op := from_starter hnd (just_starter c okay)
        (fun hnd s => let* b := recover (boxes s) c in amongoc_handler_complete hnd get_status b s)
        [owned_compressed c] in
      Done (s, op))
    [owned_compressed c].

(** ** [amongoc_then] *)

(** [then_continuation<ForwardErrors>]. *)
Definition then_continuation (ForwardErrors : bool) (ud : compressed) (tr : then_transformer) : continuation :=
  fun st value s =>
    if ForwardErrors && amongoc_is_error X st then Done (s, st, value, [owned_compressed ud])
    else
      let* b := recover (boxes s) ud in
      let* (s, st, value) := tr b st value s in
      Done (s, st, value, []).

(** [atop(recv, transformer)], the receiver of [then_sender]. *)
Definition then_recv (recv : amongoc_handler) (transformer : continuation) : amongoc_status -> box -> state -> outcome (state * list owned) :=
  fun st value s =>
    let* (s, st, value, kept) := transformer st value s in
    let* (s, rest) := amongoc_handler_complete recv st value s in
    Done (s, kept ++ rest).

(** [_then]: [as_emitter] of [then_sender], which connects the compressed emitter to the receiver. *)
Definition _then (f fr : closure) (em : amongoc_emitter) (alloc : allocator) (transformer : continuation) (transformer_owned : list owned)
  : outcome amongoc_emitter :=
  as_emitter alloc f then_operation
    (fun hnd s =>
      let* h := as_handler fr hnd (then_recv hnd transformer) (transformer_owned ++ h_owned hnd) in
      amongoc_emitter_connect em h s)
    (transformer_owned ++ compressed_owned em).

Definition then_sizes : list Z := [0; 8; 16].

(** [flags] is the test of [amongoc_async_forward_errors]. *)
Definition amongoc_then (em : amongoc_emitter) (forward_errors : bool) (alloc : allocator) (userdata : box) (tr : then_transformer) (s : state)
  : outcome amongoc_emitter :=
  let* ud := compress junk (boxes s) userdata then_sizes in
  _then (then_sender em ud forward_errors) (then_receiver ud) em alloc (then_continuation forward_errors ud tr) [owned_compressed ud].

(** ** [amongoc_then_just] *)

(** The transformer that replaces the value. *)
Definition replace_value : then_transformer := fun value st result s =>
  let* w := amongoc_box_destroy (boxes s) result in
  Done (with_boxes s w, amongoc_okay, value).

(** The userdata is a box of the status and the compressed value.  The transformer does not free it, so
    that the region of a large pair is leaked. *)
Definition replace_both (st : amongoc_status) (value : compressed) : continuation := fun _ result s =>
  let* w := amongoc_box_destroy (boxes s) result in
  let* b := recover w value in
  Done (with_boxes s w, st, b, []).

Definition pair_owned (st : amongoc_status) (value : compressed) : list owned :=
  if closure_inlined (status_pair st value) then [owned_compressed value] else [].

(** [amongoc_then] with that box, and the continuation of [then_continuation]. *)
Definition then_pair (forward_errors : bool) (em : amongoc_emitter) (st : amongoc_status) (value : compressed) (alloc : allocator)
  : outcome amongoc_emitter :=
  let* _ := boxed (status_pair st value) alloc in
  let f : continuation := fun st' result s =>
    if forward_errors && amongoc_is_error X st' then Done (s, st', result, pair_owned st value)
    else replace_both st value st' result s in
  _then (pair_sender em st value forward_errors) (pair_receiver st value) em alloc f (pair_owned st value).

Definition amongoc_then_just (em : amongoc_emitter) (forward_errors : bool) (st : amongoc_status) (value : box) (alloc : allocator) (s : state)
  : outcome amongoc_emitter :=
  if bool_decide (st = amongoc_okay) then amongoc_then em forward_errors alloc value replace_value s
  else
    let* c := compress junk (boxes s) value then_sizes in
    then_pair forward_errors em st c alloc.

(** ** [amongoc_let] *)

(** [let_forward_errors<...>::continuation]: with what it still owns. *)
Definition let_continuation (ForwardErrors : bool) (ud : compressed) (alloc : allocator) (transform : let_transformer)
  (st : amongoc_status) (value : box) (s : state) : outcome (state * amongoc_emitter * list owned) :=
  if ForwardErrors && amongoc_is_error X st then
    let* em := amongoc_just st value alloc s in Done (s, em, [owned_compressed ud])
  else
    let* b := recover (boxes s) ud in
    let* (s, em) := transform b st value s in
    Done (s, em, []).

(** [let_recv]: the next emitter is connected to the handler of the composed operation, and started. *)
Definition let_recv (_next_recv : amongoc_handler) (_transform : amongoc_status -> box -> state -> outcome (state * amongoc_emitter * list owned))
  : amongoc_status -> box -> state -> outcome (state * list owned) :=
  fun st value s =>
    let* (s, next_sender, kept) := _transform st value s in
    let* (s, _next_operation) := amongoc_emitter_connect next_sender _next_recv s in
    let* (s, rest) := amongoc_start _next_operation s in
    Done (s, rest ++ kept).

Definition let_sizes : list Z := [0].

(** [_let] and [amongoc_let]; the default allocator is not stored. *)
Definition amongoc_let (em : amongoc_emitter) (forward_errors : bool) (alloc : allocator) (userdata : box) (tr : let_transformer) (s : state)
  : outcome amongoc_emitter :=
  let* ud := compress junk (boxes s) userdata let_sizes in
  let sender := let_sender em ud forward_errors (bool_decide (alloc = mlib_default_allocator)) in
  as_emitter alloc sender (let_operation ud)
    (fun hnd s =>
      let* h := as_handler (let_receiver ud) hnd (let_recv hnd (let_continuation forward_errors ud alloc tr)) (h_owned hnd ++ [owned_compressed ud]) in
      amongoc_emitter_connect em h s)
    (owned_compressed ud :: compressed_owned em).

(** ** [amongoc_tie], [amongoc_detach] *)

(** The callable stores what the pointers ask for; with its allocator it fits into a box. *)
Definition tie_handler (status value : option pointer) (alloc : allocator) : amongoc_handler :=
  handler_from alloc (fun st v s =>
    let s := match status with Some p => mk_state (boxes s) (<[p := st]> (status_vars s)) (box_vars s) | None => s end in
    match value with
    | Some p => Done (mk_state (boxes s) (status_vars s) (<[p := v]> (box_vars s)), None, [])
    | None => Done (s, Some v, [])
    end).

Definition amongoc_tie (em : amongoc_emitter) (status value : option pointer) (alloc : allocator) (s : state)
  : outcome (state * amongoc_operation) :=
  amongoc_emitter_connect em (tie_handler status value alloc) s.

Definition amongoc_detach (em : amongoc_emitter) (alloc : allocator) (s : state) : outcome (state * amongoc_operation) :=
  amongoc_tie em None None alloc s.

(** ** [amongoc_schedule], [amongoc_schedule_later] *)

Definition loop_get_allocator (loop : amongoc_loop) : allocator :=
  match loop_allocator loop with Some a => a | None => mlib_default_allocator end.

(** [as_emitter] of [loop->schedule()] with the transformer that makes an empty result; the handler given to the loop is
    made when the operation starts, and fits into its box. *)
Definition amongoc_schedule (loop : amongoc_loop) : outcome amongoc_emitter :=
  as_emitter (loop_get_allocator loop) schedule_sender schedule_operation
    (fun hnd s =>
      Done (s, mk_operation
        (fun s =>
          call_soon loop amongoc_okay amongoc_nil
            (handler_from (loop_get_allocator loop) (fun _ v s =>
              let* (s, rest) := amongoc_handler_complete hnd amongoc_okay amongoc_nil s in
              Done (s, Some v, rest))) s)
        (h_owned hnd)))
    [].

(** The closures (a pointer and a [timespec]) fit into their boxes. *)
Definition amongoc_schedule_later (loop : amongoc_loop) (duration_us : Z * Z) : amongoc_emitter :=
  mk_emitter
    (fun hnd s => Done (s, mk_operation (fun s => call_later loop duration_us amongoc_nil hnd s) (h_owned hnd)))
    false [].

(** ** [amongoc_timeout] *)

(** What the coroutine returns for the variant of its race. *)
Definition amongoc_timeout_result (race : nat * (amongoc_status * box)) : amongoc_status * box :=
  if Nat.eqb race.1 0 then race.2 else (mk_status (known_category generic) (ETIMEDOUT X), amongoc_nil).

(** ** The short forms of [async.h] *)

Definition _amongoc_then_em_ud_cb (em : amongoc_emitter) (userdata : box) (tr : then_transformer) : state -> outcome amongoc_emitter :=
  amongoc_then em false mlib_default_allocator userdata tr.
Definition _amongoc_then_em_fl_cb (em : amongoc_emitter) (fl : bool) (tr : then_transformer) : state -> outcome amongoc_emitter :=
  amongoc_then em fl mlib_default_allocator amongoc_nil tr.
Definition _amongoc_then_em_al_ud_cb (em : amongoc_emitter) (alloc : allocator) (userdata : box) (tr : then_transformer) : state -> outcome amongoc_emitter :=
  amongoc_then em false alloc userdata tr.
Definition _amongoc_then_em_fl_ud_cb (em : amongoc_emitter) (flags : bool) (userdata : box) (tr : then_transformer) : state -> outcome amongoc_emitter :=
  amongoc_then em flags mlib_default_allocator userdata tr.
Definition _amongoc_let_em_ud_cb (em : amongoc_emitter) (userdata : box) (tr : let_transformer) : state -> outcome amongoc_emitter :=
  amongoc_let em false mlib_default_allocator userdata tr.
Definition _amongoc_let_em_fl_cb (em : amongoc_emitter) (fl : bool) (tr : let_transformer) : state -> outcome amongoc_emitter :=
  amongoc_let em fl mlib_default_allocator amongoc_nil tr.
Definition _amongoc_let_em_al_ud_cb (em : amongoc_emitter) (alloc : allocator) (userdata : box) (tr : let_transformer) : state -> outcome amongoc_emitter :=
  amongoc_let em false alloc userdata tr.
Definition _amongoc_let_em_fl_ud_cb (em : amongoc_emitter) (flags : bool) (userdata : box) (tr : let_transformer) : state -> outcome amongoc_emitter :=
  amongoc_let em flags mlib_default_allocator userdata tr.
Definition _amongoc_just_status (st : amongoc_status) : state -> outcome amongoc_emitter :=
  amongoc_just st amongoc_nil mlib_default_allocator.
Definition _amongoc_just_value (val : box) : state -> outcome amongoc_emitter :=
  amongoc_just amongoc_okay val mlib_default_allocator.
Definition _amongoc_just_st_value (st : amongoc_status) (value : box) : state -> outcome amongoc_emitter :=
  amongoc_just st value mlib_default_allocator.
Definition _amongoc_just_val_alloc (value : box) (alloc : allocator) : state -> outcome amongoc_emitter :=
  amongoc_just amongoc_okay value alloc.
Definition _amongoc_tie_status (em : amongoc_emitter) (status : pointer) : state -> outcome (state * amongoc_operation) :=
  amongoc_tie em (Some status) None mlib_default_allocator.
Definition _amongoc_tie_value (em : amongoc_emitter) (value : pointer) : state -> outcome (state * amongoc_operation) :=
  amongoc_tie em None (Some value) mlib_default_allocator.

End Emitter.
