(* ===== verification/EmitterSpec.v ===== *)
(** * What composed emitters do

    The meaning of a composition of emitters ([meaning]), and that the emitters that the code builds have it
    ([composition_refines]); the handlers of [amongoc_tie]; what happens without memory; userdata. *)
From Stdlib Require Import ZArith Lia.
From Stdlib Require Import Strings.Byte.
From stdpp Require Import base numbers list gmap.
From S2P Require Import Prelude.
From S2P Require Import Status.
From S2P Require Import Box.
From S2P Require Import Race.
From S2P Require Import RaceSpec.
From S2P Require Import Emitter.
Open Scope Z_scope.
Open Scope outcome_scope.

Section Spec.
Context (X : externals) (mlib_default_allocator : allocator).
Context (grants : allocator -> Z -> bool) (junk : byte) (layout_of : closure -> layout).

(** ** Behaviours *)

(** How an operation resolves: the status, the value, and what it still owns, around what its handler still
    owns. *)
Record resolution : Type := mk_resolution {
  r_status : amongoc_status;
  r_value : box;
  r_before : list owned;
  r_after : list owned }.

(** What connecting an emitter does, and what its operation does until it resolves. *)
Record behaviour : Type := mk_behaviour {
  on_connect : state -> outcome state;
  on_start : state -> outcome (state * resolution) }.

(** An operation that calls its handler once, with what it resolves with. *)
Definition resolves (hnd : amongoc_handler) (r : state -> outcome (state * resolution)) (s : state) : outcome (state * list owned) :=
  let* (s, res) := r s in
  let* (s, rest) := amongoc_handler_complete hnd (r_status res) (r_value res) s in
  Done (s, r_before res ++ rest ++ r_after res).

Definition implements (em : amongoc_emitter) (b : behaviour) : Prop := forall hnd s,
  match on_connect b s with
  | Done s1 => exists op, amongoc_emitter_connect em hnd s = Done (s1, op) /\
      forall s', amongoc_start op s' = resolves hnd (on_start b) s'
  | Abort => amongoc_emitter_connect em hnd s = Abort
  | Undef => amongoc_emitter_connect em hnd s = Undef
  end.

(** An emitter of the program with a behaviour, and what it owns. *)
Definition primitive (b : behaviour) (own : list owned) : amongoc_emitter :=
  mk_emitter
    (fun hnd s => let* s := on_connect b s in Done (s, mk_operation (resolves hnd (on_start b)) (h_owned hnd ++ own)))
    false own.

Lemma primitive_implements b own : implements (primitive b own) b.
Proof.
  intros hnd s. unfold amongoc_emitter_connect, primitive. simpl. destruct (on_connect b s); [|done..].
  by eexists.
Qed.

(** ** Compositions *)

(** The functions of the user take the state; that of [Let] gives the next composition. *)
Inductive composition : Type :=
| Primitive (b : behaviour) (own : list owned)
| Just (st : amongoc_status) (value : box) (alloc : allocator)
| AllocFailure
| Then (em : composition) (forward_errors : bool) (alloc : allocator) (userdata : box) (tr : then_transformer)
| ThenJust (em : composition) (forward_errors : bool) (st : amongoc_status) (value : box) (alloc : allocator)
| Let (em : composition) (forward_errors : bool) (alloc : allocator) (userdata : box)
      (tr : box -> amongoc_status -> box -> state -> outcome (state * composition)).

(** The calls that build the emitter. *)
Fixpoint build (e : composition) (s : state) : outcome amongoc_emitter :=
  match e with
  | Primitive b own => Done (primitive b own)
  | Just st v a => amongoc_just mlib_default_allocator grants junk layout_of st v a s
  | AllocFailure => Done (amongoc_alloc_failure X)
  | Then e fwd a ud tr =>
    let* em := build e s in amongoc_then X mlib_default_allocator grants junk layout_of em fwd a ud tr s
  | ThenJust e fwd st v a =>
    let* em := build e s in amongoc_then_just X mlib_default_allocator grants junk layout_of em fwd st v a s
  | Let e fwd a ud tr =>
    let* em := build e s in
    amongoc_let X mlib_default_allocator grants junk layout_of em fwd a ud
      (fun b st v s => let* (s, next) := tr b st v s in let* em := build next s in Done (s, em)) s
  end.

(** A box that was compressed comes out as this one. *)
Definition renewed (Sz : list Z) (b : box) (s : state) : outcome box :=
  let* c := compress junk (boxes s) b Sz in recover (boxes s) c.

(** What is left of a userdata that the transformer was not given. *)
Definition unused (Sz : list Z) (b : box) (s : state) : outcome (list owned) :=
  let* c := compress junk (boxes s) b Sz in Done [owned_compressed c].

Definition nothing_connected (r : state -> outcome (state * resolution)) : behaviour := mk_behaviour Done r.

(** Results that a transformer replaces, or that pass it. *)
Definition mapped (r : resolution) (st : amongoc_status) (v : box) (kept : list owned) : resolution :=
  mk_resolution st v (r_before r ++ kept) (r_after r).

Definition just_meaning (st : amongoc_status) (v : box) : behaviour := nothing_connected (fun s =>
  let* b := renewed just_sizes v s in Done (s, mk_resolution st b [] [])).

Definition fail_meaning : behaviour := nothing_connected (fun s =>
  Done (s, mk_resolution (mk_status (known_category generic) (ENOMEM X)) amongoc_nil [] [])).

Definition then_meaning (m : behaviour) (forward_errors : bool) (ud : box) (tr : then_transformer) : behaviour :=
  mk_behaviour (on_connect m) (fun s =>
    let* (s, r) := on_start m s in
    if forward_errors && amongoc_is_error X (r_status r) then
      let* kept := unused then_sizes ud s in Done (s, mapped r (r_status r) (r_value r) kept)
    else
      let* b := renewed then_sizes ud s in
      let* (s, st, v) := tr b (r_status r) (r_value r) s in
      Done (s, mapped r st v [])).

(** The old value is destroyed.  A large pair that is not used is leaked with the value in it. *)
Definition then_just_meaning (m : behaviour) (forward_errors : bool) (st : amongoc_status) (v : box) : behaviour :=
  mk_behaviour (on_connect m) (fun s =>
    let* (s, r) := on_start m s in
    let* c := compress junk (boxes s) v then_sizes in
    if forward_errors && amongoc_is_error X (r_status r) then
      let kept := bool_decide (st = amongoc_okay) || closure_inlined layout_of (status_pair st c) in
      Done (s, mapped r (r_status r) (r_value r) (if kept then [owned_compressed c] else []))
    else
      let* (b, w) :=
        if bool_decide (st = amongoc_okay)
        then let* b := recover (boxes s) c in let* w := amongoc_box_destroy (boxes s) (r_value r) in Done (b, w)
        else let* w := amongoc_box_destroy (boxes s) (r_value r) in let* b := recover w c in Done (b, w) in
      Done (with_boxes s w, mapped r st b [])).

(** [tr] gives the behaviour of the next emitter. *)
Definition let_meaning (m : behaviour) (forward_errors : bool) (ud : box)
  (tr : box -> amongoc_status -> box -> state -> outcome (state * behaviour)) : behaviour :=
  mk_behaviour (on_connect m) (fun s =>
    let* (s, r) := on_start m s in
    if forward_errors && amongoc_is_error X (r_status r) then
      let* v := renewed just_sizes (r_value r) s in
      let* kept := unused let_sizes ud s in
      Done (s, mk_resolution (r_status r) v (r_before r) (kept ++ r_after r))
    else
      let* b := renewed let_sizes ud s in
      let* (s, next) := tr b (r_status r) (r_value r) s in
      let* s := on_connect next s in
      let* (s, r') := on_start next s in
      Done (s, mk_resolution (r_status r') (r_value r') (r_before r ++ r_before r') (r_after r' ++ r_after r))).

Fixpoint meaning (e : composition) : behaviour :=
  match e with
  | Primitive b _ => b
  | Just st v _ => just_meaning st v
  | AllocFailure => fail_meaning
  | Then e fwd _ ud tr => then_meaning (meaning e) fwd ud tr
  | ThenJust e fwd st v _ => then_just_meaning (meaning e) fwd st v
  | Let e fwd _ ud tr => let_meaning (meaning e) fwd ud (fun b st v s => let* (s, next) := tr b st v s in Done (s, meaning next))
  end.

(** ** Boxes whose flags tell the active member *)

Definition tagged (b : box) : Prop :=
  match u b with
  | trivial_inline _ => is_dynamic b = false /\ has_dtor b = false
  | nontrivial_inline _ _ => is_dynamic b = false /\ has_dtor b = true
  | dynamic _ => is_dynamic b = true
  end.

Lemma owned_tagged w b : owns w b -> tagged b.
Proof. unfold owns, tagged. destruct (u b) as [?|? ?|[?|]]; [intros (? & ? & _)..|intros (? & _)|]; done. Qed.

(** Compression looks at the box only, and does not fail on such boxes. *)
Lemma compress_tagged b Sz : tagged b -> exists c, forall w, compress junk w b Sz = Done c.
Proof.
  intros Hb. unfold tagged, compress in *. destruct b as [[l|l d|p] dy hd n]; cbn [u is_dynamic has_dtor] in *.
  1, 2: destruct Hb as [-> ->].
  3: { rewrite Hb. by eexists. }
  all: induction Sz as [|N Sz IH]; [by eexists|]; simpl; case_match; [|done];
    unfold _make_compressed, _amongocBoxDataPtr, u_bytes, u_dtor; cbn [u is_dynamic has_dtor]; case_match; by eexists.
Qed.

(** Recovery gives such boxes. *)
Lemma renewed_tagged Sz b s b' : tagged b -> renewed Sz b s = Done b' -> tagged b'.
Proof.
  intros Hb. unfold renewed, compress. destruct (is_dynamic b) eqn:Hd.
  - destruct (u_dynamic b) as [p| |]; cbn [obind recover]; [|done..]. unfold deref.
    destruct p as [p|]; [|done]. destruct (heap (boxes s) !! p) as [d|]; [|done]. cbn [obind]. by intros [= <-].
  - induction Sz as [|N Sz IH]; cbn [_compress_p1 obind recover]; [by intros [= <-]|]. case_match; [|exact IH].
    unfold _make_compressed. destruct (if N =? 0 then _ else _) as [buf| |]; cbn [obind]; [|done..].
    destruct (has_dtor b); [destruct (u_dtor b) as [d| |]; cbn [obind]; [|done..]|]; cbn [obind recover]; case_match; by intros [= <-].
Qed.

(** An operation that resolves with such a box. *)
Definition tagged_results (m : behaviour) : Prop := forall s s' r, on_start m s = Done (s', r) -> tagged (r_value r).

(** All the boxes that a composition is built with, and those that the functions return for such boxes. *)
Fixpoint well_tagged (e : composition) : Prop :=
  match e with
  | Primitive b _ => tagged_results b
  | AllocFailure => True
  | Just _ v _ => tagged v
  | Then e _ _ ud tr => well_tagged e /\ tagged ud /\
      forall b st v s s' st' v', tagged b -> tagged v -> tr b st v s = Done (s', st', v') -> tagged v'
  | ThenJust e _ _ v _ => well_tagged e /\ tagged v
  | Let e _ _ ud tr => well_tagged e /\ tagged ud /\
      forall b st v s, tagged b -> tagged v -> match tr b st v s with Done (_, next) => well_tagged next | _ => True end
  end.

(** What holds of the composition that a function of [Let] returns. *)
Definition of_next (P : composition -> Prop) (o : outcome (state * composition)) : Prop :=
  match o with Done (_, next) => P next | _ => True end.

Lemma composition_induction (P : composition -> Prop) :
  (forall b own, P (Primitive b own)) -> (forall st v a, P (Just st v a)) -> P AllocFailure ->
  (forall e fwd a ud tr, P e -> P (Then e fwd a ud tr)) ->
  (forall e fwd st v a, P e -> P (ThenJust e fwd st v a)) ->
  (forall e fwd a ud tr, P e -> (forall b st v s, of_next P (tr b st v s)) -> P (Let e fwd a ud tr)) ->
  forall e, P e.
Proof.
  intros Hp Hj Hf Ht Htj Hl. fix IH 1. intros [b own|st v a| |e fwd a ud tr|e fwd st v a|e fwd a ud tr];
    [apply Hp|apply Hj|apply Hf|apply Ht, IH|apply Htj, IH|apply Hl; [apply IH|]].
  intros b st v s. unfold of_next. destruct (tr b st v s) as [[s' next]| |]; [apply IH|exact I..].
Qed.

Lemma recovered_tagged Sz b c s b' : tagged b -> (forall w, compress junk w b Sz = Done c) -> recover (boxes s) c = Done b' -> tagged b'.
Proof. intros Hb Hc Hr. apply (renewed_tagged Sz b s); [done|]. unfold renewed. by rewrite Hc. Qed.

(** Whatever a composition of such boxes resolves with is one. *)
Lemma meaning_tagged e : well_tagged e -> tagged_results (meaning e).
Proof.
  induction e as [b own|st v a| |e fwd a ud tr IH|e fwd st v a IH|e fwd a ud tr IH IHn] using composition_induction; cbn [well_tagged meaning].
  - done.
  - intros Hv s s' r. cbn [just_meaning nothing_connected on_start]. destruct (renewed just_sizes v s) as [b| |] eqn:E; cbn [obind]; [|done..].
    intros [= <- <-]. by apply renewed_tagged in E.
  - intros _ s s' r. cbn. by intros [= <- <-].
  - intros (Hw & Hud & Ht) s s' r. specialize (IH Hw s). cbn [then_meaning on_start].
    destruct (on_start (meaning e) s) as [[s1 r1]| |]; cbn [obind]; [|done..]. specialize (IH s1 r1 eq_refl). case_match.
    + destruct (unused then_sizes ud s1) as [k| |]; cbn [obind]; [|done..]. by intros [= <- <-].
    + destruct (renewed then_sizes ud s1) as [x| |] eqn:E; cbn [obind]; [|done..]. apply renewed_tagged in E; [|done].
      destruct (tr x (r_status r1) (r_value r1) s1) as [[[s2 st] v]| |] eqn:Et; cbn [obind]; [|done..]. intros [= <- <-]. by eapply Ht in Et.
  - intros (Hw & Hv) s s' r. specialize (IH Hw s). cbn [then_just_meaning on_start].
    destruct (on_start (meaning e) s) as [[s1 r1]| |]; cbn [obind]; [|done..]. specialize (IH s1 r1 eq_refl).
    destruct (compress_tagged v then_sizes Hv) as [c Hc]. rewrite Hc. cbn [obind]. case_match; [by intros [= <- <-]|].
    assert (forall w x, recover w c = Done x -> tagged x) as Hr by (intros w x; apply (recovered_tagged then_sizes v c (with_boxes s1 w) x Hv Hc)). case_bool_decide.
    + destruct (recover (boxes s1) c) as [x| |] eqn:E; cbn [obind]; [|done..]. apply Hr in E.
      destruct (amongoc_box_destroy _ _); cbn [obind]; [|done..]. by intros [= <- <-].
    + destruct (amongoc_box_destroy _ _) as [w| |]; cbn [obind]; [|done..].
      destruct (recover w c) as [x| |] eqn:E; cbn [obind]; [|done..]. apply Hr in E. by intros [= <- <-].
  - intros (Hw & Hud & Hn) s s' r. specialize (IH Hw s). cbn [let_meaning on_start].
    destruct (on_start (meaning e) s) as [[s1 r1]| |]; cbn [obind]; [|done..]. specialize (IH s1 r1 eq_refl). case_match.
    + destruct (renewed just_sizes _ s1) as [v'| |] eqn:E; cbn [obind]; [|done..]. apply renewed_tagged in E; [|done].
      destruct (unused let_sizes ud s1) as [k| |]; cbn [obind]; [|done..]. by intros [= <- <-].
    + destruct (renewed let_sizes ud s1) as [x| |] eqn:E; cbn [obind]; [|done..]. apply renewed_tagged in E; [|done].
      specialize (Hn x (r_status r1) (r_value r1) s1 E IH). specialize (IHn x (r_status r1) (r_value r1) s1).
      destruct (tr x _ _ s1) as [[s2 next]| |]; cbn [obind of_next] in *; [|done..].
      destruct (on_connect (meaning next) s2) as [s3| |]; cbn [obind]; [|done..]. specialize (IHn Hn s3).
      destruct (on_start (meaning next) s3) as [[s4 r4]| |]; cbn [obind]; [|done..]. intros [= <- <-]. by apply (IHn s4 r4).
Qed.

(** ** The refinement *)

Lemma implements_ext em b r : implements em b -> (forall s, on_start b s = r s) -> implements em (mk_behaviour (on_connect b) r).
Proof.
  intros Hi Hr hnd s. specialize (Hi hnd s). simpl. destruct (on_connect b s); [|done..].
  destruct Hi as (op & Hc & Hs). exists op. split; [done|]. intros s'. rewrite Hs. unfold resolves. by rewrite Hr.
Qed.

Lemma connect_eq f r o hnd s : amongoc_emitter_connect (mk_emitter f r o) hnd s = f hnd s.
Proof. done. Qed.

(** There is memory for the closures. *)
Definition plenty : Prop := forall f a, boxed grants layout_of f a = Done tt.

Lemma then_implements f fr em a tr own b : plenty -> implements em b ->
  exists em', _then mlib_default_allocator grants layout_of f fr em a tr own = Done em' /\
  implements em' (mk_behaviour (on_connect b) (fun s =>
    let* (s, r) := on_start b s in
    let* (s, st, v, kept) := tr (r_status r) (r_value r) s in
    Done (s, mapped r st v kept))).
Proof.
  intros Hm Hi. unfold _then, as_emitter, from_connector. rewrite Hm. cbn [obind]. eexists. split; [done|].
  intros hnd s. rewrite connect_eq. unfold as_handler. rewrite !Hm. cbn [obind].
  set (h := mk_handler _ _ _). specialize (Hi h s). cbn [on_connect]. destruct (on_connect b s) as [s1| |]; [|exact Hi..].
  destruct Hi as (op & Hc & Hs). exists op. split; [exact Hc|]. intros s'. rewrite Hs. unfold resolves. cbn [on_start].
  destruct (on_start b s') as [[s2 r]| |]; cbn [obind]; [|done..]. subst h. unfold amongoc_handler_complete. cbn [complete].
  unfold then_recv. destruct (tr _ _ s2) as [[[[s3 st] v] kept]| |]; cbn [obind]; [|done..].
  cbn [mapped r_status r_value r_before r_after]. unfold amongoc_handler_complete.
  destruct (complete hnd st v s3) as [[s4 rest]| |]; cbn [obind]; [|done..]. by rewrite <- !app_assoc.
Qed.

Lemma just_implements st v a s0 c : plenty -> (forall w, compress junk w v just_sizes = Done c) ->
  exists em, amongoc_just mlib_default_allocator grants junk layout_of st v a s0 = Done em /\
  implements em (just_meaning st v).
Proof.
  intros Hm Hc. unfold amongoc_just. rewrite Hc. cbn [obind]. unfold from_connector. rewrite Hm. cbn [obind]. eexists. split; [done|].
  intros hnd s. cbn [just_meaning on_connect nothing_connected]. rewrite connect_eq. unfold from_starter. rewrite Hm.
  cbn [obind]. eexists. split; [done|]. intros s'. unfold amongoc_start, resolves, just_meaning, nothing_connected. cbn [start_callback on_start]. unfold renewed. rewrite Hc. cbn [obind].
  destruct (recover (boxes s') c) as [b| |]; cbn [obind]; [|done..].
  replace (if bool_decide (st = amongoc_okay) then amongoc_okay else st) with st by (by case_bool_decide).
  unfold amongoc_handler_complete. cbn [r_status r_value r_before r_after].
  destruct (complete hnd st b s') as [[s2 rest]| |]; cbn [obind]; [|done..]. by rewrite app_nil_r.
Qed.

(** Such an emitter when it is connected and started at once. *)
Lemma just_run st v a hnd s : plenty ->
  (let* em := amongoc_just mlib_default_allocator grants junk layout_of st v a s in
   let* (s, op) := amongoc_emitter_connect em hnd s in
   amongoc_start op s) =
  let* b := renewed just_sizes v s in amongoc_handler_complete hnd st b s.
Proof.
  intros Hm. unfold amongoc_just, renewed. destruct (compress junk (boxes s) v just_sizes) as [c| |]; cbn [obind]; [|done..].
  unfold from_connector. rewrite Hm. cbn [obind]. rewrite connect_eq. unfold from_starter. rewrite Hm. cbn [obind].
  unfold amongoc_start. cbn [start_callback]. replace (if bool_decide (st = amongoc_okay) then amongoc_okay else st) with st by (by case_bool_decide).
  done.
Qed.

(** [amongoc_let] with a function that gives emitters of known behaviours. *)
Lemma let_implements em fwd a ud c tr b (tr_b : box -> amongoc_status -> box -> state -> outcome (state * behaviour)) s0 :
  plenty -> implements em b -> tagged_results b -> tagged ud -> (forall w, compress junk w ud let_sizes = Done c) ->
  (forall x st v s, tagged x -> tagged v -> match tr_b x st v s with
    | Done (s', bn) => exists next, tr x st v s = Done (s', next) /\ implements next bn
    | Abort => tr x st v s = Abort
    | Undef => tr x st v s = Undef
    end) ->
  exists em', amongoc_let X mlib_default_allocator grants junk layout_of em fwd a ud tr s0 = Done em' /\
  implements em' (let_meaning b fwd ud tr_b).
Proof.
  intros Hm Hi Hb Hud Hc Ht. unfold amongoc_let, as_emitter, from_connector. rewrite Hc. cbn [obind]. rewrite Hm. cbn [obind].
  eexists. split; [done|]. intros hnd s. rewrite connect_eq. unfold as_handler. rewrite !Hm. cbn [obind].
  set (h := mk_handler _ _ _). specialize (Hi h s). cbn [let_meaning on_connect]. destruct (on_connect b s) as [s1| |]; [|exact Hi..].
  destruct Hi as (op & Hcn & Hs). exists op. split; [exact Hcn|]. intros s'. rewrite Hs. unfold resolves. cbn [let_meaning on_start].
  specialize (Hb s'). destruct (on_start b s') as [[s2 r]| |]; cbn [obind]; [|done..]. specialize (Hb s2 r eq_refl).
  subst h. unfold amongoc_handler_complete at 1. cbn [complete]. unfold let_recv, let_continuation. destruct (fwd && amongoc_is_error X (r_status r)).
  - unfold unused. rewrite Hc. cbn [obind].
    transitivity (let* (s3, rest) := (let* em := amongoc_just mlib_default_allocator grants junk layout_of (r_status r) (r_value r) a s2 in
      let* (s, op) := amongoc_emitter_connect em hnd s2 in amongoc_start op s) in Done (s3, r_before r ++ (rest ++ [owned_compressed c]) ++ r_after r)).
    { destruct (amongoc_just _ _ _ _ _ _ _ s2) as [em2| |]; cbn [obind]; [|done..].
      destruct (amongoc_emitter_connect em2 hnd s2) as [[s3 op2]| |]; cbn [obind]; [|done..].
      by destruct (amongoc_start op2 s3) as [[s4 rest]| |]. }
    rewrite just_run by done. destruct (renewed just_sizes (r_value r) s2) as [v| |]; cbn [obind r_status r_value r_before r_after]; [|done..].
    destruct (amongoc_handler_complete hnd (r_status r) v s2) as [[s3 rest]| |]; cbn [obind]; [|done..]. by rewrite <- !app_assoc.
  - unfold renewed. rewrite Hc. cbn [obind]. destruct (recover (boxes s2) c) as [x| |] eqn:Ex; cbn [obind]; [|done..]. apply (recovered_tagged let_sizes ud) in Ex; [|done..].
    specialize (Ht x (r_status r) (r_value r) s2 ltac:(eassumption) Hb). destruct (tr_b x (r_status r) (r_value r) s2) as [[s3 bn]| |]; cbn [obind]; [|by rewrite Ht..].
    destruct Ht as (next & -> & Hn). cbn [obind]. specialize (Hn hnd s3). destruct (on_connect bn s3) as [s4| |]; cbn [obind]; [|by rewrite Hn..].
    destruct Hn as (op2 & -> & Hs2). cbn [obind]. rewrite Hs2. unfold resolves.
    destruct (on_start bn s4) as [[s5 r']| |]; cbn [obind r_status r_value r_before r_after]; [|done..].
    destruct (amongoc_handler_complete hnd (r_status r') (r_value r') s5) as [[s6 rest]| |]; cbn [obind]; [|done..].
    by rewrite app_nil_r, <- !app_assoc.
Qed.

Lemma fail_implements : implements (amongoc_alloc_failure X) fail_meaning.
Proof.
  intros hnd s. unfold fail_meaning, nothing_connected. cbn [on_connect]. eexists. split; [done|]. intros s'.
  unfold resolves, amongoc_start. cbn [on_start start_callback obind r_status r_value r_before r_after].
  destruct (amongoc_handler_complete hnd _ amongoc_nil s') as [[s2 rest]| |]; cbn [obind]; [|done..]. by rewrite app_nil_r.
Qed.

Lemma then_emitter em fwd a ud tr m s : plenty -> tagged ud -> implements em m ->
  exists em', amongoc_then X mlib_default_allocator grants junk layout_of em fwd a ud tr s = Done em' /\ implements em' (then_meaning m fwd ud tr).
Proof.
  intros Hm Hud Hi. destruct (compress_tagged ud then_sizes Hud) as [c Hc]. unfold amongoc_then. rewrite Hc. cbn [obind].
  destruct (then_implements (then_sender em c fwd) (then_receiver c) em a (then_continuation X fwd c tr) [owned_compressed c] _ Hm Hi) as (em' & -> & Hi').
  exists em'. split; [done|]. refine (implements_ext em' _ _ Hi' _). intros s'. cbn [on_start].
  destruct (on_start m s') as [[s2 r]| |]; cbn [obind]; [|done..]. unfold then_continuation, renewed, unused.
  rewrite Hc. cbn [obind]. destruct (fwd && amongoc_is_error X (r_status r)); [done|].
  destruct (recover (boxes s2) c) as [x| |]; cbn [obind]; [|done..]. by destruct (tr x _ _ s2) as [[[? ?] ?]| |].
Qed.

Lemma then_just_emitter em fwd a st v m s : plenty -> tagged v -> implements em m ->
  exists em', amongoc_then_just X mlib_default_allocator grants junk layout_of em fwd st v a s = Done em' /\ implements em' (then_just_meaning m fwd st v).
Proof.
  intros Hm Hv Hi. unfold amongoc_then_just, then_just_meaning. destruct (compress_tagged v then_sizes Hv) as [c Hc]. case_bool_decide as Hst.
  - destruct (then_emitter em fwd a v replace_value m s Hm Hv Hi) as (em' & -> & Hi'). exists em'. split; [done|].
    refine (implements_ext em' _ _ Hi' _). intros s'. cbn [then_meaning on_start].
    destruct (on_start m s') as [[s2 r]| |]; cbn [obind]; [|done..]. unfold renewed, unused. rewrite Hc. cbn [obind orb].
    destruct (fwd && amongoc_is_error X (r_status r)); [done|]. destruct (recover (boxes s2) c) as [x| |]; cbn [obind]; [|done..].
    unfold replace_value. destruct (amongoc_box_destroy (boxes s2) (r_value r)) as [w| |]; cbn [obind]; [|done..]. by rewrite Hst.
  - rewrite Hc. cbn [obind]. unfold then_pair. rewrite Hm. cbn [obind]. set (f := fun st' result s => _).
    destruct (then_implements (pair_sender em st c fwd) (pair_receiver st c) em a f (pair_owned layout_of st c) _ Hm Hi) as (em' & -> & Hi').
    exists em'. split; [done|]. refine (implements_ext em' _ _ Hi' _). intros s'. cbn [on_start].
    destruct (on_start m s') as [[s2 r]| |]; cbn [obind]; [|done..]. rewrite Hc. cbn [obind orb]. subst f. cbn beta.
    destruct (fwd && amongoc_is_error X (r_status r)); [by unfold pair_owned|]. unfold replace_both.
    destruct (amongoc_box_destroy (boxes s2) (r_value r)) as [w| |]; cbn [obind]; [|done..].
    by destruct (recover w c) as [x| |].
Qed.

(** By induction on the composition, with what its parts implement. *)
Lemma composition_implements e s : plenty -> well_tagged e -> exists em, build e s = Done em /\ implements em (meaning e).
Proof.
  intros Hm. revert s. induction e as [b own|st v a| |e fwd a ud tr IH|e fwd st v a IH|e fwd a ud tr IH IHn] using composition_induction;
    intros s Hw; cbn [build well_tagged] in *.
  - eexists. split; [done|]. apply primitive_implements.
  - destruct (compress_tagged v just_sizes Hw) as [c Hc]. by apply (just_implements st v a s c).
  - eexists. split; [done|]. apply fail_implements.
  - destruct Hw as (Hw & Hud & _). destruct (IH s Hw) as (em & -> & Hi). by apply then_emitter.
  - destruct Hw as [Hw Hud]. destruct (IH s Hw) as (em & -> & Hi). by apply then_just_emitter.
  - destruct Hw as (Hw & Hud & Hn). destruct (IH s Hw) as (em & -> & Hi). cbn [obind].
    destruct (compress_tagged ud let_sizes Hud) as [c Hc]. apply (let_implements _ _ _ _ c); [done|done|by apply meaning_tagged|done..|].
    intros x st v s' Hx Hv. specialize (IHn x st v s'). specialize (Hn x st v s' Hx Hv).
    destruct (tr x st v s') as [[s2 next]| |]; cbn [obind]; [|done..]. destruct (IHn s2 Hn) as (emn & -> & Hin). by exists emn.
Qed.

(** C4. Every composition of emitters with [amongoc_just], [amongoc_then], [amongoc_then_just], [amongoc_let] and [amongoc_alloc_failure],
    whatever the functions of the user do and however deep it is nested, can be built, and the emitter has the meaning of the
    composition: connected to any handler and started, it does what its parts do in their order, gives each function its
    userdata with the status and value it is due, skips it when errors are forwarded, and completes the handler once
    with the result. *)
Theorem composition_refines e s : plenty -> well_tagged e -> exists em, build e s = Done em /\ implements em (meaning e).
Proof. apply composition_implements. Qed.

(** C30. Type safety of the composition: when the boxes that an emitter is built with carry the flags of their active members, and the
    functions of the user return such boxes for such boxes, then a handler is only ever given such a box, however it was compressed,
    recovered, stored or forwarded on the way: two handlers that agree on such boxes cannot be told apart. *)
Theorem composition_typed e s em h h' : plenty -> well_tagged e -> build e s = Done em ->
  (forall st v s, tagged v -> complete h st v s = complete h' st v s) ->
  forall s0 s1 op, amongoc_emitter_connect em h s0 = Done (s1, op) ->
  exists op', amongoc_emitter_connect em h' s0 = Done (s1, op') /\ forall s', amongoc_start op s' = amongoc_start op' s'.
Proof.
  intros Hm Hw Hb Hh s0 s1 op. destruct (composition_implements e s Hm Hw) as (em' & He & Hi). rewrite Hb in He. injection He as <-.
  pose proof (Hi h s0) as H1. pose proof (Hi h' s0) as H2. destruct (on_connect (meaning e) s0) as [s2| |]; [|congruence..].
  destruct H1 as (op1 & -> & H1), H2 as (op2 & -> & H2). intros [= -> ->]. exists op2. split; [done|].
  intros s'. rewrite H1, H2. unfold resolves. destruct (on_start (meaning e) s') as [[s3 r]| |] eqn:E; cbn [obind]; [|done..].
  apply (meaning_tagged e Hw) in E. unfold amongoc_handler_complete. by rewrite Hh.
Qed.

(** ** [amongoc_tie] *)

(** The variables after a result was stored. *)
Definition stored (status value : option pointer) (st : amongoc_status) (v : box) (s : state) : outcome state :=
  let s := match status with Some p => mk_state (boxes s) (<[p := st]> (status_vars s)) (box_vars s) | None => s end in
  match value with
  | Some p => Done (mk_state (boxes s) (status_vars s) (<[p := v]> (box_vars s)))
  | None => let* w := amongoc_box_destroy (boxes s) v in Done (with_boxes s w)
  end.

(** [amongoc_tie] of an emitter with a behaviour, and so [amongoc_detach]: when the operation is started it does what the emitter does and
    stores the status and the value where the pointers say; a value without a pointer is destroyed, and no memory is needed. *)
Theorem tie_spec em m status value a s : implements em m ->
  match on_connect m s with
  | Done s1 => exists op, amongoc_tie em status value a s = Done (s1, op) /\
      forall s', amongoc_start op s' =
        let* (s, r) := on_start m s' in
        let* s := stored status value (r_status r) (r_value r) s in
        Done (s, r_before r ++ r_after r)
  | Abort => amongoc_tie em status value a s = Abort
  | Undef => amongoc_tie em status value a s = Undef
  end.
Proof.
  intros Hi. unfold amongoc_tie. specialize (Hi (tie_handler status value a) s). destruct (on_connect m s) as [s1| |]; [|exact Hi..].
  destruct Hi as (op & Hc & Hs). exists op. split; [exact Hc|]. intros s'. rewrite Hs. unfold resolves.
  destruct (on_start m s') as [[s2 r]| |]; cbn [obind]; [|done..]. unfold amongoc_handler_complete, tie_handler, handler_from, stored. cbn [complete].
  destruct value as [p|]; cbn [obind]; [done|]. destruct status as [q|]; cbn [boxes]; by destruct (amongoc_box_destroy _ _).
Qed.

(** ** Without memory *)

(** When there is no memory for the closure that [amongoc_just], [amongoc_then] or [amongoc_let] stores, the emitter of
    [amongoc_alloc_failure] that their handlers of [bad_alloc] return is never reached: a box is destroyed through a null pointer. *)
Theorem no_memory_undefined em fwd a ud tr tr' st s : tagged ud ->
  (forall f, closure_inlined layout_of f = false) -> (forall n, grants a n = false) ->
  amongoc_just mlib_default_allocator grants junk layout_of st ud a s = Undef /\
  amongoc_then X mlib_default_allocator grants junk layout_of em fwd a ud tr s = Undef /\
  amongoc_let X mlib_default_allocator grants junk layout_of em fwd a ud tr' s = Undef.
Proof.
  intros Hud Hf Hg. destruct (compress_tagged ud just_sizes Hud) as [c1 H1]. destruct (compress_tagged ud then_sizes Hud) as [c2 H2].
  destruct (compress_tagged ud let_sizes Hud) as [c3 H3].
  unfold amongoc_just, amongoc_then, _then, amongoc_let, as_emitter, from_connector, boxed. rewrite H1, H2, H3. cbn [obind].
  by rewrite !Hf, !Hg.
Qed.

(** ** [amongoc_timeout] *)

(** The race of an emitter with a timer, in [amongoc_timeout], however the two interleave: the process is not stopped, and nothing is
    undefined unless ([sync]) one of them completes inside its stop callback;
    the emitter resolves at most once, when both have resolved and the other was told to stop, with the result of the emitter
    when that was the first, and as timed out when the timer was. *)
Theorem timeout_spec sync (h : First.handler (amongoc_status * box)) : First.reachable First.always false sync 2 h ->
  (forall r, First.step First.always false sync h r -> (exists h', r = Done h') \/ (sync = true /\ r = Undef /\ relocks h)) /\
  (First.delivered h = [] \/ exists N x rest, First.delivered h = [(N, x)] /\ First.judgements h = (N, x, true) :: rest /\
     all_resolved h /\ First._stopper h = true /\
     (N = 0%nat /\ amongoc_timeout_result X (N, x) = x \/
      N = 1%nat /\ amongoc_timeout_result X (N, x) = (mk_status (known_category generic) (ETIMEDOUT X), amongoc_nil))).
Proof.
  intros Hr. assert (race_inv First.always 2 h) as Hi by (apply (race_reachable_inv First.always false sync 2 h); [lia|done]). split.
  - intros r Hs. destruct (race_step_inv First.always false sync 2 h r Hi Hs) as [(h' & -> & _)|[(_ & Ho & Hf)|?]]; [by left; exists h'| |by right]. exfalso.
    destruct (First.judgements h) as [|[[N x] a] js] eqn:Ej.
    + destruct (judgement_log First.always false sync 2 h Hr) as [Hz _]. rewrite Ej, zlen_nil in Hz. lia.
    + pose proof (ri_judgements _ _ _ Hi N x a) as Ha. rewrite Ej in Ha. specialize (Ha ltac:(apply list_elem_of_here)). rewrite Ha in Hf. done.
  - destruct (final_result First.always false sync 2 h ltac:(lia) Hr) as [Hd|(N & x & Hd & Hf & _ & Hst & Hall)]; [by left|right].
    exists N, x. destruct (First.judgements h) as [|[[M y] a] js] eqn:Ej; [done|].
    pose proof (ri_judgements _ _ _ Hi M y a) as Ha. rewrite Ej in Ha. specialize (Ha ltac:(apply list_elem_of_here)). rewrite Ha in Hf.
    injection Hf as -> ->. exists js. rewrite Ha. split_and!; try done.
    destruct (judgement_log First.always false sync 2 h Hr) as (_ & _ & Hn). rewrite Ej in Hn.
    specialize (Hn N x a ltac:(apply list_elem_of_here)). unfold amongoc_timeout_result. simpl.
    destruct N as [|[|N]]; [by left|by right|lia].
Qed.

End Spec.

(** ** Concrete compositions *)

Section Concrete.

(** Every allocation succeeds, and closures go to regions. *)
Definition all_granted (_ : allocator) (_ : Z) : bool := true.
Definition all_in_regions (_ : closure) : layout := mk_layout false 64 true.

Definition sample_state : state := mk_state empty_world ∅ ∅.
Definition number (n : byte) : box := mk_box (trivial_inline (n :: zeros 23)) false false 1.
Definition sample_error : amongoc_status := mk_status (known_category client) 1.

(** One is resolved with and kept by a function of its userdata; the next operation replaces it by two and fails. *)
Definition sample_composition : composition :=
  Let (Then (Just amongoc_okay (number x01) 1%nat) true 1%nat small_box (fun _ st v s => Done (s, st, v)))
    false 1%nat (number x02)
    (fun ud st v s => Done (s, ThenJust (Just st v 1%nat) true sample_error ud 1%nat)).

Lemma composition_refines_witness :
  plenty all_granted all_in_regions /\ well_tagged sample_composition /\
  exists em, build linux_externals 0%nat all_granted x00 all_in_regions sample_composition sample_state = Done em /\
    implements em (meaning linux_externals x00 all_in_regions sample_composition).
Proof.
  assert (plenty all_granted all_in_regions) as Hm by (intros f a; reflexivity).
  assert (well_tagged sample_composition) as Hw.
  { refine (conj (conj _ (conj _ _)) (conj _ _)); [split; reflexivity|split; reflexivity| |split; reflexivity|].
    - intros b st v s s' st' v' _ Hv E. injection E as <- <- <-. exact Hv.
    - intros b st v s Hb Hv. split; assumption. }
  split; [exact Hm|]. split; [exact Hw|].
  apply (composition_refines linux_externals 0%nat all_granted x00 all_in_regions sample_composition sample_state Hm Hw).
Defined.

(** Two handlers that differ on a box whose flags are wrong. *)
Definition lenient : amongoc_handler := mk_handler (fun st v s => Done (s, [owned_box v])) None [].
Definition strict : amongoc_handler :=
  mk_handler (fun st v s => match u v with trivial_inline _ => if has_dtor v then Abort else Done (s, [owned_box v]) | _ => Done (s, [owned_box v]) end) None [].

Lemma composition_typed_witness : exists em s1 op,
  build linux_externals 0%nat all_granted x00 all_in_regions sample_composition sample_state = Done em /\
  amongoc_emitter_connect em lenient sample_state = Done (s1, op) /\
  exists op', amongoc_emitter_connect em strict sample_state = Done (s1, op') /\ forall s', amongoc_start op s' = amongoc_start op' s'.
Proof.
  do 3 eexists. split; [reflexivity|]. split; [reflexivity|].
  eapply (composition_typed linux_externals 0%nat all_granted x00 all_in_regions sample_composition sample_state _ lenient strict); [| |reflexivity| |reflexivity].
  - intros f a; reflexivity.
  - refine (conj (conj _ (conj _ _)) (conj _ _)); [split; reflexivity|split; reflexivity| |split; reflexivity|].
    + intros b st v s s' st' v' _ Hv E. injection E as <- <- <-. exact Hv.
    + intros b st v s Hb Hv. split; assumption.
  - intros st [[l|l d|q] dy hd n] s Hv; [|reflexivity..]. destruct Hv as [_ Hv]. simpl in *. rewrite Hv. reflexivity.
Defined.

(** An operation of the program that resolves with one. *)
Definition one : behaviour := nothing_connected (fun s => Done (s, mk_resolution amongoc_okay (number x01) [] [])).

Lemma tie_spec_witness : exists op,
  amongoc_tie (primitive one []) (Some 0%nat) None 1%nat sample_state = Done (sample_state, op) /\
  forall s, amongoc_start op s =
    let* (s, r) := on_start one s in
    let* s := stored (Some 0%nat) None (r_status r) (r_value r) s in
    Done (s, r_before r ++ r_after r).
Proof. exact (tie_spec (primitive one []) one (Some 0%nat) None 1%nat sample_state (primitive_implements one [])). Defined.

Lemma no_memory_undefined_witness :
  amongoc_just 0%nat (fun _ _ => false) x00 all_in_regions amongoc_okay (number x01) 1%nat sample_state = Undef /\
  amongoc_then linux_externals 0%nat (fun _ _ => false) x00 all_in_regions (primitive one []) true 1%nat (number x01)
    (fun b st _ s => Done (s, st, b)) sample_state = Undef /\
  amongoc_let linux_externals 0%nat (fun _ _ => false) x00 all_in_regions (primitive one []) true 1%nat (number x01)
    (fun _ _ _ s => Done (s, primitive one [])) sample_state = Undef.
Proof.
  apply (no_memory_undefined linux_externals 0%nat (fun _ _ => false) x00 all_in_regions); [split; reflexivity|reflexivity|reflexivity].
Defined.

(** A race that the timer wins. *)
Definition late : amongoc_status * box := (amongoc_okay, number x01).
Definition timer : amongoc_status * box := (amongoc_okay, amongoc_nil).
Definition t1 : First.handler (amongoc_status * box) := First._start_one (First._start_one (First.connect 2) 0) 1.
Definition t2 : First.handler (amongoc_status * box) := First.emplace (First.lock_section (First.judge First.always t1 1 timer) 1 timer true) 1 timer 1.
Definition t3 : First.handler (amongoc_status * box) := First.lock_section (First.judge First.always t2 0 late) 0 late true.
Definition t4 : First.handler (amongoc_status * box) :=
  First.mk_handler 0 (Some (1%nat, timer)) true None [First.returned; First.unlocked 1]
    [(1%nat, timer, true); (0%nat, late, true)] [(1%nat, timer)].

Lemma t4_reachable : First.reachable First.always false false 2 t4.
Proof.
  apply (First.reach_step _ _ _ _ t3); [|by apply (First.step_after First.always false false t3 0 0)].
  apply (First.reach_step _ _ _ _ (First.judge First.always t2 0 late)); [|by apply First.step_lock].
  apply (First.reach_step _ _ _ _ t2); [|by apply First.step_judge].
  apply (First.reach_step _ _ _ _ (First.lock_section (First.judge First.always t1 1 timer) 1 timer true)); [|by apply First.step_emplace].
  apply (First.reach_step _ _ _ _ (First.judge First.always t1 1 timer)); [|by apply First.step_lock].
  apply (First.reach_step _ _ _ _ t1); [|by apply First.step_judge].
  apply (First.reach_step _ _ _ _ (First._start_one (First.connect 2) 0)); [|by apply First.step_start].
  apply (First.reach_step _ _ _ _ (First.connect 2)); [|by apply First.step_start]. apply First.reach_connect.
Qed.

Lemma timeout_spec_witness :
  (forall r, First.step First.always false false t4 r -> (exists h', r = Done h') \/ (false = true /\ r = Undef /\ relocks t4)) /\
  (First.delivered t4 = [] \/ exists N x rest, First.delivered t4 = [(N, x)] /\ First.judgements t4 = (N, x, true) :: rest /\
     all_resolved t4 /\ First._stopper t4 = true /\
     (N = 0%nat /\ amongoc_timeout_result linux_externals (N, x) = x \/
      N = 1%nat /\ amongoc_timeout_result linux_externals (N, x) = (mk_status (known_category generic) (ETIMEDOUT linux_externals), amongoc_nil))).
Proof. exact (timeout_spec linux_externals false t4 t4_reachable). Defined.

(** A composition is built, tied to two variables and started; then the operation is deleted. *)
Definition run (e : composition) (s : state) : outcome state :=
  let* em := build linux_externals 0%nat all_granted x00 all_in_regions e s in
  let* (s, op) := amongoc_tie em (Some 0%nat) (Some 1%nat) 1%nat s in
  let* (s, rest) := amongoc_start op s in
  destroy_all s rest.

Example sample_run : exists s, run sample_composition sample_state = Done s /\
  status_vars s !! 0%nat = Some sample_error /\ (b ← box_vars s !! 1%nat; match u b with trivial_inline l => head l | _ => None end) = Some x02.
Proof. eexists. split; [vm_compute; reflexivity|]. split; reflexivity. Qed.

(** Errors are forwarded past a function whose userdata has a destructor: it is destroyed with the operation when it lies in
    its box, and leaked with its region otherwise. *)
Definition skipped (ud : box) : composition := Then AllocFailure true 1%nat ud (fun _ st v s => Done (s, st, v)).

Example skipped_userdata_destroyed : exists s, run (skipped small_box) sample_state = Done s /\
  effects (boxes s) = [Ran 5%nat ([x01; x02; x03] ++ zeros 13)].
Proof. eexists. split; [vm_compute; reflexivity|]. reflexivity. Qed.

Example skipped_userdata_leaked : exists w ud s,
  make up_to_100 empty_world 1%nat true 40 (Some 5%nat) (Some sample_object) = Done (w, inr ud) /\
  run (skipped ud) (with_boxes sample_state w) = Done s /\ effects (boxes s) = [] /\ size (heap (boxes s)) = 1%nat.
Proof. do 3 eexists. split; [vm_compute; reflexivity|]. split; [vm_compute; reflexivity|]. split; reflexivity. Qed.

End Concrete.
