(* ===== verification/DefaultAlloc.v ===== *)
(** * The allocators of the library ([src/mlib/alloc.cpp])

    [default_reallocate] stands on the C library, whose functions are a parameter ([Libc], with what their documentation says, [LibcOk]);
    it is an [Allocator] that keeps the laws of [Alloc.v].  The terminating allocator grants nothing. *)
From Stdlib Require Import ZArith Lia.
From Stdlib Require Import Strings.Byte.
From stdpp Require Import base numbers list.
From S2P Require Import Prelude.
From S2P Require Import Alloc.
Open Scope Z_scope.
Open Scope outcome_scope.

(** ** The C library *)

Class Libc (C : Type) : Type := {
  realloc : C -> option block -> Z -> C * option block;
  free : C -> option block -> C;
  (** The alignment and the size. *)
  posix_memalign : C -> Z -> Z -> C * option block }.

(** A region has the size that was asked for; [realloc] keeps the contents up to the smaller of the sizes. *)
Class LibcOk (C : Type) `{Libc C} : Prop := {
  realloc_region : forall c p n c' b, 0 < n -> realloc c p n = (c', Some b) -> heap_start <= b_base b /\ zlen (b_bytes b) = n;
  realloc_keeps : forall c m n c' b, 0 < n -> realloc c (Some m) n = (c', Some b) ->
    take (Nat.min (length (b_bytes m)) (Z.to_nat n)) (b_bytes b) = take (Nat.min (length (b_bytes m)) (Z.to_nat n)) (b_bytes m);
  memalign_region : forall c a n c' b, 0 < n -> posix_memalign c a n = (c', Some b) ->
    heap_start <= b_base b /\ zlen (b_bytes b) = n /\ (b_base b) mod a = 0 }.

(** [alignof(std::max_align_t)]. *)
Abbreviation max_alignment := 16.

Section Default.
Context {C : Type} `{Libc C}.

(** Returns the pointer, and what is stored in [*out_new_size], if anything.  [memcpy] reads [ptr]. *)
Definition default_reallocate (c : C) (ptr : option block) (req_size alignment prev_size : Z) : outcome (C * option block * option Z) :=
  if req_size =? 0 then Done (free c ptr, None, Some 0)
  else if alignment <=? max_alignment then
    let '(c, p) := realloc c ptr req_size in
    Done (c, p, if p then Some req_size else None)
  else
    match ptr with
    | Some old =>
      match posix_memalign c alignment req_size with
      | (c, None) => Done (c, None, None)
      | (c, Some new_ptr) =>
        let n := Z.min req_size prev_size in
        let* data := rd_range old (b_base old) n in
        let* new_ptr := wr_range new_ptr (b_base new_ptr) data in
        Done (free c (Some old), Some new_ptr, Some req_size)
      end
    | None =>
      let '(c, p) := posix_memalign c alignment req_size in
      Done (c, p, if p then Some req_size else None)
    end.

(** The terminating allocator. *)
Definition terminating_reallocate (prev_ptr : option block) (req_size : Z) : outcome (option block) :=
  match prev_ptr with
  | None => if req_size =? 0 then Done None else Abort
  | Some _ => Abort
  end.

(** [mlib_default_allocator]: the requests of [mlib_allocate] and the containers have the largest alignment that [realloc]
    gives, or a smaller one. *)
#[export] Instance default_allocator : Allocator C := fun c ptr req_size prev_size =>
  match default_reallocate c ptr req_size max_alignment prev_size with
  | Done (c, p, _) => (c, p)
  | _ => (c, None)
  end.

Lemma default_realloc c p n k : n <> 0 -> reallocate c p n k = realloc c p n.
Proof.
  intros Hn. unfold reallocate, default_allocator, default_reallocate. rewrite (proj2 (Z.eqb_neq n 0) Hn), Z.leb_refl.
  by destruct (realloc c p n).
Qed.

Context `{!LibcOk C}.

#[export] Instance default_ok : AllocatorOk C.
Proof.
  split.
  - intros c p n k c' b Hn. rewrite default_realloc by lia. intros Hr. apply realloc_region in Hr as [Hb Hz]; lia.
  - intros c m n c' b Hn. destruct (decide (n = 0)) as [->|Hne]; [done|]. rewrite default_realloc by done.
    pose proof (zlen_nonneg (b_bytes m)). intros Hr. apply realloc_keeps in Hr; [|lia].
    exists (drop (length (b_bytes m)) (b_bytes b)). replace (Nat.min _ _) with (length (b_bytes m)) in Hr by (unfold zlen in *; lia).
    rewrite firstn_all in Hr. rewrite <- Hr at 1. by rewrite take_drop.
Qed.

#[export] Instance default_keeps : KeepsRequested C.
Proof.
  intros c m n k c' b Hr Hk. destruct (decide (n <= 0)) as [Hn|Hn]; [by replace (Z.to_nat (Z.min k n)) with 0%nat by lia|].
  rewrite default_realloc in Hr by lia. apply realloc_keeps in Hr; [|lia].
  assert (Z.to_nat (Z.min k n) <= Nat.min (length (b_bytes m)) (Z.to_nat n))%nat as Hle by (unfold zlen in *; lia).
  set (y := Nat.min _ _) in *. rewrite <- (Nat.min_l _ _ Hle), <- !take_take, Hr. done.
Qed.

(** Reallocating with any alignment: the new region has the size asked for, the alignment when that is larger than what [realloc]
    gives, the contents up to the smaller of the new size and the previously requested one, and its size is reported; a size of zero frees and gives null;
    on failure nothing is stored in [*out_new_size], and the old region is not touched. *)
Theorem default_reallocate_spec (c : C) ptr req_size alignment prev_size : 0 <= req_size ->
  match ptr with Some m => 0 <= prev_size <= zlen (b_bytes m) | None => True end ->
  exists c' p out, default_reallocate c ptr req_size alignment prev_size = Done (c', p, out) /\
  (req_size = 0 -> p = None /\ out = Some 0 /\ c' = free c ptr) /\
  (req_size <> 0 -> p = None -> out = None) /\
  (req_size <> 0 -> forall b, p = Some b -> out = Some req_size /\ heap_start <= b_base b /\ zlen (b_bytes b) = req_size /\
     (max_alignment < alignment -> b_base b mod alignment = 0) /\
     forall m, ptr = Some m -> take (Z.to_nat (Z.min req_size prev_size)) (b_bytes b) = take (Z.to_nat (Z.min req_size prev_size)) (b_bytes m)).
Proof.
  intros Hr Hp. unfold default_reallocate. destruct (Z.eqb_spec req_size 0) as [->|Hne]; [by do 3 eexists|].
  destruct (Z.leb_spec alignment max_alignment) as [Ha|Ha].
  - destruct (realloc c ptr req_size) as [c' p] eqn:E. do 3 eexists. split; [done|]. split; [done|].
    split; [by intros _ ->|]. intros _ b ->. split; [done|]. pose proof (realloc_region c ptr req_size c' b ltac:(lia) E) as [Hb Hz].
    split_and!; [done|done|lia|]. intros m ->. apply (default_keeps c m req_size prev_size c' b) in Hp as Hk; [|by rewrite default_realloc].
    by rewrite Z.min_comm.
  - destruct ptr as [m|].
    + destruct (posix_memalign c alignment req_size) as [c1 [new|]] eqn:E.
      2: { do 3 eexists. split; [done|]. split; [done|]. split; [done|]. by intros _ b. }
      apply memalign_region in E as (Hb & Hz & Hm); [|lia]. set (n := Z.min req_size prev_size).
      set (data := take (Z.to_nat n) (b_bytes m)).
      assert (zlen data = n) as Hd by (unfold data, n, zlen in *; rewrite length_take; lia).
      assert (rd_range m (b_base m) n = Done data) as ->.
      { rewrite <- Hd. apply rd_range_at. exists [], (drop (Z.to_nat n) (b_bytes m)). unfold data.
        split; [by rewrite app_nil_l, take_drop|]. rewrite zlen_nil. lia. }
      ostep. assert (wr_range new (b_base new) data = Done (mk_block (b_base new) (data ++ drop (length data) (b_bytes new)))) as ->.
      { pose proof (wr_range_at new [] (take (length data) (b_bytes new)) (drop (length data) (b_bytes new)) data) as Hw.
        rewrite zlen_nil, Z.add_0_r in Hw. apply Hw; [by rewrite app_nil_l, take_drop|unfold zlen in *; rewrite length_take; lia]. }
      ostep. do 3 eexists. split; [done|]. split; [done|]. split; [done|]. intros _ b [= <-]. cbn [b_base b_bytes].
      split_and!; [done|done| |done|].
      * rewrite zlen_app, Hd. unfold zlen in *. rewrite length_drop. lia.
      * intros m' [= <-]. rewrite take_app_le by (unfold zlen in *; lia). unfold data. rewrite take_take. f_equal. lia.
    + destruct (posix_memalign c alignment req_size) as [c1 p] eqn:E. do 3 eexists. split; [done|]. split; [done|].
      split; [by intros _ ->|]. intros _ b ->. apply memalign_region in E as (Hb & Hz & Hm); [|lia]. by split_and!.
Qed.

End Default.

(** ** A C library for concrete runs *)

Record bump : Type := mk_bump { brk : Z; freed : Z }.

#[export] Instance bump_libc : Libc bump := {|
  realloc c p n :=
    (mk_bump (brk c + n) (freed c), Some (mk_block (heap_start + Z.max 0 (brk c))
      (let old := match p with Some m => take (Z.to_nat n) (b_bytes m) | None => [] end in old ++ replicate (Z.to_nat n - length old) x00)));
  free c p := mk_bump (brk c) (freed c + match p with Some _ => 1 | None => 0 end);
  posix_memalign c a n :=
    if 0 <? a then
      let p := a * ((heap_start + Z.max 0 (brk c)) / a + 1) in
      (mk_bump (p + n) (freed c), Some (mk_block p (replicate (Z.to_nat n) x00)))
    else (c, None) |}.

#[export] Instance bump_ok : LibcOk bump.
Proof.
  split; cbn [realloc posix_memalign bump_libc].
  - intros c p n c' b Hn [= _ <-]. cbn [b_base b_bytes]. unfold zlen. rewrite length_app, length_replicate.
    destruct p as [m|]; [rewrite length_take|simpl]; lia.
  - intros c m n c' b Hn [= _ <-]. cbn [b_bytes]. rewrite take_app_le by (rewrite length_take; lia). rewrite take_take. f_equal. lia.
  - intros c a n c' b Hn. destruct (Z.ltb_spec 0 a) as [Ha|]; [|done]. intros [= _ <-]. cbn [b_base b_bytes]. unfold zlen. rewrite length_replicate.
    assert (heap_start <= a * ((heap_start + Z.max 0 (brk c)) / a + 1)).
    { pose proof (Z.mul_succ_div_gt (heap_start + Z.max 0 (brk c)) a Ha). unfold Z.succ in *. lia. }
    split_and!; [done|lia|]. rewrite Z.mul_comm. apply Z.mod_mul. lia.
Qed.

(** Witness of [default_reallocate_spec]: three bytes are moved to an over-aligned region of two. *)
Lemma default_reallocate_spec_witness : exists c' p out,
  default_reallocate (mk_bump 0 0) (Some (mk_block 4096 [x01; x02; x03])) 2 64 3 = Done (c', p, out) /\ out = Some 2.
Proof.
  destruct (default_reallocate_spec (mk_bump 0 0) (Some (mk_block 4096 [x01; x02; x03])) 2 64 3) as (c' & p & out & E & _ & _ & Hs); [lia|vm_compute; split; discriminate|].
  exists c', p, out. split; [exact E|]. vm_compute in E. injection E as <- <- <-. destruct (Hs ltac:(discriminate) _ eq_refl) as [Ho _]. exact Ho.
Defined.
