(* ===== verification/Events.v ===== *)
(** * Event emitters ([src/amongoc/event_emitter.hpp])

    Listeners link themselves into the list of an emitter, each with a pointer to the next and one to the place that
    points to it; firing an event walks the list. *)
From Stdlib Require Import ZArith Lia.
From stdpp Require Import base numbers list gmap.
From S2P Require Import Prelude.
Open Scope outcome_scope.

Abbreviation id := positive.

(** What [_previous_nextptr] points to: the head of the emitter, or the member [_next] of a listener. *)
Inductive next_place : Type := owner_head | next_of (p : id).
#[export] Instance next_place_eq_dec : EqDecision next_place.
Proof. solve_decision. Defined.

Record listener_base : Type := mk_listener { _next : option id; _previous_nextptr : next_place }.

Section Events.
Context {T : Type}.

(** An emitter with the listeners that are alive, and the calls of [do_fire]. *)
Record event_emitter : Type := mk_emitter {
  _head : option id;
  listeners : gmap id listener_base;
  calls : list (id * T) }.

Definition deref_listener (m : event_emitter) (p : id) : outcome listener_base :=
  match listeners m !! p with Some l => Done l | None => Undef end.

Definition put_listener (m : event_emitter) (p : id) (l : listener_base) : event_emitter :=
  mk_emitter (_head m) (<[p := l]> (listeners m)) (calls m).

(** [p->_previous_nextptr = q], unless [p] is null. *)
Definition set_previous (m : event_emitter) (p : option id) (q : next_place) : outcome event_emitter :=
  match p with
  | None => Done m
  | Some p => let* l := deref_listener m p in Done (put_listener m p (mk_listener (_next l) q))
  end.

(** [*q = p]. *)
Definition store_next (m : event_emitter) (q : next_place) (p : option id) : outcome event_emitter :=
  match q with
  | owner_head => Done (mk_emitter p (listeners m) (calls m))
  | next_of d => let* l := deref_listener m d in Done (put_listener m d (mk_listener p (_previous_nextptr l)))
  end.

(** The constructor of [listener_base], of an object at [p]. *)
Definition construct_listener (m : event_emitter) (p : id) : outcome event_emitter :=
  let m := put_listener m p (mk_listener (_head m) owner_head) in
  let* m := set_previous m (_head m) (next_of p) in
  Done (mk_emitter (Some p) (listeners m) (calls m)).

Definition listen (m : event_emitter) (p : id) : outcome event_emitter := construct_listener m p.

(** The destructor, and the release of the object. *)
Definition destroy_listener (m : event_emitter) (p : id) : outcome event_emitter :=
  let* l := deref_listener m p in
  let* m := store_next m (_previous_nextptr l) (_next l) in
  let* m := set_previous m (_next l) (_previous_nextptr l) in
  Done (mk_emitter (_head m) (delete p (listeners m)) (calls m)).

(** [do_fire] calls the function of the listener, which may use the emitter. *)
Definition do_fire (func : id -> T -> event_emitter -> outcome event_emitter) (m : event_emitter) (p : id) (object : T) : outcome event_emitter :=
  func p object (mk_emitter (_head m) (listeners m) (calls m ++ [(p, object)])).

Fixpoint fire_loop (func : id -> T -> event_emitter -> outcome event_emitter) (fuel : nat) (m : event_emitter) (p : option id) (object : T)
  : outcome event_emitter :=
  match fuel, p with
  | _, None => Done m
  | O, Some _ => Abort
  | S fuel, Some p =>
    let* m := do_fire func m p object in
    let* l := deref_listener m p in
    fire_loop func fuel m (_next l) object
  end.

(** Nothing is converted when there are no listeners. *)
Definition fire {U} (func : id -> T -> event_emitter -> outcome event_emitter) (convert : U -> T) (fuel : nat) (m : event_emitter) (arg : U)
  : outcome event_emitter :=
  match _head m with
  | None => Done m
  | Some _ => fire_loop func fuel m (_head m) (convert arg)
  end.

(** ** The list *)

(** From the place [q], which holds [p], the listeners [l]. *)
Fixpoint linked (h : gmap id listener_base) (q : next_place) (p : option id) (l : list id) : Prop :=
  match l with
  | [] => p = None
  | d :: l => p = Some d /\ exists n, h !! d = Some n /\ _previous_nextptr n = q /\ linked h (next_of d) (_next n) l
  end.

(** The listeners of the emitter, the most recent first; they are all there is. *)
Record listening (m : event_emitter) (l : list id) : Prop := {
  ls_linked : linked (listeners m) owner_head (_head m) l;
  ls_nodup : NoDup l;
  ls_all : dom (listeners m) = list_to_set l }.

Lemma linked_frame h h' l : forall q p, (forall d, d ∈ l -> h' !! d = h !! d) -> linked h q p l -> linked h' q p l.
Proof.
  induction l as [|d l IH]; intros q p Hh; [done|]. intros (-> & n & Hd & Hp & Hl). split; [done|]. exists n.
  rewrite Hh by (by apply list_elem_of_here). split_and!; [done|done|]. apply IH; [|done]. intros x Hx. apply Hh. by apply list_elem_of_further.
Qed.

Lemma linked_prev h q q' p n l : linked h q (Some p) (p :: l) -> h !! p = Some n -> p ∉ l ->
  linked (<[p := mk_listener (_next n) q']> h) q' (Some p) (p :: l).
Proof.
  intros (_ & n' & Hn' & _ & Hl) Hn Hp. rewrite Hn in Hn'. injection Hn' as <-. split; [done|].
  exists (mk_listener (_next n) q'). rewrite lookup_insert_eq. split_and!; [done|done|]. cbn [_next].
  eapply linked_frame; [|exact Hl]. intros d Hd. apply lookup_insert_ne. by intros ->.
Qed.

(** A listener [p] after another one [e]: what its pointers are, and the list without it when the place is redirected. *)
Lemma linked_skip h p n e l2 : h !! p = Some n -> forall l0 q hd, linked h q hd (l0 ++ e :: p :: l2) -> NoDup (l0 ++ e :: p :: l2) ->
  exists ne, h !! e = Some ne /\ _previous_nextptr n = next_of e /\ linked h (next_of p) (_next n) l2 /\
  forall h' np, h' !! e = Some (mk_listener np (_previous_nextptr ne)) -> (forall d, d ∈ l0 -> h' !! d = h !! d) ->
    linked h' (next_of e) np l2 -> linked h' q hd (l0 ++ e :: l2).
Proof.
  intros Hn. induction l0 as [|d l0 IH]; intros q hd Hl Hnd.
  - destruct Hl as (-> & ne & He & Hq & _ & n' & Hn' & Hp & Hl). rewrite Hn in Hn'. injection Hn' as <-.
    exists ne. split_and!; try done. intros h' np Hh' _ Hl'. split; [done|]. eexists. split; [exact Hh'|]. done.
  - destruct Hl as (-> & nd & Hd & Hq & Hl). apply NoDup_cons in Hnd as [_ Hnd].
    destruct (IH _ _ Hl Hnd) as (ne & He & Hp & Hl2 & Hs). exists ne. split_and!; try done. intros h' np Hh' Ho Hl'. split; [done|].
    exists nd. rewrite Ho by apply list_elem_of_here. split_and!; [done|done|]. apply (Hs h' np); [done| |done].
    intros x Hx. apply Ho. by apply list_elem_of_further.
Qed.

(** What comes after [p] is given another place. *)
Lemma set_previous_rest m p np q l : linked (listeners m) (next_of p) np l -> NoDup l -> exists m',
  set_previous m np q = Done m' /\ _head m' = _head m /\ calls m' = calls m /\ linked (listeners m') q np l /\
  (forall d, d ∉ l -> listeners m' !! d = listeners m !! d) /\ dom (listeners m') = dom (listeners m).
Proof.
  intros Hl Hnd. destruct l as [|d l]; [rewrite Hl; by exists m|]. pose proof Hl as Hl0. destruct Hl as (-> & nd & Hd & _ & _).
  apply NoDup_cons in Hnd as [Hdl _]. unfold set_previous, deref_listener. rewrite Hd. ostep. eexists. split; [done|].
  unfold put_listener. cbn [_head calls listeners]. split_and!; [done|done|by apply (linked_prev _ (next_of p))| |].
  - intros x Hx. apply lookup_insert_ne. intros ->. apply Hx, list_elem_of_here.
  - rewrite dom_insert_L. assert (d ∈ dom (listeners m)) by (apply elem_of_dom; by exists nd). set_solver.
Qed.

(** A new listener is the first of the list. *)
Lemma construct_listening m l p : listening m l -> p ∉ l -> exists m',
  construct_listener m p = Done m' /\ listening m' (p :: l) /\ calls m' = calls m.
Proof.
  intros [Hl Hnd Hall] Hp. unfold construct_listener, put_listener, set_previous, deref_listener. cbn [_head listeners calls].
  assert (forall d, d ∈ l -> <[p := mk_listener (_head m) owner_head]> (listeners m) !! d = listeners m !! d) as Hother.
  { intros d Hd. apply lookup_insert_ne. by intros ->. }
  destruct l as [|d l].
  - simpl in Hl. rewrite Hl. ostep. eexists. split; [done|]. split; [|done]. split; cbn [_head listeners].
    + split; [done|]. eexists. rewrite lookup_insert_eq. by split_and!.
    + apply NoDup_singleton.
    + rewrite dom_insert_L, Hall. done.
  - pose proof Hl as Hl0. destruct Hl as (Hh & n & Hd & Hq & Hl). rewrite Hh in *. rewrite Hother by apply list_elem_of_here. rewrite Hd. ostep.
    assert (p <> d) as Hpd by (intros ->; apply Hp, list_elem_of_here).
    eexists. split; [done|]. split; [|done]. unfold put_listener. split; cbn [_head listeners].
    + split; [done|]. exists (mk_listener (Some d) owner_head). rewrite lookup_insert_ne by done. rewrite lookup_insert_eq. split_and!; [done|done|].
      cbn [_next]. apply NoDup_cons in Hnd as [Hdl _].
      refine (linked_prev _ owner_head (next_of p) d n l (linked_frame _ _ _ _ _ Hother _) _ Hdl); [done|by rewrite lookup_insert_ne].
    + by apply NoDup_cons.
    + rewrite !dom_insert_L, Hall. set_solver.
Qed.

Lemma linked_in h : forall l q p d, linked h q p l -> d ∈ l -> is_Some (h !! d).
Proof.
  induction l as [|e l IH]; intros q p d Hl Hd; [by apply not_elem_of_nil in Hd|]. destruct Hl as (_ & n & Hn & _ & Hl).
  apply elem_of_cons in Hd as [->|Hd]; [by exists n|by eapply IH].
Qed.

(** A listener that is destroyed leaves the list. *)
Lemma destroy_listening m l1 p l2 : listening m (l1 ++ p :: l2) -> exists m',
  destroy_listener m p = Done m' /\ listening m' (l1 ++ l2) /\ calls m' = calls m.
Proof.
  intros [Hl Hnd Hall].
  assert (is_Some (listeners m !! p)) as [n Hn] by (eapply linked_in; [exact Hl|]; apply elem_of_app; right; apply list_elem_of_here).
  assert (NoDup (l1 ++ l2) /\ p ∉ l1 ++ l2) as [Hnd' Hp].
  { rewrite <- Permutation_middle in Hnd. by apply NoDup_cons in Hnd as [? ?]. }
  assert (p ∉ l2 /\ NoDup l2) as [Hp2 Hnd2].
  { split; [intros Hx; apply Hp, elem_of_app; by right|]. by apply NoDup_app in Hnd' as (_ & _ & ?). }
  unfold destroy_listener. unfold deref_listener at 1. rewrite Hn. ostep.
  assert (forall (h : gmap id listener_base), dom h = list_to_set (l1 ++ p :: l2) -> dom (delete p h) = list_to_set (l1 ++ l2)) as Hdom.
  { intros h Hh. rewrite dom_delete_L, Hh, !list_to_set_app_L, list_to_set_cons. apply set_eq. intros x. set_solver. }
  assert (forall (h : gmap id listener_base) q hd l, p ∉ l -> linked h q hd l -> linked (delete p h) q hd l) as Hdel.
  { intros h q hd l Hx. apply linked_frame. intros d Hd. apply lookup_delete_ne. by intros ->. }
  destruct l1 as [|e l0 _] using rev_ind.
  - destruct Hl as (_ & n' & Hn' & Hq & Hl). rewrite Hn in Hn'. injection Hn' as <-. rewrite Hq. unfold store_next. ostep.
    destruct (set_previous_rest (mk_emitter (_next n) (listeners m) (calls m)) p (_next n) owner_head l2 Hl Hnd2) as (m' & -> & Hh & Hc & Hl' & _ & Hd).
    ostep. eexists. split; [done|]. split; [|exact Hc]. split; cbn [_head listeners]; [rewrite Hh; by apply Hdel|done|].
    apply Hdom. by rewrite Hd.
  - rewrite <- !app_assoc in *. cbn [app] in *. destruct (linked_skip _ _ _ _ _ Hn _ _ _ Hl Hnd) as (ne & He & Hq & Hl2 & Hs).
    rewrite Hq. unfold store_next, deref_listener. rewrite He. ostep.
    assert (e ∉ l2) as He2 by (apply NoDup_app in Hnd' as (_ & _ & Hx); by apply NoDup_cons in Hx as [? _]).
    assert (e <> p) as Hep by (intros ->; apply Hp, elem_of_app; right; apply list_elem_of_here).
    set (m1 := put_listener m e (mk_listener (_next n) (_previous_nextptr ne))).
    assert (linked (listeners m1) (next_of p) (_next n) l2) as Hl1.
    { eapply linked_frame; [|exact Hl2]. intros d Hd. apply lookup_insert_ne. by intros ->. }
    destruct (set_previous_rest m1 p (_next n) (next_of e) l2 Hl1 Hnd2) as (m' & -> & Hh & Hc & Hl' & Ho & Hd).
    ostep. eexists. split; [done|]. split; [|exact Hc]. split; cbn [_head listeners]; [|done|].
    + rewrite Hh. apply (Hs _ (_next n)).
      * rewrite lookup_delete_ne by done. rewrite Ho by done. unfold m1, put_listener. cbn [listeners]. apply lookup_insert_eq.
      * intros d Hd0. rewrite lookup_delete_ne by (intros ->; apply Hp, elem_of_app; by left).
        apply NoDup_app in Hnd' as (_ & Hx & _). specialize (Hx d Hd0). rewrite Ho by (intros Hy; apply Hx; by apply list_elem_of_further).
        unfold m1, put_listener. cbn [listeners]. apply lookup_insert_ne. intros ->. apply Hx, list_elem_of_here.
      * by apply Hdel.
    + apply Hdom. rewrite Hd. unfold m1, put_listener. cbn [listeners]. rewrite dom_insert_L, Hall.
      assert (e ∈ (list_to_set (l0 ++ e :: p :: l2) : gset id)); [|set_solver]. apply elem_of_list_to_set, elem_of_app. right. apply list_elem_of_here.
Qed.

(** ** Firing *)

(** A function of a listener that at most makes new listeners, those that [Q] allows. *)
Definition only_listens (Q : id -> Prop) (func : id -> T -> event_emitter -> outcome event_emitter) : Prop := forall p x m l,
  listening m l -> exists m' new, func p x m = Done m' /\ Forall Q new /\ listening m' (new ++ l) /\ calls m' = calls m.

Lemma linked_suffix h d l2 : forall l1 q hd, linked h q hd (l1 ++ d :: l2) ->
  exists n, h !! d = Some n /\ linked h (next_of d) (_next n) l2.
Proof.
  induction l1 as [|e l1 IH]; intros q hd Hl; [destruct Hl as (_ & n & Hn & _ & Hl); by exists n|].
  destruct Hl as (_ & n & _ & _ & Hl). by eapply IH.
Qed.

Lemma linked_head h q hd l : linked h q hd l -> hd = head l.
Proof. destruct l; [done|]. by intros (-> & _). Qed.

Lemma fire_loop_spec Q func x : only_listens Q func -> forall rest pre m fuel, listening m (pre ++ rest) -> (length rest <= fuel)%nat ->
  exists m' new, fire_loop func fuel m (head rest) x = Done m' /\ Forall Q new /\ listening m' (new ++ pre ++ rest) /\
    calls m' = calls m ++ map (fun d => (d, x)) rest.
Proof.
  intros Hf. induction rest as [|d rest IH]; intros pre m fuel Hl Hn.
  - exists m, []. cbn [app map]. rewrite (app_nil_r (calls m)). split; [by destruct fuel|]. by split; [apply Forall_nil_2|].
  - destruct fuel as [|fuel]; [simpl in Hn; lia|]. cbn [head hd_error fire_loop]. unfold do_fire.
    set (m1 := mk_emitter (_head m) (listeners m) (calls m ++ [(d, x)])).
    assert (listening m1 (pre ++ d :: rest)) as Hl1 by (destruct Hl; by split).
    destruct (Hf d x m1 _ Hl1) as (m2 & new & E & HQ & Hl2 & Hc). cbn [fire_loop]. rewrite E. ostep.
    rewrite app_assoc in Hl2. destruct (linked_suffix _ _ _ _ _ _ (ls_linked _ _ Hl2)) as (n & Hd & Hr).
    unfold deref_listener. rewrite Hd. ostep. rewrite (linked_head _ _ _ _ Hr).
    destruct (IH ((new ++ pre) ++ [d]) m2 fuel) as (m' & new' & E' & HQ' & Hl' & Hc'); [by rewrite <- app_assoc|simpl in Hn; lia|].
    exists m', (new' ++ new). split_and!; [exact E'|by apply Forall_app| |].
    + by rewrite <- !app_assoc in *.
    + rewrite Hc', Hc. unfold m1. cbn [calls map]. by rewrite <- app_assoc.
Qed.

Lemma fire_listening {U} Q func (convert : U -> T) m l arg : only_listens Q func -> listening m l -> exists m' new,
  fire func convert (length l) m arg = Done m' /\ Forall Q new /\ listening m' (new ++ l) /\
  calls m' = calls m ++ map (fun d => (d, convert arg)) l.
Proof.
  intros Hf Hl. unfold fire. pose proof (linked_head _ _ _ _ (ls_linked _ _ Hl)) as Hh. destruct (_head m) as [p|] eqn:Ep.
  - rewrite Hh. by apply (fire_loop_spec Q func (convert arg) Hf l [] m).
  - exists m, []. destruct l; [|done]. cbn [app map]. rewrite (app_nil_r (calls m)). split; [done|]. by split; [apply Forall_nil_2|].
Qed.

Lemma filter_others (p : id) (l : list id) : p ∉ l -> filter (fun d => d <> p) l = l.
Proof.
  induction l as [|d l IH]; [done|]. intros Hp. apply not_elem_of_cons in Hp as [Hd Hp]. rewrite filter_cons_True by auto. by rewrite IH.
Qed.

(** What happens to an emitter. *)
Inductive action : Type := a_listen (p : id) | a_destroy (p : id) | a_fire (object : T).

Definition act (func : id -> T -> event_emitter -> outcome event_emitter) (m : event_emitter) (a : action) : outcome event_emitter :=
  match a with
  | a_listen p => listen m p
  | a_destroy p => destroy_listener m p
  | a_fire x => fire func Datatypes.id (size (listeners m)) m x
  end.

Fixpoint act_all (func : id -> T -> event_emitter -> outcome event_emitter) (m : event_emitter) (l : list action) : outcome event_emitter :=
  match l with [] => Done m | a :: l => let* m := act func m a in act_all func m l end.

(** The same on the list of listeners, with the calls: a listener is made where there is none, and destroyed once. *)
Fixpoint promised (l : list id) (actions : list action) : option (list id * list (id * T)) :=
  match actions with
  | [] => Some (l, [])
  | a_listen p :: actions => if decide (p ∈ l) then None else promised (p :: l) actions
  | a_destroy p :: actions => if decide (p ∈ l) then promised (filter (fun d => d <> p) l) actions else None
  | a_fire x :: actions => prod_map Datatypes.id (app (map (fun d => (d, x)) l)) <$> promised l actions
  end.

(** C39. An emitter whose listeners come and go refines a list of listeners: a new one is put in front, a destroyed one leaves it, wherever
    it was, and an event is given once to each of those that are there, the most recent first; no pointer to a destroyed
    listener is left. *)
Theorem events_refine m l actions l' cs : listening m l -> promised l actions = Some (l', cs) -> exists m',
  act_all (fun _ _ m => Done m) m actions = Done m' /\ listening m' l' /\ calls m' = calls m ++ cs.
Proof.
  revert m l cs. induction actions as [|[p|p|x] actions IH]; intros m l cs Hl; cbn [promised act_all act].
  - intros [= <- <-]. exists m. by rewrite app_nil_r.
  - case_decide as Hp; [done|]. intros Hs. destruct (construct_listening m l p Hl Hp) as (m1 & E & Hl1 & Hc). unfold listen. rewrite E. ostep.
    destruct (IH m1 _ _ Hl1 Hs) as (m' & Ea & Hl' & Hc'). exists m'. rewrite Hc', Hc. done.
  - case_decide as Hp; [|done]. intros Hs. apply list_elem_of_split in Hp as (l1 & l2 & ->).
    destruct (destroy_listening m l1 p l2 Hl) as (m1 & E & Hl1 & Hc). rewrite E. ostep.
    assert (filter (fun d => d <> p) (l1 ++ p :: l2) = l1 ++ l2) as Ef.
    { pose proof (ls_nodup _ _ Hl) as Hnd. rewrite <- Permutation_middle in Hnd. apply NoDup_cons in Hnd as [Hp _].
      rewrite filter_app, filter_cons_False by auto. rewrite <- filter_app. by apply filter_others. }
    rewrite Ef in Hs. destruct (IH m1 _ _ Hl1 Hs) as (m' & Ea & Hl' & Hc'). exists m'. rewrite Hc', Hc. done.
  - intros Hs. destruct (promised l actions) as [[l1 cs1]|] eqn:Ep; [|done]. injection Hs as <- <-.
    assert (size (listeners m) = length l) as Hsz.
    { rewrite <- size_dom, (ls_all _ _ Hl), size_list_to_set by exact (ls_nodup _ _ Hl). done. }
    rewrite Hsz. destruct (fire_listening (fun _ => False) (fun _ _ m => Done m) Datatypes.id m l x) as (m1 & new & E & HQ & Hl1 & Hc); [|done|].
    { intros p y m1 k Hk. by exists m1, []. }
    rewrite E. ostep. destruct new as [|d new]; [|by apply Forall_cons in HQ as [[] _]]. cbn [app] in Hl1.
    destruct (IH m1 _ _ Hl1 Ep) as (m' & Ea & Hl' & Hc'). exists m'. rewrite Hc', Hc, <- app_assoc. done.
Qed.

End Events.

(** ** A concrete emitter *)

Definition nobody {T} : event_emitter (T := T) := mk_emitter None empty [].

Lemma nobody_listening {T} : listening (T := T) nobody [].
Proof. split; [done|constructor|done]. Qed.

Definition sample_actions : list (action (T := nat)) :=
  [a_listen 1%positive; a_listen 2%positive; a_fire 7%nat; a_listen 3%positive; a_destroy 2%positive; a_fire 8%nat; a_destroy 1%positive].

Definition sample_calls : list (id * nat) := [(2%positive, 7); (1%positive, 7); (3%positive, 8); (1%positive, 8)]%nat.

Lemma events_refine_witness : exists m', listening (T := nat) nobody [] /\
  act_all (fun _ _ m => Done m) nobody sample_actions = Done m' /\ listening m' [3%positive] /\ calls m' = sample_calls.
Proof.
  destruct (events_refine (T := nat) nobody [] sample_actions [3%positive] sample_calls nobody_listening) as (m' & E & Hl & Hc);
    [by vm_compute|].
  exists m'. split_and!; [exact nobody_listening|exact E|exact Hl|exact Hc].
Defined.

(** A listener that is destroyed in its own function: [fire] goes on from the destroyed object. *)
Example own_destruction_undefined :
  (let* m := listen (T := nat) nobody 1 in fire (fun p _ m => destroy_listener m p) Datatypes.id 1 m 7%nat) = Undef.
Proof. by vm_compute. Qed.
