(* ===== verification/Coroutine.v ===== *)
(** * Coroutines ([src/amongoc/coroutine.hpp], [coroutine.cpp])

    The frames of coroutines, their promises, and how control passes between them: [co_task], what awaits it and what finishes
    it, the awaiter of senders, the coroutines of emitters, and the allocation of frames.

    A body is what a coroutine does between its suspensions.  The compiler's part, to keep the suspended rest of a body in the
    frame and to destroy the temporaries of an awaiting expression at its end, is that of the C++ standard.  One thing runs at a
    time: what completes an operation is the event loop, when no coroutine runs. *)
From Stdlib Require Import ZArith Lia.
From stdpp Require Import base numbers list gmap.
From S2P Require Import Prelude.
Open Scope Z_scope.
Open Scope outcome_scope.

Abbreviation id := positive.
Abbreviation allocator := nat.
Abbreviation receiver := nat.
Abbreviation handler := nat.

(** [sizeof(alloc_state)]: the allocator, and the tail aligned to 16. *)
Abbreviation sizeof_alloc_state := 32.

Section Coroutine.
(** The values that coroutines return and operations send, the exceptions, the senders, and the results of emitters. *)
Context {V E S R : Type} (bad_alloc bad_variant_access : E).
Context (is_immediate : S -> bool) (immediate_value : S -> V).
Context (return_value : V -> R) (unhandled_exception : E -> outcome R) (no_result : R).

(** What a coroutine awaits is a new task (of an allocator and a size) or a sender; an exception of the task can be caught. *)
Inductive body : Type :=
| co_return (v : V)
| co_throw (e : E)
| co_ramp_end (b : body)
| co_await_sender (s : S) (k : V -> body)
| co_await_task (a : allocator) (size : Z) (t : body) (k : V + E -> body).

(** The token that a coroutine gives to what it awaits: none, the one of a receiver, or the one of the source that forwards the
    stop of the handler of the emitter at [p]. *)
Inductive token : Type := null_token | receiver_token (r : receiver) | source_token (p : id).

(** [finisher_base]: [handoff_finisher_with_stop_token], and the operation of a task. *)
Inductive finisher : Type := handoff (co : id) (tk : token) | operation (r : receiver).

Inductive promise : Type :=
| task_promise (_result : option (V + E)) (_finisher : option finisher)
| emitter_promise (fin_handler : option handler) (fin_result : R).

(** Where a coroutine is suspended. *)
Inductive point : Type :=
| running
| at_start (b : body)
| at_ramp_end (b : body)
| at_sender (n : nat) (_sent_value : option V) (k : V -> body)
| at_task (child : id) (k : V + E -> body)
| at_end.

Record frame : Type := mk_frame { f_alloc : allocator; f_size : Z; f_point : point; f_promise : promise }.

(** The coroutine that runs, with the rest of its body; the operations that are alive, with the coroutine that each one resumes; the
    senders that were started; what receivers and handlers were given, and the handlers that were deleted; the bytes of frames. *)
Record machine : Type := mk_machine {
  frames : gmap id frame;
  operations : gmap nat id;
  ctl : option (id * body);
  started : list S;
  received : list (receiver * (V + E));
  handled : list (handler * R);
  deleted : list handler;
  in_use : Z }.

Definition with_frames (m : machine) (fr : gmap id frame) : machine :=
  mk_machine fr (operations m) (ctl m) (started m) (received m) (handled m) (deleted m) (in_use m).
Definition with_operations (m : machine) (ops : gmap nat id) : machine :=
  mk_machine (frames m) ops (ctl m) (started m) (received m) (handled m) (deleted m) (in_use m).
Definition with_ctl (m : machine) (c : option (id * body)) : machine :=
  mk_machine (frames m) (operations m) c (started m) (received m) (handled m) (deleted m) (in_use m).

Definition deref (m : machine) (p : id) : outcome frame := match frames m !! p with Some f => Done f | None => Undef end.

Definition set_point (m : machine) (p : id) (f : frame) (pt : point) : machine :=
  with_frames m (<[p := mk_frame (f_alloc f) (f_size f) pt (f_promise f)]> (frames m)).

Definition set_promise (m : machine) (p : id) (f : frame) (pr : promise) : machine :=
  with_frames m (<[p := mk_frame (f_alloc f) (f_size f) (f_point f) pr]> (frames m)).

(** ** Frames *)

Context (grants : allocator -> Z -> bool).

(** [operator new] of the promise, and the promise. *)
Definition new_frame (m : machine) (a : allocator) (size : Z) (pt : point) (pr : promise) : machine * option id :=
  if grants a (size + sizeof_alloc_state) then
    let p := fresh (dom (frames m)) in
    (mk_machine (<[p := mk_frame a size pt pr]> (frames m)) (operations m) (ctl m) (started m) (received m) (handled m) (deleted m)
       (in_use m + (size + sizeof_alloc_state)), Some p)
  else (m, None).

(** The promise is destroyed, with its handler, and its memory released. *)
Definition delete_frame (m : machine) (p : id) (f : frame) : machine :=
  mk_machine (delete p (frames m)) (operations m) (ctl m) (started m) (received m) (handled m)
    (deleted m ++ match f_promise f with emitter_promise (Some h) _ => [h] | _ => [] end)
    (in_use m - (f_size f + sizeof_alloc_state)).

(** [_co.destroy()]: what lives in the frame is destroyed first, an awaited task too. *)
Fixpoint destroy (fuel : nat) (m : machine) (p : id) : outcome machine :=
  match fuel with
  | O => Abort
  | Datatypes.S fuel =>
    let* f := deref m p in
    let* m := match f_point f with
              | running => Undef
              | at_sender n _ _ => Done (with_operations m (delete n (operations m)))
              | at_task c _ => destroy fuel m c
              | at_start _ | at_ramp_end _ | at_end => Done m
              end in
    Done (delete_frame m p f)
  end.

(** [unique_co_handle::reset]. *)
Definition reset (m : machine) (p : id) : outcome machine := destroy (size (frames m)) m p.

(** ** Suspension and resumption *)

Definition run (m : machine) (p : id) (f : frame) (b : body) : machine := with_ctl (set_point m p f running) (Some (p, b)).

(** [awaiter::await_resume] of a task: [std::get] throws when there is no result. *)
Definition await_resume (m : machine) (c : id) : outcome (V + E) :=
  let* f := deref m c in
  match f_promise f with
  | task_promise (Some r) _ => Done r
  | task_promise None _ => Done (inr bad_variant_access)
  | emitter_promise _ _ => Undef
  end.

(** [_co.resume()]: the awaiting expression gives its value and its temporaries are destroyed. *)
Definition resume (m : machine) (p : id) : outcome machine :=
  let* f := deref m p in
  match f_point f with
  | at_start b | at_ramp_end b => Done (run m p f b)
  | at_sender n (Some v) k => Done (run (with_operations m (delete n (operations m))) p f (k v))
  | at_sender _ None _ => Undef
  | at_task c k =>
    let* r := await_resume m c in
    let* m := reset m c in
    Done (run m p f (k r))
  | at_end | running => Undef
  end.

(** ** Promises *)

(** [promise_type::return_value] and [unhandled_exception]. *)
Definition store_result (pr : promise) (r : V + E) : outcome promise :=
  match pr with
  | task_promise _ fin => Done (task_promise (Some r) fin)
  | emitter_promise h _ =>
    let* res := match r with inl v => Done (return_value v) | inr e => unhandled_exception e end in
    Done (emitter_promise h res)
  end.

(** [handler_completer_awaiter::await_suspend]: a coroutine that is over before it has a handler waits for it. *)
Definition handler_completer (m : machine) (h : option handler) (res : R) : machine :=
  match h with
  | Some h => mk_machine (frames m) (operations m) None (started m) (received m) (handled m ++ [(h, res)]) (deleted m) (in_use m)
  | None => with_ctl m None
  end.

(** [on_final_suspend] of the two finishers. *)
Definition on_final_suspend (m : machine) (fin : finisher) (r : option (V + E)) : outcome machine :=
  match fin, r with
  | handoff co _, _ => resume m co
  | operation recv, Some r => Done (mk_machine (frames m) (operations m) None (started m) (received m ++ [(recv, r)]) (handled m) (deleted m) (in_use m))
  | operation _, None => Abort
  end.

(** [final_suspend], of a coroutine that is suspended. *)
Definition final_suspend (m : machine) (pr : promise) : outcome machine :=
  match pr with
  | emitter_promise h res => Done (handler_completer m h res)
  | task_promise r fin => match fin with Some fin => on_final_suspend m fin r | None => Abort end
  end.

(** The body is over. *)
Definition finish (m : machine) (p : id) (r : V + E) : outcome machine :=
  let* f := deref m p in
  let* pr := store_result (f_promise f) r in
  let m := with_ctl (with_frames m (<[p := mk_frame (f_alloc f) (f_size f) at_end pr]> (frames m))) None in
  final_suspend m pr.

(** ** Awaiting *)

(** The boxes that awaiters make; when there is no memory for one it is destroyed through a null pointer. *)
Inductive awaiter_box : Type := handoff_box (tk : token) | operation_box (s : S).
Context (boxed : allocator -> awaiter_box -> bool).

(** The token of the finisher for a child of [pr], the promise at [p]: [handoff_finisher_with_stop_token] registers itself with the
    handler of an emitter, or takes the token of a task. *)
Definition child_token (p : id) (pr : promise) : outcome token :=
  match pr with
  | emitter_promise (Some _) _ => Done (source_token p)
  | emitter_promise None _ => Undef
  | task_promise _ (Some (handoff _ tk)) => Done tk
  | task_promise _ (Some (operation r)) => Done (receiver_token r)
  | task_promise _ None => Abort
  end.

(** [co_await] of the call of a task: [awaiter::await_suspend], which launches it. *)
Definition await_task (m : machine) (p : id) (a : allocator) (size : Z) (t : body) (k : V + E -> body) : outcome machine :=
  let* f := deref m p in
  match new_frame m a size (at_start t) (task_promise None None) with
  | (m, None) => Done (run m p f (k (inr bad_alloc)))
  | (m, Some c) =>
    let* tk := child_token p (f_promise f) in
    if boxed (f_alloc f) (handoff_box tk) then
      let* fc := deref m c in
      let m := set_promise m c fc (task_promise None (Some (handoff p tk))) in
      let m := set_point m p f (at_task c k) in
      resume m c
    else Undef
  end.

(** [nanosender_awaiter]: an immediate sender is run in [await_resume]; for another one [await_suspend] makes the operation and
    starts it. *)
Definition await_sender (m : machine) (p : id) (s : S) (k : V -> body) : outcome machine :=
  let* f := deref m p in
  if is_immediate s then Done (run m p f (k (immediate_value s)))
  else if boxed (f_alloc f) (operation_box s) then
    let n := length (started m) in
    Done (mk_machine (<[p := mk_frame (f_alloc f) (f_size f) (at_sender n None k) (f_promise f)]> (frames m)) (<[n := p]> (operations m)) None
            (started m ++ [s]) (received m) (handled m) (deleted m) (in_use m))
  else Undef.

(** [receiver::operator()]: an operation completes. *)
Definition complete (m : machine) (n : nat) (v : V) : outcome machine :=
  match operations m !! n with
  | None => Undef
  | Some p =>
    let* f := deref m p in
    match f_point f with
    | at_sender n' _ k => if Nat.eqb n n' then resume (set_point m p f (at_sender n (Some v) k)) p else Undef
    | _ => Undef
    end
  end.

(** A step of the coroutine that runs. *)
Definition step (m : machine) (p : id) (b : body) : outcome machine :=
  match b with
  | co_return v => finish m p (inl v)
  | co_throw e => finish m p (inr e)
  | co_ramp_end b => let* f := deref m p in Done (with_ctl (set_point m p f (at_ramp_end b)) None)
  | co_await_sender s k => await_sender m p s k
  | co_await_task a size t k => await_task m p a size t k
  end.

(** ** Tasks as operations, coroutines of emitters *)

(** A task is called: it is suspended at its start, or the call throws [bad_alloc]. *)
Definition call_task (m : machine) (a : allocator) (size : Z) (b : body) : machine * (id + E) :=
  match new_frame m a size (at_start b) (task_promise None None) with
  | (m, Some p) => (m, inl p)
  | (m, None) => (m, inr bad_alloc)
  end.

(** [as_sender().connect(r)], [operation::start]. *)
Definition connect_task (m : machine) (p : id) (r : receiver) : outcome machine :=
  let* f := deref m p in
  match f_promise f with
  | task_promise res _ => Done (set_promise m p f (task_promise res (Some (operation r))))
  | emitter_promise _ _ => Undef
  end.
Definition start_task (m : machine) (p : id) : outcome machine := resume m p.

(** An emitter's coroutine is called, and runs at once; without a frame the result is [amongoc_alloc_failure()]. *)
Definition call_emitter (m : machine) (a : allocator) (size : Z) (b : body) : machine * option id :=
  match new_frame m a size running (emitter_promise None no_result) with
  | (m, Some p) => (with_ctl m (Some (p, b)), Some p)
  | (m, None) => (m, None)
  end.

(** [co_emitter_starter]. *)
Definition co_emitter_starter (m : machine) (p : id) (h : handler) : outcome machine :=
  let* f := deref m p in
  match f_promise f with
  | emitter_promise _ res =>
    match f_point f with
    | at_end => Done (mk_machine (frames m) (operations m) (ctl m) (started m) (received m) (handled m ++ [(h, res)]) (deleted m) (in_use m))
    | _ => resume (set_promise m p f (emitter_promise (Some h) res)) p
    end
  | task_promise _ _ => Undef
  end.

(** ** Running *)

(** The operation that was started last, if it is alive. *)
Definition newest (m : machine) : option nat :=
  let n := Nat.pred (length (started m)) in
  match operations m !! n with Some _ => Some n | None => None end.

(** What happens next: the coroutine runs, or the newest operation sends the next of [vs]. *)
Definition event (m : machine) (vs : list V) : option (outcome (machine * list V)) :=
  match ctl m with
  | Some (p, b) => Some (let* m := step m p b in Done (m, vs))
  | None =>
    match newest m, vs with
    | Some n, v :: vs => Some (let* m := complete m n v in Done (m, vs))
    | _, _ => None
    end
  end.

Fixpoint drive (fuel : nat) (m : machine) (vs : list V) : outcome (machine * list V) :=
  match event m vs with
  | None => Done (m, vs)
  | Some next => match fuel with O => Abort | Datatypes.S fuel => let* (m, vs) := next in drive fuel m vs end
  end.

End Coroutine.
