(* ===== verification/CoroutineSpec.v ===== *)
(** * What coroutines do

    The machine of [Coroutine.v] does for a coroutine what a direct evaluation of its body does, in which to await a task is to call it;
    a coroutine that is suspended, however deep, can be destroyed, and then nothing of it is left. *)
From Stdlib Require Import ZArith Lia.
From stdpp Require Import base numbers list gmap.
From S2P Require Import Prelude.
From S2P Require Import Coroutine.
Open Scope Z_scope.
Open Scope outcome_scope.

Section Spec.
Context {V E S R : Type} (bad_alloc bad_variant_access : E).
Context (is_immediate : S -> bool) (immediate_value : S -> V).
Context (return_value : V -> R) (unhandled_exception : E -> outcome R) (no_result : R).
Context (grants : allocator -> Z -> bool) (boxed : allocator -> awaiter_box (S := S) -> bool).

Abbreviation body := (body (V := V) (E := E) (S := S)).
Abbreviation machine := (machine (V := V) (E := E) (S := S) (R := R)).
Abbreviation promise := (promise (V := V) (E := E) (R := R)).
Abbreviation frame := (frame (V := V) (E := E) (S := S) (R := R)).
Abbreviation destroy := (destroy (V := V) (E := E) (S := S) (R := R)).
Abbreviation step := (step bad_alloc bad_variant_access is_immediate immediate_value return_value unhandled_exception grants boxed).
Abbreviation event := (event bad_alloc bad_variant_access is_immediate immediate_value return_value unhandled_exception grants boxed).
Abbreviation drive := (drive bad_alloc bad_variant_access is_immediate immediate_value return_value unhandled_exception grants boxed).
Abbreviation await_task := (await_task bad_alloc bad_variant_access (R := R) (V := V) grants boxed).
Abbreviation finish := (finish (S := S) bad_variant_access return_value unhandled_exception).

(** ** Direct evaluation *)

(** A body ends with a value or an exception, having been sent the values before [rest], or waits. *)
Inductive progress : Type := finished (r : V + E) (rest : list V) | waiting.

(** The senders that are started, and how far the body gets when they send the values [vs]. *)
Fixpoint direct (b : body) (vs : list V) : list S * progress :=
  match b with
  | co_return v => ([], finished (inl v) vs)
  | co_throw e => ([], finished (inr e) vs)
  | co_ramp_end _ => ([], waiting)
  | co_await_sender s k =>
    if is_immediate s then direct (k (immediate_value s)) vs
    else match vs with
         | [] => ([s], waiting)
         | v :: vs => let '(l, p) := direct (k v) vs in (s :: l, p)
         end
  | co_await_task a size t k =>
    if grants a (size + sizeof_alloc_state) then
      match direct t vs with
      | (l, waiting) => (l, waiting)
      | (l, finished r vs) => let '(l', p) := direct (k r) vs in (l ++ l', p)
      end
    else direct (k (inr bad_alloc)) vs
  end.

(** ** Runs *)

Inductive reaches : machine -> list V -> machine -> list V -> Prop :=
| reaches_refl m vs : reaches m vs m vs
| reaches_step m vs m1 vs1 m' vs' : event m vs = Some (Done (m1, vs1)) -> reaches m1 vs1 m' vs' -> reaches m vs m' vs'.

Lemma reaches_trans m vs m1 vs1 m' vs' : reaches m vs m1 vs1 -> reaches m1 vs1 m' vs' -> reaches m vs m' vs'.
Proof. induction 1; [done|]. intros. eapply reaches_step; eauto. Qed.

Lemma reaches_running m p b m1 vs m' vs' : ctl m = Some (p, b) -> step m p b = Done m1 -> reaches m1 vs m' vs' -> reaches m vs m' vs'.
Proof. intros Hc Hs. apply reaches_step. unfold event, Coroutine.event. rewrite Hc, Hs. done. Qed.

Lemma reaches_drive m vs m' vs' : reaches m vs m' vs' -> event m' vs' = None -> exists fuel, drive fuel m vs = Done (m', vs').
Proof.
  induction 1 as [m vs|m vs m1 vs1 m' vs' He _ IH]; intros Hd.
  - exists O. cbn [Coroutine.drive]. by rewrite Hd.
  - destruct (IH Hd) as [fuel Hf]. exists (Datatypes.S fuel). cbn [Coroutine.drive]. rewrite He. ostep. exact Hf.
Qed.

(** ** A task that is awaited *)

(** The frames [fr], with a task at [c] that the coroutine at [p] awaits. *)
Definition awaiting (fr : gmap id frame) (p : id) (f : frame) (k : V + E -> body) (c : id) (fc : frame) : gmap id frame :=
  <[c := fc]> (<[p := mk_frame (f_alloc f) (f_size f) (at_task c k) (f_promise f)]> fr).

Definition child_frame (p : id) (tk : token) (a : allocator) (size : Z) (pt : point) : frame :=
  mk_frame a size pt (task_promise None (Some (handoff p tk))).

Definition put_frames (m : machine) (fr : gmap id frame) (c : option (id * body)) (bytes : Z) : machine :=
  mk_machine fr (operations m) c (started m) (received m) (handled m) (deleted m) bytes.

Lemma put_self (m : machine) c : put_frames m (frames m) c (in_use m) = with_ctl m c.
Proof. done. Qed.

Lemma await_task_granted m p f tk a size t k : frames m !! p = Some f -> child_token p (f_promise f) = Done tk ->
  grants a (size + sizeof_alloc_state) = true -> boxed (f_alloc f) (handoff_box tk) = true -> exists c, frames m !! c = None /\
  await_task m p a size t k = Done (put_frames m (awaiting (frames m) p f k c (child_frame p tk a size running)) (Some (c, t))
                                      (in_use m + (size + sizeof_alloc_state))).
Proof.
  intros Hp Htk Hg Hb. exists (fresh (dom (frames m))).
  assert (frames m !! fresh (dom (frames m)) = None) as Hc by apply not_elem_of_dom, is_fresh.
  set (c := fresh (dom (frames m))) in *. assert (c <> p) as Hcp by congruence. split; [done|].
  unfold Coroutine.await_task, new_frame, deref. rewrite Hp. ostep. rewrite Hg, Htk. ostep. rewrite Hb.
  fold c. cbn [frames]. rewrite lookup_insert_eq. ostep. unfold set_promise, set_point, resume, deref, with_frames.
  cbn [frames operations ctl started received handled deleted in_use f_alloc f_size f_point f_promise].
  rewrite lookup_insert_ne by congruence. rewrite lookup_insert_eq. ostep. unfold run, with_ctl, set_point, with_frames, put_frames, awaiting, child_frame.
  cbn [frames operations ctl started received handled deleted in_use f_alloc f_size f_point f_promise]. do 2 f_equal.
  rewrite !insert_insert_eq, (insert_insert_ne _ p c), insert_insert_eq by congruence. done.
Qed.

Lemma awaiting_child fr p f k c fc : awaiting fr p f k c fc !! c = Some fc.
Proof. apply lookup_insert_eq. Qed.

Lemma awaiting_parent fr p f k c fc : c <> p -> awaiting fr p f k c fc !! p = Some (mk_frame (f_alloc f) (f_size f) (at_task c k) (f_promise f)).
Proof. intros H. unfold awaiting. rewrite lookup_insert_ne by done. apply lookup_insert_eq. Qed.

Lemma awaiting_deleted fr p f k c fc : fr !! c = None -> c <> p ->
  delete c (awaiting fr p f k c fc) = <[p := mk_frame (f_alloc f) (f_size f) (at_task c k) (f_promise f)]> fr.
Proof. intros Hc Hcp. unfold awaiting. apply delete_insert_id. by rewrite lookup_insert_ne by congruence. Qed.

Lemma frame_eta (f : frame) pt : f_point f = pt -> mk_frame (f_alloc f) (f_size f) pt (f_promise f) = f.
Proof. destruct f. by intros <-. Qed.

(** A task that is over resumes what awaits it, which destroys it. *)
Lemma child_finishes (m : machine) fr p f k c tk a size ct r bytes : fr !! p = Some f -> f_point f = running -> fr !! c = None ->
  finish (put_frames m (awaiting fr p f k c (child_frame p tk a size running)) ct bytes) c r =
    Done (put_frames m fr (Some (p, k r)) (bytes - (size + sizeof_alloc_state))).
Proof.
  intros Hp Hr Hc. assert (c <> p) as Hcp by congruence.
  unfold Coroutine.finish, deref, put_frames, with_ctl, with_frames. cbn [frames]. rewrite awaiting_child. ostep.
  cbn [store_result child_frame f_promise f_alloc f_size obind final_suspend on_final_suspend frames operations ctl started received handled deleted in_use].
  assert (<[c := mk_frame a size at_end (task_promise (R := R) (Some r) (Some (handoff p tk)))]> (awaiting fr p f k c (child_frame p tk a size running))
    = awaiting fr p f k c (mk_frame a size at_end (task_promise (Some r) (Some (handoff p tk))))) as -> by apply insert_insert_eq.
  unfold resume, deref. cbn [frames]. rewrite awaiting_parent by done. ostep. cbn [f_point]. unfold await_resume, deref. cbn [frames].
  rewrite awaiting_child. ostep. cbn [f_promise]. ostep. unfold reset. cbn [frames].
  destruct (base.size (awaiting fr p f k c (mk_frame a size at_end (task_promise (Some r) (Some (handoff p tk)))))) as [|fuel] eqn:Es.
  { apply map_size_empty_inv in Es. pose proof (awaiting_child fr p f k c (mk_frame a size at_end (task_promise (Some r) (Some (handoff p tk))))) as Hx.
    rewrite Es in Hx. by rewrite lookup_empty in Hx. }
  cbn [Coroutine.destroy]. unfold deref. cbn [frames]. rewrite awaiting_child. ostep. cbn [f_point]. ostep.
  unfold delete_frame, run, with_ctl, set_point, with_frames. cbn [frames operations ctl started received handled deleted in_use f_promise f_size f_alloc].
  rewrite awaiting_deleted, insert_insert_eq, app_nil_r by done. rewrite frame_eta by done. by rewrite insert_id.
Qed.

(** ** A body *)

Definition leaf (r : V + E) : body := match r with inl v => co_return v | inr e => co_throw e end.

Lemma step_leaf m p r : step m p (leaf r) = finish m p r.
Proof. by destruct r. Qed.

(** The operations that are alive were started. *)
Definition started_all (m : machine) : Prop := forall n, is_Some (operations m !! n) -> (n < length (started m))%nat.

(** The coroutine at [p] waits, after the senders [l]: what it awaits has the token [tk], the other frames [fr] are as before, and to
    destroy it leaves these. *)
Record suspended (m : machine) (p : id) (f : frame) (tk : token) (l : list S) (m' : machine) : Prop := {
  su_idle : ctl m' = None;
  su_promise : exists pt, pt <> running /\ frames m' !! p = Some (mk_frame (f_alloc f) (f_size f) pt (f_promise f));
  su_started : started m' = started m ++ l;
  su_received : received m' = received m;
  su_handled : handled m' = handled m;
  su_deleted : deleted m' = deleted m;
  su_others : forall q, q <> p -> is_Some (frames m !! q) -> frames m' !! q = frames m !! q;
  su_tokens : forall q fq, frames m !! q = None -> frames m' !! q = Some fq ->
    exists co, f_promise fq = task_promise None (Some (handoff co tk));
  su_destroy : exists d, (d + size (frames m) <= Datatypes.S (size (frames m')))%nat /\ forall fuel, (d <= fuel)%nat ->
    destroy fuel m' p = Done (delete_frame (mk_machine (frames m) (operations m) None (started m ++ l) (received m) (handled m) (deleted m) (in_use m)) p f) }.

Definition plenty : Prop := forall a x, boxed a x = true.

(** What a run of a body leads to. *)
Definition ends (m : machine) (p : id) (f : frame) (tk : token) (b : body) (vs : list V) : Prop :=
  match direct b vs with
  | (l, finished r rest) =>
    reaches (with_ctl m (Some (p, b))) vs
      (mk_machine (frames m) (operations m) (Some (p, leaf r)) (started m ++ l) (received m) (handled m) (deleted m) (in_use m)) rest
  | (l, waiting) => exists m' vs', reaches (with_ctl m (Some (p, b))) vs m' vs' /\ suspended m p f tk l m' /\
      (vs' = [] \/ operations m' = operations m)
  end.

(** [m] when the senders [l] have been started. *)
Definition after (m : machine) (l : list S) : machine :=
  mk_machine (frames m) (operations m) (ctl m) (started m ++ l) (received m) (handled m) (deleted m) (in_use m).

Lemma started_after m l : started_all m -> started_all (after m l).
Proof. intros H n Hn. specialize (H n Hn). unfold after. cbn [started]. rewrite length_app. lia. Qed.

Lemma suspended_after m p f tk l l' m' : suspended (after m l) p f tk l' m' -> suspended m p f tk (l ++ l') m'.
Proof. intros []. split; try done; unfold after in *; cbn [started operations frames received handled deleted in_use] in *; by rewrite app_assoc. Qed.

(** A body that goes on as [b'], when the senders [l] have been started and the values before [vs'] sent. *)
Lemma ends_after m p f tk b vs l b' vs' :
  reaches (with_ctl m (Some (p, b))) vs (with_ctl (after m l) (Some (p, b'))) vs' ->
  direct b vs = (let '(l', r) := direct b' vs' in (l ++ l', r)) -> ends (after m l) p f tk b' vs' -> ends m p f tk b vs.
Proof.
  unfold ends. intros Hr -> He. destruct (direct b' vs') as [l' [r rest|]].
  - eapply reaches_trans; [exact Hr|]. unfold after in *. cbn [started operations frames received handled deleted in_use] in *.
    by rewrite app_assoc.
  - destruct He as (m' & vs1 & He & Hs & Hd). exists m', vs1. split_and!; [by eapply reaches_trans|by apply suspended_after|exact Hd].
Qed.

Lemma after_nil m : after m [] = m.
Proof. unfold after. rewrite app_nil_r. by destruct m. Qed.

Lemma run_ctl (m : machine) p f b : frames m !! p = Some f -> f_point f = running -> run m p f b = with_ctl m (Some (p, b)).
Proof. intros Hp Hr. unfold run, set_point. rewrite frame_eta, insert_id by done. by destruct m. Qed.

(** A point of [p] itself: to destroy it there deletes the frame. *)
Lemma suspended_here m p f tk l m' pt ops : frames m !! p = Some f -> pt <> running ->
  m' = mk_machine (<[p := mk_frame (f_alloc f) (f_size f) pt (f_promise f)]> (frames m)) ops None (started m ++ l) (received m) (handled m) (deleted m) (in_use m) ->
  match pt with at_sender n _ _ => delete n ops = operations m | at_task _ _ => False | _ => ops = operations m end ->
  suspended m p f tk l m'.
Proof.
  intros Hp Hpt -> Hops. split; try done; cbn [frames].
  - exists pt. split; [done|]. apply lookup_insert_eq.
  - intros q Hq _. by rewrite lookup_insert_ne.
  - intros q fq Hq. destruct (decide (q = p)) as [->|Hn]; [congruence|]. rewrite lookup_insert_ne by done. congruence.
  - exists 1%nat. split.
    { rewrite map_size_insert_Some by done. lia. }
    intros [|fuel] Hf; [lia|]. cbn [Coroutine.destroy]. unfold deref. cbn [frames]. rewrite lookup_insert_eq. ostep. cbn [f_point].
    unfold delete_frame, with_operations.
    destruct pt; try done; ostep; cbn [frames operations ctl started received handled deleted in_use f_promise f_size];
      rewrite ?Hops, delete_insert_eq; done.
Qed.

Context (Hplenty : plenty).

Lemma immediate_ends m p f tk s k vs : frames m !! p = Some f -> f_point f = running -> is_immediate s = true ->
  ends m p f tk (k (immediate_value s)) vs -> ends m p f tk (co_await_sender s k) vs.
Proof.
  intros Hp Hr Hi He. apply (ends_after _ _ _ _ _ _ [] (k (immediate_value s)) vs); rewrite ?after_nil; [| |done].
  - eapply (reaches_running _ p (co_await_sender s k)); [done| |apply reaches_refl]. cbn [Coroutine.step]. unfold await_sender, deref. cbn [frames with_ctl].
    rewrite Hp. ostep. rewrite Hi, run_ctl by done. done.
  - cbn [direct]. rewrite Hi. by destruct (direct _ _).
Qed.

Lemma sender_ends m p f tk s k vs : frames m !! p = Some f -> f_point f = running -> is_immediate s = false -> started_all m ->
  (forall v vs', vs = v :: vs' -> ends (after m [s]) p f tk (k v) vs') -> ends m p f tk (co_await_sender s k) vs.
Proof.
  intros Hp Hr Hi Hm Hk. set (n := length (started m)).
  assert (operations m !! n = None) as Hn. { apply eq_None_not_Some. intros Hs. apply Hm in Hs. unfold n in Hs. lia. }
  set (m1 := mk_machine (<[p := mk_frame (f_alloc f) (f_size f) (at_sender n None k) (f_promise f)]> (frames m)) (<[n := p]> (operations m)) None
            (started m ++ [s]) (received m) (handled m) (deleted m) (in_use m)).
  assert (step (with_ctl m (Some (p, co_await_sender s k))) p (co_await_sender s k) = Done m1) as Hs.
  { cbn [Coroutine.step]. unfold await_sender, deref. cbn [frames with_ctl]. rewrite Hp. ostep. rewrite Hi, Hplenty. done. }
  destruct vs as [|v vs].
  - unfold ends. cbn [direct]. rewrite Hi. exists m1, []. split_and!; [by eapply reaches_running; [..|apply reaches_refl]| |by left].
    apply (suspended_here m p f tk [s] m1 (at_sender n None k) (<[n := p]> (operations m))); [done|done|done|]. by apply delete_insert_id.
  - apply (ends_after _ _ _ _ _ _ [s] (k v) vs).
    + eapply reaches_running; [done|exact Hs|]. eapply reaches_step; [|apply reaches_refl].
      unfold event, Coroutine.event. cbn [ctl m1]. unfold newest. cbn [started operations m1]. rewrite length_app. cbn [length].
      replace (Nat.pred (length (started m) + 1)) with n by (unfold n; lia). rewrite lookup_insert_eq. unfold complete. cbn [operations m1].
      rewrite lookup_insert_eq. unfold deref. cbn [frames m1]. rewrite lookup_insert_eq. ostep. cbn [f_point]. rewrite Nat.eqb_refl.
      unfold resume, deref, set_point, with_frames. cbn [frames m1 f_alloc f_size f_promise]. rewrite lookup_insert_eq. ostep. cbn [f_point].
      unfold run, with_operations, with_ctl, set_point, with_frames, after. cbn [frames operations ctl started received handled deleted in_use m1 f_alloc f_size f_promise].
      rewrite delete_insert_id, !insert_insert_eq, frame_eta, insert_id by done. ostep. done.
    + cbn [direct]. rewrite Hi. by destruct (direct _ _).
    + by apply Hk.
Qed.

(** What a coroutine waits in, when the task that it awaits waits. *)
Lemma suspended_task m p f tk c k a sz l m' : frames m !! p = Some f -> frames m !! c = None ->
  suspended (put_frames m (awaiting (frames m) p f k c (child_frame p tk a sz running)) None (in_use m + (sz + sizeof_alloc_state)))
    c (child_frame p tk a sz running) tk l m' -> suspended m p f tk l m'.
Proof.
  intros Hp Hc []. assert (c <> p) as Hcp by congruence. cbn [put_frames frames operations started received handled deleted in_use] in *.
  assert (frames m' !! p = Some (mk_frame (f_alloc f) (f_size f) (at_task c k) (f_promise f))) as Hp'.
  { rewrite su_others0; rewrite ?awaiting_parent; by eauto. }
  split; try done.
  - by exists (at_task c k).
  - intros q Hq Hs. assert (q <> c) by (intros ->; rewrite Hc in Hs; by destruct Hs).
    assert (awaiting (frames m) p f k c (child_frame p tk a sz running) !! q = frames m !! q) as Ea.
    { unfold awaiting. by rewrite !lookup_insert_ne by done. }
    rewrite su_others0; [done|done|]. by rewrite Ea.
  - intros q fq Hq Hs. destruct (decide (q = c)) as [->|Hn].
    + destruct su_promise0 as (pt & _ & Hx). rewrite Hs in Hx. injection Hx as ->. by exists p.
    + eapply su_tokens0; [|done]. unfold awaiting. rewrite lookup_insert_ne by done. rewrite lookup_insert_ne by congruence. done.
  - destruct su_destroy0 as (d & Hd & Hdes). exists (Datatypes.S d). split.
    { unfold awaiting in Hd. rewrite map_size_insert_None, map_size_insert_Some in Hd; [lia|by rewrite Hp|by rewrite lookup_insert_ne by congruence]. }
    intros [|fuel] Hf; [lia|]. cbn [Coroutine.destroy]. unfold deref. rewrite Hp'. ostep. cbn [f_point]. rewrite Hdes by lia. ostep.
    unfold delete_frame. cbn [frames operations ctl started received handled deleted in_use f_promise f_size child_frame].
    rewrite awaiting_deleted, delete_insert_eq, app_nil_r by done. do 2 f_equal. lia.
Qed.

Lemma body_ends : forall b m p f tk vs, frames m !! p = Some f -> f_point f = running -> child_token p (f_promise f) = Done tk ->
  started_all m -> ends m p f tk b vs.
Proof.
  induction b as [v|e|b _|s k IHk|a sz t IHt k IHk]; intros m p f tk vs Hp Hr Htk Hm.
  - unfold ends. cbn [direct]. rewrite app_nil_r. apply reaches_refl.
  - unfold ends. cbn [direct]. rewrite app_nil_r. apply reaches_refl.
  - unfold ends. cbn [direct]. eexists _, vs. split_and!.
    + eapply reaches_running; [done| |apply reaches_refl]. cbn [Coroutine.step]. unfold deref. cbn [frames with_ctl]. rewrite Hp. by ostep.
    + eapply (suspended_here m p f tk [] _ (at_ramp_end b) (operations m)); [done|done| |done]. by rewrite app_nil_r.
    + by right.
  - destruct (is_immediate s) eqn:Hi.
    + by apply immediate_ends, IHk.
    + apply sender_ends; [done..|]. intros v vs' _. apply IHk; [done..|]. by apply started_after.
  - destruct (grants a (sz + sizeof_alloc_state)) eqn:Hg.
    + destruct (await_task_granted (with_ctl m (Some (p, co_await_task a sz t k))) p f tk a sz t k Hp Htk Hg (Hplenty _ _)) as (c & Hc & Hs).
      cbn [frames with_ctl in_use] in Hc, Hs.
      set (mx := put_frames m (awaiting (frames m) p f k c (child_frame p tk a sz running)) None (in_use m + (sz + sizeof_alloc_state))).
      assert (ends mx c (child_frame p tk a sz running) tk t vs) as Ht.
      { apply IHt; [apply awaiting_child|done|done|exact Hm]. }
      unfold ends in Ht. destruct (direct t vs) as [l [r rest|]] eqn:Ed.
      * apply (ends_after _ _ _ _ _ _ l (k r) rest).
        -- eapply reaches_running; [done|exact Hs|]. eapply reaches_trans; [exact Ht|].
           eapply reaches_running; [done| |apply reaches_refl]. rewrite step_leaf.
           pose proof (child_finishes (after m l) (frames m) p f k c tk a sz (Some (c, leaf r)) r (in_use m + (sz + sizeof_alloc_state)) Hp Hr Hc) as Hf.
           replace (in_use m + (sz + sizeof_alloc_state) - (sz + sizeof_alloc_state)) with (in_use m) in Hf by lia. exact Hf.
        -- cbn [direct]. rewrite Hg, Ed. by destruct (direct _ _).
        -- apply IHk; [done..|]. by apply started_after.
      * destruct Ht as (m' & vs' & Hreach & Hsu & Hv). unfold ends. cbn [direct]. rewrite Hg, Ed. exists m', vs'. split_and!; [| |done].
        -- eapply reaches_running; [done|exact Hs|exact Hreach].
        -- by eapply suspended_task.
    + apply (ends_after _ _ _ _ _ _ [] (k (inr bad_alloc)) vs); rewrite ?after_nil.
      * eapply reaches_running; [done| |apply reaches_refl]. cbn [Coroutine.step]. unfold Coroutine.await_task, deref. cbn [frames with_ctl].
        rewrite Hp. ostep. unfold new_frame. rewrite Hg. rewrite run_ctl by done. done.
      * cbn [direct]. rewrite Hg. by destruct (direct _ _).
      * by apply IHk.
Qed.

(** ** Tasks and emitters *)

Definition idle (m : machine) : Prop := ctl m = None /\ operations m = empty.

Lemma idle_started (m : machine) : operations m = empty -> started_all m.
Proof. intros Ho n Hn. rewrite Ho, lookup_empty in Hn. by destruct Hn. Qed.

Lemma idle_ends m vs : ctl m = None -> vs = [] \/ operations m = empty -> event m vs = None.
Proof.
  intros Hc Hv. unfold event, Coroutine.event, newest. rewrite Hc. destruct Hv as [->|Ho]; [by case_match|]. by rewrite Ho, lookup_empty.
Qed.

(** [m] when the coroutines are gone, with what has happened. *)
Definition left_by (m m' : machine) (hs : list handler) : machine :=
  mk_machine (frames m) empty None (started m') (received m') (handled m') (deleted m ++ hs) (in_use m).

Lemma reset_frame m fr p f c bytes : fr !! p = None -> f_point f <> running ->
  match f_point f with at_sender _ _ _ | at_task _ _ => False | _ => True end ->
  reset (put_frames m (<[p := f]> fr) c bytes) p = Done (delete_frame (put_frames m fr c bytes) p f).
Proof.
  intros Hp Hr Hpt. unfold reset. cbn [put_frames frames]. rewrite map_size_insert_None by done. cbn [Coroutine.destroy].
  unfold deref. cbn [put_frames frames]. rewrite lookup_insert_eq. ostep. unfold delete_frame. cbn [put_frames frames operations ctl started received handled deleted in_use].
  destruct f as [a n [] pr]; cbn [f_point] in *; try done; ostep; cbn [put_frames frames operations ctl started received handled deleted in_use]; by rewrite delete_insert_eq.
Qed.

(** A coroutine that waits is destroyed. *)
Lemma reset_suspended m p f tk l m' : suspended m p f tk l m' -> frames m !! p = Some f ->
  reset m' p = Done (delete_frame (mk_machine (frames m) (operations m) None (started m ++ l) (received m) (handled m) (deleted m) (in_use m)) p f).
Proof.
  intros Hs Hp. destruct (su_destroy _ _ _ _ _ _ Hs) as (d & Hd & Hdes). unfold reset. rewrite Hdes; [done|].
  assert (size (frames m) <> 0)%nat; [|lia]. intros Hz. apply map_size_empty_inv in Hz. by rewrite Hz, lookup_empty in Hp.
Qed.

(** A task is called, connected to a receiver, and started; then operations complete. *)
Definition run_task (fuel : nat) (m : machine) (a : allocator) (sz : Z) (b : body) (r : receiver) (vs : list V) : outcome (machine * id * list V) :=
  match call_task bad_alloc grants m a sz b with
  | (m, inl p) =>
    let* m := connect_task m p r in
    let* m := start_task bad_variant_access m p in
    let* (m, vs) := drive fuel m vs in
    Done (m, p, vs)
  | (_, inr _) => Abort
  end.

(** C17. A task that is started, whose awaiters get their boxes ([plenty]; one that is denied is undefined, [denied_box_is_undefined]), does
    what its body does when to await a task is to call it and to await a sender is to be given
    what it sends, exceptions included, and the frame of an awaited task that is denied: to await it throws [bad_alloc].  The same senders
    are started in the same order, and the receiver gets the result
    of the body once, or nothing while the body waits.  To destroy it then, finished or suspended at any depth, leaves no frame, no
    operation and no byte behind. *)
Theorem task_refines m a sz b r vs : idle m -> grants a (sz + sizeof_alloc_state) = true -> exists fuel m' p vs',
  run_task fuel m a sz b r vs = Done (m', p, vs') /\ started m' = started m ++ (direct b vs).1 /\
  match (direct b vs).2 with
  | finished res rest => received m' = received m ++ [(r, res)] /\ vs' = rest
  | waiting => received m' = received m
  end /\
  handled m' = handled m /\ reset m' p = Done (left_by m m' []).
Proof.
  intros [Hc Ho] Hg. unfold run_task, call_task, new_frame. rewrite Hg. set (p := fresh (dom (frames m))).
  assert (frames m !! p = None) as Hp by apply not_elem_of_dom, is_fresh.
  unfold connect_task, deref. cbn [frames]. rewrite lookup_insert_eq. ostep. cbn [f_promise]. ostep.
  unfold start_task, resume, deref, set_promise, with_frames. cbn [frames]. rewrite lookup_insert_eq. ostep. cbn [f_point].
  unfold run, set_point, with_frames, with_ctl. cbn [frames operations ctl started received handled deleted in_use f_alloc f_size f_promise]. ostep.
  rewrite !insert_insert_eq. set (f := mk_frame a sz running (task_promise None (Some (operation r)))).
  set (m1 := put_frames m (<[p := f]> (frames m)) None (in_use m + (sz + sizeof_alloc_state))).
  pose proof (body_ends b m1 p f (receiver_token r) vs) as He. unfold ends in He. specialize (He (lookup_insert_eq _ _ _) eq_refl eq_refl (idle_started m1 Ho)).
  destruct (direct b vs) as [l [res rest|]]; cbn [fst snd].
  - set (m' := put_frames (mk_machine (frames m) (operations m) None (started m ++ l) (received m ++ [(r, res)]) (handled m) (deleted m) (in_use m))
      (<[p := mk_frame a sz at_end (task_promise (Some res) (Some (operation r)))]> (frames m)) None (in_use m + (sz + sizeof_alloc_state))).
    destruct (reaches_drive (with_ctl m1 (Some (p, b))) vs m' rest) as [fuel Hd].
    + eapply reaches_trans; [exact He|]. eapply reaches_running; [done| |apply reaches_refl]. rewrite step_leaf.
      unfold Coroutine.finish, deref. cbn [frames m1 put_frames]. rewrite lookup_insert_eq. ostep. cbn [f_promise f store_result obind final_suspend on_final_suspend].
      unfold with_ctl, with_frames. cbn [frames operations ctl started received handled deleted in_use f_alloc f_size m1 put_frames]. by rewrite insert_insert_eq.
    + apply idle_ends; [done|by right].
    + exists fuel, m', p, rest. split_and!; [|done|done|done|done|].
      * unfold m1, put_frames, with_ctl in Hd. cbn [frames operations started received handled deleted in_use] in Hd. rewrite Hd. done.
      * unfold m'. rewrite reset_frame by done. unfold delete_frame, left_by. cbn [frames operations ctl started received handled deleted in_use put_frames f_promise f_size].
        rewrite Ho, delete_id by done. do 2 f_equal. lia.
  - destruct He as (m' & vs' & He & Hs & Hv).
    destruct (reaches_drive (with_ctl m1 (Some (p, b))) vs m' vs' He) as [fuel Hd].
    { apply idle_ends; [apply Hs|]. destruct Hv as [Hv|Hv]; [by left|right]. by rewrite Hv. }
    exists fuel, m', p, vs'. split_and!; [| |apply Hs|apply Hs|].
    + unfold m1, put_frames, with_ctl in Hd. cbn [frames operations started received handled deleted in_use] in Hd. rewrite Hd. done.
    + apply Hs.
    + rewrite (reset_suspended _ _ _ _ _ _ Hs) by apply lookup_insert_eq. unfold delete_frame, left_by.
      rewrite (su_started _ _ _ _ _ _ Hs), (su_received _ _ _ _ _ _ Hs), (su_handled _ _ _ _ _ _ Hs).
      cbn [frames operations ctl started received handled deleted in_use m1 put_frames f_promise f f_size].
      rewrite Ho, delete_insert_id by done. do 2 f_equal. lia.
Qed.

Lemma reaches_stops m vs m1 vs1 o : reaches m vs m1 vs1 -> event m1 vs1 = Some o -> (forall x, o <> Done x) -> exists fuel, drive fuel m vs = o.
Proof.
  induction 1 as [m vs|m vs m1 vs1 m' vs' He _ IH]; intros Hd Ho.
  - exists 1%nat. cbn [Coroutine.drive]. rewrite Hd. destruct o as [x| |]; [by destruct (Ho x)|done..].
  - destruct (IH Hd Ho) as [fuel Hf]. exists (Datatypes.S fuel). cbn [Coroutine.drive]. rewrite He. ostep. exact Hf.
Qed.

(** What the handler of an emitter is given. *)
Definition resolution (r : V + E) : outcome R := match r with inl v => Done (return_value v) | inr e => unhandled_exception e end.

(** The coroutine of an emitter is called, and runs to the end of its ramp; the emitter is connected to a handler and started. *)
Definition start_emitter (fuel : nat) (m : machine) (a : allocator) (sz : Z) (b : body) (h : handler) (vs : list V) : outcome (machine * id * list V) :=
  match call_emitter no_result grants m a sz (Coroutine.co_ramp_end b) with
  | (m, Some p) =>
    let* (m, _) := drive 1 m [] in
    let* m := co_emitter_starter bad_variant_access m p h in
    let* (m, vs) := drive fuel m vs in
    Done (m, p, vs)
  | (_, None) => Abort
  end.

(** The frame of such a coroutine while it runs. *)
Definition emitter_frame (a : allocator) (sz : Z) (h : handler) : frame := mk_frame a sz running (emitter_promise (Some h) no_result).

(** Up to the start, the rest of the body runs with the handler in its promise. *)
Lemma emitter_starts m a sz b h vs : idle m -> grants a (sz + sizeof_alloc_state) = true -> exists p, frames m !! p = None /\ forall fuel,
  start_emitter fuel m a sz b h vs =
    (let* (m, vs) := drive fuel (put_frames m (<[p := emitter_frame a sz h]> (frames m)) (Some (p, b)) (in_use m + (sz + sizeof_alloc_state))) vs in
     Done (m, p, vs)).
Proof.
  intros [Hc Ho] Hg. exists (fresh (dom (frames m))). split; [apply not_elem_of_dom, is_fresh|]. intros fuel. unfold start_emitter, call_emitter, new_frame. rewrite Hg. set (p := fresh (dom (frames m))).
  cbv beta zeta iota. cbn [Coroutine.drive Coroutine.event with_ctl ctl Coroutine.step].
  unfold event, Coroutine.event. cbn [with_ctl ctl]. cbn [Coroutine.step]. unfold deref. cbn [with_ctl frames]. rewrite lookup_insert_eq. ostep.
  unfold newest. cbn [with_ctl set_point with_frames operations ctl]. rewrite Ho, lookup_empty. ostep.
  unfold co_emitter_starter, deref, set_point, with_frames, with_ctl. cbn [frames operations ctl started received handled deleted in_use].
  rewrite lookup_insert_eq. ostep. cbn [f_promise f_point f_alloc f_size].
  unfold resume, set_promise, deref, with_frames. cbn [frames operations ctl started received handled deleted in_use f_alloc f_size f_point].
  rewrite lookup_insert_eq. ostep. cbn [f_point]. unfold run, set_point, with_frames, with_ctl.
  cbn [frames operations ctl started received handled deleted in_use f_alloc f_size f_promise obind]. rewrite !insert_insert_eq.
  unfold put_frames, emitter_frame. by rewrite Ho.
Qed.

(** C2. The coroutine of an emitter, resumed with a handler, starts the senders that its body starts when to await is to call; the handler is
    completed once, with what the value or the exception of the body resolves to, and not while the body waits; an exception that nothing
    converts ends the process.  All the tasks that it awaits, however deep, have the token of the source that forwards the stop of its
    handler.  To destroy it at any suspension deletes the handler, once, and leaves no frame, no operation and no byte behind. *)
Theorem emitter_refines m a sz b h vs : idle m -> grants a (sz + sizeof_alloc_state) = true -> exists fuel,
  let ran := start_emitter fuel m a sz b h vs in
  match direct b vs with
  | (l, finished r rest) =>
    match resolution r with
    | Done x => exists m' p, ran = Done (m', p, rest) /\ started m' = started m ++ l /\ handled m' = handled m ++ [(h, x)] /\
        received m' = received m /\ reset m' p = Done (left_by m m' [h])
    | Abort => ran = Abort
    | Undef => ran = Undef
    end
  | (l, waiting) => exists m' p vs', ran = Done (m', p, vs') /\ started m' = started m ++ l /\ handled m' = handled m /\ received m' = received m /\
      (forall q f, q <> p -> frames m !! q = None -> frames m' !! q = Some f ->
         exists co, f_promise f = task_promise None (Some (handoff co (source_token p)))) /\
      reset m' p = Done (left_by m m' [h])
  end.
Proof.
  intros Hi Hg. destruct (emitter_starts m a sz b h vs Hi Hg) as (p & Hp & Hst). destruct Hi as [Hc Ho].
  set (f := emitter_frame a sz h) in *. set (m1 := put_frames m (<[p := f]> (frames m)) None (in_use m + (sz + sizeof_alloc_state))).
  pose proof (body_ends b m1 p f (source_token p) vs (lookup_insert_eq _ _ _) eq_refl eq_refl (idle_started m1 Ho)) as He. unfold ends in He.
  change (put_frames m (<[p := f]> (frames m)) (Some (p, b)) (in_use m + (sz + sizeof_alloc_state))) with (with_ctl m1 (Some (p, b))) in Hst.
  destruct (direct b vs) as [l [r rest|]].
  - set (m2 := mk_machine _ _ _ _ _ _ _ _) in He.
    assert (step m2 p (leaf r) = (let* x := resolution r in
      Done (put_frames (mk_machine (frames m) (operations m) None (started m ++ l) (received m) (handled m ++ [(h, x)]) (deleted m) (in_use m))
              (<[p := mk_frame a sz at_end (emitter_promise (Some h) x)]> (frames m)) None (in_use m + (sz + sizeof_alloc_state))))) as Hs.
    { rewrite step_leaf. unfold Coroutine.finish, deref. cbn [frames m2 m1 put_frames]. rewrite lookup_insert_eq. ostep.
      cbn [f f_promise emitter_frame store_result]. fold (resolution r). destruct (resolution r); [|done..]. ostep. cbn [final_suspend handler_completer].
      unfold with_ctl, with_frames, put_frames. cbn [frames operations ctl started received handled deleted in_use f_alloc f_size m2 m1 put_frames]. by rewrite insert_insert_eq. }
    assert (event m2 rest = Some (let* m := step m2 p (leaf r) in Done (m, rest))) as Hev by done. rewrite Hs in Hev.
    destruct (resolution r) as [x| |]; cbn [obind] in Hev.
    + set (m' := put_frames _ _ _ _) in Hev. destruct (reaches_drive (with_ctl m1 (Some (p, b))) vs m' rest) as [fuel Hd].
      { eapply reaches_trans; [exact He|]. eapply reaches_step; [exact Hev|apply reaches_refl]. }
      { apply idle_ends; [done|by right]. }
      exists fuel. cbv zeta. rewrite Hst, Hd. exists m', p. split_and!; [done..|]. unfold m'. rewrite reset_frame by done.
      unfold delete_frame, left_by. cbn [frames operations ctl started received handled deleted in_use put_frames f_promise f_size].
      rewrite Ho, delete_id by done. do 2 f_equal. lia.
    + destruct (reaches_stops _ _ _ _ _ He Hev) as [fuel Hd]; [done|]. exists fuel. cbv zeta. by rewrite Hst, Hd.
    + destruct (reaches_stops _ _ _ _ _ He Hev) as [fuel Hd]; [done|]. exists fuel. cbv zeta. by rewrite Hst, Hd.
  - destruct He as (m' & vs' & He & Hs & Hv). destruct (reaches_drive _ _ _ _ He) as [fuel Hd].
    { apply idle_ends; [apply Hs|]. destruct Hv as [Hv|Hv]; [by left|right]. by rewrite Hv. }
    exists fuel. cbv zeta. rewrite Hst, Hd. exists m', p, vs'. split_and!; [done|apply Hs|apply Hs|apply Hs| |].
    + intros q fq Hq Hn. apply (su_tokens _ _ _ _ _ _ Hs). cbn [m1 put_frames frames]. by rewrite lookup_insert_ne by congruence.
    + rewrite (reset_suspended _ _ _ _ _ _ Hs) by apply lookup_insert_eq. unfold delete_frame, left_by.
      rewrite (su_started _ _ _ _ _ _ Hs), (su_received _ _ _ _ _ _ Hs), (su_handled _ _ _ _ _ _ Hs).
      cbn [frames operations ctl started received handled deleted in_use m1 put_frames f_promise f_size f emitter_frame].
      rewrite Ho, delete_insert_id by done. do 2 f_equal. lia.
Qed.

End Spec.

(** ** A concrete program

    Values, exceptions and senders are numbers; the senders below 10 are immediate.  The results of emitters are values or exceptions, and
    the exception 99 is converted to nothing. *)

Definition sample_unhandled (e : nat) : outcome (nat + nat) := if Nat.eqb e 99 then Abort else Done (inr e).

(** A task that adds what two operations send, and throws when the sum is 5. *)
Definition adder : body (V := nat) (E := nat) (S := nat) :=
  co_await_sender 20%nat (fun x => co_await_sender 21%nat (fun y => let s := (x + y)%nat in if Nat.eqb s 5 then co_throw s else co_return s)).

(** It awaits an immediate sender, and an [adder] in another task; it catches what that throws. *)
Definition caller (size : Z) : body (V := nat) (E := nat) (S := nat) :=
  co_await_sender 3%nat (fun i => co_await_task 0%nat size adder (fun r =>
    match r with inl v => co_return (i + v)%nat | inr e => if Nat.eqb e 5 then co_return 50%nat else co_throw e end)).

Definition empty_machine : machine (V := nat) (E := nat) (S := nat) (R := nat + nat) := mk_machine empty empty None [] [] [] [] 0.

Definition up_to_1000 (_ : allocator) (n : Z) : bool := n <=? 1000.
Definition always (_ : allocator) (_ : awaiter_box (S := nat)) : bool := true.
Definition below_10 (s : nat) : bool := Nat.ltb s 10.

Definition sample_task (size : Z) (vs : list nat) :=
  run_task (R := nat + nat) 7%nat 8%nat below_10 (fun s => s) inl sample_unhandled up_to_1000 always 20%nat empty_machine 0%nat 100 (caller size) 1%nat vs.
Definition sample_emitter (b : body (V := nat) (E := nat) (S := nat)) (vs : list nat) :=
  start_emitter (R := nat + nat) 7%nat 8%nat below_10 (fun s => s) inl sample_unhandled (inl 0%nat) up_to_1000 always 20%nat empty_machine 0%nat 100 b 1%nat vs.
Definition observed {A B} (o : outcome (machine (V := nat) (E := nat) (S := nat) (R := nat + nat) * A * B)) :=
  let* (m, _, _) := o in Done (started m, received m, handled m, in_use m).

Lemma task_refines_witness : idle empty_machine /\ exists fuel m' p vs',
  run_task 7%nat 8%nat below_10 (fun s => s) inl sample_unhandled up_to_1000 always fuel empty_machine 0%nat 100 (caller 200) 1%nat [1; 2; 3]%nat = Done (m', p, vs') /\
  received m' = [(1%nat, inl 6%nat)].
Proof.
  split; [done|].
  destruct (task_refines (R := nat + nat) 7%nat 8%nat below_10 (fun s => s) inl sample_unhandled up_to_1000 always (fun _ _ => eq_refl) empty_machine 0%nat 100 (caller 200) 1%nat [1; 2; 3]%nat)
    as (fuel & m' & p & vs' & E & _ & Hr & _); [done|by vm_compute|]. exists fuel, m', p, vs'. split; [exact E|]. apply Hr.
Defined.

Lemma emitter_refines_witness : idle empty_machine /\ exists fuel m' p vs',
  start_emitter 7%nat 8%nat below_10 (fun s => s) inl sample_unhandled (inl 0%nat) up_to_1000 always fuel empty_machine 0%nat 100 (caller 200) 1%nat [1]%nat = Done (m', p, vs') /\
  handled m' = [] /\ reset m' p = Done (left_by empty_machine m' [1%nat]).
Proof.
  split; [done|].
  destruct (emitter_refines (R := nat + nat) 7%nat 8%nat below_10 (fun s => s) inl sample_unhandled (inl 0%nat) up_to_1000 always (fun _ _ => eq_refl) empty_machine 0%nat 100 (caller 200) 1%nat [1]%nat)
    as (fuel & m' & p & vs' & E & _ & Hh & _ & _ & Hr); [done|by vm_compute|]. exists fuel, m', p, vs'. split; [exact E|]. split; [exact Hh|exact Hr].
Defined.

(** The sum; an exception that is caught; an allocation failure of the inner frame, which is not. *)
Example sample_sum : observed (sample_task 200 [1; 1]%nat) = Done ([20; 21], [(1, inl 5)], [], 132%Z)%nat.
Proof. by vm_compute. Qed.
Example sample_caught : observed (sample_task 200 [2; 3]%nat) = Done ([20; 21], [(1, inl 50)], [], 132%Z)%nat.
Proof. by vm_compute. Qed.
Example sample_no_memory : observed (sample_task 2000 [2; 3]%nat) = Done ([], [(1, inr 7)], [], 132%Z)%nat.
Proof. by vm_compute. Qed.

(** An exception that nothing converts. *)
Example sample_terminates : observed (sample_emitter (co_throw 99%nat) []) = Abort.
Proof. by vm_compute. Qed.

(** A coroutine of an emitter that is over before the end of its ramp waits for its handler; one that awaits a task there has no
    handler to register with; one that awaits an operation is resumed by its start before the operation has sent anything. *)
Definition without_ramp (b : body (V := nat) (E := nat) (S := nat)) : outcome (machine (V := nat) (E := nat) (S := nat) (R := nat + nat)) :=
  match call_emitter (inl 0%nat) up_to_1000 empty_machine 0%nat 100 b with
  | (m, Some p) =>
    let* (m, _) := drive 7%nat 8%nat below_10 (fun s => s) inl sample_unhandled up_to_1000 always 20%nat m [] in
    co_emitter_starter (S := nat) 8%nat m p 1%nat
  | (_, None) => Abort
  end.

Example thrown_before_ramp_end : (let* m := without_ramp (co_throw 4%nat) in Done (handled m)) = Done [(1, inr 4)]%nat.
Proof. by vm_compute. Qed.
(** The box of the operation of an awaited sender is denied. *)
Example denied_box_is_undefined :
  run_task (R := nat + nat) 7%nat 8%nat below_10 (fun s => s) inl sample_unhandled up_to_1000 (fun _ _ => false) 20%nat empty_machine 0%nat 100 adder 1%nat [1; 2]%nat = Undef.
Proof. by vm_compute. Qed.

Example task_before_ramp_end : without_ramp (co_await_task 0%nat 200 adder (fun _ => co_return 0%nat)) = Undef.
Proof. by vm_compute. Qed.
Example operation_before_ramp_end : without_ramp (co_await_sender 20%nat (fun v => co_return v)) = Undef.
Proof. by vm_compute. Qed.
