(* ===== verification/Nano.v ===== *)
(** * Senders ([src/amongoc/nano/])

    The C++ senders that the driver composes: what connects to a receiver ([concepts.hpp], [nano.hpp]), [just.hpp], [then.detail.hpp],
    [let.detail.hpp], [tie.hpp], the results of [result.hpp] and their senders, the senders of Asio ([asio/as_sender.hpp]), and the awaiter of
    senders ([coroutine.hpp]).  The objects that connecting them makes, and what they do when they are started, are in [Sender.v]; here is what a client
    of senders relies on.

    A receiver is the rest of the program, of an answer type that no sender looks at.  An operation that waits does so in its start
    function: the state is what the program has made of it when the receiver is called.  The state counts the turns of the event
    loop. *)
From Stdlib Require Import ZArith Lia.
From stdpp Require Import base numbers list.
From S2P Require Import Prelude.
Open Scope outcome_scope.
#[local] Unset Program Cases.

(** ** Results *)

(** [result<T, E>]: [success] or [error]. *)
Inductive result (T E : Type) : Type := success (value : T) | error (e : E).
Arguments success {T E} value.
Arguments error {T E} e.

Definition has_value {T E} (r : result T E) : bool := match r with success _ => true | error _ => false end.
Definition has_error {T E} (r : result T E) : bool := match r with success _ => false | error _ => true end.

(** [value()], which throws what [error_traits] makes of the error. *)
Definition value {T E X} (throw_exception : E -> X) (r : result T E) : X + T :=
  match r with success v => inr v | error e => inl (throw_exception e) end.

(** [error()], [error_tag()]: they assert an error. *)
Definition error_of {T E} (r : result T E) : outcome E := match r with error e => Done e | success _ => Abort end.

Definition emplace_value {T E} (_ : result T E) (v : T) : result T E := success v.
Definition emplace_error {T E} (_ : result T E) (e : E) : result T E := error e.

(** [result_join]. *)
Definition result_join {T E} (r : result (result T E) E) : result T E :=
  match r with success (success v) => success v | success (error e) => error e | error e => error e end.

(** ** Senders *)

Section Nano.
Context {St : Type} (turn : St -> nat).

Abbreviation receiver T X := (T -> St -> outcome X).
Abbreviation operation X := (St -> outcome X).

(** [nanosender_traits]: how a sender is connected; an operation is its start function. *)
Class Nanosender (S T : Type) : Type := { connect : forall {X : Type}, S -> receiver T X -> operation X }.

(** [is_immediate(s)] of the traits, and its static form. *)
Class Immediacy (S T : Type) `{Nanosender S T} : Type := { member_is_immediate : S -> bool; statically_immediate : bool }.

Definition is_immediate {S T} `{Immediacy S T} (s : S) : bool := statically_immediate || member_is_immediate s.

(** A callable of the program; it does not run the event loop. *)
Record callable (A B : Type) : Type := mk_callable {
  call : A -> St -> outcome (St * B);
  call_stays : forall a st st' b, call a st = Done (st', b) -> turn st' = turn st }.
Arguments call {A B} c.

Program Definition pure {A B} (f : A -> B) : callable A B := mk_callable A B (fun a st => Done (st, f a)) _.
Next Obligation. intros A B f a st st' b [= -> _]. done. Qed.

(** [result_fmap<F>]: the function is called with the value of a success; an error is handed on. *)
Program Definition result_fmap {T U E} (_fn : callable T U) : callable (result T E) (result U E) :=
  mk_callable (result T E) (result U E) (fun res st =>
    match res with
    | success v => let* (st, u) := call _fn v st in Done (st, success u)
    | error e => Done (st, error e)
    end) _.
Next Obligation.
  intros T U E fn [v|e] st st' r; [|by intros [= ->]]. destruct (call fn v st) as [[st2 u]| |] eqn:Ec; cbn; [|done..]. intros [= <- _].
  by apply call_stays in Ec.
Qed.

(** What a sender promises: it calls its receiver once, with what does not depend on the receiver. *)
Class Sends (S T : Type) `{Nanosender S T} : Type := {
  sent : S -> St -> outcome (St * T);
  connect_sends : forall X (s : S) (r : receiver T X) st, connect s r st = (let* (st, v) := sent s st in r v st) }.

(** If it tells that it is immediate, its receiver is called in the turn in which it is started. *)
Class Immediate (S T : Type) `{Immediacy S T, !Sends S T} : Prop :=
  immediate_stays : forall s st st' v, is_immediate s = true -> sent s st = Done (st', v) -> turn st' = turn st.

(** *** [just] *)

Record just (T : Type) : Type := mk_just { just_value : T }.
Arguments mk_just {T} just_value.
Arguments just_value {T} j.

#[export] Instance just_nanosender T : Nanosender (just T) T := {| connect X s recv := fun st => recv (just_value s) st |}.
#[export] Instance just_immediacy T : Immediacy (just T) T := {| member_is_immediate _ := true; statically_immediate := true |}.

(** *** [then] *)

Record then_sender (In A B : Type) : Type := mk_then { then_input : In; then_transformer : callable A B }.
Arguments mk_then {In A B} then_input then_transformer.
Arguments then_input {In A B} t.
Arguments then_transformer {In A B} t.

(** [atop(f, g)]. *)
Definition atop {A B X} (f : receiver B X) (g : callable A B) : receiver A X := fun a st => let* (st, b) := call g a st in f b st.

#[export] Instance then_nanosender In A B `{Nanosender In A} : Nanosender (then_sender In A B) B :=
  {| connect X s recv := connect (then_input s) (atop recv (then_transformer s)) |}.
#[export] Instance then_immediacy In A B `{Immediacy In A} : Immediacy (then_sender In A B) B :=
  {| member_is_immediate s := is_immediate (then_input s); statically_immediate := statically_immediate (S := In) (T := A) |}.

(** *** [let] *)

Record let_sender (In A Next : Type) : Type := mk_let { let_input : In; let_transformer : callable A Next }.
Arguments mk_let {In A Next} let_input let_transformer.
Arguments let_input {In A Next} l.
Arguments let_transformer {In A Next} l.

(** [let_recv]: the next sender is connected to the final receiver, and started. *)
Definition let_recv {A Next B X} `{Nanosender Next B} (_transform : callable A Next) (_next_recv : receiver B X) : receiver A X :=
  fun result st => let* (st, next_sender) := call _transform result st in connect next_sender _next_recv st.

#[export] Instance let_nanosender In A Next B `{Nanosender In A, Nanosender Next B} : Nanosender (let_sender In A Next) B :=
  {| connect X s recv := connect (let_input s) (let_recv (let_transformer s) recv) |}.

(** The member exists when the next sender is statically immediate; otherwise the traits tell [false]. *)
#[export] Instance let_immediacy In A Next B `{Immediacy In A, Immediacy Next B} : Immediacy (let_sender In A Next) B :=
  {| member_is_immediate s := if statically_immediate (S := Next) (T := B) then is_immediate (let_input s) else false;
     statically_immediate := statically_immediate (S := In) (T := A) && statically_immediate (S := Next) (T := B) |}.

(** *** A result that holds a sender *)

(** The operation of the sender is made when the result is connected, and only if there is one. *)
#[export] Instance result_nanosender Snd T E `{Nanosender Snd T} : Nanosender (result Snd E) (result T E) :=
  {| connect X s recv :=
       match s with
       | success snd => let _real_oper := connect snd (fun v st => recv (success v) st) in fun st => _real_oper st
       | error e => fun st => recv (error e) st
       end |}.

(** *** Asio operations *)

(** [asio_nanosender<Init, Signatures>]: the initiator calls the completion handler with [C] once, in a later turn or in this one. *)
Record initiator (C : Type) : Type := mk_initiator { completes : St -> outcome (St * C) }.
Arguments completes {C} i.

Record asio_nanosender (C : Type) : Type := mk_asio { _init : initiator C }.
Arguments _init {C} a.

Definition initiate {C X} (init : initiator C) (h : C -> St -> outcome X) : operation X := fun st => let* (st, c) := completes init st in h c st.

(** An error code is an error unless it is zero. *)
Definition of_code {T Ec} (nonzero : Ec -> bool) (ec : Ec) (v : T) : result T Ec := if nonzero ec then error ec else success v.

(** [void()], [void(std::error_code)], [void(std::error_code, T)]. *)
Definition asio_void : Nanosender (asio_nanosender unit) unit :=
  {| connect X s recv := initiate (_init s) (fun _ => recv tt) |}.
Definition asio_code {Ec} (nonzero : Ec -> bool) : Nanosender (asio_nanosender Ec) (result unit Ec) :=
  {| connect X s recv := initiate (_init s) (fun ec => recv (of_code nonzero ec tt)) |}.
Definition asio_value {Ec T} (nonzero : Ec -> bool) : Nanosender (asio_nanosender (Ec * T)) (result T Ec) :=
  {| connect X s recv := initiate (_init s) (fun '(ec, v) => recv (of_code nonzero ec v)) |}.

(** *** [tie], and the awaiter *)

(** The value is assigned to its destination. *)
Definition tie {S T} `{Nanosender S T} (snd : S) (assign : T -> St -> St) : operation St := connect snd (fun v st => Done (assign v st)).

(** [nanosender_awaiter]: [await_resume] runs an immediate sender, and takes what it has stored; [await_suspend] starts another one, whose
    receiver resumes the coroutine. *)
Definition await_ready {S T} `{Immediacy S T} (s : S) : bool := is_immediate s.
Definition await_resume {S T} `{Nanosender S T} (_sender : S) : St -> outcome (St * T) := connect _sender (fun value st => Done (st, value)).
Definition await_suspend {S T X} `{Nanosender S T} (_sender : S) (resume : T -> St -> outcome X) : St -> outcome X := connect _sender resume.

Definition co_await {S T X} `{Immediacy S T} (s : S) (rest : T -> St -> outcome X) : St -> outcome X := fun st =>
  if await_ready s then let* (st, v) := await_resume s st in rest v st else await_suspend s rest st.

(** ** What senders send *)

#[export, program] Instance just_sends T : Sends (just T) T := {| sent s st := Done (st, just_value s) |}.
Next Obligation. done. Qed.

#[export, program] Instance then_sends In A B `{Sends In A} : Sends (then_sender In A B) B :=
  {| sent s st := let* (st, a) := sent (then_input s) st in call (then_transformer s) a st |}.
Next Obligation. intros. cbn. rewrite connect_sends. destruct (sent _ st) as [[st' a]| |]; [|done..]. done. Qed.

#[export, program] Instance let_sends In A Next B `{Sends In A, Sends Next B} : Sends (let_sender In A Next) B :=
  {| sent s st := let* (st, a) := sent (let_input s) st in let* (st, next) := call (let_transformer s) a st in sent next st |}.
Next Obligation.
  intros. cbn. rewrite connect_sends. destruct (sent _ st) as [[st' a]| |]; [|done..]. ostep. unfold let_recv.
  destruct (call _ a st') as [[st2 n]| |]; [|done..]. ostep. apply connect_sends.
Qed.

#[export, program] Instance result_sends Snd T E `{Sends Snd T} : Sends (result Snd E) (result T E) :=
  {| sent s st :=
       match s with
       | success snd => let* (st, v) := sent snd st in Done (st, success v)
       | error e => Done (st, error e)
       end |}.
Next Obligation. intros. destruct s as [s|e]; [|done]. cbn. rewrite connect_sends. by destruct (sent s st) as [[st' v]| |]. Qed.

(** An Asio operation sends what its completion tells, without the value in case of an error. *)
Program Definition asio_value_sends {Ec T} (nonzero : Ec -> bool) : @Sends (asio_nanosender (Ec * T)) (result T Ec) (asio_value nonzero) :=
  {| sent s st := let* (st, (ec, v)) := completes (_init s) st in Done (st, of_code nonzero ec v) |}.
Next Obligation. intros. cbn. unfold initiate. by destruct (completes _ st) as [[st' [ec v]]| |]. Qed.

Program Definition asio_code_sends {Ec} (nonzero : Ec -> bool) : @Sends (asio_nanosender Ec) (result unit Ec) (asio_code nonzero) :=
  {| sent s st := let* (st, ec) := completes (_init s) st in Done (st, of_code nonzero ec tt) |}.
Next Obligation. intros. cbn. unfold initiate. by destruct (completes _ st) as [[st' ec]| |]. Qed.

(** ** Immediacy *)

#[export] Instance just_immediate T : Immediate (just T) T.
Proof. intros s st st' v _ [= <- _]. done. Qed.

Lemma is_immediate_then In A B `{Immediacy In A} (s : then_sender In A B) : is_immediate s = true -> is_immediate (then_input s) = true.
Proof. unfold is_immediate at 1. cbn. intros [Hs|Hs]%orb_prop; [|done]. unfold is_immediate. by rewrite Hs. Qed.

#[export] Instance then_immediate In A B `{Immediate In A} : Immediate (then_sender In A B) B.
Proof.
  intros s st st' v Hi%is_immediate_then. cbn. destruct (sent (then_input s) st) as [[st1 a]| |] eqn:Es; [|done..]. ostep. intros Hc%call_stays.
  rewrite Hc. by eapply immediate_stays.
Qed.

Lemma is_immediate_let In A Next B `{Immediacy In A, Immediacy Next B} (s : let_sender In A Next) : is_immediate s = true ->
  is_immediate (let_input s) = true /\ forall n : Next, is_immediate n = true.
Proof.
  unfold is_immediate at 1. cbn. unfold is_immediate. destruct (statically_immediate (S := Next)), (statically_immediate (S := In)); cbn; try done.
  all: intros ->; done.
Qed.

#[export] Instance let_immediate In A Next B `{Immediate In A, Immediate Next B} : Immediate (let_sender In A Next) B.
Proof.
  intros s st st' v [Hi Hn]%is_immediate_let. cbn. destruct (sent (let_input s) st) as [[st1 a]| |] eqn:Es; [|done..]. ostep.
  destruct (call (let_transformer s) a st1) as [[st2 n]| |] eqn:Ec; [|done..]. ostep. intros Hs.
  apply call_stays in Ec. apply immediate_stays in Es; [|done]. rewrite <- Es, <- Ec. by eapply immediate_stays.
Qed.

(** ** Awaiting *)

(** To await a sender gives the coroutine what the sender sends, once, whether the awaiter suspends it or not; and an awaiter that does
    not suspend it has the value before the event loop turns. *)
Theorem co_await_sends S T X `{Immediate S T} (s : S) (rest : T -> St -> outcome X) st :
  co_await s rest st = (let* (st, v) := sent s st in rest v st) /\
  (await_ready s = true -> forall st' v, await_resume s st = Done (st', v) -> turn st' = turn st).
Proof.
  assert (await_resume s st = sent s st) as Hr.
  { unfold await_resume. rewrite connect_sends. by destruct (sent s st) as [[st' v]| |]. }
  unfold co_await. destruct (await_ready s) eqn:Hi; rewrite ?Hr; (split; [try done|]).
  - intros _ st' v Hs. by eapply immediate_stays.
  - apply connect_sends.
  - done.
Qed.

(** ** Equivalence *)

(** Two senders that no receiver tells apart. *)
Definition same_sender {S1 S2 T} `{Nanosender S1 T, Nanosender S2 T} (s1 : S1) (s2 : S2) : Prop := forall X (r : receiver T X) st,
  connect s1 r st = connect s2 r st.

Lemma same_sent {S1 S2 T} `{Sends S1 T, Sends S2 T} (s1 : S1) (s2 : S2) : (forall st, sent s1 st = sent s2 st) -> same_sender s1 s2.
Proof. intros Hs X r st. by rewrite !connect_sends, Hs. Qed.

(** The transformers of a chain, one after the other. *)
Program Definition after {A B C} (f : callable A B) (g : callable B C) : callable A C :=
  mk_callable A C (fun a st => let* (st, b) := call f a st in call g b st) _.
Next Obligation.
  intros A B C f g a st st' c. cbn. destruct (call f a st) as [[st1 b]| |] eqn:Ef; [|done..]. ostep. intros Eg.
  apply call_stays in Ef, Eg. congruence.
Qed.

Program Definition let_after {A N1 B N2} (f : callable A N1) (g : callable B N2) : callable A (let_sender N1 B N2) :=
  mk_callable A (let_sender N1 B N2) (fun a st => let* (st, n) := call f a st in Done (st, mk_let n g)) _.
Next Obligation.
  intros A N1 B N2 f g a st st' c. cbn. destruct (call f a st) as [[st1 b]| |] eqn:Ef; [|done..]. intros [= <- _]. by apply call_stays in Ef.
Qed.

(** The laws of the composition: [let] of a [just] is what the transformer gives, [let] with [just] is the sender, two [let]s in a row are a
    [let] of a [let], and [then] is [let] with [just]; none of them can be told apart by a receiver. *)
Theorem sender_laws S A N1 B N2 C `{Sends S A, Sends N1 B, Sends N2 C} (s : S) (x : A) (f : callable A N1) (g : callable B N2) (h : callable A B) :
  (forall X (r : receiver B X) st, connect (mk_let (mk_just x) f) r st = (let* (st, n) := call f x st in connect n r st)) /\
  same_sender (mk_let s (pure mk_just)) s /\
  same_sender (mk_let (mk_let s f) g) (mk_let s (let_after f g)) /\
  same_sender (mk_then s h) (mk_let s (after h (pure mk_just))) /\
  same_sender (mk_let (mk_then s h) g) (mk_let s (after h g)).
Proof.
  split_and!; [done|..]; apply same_sent; intros st; cbn; destruct (sent s st) as [[st1 a]| |]; try done; ostep; cbn.
  - destruct (call f a st1) as [[st2 n]| |]; try done.
  - by destruct (call h a st1) as [[st2 b]| |].
  - by destruct (call h a st1) as [[st2 b]| |].
Qed.

(** ** Chains of results *)

(** [s | let(result_fmap(f)) | then(result_join)]. *)
Definition chain {S A N B E} (s : S) (f : callable A N) : then_sender (let_sender S (result A E) (result N E)) (result (result B E) E) (result B E) :=
  mk_then (mk_let s (result_fmap f)) (pure result_join).

(** A chain of operations that send results goes on with the value of a success, and sends the error of the first operation that fails
    without the others being made. *)
Theorem chain_sends S A N B E X `{Sends S (result A E), Sends N (result B E)} (s : S) (f : callable A N) (r : receiver (result B E) X) st :
  connect (chain s f) r st =
    (let* (st, a) := sent s st in
     match a with
     | success a => let* (st, n) := call f a st in connect n r st
     | error e => r (error e) st
     end).
Proof.
  unfold chain. rewrite connect_sends. cbn. destruct (sent s st) as [[st1 [a|e]]| |]; try done. ostep. cbn.
  destruct (call f a st1) as [[st2 n]| |]; try done. ostep. rewrite connect_sends. by destruct (sent n st2) as [[st3 [b|e]]| |].
Qed.

End Nano.

Arguments mk_just {T} just_value.
Arguments mk_let {St turn In A Next} let_input let_transformer.

(** ** A concrete program *)

(** The state is the number of turns. *)
Definition next_number : callable (fun st : nat => st) nat (just nat) := pure (fun st => st) (fun x => mk_just (x + 1)%nat).

Lemma co_await_sends_witness :
  is_immediate (mk_let (mk_just 3%nat) next_number) = true /\
  co_await (mk_let (mk_just 3%nat) next_number) (fun v st => Done (v, st)) 5%nat = Done (4, 5)%nat.
Proof.
  split; [done|]. destruct (co_await_sends (fun st : nat => st) _ _ _ (mk_let (mk_just 3%nat) next_number) (fun v st => Done (v, st)) 5%nat) as [E _].
  exact E.
Defined.
