(* ===== verification/Sender.v ===== *)
(** * Operation states of senders ([src/amongoc/nano/])

    What connecting a sender makes ([just.hpp], [then.detail.hpp], [let.detail.hpp], [atop] of [util.hpp]): operation states that hold their
    receivers, receivers that are moved into the operation that a [let] makes when its input arrives, values that are moved out, and an
    operation that waits inside another until the program completes it.  [Nano.v] has what such senders promise to a coroutine; here are the
    objects. *)
From Stdlib Require Import ZArith Lia.
From stdpp Require Import base numbers list.
From S2P Require Import Prelude.
Open Scope outcome_scope.
Open Scope nat_scope.

(** ** Senders, receivers and operations *)

Section Objects.
Context {V : Type}.

(** An input is a sender of the program or of Asio: it is known by a number, and completes later.  A callable of the program is known by a
    number as well; it returns a value ([then]) or a sender ([let]). *)
Inductive sender : Type :=
| input (n : nat)
| just (_value : V)
| then_sender (_input_sender : sender) (f : nat) (_transformer : V -> V)
| let_sender (_input_sender : sender) (f : nat) (_transformer : V -> sender).

(** What the program observes, in order. *)
Inductive event : Type :=
| started (n : nat)
| completed (n : nat) (v : V)
| called (f : nat) (v : V)
| delivered (v : V).

Inductive progress : Type := ready | pending | over.

(** [final] is the receiver of the program.  A value or a receiver that was moved away is [None], and so is the next operation of a [let]
    before its input has arrived. *)
Inductive receiver : Type :=
| final
| atop (_f : receiver) (g : nat) (_g : V -> V)
| let_recv (f : nat) (_transform : V -> sender) (_next_operation : option operation) (_next_recv : option receiver)
with operation : Type :=
| input_operation (n : nat) (p : progress) (_receiver : receiver)
| just_operation (_value : option V) (_receiver : receiver)
| let_operation (_input_operation : operation).

(** The members [connect]; [let_sender::op] connects its input to the intermediate receiver. *)
Fixpoint connect (s : sender) (recv : receiver) : operation :=
  match s with
  | input n => input_operation n ready recv
  | just v => just_operation (Some v) recv
  | then_sender s f tr => connect s (atop recv f tr)
  | let_sender s f tr => let_operation (connect s (let_recv f tr None (Some recv)))
  end.

Abbreviation log := (list event).

(** [operator()] of the receivers, and [start()] of the operations; a receiver is invoked where it is.  The fuel counts the calls; a run that
    needs more is [Undef]. *)
Fixpoint invoke (fuel : nat) (r : receiver) (v : V) {struct fuel} : outcome (receiver * log) :=
  match fuel with
  | O => Undef
  | S fuel =>
      match r with
      | final => Done (final, [delivered v])
      | atop r g fn =>
          let* (r, es) := invoke fuel r (fn v) in
          Done (atop r g fn, called g v :: es)
      | let_recv f tr _next_operation _next_recv =>
          (* assert(not _next_operation.has_value()) *)
          assert! match _next_operation with Some _ => false | None => true end in
          let next_sender := tr v in
          match _next_recv with
          | None => Undef
          | Some next_recv =>
              let* (o, es) := start fuel (connect next_sender next_recv) in
              Done (let_recv f tr (Some o) None, called f v :: es)
          end
      end
  end
with start (fuel : nat) (o : operation) {struct fuel} : outcome (operation * log) :=
  match fuel with
  | O => Undef
  | S fuel =>
      match o with
      | input_operation n ready r => Done (input_operation n pending r, [started n])
      | input_operation _ _ _ => Undef
      | just_operation (Some v) r =>
          let* (r, es) := invoke fuel r v in
          Done (just_operation None r, es)
      | just_operation None _ => Undef
      | let_operation o =>
          let* (o, es) := start fuel o in
          Done (let_operation o, es)
      end
  end.

(** The inputs that have been started and have not completed, wherever they are. *)
Fixpoint waiting (o : operation) : list nat :=
  match o with
  | input_operation n p r => match p with pending => [n] | _ => [] end ++ waiting_recv r
  | just_operation _ r => waiting_recv r
  | let_operation o => waiting o
  end
with waiting_recv (r : receiver) : list nat :=
  match r with
  | final => []
  | atop r _ _ => waiting_recv r
  | let_recv _ _ o r =>
      match o with Some o => waiting o | None => [] end ++ match r with Some r => waiting_recv r | None => [] end
  end.

(** Input [n] completes with [v]: it invokes the receiver that its operation holds.  It is an error of the program to complete an input that is
    not waiting. *)
Fixpoint complete (fuel : nat) (n : nat) (v : V) (o : operation) {struct o} : outcome (operation * log) :=
  match o with
  | input_operation m pending r =>
      if decide (m = n) then
        let* (r, es) := invoke fuel r v in
        Done (input_operation m over r, completed m v :: es)
      else Undef
  | input_operation m over r => let* (r, es) := complete_recv fuel n v r in Done (input_operation m over r, es)
  | input_operation _ ready _ => Undef
  | just_operation w r => let* (r, es) := complete_recv fuel n v r in Done (just_operation w r, es)
  | let_operation o => let* (o, es) := complete fuel n v o in Done (let_operation o, es)
  end
with complete_recv (fuel : nat) (n : nat) (v : V) (r : receiver) {struct r} : outcome (receiver * log) :=
  match r with
  | final => Undef
  | atop r g fn => let* (r, es) := complete_recv fuel n v r in Done (atop r g fn, es)
  | let_recv f tr (Some o) next_recv => let* (o, es) := complete fuel n v o in Done (let_recv f tr (Some o) next_recv, es)
  | let_recv _ _ None _ => Undef
  end.

(** The program completes the input that waits with the next of the values, as long as one waits. *)
Fixpoint drive (fuel : nat) (o : operation) (vs : list V) : outcome (operation * log * list V) :=
  match waiting o, vs with
  | n :: _, v :: vs =>
      let* (o, es) := complete fuel n v o in
      let* (o, es', rest) := drive fuel o vs in
      Done (o, es ++ es', rest)
  | _, _ => Done (o, [], vs)
  end.

Definition run (fuel : nat) (s : sender) (vs : list V) : outcome (operation * log * list V) :=
  let* (o, es) := start fuel (connect s final) in
  let* (o, es', rest) := drive fuel o vs in
  Done (o, es ++ es', rest).

(** ** What a sender means *)

(** A sender, read as a program: the events, and either the input that it still waits for or the value that it sends, with the
    completions that it has not needed. *)
Fixpoint direct (s : sender) (vs : list V) : log * (nat + V * list V) :=
  match s with
  | input n =>
      match vs with
      | [] => ([started n], inl n)
      | v :: vs => ([started n; completed n v], inr (v, vs))
      end
  | just v => ([], inr (v, vs))
  | then_sender s f tr =>
      match direct s vs with
      | (es, inr (v, vs)) => (es ++ [called f v], inr (tr v, vs))
      | waits => waits
      end
  | let_sender s f tr =>
      match direct s vs with
      | (es, inr (v, vs)) => let (es', r) := direct (tr v) vs in (es ++ called f v :: es', r)
      | waits => waits
      end
  end.

(** The same as a protocol: the events up to the next input, and how it goes on with its value. *)
Inductive behaviour : Type :=
| stop
| emit (e : event) (b : behaviour)
| await (n : nat) (k : V -> behaviour).

Fixpoint meaning (s : sender) (k : V -> behaviour) : behaviour :=
  match s with
  | input n => emit (started n) (await n (fun v => emit (completed n v) (k v)))
  | just v => k v
  | then_sender s f tr => meaning s (fun v => emit (called f v) (k (tr v)))
  | let_sender s f tr => meaning s (fun v => emit (called f v) (meaning (tr v) k))
  end.

Fixpoint follow (b : behaviour) (vs : list V) : log * (option nat * list V) :=
  match b with
  | stop => ([], (None, vs))
  | emit e b => let (es, r) := follow b vs in (e :: es, r)
  | await n k => match vs with [] => ([], (Some n, [])) | v :: vs => follow (k v) vs end
  end.

Definition prepend (es : log) (r : log * (option nat * list V)) : log * (option nat * list V) := (es ++ r.1, r.2).

Lemma prepend_app es es' r : prepend (es ++ es') r = prepend es (prepend es' r).
Proof. unfold prepend. cbn. by rewrite <- app_assoc. Qed.

Lemma follow_emit e b vs : follow (emit e b) vs = prepend [e] (follow b vs).
Proof. cbn. by destruct (follow b vs). Qed.

Lemma follow_meaning s : forall k vs, follow (meaning s k) vs =
  match direct s vs with
  | (es, inr (v, vs)) => prepend es (follow (k v) vs)
  | (es, inl n) => (es, (Some n, []))
  end.
Proof.
  induction s as [n|v|s IH f tr|s IH f tr IHt]; intros k vs.
  - destruct vs as [|v vs]; [done|]. cbn. by destruct (follow (k v) vs).
  - cbn. by destruct (follow (k v) vs).
  - cbn. rewrite IH. destruct (direct s vs) as [es [n|[v vs']]]; [done|]. by rewrite follow_emit, <- prepend_app.
  - cbn. rewrite IH. destruct (direct s vs) as [es [n|[v vs']]]; [done|]. rewrite follow_emit, IHt.
    destruct (direct (tr v) vs') as [es' [n|[w vs2]]]; unfold prepend; cbn; by rewrite <- ?app_assoc.
Qed.

(** ** Objects that behave *)

(** What operations and receivers have in common: inputs that wait inside, and how one completes. *)
Class Object (X : Type) : Type := { inside : X -> list nat; completing : nat -> nat -> V -> X -> outcome (X * log) }.
#[export] Instance operation_object : Object operation := {| inside := waiting; completing := complete |}.
#[export] Instance receiver_object : Object receiver := {| inside := waiting_recv; completing := complete_recv |}.

(** A computation that, with enough fuel, returns what satisfies [P]. *)
Definition settles {A} (c : nat -> outcome A) (P : A -> Prop) : Prop := exists a fuel0, (forall fuel, fuel0 <= fuel -> c fuel = Done a) /\ P a.

Lemma settles_map {A B} (c : nat -> outcome A) (c' : nat -> outcome B) (P : A -> Prop) (Q : B -> Prop) (g : A -> B) :
  settles c P -> (forall fuel a, c fuel = Done a -> c' (S fuel) = Done (g a)) -> (forall a, P a -> Q (g a)) -> settles c' Q.
Proof.
  intros (a & n & Hn & HP) Hc HQ. exists (g a), (S n). split; [|auto]. intros [|fuel] Hf; [lia|]. apply Hc, Hn. lia.
Qed.

(** [es] has happened, and [x] is what remains of [b]. *)
Fixpoint agrees {X} `{Object X} (b : behaviour) (es : log) (x : X) : Prop :=
  match b with
  | stop => es = [] /\ inside x = []
  | emit e b => exists es', es = e :: es' /\ agrees b es' x
  | await n k => es = [] /\ inside x = [n] /\ forall v, settles (fun fuel => completing fuel n v x) (fun '(x, es) => agrees (k v) es x)
  end.

(** An object with nothing of its own that waits agrees with what is inside it. *)
Lemma agrees_within {X Y} `{Object X, Object Y} (w : X -> Y) : (forall x, inside (w x) = inside x) ->
  (forall fuel n v x, completing fuel n v (w x) = (let* (x, es) := completing fuel n v x in Done (w x, es))) ->
  forall b es x, agrees b es x -> agrees b es (w x).
Proof.
  intros Hi Hc. induction b as [|e b IH|n k IH]; cbn; intros es x.
  - by rewrite Hi.
  - intros (es' & -> & Ha). eauto.
  - rewrite Hi. intros (-> & Hx & Hk). split_and!; [done..|]. intros v. destruct (Hk v) as ([x' es] & m & Hm & Ha).
    exists (w x', es), m. split; [|by apply IH]. intros fuel Hf. rewrite Hc, (Hm fuel Hf). done.
Qed.

Lemma agrees_over n b es r : agrees b es r -> agrees b es (input_operation n over r).
Proof. by apply (agrees_within (input_operation n over)). Qed.
Lemma agrees_just w b es r : agrees b es r -> agrees b es (just_operation w r).
Proof. by apply (agrees_within (just_operation w)). Qed.
Lemma agrees_let b es o : agrees b es o -> agrees b es (let_operation o).
Proof. by apply (agrees_within let_operation). Qed.
Lemma agrees_atop g fn b es r : agrees b es r -> agrees b es (atop r g fn).
Proof. by apply (agrees_within (fun r => atop r g fn)). Qed.
Lemma agrees_next f tr b es o : agrees b es o -> agrees b es (let_recv f tr (Some o) None).
Proof. apply (agrees_within (fun o => let_recv f tr (Some o) None)); [|done]. intros x. cbn. by rewrite app_nil_r. Qed.

(** A receiver that goes on as [k], and an operation that goes on as [b]. *)
Definition receives (r : receiver) (k : V -> behaviour) : Prop :=
  waiting_recv r = [] /\ forall v, settles (fun fuel => invoke fuel r v) (fun '(r, es) => agrees (k v) es r).
Definition starts (o : operation) (b : behaviour) : Prop := settles (fun fuel => start fuel o) (fun '(o, es) => agrees b es o).

Lemma final_receives : receives final (fun v => emit (delivered v) stop).
Proof. split; [done|]. intros v. exists (final, [delivered v]), 1. split; [|by eexists]. intros [|fuel] Hf; [lia|done]. Qed.

Lemma atop_receives r g fn k : receives r k -> receives (atop r g fn) (fun v => emit (called g v) (k (fn v))).
Proof.
  intros [Hw Hr]. split; [done|]. intros v. eapply (settles_map _ _ _ _ (fun '(r, es) => (atop r g fn, called g v :: es)) (Hr (fn v))).
  - intros fuel [r' es] E. cbn. by rewrite E.
  - intros [r' es] Ha. eexists. split; [done|]. by apply agrees_atop.
Qed.

(** The receiver of a [let]: what the transformer gives is connected to the receiver that follows, and is started. *)
Lemma let_receives r f tr (k : V -> behaviour) : waiting_recv r = [] -> (forall v, starts (connect (tr v) r) (meaning (tr v) k)) ->
  receives (let_recv f tr None (Some r)) (fun v => emit (called f v) (meaning (tr v) k)).
Proof.
  intros Hw Hs. split; [done|]. intros v.
  eapply (settles_map _ _ _ _ (fun '(o, es) => (let_recv f tr (Some o) None, called f v :: es)) (Hs v)).
  - intros fuel [o es] E. cbn. by rewrite E.
  - intros [o es] Ha. eexists. split; [done|]. by apply agrees_next.
Qed.

(** Connected to any receiver, a sender that is started does what it means. *)
Lemma connect_starts s : forall r k, receives r k -> starts (connect s r) (meaning s k).
Proof.
  induction s as [n|v|s IH f tr|s IH f tr IHt]; intros r k Hr; cbn.
  - exists (input_operation n pending r, [started n]), 1. split; [intros [|fuel] Hf; [lia|done]|]. destruct Hr as [Hw Hr].
    eexists. split; [done|]. cbn. rewrite Hw. split_and!; [done..|]. intros v.
    destruct (Hr v) as ([r' es] & m & Hm & Ha). exists (input_operation n over r', completed n v :: es), m.
    split; [intros fuel Hf; by rewrite decide_True, (Hm fuel Hf)|]. eexists. split; [done|]. by apply agrees_over.
  - eapply (settles_map _ _ _ _ (fun '(r, es) => (just_operation None r, es)) (proj2 Hr v)).
    + intros fuel [r' es] E. cbn. by rewrite E.
    + intros [r' es] Ha. by apply agrees_just.
  - by apply IH, atop_receives.
  - eapply (settles_map _ _ _ _ (fun '(o, es) => (let_operation o, es))).
    + apply IH, let_receives; [apply Hr|]. intros v. apply IHt, Hr.
    + intros fuel [o es] E. cbn. by rewrite E.
    + intros [o es] Ha. by apply agrees_let.
Qed.

(** ** Runs *)

Definition option_list {A} (o : option A) : list A := match o with Some a => [a] | None => [] end.

(** To complete what waits, value after value, is to follow the behaviour. *)
Lemma drive_follow : forall vs b es o, agrees b es o ->
  settles (fun fuel => drive fuel o vs) (fun '(o', es', rest) =>
    follow b vs = (es ++ es', (head (waiting o'), rest)) /\ waiting o' = option_list (head (waiting o'))).
Proof.
  intros vs b. revert vs. induction b as [|e b IH|n k IH]; intros vs es o Ha; cbn in Ha.
  - destruct Ha as [-> Hw]. exists (o, [], vs), 0. rewrite !Hw. split; [|done]. intros fuel _. by destruct vs; cbn; rewrite Hw.
  - destruct Ha as (es' & -> & Ha). destruct (IH vs _ _ Ha) as ([[o' es2] rest] & m & Hm & Hf & Hw). exists (o', es2, rest), m.
    split_and!; [done| |done]. cbn. by rewrite Hf.
  - destruct Ha as (-> & Hw & Hk). destruct vs as [|v vs].
    { exists (o, [], []), 0. rewrite !Hw. split; [|done]. intros fuel _. cbn. by rewrite Hw. }
    destruct (Hk v) as ([o1 es1] & m1 & Hm1 & Ha). destruct (IH v vs _ _ Ha) as ([[o' es2] rest] & m & Hm & Hf & Hw').
    exists (o', es1 ++ es2, rest), (m1 `max` m). split_and!; [|done..]. intros fuel Hfuel. cbn. rewrite Hw. cbn in Hm1.
    rewrite (Hm1 fuel) by lia. ostep. by rewrite (Hm fuel) by lia.
Qed.

(** C34. A sender composed of inputs, [just], [then] and [let] does, once it is connected and started, what it means when it is read as a program
    ([direct]).  After any number of completions, what has happened is what that program does with these values: which inputs were
    started and when, which callables were called and with what, and the delivery to the receiver of the program.  The value is delivered once,
    and then no input waits; until then exactly one does, the one that the program needs next.  No value or receiver that was moved away is used, no
    operation is started twice, and the assertion that a [let] is invoked once holds. *)
Theorem sender_runs (s : sender) (vs : list V) : exists o fuel0, forall fuel, fuel0 <= fuel ->
  match direct s vs with
  | (es, inr (v, rest)) => run fuel s vs = Done (o, es ++ [delivered v], rest) /\ waiting o = []
  | (es, inl n) => run fuel s vs = Done (o, es, []) /\ waiting o = [n]
  end.
Proof.
  destruct (connect_starts s final _ final_receives) as ([o1 es1] & m1 & Hm1 & Ha).
  destruct (drive_follow vs _ _ _ Ha) as ([[o es2] rest] & m & Hm & Hf & Hw). exists o, (m1 `max` m). intros fuel Hfuel.
  assert (run fuel s vs = Done (o, es1 ++ es2, rest)) as Hrun.
  { unfold run. rewrite (Hm1 fuel) by lia. ostep. by rewrite (Hm fuel) by lia. }
  rewrite Hrun. rewrite follow_meaning in Hf. destruct (direct s vs) as [es [n|[v rest']]]; [|unfold prepend in Hf; cbn in Hf].
  all: injection Hf as -> E ->; by rewrite <- E in Hw.
Qed.

End Objects.

Arguments sender : clear implicits.
Arguments event : clear implicits.
Arguments receiver : clear implicits.
Arguments operation : clear implicits.

(** ** Concrete runs *)

(** [input 0 | let(x -> input 1 | then(y -> x + y)) | then(+ 10)]. *)
Definition sum_of_inputs : sender nat :=
  then_sender (let_sender (input 0) 0 (fun x => then_sender (input 1) 1 (fun y => x + y))) 2 (fun z => z + 10).

Example sum_runs : exists o, run 20 sum_of_inputs [3; 4; 9] =
  Done (o, [started 0; completed 0 3; called 0 3; started 1; completed 1 4; called 1 4; called 2 7; delivered 17], [9]) /\ waiting o = [].
Proof. eexists. by split; [reflexivity|]. Qed.

(** After one completion the second input waits, inside the receiver of the first. *)
Example sum_waits : exists o, run 20 sum_of_inputs [3] = Done (o, [started 0; completed 0 3; called 0 3; started 1], []) /\ waiting o = [1].
Proof. eexists. by split; [reflexivity|]. Qed.

(** An input that invokes its receiver twice stops the process at the assertion of [let_recv]. *)
Example second_invocation : exists r es, invoke 20 (let_recv 0 (fun x : nat => just (x + 1)) None (Some final)) 3 = Done (r, es) /\
  invoke 20 r 4 = Abort.
Proof. do 2 eexists. by split; [reflexivity|]. Qed.
