(* ===== verification/Loop.v ===== *)
(** * The default event loop ([src/amongoc/default_loop.cpp], [tcp_conn.hpp])

    The loop starts operations of Asio and adapts their completions to handlers; a handler that can be stopped is registered with the
    cancellation signal of its operation.  Signals, timers and resolvers come from the pools of [Pool.v].  Asio is the environment: it
    posts, completes and cancels.  What happens when memory is denied is left open by the source, and not modelled. *)
From Stdlib Require Import ZArith Lia.
From stdpp Require Import base numbers list.
From S2P Require Import Prelude.
From S2P Require Import Status.
From S2P Require Import Pool.
Import ObjectPool.
Open Scope Z_scope.
Open Scope outcome_scope.

Abbreviation object := positive.
Abbreviation handler := nat.

(** What a box holds. *)
Inductive value : Type := nil_value | size_value (n : Z) | results_value (r : Z) | socket_value (s : object) | user_value (v : Z).

(** What Asio tells a completion handler beside the error. *)
Inductive asio_result : Type := no_result | transferred (n : Z) | resolved (r : Z) | endpoint.

(** The transformers of [adapt_handler]. *)
Inductive transformer : Type := constant (v : value) | as_box | connected (sock : object).

Definition transform (tr : transformer) (res : asio_result) : value :=
  match tr, res with
  | constant v, _ => v
  | connected s, _ => socket_value s
  | as_box, transferred n => size_value n
  | as_box, resolved r => results_value r
  | as_box, _ => nil_value
  end.

(** The ticket that [asio::consign] keeps with the handler. *)
Inductive consigned : Type := nothing | timer (t : object) | resolver (r : object).

(** [adapt_handler]; [_stop_cookie] tells that it is not nil, [cancelled] that its slot was signalled. *)
Record adapter : Type := mk_adapter {
  _handler : handler;
  _transform : transformer;
  _signal : object;
  _stop_cookie : bool;
  kept : consigned;
  cancelled : bool }.

(** [default_loop]: its pools and, of its [io_context], the functions that were posted, the operations that are pending, the adapters
    that are completing; then the objects made so far, the stop registrations of handlers, and what handlers were completed with. *)
Record default_loop : Type := mk_loop {
  _cancel_signals : object_pool object;
  _resolvers : object_pool object;
  _timers : object_pool object;
  posted : list (handler * amongoc_status * value);
  pending : list adapter;
  completing : list adapter;
  made : object;
  registrations : list (handler * object);
  completed : list (handler * amongoc_status * value) }.

Section Loop.
Context (X : externals) (stop_possible : handler -> bool).

Definition factory (n : object) : object * object := (Pos.succ n, n).

Definition new_loop : default_loop := mk_loop (new_pool 1024) (new_pool 1024) (new_pool 1024) [] [] [] 1 [] [].

(** [amongoc_default_loop_init_with_allocator]: when the region of the box is denied the box is destroyed through a null pointer, as
    [Box.v] shows of [make]; what the constructor of the loop is denied gives a status. *)
Definition amongoc_default_loop_init_with_allocator (granted constructed : bool) : outcome (amongoc_status * option default_loop) :=
  if negb granted then Undef
  else if constructed then Done (amongoc_okay, Some new_loop)
  else Done (mk_status (known_category generic) (ENOMEM X), None).

(** ** Operations *)

(** An operation with an adapter for its completion: the signal is checked out, and emitted by the stop of the handler. *)
Definition initiate (l : default_loop) (h : handler) (tr : transformer) (k : consigned) : default_loop :=
  let '(signals, made, sig) := checkout factory (_cancel_signals l) (made l) in
  mk_loop signals (_resolvers l) (_timers l) (posted l) (pending l ++ [mk_adapter h tr sig (stop_possible h) k false]) (completing l) made
    (registrations l ++ if stop_possible h then [(h, sig)] else []) (completed l).

(** A handler that was moved from has no table. *)
Definition call_soon (l : default_loop) (st : amongoc_status) (res : value) (h : option handler) : outcome default_loop :=
  match h with
  | Some h => Done (mk_loop (_cancel_signals l) (_resolvers l) (_timers l) (posted l ++ [(h, st, res)]) (pending l) (completing l) (made l)
                      (registrations l) (completed l))
  | None => Undef
  end.

(** [expires] is the error that [expires_after] throws; the handler and the value were moved from before. *)
Definition call_later (l : default_loop) (expires : option error_code) (value : value) (h : handler) : outcome default_loop :=
  let '(timers, made, t) := checkout factory (_timers l) (made l) in
  let l := mk_loop (_cancel_signals l) (_resolvers l) timers (posted l) (pending l) (completing l) made (registrations l) (completed l) in
  match expires with
  | Some ec => call_soon l (from X ec) nil_value None
  | None => Done (initiate l h (constant value) (timer t))
  end.

Definition getaddrinfo (l : default_loop) (h : handler) : default_loop :=
  let '(resolvers, made, r) := checkout factory (_resolvers l) (made l) in
  let l := mk_loop (_cancel_signals l) resolvers (_timers l) (posted l) (pending l) (completing l) made (registrations l) (completed l) in
  initiate l h as_box (resolver r).

Definition tcp_connect (l : default_loop) (h : handler) : default_loop :=
  let (made, sock) := factory (made l) in
  let l := mk_loop (_cancel_signals l) (_resolvers l) (_timers l) (posted l) (pending l) (completing l) made (registrations l) (completed l) in
  initiate l h (connected sock) nothing.

(** [copy_to_capacity] into a [static_vector] of 16. *)
Definition copy_to_capacity {A} (capacity : nat) (l : list A) : list A := take capacity l.
Definition buf_vec {A} (bufs : list A) : list A := copy_to_capacity 16 bufs.

Definition tcp_write_some (l : default_loop) (h : handler) : default_loop := initiate l h as_box nothing.
Definition tcp_read_some (l : default_loop) (h : handler) : default_loop := initiate l h as_box nothing.

(** ** Completions *)

Definition unregister (l : list (handler * object)) (h : handler) (sig : object) : list (handler * object) :=
  filter (fun r => r <> (h, sig)) l.

(** [adapt_handler::operator()]: the registration is destroyed, then the handler is completed. *)
Definition adapter_call (l : default_loop) (a : adapter) (ec : error_code) (res : asio_result) : default_loop :=
  mk_loop (_cancel_signals l) (_resolvers l) (_timers l) (posted l) (pending l) (completing l ++ [a]) (made l)
    (if _stop_cookie a then unregister (registrations l) (_handler a) (_signal a) else registrations l)
    (completed l ++ [(_handler a, from X ec, transform (_transform a) res)]).

Definition with_pending (l : default_loop) (p : list adapter) : default_loop :=
  mk_loop (_cancel_signals l) (_resolvers l) (_timers l) (posted l) p (completing l) (made l) (registrations l) (completed l).

(** Asio completes the [i]-th pending operation. *)
Definition asio_complete (l : default_loop) (i : nat) (ec : error_code) (res : asio_result) : default_loop :=
  match pending l !! i with
  | Some a => adapter_call (with_pending l (delete i (pending l))) a ec res
  | None => l
  end.

(** The completion returns: the adapter is destroyed, and the tickets are returned to their pools. *)
Definition adapter_destroyed (l : default_loop) (i : nat) : default_loop :=
  match completing l !! i with
  | Some a =>
    mk_loop (destroy_ticket (_cancel_signals l) (Some (_signal a))).1
      (destroy_ticket (_resolvers l) (match kept a with resolver r => Some r | _ => None end)).1
      (destroy_ticket (_timers l) (match kept a with timer t => Some t | _ => None end)).1
      (posted l) (pending l) (delete i (completing l)) (made l) (registrations l) (completed l)
  | None => l
  end.

(** What was posted first runs. *)
Definition run_posted (l : default_loop) : default_loop :=
  match posted l with
  | p :: rest => mk_loop (_cancel_signals l) (_resolvers l) (_timers l) rest (pending l) (completing l) (made l) (registrations l) (completed l ++ [p])
  | [] => l
  end.

(** [cancellation_signal::emit]: the operation whose slot it is is cancelled. *)
Definition emit (sig : object) (l : list adapter) : list adapter :=
  map (fun a => if decide (_signal a = sig) then mk_adapter (_handler a) (_transform a) (_signal a) (_stop_cookie a) (kept a) true else a) l.

(** A stop is requested of a handler: its registered functions are called. *)
Definition request_stop (l : default_loop) (h : handler) : default_loop :=
  with_pending l (fold_left (fun p r => if decide (r.1 = h) then emit r.2 p else p) (registrations l) (pending l)).

(** [amongoc_default_loop_destroy]: the pools are destroyed before the [io_context], whose operations then return their tickets. *)
Definition amongoc_default_loop_destroy (l : default_loop) : outcome (list handler) :=
  match pending l ++ completing l with
  | [] => Done (map (fun p => p.1.1) (posted l))
  | _ :: _ => Undef
  end.

(** ** TCP connections *)

(** [transfer_completer]: the value is taken for a size. *)
Definition transfer_completer (st : amongoc_status) (value : value) : outcome (error_code * Z) :=
  match value with
  | size_value n => Done (as_error_code st, n)
  | _ => Undef
  end.

(** ** Users *)

(** What the program and Asio do. *)
Inductive action : Type :=
| soon (st : amongoc_status) (res : value) (h : handler)
| later (res : value) (h : handler)
| resolve (h : handler)
| connect (h : handler)
| transfer (h : handler)
| post_runs
| completes (i : nat) (ec : error_code) (res : asio_result)
| returns (i : nat)
| stops (h : handler).

Definition act (l : default_loop) (a : action) : outcome default_loop :=
  match a with
  | soon st res h => call_soon l st res (Some h)
  | later res h => call_later l None res h
  | resolve h => Done (getaddrinfo l h)
  | connect h => Done (tcp_connect l h)
  | transfer h => Done (tcp_read_some l h)
  | post_runs => Done (run_posted l)
  | completes i ec res => Done (asio_complete l i ec res)
  | returns i => Done (adapter_destroyed l i)
  | stops h => Done (request_stop l h)
  end.

Fixpoint act_all (l : default_loop) (actions : list action) : outcome default_loop :=
  match actions with [] => Done l | a :: actions => let* l := act l a in act_all l actions end.

(** The handlers that the program gives to the loop. *)
Definition given (a : action) : list handler :=
  match a with soon _ _ h | later _ h | resolve h | connect h | transfer h => [h] | _ => [] end.

(** ** Tickets *)

(** What the adapters hold, by [sel], and what lies in the pool are different objects, made before [made]. *)
Definition exclusive (made : object) (sel : adapter -> option object) (pool : object_pool object) (ads : list adapter) : Prop :=
  NoDup (omap sel ads ++ _objects pool) /\ Forall (fun o => (o < made)%positive) (omap sel ads ++ _objects pool).

Lemma exclusive_perm m sel pool ads ads' : ads ≡ₚ ads' -> exclusive m sel pool ads -> exclusive m sel pool ads'.
Proof. intros Hp [Hn Hf]. unfold exclusive. rewrite <- Hp. done. Qed.

Lemma exclusive_made m m' sel pool ads : (m <= m')%positive -> exclusive m sel pool ads -> exclusive m' sel pool ads.
Proof. intros Hm [Hn Hf]. split; [done|]. eapply Forall_impl; [exact Hf|]. cbn. intros; lia. Qed.

Lemma exclusive_more m sel pool ads a : sel a = None -> exclusive m sel pool ads -> exclusive m sel pool (a :: ads).
Proof. intros Hs. unfold exclusive. cbn. by rewrite Hs. Qed.

Lemma exclusive_less m sel pool ads a : sel a = None -> exclusive m sel pool (a :: ads) -> exclusive m sel pool ads.
Proof. intros Hs. unfold exclusive. cbn. by rewrite Hs. Qed.

Lemma exclusive_checkout m sel pool ads a pool' m' x : checkout factory pool m = (pool', m', x) -> sel a = Some x ->
  exclusive m sel pool ads -> (m <= m')%positive /\ exclusive m' sel pool' (a :: ads).
Proof.
  unfold checkout, exclusive. intros Hc Hs [Hn Hf]. cbn. rewrite Hs. destruct (_objects pool) as [|o rest] eqn:Eo; cbn in Hc; injection Hc as <- <- <-.
  - split; [lia|]. rewrite Eo, app_nil_r in *. rewrite Forall_forall in Hf. split.
    + apply NoDup_cons. split; [|done]. intros Hx%Hf. lia.
    + apply Forall_cons. split; [lia|]. apply Forall_forall. intros y Hy%Hf. lia.
  - split; [lia|]. cbn [_objects app]. rewrite (Permutation_middle (omap sel ads)). done.
Qed.

Lemma exclusive_return m sel pool ads a x : sel a = Some x -> exclusive m sel pool (a :: ads) ->
  exclusive m sel (destroy_ticket pool (Some x)).1 ads.
Proof.
  unfold exclusive, destroy_ticket, return_. cbn. intros ->. intros [Hn Hf]. case_match; cbn [fst _objects].
  - by rewrite <- Permutation_middle.
  - apply NoDup_cons in Hn as [_ Hn]. by apply Forall_cons in Hf as [_ Hf].
Qed.

Definition signal_of (a : adapter) : option object := Some (_signal a).
Definition timer_of (a : adapter) : option object := match kept a with timer t => Some t | _ => None end.
Definition resolver_of (a : adapter) : option object := match kept a with resolver r => Some r | _ => None end.

(** The registration of an operation. *)
Definition registration (a : adapter) : option (handler * object) := if _stop_cookie a then Some (_handler a, _signal a) else None.

(** Every handler that was given is posted, pending or was completed, once; signals, timers and resolvers belong to one operation or
    lie in their pool; the registrations are those of the pending operations. *)
Record loop_ok (l : default_loop) (handlers : list handler) : Prop := {
  lk_handlers : handlers ≡ₚ map (fun p => p.1.1) (completed l) ++ map _handler (pending l) ++ map (fun p => p.1.1) (posted l);
  lk_signals : exclusive (made l) signal_of (_cancel_signals l) (pending l ++ completing l);
  lk_timers : exclusive (made l) timer_of (_timers l) (pending l ++ completing l);
  lk_resolvers : exclusive (made l) resolver_of (_resolvers l) (pending l ++ completing l);
  lk_registrations : registrations l ≡ₚ omap registration (pending l) }.

Lemma new_loop_ok : loop_ok new_loop [].
Proof. split; try done; (split; [apply NoDup_nil_2|by apply Forall_nil]). Qed.

Lemma pending_snoc (p c : list adapter) a : a :: p ++ c ≡ₚ (p ++ [a]) ++ c.
Proof. rewrite <- app_assoc. apply Permutation_middle. Qed.

(** An operation whose tickets are checked out. *)
Lemma initiate_ok l hs h tr k timers resolvers m :
  loop_ok l hs -> (made l <= m)%positive ->
  (forall a, kept a = k -> exclusive m timer_of timers (a :: pending l ++ completing l)) ->
  (forall a, kept a = k -> exclusive m resolver_of resolvers (a :: pending l ++ completing l)) ->
  loop_ok (initiate (mk_loop (_cancel_signals l) resolvers timers (posted l) (pending l) (completing l) m (registrations l) (completed l)) h tr k) (hs ++ [h]).
Proof.
  intros [Hh Hs Ht Hr Hg] Hm Htk Hrk. unfold initiate. cbn [_cancel_signals Loop.made _resolvers _timers posted pending completing registrations completed].
  destruct (checkout factory (_cancel_signals l) m) as [[signals m'] sig] eqn:Ec.
  set (a := mk_adapter h tr sig (stop_possible h) k false).
  destruct (exclusive_checkout m signal_of (_cancel_signals l) (pending l ++ completing l) a _ _ _ Ec eq_refl (exclusive_made _ _ _ _ _ Hm Hs)) as [Hm' Hx].
  split; cbn [_cancel_signals Loop.made _resolvers _timers posted pending completing registrations completed].
  - rewrite Hh, map_app. cbn [map a _handler]. rewrite <- !app_assoc. do 2 f_equiv. apply Permutation_app_comm.
  - eapply exclusive_perm; [apply pending_snoc|exact Hx].
  - eapply exclusive_perm; [apply pending_snoc|]. eapply exclusive_made; [exact Hm'|]. by apply Htk.
  - eapply exclusive_perm; [apply pending_snoc|]. eapply exclusive_made; [exact Hm'|]. by apply Hrk.
  - rewrite omap_app. cbn. unfold registration at 2. cbn [a _stop_cookie _handler _signal]. rewrite Hg. by destruct (stop_possible h).
Qed.

Lemma same_made m sel pool ads a : sel a = None -> exclusive m sel pool ads -> forall m', (m <= m')%positive -> exclusive m' sel pool (a :: ads).
Proof. intros Hs He m' Hm. apply exclusive_more; [done|]. by eapply exclusive_made. Qed.

Lemma later_ok l hs res h : loop_ok l hs -> exists l', call_later l None res h = Done l' /\ loop_ok l' (hs ++ [h]).
Proof.
  intros Hl. pose proof Hl as [_ _ Ht Hr _]. unfold call_later. destruct (checkout factory (_timers l) (made l)) as [[timers m] t] eqn:Ec. eexists. split; [done|].
  assert (forall a, kept a = timer t -> timer_of a = Some t /\ resolver_of a = None) as Hk by (intros a Hk; unfold timer_of, resolver_of; by rewrite Hk).
  destruct (exclusive_checkout (made l) timer_of (_timers l) (pending l ++ completing l) (mk_adapter h (constant res) t false (timer t) false) _ _ _ Ec eq_refl Ht) as [Hm _].
  apply initiate_ok; [done|done|..]; intros a [Ha Ha']%Hk.
  - by eapply (exclusive_checkout (made l)).
  - by eapply same_made.
Qed.

Lemma getaddrinfo_ok l hs h : loop_ok l hs -> loop_ok (getaddrinfo l h) (hs ++ [h]).
Proof.
  intros Hl. pose proof Hl as [_ _ Ht Hr _]. unfold getaddrinfo. destruct (checkout factory (_resolvers l) (made l)) as [[resolvers m] r] eqn:Ec.
  assert (forall a, kept a = resolver r -> resolver_of a = Some r /\ timer_of a = None) as Hk by (intros a Hk; unfold timer_of, resolver_of; by rewrite Hk).
  destruct (exclusive_checkout (made l) resolver_of (_resolvers l) (pending l ++ completing l) (mk_adapter h as_box r false (resolver r) false) _ _ _ Ec eq_refl Hr) as [Hm _].
  apply initiate_ok; [done|done|..]; intros a [Ha Ha']%Hk.
  - by eapply same_made.
  - by eapply (exclusive_checkout (made l)).
Qed.

(** An operation without a ticket of its own. *)
Lemma plain_ok l hs h tr m : loop_ok l hs -> (made l <= m)%positive ->
  loop_ok (initiate (mk_loop (_cancel_signals l) (_resolvers l) (_timers l) (posted l) (pending l) (completing l) m (registrations l) (completed l)) h tr nothing) (hs ++ [h]).
Proof.
  intros Hl Hm. pose proof Hl as [_ _ Ht Hr _]. apply initiate_ok; [done|done|..]; intros a Ha; (eapply same_made; [|done|done]);
    unfold timer_of, resolver_of; by rewrite Ha.
Qed.

(** The registrations of operations with different signals. *)
Lemma unregister_perm (p : list adapter) (rs : list (handler * object)) a : NoDup (map _signal (a :: p)) -> rs ≡ₚ omap registration (a :: p) ->
  (if _stop_cookie a then unregister rs (_handler a) (_signal a) else rs) ≡ₚ omap registration p.
Proof.
  intros Hn Hr. cbn in Hr. unfold registration at 1 in Hr. destruct (_stop_cookie a); [|done].
  unfold unregister. rewrite Hr, filter_cons_False by auto. cbn in Hn. apply NoDup_cons in Hn as [Hn _]. clear rs Hr.
  induction p as [|b p IH]; [done|]. cbn in *. apply not_elem_of_cons in Hn as [Hb Hn].
  destruct (registration b) as [y|] eqn:Eb; [|by apply IH]. unfold registration in Eb. destruct (_stop_cookie b); [|done]. injection Eb as <-.
  rewrite filter_cons_True by congruence. f_equiv. by apply IH.
Qed.

Lemma omap_signal (p : list adapter) : omap signal_of p = map _signal p.
Proof. induction p as [|a p IH]; [done|]. cbn. by f_equal. Qed.

Lemma complete_ok l hs i ec res : loop_ok l hs -> loop_ok (asio_complete l i ec res) hs.
Proof.
  intros Hl. unfold asio_complete. destruct (pending l !! i) as [a|] eqn:Ei; [|done]. destruct Hl as [Hh Hs Ht Hr Hg].
  pose proof (delete_Permutation _ _ _ Ei) as Hp. set (rest := delete i (pending l)) in *. clearbody rest.
  assert (pending l ++ completing l ≡ₚ rest ++ (completing l ++ [a])) as Hads.
  { rewrite Hp, app_assoc, <- (Permutation_cons_append (_ ++ _)). done. }
  unfold adapter_call. split; cbn [_cancel_signals made _resolvers _timers posted pending completing registrations completed with_pending].
  - rewrite Hh, Hp, map_app. cbn. rewrite <- !app_assoc. done.
  - by eapply exclusive_perm.
  - by eapply exclusive_perm.
  - by eapply exclusive_perm.
  - apply unregister_perm; [|by rewrite <- Hp]. destruct Hs as [Hs _]. rewrite omap_signal, map_app, <- !app_assoc in Hs.
    apply NoDup_app in Hs as (Hs & _ & _). by rewrite <- Hp.
Qed.

Lemma destroyed_ok l hs i : loop_ok l hs -> loop_ok (adapter_destroyed l i) hs.
Proof.
  intros Hl. unfold adapter_destroyed. destruct (completing l !! i) as [a|] eqn:Ei; [|done]. destruct Hl as [Hh Hs Ht Hr Hg].
  pose proof (delete_Permutation _ _ _ Ei) as Hp. set (rest := delete i (completing l)) in *. clearbody rest.
  assert (pending l ++ completing l ≡ₚ a :: pending l ++ rest) as Hads.
  { rewrite Hp. symmetry. apply Permutation_middle. }
  split; cbn [_cancel_signals made _resolvers _timers posted pending completing registrations completed]; [done|..|done].
  - eapply exclusive_return; [done|]. by eapply exclusive_perm.
  - destruct (timer_of a) as [t|] eqn:Et.
    + unfold timer_of in Et. destruct (kept a) eqn:Ek; try done. injection Et as ->. eapply exclusive_return; [unfold timer_of; by rewrite Ek|].
      by eapply exclusive_perm.
    + eapply exclusive_less; [exact Et|]. eapply exclusive_perm; [exact Hads|]. unfold timer_of in Et. by destruct (kept a).
  - destruct (resolver_of a) as [r|] eqn:Et.
    + unfold resolver_of in Et. destruct (kept a) eqn:Ek; try done. injection Et as ->. eapply exclusive_return; [unfold resolver_of; by rewrite Ek|].
      by eapply exclusive_perm.
    + eapply exclusive_less; [exact Et|]. eapply exclusive_perm; [exact Hads|]. unfold resolver_of in Et. by destruct (kept a).
Qed.

(** What a stop changes: which operations are cancelled. *)
Definition cancel (c : adapter -> bool) (p : list adapter) : list adapter :=
  map (fun a => mk_adapter (_handler a) (_transform a) (_signal a) (_stop_cookie a) (kept a) (cancelled a || c a)) p.

Lemma emit_cancel sig p : emit sig p = cancel (fun a => bool_decide (_signal a = sig)) p.
Proof.
  apply map_ext. intros [h tr s ck k c]. cbn. case_decide as Hd; [rewrite bool_decide_true by done; by rewrite orb_true_r|].
  rewrite bool_decide_false by done. by rewrite orb_false_r.
Qed.

Lemma cancel_cancel c d p : cancel d (cancel c p) = cancel (fun a => c a || d (mk_adapter (_handler a) (_transform a) (_signal a) (_stop_cookie a) (kept a) (cancelled a || c a))) p.
Proof. unfold cancel. rewrite map_map. apply map_ext. intros a. cbn. by rewrite orb_assoc. Qed.

Lemma stop_cancel (h : handler) (rs : list (handler * object)) : forall p : list adapter, fold_left (fun p r => if decide (r.1 = h) then emit r.2 p else p) rs p = cancel (fun a => bool_decide ((h, _signal a) ∈ rs)) p.
Proof.
  induction rs as [|[h' s] rs IH]; intros p; cbn [fold_left].
  - unfold cancel. symmetry. rewrite <- (map_id p) at 2. apply map_ext. intros [h0 tr s ck k c]. cbn. rewrite bool_decide_false by apply not_elem_of_nil.
    by rewrite orb_false_r.
  - cbn [fst snd]. rewrite IH. case_decide as Hh.
    + subst h'. rewrite emit_cancel, cancel_cancel. apply map_ext. intros a. cbn. do 2 f_equal.
      rewrite <- bool_decide_or. apply bool_decide_ext. rewrite elem_of_cons. split; [intros [->|]; auto|]. intros [[= ->]|]; auto.
    + apply map_ext. intros a. do 2 f_equal. apply bool_decide_ext. rewrite elem_of_cons. split; [by right|]. intros [[= <- _]|]; [done|done].
Qed.

Lemma cancel_field {A} (f : adapter -> A) c p : (forall a, f (mk_adapter (_handler a) (_transform a) (_signal a) (_stop_cookie a) (kept a) (cancelled a || c a)) = f a) ->
  map f (cancel c p) = map f p.
Proof. intros Hf. unfold cancel. rewrite map_map. apply map_ext. done. Qed.

Lemma cancel_omap {A} (f : adapter -> option A) c p : (forall a, f (mk_adapter (_handler a) (_transform a) (_signal a) (_stop_cookie a) (kept a) (cancelled a || c a)) = f a) ->
  omap f (cancel c p) = omap f p.
Proof. intros Hf. induction p as [|a p IH]; [done|]. cbn. rewrite Hf. unfold cancel in IH. by rewrite IH. Qed.

Lemma stop_ok l hs h : loop_ok l hs -> loop_ok (request_stop l h) hs.
Proof.
  intros [Hh Hs Ht Hr Hg]. unfold request_stop. rewrite stop_cancel. set (c := fun a => _).
  split; cbn [_cancel_signals made _resolvers _timers posted pending completing registrations completed with_pending].
  - by rewrite cancel_field.
  - unfold exclusive in *. by rewrite omap_app, cancel_omap, <- omap_app.
  - unfold exclusive in *. by rewrite omap_app, cancel_omap, <- omap_app.
  - unfold exclusive in *. by rewrite omap_app, cancel_omap, <- omap_app.
  - by rewrite cancel_omap.
Qed.

Lemma act_ok l hs a : loop_ok l hs -> exists l', act l a = Done l' /\ loop_ok l' (hs ++ given a).
Proof.
  intros Hl. destruct a as [st res h|res h|h|h|h| |i ec res|i|h]; cbn [act given]; rewrite ?app_nil_r.
  - eexists. split; [done|]. destruct Hl as [Hh Hs Ht Hr Hg]. split; try done. cbn. rewrite Hh, map_app. cbn. by rewrite <- !app_assoc.
  - by apply later_ok.
  - eexists. split; [done|]. by apply getaddrinfo_ok.
  - eexists. split; [done|]. unfold tcp_connect, factory. apply plain_ok; [done|]. lia.
  - eexists. split; [done|]. unfold tcp_read_some. destruct l. by apply (plain_ok _ hs h as_box _ Hl).
  - eexists. split; [done|]. unfold run_posted. destruct (posted l) as [|p rest] eqn:Ep; [done|]. destruct Hl as [Hh Hs Ht Hr Hg]. split; try done. cbn.
    rewrite Hh, Ep, map_app. cbn. rewrite <- !app_assoc. f_equiv. cbn. symmetry. apply Permutation_middle.
  - eexists. split; [done|]. by apply complete_ok.
  - eexists. split; [done|]. by apply destroyed_ok.
  - eexists. split; [done|]. by apply stop_ok.
Qed.

(** The signal of a pending operation is registered with its own handler only. *)
Lemma own_registration l hs a h : loop_ok l hs -> a ∈ pending l -> (h, _signal a) ∈ registrations l <-> _handler a = h /\ _stop_cookie a = true.
Proof.
  intros [_ [Hs _] _ _ Hg] Ha. rewrite omap_signal, map_app, <- app_assoc in Hs. apply NoDup_app in Hs as [Hs _]. rewrite Hg. clear Hg.
  induction (pending l) as [|b p IH]; [by apply not_elem_of_nil in Ha|]. cbn in Hs |- *. apply NoDup_cons in Hs as [Hb Hs].
  assert (forall r, r ∈ omap registration p -> r.2 ∈ map _signal p) as Hin.
  { intros r Hr. apply list_elem_of_omap in Hr as (x & Hx & Hr). apply list_elem_of_fmap. exists x. unfold registration in Hr.
    destruct (_stop_cookie x); [|done]. by injection Hr as <-. }
  apply elem_of_cons in Ha as [->|Ha].
  - unfold registration at 1. destruct (_stop_cookie b).
    + rewrite elem_of_cons. split; [|by intros [-> _]; left]. intros [[= ->]|Hx]; [done|]. by apply Hin in Hx.
    + split; [|by intros [_ ?]]. intros Hx. by apply Hin in Hx.
  - rewrite <- (IH Hs Ha). destruct (registration b) as [r|] eqn:Er; [|done]. rewrite elem_of_cons. split; [|by right]. intros [<-|]; [|done].
    unfold registration in Er. destruct (_stop_cookie b); [|done]. injection Er as _ Er. exfalso. apply Hb. apply list_elem_of_fmap. by exists a.
Qed.

Lemma stop_own l hs h : loop_ok l hs -> pending (request_stop l h) = cancel (fun a => bool_decide (_handler a = h) && _stop_cookie a) (pending l).
Proof.
  intros Hl. unfold request_stop. rewrite stop_cancel. cbn [pending with_pending]. unfold cancel. apply map_ext_in. intros a Ha. do 2 f_equal.
  apply list_elem_of_In in Ha. pose proof (own_registration l hs a h Hl Ha) as Hr. destruct (_stop_cookie a); rewrite ?andb_true_r, ?andb_false_r.
  - apply bool_decide_ext. rewrite Hr. split; [by intros [? _]|done].
  - apply bool_decide_eq_false. rewrite Hr. by intros [_ ?].
Qed.

Lemma act_all_ok actions : forall l hs, loop_ok l hs -> exists l', act_all l actions = Done l' /\ loop_ok l' (hs ++ concat (map given actions)).
Proof.
  induction actions as [|a actions IH]; intros l hs Hl; cbn [act_all map concat].
  - exists l. by rewrite app_nil_r.
  - destruct (act_ok l hs a Hl) as (l1 & E & Hl1). rewrite E. ostep. rewrite app_assoc. by apply IH.
Qed.

(** C9. Whatever the program and Asio do with the loop, every handler that it is given is completed at most once, and once when nothing
    is posted or pending any more; no signal, timer or resolver is used by two operations or lies in a pool while it is used; the stop
    registrations are those of the pending operations, so that none is left when a handler is completed; and a stop of a handler cancels its own
    operation and no other. *)
Theorem loop_runs actions : exists l, act_all new_loop actions = Done l /\ loop_ok l (concat (map given actions)) /\
  (posted l = [] -> pending l = [] -> map (fun p => p.1.1) (completed l) ≡ₚ concat (map given actions)) /\
  (forall h, pending (request_stop l h) = cancel (fun a => bool_decide (_handler a = h) && _stop_cookie a) (pending l)).
Proof.
  destruct (act_all_ok actions new_loop [] new_loop_ok) as (l & E & Hl). exists l. split_and!; [done|done| |].
  - intros Hp Hq. destruct Hl as [Hh _ _ _ _]. rewrite Hp, Hq, app_nil_r in Hh. done.
  - intros h. by eapply stop_own.
Qed.

(** A connection that reads through the loop tells its caller the error code and the size that Asio told, whatever else is pending. *)
Theorem transfer_reports l h ec k n : ec_category ec = cxx_known k -> exists st v,
  last (completed (asio_complete (tcp_read_some l h) (length (pending l)) ec (transferred n))) = Some (h, st, v) /\
  transfer_completer st v = Done (ec, n).
Proof.
  intros Hk. exists (from X ec), (size_value n). unfold tcp_read_some, initiate. destruct (checkout factory (_cancel_signals l) (made l)) as [[signals m] sig].
  unfold asio_complete. cbn [pending]. rewrite lookup_app_r, Nat.sub_diag by done. cbn [lookup list_lookup adapter_call completed with_pending _handler _transform transform].
  rewrite last_snoc. split; [done|]. unfold transfer_completer. destruct (status_roundtrip X) as [_ Hr]. by rewrite Hr, Hk.
Qed.

End Loop.

Lemma transfer_reports_witness : ec_category (mk_error_code (cxx_known system) 0) = cxx_known system /\ exists st v,
  last (completed (asio_complete linux_externals (tcp_read_some (fun _ => true) new_loop 5) 0 (mk_error_code (cxx_known system) 0) (transferred 16))) = Some (5%nat, st, v) /\
  transfer_completer st v = Done (mk_error_code (cxx_known system) 0, 16).
Proof. split; [done|]. exact (transfer_reports linux_externals (fun _ => true) new_loop 5 (mk_error_code (cxx_known system) 0) system 16 eq_refl). Defined.

(** A timer, a stop, the completion that Asio then makes; what the loop is left with. *)
Example sample_loop :
  (let* l := act_all linux_externals (fun _ => true) new_loop
               [later (user_value 7) 1; transfer 2; stops 1; completes 0 (mk_error_code (cxx_known system) (ECANCELED linux_externals)) no_result; returns 0]%nat in
   Done (map (fun p => p.1.1) (completed l), registrations l, map cancelled (pending l), _objects (_cancel_signals l))) =
    Done ([1], [(2, 3%positive)], [false], [2%positive])%nat.
Proof. by vm_compute. Qed.

(** A loop that is destroyed while an operation is pending; a timer that cannot be set. *)
Example destroyed_pending : amongoc_default_loop_destroy (tcp_read_some (fun _ => true) new_loop 1) = Undef.
Proof. by vm_compute. Qed.
Example timer_error_undefined ec : call_later linux_externals (fun _ => true) new_loop (Some ec) nil_value 1 = Undef.
Proof. done. Qed.
