(* ===== verification/Format.v ===== *)
(** * Printing documents ([src/bson/format.cpp])

    [bson_write_repr] walks a document with the iterators of [Iterator.v] and writes text through a buffer of 512 characters.  How [fmt] quotes a
    string and prints a double or a point in time are parameters. *)
From Stdlib Require Import ZArith Lia.
From Stdlib Require Import Strings.Byte Strings.String.
From stdpp Require Import base numbers list.
From S2P Require Import Prelude.
From S2P Require Import Types.
From S2P Require Import Iterator.
From S2P Require Import IteratorSafe.
From S2P Require Import Codec.
From S2P Require Import Parse.
From S2P Require Import Status.
From S2P Require Import Reply.
Open Scope Z_scope.
Open Scope outcome_scope.

(** ** The buffer *)

(** [mlib_os_writebuf]: the characters that are pending, and what was written to the stream. *)
Record mlib_os_writebuf : Type := mk_writebuf { smallbuf : text; out : list text }.

Definition flush (o : mlib_os_writebuf) : mlib_os_writebuf := mk_writebuf [] (out o ++ [smallbuf o]).

Definition put (o : mlib_os_writebuf) (c : byte) : mlib_os_writebuf :=
  let o := mk_writebuf (smallbuf o ++ [c]) (out o) in
  if zlen (smallbuf o) =? 512 then flush o else o.

(** [writer_iter], to which [fmt] assigns one character after the other. *)
Definition put_all (o : mlib_os_writebuf) (t : text) : mlib_os_writebuf := fold_left put t o.

(** ** The writer *)

Abbreviation writer := (mlib_os_writebuf -> outcome mlib_os_writebuf).

Definition write (t : text) : writer := fun o => Done (put_all o t).
Definition skip : writer := fun o => Done o.
Definition seq (a b : writer) : writer := fun o => let* o := a o in b o.
Infix ">>" := seq (at level 50, left associativity).

Record bson_fmt_options : Type := mk_options { initial_indent : Z; subsequent_indent : Z; nested_indent : Z }.

(** A digit pair of [{:0>2x}]. *)
Definition hex_digit (n : Z) : byte := z2b (if n <? 10 then 48 + n else 87 + n).
Definition hex (b : byte) : text := [hex_digit (b2z b / 16); hex_digit (b2z b mod 16)].

Section Writer.
Context (quoted : text -> text) (fmt_double fmt_time : Z -> text).
Context (_opts : bson_fmt_options).

Definition multiline : bool := negb (nested_indent _opts =? 0).

(** [add_hspace]: twelve spaces at a time. *)
Definition twelve_spaces : text := repeat x20 12.
Fixpoint add_hspace_loop (fuel : nat) (count : Z) : writer :=
  match fuel with
  | O => if count =? 0 then skip else fun _ => Abort
  | S fuel =>
    if count =? 0 then skip
    else
      let len := Z.min (zlen twelve_spaces) count in
      write (take (Z.to_nat len) twelve_spaces) >> add_hspace_loop fuel (count - len)
  end.
Definition add_hspace (count : Z) : writer := add_hspace_loop (Z.to_nat count) count.

Definition add_newline (depth : Z) : writer :=
  write (lit String.EmptyString ++ [x0a]) >> add_hspace (subsequent_indent _opts) >> add_hspace (u32 (nested_indent _opts * depth)).

(** [nested()]. *)
Definition nested (depth : Z) : Z := u32 (depth + 1).

Definition print_bytes (l : list byte) : writer := write (concat (map hex l)).

(** [*iter] and [++iter] throw for an errant iterator, which ends the process: [bson_write_repr] is [noexcept]. *)
Definition deref (m : block) (it : bson_iterator) : outcome element :=
  if negb (bson_iterator_get_error it =? bson_iter_errc_okay) then Abort
  else let* k := bson_key m it in let* v := bson_iterator_value m it in Done (k, v).
Definition advance (m : block) (it : bson_iterator) : outcome bson_iterator :=
  if negb (bson_iterator_get_error it =? bson_iter_errc_okay) then Abort else bson_next m it.

(** [for (auto ref : doc)]. *)
Fixpoint for_each (fuel : nat) (m : block) (it e : bson_iterator) (body : element -> writer) : writer := fun o =>
  match fuel with
  | O => Abort
  | S fuel =>
    if bson_iterator_eq it e then Done o
    else
      let* kv := deref m it in
      let* o := body kv o in
      let* it := advance m it in
      for_each fuel m it e body o
  end.

(** The loop that writes commas between the elements. *)
Fixpoint separated (fuel : nat) (m : block) (it e : bson_iterator) (body : element -> writer) : writer := fun o =>
  match fuel with
  | O => Abort
  | S fuel =>
    if bson_iterator_eq it e then Done o
    else
      let* kv := deref m it in
      let* o := body kv o in
      let* it := advance m it in
      let* o := (if bson_iterator_eq it e then skip else write (lit ",")) o in
      separated fuel m it e body o
  end.

(** A view that is null has no bytes. *)
Definition view_of (d : option (list byte)) : block * Z := match d with Some d => (mk_block 16 d, 16) | None => (mk_block 16 [], 0) end.
Definition fuel_of (d : option (list byte)) : nat := match d with Some d => loop_fuel (zlen d) | None => O end.

Definition is_container (type : Z) : bool := (type =? bson_type_document) || (type =? bson_type_array).

(** The values of documents and arrays. *)
Section Containers.
Context (write_value : Z -> bson_value_ref -> writer).

(** The test of [write_doc] for a single value. *)
Definition is_single (m : block) (iter e : bson_iterator) : outcome bool :=
  let* next := advance m iter in
  if bson_iterator_eq next e then let* t := bson_iterator_type m iter in Done (negb (is_container t)) else Done false.

Definition write_doc (depth : Z) (doc : option (list byte)) : writer := fun o =>
  let (m, v) := view_of doc in
  let* o := write (lit "{") o in
  let* iter := _bson_begin m v in
  let* e := _bson_end m v in
  if bson_iterator_eq iter e then write (lit " }") o
  else
    let* single := is_single m iter e in
    if single then
      let* kv := deref m iter in
      (write (lit " " ++ quoted (fst kv) ++ lit ": ") >> write_value depth (snd kv) >> write (lit " }")) o
    else if multiline then
      (for_each (fuel_of doc) m iter e (fun kv =>
         add_newline depth >> add_hspace (nested_indent _opts) >> write (quoted (fst kv) ++ lit ": ") >>
         write_value (nested depth) (snd kv) >> write (lit ",")) >>
       add_newline depth >> write (lit "}")) o
    else
      (separated (fuel_of doc) m iter e (fun kv => write (lit " " ++ quoted (fst kv) ++ lit ": ") >> write_value depth (snd kv)) >>
       write (lit " }")) o.

Definition write_array (depth : Z) (arr : option (list byte)) : writer := fun o =>
  let (m, v) := view_of arr in
  let* o := write (lit "[") o in
  let* iter := _bson_begin m v in
  let* e := _bson_end m v in
  if bson_iterator_eq iter e then write (lit "]") o
  else if multiline then
    (for_each (fuel_of arr) m iter e (fun kv =>
       add_newline depth >> add_hspace (nested_indent _opts) >> write_value (nested depth) (snd kv) >> write (lit ",")) >>
     add_newline depth >> write (lit "]")) o
  else
    (separated (fuel_of arr) m iter e (fun kv => write (lit " ") >> write_value depth (snd kv)) >> write (lit " ]")) o.
End Containers.

(** The text of a value that is no document. *)
Definition scalar (v : bson_value_ref) : outcome text :=
  match v with
  | v_utf8 s => Done (quoted s)
  | v_symbol s => Done (lit "Symbol(" ++ quoted s ++ lit ")")
  | v_datetime ms => Done (lit "Datetime⟨" ++ fmt_time ms ++ lit "⟩")
  | v_timestamp increment secs => Done (lit "Timestamp(⟨" ++ fmt_time secs ++ lit "⟩ : " ++ percent_d increment ++ lit ")")
  | v_code s => Done (lit "Code(" ++ quoted s ++ lit ")")
  | v_decimal128 _ => Done (lit "[[Unimplemented: Decimal128 printing]]")
  | v_bool b => Done (lit (if b then "true" else "false"))
  | v_int32 i => Done (percent_d i ++ lit ":i32")
  | v_int64 i => Done (percent_d i ++ lit ":i64")
  | v_double d => Done (fmt_double d ++ lit ":f64")
  | v_null => Done (lit "null")
  | v_undefined => Done (lit "undefined")
  | v_minkey => Done (lit "[[min key]]")
  | v_maxkey => Done (lit "[[max key]]")
  | v_dbpointer c oid => Done (lit "DBPointer(" ++ [x22] ++ c ++ [x22] ++ lit ", " ++ lit "ObjectID(" ++ concat (map hex oid) ++ lit ")" ++ lit ")")
  | v_oid oid => Done (lit "ObjectID(" ++ concat (map hex oid) ++ lit ")")
  | v_regex rx opt => Done (lit "/" ++ default [] rx ++ lit "/" ++ default [] opt)
  | v_binary subtype data => Done (lit "Binary(subtype " ++ percent_d (b2z subtype) ++ lit ", bytes 0x" ++ concat (map hex data) ++ lit ")")
  | v_document _ | v_array _ | v_eod | v_codewscope | v_unknown _ => Abort
  end.

(** [write_value]; [visit] and the assertion on an end element end the process. *)
Fixpoint write_value (fuel : nat) (depth : Z) (v : bson_value_ref) : writer :=
  match fuel with
  | O => fun _ => Abort
  | S fuel =>
    match v with
    | v_document d => write_doc (write_value fuel) depth d
    | v_array d => write_array (write_value fuel) depth d
    | _ => fun o => let* t := scalar v in write t o
    end
  end.

(** [top_write]. *)
Definition top_write (fuel : nat) (doc : option (list byte)) : writer :=
  add_hspace (initial_indent _opts) >> write_value fuel 0 (v_document doc).
End Writer.

(** [bson_write_repr]: what is written to the stream. *)
Definition bson_write_repr (quoted : text -> text) (fmt_double fmt_time : Z -> text) (fuel : nat) (doc : option (list byte)) (opts : option bson_fmt_options)
  : outcome (list text) :=
  let o := match opts with Some o => o | None => mk_options 0 0 2 end in
  let* b := top_write quoted fmt_double fmt_time o fuel doc (mk_writebuf [] []) in
  Done (out (flush b)).

(** ** Documents as trees *)

Inductive tree : Type := t_value (v : bson_value_ref) | t_document (es : list (text * tree)) | t_array (es : list (text * tree)).

Fixpoint value_of (t : tree) : bson_value_ref :=
  match t with
  | t_value v => v
  | t_document es => v_document (Some (encode_doc (map (fun kt => (fst kt, value_of (snd kt))) es)))
  | t_array es => v_array (Some (encode_doc (map (fun kt => (fst kt, value_of (snd kt))) es)))
  end.

Definition elements_of (es : list (text * tree)) : list element := map (fun kt => (fst kt, value_of (snd kt))) es.

Fixpoint height (t : tree) : nat :=
  match t with
  | t_value _ => 1
  | t_document es | t_array es => S (fold_right (fun kt n => Nat.max (height (snd kt)) n) O es)
  end.

(** The induction over trees. *)
Section Induction.
Context (P : tree -> Prop) (Hv : forall v, P (t_value v)) (Hd : forall es, Forall (fun kt => P (snd kt)) es -> P (t_document es))
  (Ha : forall es, Forall (fun kt => P (snd kt)) es -> P (t_array es)).
Fixpoint tree_induction (t : tree) : P t :=
  let children := fix children (es : list (text * tree)) : Forall (fun kt => P (snd kt)) es :=
    match es with
    | [] => Forall_nil_2 _
    | kt :: es => Forall_cons_2 _ kt es (tree_induction (snd kt)) (children es)
    end in
  match t with
  | t_value v => Hv v
  | t_document es => Hd es (children es)
  | t_array es => Ha es (children es)
  end.
End Induction.

(** ** What is written *)

Section Spec.
Context (quoted : text -> text) (fmt_double fmt_time : Z -> text) (opts : bson_fmt_options).

Definition spaces (n : Z) : text := repeat x20 (Z.to_nat n).
Definition newline (depth : Z) : text := [x0a] ++ spaces (subsequent_indent opts) ++ spaces (u32 (nested_indent opts * depth)).

Definition scalar_text (v : bson_value_ref) : text := match scalar quoted fmt_double fmt_time v with Done t => t | _ => [] end.

Fixpoint join (l : list text) : text :=
  match l with
  | [] => []
  | [t] => t
  | t :: l => t ++ lit "," ++ join l
  end.

(** A list of elements: one per line, or with commas between them. *)
Definition lines (depth : Z) (l : list text) : text :=
  concat (map (fun t => newline depth ++ spaces (nested_indent opts) ++ t ++ lit ",") l) ++ newline depth.
Definition pair_text (k t : text) : text := quoted k ++ lit ": " ++ t.

Fixpoint repr (depth : Z) (t : tree) : text :=
  match t with
  | t_value v => scalar_text v
  | t_document [] => lit "{ }"
  | t_document [(k, t_value v)] => lit "{ " ++ pair_text k (scalar_text v) ++ lit " }"
  | t_document es =>
    if multiline opts then lit "{" ++ lines depth (map (fun kt => pair_text (fst kt) (repr (nested depth) (snd kt))) es) ++ lit "}"
    else lit "{" ++ join (map (fun kt => lit " " ++ pair_text (fst kt) (repr depth (snd kt))) es) ++ lit " }"
  | t_array [] => lit "[]"
  | t_array es =>
    if multiline opts then lit "[" ++ lines depth (map (fun kt => repr (nested depth) (snd kt)) es) ++ lit "]"
    else lit "[" ++ join (map (fun kt => lit " " ++ repr depth (snd kt)) es) ++ lit " ]"
  end.

(** The values are none that end the process, and the elements of every document can be held. *)
Fixpoint printable (t : tree) : Prop :=
  match t with
  | t_value v => scalar quoted fmt_double fmt_time v <> Abort
  | t_document es | t_array es => holdable (elements_of es) /\ fold_right (fun kt P => printable (snd kt) /\ P) True es
  end.

(** ** Writers *)

Definition writes (w : writer) (t : text) : Prop := forall o, w o = Done (put_all o t).

Lemma put_all_app o t u : put_all o (t ++ u) = put_all (put_all o t) u.
Proof. apply fold_left_app. Qed.

Lemma writes_write t : writes (write t) t.
Proof. done. Qed.

Lemma text_seq a b t u : writes a t -> writes b u -> writes (a >> b) (t ++ u).
Proof. intros Ha Hb o. unfold seq. rewrite Ha. ostep. rewrite Hb. by rewrite put_all_app. Qed.

Lemma writes_skip : writes skip [].
Proof. done. Qed.

Lemma writes_eq w t u : writes w t -> t = u -> writes w u.
Proof. by intros H <-. Qed.

Lemma hspace_loop_writes fuel : forall n, 0 <= n -> (Z.to_nat n <= fuel)%nat -> writes (add_hspace_loop fuel n) (spaces n).
Proof.
  unfold spaces. induction fuel as [|fuel IH]; intros n Hn Hf; cbn [add_hspace_loop].
  - destruct (Z.eqb_spec n 0) as [->|]; [apply writes_skip|lia].
  - destruct (Z.eqb_spec n 0) as [->|]; [apply writes_skip|]. change (zlen twelve_spaces) with 12.
    eapply writes_eq; [apply text_seq; [apply writes_write|apply IH; lia]|]. unfold twelve_spaces.
    replace (Z.to_nat n) with (Z.to_nat (Z.min 12 n) + Z.to_nat (n - Z.min 12 n))%nat by lia. rewrite repeat_app. f_equal.
    assert (forall i j, (i <= j)%nat -> take i (repeat x20 j) = repeat x20 i) as Ht.
    { clear. induction i as [|i IH]; intros [|j] Hj; try done; [lia|]. cbn. f_equal. apply IH. lia. }
    apply Ht. lia.
Qed.

Lemma add_hspace_writes n : 0 <= n -> writes (add_hspace n) (spaces n).
Proof. intros Hn. by apply hspace_loop_writes. Qed.

Context (Hopts : 0 <= initial_indent opts /\ 0 <= subsequent_indent opts /\ 0 <= nested_indent opts).

Lemma add_newline_writes depth : writes (add_newline opts depth) (newline depth).
Proof.
  unfold add_newline, newline. rewrite app_assoc. apply text_seq; [apply text_seq; [apply writes_write|apply add_hspace_writes; lia]|].
  apply add_hspace_writes. pose proof (u32_range (nested_indent opts * depth)) as Hu. unfold is_u32 in Hu. lia.
Qed.

(** ** Loops *)

Section Loops.
Context (es : list element) (Hes : holdable es).
Let m := mk_block 16 (encode_doc es).
Let it_of := iter_of 16 es.

Lemma deref_encoded pre k w rest : es = pre ++ (k, w) :: rest -> deref m (it_of pre ((k, w) :: rest)) = Done (k, w).
Proof.
  destruct Hes as (Hwf & Hr & Hmax). intros E.
  destruct (element_access m 16 es eq_refl (bytes_at_whole _) Hwf Hmax pre k w rest E) as (Hk & _ & Hv & He).
  unfold deref, it_of. rewrite He, Hk. change (negb (0 =? bson_iter_errc_okay)) with false. cbv iota. ostep. rewrite Hv; [done|].
  rewrite E, Forall_app, Forall_cons in Hr. tauto.
Qed.

Lemma advance_encoded pre k w rest : es = pre ++ (k, w) :: rest -> advance m (it_of pre ((k, w) :: rest)) = Done (it_of (pre ++ [(k, w)]) rest).
Proof.
  destruct Hes as (Hwf & Hr & Hmax). intros E.
  destruct (element_access m 16 es eq_refl (bytes_at_whole _) Hwf Hmax pre k w rest E) as (_ & _ & _ & He).
  unfold advance, it_of. rewrite He. change (negb (0 =? bson_iter_errc_okay)) with false. cbv iota.
  exact (next_iter_of m 16 es (bytes_at_whole _) Hwf Hmax _ _ _ E).
Qed.

Lemma at_end pre rest : es = pre ++ rest -> bson_iterator_eq (it_of pre rest) (it_of es []) = match rest with [] => true | _ => false end.
Proof.
  destruct Hes as (Hwf & Hr & Hmax). intros E. destruct rest as [|kv rest]; [unfold bson_iterator_eq; apply Z.eqb_refl|].
  exact (not_at_end m 16 es (bytes_at_whole _) Hwf Hmax _ _ _ E).
Qed.

Lemma for_each_writes body fuel : forall rest ts pre, es = pre ++ rest -> Forall2 (fun kv t => writes (body kv) t) rest ts -> (length rest < fuel)%nat ->
  writes (for_each fuel m (it_of pre rest) (it_of es []) body) (concat ts).
Proof.
  induction fuel as [|fuel IH]; intros rest ts pre E Hb Hf o; [lia|]. cbn [for_each]. rewrite at_end by done.
  destruct Hb as [|[k w] t rest ts Hw Hb]; [done|]. rewrite deref_encoded by done. ostep. rewrite Hw. ostep. rewrite advance_encoded by done. ostep.
  rewrite (IH rest ts) by (rewrite <- ?app_assoc; cbn in *; (done || lia)). cbn [concat]. by rewrite put_all_app.
Qed.

Lemma separated_writes body fuel : forall rest ts pre, es = pre ++ rest -> Forall2 (fun kv t => writes (body kv) t) rest ts -> (length rest < fuel)%nat ->
  writes (separated fuel m (it_of pre rest) (it_of es []) body) (join ts).
Proof.
  induction fuel as [|fuel IH]; intros rest ts pre E Hb Hf o; [lia|]. cbn [separated]. rewrite at_end by done.
  destruct Hb as [|[k w] t rest ts Hw Hb]; [done|]. rewrite deref_encoded by done. ostep. rewrite Hw. ostep. rewrite advance_encoded by done. ostep.
  rewrite at_end by (by rewrite <- app_assoc).
  pose proof (IH rest ts (pre ++ [(k, w)]) ltac:(by rewrite <- app_assoc) Hb ltac:(cbn in Hf; lia)) as Hrest.
  destruct Hb as [|kv t' rest ts Hw' Hb].
  - unfold skip. ostep. by rewrite Hrest.
  - unfold write at 1. ostep. rewrite Hrest. change (join (t :: t' :: ts)) with (t ++ lit "," ++ join (t' :: ts)). by rewrite !put_all_app.
Qed.
End Loops.

(** The iterators of a view of encoded elements. *)
Lemma begin_of es : holdable es -> _bson_begin (mk_block 16 (encode_doc es)) 16 = Done (iter_of 16 es [] es) /\
  _bson_end (mk_block 16 (encode_doc es)) 16 = Done (iter_of 16 es es []).
Proof. intros (Hwf & _ & Hmax). split; [by apply begin_encode; [|apply bytes_at_whole| |]|by apply end_encode; [|apply bytes_at_whole|]]. Qed.

(** ** Values *)

Abbreviation write_value := (write_value quoted fmt_double fmt_time opts).

Lemma elements_tree (P : text * bson_value_ref -> Prop) (es : list (text * tree)) :
  Forall (fun kt => P (fst kt, value_of (snd kt))) es -> Forall P (elements_of es).
Proof. intros H. unfold elements_of. by apply Forall_map. Qed.

Lemma map_elements {A} (f : text * bson_value_ref -> A) (es : list (text * tree)) : map f (elements_of es) = map (fun kt => f (fst kt, value_of (snd kt))) es.
Proof. unfold elements_of. by rewrite map_map. Qed.

Lemma scalar_type v : scalar quoted fmt_double fmt_time v <> Abort -> is_container (value_type v) = false /\ scalar quoted fmt_double fmt_time v = Done (scalar_text v).
Proof. unfold scalar_text. destruct v; done. Qed.

Lemma write_scalar fuel depth v : scalar quoted fmt_double fmt_time v <> Abort -> writes (write_value (S fuel) depth v) (scalar_text v).
Proof. intros Hv o. pose proof (scalar_type v Hv) as [_ Hs]. cbn [Format.write_value]. rewrite Hs. destruct v; done. Qed.

(** Whether the elements are a single value. *)
Definition single (es : list (text * tree)) : bool := match es with [(_, t_value _)] => true | _ => false end.

Lemma value_container t : match t with t_value v => scalar quoted fmt_double fmt_time v <> Abort | _ => True end ->
  is_container (value_type (value_of t)) = match t with t_value _ => false | _ => true end.
Proof. destruct t as [v|es|es]; [|done..]. intros Hv. by apply scalar_type. Qed.

Lemma single_encoded kt es : holdable (elements_of (kt :: es)) -> printable (snd kt) ->
  is_single (mk_block 16 (encode_doc (elements_of (kt :: es)))) (iter_of 16 (elements_of (kt :: es)) [] (elements_of (kt :: es)))
    (iter_of 16 (elements_of (kt :: es)) (elements_of (kt :: es)) []) = Done (single (kt :: es)).
Proof.
  intros Hh Hp. pose proof Hh as (Hwf & _ & Hmax). unfold is_single. cbn [elements_of map] in *. fold (elements_of es) in *.
  rewrite (advance_encoded _ Hh [] (fst kt) (value_of (snd kt)) (elements_of es)) by done. ostep. rewrite (at_end _ Hh ([] ++ [(fst kt, value_of (snd kt))])) by done.
  destruct kt as [k t], es as [|kt' es]; [|by destruct t]. cbn [elements_of map fst snd] in *.
  rewrite (element_type _ 16 _ (bytes_at_whole _) Hwf Hmax [] k (value_of t) []) by done. ostep. rewrite value_container by (by destruct t). by destruct t.
Qed.

Lemma repr_document depth kt es : single (kt :: es) = false -> repr depth (t_document (kt :: es)) =
  if multiline opts then lit "{" ++ lines depth (map (fun kt => pair_text (fst kt) (repr (nested depth) (snd kt))) (kt :: es)) ++ lit "}"
  else lit "{" ++ join (map (fun kt => lit " " ++ pair_text (fst kt) (repr depth (snd kt))) (kt :: es)) ++ lit " }".
Proof. destruct kt as [k [v|l|l]], es; done. Qed.

(** The loops over the elements of a tree. *)
Lemma loop_fuel_of es : (length (elements_of es) < fuel_of (Some (encode_doc (elements_of es))))%nat.
Proof. apply length_elements. Qed.

Lemma tree_texts body (f : text * tree -> text) es : Forall (fun kt => writes (body (fst kt, value_of (snd kt))) (f kt)) es ->
  Forall2 (fun kv t => writes (body kv) t) (elements_of es) (map f es).
Proof. unfold elements_of. induction 1 as [|kt es Hk _ IH]; constructor; done. Qed.

Lemma lines_write es body f depth : holdable (elements_of es) ->
  Forall (fun kt => writes (body (fst kt, value_of (snd kt))) (newline depth ++ spaces (nested_indent opts) ++ f kt ++ lit ",")) es ->
  writes (for_each (fuel_of (Some (encode_doc (elements_of es)))) (mk_block 16 (encode_doc (elements_of es))) (iter_of 16 (elements_of es) [] (elements_of es))
            (iter_of 16 (elements_of es) (elements_of es) []) body >> add_newline opts depth) (lines depth (map f es)).
Proof.
  intros Hh Hb. unfold lines. apply text_seq; [|apply add_newline_writes]. rewrite map_map.
  apply for_each_writes; [done|done| |apply loop_fuel_of]. by apply tree_texts.
Qed.

Lemma join_write es body f : holdable (elements_of es) -> Forall (fun kt => writes (body (fst kt, value_of (snd kt))) (f kt)) es ->
  writes (separated (fuel_of (Some (encode_doc (elements_of es)))) (mk_block 16 (encode_doc (elements_of es))) (iter_of 16 (elements_of es) [] (elements_of es))
            (iter_of 16 (elements_of es) (elements_of es) []) body) (join (map f es)).
Proof. intros Hh Hb. apply separated_writes; [done|done| |apply loop_fuel_of]. by apply tree_texts. Qed.

(** The values of the elements are written. *)
Definition written (fuel : nat) (es : list (text * tree)) : Prop := Forall (fun kt => forall depth, writes (write_value fuel depth (value_of (snd kt))) (repr depth (snd kt))) es.

Lemma doc_writes fuel depth es : holdable (elements_of es) -> Forall (fun kt => printable (snd kt)) es -> written fuel es ->
  writes (write_doc quoted opts (write_value fuel) depth (Some (encode_doc (elements_of es)))) (repr depth (t_document es)).
Proof.
  intros Hh Hp Hw o. destruct (begin_of _ Hh) as [Hb He]. unfold write_doc. cbn [view_of]. unfold write at 1. ostep. rewrite Hb, He. ostep.
  rewrite (at_end _ Hh []) by done. destruct es as [|kt es]; [cbn [elements_of map repr]; unfold write; by rewrite <- put_all_app|].
  change (match elements_of (kt :: es) with [] => true | _ => false end) with false. cbv iota.
  assert (forall w t, writes w t -> w (put_all o (lit "{")) = Done (put_all o (lit "{" ++ t))) as Hx by (intros w t ->; by rewrite put_all_app).
  rewrite single_encoded by (done || by apply Forall_cons in Hp as [? _]). ostep. destruct (single (kt :: es)) eqn:Es.
  - destruct kt as [k [v|l|l]], es as [|]; try done. cbn [elements_of map fst snd value_of] in *.
    rewrite (deref_encoded _ Hh []) by done. ostep. apply Forall_cons in Hw as [Hw _]. cbn [snd value_of repr] in Hw.
    change (repr depth (t_document [(k, t_value v)])) with (lit "{" ++ lit " " ++ pair_text k (scalar_text v) ++ lit " }").
    apply Hx. eapply writes_eq; [apply text_seq; [apply text_seq; [apply writes_write|apply Hw]|apply writes_write]|].
    unfold pair_text. by rewrite <- !app_assoc.
  - rewrite repr_document by done. destruct (multiline opts).
    + apply Hx. apply text_seq; [|apply writes_write]. apply lines_write; [done|]. eapply Forall_impl; [exact Hw|]. cbn beta. intros [k t] Ht.
      cbn [fst snd] in *. eapply writes_eq; [apply text_seq; [apply text_seq; [apply text_seq; [apply text_seq; [apply add_newline_writes|apply add_hspace_writes; lia]|apply writes_write]|apply Ht]|apply writes_write]|].
      unfold pair_text. by rewrite <- !app_assoc.
    + apply Hx. apply text_seq; [|apply writes_write]. apply join_write; [done|]. eapply Forall_impl; [exact Hw|]. cbn beta. intros [k t] Ht.
      cbn [fst snd] in *. eapply writes_eq; [apply text_seq; [apply writes_write|apply Ht]|]. unfold pair_text. by rewrite <- !app_assoc.
Qed.

Lemma array_writes fuel depth es : holdable (elements_of es) -> written fuel es ->
  writes (write_array opts (write_value fuel) depth (Some (encode_doc (elements_of es)))) (repr depth (t_array es)).
Proof.
  intros Hh Hw o. destruct (begin_of _ Hh) as [Hb He]. unfold write_array. cbn [view_of]. unfold write at 1. ostep. rewrite Hb, He. ostep.
  rewrite (at_end _ Hh []) by done. destruct es as [|kt es]; [cbn [elements_of map repr]; unfold write; by rewrite <- put_all_app|].
  change (match elements_of (kt :: es) with [] => true | _ => false end) with false. cbv iota.
  assert (forall w t, writes w t -> w (put_all o (lit "[")) = Done (put_all o (lit "[" ++ t))) as Hx by (intros w t ->; by rewrite put_all_app).
  change (repr depth (t_array (kt :: es))) with
    (if multiline opts then lit "[" ++ lines depth (map (fun kt => repr (nested depth) (snd kt)) (kt :: es)) ++ lit "]"
     else lit "[" ++ join (map (fun kt => lit " " ++ repr depth (snd kt)) (kt :: es)) ++ lit " ]").
  destruct (multiline opts); apply Hx; (apply text_seq; [|apply writes_write]).
  - apply lines_write; [done|]. eapply Forall_impl; [exact Hw|]. cbn beta. intros [k t] Ht. cbn [fst snd] in *.
    eapply writes_eq; [apply text_seq; [apply text_seq; [apply text_seq; [apply add_newline_writes|apply add_hspace_writes; lia]|apply Ht]|apply writes_write]|].
    by rewrite <- !app_assoc.
  - apply join_write; [done|]. eapply Forall_impl; [exact Hw|]. cbn beta. intros [k t] Ht. cbn [fst snd] in *.
    apply text_seq; [apply writes_write|apply Ht].
Qed.

Lemma printable_all (es : list (text * tree)) : fold_right (fun kt P => printable (snd kt) /\ P) True es <-> Forall (fun kt => printable (snd kt)) es.
Proof. induction es as [|kt es IH]; cbn; [by split|]. by rewrite Forall_cons, IH. Qed.

Lemma height_all (es : list (text * tree)) n : (fold_right (fun kt n => Nat.max (height (snd kt)) n) O es <= n)%nat -> Forall (fun kt => (height (snd kt) <= n)%nat) es.
Proof. induction es as [|kt es IH]; cbn; [by constructor|]. intros Hn. apply Forall_cons. split; [lia|]. apply IH. lia. Qed.

Lemma value_writes t : printable t -> forall fuel depth, (height t <= fuel)%nat -> writes (write_value fuel depth (value_of t)) (repr depth t).
Proof.
  induction t as [v|es IH|es IH] using tree_induction; intros Hp [|fuel] depth Hf; try (cbn in Hf; lia).
  - by apply write_scalar.
  - destruct Hp as [Hh Hp%printable_all]. cbn [height] in Hf. apply le_S_n, height_all in Hf. apply doc_writes; [done|done|].
    unfold written. rewrite !Forall_forall in *. intros kt Hk d. by apply IH; [|apply Hp|apply Hf].
  - destruct Hp as [Hh Hp%printable_all]. cbn [height] in Hf. apply le_S_n, height_all in Hf. apply array_writes; [done|].
    unfold written. rewrite !Forall_forall in *. intros kt Hk d. by apply IH; [|apply Hp|apply Hf].
Qed.

Lemma top_writes fuel es : printable (t_document es) -> (height (t_document es) <= fuel)%nat ->
  writes (top_write quoted fmt_double fmt_time opts fuel (Some (encode_doc (elements_of es)))) (spaces (initial_indent opts) ++ repr 0 (t_document es)).
Proof. intros Hp Hf. apply text_seq; [apply add_hspace_writes; lia|]. by apply (value_writes (t_document es)). Qed.

(** ** The stream *)

(** The buffer holds what is not written yet. *)
Definition buffered (o : mlib_os_writebuf) (t : text) : Prop :=
  concat (out o) ++ smallbuf o = t /\ Forall (fun c => zlen c = 512) (out o) /\ zlen (smallbuf o) < 512.

Lemma put_all_buffered t : forall o u, buffered o u -> buffered (put_all o t) (u ++ t).
Proof.
  induction t as [|c t IH]; intros o u Ho; [by rewrite app_nil_r|]. rewrite (cons_middle c), app_assoc.
  change (put_all o (c :: t)) with (put_all (put o c) t). apply IH. clear IH. destruct Ho as (Hc & Hf & Hl). unfold put. cbn [smallbuf].
  rewrite zlen_app, zlen_cons, zlen_nil. destruct (Z.eqb_spec (zlen (smallbuf o) + (1 + 0)) 512) as [E|E].
  - unfold flush, buffered. cbn [smallbuf out]. rewrite concat_app. cbn [concat]. rewrite !app_nil_r, app_assoc, Hc. split_and!; [done| |done].
    apply Forall_app. split; [done|]. apply Forall_singleton. rewrite zlen_app, zlen_cons, zlen_nil. done.
  - unfold buffered. cbn [smallbuf out]. rewrite app_assoc, Hc. split_and!; [done|done|]. rewrite zlen_app, zlen_cons, zlen_nil. lia.
Qed.

End Spec.

Lemma printed_pieces quoted fmt_double fmt_time opts es fuel :
  let o := match opts with Some o => o | None => mk_options 0 0 2 end in
  0 <= initial_indent o /\ 0 <= subsequent_indent o /\ 0 <= nested_indent o ->
  printable quoted fmt_double fmt_time (t_document es) -> (height (t_document es) <= fuel)%nat ->
  exists pieces rest, bson_write_repr quoted fmt_double fmt_time fuel (Some (encode_doc (elements_of es))) opts = Done (pieces ++ [rest]) /\
    concat pieces ++ rest = spaces (initial_indent o) ++ repr quoted fmt_double fmt_time o 0 (t_document es) /\
    Forall (fun p => zlen p = 512) pieces /\ zlen rest < 512.
Proof.
  cbv zeta. intros Ho Hp Hf. unfold bson_write_repr. set (o := match opts with Some o => o | None => mk_options 0 0 2 end) in *.
  rewrite (top_writes quoted fmt_double fmt_time o Ho fuel es Hp Hf). ostep. set (t := spaces _ ++ _) in *.
  destruct (put_all_buffered t (mk_writebuf [] []) []) as (Hc & Hb & Hl); [done|]. eexists _, _. split; [done|]. done.
Qed.

(** C36. A document is printed as the text of its tree, whatever the depth, the options and the values that can be printed: an empty document and
    a single value on one line, otherwise an element per line, indented by its depth, or separated by commas when there is no
    indentation; and the stream is given this text in pieces of 512 characters and a last one that is shorter. *)
Theorem document_printed quoted fmt_double fmt_time opts es fuel :
  let o := match opts with Some o => o | None => mk_options 0 0 2 end in
  0 <= initial_indent o /\ 0 <= subsequent_indent o /\ 0 <= nested_indent o ->
  printable quoted fmt_double fmt_time (t_document es) -> (height (t_document es) <= fuel)%nat ->
  exists pieces rest, bson_write_repr quoted fmt_double fmt_time fuel (Some (encode_doc (elements_of es))) opts = Done (pieces ++ [rest]) /\
    concat pieces ++ rest = spaces (initial_indent o) ++ repr quoted fmt_double fmt_time o 0 (t_document es) /\
    Forall (fun p => zlen p = 512) pieces /\ zlen rest < 512.
Proof. apply printed_pieces. Qed.

(** ** A concrete document *)

Definition sample_tree : list (text * tree) :=
  [(lit "a", t_value (v_int32 7)); (lit "b", t_document [(lit "c", t_value v_null)]); (lit "d", t_array [(lit "0", t_value (v_bool true)); (lit "1", t_document [])])].

Definition in_quotes (t : text) : text := [x22] ++ t ++ [x22].
Definition printed (opts : option bson_fmt_options) (es : list (text * tree)) : outcome text :=
  omap_outcome (@concat byte) (bson_write_repr in_quotes percent_d percent_d 4 (Some (encode_doc (elements_of es))) opts).

Lemma sample_printable : printable in_quotes percent_d percent_d (t_document sample_tree).
Proof.
  unfold sample_tree.
  repeat match goal with
  | |- holdable _ => cbn [elements_of map fst snd value_of]; solve_holdable
  | |- _ /\ _ => split
  | |- _ <> _ => done
  | |- True => done
  | _ => progress cbn [printable fold_right snd]
  end.
Qed.

Lemma document_printed_witness : exists pieces rest,
  printable in_quotes percent_d percent_d (t_document sample_tree) /\
  bson_write_repr in_quotes percent_d percent_d 4 (Some (encode_doc (elements_of sample_tree))) (Some (mk_options 0 0 0)) = Done (pieces ++ [rest]) /\
  zlen rest < 512.
Proof.
  destruct (document_printed in_quotes percent_d percent_d (Some (mk_options 0 0 0)) sample_tree 4) as (pieces & rest & E & _ & _ & Hl);
    [by vm_compute|exact sample_printable|by vm_compute; lia|].
  exists pieces, rest. split; [exact sample_printable|]. split; [exact E|exact Hl].
Defined.

Example sample_compact : printed (Some (mk_options 0 0 0)) [(lit "x", t_value (v_int32 (-1))); (lit "y", t_array [(lit "0", t_value v_null)])] =
  Done (lit "{ " ++ in_quotes (lit "x") ++ lit ": -1:i32, " ++ in_quotes (lit "y") ++ lit ": [ null ] }").
Proof. by vm_compute. Qed.

(** The seconds of a timestamp are printed as if they were milliseconds. *)
Example timestamp_as_milliseconds fmt_time secs : scalar in_quotes percent_d fmt_time (v_timestamp 1 secs) =
  (let* t := scalar in_quotes percent_d fmt_time (v_datetime secs) in Done (lit "Timestamp(" ++ drop 8 t ++ lit " : 1)")).
Proof.
  unfold scalar. ostep. change (drop 8 (lit "Datetime⟨" ++ fmt_time secs ++ lit "⟩")) with (lit "⟨" ++ fmt_time secs ++ lit "⟩").
  rewrite <- !app_assoc. by vm_compute.
Qed.
