(* ===== verification/Client.v ===== *)
(** * The creation of a client ([src/amongoc/client.cpp], [client.hpp], the TLS contexts of [connection_pool.cpp], [mlib/lazy_init.hpp])

    A client parses its connection string ([Uri.v]), makes a pool ([Pool.v]) and checks one connection out, so that it resolves only
    when there is a server; the connection is idle in the pool afterwards.  With TLS the context is made once, from the options.
    Resolving, connecting, the TLS handshake and the files that OpenSSL loads are parameters; [stream_error] stands for the statuses that
    the first two throw. *)
From Stdlib Require Import ZArith Lia.
From Stdlib Require Import Strings.Byte Strings.String.
From stdpp Require Import base numbers list sets.
From S2P Require Import Prelude.
From S2P Require Import Types.
From S2P Require Import Alloc.
From S2P Require Import Wire.
From S2P Require Import WireClient.
From S2P Require Import Uri.
From S2P Require Import Pool.
From S2P Require Import Status.
From S2P Require Import Collection.
Import ConnectionPool.
Open Scope Z_scope.
Open Scope outcome_scope.

(** ** TLS contexts *)

(** The members of [connection_params] for TLS that are not in [Uri.connection_params]: no parameter of a connection string sets them. *)
Record tls_options : Type := mk_tls_options {
  tlsCAFile : option text;
  tlsAllowInvalidCertificates : option bool;
  tlsAllowInvalidHostnames : option bool;
  tlsCertificateKeyFile : option text;
  tlsCertificateKeyFilePassword : option text }.

Definition parsed_tls_options : tls_options := mk_tls_options None None None None None.

(** [asio::ssl::context], as far as it is configured here. *)
Record ssl_context : Type := mk_context {
  verify_file : option text;
  verify_peer : bool;
  host_name_verification : option text;
  password_callback : option text;
  certificate_file : option text }.

(** [lazy_threadsafe::operator*]: what throws leaves the object uninitialized. *)
Definition lazy_get {T} (value : option T) (init : outcome (exn + T)) : outcome (option T * (exn + T)) :=
  match value with
  | Some t => Done (value, inr t)
  | None => let* r := init in Done (match r with inl _ => None | inr t => Some t end, r)
  end.

Section Client.
Context {W Addr Socket C Hello M R AS : Type} `{Allocator AS} `{ClientInterface C M R}.
Context (X : externals) (stream_code : Z -> error_code).
(** What OpenSSL says of the files. *)
Context (load_verify_file use_certificate_file : text -> option Z).

Definition loads (load : text -> option Z) (file : option text) : option exn :=
  file ≫= (fun f => stream_error <$> load f).

(** [asio_ssl_init::operator()]. *)
Definition asio_ssl_init (o : tls_options) (u : connection_uri) : outcome (exn + ssl_context) :=
  match loads load_verify_file (tlsCAFile o) with
  | Some e => Done (inl e)
  | None =>
    let allow_invalid_certs :=
      bool_decide (bools (params u) tlsInsecure = Some true) || bool_decide (tlsAllowInvalidCertificates o = Some true) in
    let verify_hostname := negb (bool_decide (tlsAllowInvalidHostnames o = Some true)) in
    let* callback :=
      if negb allow_invalid_certs then
        match hosts u with
        | [] => Undef
        | ep :: _ => Done (if verify_hostname then match h_host ep with hostname hn => Some hn | _ => None end else None)
        end
      else Done None in
    match loads use_certificate_file (tlsCertificateKeyFile o) with
    | Some e => Done (inl e)
    | None => Done (inr (mk_context (tlsCAFile o) (negb allow_invalid_certs) callback (tlsCertificateKeyFilePassword o) (tlsCertificateKeyFile o)))
    end
  end.

(** ** Connections *)

Context (async_resolve : text -> Z -> co_task W Addr) (async_connect : Addr -> co_task W Socket) (plain_client : Socket -> C).
Context (do_handshake : C -> option text -> co_task W (C * Hello)).
Context (parse_uri : text -> boost_error + url_view) (decode : text -> text) (comma_split : text -> list text).

(** The network with [_ssl_context], a member of the pool. *)
Abbreviation N := (W * option ssl_context)%type.
Definition on_net {A} (x : co_task W A) : co_task N A := fun '(net, cell) => let* (net, r) := x net in Done ((net, cell), r).

Section Connecting.
Context (ssl_connect : ssl_context -> Socket -> co_task W C).

(** The TLS part of [prepare_client]. *)
Definition tls_connect (u : connection_uri) (raw_socket : Socket) : co_task N C := fun '(net, cell) =>
  let* (cell, r) := lazy_get cell (asio_ssl_init parsed_tls_options u) in
  match r with
  | inl e => Done ((net, cell), inl e)
  | inr ctx => on_net (ssl_connect ctx raw_socket) (net, cell)
  end.

Definition pool_checkout (self : pool_impl (C := C) (Hello := Hello)) (n : N) :=
  checkout (fun name port => on_net (async_resolve name port)) (fun a => on_net (async_connect a)) plain_client (tls_connect (ConnectionPool.uri self))
    (fun c app => on_net (do_handshake c app)) (self, n).

(** ** Clients *)

Record amongoc_client : Type := mk_client { _pool : pool_impl (C := C) (Hello := Hello) }.

Definition uri_status (s : Uri.status) : amongoc_status :=
  Status.mk_status (match Uri.st_category s with
             | generic_category => known_category generic
             | system_category => known_category Status.system
             | unknown_category => known_category unknown
             end) (Uri.st_code s).

(** The status that an exception resolves with. *)
Definition exn_status (e : exn) : outcome amongoc_status :=
  let* r := unhandled_exception (AS := AS) X stream_code (wire_exn e) in Done (Collection.status r).

(** [amongoc_client_new]: [granted] tells whether there is memory for the client.  The connection goes back to the pool at the end
    of the expression; when something is thrown the client is deleted. *)
Definition amongoc_client_new (uri_str : text) (granted : bool) (net : W) : outcome (N * (amongoc_status * option amongoc_client)) :=
  let* r := fst (Uri.parse parse_uri decode comma_split uri_str) in
  match r with
  | inl st => Done ((net, None), (uri_status st, None))
  | inr u =>
    if negb granted then let* st := exn_status bad_alloc in Done ((net, None), (st, None))
    else
      let* ((pool, n), r) := pool_checkout (new_pool_impl u) (net, None) in
      match r with
      | inl e => let* st := exn_status e in Done (n, (st, None))
      | inr m => Done (n, (amongoc_okay, Some (mk_client (destroy_member pool (Some m)))))
      end
  end.

(** [amongoc_client_delete]: the idle connections are closed with the pool; nothing happens for a null pointer. *)
Definition amongoc_client_delete (cl : option amongoc_client) : list C :=
  match cl with None => [] | Some cl => map _client (_idle_connections (_pool cl)) end.

(** [checking_wire_client], without the check of [WireClient.v]. *)
Definition wire_client (cl : amongoc_client) (n : N) : pool_client (C := C) (Hello := Hello) := mk_pool_client (_pool cl) n None.

Definition client_request (cl : amongoc_client) (msg : M) (n : N) :=
  pool_client_request (R := R) (fun name port => on_net (async_resolve name port)) (fun a => on_net (async_connect a)) plain_client
    (tls_connect (ConnectionPool.uri (_pool cl))) (fun c app => on_net (do_handshake c app)) msg (wire_client cl n).

(** ** Handles of databases and collections *)

(** What is allocated: the object and its strings; [granted] tells whether there is memory for all. *)
Definition amongoc_collection_new (alloc : AS) (db_name coll_name : text) (granted : bool) : option (amongoc_collection AS) :=
  if granted then Some (mk_collection db_name coll_name alloc) else None.

Definition _amongoc_database_new (alloc : AS) (db_name : text) (granted : bool) : option (amongoc_database (AS := AS)) :=
  if granted then Some (mk_database db_name alloc) else None.

(** A C string. *)
Definition amongoc_database_get_name (db : amongoc_database (AS := AS)) : text := db_name db ++ [x00].

(** ** What a client does *)

(** The context that a connection string gives, and a cell that holds it or nothing. *)
Definition context_of (u : connection_uri) (name : text) : ssl_context :=
  let verified := negb (bool_decide (bools (params u) tlsInsecure = Some true)) in
  mk_context None verified (if verified then Some name else None) None None.
Definition cell_ok (ctx : ssl_context) (cell : option ssl_context) : Prop := cell = None \/ cell = Some ctx.

(** A connection to the host and port of the connection string. *)
Definition connection (u : connection_uri) (name : text) (port : Z) : co_task W (C * Hello) :=
  let! addr := async_resolve name port in
  let! socket := async_connect addr in
  let! made := (if bool_decide (bools (params u) Uri.tls = Some true) then ssl_connect (context_of u name) socket
                  else co_return (plain_client socket)) in
  do_handshake made (strings (params u) appname).

(** A task on the network does the same in the world with the cell. *)
Definition same_task {A} (ctx : ssl_context) (x : co_task W A) (y : co_task N A) : Prop := forall net cell, cell_ok ctx cell ->
  match x net with
  | Done (net', r) => exists cell', cell_ok ctx cell' /\ y (net, cell) = Done ((net', cell'), r)
  | Abort => y (net, cell) = Abort
  | Undef => y (net, cell) = Undef
  end.

Lemma same_on_net {A} ctx (x : co_task W A) : same_task ctx x (on_net x).
Proof. intros net cell Hc. unfold on_net. destruct (x net) as [[net' r]| |]; [|done..]. by exists cell. Qed.

Lemma same_return {A} ctx (a : A) : same_task ctx (co_return a) (co_return a).
Proof. intros net cell Hc. by exists cell. Qed.

Lemma same_bind {A B} ctx (x : co_task W A) y (k : A -> co_task W B) l :
  same_task ctx x y -> (forall a, same_task ctx (k a) (l a)) -> same_task ctx (co_await x k) (co_await y l).
Proof.
  intros Hx Hk net cell Hc. unfold co_await. specialize (Hx net cell Hc).
  destruct (x net) as [[net' [e|a]]| |]; [| |by rewrite Hx..].
  - destruct Hx as (cell' & Hc' & ->). by exists cell'.
  - destruct Hx as (cell' & Hc' & ->). ostep. apply (Hk a net' cell' Hc').
Qed.

(** The context is made when it is not there. *)
Lemma lazy_context u name port rest cell : hosts u = mk_host (hostname name) port :: rest -> cell_ok (context_of u name) cell ->
  lazy_get cell (asio_ssl_init parsed_tls_options u) = Done (Some (context_of u name), inr (context_of u name)).
Proof.
  intros Hh [->| ->]; [|done]. unfold lazy_get, asio_ssl_init, context_of. simpl. rewrite orb_false_r, Hh. by case_bool_decide.
Qed.

Lemma on_net_cell {A} (x : co_task W A) net cell net' cell' r : on_net x (net, cell) = Done ((net', cell'), r) -> cell' = cell.
Proof. unfold on_net. destruct (x net) as [[n r']| |]; [|done..]. by intros [= _ <- _]. Qed.

Lemma same_tls u name port rest socket : hosts u = mk_host (hostname name) port :: rest ->
  same_task (context_of u name) (ssl_connect (context_of u name) socket) (tls_connect u socket).
Proof.
  intros Hh net cell Hc. unfold tls_connect. rewrite (lazy_context u name port rest cell Hh Hc). ostep. apply same_on_net. by right.
Qed.

(** A new connection in the world with the cell. *)
Lemma same_connection u name port rest : hosts u = mk_host (hostname name) port :: rest ->
  same_task (context_of u name) (connection u name port)
    (connect_new (fun name port => on_net (async_resolve name port)) (fun a => on_net (async_connect a)) plain_client (tls_connect u)
       (fun c app => on_net (do_handshake c app)) (new_pool_impl u)).
Proof.
  intros Hh. unfold connection, connect_new. cbn [ConnectionPool.uri new_pool_impl]. rewrite Hh. cbn [h_host h_port].
  apply same_bind; [apply same_on_net|]. intros addr. apply same_bind; [apply same_on_net|]. intros socket.
  apply same_bind; [|intros c; apply same_on_net]. unfold prepare_client. cbn [ConnectionPool.uri new_pool_impl].
  case_bool_decide; simpl; [by eapply same_tls|apply same_return].
Qed.

(** C10. A client that is created for a connection string: when that is refused, it resolves with the status of the parser and the
    network is not touched; otherwise it resolves with what connecting to the host comes to (resolved, connected, with TLS when the
    string says so, and the handshake made): the status of what was thrown, or a client whose pool holds that connection, idle, so
    that the first request uses it and the network is not touched again.  A host that is an address ends the process. *)
Theorem client_new_spec uri_str granted net :
  let new := amongoc_client_new uri_str granted net in
  match fst (Uri.parse parse_uri decode comma_split uri_str) with
  | Done (inl st) => new = Done ((net, None), (uri_status st, None))
  | Done (inr u) => if negb granted then new = Done ((net, None), (Status.mk_status (known_category generic) (ENOMEM X), None)) else
      match hosts u with
      | [] => new = Undef
      | mk_host (hostname name) port :: _ =>
        match connection u name port net with
        | Done (net', inr (c, hs)) => exists cell cl, new = Done ((net', cell), (amongoc_okay, Some cl)) /\
            _idle_connections (_pool cl) = [mk_member_impl c hs 1 1 false] /\ amongoc_client_delete (Some cl) = [c] /\
            forall msg, match request msg c with
              | Done (c', inr reply) => exists self, client_request cl msg (net', cell) = Done (self, inr reply) /\
                  pc_net self = (net', cell) /\ _pool_member self = Some (mk_member_impl c' hs 1 1 false)
              | Done (_, inl e) => exists self, client_request cl msg (net', cell) = Done (self, inl e) /\
                  pc_net self = (net', cell) /\ _pool_member self = None /\ _idle_connections (pc_pool self) = []
              | Abort => client_request cl msg (net', cell) = Abort
              | Undef => client_request cl msg (net', cell) = Undef
              end
        | Done (net', inl e) => exists cell, new = (let* st := exn_status e in Done ((net', cell), (st, None)))
        | Abort => new = Abort
        | Undef => new = Undef
        end
      | _ :: _ => new = Abort
      end
  | Abort => new = Abort
  | Undef => new = Undef
  end.
Proof.
  cbv zeta. unfold amongoc_client_new. destruct (fst (Uri.parse parse_uri decode comma_split uri_str)) as [[st|u]| |]; try done. ostep.
  destruct granted; [|done]. cbn [negb]. unfold pool_checkout, checkout. cbn [take_idle new_pool_impl _idle_connections ConnectionPool.uri].
  destruct (hosts u) as [|[[v|b|name] port] rest] eqn:Hh; [unfold connect_new; cbn [ConnectionPool.uri new_pool_impl]; by rewrite Hh..|].
  pose proof (same_connection u name port rest Hh net None (or_introl eq_refl)) as Hc.
  destruct (connection u name port net) as [[net' [e|[c hs]]]| |]; [| |by rewrite Hc..].
  - destruct Hc as (cell & _ & ->). ostep. by exists cell.
  - destruct Hc as (cell & _ & ->). ostep. eexists cell, _. split; [done|]. split; [done|]. split; [done|].
    intros msg. unfold client_request, pool_client_request, wire_client. cbn. unfold member_request. cbn.
    destruct (request msg c) as [[c' [e|reply]]| |]; try done; ostep; by eexists.
Qed.
End Connecting.
End Client.

(** ** What is verified *)

Section Verified.
Context {W Addr Socket C Hello AS : Type} `{Allocator AS}.
Context (X : externals) (stream_code : Z -> error_code) (load_verify_file use_certificate_file : text -> option Z).
Context (async_resolve : text -> Z -> co_task W Addr) (async_connect : Addr -> co_task W Socket).
Context (do_handshake : C -> option text -> co_task W (C * Hello)).
Context (parse_uri : text -> boost_error + url_view) (decode : text -> text) (comma_split : text -> list text).

Definition new_with (plain_client : Socket -> C) (ssl_connect : ssl_context -> Socket -> co_task W C) :=
  amongoc_client_new (AS := AS) X stream_code load_verify_file use_certificate_file async_resolve async_connect plain_client do_handshake parse_uri decode
    comma_split ssl_connect.

(** C11. No unverified connection: when the connection string asks for TLS and not for an insecure one, all that the client does, with whatever
    it connects to, is decided by TLS handshakes whose context verifies the peer, against the host name of the string; neither a
    connection in the clear nor one with another context is ever made. *)
Theorem client_verifies uri_str granted net u name port rest plain plain' ssl_connect ssl_connect' :
  fst (Uri.parse parse_uri decode comma_split uri_str) = Done (inr u) -> hosts u = mk_host (hostname name) port :: rest ->
  bools (params u) Uri.tls = Some true -> bools (params u) tlsInsecure <> Some true ->
  (forall ctx socket net, verify_peer ctx = true -> host_name_verification ctx = Some name -> ssl_connect ctx socket net = ssl_connect' ctx socket net) ->
  new_with plain ssl_connect uri_str granted net = new_with plain' ssl_connect' uri_str granted net.
Proof.
  intros Hp Hh Ht Hi Hs. unfold new_with, amongoc_client_new. rewrite Hp. ostep. destruct granted; [|done]. cbn [negb].
  unfold pool_checkout, checkout. cbn [take_idle new_pool_impl _idle_connections]. unfold connect_new, prepare_client, co_await.
  cbn [ConnectionPool.uri new_pool_impl]. rewrite Hh, Ht. cbn [h_host h_port]. rewrite bool_decide_eq_true_2 by done. cbn [negb].
  destruct (on_net (async_resolve name port) (net, None)) as [[n1 [e|addr]]| |] eqn:E1; ostep; try done.
  destruct (on_net (async_connect addr) n1) as [[n2 [e|socket]]| |] eqn:E2; ostep; try done.
  destruct n1 as [w1 c1], n2 as [w2 c2]. apply on_net_cell in E1 as ->. apply on_net_cell in E2 as ->.
  unfold tls_connect. rewrite (lazy_context _ _ u name port rest None Hh (or_introl eq_refl)). ostep. unfold on_net at 1 3.
  rewrite Hs; [done|..]; unfold context_of; by rewrite bool_decide_eq_false_2.
Qed.
End Verified.

(** ** A concrete client *)

(** The network counts what was connected; a socket that is not encrypted has the number 0, one whose peer was not verified 1. *)
Definition checked (ctx : ssl_context) (socket : nat) : co_task nat nat := fun net => Done (S net, inr (if verify_peer ctx then 2%nat else 1%nat)).
Definition unchecked (ctx : ssl_context) (socket : nat) : co_task nat nat := fun net =>
  if verify_peer ctx then Done (S net, inr 2%nat) else Done (net, inl bad_alloc).

Definition demo_new (plain : nat -> nat) (ssl : ssl_context -> nat -> co_task nat nat) (params : list (text * text)) :=
  new_with (Addr := Z) (Hello := option text) (AS := ample) linux_externals (fun _ => mk_error_code (cxx_known Status.system) 5) (fun _ => None) (fun _ => None)
    (fun _ port net => Done (net, inr port)) (fun addr net => Done (S net, inr 0%nat)) (fun c app net => Done (net, inr (c, app)))
    (fun _ => inr (mk_url (chars "mongodb") (chars "db.test") host_name (chars "db.test") 0 [] (chars "27017") true 27017 params false [] [] (chars "/") (chars "/")))
    id (fun sv => [sv]) plain ssl [] true 0%nat.

Definition clients_of (o : outcome ((nat * option ssl_context) * (amongoc_status * option (amongoc_client (C := nat) (Hello := option text))))) :=
  let* (n, (st, cl)) := o in Done (n.1, st, amongoc_client_delete cl).

Lemma client_verifies_witness :
  let tls := [(chars "tls", chars "true"); (chars "appname", chars "one")] in
  clients_of (demo_new (fun s => s) checked tls) = Done (2%nat, amongoc_okay, [2%nat]) /\
  demo_new (fun s => s) checked tls = demo_new (fun _ => 7%nat) unchecked tls.
Proof.
  cbv zeta. split; [vm_compute; reflexivity|]. unfold demo_new.
  eapply client_verifies with (name := chars "db.test") (port := 27017) (rest := []).
  - vm_compute. reflexivity.
  - reflexivity.
  - reflexivity.
  - vm_compute. discriminate.
  - intros ctx socket net Hv _. unfold checked, unchecked. rewrite Hv. reflexivity.
Defined.

(** An insecure connection string; none for TLS. *)
Example insecure_unverified :
  clients_of (demo_new (fun s => s) checked [(chars "tls", chars "true"); (chars "tlsInsecure", chars "true")]) = Done (2%nat, amongoc_okay, [1%nat]) /\
  clients_of (demo_new (fun s => s) checked []) = Done (1%nat, amongoc_okay, [0%nat]).
Proof. split; vm_compute; reflexivity. Qed.

(** Without a port in the string the host is resolved with the port -1. *)
Example no_default_port : exists u, fst sample_parse = Done (inr u) /\ map h_port (hosts u) = [-1].
Proof. eexists. split; [vm_compute; reflexivity|]. reflexivity. Qed.

(** The file of a certificate authority is an unknown parameter. *)
Example tls_options_unknown :
  snd (Uri.parse (fun _ => inr (mk_url (chars "mongodb") (chars "h") host_name (chars "h") 0 [] (chars "1") true 1
    [(chars "tlsCAFile", chars "ca.pem")] false [] [] [] [])) id (fun sv => [sv]) []) = [unknown_parameter (chars "tlsCAFile")].
Proof. vm_compute. reflexivity. Qed.
