(* ===== verification/Tcp.v ===== *)
(** * TCP connections over an event loop ([src/amongoc/tcp_conn.hpp], the results of [nano/simple.hpp])

    Resolving, connecting, reading and writing start operations of the loop of [Loop.v] and make results of what it completes
    their handlers with. *)
From Stdlib Require Import ZArith Lia.
From stdpp Require Import base numbers list sets.
From S2P Require Import Prelude.
From S2P Require Import Status.
From S2P Require Import Pool.
From S2P Require Import Nano.
From S2P Require Import Loop.
Import ObjectPool.
Open Scope Z_scope.
Open Scope outcome_scope.

Record address_info : Type := mk_address_info { ai_box : Loop.value }.
Record tcp_connection_rw_stream : Type := mk_stream { conn : Loop.value }.

Section Tcp.
Context (X : externals) (stop_possible : handler -> bool).

(** The handler of a receiver of results ([cxx_recv_as_c_handler]). *)
Definition as_result (st : amongoc_status) (val : Loop.value) : result Loop.value amongoc_status :=
  if amongoc_is_error X st then error st else success val.

(** [result_fmap] of a function. *)
Definition fmap_result {T U E} (f : T -> U) (r : result T E) : result U E :=
  match r with success v => success (f v) | error e => error e end.

(** [async_resolve], and what its receiver is given when the handler is completed. *)
Definition async_resolve (l : default_loop) (h : handler) : default_loop := getaddrinfo stop_possible l h.
Definition resolve_completer (st : amongoc_status) (val : Loop.value) : result address_info amongoc_status :=
  fmap_result mk_address_info (as_result st val).

(** [async_connect]. *)
Definition async_connect (l : default_loop) (h : handler) : default_loop := tcp_connect stop_possible l h.
Definition connect_completer (st : amongoc_status) (val : Loop.value) : result tcp_connection_rw_stream amongoc_status :=
  fmap_result mk_stream (as_result st val).

(** [async_read_some] and [async_write_some]: the buffers that Asio is given, and the operation. *)
Definition async_read_some {A} (l : default_loop) (bufs : list A) (h : handler) : default_loop * list A :=
  (tcp_read_some stop_possible l h, buf_vec (copy_to_capacity 16 bufs)).
Definition async_write_some {A} (l : default_loop) (bufs : list A) (h : handler) : default_loop * list A :=
  (tcp_write_some stop_possible l h, buf_vec (copy_to_capacity 16 bufs)).

(** [amongoc_loop_asio_executor::execute]: the function is the handler. *)
Definition execute (l : default_loop) (fn : handler) : outcome default_loop := call_soon l amongoc_okay nil_value (Some fn).

(** ** What handlers are completed with *)

(** An action that starts an operation with a transformer. *)
Definition starts (a : action) (h : handler) (tr : transformer) : Prop :=
  match a with
  | later res h' => h' = h /\ tr = constant res
  | resolve h' | transfer h' => h' = h /\ tr = as_box
  | connect h' => h' = h /\ exists s, tr = connected s
  | _ => False
  end.

Definition started (acts : list action) (a : adapter) : Prop := exists x, x ∈ acts /\ starts x (_handler a) (_transform a).

(** A completion comes of a value that was posted, or of an operation that Asio completed. *)
Definition reported (acts : list action) (p : handler * amongoc_status * Loop.value) : Prop :=
  soon p.1.2 p.2 p.1.1 ∈ acts \/
  exists x tr i ec res, x ∈ acts /\ starts x p.1.1 tr /\ completes i ec res ∈ acts /\ p.1.2 = from X ec /\ p.2 = transform tr res.

Record accounted (acts : list action) (l : default_loop) : Prop := {
  a_posted p : p ∈ posted l -> soon p.1.2 p.2 p.1.1 ∈ acts;
  a_pending a : a ∈ pending l -> started acts a;
  a_completed p : p ∈ completed l -> reported acts p }.

Lemma started_app acts b a : started acts a -> started (acts ++ b) a.
Proof. intros (x & Hx & Hs). exists x. split; [|done]. set_solver. Qed.

Lemma reported_app acts b p : reported acts p -> reported (acts ++ b) p.
Proof. intros [H|(x & tr & i & ec & res & H)]; [left; set_solver|right]. exists x, tr, i, ec, res. set_solver. Qed.

Lemma accounted_app acts b l : accounted acts l -> accounted (acts ++ b) l.
Proof.
  intros [Hp Hn Hc]. split; intros y Hy; [|by apply started_app, Hn|by apply reported_app, Hc]. specialize (Hp y Hy). set_solver.
Qed.
Lemma initiate_accounted acts l h tr k a : accounted acts l -> starts a h tr -> accounted (acts ++ [a]) (initiate stop_possible l h tr k).
Proof.
  intros Ha Hs. apply (accounted_app acts [a]) in Ha as [Hp Hn Hc]. unfold initiate. destruct (checkout factory _ _) as [[signals m] sig].
  split; cbn [posted pending completed]; [done| |done]. intros b [Hb|Hb%list_elem_of_singleton]%elem_of_app; [by apply Hn|]. subst b.
  exists a. split; [set_solver|done].
Qed.

(** Signals change neither the handler nor the transformer of an operation. *)
Lemma stopped_accounted acts l h : accounted acts l -> accounted acts (request_stop l h).
Proof.
  intros [Hp Hn Hc]. split; cbn [request_stop with_pending posted pending completed]; [done| |done].
  assert (forall rs p, (forall a, a ∈ p -> started acts a) ->
    forall a, a ∈ fold_left (fun p r => if decide (r.1 = h) then Loop.emit r.2 p else p) rs p -> started acts a) as Hf; [|by apply Hf].
  induction rs as [|r rs IH]; intros p Hq; [done|]. cbn [fold_left]. apply IH. intros a. case_decide; [|by apply Hq].
  unfold Loop.emit. intros (b & -> & Hb)%list_elem_of_fmap. specialize (Hq b Hb). by case_decide.
Qed.

Lemma act_accounted acts l a l' : accounted acts l -> act X stop_possible l a = Done l' -> accounted (acts ++ [a]) l'.
Proof.
  intros Ha. pose proof (accounted_app acts [a] l Ha) as [Hp Hn Hc].
  destruct a as [st res h|res h|h|h|h| |i ec res|i|h]; cbn [act].
  - cbn [call_soon]. intros [= <-]. split; cbn [posted pending completed]; [|done..].
    intros p [H|H%list_elem_of_singleton]%elem_of_app; [by apply Hp|]. subst p. cbn. set_solver.
  - unfold call_later. destruct (checkout factory (_timers l) (Loop.made l)) as [[timers m] t]. intros [= <-]. apply initiate_accounted; [|done].
    by destruct Ha as [? ? ?].
  - unfold getaddrinfo. destruct (checkout factory (_resolvers l) (Loop.made l)) as [[rs m] r]. intros [= <-]. apply initiate_accounted; [|done].
    by destruct Ha as [? ? ?].
  - unfold tcp_connect. cbn [factory]. intros [= <-]. apply initiate_accounted; [by destruct Ha as [? ? ?]|]. split; [done|by eexists].
  - intros [= <-]. by apply initiate_accounted.
  - intros [= <-]. unfold run_posted. destruct (posted l) as [|p rest] eqn:E; [by apply accounted_app|]. split; cbn [posted pending completed]; [|done|].
    + intros q Hq. apply Hp. set_solver.
    + intros q [H|H%list_elem_of_singleton]%elem_of_app; [by apply Hc|]. subst q. left. apply Hp. set_solver.
  - intros [= <-]. unfold asio_complete. destruct (pending l !! i) as [b|] eqn:E; [|by apply accounted_app].
    assert (b ∈ pending l) as Hb by (by eapply list_elem_of_lookup_2). split; cbn [adapter_call with_pending posted pending completed]; [done| |].
    + intros c Hc'. apply Hn. rewrite (delete_Permutation _ _ _ E). set_solver.
    + intros q [H|H%list_elem_of_singleton]%elem_of_app; [by apply Hc|]. subst q. right. destruct (Hn b Hb) as (x & Hx & Hs).
      exists x, (_transform b), i, ec, res. split_and!; try done. set_solver.
  - intros [= <-]. unfold adapter_destroyed. destruct (completing l !! i); [by split|by apply accounted_app].
  - intros [= <-]. apply stopped_accounted. by apply accounted_app.
Qed.

Lemma run_accounted acts : forall l done_before l', accounted done_before l -> act_all X stop_possible l acts = Done l' -> accounted (done_before ++ acts) l'.
Proof.
  induction acts as [|a acts IH]; intros l before l' Ha; cbn [act_all].
  - intros [= <-]. by rewrite app_nil_r.
  - destruct (act X stop_possible l a) as [l1| |] eqn:E; [|done..]. ostep. intros Hr. apply (act_accounted _ _ _ _ Ha) in E.
    specialize (IH l1 (before ++ [a]) l' E Hr). by rewrite <- app_assoc in IH.
Qed.

Lemma new_accounted : accounted [] new_loop.
Proof. split; cbn; intros ? H; by apply elem_of_nil in H. Qed.

(** A handler that only [a] gives to the loop. *)
Definition only (acts : list action) (h : handler) (a : action) : Prop := forall x, x ∈ acts -> given x = [h] -> x = a.

Lemma only_reported acts l h st val a : act_all X stop_possible new_loop acts = Done l -> (h, st, val) ∈ completed l -> only acts h a ->
  (forall res, a <> soon st res h) -> exists tr i ec res, starts a h tr /\ completes i ec res ∈ acts /\ st = from X ec /\ val = transform tr res.
Proof.
  intros Hr Hc Ho Hn. apply (run_accounted acts _ [] _ new_accounted) in Hr. destruct (a_completed _ _ Hr _ Hc) as [H|(x & tr & i & ec & res & Hx & Hs & H)].
  - destruct (Hn val). symmetry. by apply (Ho _ H).
  - assert (given x = [h]) as Hg by (destruct x; cbn in Hs |- *; try done; by destruct Hs as [-> _]). apply Ho in Hg; [|done]. subst x.
    exists tr, i, ec, res. by split.
Qed.

(** Whatever else is on the loop: a name that is resolved gives the results that Asio completed a resolution with, a connection the socket that
    was made for it, and either gives the status of the error code when that is not zero; a transfer gives its caller the error code
    of Asio, when its category has a status, and the size. *)
Theorem tcp_reports acts l h st val : errors_nonzero X -> act_all X stop_possible new_loop acts = Done l -> (h, st, val) ∈ completed l ->
  (only acts h (resolve h) -> exists i ec res, completes i ec res ∈ acts /\
     resolve_completer st val = (if ec_value ec =? 0 then success (mk_address_info (transform as_box res)) else error (from X ec))) /\
  (only acts h (connect h) -> exists i ec res s, completes i ec res ∈ acts /\
     connect_completer st val = (if ec_value ec =? 0 then success (mk_stream (socket_value s)) else error (from X ec))) /\
  (only acts h (transfer h) -> exists i ec res, completes i ec res ∈ acts /\
     forall k n, ec_category ec = cxx_known k -> res = transferred n -> transfer_completer st val = Done (ec, n)).
Proof.
  intros HX Hr Hc. assert (forall ec : error_code, amongoc_is_error X (from X ec) = negb (ec_value ec =? 0)) as He by (intros ec; by apply from_is_error).
  split_and!; intros Ho; destruct (only_reported acts l h st val _ Hr Hc Ho) as (tr & i & ec & res & Hs & Hi & -> & ->); try done;
    destruct Hs as [_ Hs].
  - exists i, ec, res. split; [done|]. unfold resolve_completer, as_result. rewrite He, Hs. by destruct (ec_value ec =? 0).
  - destruct Hs as [s Hs]. exists i, ec, res, s. split; [done|]. unfold connect_completer, as_result. rewrite He, Hs. by destruct (ec_value ec =? 0).
  - exists i, ec, res. split; [done|]. intros k n Hk ->. rewrite Hs. unfold transfer_completer. cbn [transform].
    destruct (status_roundtrip X) as [_ Hb]. by rewrite Hb, Hk.
Qed.
End Tcp.

(** ** A concrete connection *)

Definition okay_code : error_code := mk_error_code (cxx_known system) 0.
Definition sample_acts : list action :=
  [resolve 1; completes 0 okay_code (resolved 5); returns 0; connect 2; transfer 3; completes 0 okay_code endpoint; completes 0 okay_code (transferred 16)]%nat.

Example sample_completers : (let* l := act_all linux_externals (fun _ => true) new_loop sample_acts in Done (completed l)) =
  Done [(1%nat, from linux_externals okay_code, results_value 5); (2%nat, from linux_externals okay_code, socket_value 3); (3%nat, from linux_externals okay_code, size_value 16)].
Proof. vm_compute. reflexivity. Qed.

Lemma tcp_reports_witness : exists l st val,
  act_all linux_externals (fun _ => true) new_loop sample_acts = Done l /\ (2%nat, st, val) ∈ completed l /\
  exists i ec res s, completes i ec res ∈ sample_acts /\
    connect_completer linux_externals st val = (if ec_value ec =? 0 then success (mk_stream (socket_value s)) else error (from linux_externals ec)).
Proof.
  do 3 eexists. split; [vm_compute; reflexivity|]. split; [right; left|].
  eapply (tcp_reports linux_externals (fun _ => true) sample_acts); [repeat split; discriminate|vm_compute; reflexivity|right; left|].
  intros x Hx Hg. unfold sample_acts in Hx. repeat (apply elem_of_cons in Hx as [->|Hx]; [first [reflexivity|discriminate Hg]|]). by apply elem_of_nil in Hx.
Defined.
