(* ===== verification/Trace.v ===== *)
(** * Wire tracing ([src/amongoc/wire/proto.hpp], [proto.cpp])

    With [trace::enabled], [send_message] and [recv_message] of [Wire.v] print what they send and receive to the standard error,
    the documents with the printer of [Format.v]. *)
From Stdlib Require Import ZArith Lia.
From Stdlib Require Import Strings.Byte Strings.String.
From stdpp Require Import base numbers list sets.
From S2P Require Import Prelude.
From S2P Require Import Mem.
From S2P Require Import Types.
From S2P Require Import Alloc.
From S2P Require Import Doc.
From S2P Require Import Codec.
From S2P Require Import Parse.
From S2P Require Import Status.
From S2P Require Import Reply.
From S2P Require Import Format.
From S2P Require Import Wire.
From S2P Require Import WireSpec.
From S2P Require Import WireClient.
Open Scope Z_scope.
Open Scope outcome_scope.

Definition newline_char : text := [x0a].

(** [message_header]. *)
Definition op_name (opcode : Z) : text := if opcode =? 2013 then lit "OP_MSG" else lit "<unknown opcode>".
Definition message_header (prefix : text) (messageLength requestID opcode : Z) : text :=
  prefix ++ lit " " ++ op_name opcode ++ lit " #" ++ percent_d requestID ++ lit " (" ++ percent_d messageLength ++ lit " bytes)" ++ newline_char.

(** [message_exception], with what the exception says when it is a [std::exception]. *)
Definition message_exception (msg : text) (e : option text) : text :=
  lit "[wire] " ++ msg ++ lit ": exception: " ++ default (lit "(unknown type)") e ++ newline_char.

Definition trace_options : bson_fmt_options := mk_options 0 2 2.
(** A document is nested less deeply than it is long. *)
Definition trace_fuel (d : list byte) : nat := S (length d).

Section Trace.
Context (quoted : text -> text) (fmt_double fmt_time : Z -> text) (what : exn -> text).

(** [message_body_section]. *)
Definition message_body_section (nth : Z) (body : list byte) : outcome text :=
  let* pieces := bson_write_repr quoted fmt_double fmt_time (trace_fuel body) (Some body) (Some trace_options) in
  Done (lit "  Section #" ++ percent_d nth ++ lit " body: " ++ concat pieces ++ newline_char).

(** [message_section] of a section, and of a dynamically typed one. *)
Class Traced (Sec : Type) : Type := message_section : Z -> Sec -> outcome text.

#[export] Instance body_section_traced {BSON} `{HasData BSON} : Traced (body_section BSON) := fun nth s =>
  let* b := doc_bytes (body s) in message_body_section nth b.
#[export] Instance any_section_traced {AS} : Traced (any_section AS) := fun nth s =>
  match s with any_body b => message_section nth b end.

(** [message_content]: the number of the section is not incremented. *)
Definition message_content {Sec} `{Traced Sec} (m : op_msg_message Sec) : outcome text :=
  let nth := 1 in
  (fix each (secs : list Sec) : outcome text :=
     match secs with
     | [] => Done []
     | sec :: secs => let* t := message_section nth sec in let* u := each secs in Done (t ++ u)
     end) (sections m).

Definition message_send {Sec} `{Traced Sec} (messageLength requestID : Z) (m : op_msg_message Sec) : outcome text :=
  let* c := message_content m in Done (message_header (lit "send") messageLength requestID op_msg_opcode ++ c).
Definition message_recv {AS} (messageLength responseTo : Z) (m : any_message AS) : outcome text :=
  let* c := message_content (content m) in Done (message_header (lit "recv") messageLength responseTo (any_message_opcode m) ++ c).

(** ** The traced operations *)

Section Proto.
Context {ST AS B : Type} `{Stream ST} `{Allocator AS} `{DynamicBuffer B}.
Context (dynamic_buffer : list byte -> B) (enabled : bool).

(** The world, and what was printed. *)
Abbreviation traced_world := (world ST AS * text)%type.
Definition untraced {A} (x : co_task (world ST AS) A) : co_task traced_world A := fun '(w, err) => let* (w, r) := x w in Done ((w, err), r).
Definition print_if (t : outcome text) : co_task traced_world unit := fun '(w, err) =>
  if enabled then let* t := t in Done ((w, err ++ t), inr tt) else Done ((w, err), inr tt).
Definition or_rethrow {A} (x : co_task traced_world A) (handler : exn -> co_task traced_world unit) : co_task traced_world A := fun s =>
  let* (s, r) := x s in match r with inl e => let* (s, _) := handler e s in Done (s, inl e) | inr a => Done (s, inr a) end.

Definition traced_send_message {Sec} `{Traced Sec} `{MessageType (op_msg_message Sec)} (req_id : Z) (cont : op_msg_message Sec)
  : co_task traced_world unit :=
  let! content_buffers := untraced (lift (message_buffers cont)) in
  let content_size := zlen (concat content_buffers) in
  let chars := replicate 16 x00 in
  let total_size := u64 (zlen chars + content_size) in
  let! header := untraced (lift (msg_header chars total_size req_id (opcode cont))) in
  match header with
  | inl e => throw e
  | inr header =>
      let! _ := print_if (message_send content_size req_id cont) in
      let! _ := untraced (write_all (header ++ concat content_buffers)) in
      co_return tt
  end.

Definition traced_recv_message : co_task traced_world (option (any_message AS)) :=
  or_rethrow
    (let! chars := untraced (read_some 16) in
     if zlen chars <? 16 then throw_protocol_error "short read"
     else
       let! header := untraced (lift (read_header chars)) in
       match header with
       | inl e => throw e
       | inr (messageLength, requestID, responseTo, opCode) =>
         if messageLength <? 16 then throw_protocol_error "invalid MsgHeader.messageLength"
         else if opCode =? 2013 then
           let remaining := messageLength - 16 in
           let! content := untraced (read_some remaining) in
           if zlen content <? remaining then throw_protocol_error "short read"
           else
             let! msg := untraced (fun w =>
               let* r := read_op_msg (section_fuel content) (dynamic_buffer content) requestID responseTo (w_alloc w) in
               match r with
               | inl e => Done (w, inl e)
               | inr None => Done (w, inr None)
               | inr (Some (a, msg)) => Done (mk_world (w_stream w) a, inr (Some msg))
               end) in
             match msg with
             | None => co_return None
             | Some r => let! _ := print_if (message_recv messageLength responseTo r) in co_return (Some r)
             end
         else throw_protocol_error "unknown MsgHeader.opCode"
       end)
    (fun e => print_if (Done (message_exception (lit "Failure while reading message") (Some (what e))))).
End Proto.

(** ** What is printed *)

(** A document is nested less deeply than its encoding is long. *)
Lemma height_length t : (height t <= S (length (encode_value (value_of t))))%nat.
Proof.
  assert (forall es : list (text * tree), Forall (fun kt => (height (snd kt) <= S (length (encode_value (value_of (snd kt)))))%nat) es ->
    (fold_right (fun kt n => Nat.max (height (snd kt)) n) O es <= length (encode_doc (elements_of es)))%nat) as Hall.
  { intros es IH. assert (length (encode_doc (elements_of es)) = (5 + length (encode_body (elements_of es)))%nat) as ->
      by (pose proof (zlen_encode_doc (elements_of es)) as Hz; unfold doc_size, zlen in Hz; lia).
    induction IH as [|[k t'] es Ht _ IH]; cbn [fold_right snd]; [lia|]. cbn [elements_of map fst snd]. rewrite encode_body_cons, length_app.
    pose proof (zlen_encode_elem k (value_of t')) as Hz. unfold zlen in Hz. unfold elements_of in *. cbn [snd] in Ht. lia. }
  induction t as [v|es IH|es IH] using tree_induction; cbn [height value_of encode_value]; [lia|..]; apply le_n_S, Hall, IH.
Qed.

(** The lines of a section, by its tree. *)
Definition section_text (es : list (text * tree)) : text :=
  lit "  Section #" ++ percent_d 1 ++ lit " body: " ++ repr quoted fmt_double fmt_time trace_options 0 (t_document es) ++ newline_char.

Lemma body_section_text es : printable quoted fmt_double fmt_time (t_document es) ->
  message_body_section 1 (encode_doc (elements_of es)) = Done (section_text es).
Proof.
  intros Hp. unfold message_body_section, bson_write_repr, section_text.
  rewrite (top_writes quoted fmt_double fmt_time trace_options) by (done || exact (height_length (t_document es))). ostep.
  set (t := spaces _ ++ _). destruct (put_all_buffered t (mk_writebuf [] []) []) as (Hc & _ & _); [done|].
  unfold flush. cbn [out]. rewrite concat_app. cbn [concat]. by rewrite app_nil_r, Hc.
Qed.

Lemma content_text {Sec} `{Traced Sec} secs ts : Forall2 (fun sec t => message_section 1 sec = Done t) secs ts ->
  message_content (mk_op_msg secs) = Done (concat ts).
Proof. unfold message_content. cbn [sections]. induction 1 as [|sec t secs ts Hs _ IH]; [done|]. by rewrite Hs, IH. Qed.

(** The bodies of documents that are given by trees. *)
Definition bodies (ess : list (list (text * tree))) : list (list byte) := map (fun es => encode_body (elements_of es)) ess.

Lemma views_text vs ess : Forall2 shows vs (bodies ess) -> Forall (fun es => printable quoted fmt_double fmt_time (t_document es)) ess ->
  message_content (mk_op_msg (map mk_body vs)) = Done (concat (map section_text ess)).
Proof.
  intros Hv Hp. apply content_text. unfold bodies in Hv. revert vs Hv. induction Hp as [|es ess He _ IH]; intros vs Hv; inversion Hv; subst; constructor.
  - cbn [message_section body_section_traced body]. unfold message_section, body_section_traced. cbn [body]. erewrite shows_bytes by done. ostep. by apply body_section_text.
  - by apply IH.
Qed.

Lemma documents_text {AS} `{Allocator AS} (ds : list (bson_doc AS)) ess :
  Forall2 (fun B d => exists cap, doc_holds d B cap) (bodies ess) ds -> Forall (fun es => printable quoted fmt_double fmt_time (t_document es)) ess ->
  message_content (mk_op_msg (map body_of ds)) = Done (concat (map section_text ess)).
Proof.
  intros Hv Hp. apply content_text. unfold bodies in Hv. revert ds Hv. induction Hp as [|es ess He _ IH]; intros ds Hv; inversion Hv as [|? ? ? ? [cap Hd]]; subst; constructor.
  - unfold body_of, message_section, any_section_traced, message_section, body_section_traced. cbn [body]. erewrite doc_bytes_holds by done. ostep. by apply body_section_text.
  - by apply IH.
Qed.
(** ** The traced exchange *)

Section Exchange.
Context {ST AS B : Type} {HS : Stream ST} {HSOK : StreamOk ST}.
Context {HA : Allocator AS} {HOK : AllocatorOk AS} {HB : DynamicBuffer B} {HBOK : DynamicBufferOk B}.
Context (dynamic_buffer : list byte -> B).
Context (Hdyn : forall c, zlen c < UINT64_SPAN -> Wire.readable (dynamic_buffer c) c).

(** Whatever is sent or received: when printing comes to an end the outcome is that of the operation, and without tracing nothing is
    printed. *)
Theorem tracing_transparent enabled {Sec} `{Traced Sec} `{MessageType (op_msg_message Sec)} rid (m : op_msg_message Sec) (w w' : world ST AS) err err' :
  (forall r, traced_send_message enabled rid m (w, err) = Done ((w', err'), r) -> send_message rid m w = Done (w', r) /\ (enabled = false -> err' = err)) /\
  (forall r, traced_recv_message dynamic_buffer enabled (w, err) = Done ((w', err'), r) ->
     recv_message dynamic_buffer w = Done (w', r) /\ (enabled = false -> err' = err)).
Proof.
  split; intros r.
  - unfold traced_send_message, send_message, untraced, print_if, co_await, lift, throw, co_return.
    destruct (message_buffers m) as [bufs| |]; [|done..]. ostep. destruct (msg_header _ _ _ _) as [[e|h]| |]; [| |done..]; ostep; [by intros [= -> -> <-]|].
    destruct enabled; [destruct (message_send _ _ _) as [t| |]; [|done..]|]; ostep; destruct (write_all _ w) as [[w1 [e|n]]| |]; ostep; try done;
      by intros [= -> <- <-].
  - unfold traced_recv_message, recv_message, or_rethrow, untraced, print_if, co_await, lift, throw_protocol_error, throw, co_return.
    destruct (read_some 16 w) as [[w1 [e|h]]| |]; ostep; try done; [destruct enabled; ostep; by intros [= -> <- <-]|].
    destruct (zlen h <? 16); [destruct enabled; ostep; by intros [= -> <- <-]|].
    destruct (read_header h) as [[e|[[[n id] rto] op]]| |]; ostep; try done; [destruct enabled; ostep; by intros [= -> <- <-]|].
    destruct (n <? 16); [destruct enabled; ostep; by intros [= -> <- <-]|]. destruct (op =? 2013); [|destruct enabled; ostep; by intros [= -> <- <-]].
    destruct (read_some (n - 16) w1) as [[w2 [e|c]]| |]; ostep; try done; [destruct enabled; ostep; by intros [= -> <- <-]|].
    destruct (zlen c <? n - 16); [destruct enabled; ostep; by intros [= -> <- <-]|].
    destruct (read_op_msg _ _ _ _ _) as [[e|[[a m']|]]| |]; ostep; try done; [destruct enabled; ostep; by intros [= -> <- <-]| |by intros [= -> <- <-]].
    destruct enabled; [destruct (message_recv n rto m') as [t| |]; ostep; try done|]; by intros [= <- <- <-].
Qed.
Lemma traced_send_spec vs ess rid (w : world ST AS) err :
  Forall2 shows vs (bodies ess) -> Forall (fun es => printable quoted fmt_double fmt_time (t_document es)) ess ->
  message_size (bodies ess) <= INT32_MAX -> is_i32 rid ->
  traced_send_message true rid (mk_op_msg (map mk_body vs)) (w, err) =
    (let* (w, r) := send_message rid (mk_op_msg (map mk_body vs)) w in
     Done ((w, err ++ message_header (lit "send") (message_size (bodies ess) - 16) rid 2013 ++ concat (map section_text ess)), r)).
Proof.
  intros Hv Hp Hm Hr. destruct (buffers_content vs _ Hv) as (bufs & Eb & Ec).
  unfold traced_send_message, send_message, untraced, print_if, co_await, lift, throw, co_return. rewrite Eb. ostep. rewrite msg_header_spec by done. ostep.
  unfold message_send. rewrite (views_text vs ess Hv Hp). ostep. rewrite Ec.
  replace (message_size (bodies ess) - 16) with (zlen (content_bytes (bodies ess))) by (unfold message_size; lia).
  by destruct (write_all _ w) as [[w1 [e|n]]| |].
Qed.

(** What tracing adds to receiving, by the header of the message. *)
Lemma traced_recv_header (w : world ST AS) err s1 h total rid rto op :
  async_read (w_stream w) 16 = (s1, inr h) -> zlen h = 16 -> header_fields h = (total, rid, rto, op) ->
  traced_recv_message dynamic_buffer true (w, err) =
    (let* (w, r) := recv_message dynamic_buffer w in
     let* t := match r with
               | inl e => Done (message_exception (lit "Failure while reading message") (Some (what e)))
               | inr None => Done []
               | inr (Some msg) => message_recv total rto msg
               end in
     Done ((w, err ++ t), r)).
Proof.
  intros E1 Hl Hf. unfold traced_recv_message, recv_message, or_rethrow, untraced, print_if, co_await, lift, throw_protocol_error, throw, co_return.
  assert (read_some 16 w = Done (mk_world s1 (w_alloc w), inr h)) as -> by (unfold read_some; by rewrite E1). ostep. rewrite Hl. change (16 <? 16) with false. cbv iota. rewrite (read_header_any h Hl), Hf. ostep.
  destruct (total <? 16); [done|]. destruct (op =? 2013); [|done].
  destruct (read_some (total - 16) _) as [[w2 [e|c]]| |]; ostep; try done. destruct (zlen c <? total - 16); [done|].
  destruct (read_op_msg _ _ _ _ _) as [[e|[[a m']|]]| |]; ostep; try done; [|by rewrite app_nil_r].
  by destruct (message_recv total rto m').
Qed.

(** C37. A traced exchange: for a message with any number of documents, of any depth, that can be printed, tracing prints the same lines of
    the documents where it is sent and where it is received, after a line with its size, which includes the header only when it is
    received; and what is sent, received and thrown is what it is without tracing.  Every section is printed as the first. *)
Theorem tracing_spec vs ess rid (ws wr : world ST AS) rest err :
  Forall2 shows vs (bodies ess) -> Forall sendable (bodies ess) -> Forall (fun es => printable quoted fmt_double fmt_time (t_document es)) ess ->
  message_size (bodies ess) <= INT32_MAX -> is_i32 rid -> incoming (w_stream wr) = message_bytes rid (bodies ess) ++ rest ->
  let size := message_size (bodies ess) in
  let lines := concat (map section_text ess) in
  traced_send_message true rid (mk_op_msg (map mk_body vs)) (ws, err) =
    (let* (w, r) := send_message rid (mk_op_msg (map mk_body vs)) ws in
     Done ((w, err ++ message_header (lit "send") (size - 16) rid 2013 ++ lines), r)) /\
  exists w r, recv_message dynamic_buffer wr = Done (w, r) /\
    traced_recv_message dynamic_buffer true (wr, err) = Done ((w, err ++
      match r with
      | inl e => message_exception (lit "Failure while reading message") (Some (what e))
      | inr _ => message_header (lit "recv") size 0 2013 ++ lines
      end), r).
Proof.
  intros Hv Hs Hp Hm Hr Hin. cbv zeta. split; [by apply traced_send_spec|].
  destruct (recv_sent dynamic_buffer Hdyn _ rid wr rest Hs Hm Hr Hin) as (w & r & E & _ & Hres). exists w, r. split; [done|].
  unfold message_bytes in Hin. rewrite <- app_assoc in Hin. destruct (read_there _ _ _ Hin) as (s1 & E1 & _). rewrite zlen_header_bytes in E1.
  set (h := header_bytes (message_size (bodies ess)) rid 0 2013) in *. assert (zlen h = 16) as Hl by apply zlen_header_bytes.
  assert (header_fields h = (message_size (bodies ess), rid, 0, 2013)) as Hf.
  { assert (0 <= message_size (bodies ess)) by (unfold message_size; pose proof (zlen_nonneg (content_bytes (bodies ess))); lia).
    pose proof (read_header_any h Hl) as Ha. subst h. rewrite read_header_spec in Ha by (done || lia). congruence. }
  rewrite (traced_recv_header wr err s1 h _ _ _ _ E1 Hl Hf), E. ostep.
  destruct (documents_allocation (w_alloc wr) (bodies ess)); [destruct Hres as (_ & ds & -> & Hds)|by subst r].
  unfold message_recv. cbn [content]. by rewrite (documents_text ds ess Hds Hp).
Qed.
End Exchange.
End Trace.

(** ** A concrete exchange *)

Definition traced_trees : list (list (text * tree)) := [sample_tree; [(lit "x", t_value (v_int32 1))]].
Definition sample_views : list bson_view := map (fun B => mk_view (mk_block 4096 (frame B)) 4096) (bodies traced_trees).

Lemma sample_shown : Forall2 shows sample_views (bodies traced_trees).
Proof.
  repeat constructor; try discriminate; apply bytes_at_check; vm_compute; reflexivity.
Qed.

#[local] Instance sample_section : Traced (body_section bson_view) := body_section_traced in_quotes percent_d percent_d.

Definition printed_by {A} (o : outcome ((world pipe arena * text) * (exn + A))) : outcome text := let* (s, _) := o in Done s.2.

(** Both sections have the number 1, and the header is not counted. *)
Example sample_traced :
  let line := lit "  Section #1 body: { " ++ in_quotes (lit "x") ++ lit ": 1:i32 }" ++ newline_char in
  printed_by (traced_send_message true 3 (mk_op_msg (map mk_body (drop 1 sample_views ++ drop 1 sample_views))) (pipe_world [], [])) =
    Done (lit "send OP_MSG #3 (30 bytes)" ++ newline_char ++ line ++ line) /\
  printed_by (traced_recv_message in_quotes percent_d percent_d (fun _ => lit "end of file") whole_buffer true (pipe_world [], [])) =
    Done (lit "[wire] Failure while reading message: exception: end of file" ++ newline_char).
Proof. split; vm_compute; reflexivity. Qed.

Lemma tracing_spec_witness :
  let bodies := bodies traced_trees in
  exists w r, recv_message whole_buffer (pipe_world (message_bytes 3 bodies)) = Done (w, r) /\
    printed_by (traced_recv_message in_quotes percent_d percent_d (fun _ => []) whole_buffer true (pipe_world (message_bytes 3 bodies), [])) =
      Done (message_header (lit "recv") (message_size bodies) 0 2013 ++ concat (map (section_text in_quotes percent_d percent_d) traced_trees)).
Proof.
  cbv zeta.
  destruct (tracing_spec in_quotes percent_d percent_d (fun _ => []) whole_buffer whole_buffer_readable sample_views traced_trees 3
    (pipe_world []) (pipe_world (message_bytes 3 (bodies traced_trees))) [] []) as [_ (w & r & E & Et)].
  - exact sample_shown.
  - repeat constructor; vm_compute; discriminate.
  - constructor; [exact sample_printable|]. constructor; [|constructor].
    split; [solve_holdable|]. split; [discriminate|exact I].
  - vm_compute. discriminate.
  - split; vm_compute; discriminate.
  - rewrite app_nil_r. reflexivity.
  - exists w, r. split; [exact E|]. rewrite Et. vm_compute in E. injection E as <- <-. reflexivity.
Defined.
