(* ===== verification/Equal.v ===== *)
(** * Values in C++: conversions and equality ([bson/value_ref.h], [bson/iterator.h], [src/bson/value_ref.cpp], [types.cpp], [view.cpp], [mlib/str.h])

    A value is made of an object of one of the types of the list [BSON_TYPE_X_LIST] and asked for one.  Values are compared by [visit], which gives both to the operator of their type; documents by their bytes; a [double], which is its
    64 bits here, as the language compares it. *)
From Stdlib Require Import ZArith Lia.
From Stdlib Require Import Strings.Byte Strings.String.
From stdpp Require Import base numbers list sets.
From S2P Require Import Prelude.
From S2P Require Import Mem.
From S2P Require Import Types.
From S2P Require Import Value.
From S2P Require Import Iterator.
From S2P Require Import Codec.
From S2P Require Import Parse.
From S2P Require Import Reply.
Open Scope Z_scope.
Open Scope outcome_scope.

(** ** Conversions *)

(** A type of the list: its tag, its member of the union, and the conversion from it. *)
Record view_type (T : Type) : Type := mk_view_type { tag : Z; member : bson_value_ref -> option T; from : T -> bson_value_ref }.
Arguments mk_view_type {T}.
Arguments tag {T}.
Arguments member {T}.
Arguments from {T}.

Definition double_type : view_type Z := mk_view_type bson_type_double (fun v => match v with v_double d => Some d | _ => None end) v_double.
Definition utf8_type : view_type text := mk_view_type bson_type_utf8 (fun v => match v with v_utf8 s => Some s | _ => None end) v_utf8.
Definition document_type : view_type (option text) :=
  mk_view_type bson_type_document (fun v => match v with v_document d => Some d | _ => None end) v_document.
Definition array_type : view_type (option text) := mk_view_type bson_type_array (fun v => match v with v_array d => Some d | _ => None end) v_array.
Definition binary_type : view_type (byte * text) :=
  mk_view_type bson_type_binary (fun v => match v with v_binary s d => Some (s, d) | _ => None end) (fun p => v_binary p.1 p.2).
Definition undefined_type : view_type unit := mk_view_type bson_type_undefined (fun v => match v with v_undefined => Some tt | _ => None end) (fun _ => v_undefined).
Definition oid_type : view_type text := mk_view_type bson_type_oid (fun v => match v with v_oid o => Some o | _ => None end) v_oid.
Definition bool_type : view_type bool := mk_view_type bson_type_bool (fun v => match v with v_bool b => Some b | _ => None end) v_bool.
Definition datetime_type : view_type Z := mk_view_type bson_type_datetime (fun v => match v with v_datetime z => Some z | _ => None end) v_datetime.
Definition null_type : view_type unit := mk_view_type bson_type_null (fun v => match v with v_null => Some tt | _ => None end) (fun _ => v_null).
Definition regex_type : view_type (option text * option text) :=
  mk_view_type bson_type_regex (fun v => match v with v_regex r o => Some (r, o) | _ => None end) (fun p => v_regex p.1 p.2).
Definition dbpointer_type : view_type (text * text) :=
  mk_view_type bson_type_dbpointer (fun v => match v with v_dbpointer c o => Some (c, o) | _ => None end) (fun p => v_dbpointer p.1 p.2).
Definition code_type : view_type text := mk_view_type bson_type_code (fun v => match v with v_code s => Some s | _ => None end) v_code.
Definition symbol_type : view_type text := mk_view_type bson_type_symbol (fun v => match v with v_symbol s => Some s | _ => None end) v_symbol.
Definition int32_type : view_type Z := mk_view_type bson_type_int32 (fun v => match v with v_int32 z => Some z | _ => None end) v_int32.
Definition timestamp_type : view_type (Z * Z) :=
  mk_view_type bson_type_timestamp (fun v => match v with v_timestamp i s => Some (i, s) | _ => None end) (fun p => v_timestamp p.1 p.2).
Definition int64_type : view_type Z := mk_view_type bson_type_int64 (fun v => match v with v_int64 z => Some z | _ => None end) v_int64.
Definition decimal128_type : view_type text :=
  mk_view_type bson_type_decimal128 (fun v => match v with v_decimal128 b => Some b | _ => None end) v_decimal128.
Definition maxkey_type : view_type unit := mk_view_type bson_type_maxkey (fun v => match v with v_maxkey => Some tt | _ => None end) (fun _ => v_maxkey).
Definition minkey_type : view_type unit := mk_view_type bson_type_minkey (fun v => match v with v_minkey => Some tt | _ => None end) (fun _ => v_minkey).

(** An unsigned integer of 32 bits becomes a value of 64 bits. *)
Definition from_uint32 (z : Z) : bson_value_ref := v_int64 z.

(** [is_X()], [get_X(default_value)], and [try_as<X>()] of an element; to read the member of another type is undefined. *)
Definition is_a {T} (t : view_type T) (v : bson_value_ref) : bool := value_type v =? tag t.
Definition get_as {T} (t : view_type T) (default_value : T) (v : bson_value_ref) : outcome T :=
  if negb (is_a t v) then Done default_value else match member t v with Some x => Done x | None => Undef end.
Definition try_as {T} (t : view_type T) (v : bson_value_ref) : outcome (option T) :=
  if is_a t v then match member t v with Some x => Done (Some x) | None => Undef end else Done None.

(** [try_as<bson_view>()]: of documents and arrays. *)
Definition try_as_view (v : bson_value_ref) : option (option text) :=
  if negb (value_type v =? bson_type_document) && negb (value_type v =? bson_type_array) then None else Some (get_document_or_array v).

Definition view_types : list {T & view_type T} :=
  [existT _ double_type; existT _ utf8_type; existT _ document_type; existT _ array_type; existT _ binary_type; existT _ undefined_type;
   existT _ oid_type; existT _ bool_type; existT _ datetime_type; existT _ null_type; existT _ regex_type; existT _ dbpointer_type;
   existT _ code_type; existT _ symbol_type; existT _ int32_type; existT _ timestamp_type; existT _ int64_type; existT _ decimal128_type;
   existT _ maxkey_type; existT _ minkey_type].

(** ** Doubles *)

(** The number that 64 bits stand for, in units of [2 ^ -1074]; infinity comes after the greatest finite number. *)
Definition magnitude (exp frac : Z) : Z := if exp =? 0 then frac else (2 ^ 52 + frac) * 2 ^ (exp - 1).
Definition d_value (bits : Z) : Z := signed (d_sign bits) (magnitude (d_exp bits) (d_frac bits)).
Definition is_nan (bits : Z) : bool := (d_exp bits =? 2047) && negb (d_frac bits =? 0).

Definition double_eq (l r : Z) : bool := negb (is_nan l) && negb (is_nan r) && (d_value l =? d_value r).

(** ** The operators *)

(** [mlib_str_view::operator==]; [None] is the null view. *)
Definition str_view_eq (l r : option text) : bool :=
  match l, r with
  | None, None => true
  | None, Some _ | Some _, None => false
  | Some l, Some r => bool_decide (l = r)
  end.

(** [bytes()] of a view: a null view has no bytes; and [bson_view::operator==]. *)
Definition bytes (d : option (list byte)) : list byte := default [] d.
Definition view_eq (l r : option (list byte)) : bool := bool_decide (bytes l = bytes r).

(** [bson_binary_view::operator==]. *)
Definition binary_eq (subtype : byte) (data : list byte) (subtype' : byte) (data' : list byte) : bool :=
  bool_decide (subtype = subtype') && bool_decide (data = data').

(** [bson_value_ref::visit]: code with scope fails an assertion, and a type that is not known ends the process. *)
Definition visit {A} (v : bson_value_ref) (fn : bson_value_ref -> outcome A) : outcome A :=
  match v with
  | v_codewscope | v_unknown _ => Abort
  | _ => fn v
  end.

(** [bson_value_ref::operator==]. *)
Definition value_ref_eq (this other : bson_value_ref) : outcome bool :=
  visit this (fun left => visit other (fun right => Done
    match left, right with
    | v_eod, v_eod => true
    | v_double l, v_double r => double_eq l r
    | v_utf8 l, v_utf8 r => str_view_eq (Some l) (Some r)
    | v_document l, v_document r => view_eq l r
    | v_array l, v_array r => view_eq l r
    | v_binary s l, v_binary t r => binary_eq s l t r
    | v_undefined, v_undefined => true
    | v_oid l, v_oid r => bool_decide (l = r)
    | v_bool l, v_bool r => Bool.eqb l r
    | v_datetime l, v_datetime r => l =? r
    | v_null, v_null => true
    | v_regex l lo, v_regex r ro => str_view_eq l r && str_view_eq lo ro
    | v_dbpointer l lo, v_dbpointer r ro => str_view_eq (Some l) (Some r) && bool_decide (lo = ro)
    | v_code l, v_code r => str_view_eq (Some l) (Some r)
    | v_symbol l, v_symbol r => str_view_eq (Some l) (Some r)
    | v_int32 l, v_int32 r => l =? r
    | v_timestamp l lo, v_timestamp r ro => (l =? r) && (lo =? ro)
    | v_int64 l, v_int64 r => l =? r
    | v_decimal128 l, v_decimal128 r => bool_decide (l = r)
    | v_maxkey, v_maxkey => true
    | v_minkey, v_minkey => true
    | _, _ => false
    end)).

(** [reference::operator==]: the values are looked at only when the keys are equal. *)
Definition reference_eq (m : block) (it : bson_iterator) (m' : block) (it' : bson_iterator) : outcome bool :=
  let* k := bson_key m it in
  let* k' := bson_key m' it' in
  if bool_decide (k = k') then
    let* v := bson_iterator_value m it in
    let* v' := bson_iterator_value m' it' in
    value_ref_eq v v'
  else Done false.

(** ** What conversions give *)

(** The tag tells which member there is. *)
Definition tagged (v : bson_value_ref) {T} (t : view_type T) : Prop :=
  (forall x, member t v = Some x <-> v = from t x) /\ (value_type v = tag t <-> is_Some (member t v)).

Ltac solve_member :=
  cbn [projT1]; intros x; match type of x with unit => destruct x | (_ * _)%type => destruct x | _ => idtac end;
  split; intros E; first [discriminate E|injection E as <- <-|injection E as <-|idtac]; reflexivity.
Ltac solve_tag := split; [intros E; first [discriminate E|eexists; reflexivity]|intros [y E]; first [discriminate E|reflexivity]].

Lemma tagged_types v : match v with v_unknown _ => False | _ => True end -> Forall (fun t => tagged v (projT2 t)) view_types.
Proof.
  intros Hv. unfold view_types, tagged. repeat (apply Forall_cons; split); [cbn [projT2 member from]..|apply Forall_nil_2]; split.
  1-40: destruct v; first [done|solve_member|solve_tag].
Qed.

(** An element is asked for a type: it is that value, or there is none and the default is given; a union is only read where it was
    written. *)
Theorem conversions_spec v : match v with v_unknown _ => False | _ => True end ->
  Forall (fun p => let t := projT2 p in exists r, try_as t v = Done r /\ (forall x, r = Some x <-> v = from t x) /\ forall d, get_as t d v = Done (default d r)) view_types.
Proof.
  intros Hv. eapply Forall_impl; [by apply tagged_types|]. intros [T t] [Hm Ht]. cbn [projT1 projT2] in *. unfold try_as, get_as, is_a.
  destruct (Z.eqb_spec (value_type v) (tag t)) as [E|E]; cbn [negb].
  - destruct (proj1 Ht E) as [x Hx]. rewrite Hx. exists (Some x). split; [done|]. split; [|done]. intros y. by rewrite <- Hm, Hx.
  - exists None. split; [done|]. split; [|done]. intros x. split; [done|]. intros Hx%Hm. destruct E. apply Ht. by eexists.
Qed.

Lemma conversions_spec_witness : exists r, try_as utf8_type (v_utf8 (lit "a")) = Done r /\ r = Some (lit "a").
Proof.
  pose proof (conversions_spec (v_utf8 (lit "a")) I) as H. apply Forall_cons in H as [_ H]. apply Forall_cons in H as [(r & E & Hr & _) _].
  exists r. split; [exact E|]. apply Hr. reflexivity.
Defined.

(** ** Which doubles are equal *)

Lemma d_range bits : is_u64 bits -> 0 <= d_exp bits < 2048 /\ 0 <= d_frac bits < 2 ^ 52.
Proof.
  intros Hb. unfold d_exp, d_frac. change 2047 with (Z.ones 11). change (2 ^ 52 - 1) with (Z.ones 52). rewrite !Z.land_ones by lia.
  split; apply Z.mod_pos_bound; lia.
Qed.

Lemma pack_fields bits : is_u64 bits -> bits = pack (d_sign bits) (d_exp bits) (d_frac bits).
Proof.
  intros Hb. unfold is_u64 in Hb. unfold pack, d_sign, d_exp, d_frac. change 2047 with (Z.ones 11). change (2 ^ 52 - 1) with (Z.ones 52).
  rewrite !Z.land_ones by lia. rewrite Z.shiftr_div_pow2, Z.testbit_odd, Z.shiftr_div_pow2 by lia.
  pose proof (Z.div_mod bits (2 ^ 52) ltac:(lia)) as H52. pose proof (Z.div_mod (bits / 2 ^ 52) (2 ^ 11) ltac:(lia)) as H11.
  rewrite Z.div_div in H11 by lia. change (2 ^ 52 * 2 ^ 11) with (2 ^ 63) in H11.
  assert (bits / 2 ^ 63 = if Z.odd (bits / 2 ^ 63) then 1 else 0) as Hs.
  { assert (0 <= bits / 2 ^ 63 < 2) as Hr by (split; [apply Z.div_pos; lia|apply Z.div_lt_upper_bound; lia]).
    assert (bits / 2 ^ 63 = 0 \/ bits / 2 ^ 63 = 1) as [-> | ->] by lia; done. }
  destruct (Z.odd (bits / 2 ^ 63)); lia.
Qed.

Lemma magnitude_bounds e f : 1 <= e -> 0 <= f < 2 ^ 52 -> 2 ^ (51 + e) <= magnitude e f < 2 ^ (52 + e).
Proof.
  intros He Hf. unfold magnitude. destruct (Z.eqb_spec e 0); [lia|]. assert (0 < 2 ^ (e - 1)) by (apply Z.pow_pos_nonneg; lia).
  replace (51 + e) with (52 + (e - 1)) by lia. replace (52 + e) with (53 + (e - 1)) by lia. rewrite !Z.pow_add_r by lia.
  split; [apply Z.mul_le_mono_nonneg_r; lia|apply Z.mul_lt_mono_pos_r; lia].
Qed.

Lemma magnitude_small f : magnitude 0 f = f.
Proof. done. Qed.

Lemma magnitude_nonneg e f : 0 <= e -> 0 <= f -> 0 <= magnitude e f.
Proof. intros He Hf. unfold magnitude. destruct (e =? 0); [done|]. assert (0 <= 2 ^ (e - 1)) by (apply Z.pow_nonneg; lia). nia. Qed.

Lemma magnitude_lt e f e' f' : 0 <= e < e' -> 0 <= f < 2 ^ 52 -> 0 <= f' < 2 ^ 52 -> magnitude e f < magnitude e' f'.
Proof.
  intros He Hf Hf'. pose proof (magnitude_bounds e' f' ltac:(lia) Hf') as [Hl _]. eapply Z.lt_le_trans; [|exact Hl].
  destruct (Z.eq_dec e 0) as [->|Hn].
  - rewrite magnitude_small. eapply Z.lt_le_trans; [apply Hf|]. apply Z.pow_le_mono_r; lia.
  - pose proof (magnitude_bounds e f ltac:(lia) Hf) as [_ Hh]. eapply Z.lt_le_trans; [exact Hh|]. apply Z.pow_le_mono_r; lia.
Qed.

Lemma magnitude_inj e f e' f' : 0 <= e -> 0 <= e' -> 0 <= f < 2 ^ 52 -> 0 <= f' < 2 ^ 52 -> magnitude e f = magnitude e' f' -> e = e' /\ f = f'.
Proof.
  intros He He' Hf Hf' E. destruct (Z.lt_trichotomy e e') as [H|[->|H]].
  - pose proof (magnitude_lt e f e' f' ltac:(lia) Hf Hf'). lia.
  - split; [done|]. unfold magnitude in E. destruct (Z.eqb_spec e' 0); [done|]. apply Z.mul_cancel_r in E; [lia|]. apply Z.pow_nonzero; lia.
  - pose proof (magnitude_lt e' f' e f ltac:(lia) Hf' Hf). lia.
Qed.

Lemma double_eq_spec l r : is_u64 l -> is_u64 r ->
  double_eq l r = true <-> is_nan l = false /\ is_nan r = false /\ (l = r \/ d_nonzero l = false /\ d_nonzero r = false).
Proof.
  intros Hl Hr. unfold double_eq. rewrite !andb_true_iff, !negb_true_iff, Z.eqb_eq.
  enough (d_value l = d_value r <-> l = r \/ d_nonzero l = false /\ d_nonzero r = false) by tauto.
  destruct (d_range l Hl) as [He Hf], (d_range r Hr) as [He' Hf']. unfold d_value, signed, d_nonzero. rewrite !negb_false_iff, !andb_true_iff, !Z.eqb_eq.
  pose proof (magnitude_nonneg (d_exp l) (d_frac l) ltac:(lia) ltac:(lia)). pose proof (magnitude_nonneg (d_exp r) (d_frac r) ltac:(lia) ltac:(lia)).
  split.
  - intros E. assert (magnitude (d_exp l) (d_frac l) = magnitude (d_exp r) (d_frac r)) as Em by (destruct (d_sign l), (d_sign r); lia).
    destruct (magnitude_inj _ _ _ _ (proj1 He) (proj1 He') Hf Hf' Em) as [Ee Ef].
    destruct (Bool.bool_dec (d_sign l) (d_sign r)) as [Es|Es].
    + left. rewrite (pack_fields l Hl), (pack_fields r Hr). congruence.
    + right. assert (magnitude (d_exp l) (d_frac l) = 0) as E0 by (destruct (d_sign l), (d_sign r); try done; lia).
      destruct (magnitude_inj (d_exp l) (d_frac l) 0 0 (proj1 He) (Z.le_refl 0) Hf ltac:(lia) E0). lia.
  - intros [->|[[-> ->] [-> ->]]]; [done|]. rewrite magnitude_small. by destruct (d_sign l), (d_sign r).
Qed.

(** ** What equality is *)

(** Values that can be compared; a view that is not null has bytes. *)
Definition comparable (v : bson_value_ref) : Prop :=
  match v with
  | v_codewscope | v_unknown _ => False
  | v_double b => is_u64 b
  | v_document (Some []) | v_array (Some []) => False
  | _ => True
  end.

(** The same value; only doubles are compared by their numbers. *)
Definition same_value (l r : bson_value_ref) : Prop :=
  match l, r with
  | v_double l, v_double r => is_nan l = false /\ is_nan r = false /\ (l = r \/ d_nonzero l = false /\ d_nonzero r = false)
  | _, _ => l = r
  end.

Lemma str_view_eq_spec l r : str_view_eq l r = true <-> l = r.
Proof. destruct l, r; cbn [str_view_eq]; rewrite ?bool_decide_eq_true; naive_solver. Qed.

Lemma view_eq_spec l r : l <> Some [] -> r <> Some [] -> view_eq l r = true <-> l = r.
Proof.
  intros Hl Hr. unfold view_eq. rewrite bool_decide_eq_true. destruct l as [l|], r as [r|]; cbn [bytes default]; naive_solver.
Qed.

Lemma value_ref_eq_spec l r : comparable l -> comparable r -> exists b, value_ref_eq l r = Done b /\ (b = true <-> same_value l r).
Proof.
  intros Hl Hr. unfold value_ref_eq. destruct l, r;
    first [exfalso; exact Hl|exfalso; exact Hr|exists false; split; [reflexivity|split; [discriminate|intros E; discriminate E]]|eexists; split; [reflexivity|]].
  all: cbn [same_value]; unfold binary_eq; rewrite ?andb_true_iff, ?str_view_eq_spec, ?bool_decide_eq_true, ?Z.eqb_eq, ?Bool.eqb_true_iff;
    try first [done|split; [by intros ->|by intros [= ->]]|split; [by intros [= ->]|by intros [= ->]]|
      split; [by intros [-> ->]|by intros [= -> ->]]|split; [by intros [[= ->] ->]|by intros [= -> ->]]].
  - by apply double_eq_spec.
  - rewrite view_eq_spec; [naive_solver|..]; by intros ->.
  - rewrite view_eq_spec; [naive_solver|..]; by intros ->.
Qed.

(** What can be read can be compared. *)
Lemma readable_comparable v : Codec.readable v -> comparable v.
Proof.
  intros [Hf _]. destruct v as [ | |s|d|d| | | | | | | | | | | | | | | | | |]; try done; destruct d as [[|c d]|]; try done;
    destruct Hf as (body & E & _); apply (f_equal zlen) in E; rewrite !zlen_app, zlen_le32, zlen_nil in E;
    pose proof (zlen_nonneg body); pose proof (zlen_nonneg [x00]); lia.
Qed.

(** An encoding determines its elements. *)
Lemma encode_doc_inj es fs : holdable es -> holdable fs -> encode_doc es = encode_doc fs -> es = fs.
Proof.
  intros (We & Re & Me) (Wf & Rf & Mf) E. set (fuel := S (length es + length fs)). set (m := mk_block 16 (encode_doc es)).
  pose proof (read_loop fuel m 16 es eq_refl (bytes_at_whole _) We Re Me ltac:(subst fuel; lia)) as H1.
  assert (bytes_at m 16 (encode_doc fs)) as Hb by (subst m; rewrite E; apply bytes_at_whole).
  pose proof (read_loop fuel m 16 fs eq_refl Hb Wf Rf Mf ltac:(subst fuel; lia)) as H2. congruence.
Qed.

(** C35. Equality is equality of what is stored: two values of types that are known are equal exactly when they are the same value, doubles by
    their numbers (no NaN is equal to anything, and the two zeros are equal); two elements when their keys are the same and their
    values equal; and two documents exactly when they have the same elements in the same order, bit for bit: a document is equal to itself
    whatever it contains, and documents that differ in the sign of a zero are not. *)
Theorem equality_spec :
  (forall l r, comparable l -> comparable r -> exists b, value_ref_eq l r = Done b /\ (b = true <-> same_value l r)) /\
  (forall es fs, holdable es -> holdable fs -> view_eq (Some (encode_doc es)) (Some (encode_doc fs)) = true <-> es = fs) /\
  (forall m p es pre k v rest m' p' fs pre' k' v' rest',
     holdable es -> holdable fs -> 0 < b_base m -> 0 < b_base m' -> bytes_at m p (encode_doc es) -> bytes_at m' p' (encode_doc fs) ->
     es = pre ++ (k, v) :: rest -> fs = pre' ++ (k', v') :: rest' ->
     exists b, reference_eq m (iter_of p es pre ((k, v) :: rest)) m' (iter_of p' fs pre' ((k', v') :: rest')) = Done b /\
       (b = true <-> k = k' /\ same_value v v')).
Proof.
  split_and!.
  - apply value_ref_eq_spec.
  - intros es fs He Hf. unfold view_eq. rewrite bool_decide_eq_true. cbn [bytes default]. split; [by apply encode_doc_inj|by intros ->].
  - intros m p es pre k v rest m' p' fs pre' k' v' rest' (We & Re & Me) (Wf & Rf & Mf) Hb Hb' Hat Hat' Ee Ef.
    destruct (element_access m p es Hb Hat We Me pre k v rest Ee) as (Hk & _ & Hv & _).
    destruct (element_access m' p' fs Hb' Hat' Wf Mf pre' k' v' rest' Ef) as (Hk' & _ & Hv' & _).
    unfold reference_eq. rewrite Hk, Hk'. ostep. case_bool_decide as Hkk; [|exists false; split; [done|]; naive_solver].
    assert (Codec.readable v /\ Codec.readable v') as [Rv Rv'].
    { subst es fs. rewrite Forall_app, Forall_cons in Re, Rf. split; [apply Re|apply Rf]. }
    rewrite Hv, Hv' by done. ostep.
    destruct (value_ref_eq_spec v v') as (b & -> & Hs); [by apply readable_comparable..|]. exists b. split; [done|]. tauto.
Qed.

(** ** Concrete values *)

Definition nan_bits : Z := 9221120237041090560.
Definition minus_zero : Z := 9223372036854775808.

Lemma equality_spec_witness :
  let doc b := [(lit "x", v_double b)] in
  (exists b, value_ref_eq (v_double 0) (v_double minus_zero) = Done b /\ (b = true <-> same_value (v_double 0) (v_double minus_zero))) /\
  (view_eq (Some (encode_doc (doc nan_bits))) (Some (encode_doc (doc nan_bits))) = true <-> doc nan_bits = doc nan_bits).
Proof.
  destruct equality_spec as (Hv & Hd & _). cbv zeta. split.
  - apply Hv; split; vm_compute; congruence.
  - apply Hd; solve_holdable.
Defined.

Example double_equality :
  value_ref_eq (v_double 0) (v_double minus_zero) = Done true /\ value_ref_eq (v_double nan_bits) (v_double nan_bits) = Done false /\
  value_ref_eq (v_int32 1) (v_int64 1) = Done false /\ value_ref_eq v_codewscope v_null = Abort.
Proof. split_and!; vm_compute; reflexivity. Qed.
