(* ===== verification/Ownership.v ===== *)
(** * Owners of documents ([bson::document] of [include/bson/doc.h], [mlib/unique.hpp], [mlib/delete.h])

    [bson::document] and [mlib::unique] own a C document that [bson_delete] destroys.  Their constructors, assignments and destructors work on
    a store of places that hold document pointers, so that it shows which region each refers to and what is freed.  Memory is
    granted; what a new document does when it is not is shown in [Doc.v]. *)
From Stdlib Require Import ZArith Lia.
From Stdlib Require Import Strings.Byte.
From stdpp Require Import base numbers list gmap.
From S2P Require Import Prelude.
From S2P Require Import Doc.
Open Scope Z_scope.
Open Scope outcome_scope.

(** ** The store *)

(** A place is the member of an object, a [bson_doc] of the program, or the result of [release()] that an expression holds. *)
Inductive place : Type := object (n : nat) | variable (n : nat) | temporary.

#[export] Instance place_eq_dec : EqDecision place.
Proof. solve_decision. Defined.
#[export] Instance place_countable : Countable place.
Proof.
  apply (inj_countable' (fun p => match p with object n => inl n | variable n => inr (inl n) | temporary => inr (inr tt) end)
    (fun s => match s with inl n => object n | inr (inl n) => variable n | inr (inr _) => temporary end)).
  by intros [].
Defined.

(** The document pointer: null, the shared empty document, or a region. *)
Inductive handle : Type := null | static | region (r : nat).

#[export] Instance handle_eq_dec : EqDecision handle.
Proof. solve_decision. Defined.

Record store : Type := mk_store {
  cells : gmap place handle;
  regions : gmap nat (list byte);
  fresh_region : nat;
  freed : list nat }.

Definition empty_store : store := mk_store ∅ ∅ 0 [].

Definition get (st : store) (p : place) : handle := default null (cells st !! p).
Definition set_cell (p : place) (h : handle) (st : store) : store := mk_store (<[p := h]> (cells st)) (regions st) (fresh_region st) (freed st).
Definition end_of_life (p : place) (st : store) : store := mk_store (delete p (cells st)) (regions st) (fresh_region st) (freed st).

(** [bson_delete]: to free what is not allocated is undefined. *)
Definition bson_delete (h : handle) (st : store) : outcome store :=
  match h with
  | null | static => Done st
  | region r =>
    match regions st !! r with
    | Some _ => Done (mk_store (cells st) (delete r (regions st)) (fresh_region st) (freed st ++ [r]))
    | None => Undef
    end
  end.

(** The bytes of a document: a null one has none; to read a region that was freed is undefined. *)
Definition read (st : store) (h : handle) : outcome (list byte) :=
  match h with
  | null => Done []
  | static => Done empty_doc_bytes
  | region r => match regions st !! r with Some bs => Done bs | None => Undef end
  end.

(** [_bson_copy_view_with_allocator]: nothing is allocated for five bytes or less. *)
Definition bson_new (bs : list byte) (st : store) : store * handle :=
  if zlen bs <=? 5 then (st, static)
  else (mk_store (cells st) (<[fresh_region st := bs]> (regions st)) (S (fresh_region st)) (freed st), region (fresh_region st)).

(** [p = bson_new(q)]. *)
Definition new_copy (p q : place) (st : store) : outcome store :=
  let* bs := read st (get st q) in
  let (st, h) := bson_new bs st in
  Done (set_cell p h st).

(** [release() &&]: the value is taken and a null one left; and an initialization from what was released. *)
Definition release (q : place) (st : store) : store := set_cell q null (set_cell temporary (get st q) st).
Definition settle (p : place) (st : store) : store := set_cell temporary null (set_cell p (get st temporary) st).

(** ** [bson::document] *)

Definition _del (p : place) (st : store) : outcome store :=
  let* st := bson_delete (get st p) st in Done (set_cell p null st).

(** [document(bson_view, allocator_type)], [document(bson_doc&&)], [document(document const&)] and [document(document&&)]. *)
Definition document_from_view (x : nat) (bs : list byte) (st : store) : outcome store :=
  let (st, h) := bson_new bs st in Done (set_cell (object x) h st).
Definition document_adopt (x v : nat) (st : store) : outcome store :=
  Done (set_cell (variable v) null (set_cell (object x) (get st (variable v)) st)).
Definition document_copy (x y : nat) (st : store) : outcome store := new_copy (object x) (object y) st.
Definition document_move (x y : nat) (st : store) : outcome store := Done (settle (object x) (release (object y) st)).

(** [operator=]: what is held is deleted first. *)
Definition document_assign_copy (x y : nat) (st : store) : outcome store :=
  let* st := _del (object x) st in new_copy (object x) (object y) st.
Definition document_assign_move (x y : nat) (st : store) : outcome store :=
  let* st := _del (object x) st in Done (settle (object x) (release (object y) st)).

Definition document_release (x v : nat) (st : store) : outcome store := Done (settle (variable v) (release (object x) st)).
Definition document_destroy (x : nat) (st : store) : outcome store := let* st := _del (object x) st in Done (end_of_life (object x) st).

(** The conversion to a view, which is [noexcept]: the validation throws for a null document, and the process ends. *)
Definition document_view (x : nat) (st : store) : outcome (list byte) :=
  match get st (object x) with null => Abort | h => read st h end.

(** ** [mlib::unique] *)

(** [unique(T&&)] and [unique(unique&&)]. *)
Definition unique_take (x v : nat) (st : store) : outcome store :=
  Done (set_cell (variable v) null (set_cell (object x) (get st (variable v)) st)).
Definition unique_move (x y : nat) (st : store) : outcome store := Done (settle (object x) (release (object y) st)).

(** [reset(T&&)]: the new value is in a temporary. *)
Definition unique_reset_to (x : nat) (st : store) : outcome store :=
  let* st := bson_delete (get st (object x)) st in Done (settle (object x) st).
Definition unique_reset (x : nat) (st : store) : outcome store := unique_reset_to x (set_cell temporary null st).
(** [operator=]: the value is released before the held one is deleted. *)
Definition unique_assign (x y : nat) (st : store) : outcome store := unique_reset_to x (release (object y) st).
Definition unique_release (x v : nat) (st : store) : outcome store := Done (settle (variable v) (release (object x) st)).
Definition unique_destroy (x : nat) (st : store) : outcome store := let* st := unique_reset x st in Done (end_of_life (object x) st).

(** ** Programs *)

Inductive op : Type :=
| new_document (x : nat) (bs : list byte)
| adopt (x v : nat) | copy (x y : nat) | move (x y : nat)
| assign_copy (x y : nat) | assign_move (x y : nat) | release_document (x v : nat) | destroy (x : nat)
| take (x v : nat) | move_unique (x y : nat) | reset (x : nat) | assign_unique (x y : nat) | release_unique (x v : nat) | destroy_unique (x : nat).

Definition step (o : op) : store -> outcome store :=
  match o with
  | new_document x bs => document_from_view x bs
  | adopt x v => document_adopt x v
  | copy x y => document_copy x y
  | move x y => document_move x y
  | assign_copy x y => document_assign_copy x y
  | assign_move x y => document_assign_move x y
  | release_document x v => document_release x v
  | destroy x => document_destroy x
  | take x v => unique_take x v
  | move_unique x y => unique_move x y
  | reset x => unique_reset x
  | assign_unique x y => unique_assign x y
  | release_unique x v => unique_release x v
  | destroy_unique x => unique_destroy x
  end.

(** What a program may do: it makes objects that are not there, uses and destroys those that are, and does not overwrite a C document that
    it would have to delete. *)
Definition alive (st : store) (x : nat) : bool := bool_decide (is_Some (cells st !! object x)).
Definition overwritable (st : store) (v : nat) : bool := match get st (variable v) with region _ => false | _ => true end.
Definition valid (st : store) (o : op) : bool :=
  match o with
  | new_document x _ | adopt x _ | take x _ => negb (alive st x)
  | copy x y | move x y | move_unique x y => negb (alive st x) && alive st y
  | assign_copy x y | assign_move x y | assign_unique x y => alive st x && alive st y
  | release_document x v | release_unique x v => alive st x && overwritable st v
  | destroy x | reset x | destroy_unique x => alive st x
  end.

(** An operation that is not valid is no part of the program. *)
Fixpoint run (ops : list op) (st : store) : outcome store :=
  match ops with
  | [] => Done st
  | o :: ops => if valid st o then let* st := step o st in run ops st else run ops st
  end.

(** ** Ownership *)

Definition holds (st : store) (p : place) (r : nat) : Prop := cells st !! p = Some (region r).

Record owned (st : store) : Prop := {
  exclusive p q r : holds st p r -> holds st q r -> p = q;
  held_live p r : holds st p r -> is_Some (regions st !! r);
  live_held r : is_Some (regions st !! r) -> exists p, holds st p r;
  numbered r : (r < fresh_region st)%nat <-> is_Some (regions st !! r) \/ r ∈ freed st;
  not_both r : is_Some (regions st !! r) -> r ∉ freed st;
  freed_once : NoDup (freed st) }.

Definition vacant (st : store) (p : place) : Prop := forall r, ~ holds st p r.

Lemma holds_get st p r : holds st p r <-> get st p = region r.
Proof. unfold holds, get. destruct (cells st !! p) as [h|]; cbn; naive_solver. Qed.

Lemma holds_set st p h q r : holds (set_cell p h st) q r <-> (q = p /\ h = region r) \/ (q <> p /\ holds st q r).
Proof. unfold holds, set_cell. cbn [cells]. rewrite lookup_insert_Some. naive_solver. Qed.

Lemma get_set st p h q : get (set_cell p h st) q = if decide (q = p) then h else get st q.
Proof. unfold get, set_cell. cbn [cells]. case_decide as E; [subst; by rewrite lookup_insert_eq|by rewrite lookup_insert_ne]. Qed.

Lemma set_set st p h h' : set_cell p h (set_cell p h' st) = set_cell p h st.
Proof. unfold set_cell. cbn. by rewrite insert_insert_eq. Qed.

(** The same places hold the same regions. *)
Lemma owned_same st st' : owned st -> regions st' = regions st -> fresh_region st' = fresh_region st -> freed st' = freed st ->
  (forall p r, holds st' p r <-> holds st p r) -> owned st'.
Proof. intros [He Hl Hh Hn Hb Hf] Er En Ef E. split; rewrite ?Er, ?En, ?Ef; try done; setoid_rewrite E; done. Qed.

Lemma owned_vacant st p h : owned st -> vacant st p -> (forall r, h <> region r) -> owned (set_cell p h st).
Proof.
  intros Ho Hv Hh. apply (owned_same st); try done. intros q r. rewrite holds_set. split; [naive_solver|].
  intros Hq. destruct (decide (q = p)) as [->|]; [by destruct (Hv r)|by right].
Qed.

Lemma owned_end st p : owned st -> vacant st p -> owned (end_of_life p st).
Proof.
  intros Ho Hv. apply (owned_same st); try done. intros q r. unfold holds, end_of_life. cbn [cells]. rewrite lookup_delete_Some.
  split; [naive_solver|]. intros Hq. split; [|done]. intros ->. by destruct (Hv r).
Qed.

(** What one place holds is moved to another. *)
Definition transfer (p q : place) (st : store) : store := set_cell q null (set_cell p (get st q) st).

Lemma owned_transfer st p q : owned st -> vacant st p -> p <> q -> owned (transfer p q st).
Proof.
  intros [He Hl Hh Hn Hb Hf] Hv Hpq.
  assert (forall a r, holds (transfer p q st) a r <-> (a = p /\ holds st q r) \/ (a <> p /\ a <> q /\ holds st a r)) as E.
  { intros a r. unfold transfer. rewrite !holds_set, (holds_get st q). naive_solver. }
  split; cbn [transfer set_cell regions fresh_region freed]; try done.
  - intros a b r. rewrite !E. intros [[-> Ha]|(Ha1 & Ha2 & Ha)] [[-> Hb']|(Hb1 & Hb2 & Hb')]; [done|..|by eapply He].
    + destruct Hb2. by eapply He.
    + destruct Ha2. by eapply He.
  - intros a r. rewrite E. intros [[-> Ha]|(_ & _ & Ha)]; by eapply Hl.
  - intros r [a Ha]%Hh. destruct (decide (a = q)) as [->|]; [exists p; rewrite E; by left|]. exists a. rewrite E. right.
    split_and!; try done. intros ->. by destruct (Hv r).
Qed.

Lemma vacant_transfer st p q a : vacant st a -> a <> p -> vacant (transfer p q st) a.
Proof. intros Hv Ha r. unfold transfer. rewrite !holds_set. intros [[_ [=]]|[_ [[-> _]|[_ H]]]]; [done|by destruct (Hv r)]. Qed.

Lemma vacant_source st p q : p <> q -> vacant (transfer p q st) q.
Proof. intros Hpq r. unfold transfer. rewrite holds_set. by intros [[_ [=]]|[Hn _]]. Qed.

(** What a place holds is deleted. *)
Lemma owned_delete st p h : owned st -> (forall r, h <> region r) ->
  exists st', bson_delete (get st p) st = Done st' /\ cells st' = cells st /\ owned (set_cell p h st').
Proof.
  intros Ho Hh. pose proof Ho as [He Hl Hheld Hn Hb Hf]. destruct (get st p) as [| |r] eqn:E; cbn [bson_delete].
  1, 2: exists st; split_and!; try done; apply owned_vacant; try done; intros r; by rewrite holds_get, E.
  apply holds_get in E. destruct (Hl p r E) as [bs Hr]. rewrite Hr. eexists. split; [done|]. split; [done|].
  assert (forall q i, cells st !! q = Some (region i) /\ q <> p <-> holds st q i /\ i <> r) as Hq.
  { intros q i. unfold holds. split; intros [Hc Hne]; (split; [done|]); intros ->; apply Hne; [by eapply He|].
    unfold holds in E. rewrite E in Hc. by injection Hc. }
  assert (forall q i, holds (set_cell p h (mk_store (cells st) (delete r (regions st)) (fresh_region st) (freed st ++ [r]))) q i <-> holds st q i /\ i <> r) as Eq.
  { intros q i. rewrite holds_set, <- Hq. unfold holds. cbn [cells]. naive_solver. }
  split; cbn [set_cell regions fresh_region freed].
  - intros a b i [Ha _]%Eq [Hb' _]%Eq. by eapply He.
  - intros a i [Ha Hi]%Eq. rewrite lookup_delete_ne by done. by eapply Hl.
  - intros i [bs' [Hi Hbs]%lookup_delete_Some]. destruct (Hheld i) as [a Ha]; [by eexists|]. exists a. by apply Eq.
  - intros i. rewrite Hn, elem_of_app, list_elem_of_singleton. destruct (decide (i = r)) as [->|Hi].
    + rewrite lookup_delete_eq. split; [by right; right|]. intros _. left. by exists bs.
    + rewrite lookup_delete_ne by done. naive_solver.
  - intros i [bs' [Hi Hbs]%lookup_delete_Some]. rewrite elem_of_app, list_elem_of_singleton. intros [Hfr|Hir]; [|by destruct Hi]. apply (Hb i); [by exists bs'|done].
  - apply NoDup_app. split_and!; [done| |apply NoDup_singleton]. intros i Hi ->%list_elem_of_singleton. by apply (Hb r).
Qed.

(** A new document in a vacant place. *)
Lemma owned_new st p bs : owned st -> vacant st p -> let (st', h) := bson_new bs st in owned (set_cell p h st').
Proof.
  intros Ho Hv. unfold bson_new. destruct (zlen bs <=? 5); [by apply owned_vacant|]. pose proof Ho as [He Hl Hh Hn Hb Hf].
  set (n := fresh_region st). assert (regions st !! n = None) as Hnone.
  { destruct (regions st !! n) as [b|] eqn:E; [|done]. assert (n < n)%nat; [|lia]. unfold n at 2. apply Hn. left. by eexists. }
  assert (forall a r, holds st a r -> r <> n) as Hfresh by (intros a r [b Hr]%Hl ->; by rewrite Hnone in Hr).
  assert (forall a r, holds (set_cell p (region n) (mk_store (cells st) (<[n := bs]> (regions st)) (S n) (freed st))) a r <->
    (a = p /\ r = n) \/ (a <> p /\ holds st a r)) as E by (intros a r; rewrite holds_set; unfold holds; cbn [cells]; naive_solver).
  split; cbn [set_cell regions fresh_region freed].
  - intros a b r. rewrite !E. intros [[-> ->]|[Ha Ha']] [[-> ?]|[Hb1 Hb']]; [done|..|by eapply He]; [by apply Hfresh in Hb'|subst; by apply Hfresh in Ha'].
  - intros a r. rewrite E. intros [[-> ->]|[_ Ha]]; [rewrite lookup_insert_eq; by eexists|]. rewrite lookup_insert_ne; [by eapply Hl|].
    intros <-. by apply Hfresh in Ha.
  - intros r [b [[<- _]|[Hr Hrb]]%lookup_insert_Some]; [exists p; apply E; by left|]. destruct (Hh r) as [a Ha]; [by eexists|].
    exists a. apply E. right. split; [|done]. intros ->. by destruct (Hv r).
  - intros r. destruct (decide (r = n)) as [->|Hr].
    + rewrite lookup_insert_eq. split; [left; by eexists|lia].
    + rewrite lookup_insert_ne by done. rewrite <- Hn. unfold n in *. lia.
  - intros r [b [[<- _]|[Hr Hrb]]%lookup_insert_Some]; [|apply Hb; by eexists]. intros Hfr. assert (n < n)%nat; [|lia]. unfold n at 2. apply Hn. by right.
  - done.
Qed.

(** ** Every operation keeps ownership *)

(** Between operations no temporary holds anything. *)
Definition settled (st : store) : Prop := owned st /\ vacant st temporary.

Lemma release_transfer q st : q <> temporary -> release q st = transfer temporary q st.
Proof. done. Qed.

Lemma settle_transfer p st : settle p st = transfer p temporary st.
Proof. done. Qed.

(** [p = release(q)], into a vacant place. *)
Lemma settled_move p q st : settled st -> vacant st p -> p <> temporary -> q <> temporary -> settled (settle p (release q st)).
Proof.
  intros [Ho Hv] Hp Hpt Hqt. rewrite settle_transfer, release_transfer by done.
  assert (vacant (transfer temporary q st) p) as Hp' by (apply vacant_transfer; done).
  split; [|by apply vacant_source]. apply owned_transfer; [|done|done]. by apply owned_transfer.
Qed.

Lemma settled_set p h st : settled st -> vacant st p -> (forall r, h <> region r) -> settled (set_cell p h st).
Proof.
  intros [Ho Hv] Hp Hh. split; [by apply owned_vacant|]. intros r [[_ Hr]|[_ Hr]]%holds_set; [by apply (Hh r)|by apply (Hv r)].
Qed.

Lemma settled_end p st : settled st -> vacant st p -> settled (end_of_life p st).
Proof.
  intros [Ho Hv] Hp. split; [by apply owned_end|]. intros r Hr. apply (Hv r). unfold holds, end_of_life in *. cbn [cells] in Hr.
  by apply lookup_delete_Some in Hr as [_ Hr].
Qed.

Lemma settled_adopt x v st : settled st -> vacant st (object x) ->
  settled (set_cell (variable v) null (set_cell (object x) (get st (variable v)) st)).
Proof.
  intros [Ho Hv] Hx. fold (transfer (object x) (variable v) st). split; [by apply owned_transfer|]. by apply vacant_transfer.
Qed.

(** [_del] leaves a null document. *)
Lemma settled_del p st : settled st -> p <> temporary -> exists st', _del p st = Done st' /\ settled st' /\ vacant st' p.
Proof.
  intros [Ho Hv] Hp. unfold _del. destruct (owned_delete st p null Ho) as (st' & -> & Ec & Ho'); [done|]. ostep. eexists. split; [done|].
  assert (forall q r, holds (set_cell p null st') q r -> q <> p /\ holds st q r) as Hh.
  { intros q r [[_ [=]]|[Hq Hr]]%holds_set. split; [done|]. unfold holds in *. by rewrite <- Ec. }
  split; [split; [done|]|]; [by intros r [_ Hr]%Hh; apply (Hv r)|by intros r [? _]%Hh].
Qed.

Lemma read_held st q : owned st -> exists bs, read st (get st q) = Done bs.
Proof.
  intros Ho. destruct (get st q) as [| |r] eqn:E; cbn [read]; [by eexists..|]. apply holds_get in E.
  destruct (held_live st Ho q r E) as [bs ->]. by eexists.
Qed.

Lemma settled_bson_new p bs st : settled st -> vacant st p -> p <> temporary -> let (st', h) := bson_new bs st in settled (set_cell p h st').
Proof.
  intros [Ho Hv] Hp Ht. pose proof (owned_new st p bs Ho Hp) as Hn. destruct (bson_new bs st) as [st' h] eqn:E. split; [done|].
  intros r [[Hc _]|[_ Hr]]%holds_set; [by subst p|]. apply (Hv r). unfold bson_new in E. destruct (zlen bs <=? 5); by injection E as <- <-.
Qed.

Lemma settled_new_copy p q st : settled st -> vacant st p -> p <> temporary -> exists st', new_copy p q st = Done st' /\ settled st'.
Proof.
  intros Hs Hp Ht. unfold new_copy. destruct (read_held st q (proj1 Hs)) as [bs ->]. ostep.
  pose proof (settled_bson_new p bs st Hs Hp Ht) as Hn. destruct (bson_new bs st) as [st' h]. by eexists.
Qed.

(** [reset(T&&)] is [_del] and the new value. *)
Lemma reset_to_del x st : unique_reset_to x st = (let* st := _del (object x) st in Done (settle (object x) st)).
Proof.
  unfold unique_reset_to, _del. destruct (bson_delete _ st) as [st'| |]; ostep; try done. unfold settle. f_equal. f_equal.
  rewrite get_set, decide_False by done. by rewrite set_set.
Qed.

(** A value in the temporary goes to an object whose value is deleted. *)
Lemma settled_reset_to x st : owned st -> exists st', unique_reset_to x st = Done st' /\ settled st'.
Proof.
  intros Ho. rewrite reset_to_del. unfold _del. destruct (owned_delete st (object x) null Ho) as (st' & -> & Ec & Ho'); [done|]. ostep.
  eexists. split; [done|]. rewrite settle_transfer. split; [|by apply vacant_source]. apply owned_transfer; [done| |done].
  by intros r [[_ [=]]|[? _]]%holds_set.
Qed.

Lemma not_alive_vacant st x : alive st x = false -> vacant st (object x).
Proof. unfold alive. rewrite bool_decide_eq_false. intros Hn r Hr. apply Hn. unfold holds in Hr. rewrite Hr. by eexists. Qed.

Lemma overwritable_vacant st v : overwritable st v = true -> vacant st (variable v).
Proof. unfold overwritable. intros Hv r Hr%holds_get. by rewrite Hr in Hv. Qed.

Lemma step_settled o st : settled st -> valid st o = true -> exists st', step o st = Done st' /\ settled st'.
Proof.
  intros Hs Hv. pose proof (fun x => settled_del (object x) st Hs ltac:(done)) as Hdel.
  destruct o as [x bs|x v|x y|x y|x y|x y|x v|x|x v|x y|x|x y|x v|x]; cbn [valid step] in *;
    rewrite ?andb_true_iff, ?negb_true_iff in Hv; try match type of Hv with _ /\ _ => destruct Hv as [Hv Hw] end.
  - unfold document_from_view. pose proof (settled_bson_new (object x) bs st Hs (not_alive_vacant st x Hv) ltac:(done)) as Hn.
    destruct (bson_new bs st). by eexists.
  - eexists. split; [done|]. by apply settled_adopt, not_alive_vacant.
  - apply settled_new_copy; [done|by apply not_alive_vacant|done].
  - eexists. split; [done|]. apply settled_move; [done|by apply not_alive_vacant|done..].
  - unfold document_assign_copy. destruct (Hdel x) as (st' & -> & Hs' & Hx). ostep. by apply settled_new_copy.
  - unfold document_assign_move. destruct (Hdel x) as (st' & -> & Hs' & Hx). ostep. eexists. split; [done|]. by apply settled_move.
  - eexists. split; [done|]. apply settled_move; [done|by apply overwritable_vacant|done..].
  - unfold document_destroy. destruct (Hdel x) as (st' & -> & Hs' & Hx). ostep. eexists. split; [done|]. by apply settled_end.
  - eexists. split; [done|]. by apply settled_adopt, not_alive_vacant.
  - eexists. split; [done|]. apply settled_move; [done|by apply not_alive_vacant|done..].
  - apply settled_reset_to. apply owned_vacant; [apply Hs|apply Hs|done].
  - apply settled_reset_to. rewrite release_transfer by done. apply owned_transfer; [apply Hs|apply Hs|done].
  - eexists. split; [done|]. apply settled_move; [done|by apply overwritable_vacant|done..].
  - unfold unique_destroy, unique_reset. rewrite reset_to_del.
    assert (settled (set_cell temporary null st)) as Hs0 by (apply settled_set; [done|apply Hs|done]).
    destruct (settled_del (object x) _ Hs0 ltac:(done)) as (st' & -> & [Ho Ht] & Hx). ostep. eexists. split; [done|].
    rewrite settle_transfer. apply settled_end.
    + split; [by apply owned_transfer|by apply vacant_source].
    + unfold transfer. intros r [[_ [=]]|[_ [[_ Hr]|[? _]]%holds_set]]%holds_set; [|done]. apply holds_get in Hr. by apply (Ht r).
Qed.

Lemma run_settled ops : forall st, settled st -> exists st', run ops st = Done st' /\ settled st'.
Proof.
  induction ops as [|o ops IH]; intros st Hs; cbn [run]; [by eexists|]. destruct (valid st o) eqn:Hv; [|by apply IH].
  destruct (step_settled o st Hs Hv) as (st' & -> & Hs'). ostep. by apply IH.
Qed.

Lemma empty_settled : settled empty_store.
Proof.
  assert (forall p r, ~ holds empty_store p r) as Hn by (intros p r; unfold holds; cbn; by rewrite lookup_empty).
  assert (forall r, ~ is_Some (regions empty_store !! r)) as Hr by (intros r; cbn; rewrite lookup_empty; by intros [? [=]]).
  split; [|intros r; apply Hn]. split; cbn [freed fresh_region empty_store].
  - by intros p q r Hp%Hn.
  - by intros p r Hp%Hn.
  - by intros r Hp%Hr.
  - intros r. split; [lia|]. intros [H%Hr|H%elem_of_nil]; done.
  - by intros r Hp%Hr.
  - apply NoDup_nil_2.
Qed.

(** C23. Documents and unique owners free exactly what they own: whatever a program does with them (views copied, copies, moves, assignments, to
    themselves too, values taken from C documents and released to them, resets and destruction), nothing is read after it was
    freed and nothing is freed twice; no two places refer to the same region; every region that was ever made is either freed
    or held; and when all objects are gone and no C document of the program holds a region, all regions have been freed. *)
Theorem documents_owned ops : exists st, run ops empty_store = Done st /\ NoDup (freed st) /\
  (forall p q r, holds st p r -> holds st q r -> p = q) /\
  (forall r, (r < fresh_region st)%nat -> (r ∈ freed st /\ forall p, ~ holds st p r) \/ (r ∉ freed st /\ exists p, holds st p r)) /\
  ((forall x, alive st x = false) -> (forall v, overwritable st v = true) -> forall r, (r < fresh_region st)%nat -> r ∈ freed st).
Proof.
  destruct (run_settled ops empty_store empty_settled) as (st & E & Ho & Ht). exists st. split; [done|]. split; [by apply freed_once|].
  split; [by apply exclusive|].
  assert (forall r, (r < fresh_region st)%nat -> (r ∈ freed st /\ forall p, ~ holds st p r) \/ (r ∉ freed st /\ exists p, holds st p r)) as Hall.
  { intros r [Hr|Hr]%(numbered st Ho); [right; split; [by apply (not_both st Ho)|by apply (live_held st Ho)]|].
    left. split; [done|]. intros p Hp%(held_live st Ho). by apply (not_both st Ho r Hp). }
  split; [done|]. intros Hx Hv r [[Hr _]|[_ [p Hp]]]%Hall; [done|]. exfalso.
  destruct p as [x|v|]; [|by apply (overwritable_vacant st v (Hv v) r)|by apply (Ht r)]. by apply (not_alive_vacant st x (Hx x) r).
Qed.

(** ** What copies and assignments hold *)

(** What a copy holds of the bytes of the original: of a null document the empty one. *)
Definition copied_bytes (bs : list byte) : list byte := if zlen bs <=? 5 then empty_doc_bytes else bs.

Lemma read_regions st st' h : regions st' = regions st -> read st' h = read st h.
Proof. intros E. unfold read. by rewrite E. Qed.

Lemma get_moved p q a st : p <> temporary -> q <> temporary ->
  get (settle p (release q st)) a = if decide (a = p) then get st q else if decide (a = q \/ a = temporary) then null else get st a.
Proof.
  intros Hp Hq. unfold settle, release. rewrite !get_set. repeat case_decide; try done; naive_solver.
Qed.

(** Copy assignment from another document copies it; from itself it leaves the empty document, and move assignment a null one. *)
Theorem assignment_spec st x y bs : settled st -> read st (get st (object y)) = Done bs ->
  (exists st', document_assign_copy x y st = Done st' /\
     read st' (get st' (object x)) = Done (if decide (x = y) then empty_doc_bytes else copied_bytes bs)) /\
  (exists st', document_assign_move x y st = Done st' /\
     read st' (get st' (object x)) = Done (if decide (x = y) then [] else bs) /\ get st' (object y) = null) /\
  (exists st', unique_assign x y st = Done st' /\ read st' (get st' (object x)) = Done bs /\ (x <> y -> get st' (object y) = null)).
Proof.
  intros Hs Hb. pose proof Hs as [Ho Ht]. unfold document_assign_copy, document_assign_move, unique_assign. rewrite reset_to_del.
  unfold _del. destruct (owned_delete st (object x) null Ho) as (st1 & E1 & Ec & Ho1); [done|]. rewrite E1. ostep.
  assert (forall q, get st1 q = get st q) as Eg by (intros q; unfold get; by rewrite Ec).
  assert (x <> y -> read st1 (get st (object y)) = Done bs) as Hkeep.
  { intros Hxy. unfold bson_delete in E1. destruct (get st (object x)) as [| |r] eqn:Ex; [by injection E1 as <-..|].
    destruct (regions st !! r); [|done]. injection E1 as <-. unfold read in *. cbn [regions]. destruct (get st (object y)) as [| |r'] eqn:Ey; try done.
    rewrite lookup_delete_ne; [done|]. intros ->. apply holds_get in Ex, Ey. pose proof (exclusive st Ho _ _ _ Ex Ey) as Ep. by injection Ep. }
  split_and!.
  - unfold new_copy. rewrite get_set, Eg. destruct (decide (x = y)) as [->|Hxy].
    + rewrite decide_True by done. ostep. eexists. split; [done|]. by rewrite get_set, decide_True by done.
    + rewrite decide_False by congruence. rewrite (read_regions st1), (Hkeep Hxy) by done. ostep. unfold bson_new, copied_bytes.
      destruct (zlen bs <=? 5); (eexists; split; [done|]); rewrite get_set, decide_True by done; [done|].
      cbn [read set_cell regions]. by rewrite lookup_insert_eq.
  - eexists. split; [done|]. rewrite !get_moved, !get_set, !Eg, (decide_True (P := object x = object x)) by done.
    rewrite (read_regions st1) by done. destruct (decide (x = y)) as [->|Hxy].
    + by rewrite !decide_True by (done || by left).
    + rewrite !decide_False by congruence. split; [by apply Hkeep|]. by rewrite decide_True by (by left).
  - assert (get (release (object y) st) (object x) = if decide (x = y) then null else get st (object x)) as ->.
    { unfold release. rewrite !get_set. repeat case_decide; naive_solver. }
    destruct (decide (x = y)) as [->|Hxy].
    + cbn [bson_delete]. ostep. eexists. split; [done|].
      unfold release. rewrite set_set. fold (release (object y) st). rewrite get_moved, decide_True by done. by rewrite (read_regions st).
    + assert (bson_delete (get st (object x)) (release (object y) st) =
        Done (mk_store (cells (release (object y) st)) (regions st1) (fresh_region st1) (freed st1))) as ->.
      { unfold bson_delete in *. destruct (get st (object x)) as [| |r]; [by injection E1 as <-..|]. cbn [release set_cell regions].
        destruct (regions st !! r); [|done]. by injection E1 as <-. }
      ostep. eexists. split; [done|].
      assert (forall a, get (settle (object x) (set_cell (object x) null (mk_store (cells (release (object y) st)) (regions st1) (fresh_region st1) (freed st1)))) a =
        get (settle (object x) (release (object y) st)) a) as Ea.
      { intros a. unfold settle. rewrite !get_set. repeat case_decide; done. }
      rewrite !Ea, !get_moved, decide_True by done. rewrite (read_regions st1) by done. split; [by apply Hkeep|]. intros _.
      rewrite decide_False by congruence. by rewrite decide_True by (by left).
Qed.

(** ** Concrete programs *)

Definition sample_bytes : list byte := map z2b [8; 0; 0; 0; 10; 97; 0; 0].

(** Copies, moves and C documents; at the end everything is freed. *)
Example sample_program :
  omap_outcome (fun st => (freed st, fresh_region st))
    (run [new_document 0 sample_bytes; copy 1 0; move 2 1; release_document 2 7; take 3 7; assign_unique 3 3; assign_copy 1 0;
          destroy 0; destroy 1; destroy 2; destroy_unique 3] empty_store) = Done ([0; 2; 1]%nat, 3%nat).
Proof. vm_compute. reflexivity. Qed.

(** A document that is assigned to itself is lost; a unique owner keeps its value. *)
Example self_assignment :
  let contents ops := let* st := run ops empty_store in read st (get st (object 0)) in
  contents [new_document 0 sample_bytes; assign_copy 0 0] = Done empty_doc_bytes /\
  contents [new_document 0 sample_bytes; assign_move 0 0] = Done [] /\
  contents [new_document 0 sample_bytes; assign_unique 0 0] = Done sample_bytes.
Proof. split_and!; vm_compute; reflexivity. Qed.

(** A document that was moved from is empty when it is copied, and ends the process when it is viewed. *)
Example moved_from :
  let moved := [new_document 0 sample_bytes; move 1 0] in
  (let* st := run (moved ++ [copy 2 0]) empty_store in read st (get st (object 2))) = Done empty_doc_bytes /\
  (let* st := run moved empty_store in document_view 0 st) = Abort /\
  (let* st := run moved empty_store in document_view 1 st) = Done sample_bytes.
Proof. split_and!; vm_compute; reflexivity. Qed.
