(* ===== verification/Stream.v ===== *)
(** * Output streams ([include/mlib/stream.h], [src/mlib/stream.cpp])

    A stream is a function that writes characters to its userdata: to a file, to an object with [append], or to an [mlib_str].  Documents
    are printed to streams by [Format.v], which ignores what the function returns. *)
From Stdlib Require Import ZArith Lia.
From Stdlib Require Import Strings.Byte.
From stdpp Require Import base numbers list.
From S2P Require Import Prelude.
From S2P Require Import Mem.
From S2P Require Import Alloc.
From S2P Require Import Str.
From S2P Require Import Codec.
From S2P Require Import Parse.
From S2P Require Import Status.
From S2P Require Import StrMut.
From S2P Require Import Format.
Open Scope Z_scope.
Open Scope outcome_scope.

(** The write function; the userdata is part of the world. *)
Record mlib_ostream (W : Type) : Type := mk_ostream { os_write : text -> W -> outcome (W * Z) }.
Arguments mk_ostream {W}.
Arguments os_write {W}.

Definition mlib_write {W} (out : mlib_ostream W) (str : text) (w : W) : outcome (W * Z) := os_write out str w.

(** A [FILE]: what [fwrite] does is a parameter. *)
Definition mlib_ostream_from_fileptr {W} (fwrite : text -> W -> W * Z) : mlib_ostream W := mk_ostream (fun data w => Done (fwrite data w)).

(** An object with [append]. *)
Definition from_appendable {T} (append : T -> text -> T) : mlib_ostream T := mk_ostream (fun buf into => Done (append into buf, zlen buf)).

Section Strings.
Context {AS : Type} `{Allocator AS}.

(** The string, the state of the default allocator, and the regions that nothing refers to any more. *)
Record string_world : Type := mk_string_world { into : mlib_str AS; default_state : AS; unreachable : list block }.

Definition owns_region (s : mlib_str AS) : bool := negb (s_data s =? 0) && negb (s_data s =? _mlib_string_empty).

(** An [mlib_str] is replaced by a new string; the old one is not deleted. *)
Definition mlib_ostream_from_strptr : mlib_ostream string_world := mk_ostream (fun data w =>
  let* v := _mlib_str_as_view (into w) in
  let* s := _mlib_str_append (default_state w) v data in
  Done (mk_string_world s (s_alloc s) (unreachable w ++ (if owns_region (into w) then [s_mem (into w)] else [])), zlen data)).
End Strings.

(** The pieces of a text are written one after the other. *)
Fixpoint write_pieces {W} (out : mlib_ostream W) (pieces : list text) (w : W) : outcome W :=
  match pieces with
  | [] => Done w
  | p :: pieces => let* (w, _) := mlib_write out p w in write_pieces out pieces w
  end.

(** [bson_write_repr(out, doc, opts)]. *)
Definition bson_write {W} (quoted : text -> text) (fmt_double fmt_time : Z -> text) (fuel : nat) (out : mlib_ostream W) (doc : option (list byte))
  (opts : option bson_fmt_options) (w : W) : outcome W :=
  let* pieces := bson_write_repr quoted fmt_double fmt_time fuel doc opts in write_pieces out pieces w.

(** ** What is written *)

Lemma appendable_pieces {T} (append : T -> text -> T) (Happ : forall t a b, append t (a ++ b) = append (append t a) b) pieces : forall t, append t [] = t ->
  write_pieces (from_appendable append) pieces t = Done (append t (concat pieces)).
Proof.
  induction pieces as [|p pieces IH]; intros t Ht; cbn [write_pieces concat mlib_write os_write from_appendable]; [by rewrite Ht|]. ostep.
  rewrite IH; [by rewrite Happ|]. by rewrite <- Happ, app_nil_r.
Qed.

Section Printing.
Context {AS : Type} `{AllocatorOk AS}.
Context (Hgranted : forall (a : AS) n, ~ refused a n).

Lemma append_spec (s : mlib_str AS) (w : string_world) l data : into w = s -> text_of s l -> zlen l + zlen data + 9 <= INT32_MAX ->
  exists w', mlib_write mlib_ostream_from_strptr data w = Done (w', zlen data) /\ text_of (into w') (l ++ data) /\
    unreachable w' = unreachable w ++ (if owns_region s then [s_mem s] else []).
Proof.
  intros <- Ht Hf. unfold mlib_write, mlib_ostream_from_strptr. cbn [os_write]. rewrite (text_view _ l Ht). ostep. unfold _mlib_str_append.
  pose proof (string_splice_spec l (zlen l) 0 (Some data) (default_state w) (zlen_nonneg l) ltac:(lia) Hf) as Hs. cbn [default] in Hs.
  rewrite Z.leb_refl, zlen_to_nat, Z.add_0_r, zlen_to_nat, drop_all, firstn_all, app_nil_r in Hs.
  destruct (Hs (Hgranted _ _)) as (r & -> & Hr). ostep. eexists. split; [done|]. by split.
Qed.

Lemma text_owns (s : mlib_str AS) l : text_of s l -> l <> [] -> owns_region s = true.
Proof.
  intros Ht Hl. unfold owns_region. destruct (Z.eqb_spec (s_data s) _mlib_string_empty) as [E|E]; [by apply (text_shared s l Ht) in E as [_ ->]|].
  destruct (text_owned s l Ht E) as [_ Hh]. unfold heap_start in Hh. destruct (Z.eqb_spec (s_data s) 0); [lia|done].
Qed.

(** A string with text: every piece replaces it, and leaves a region behind. *)
Lemma pieces_appended pieces : forall (w : string_world) l, text_of (into w) l -> l <> [] -> zlen l + zlen (concat pieces) + 9 <= INT32_MAX ->
  exists w', write_pieces mlib_ostream_from_strptr pieces w = Done w' /\ text_of (into w') (l ++ concat pieces) /\
    length (unreachable w') = (length (unreachable w) + length pieces)%nat.
Proof.
  induction pieces as [|p pieces IH]; intros w l Ht Hl Hf; cbn [write_pieces concat length] in *.
  - exists w. rewrite app_nil_r, Nat.add_0_r. done.
  - rewrite zlen_app in Hf. pose proof (zlen_nonneg (concat pieces)).
    destruct (append_spec (into w) w l p eq_refl Ht ltac:(lia)) as (w1 & -> & Ht1 & Hu). ostep. rewrite (text_owns _ _ Ht Hl) in Hu.
    destruct (IH w1 (l ++ p) Ht1) as (w' & -> & Ht' & Hu'); [by destruct l|rewrite zlen_app; lia|].
    exists w'. split; [done|]. rewrite <- app_assoc in Ht'. split; [done|]. rewrite Hu', Hu, length_app. cbn [length]. lia.
Qed.

(** A document starts with a brace. *)
Lemma repr_nonempty quoted fmt_double fmt_time opts depth es : repr quoted fmt_double fmt_time opts depth (t_document es) <> [].
Proof. destruct es as [|[k [v|?|?]] [|? ?]]; cbn [repr]; try done; by destruct (multiline opts). Qed.

(** Printing a document to a string appends the text of its tree; and each region that the string had, of the text before and of
    every piece of 512 characters, is left without an owner. *)
Theorem string_printed quoted fmt_double fmt_time opts es fuel (w : string_world) l :
  let o := match opts with Some o => o | None => mk_options 0 0 2 end in
  let t := spaces (initial_indent o) ++ repr quoted fmt_double fmt_time o 0 (t_document es) in
  0 <= initial_indent o /\ 0 <= subsequent_indent o /\ 0 <= nested_indent o ->
  printable quoted fmt_double fmt_time (t_document es) -> (height (t_document es) <= fuel)%nat ->
  text_of (into w) l -> (s_data (into w) = _mlib_string_empty \/ l <> []) -> zlen l + zlen t + 9 <= INT32_MAX ->
  exists w', bson_write quoted fmt_double fmt_time fuel mlib_ostream_from_strptr (Some (encode_doc (elements_of es))) opts w = Done w' /\
    text_of (into w') (l ++ t) /\
    Z.of_nat (length (unreachable w')) = Z.of_nat (length (unreachable w)) + zlen t / 512 + (if owns_region (into w) then 1 else 0).
Proof.
  cbv zeta. intros Ho Hp Hfu Ht Hl Hf. unfold bson_write.
  destruct (printed_pieces quoted fmt_double fmt_time opts es fuel Ho Hp Hfu) as (pieces & rest & -> & Hc & Hall & Hr). ostep.
  set (o := match opts with Some o => o | None => mk_options 0 0 2 end) in *. set (t := spaces _ ++ _) in *.
  assert (concat (pieces ++ [rest]) = t) as Et by (rewrite concat_app; cbn [concat]; by rewrite app_nil_r).
  assert (Z.of_nat (length pieces) = zlen t / 512) as En.
  { rewrite <- Hc, zlen_app. assert (zlen (concat pieces) = 512 * Z.of_nat (length pieces)) as ->.
    { clear -Hall. induction Hall as [|p ps Hp _ IH]; [done|]. cbn [concat length]. rewrite zlen_app, Hp, IH. lia. }
    pose proof (zlen_nonneg rest). apply (Z.div_unique _ 512 _ (zlen rest)); lia. }
  assert (t <> []) as Hne by (unfold t; intros [_ E]%app_nil; by apply repr_nonempty in E).
  destruct Hl as [Hs|Hl].
  - destruct (text_shared _ _ Ht Hs) as [_ ->]. assert (owns_region (into w) = false) as Hn by (unfold owns_region; by rewrite Hs, Z.eqb_refl, andb_false_r).
    destruct (pieces ++ [rest]) as [|p ps] eqn:Eps; [by destruct pieces|]. cbn [write_pieces].
    cbn [concat] in Et. rewrite zlen_nil, <- Et, zlen_app in Hf. pose proof (zlen_nonneg (concat ps)).
    destruct (append_spec (into w) w [] p eq_refl Ht ltac:(rewrite zlen_nil; lia)) as (w1 & -> & Ht1 & Hu). ostep. rewrite Hn in Hu. cbn [app] in Ht1.
    assert (p <> []) as Hpne.
    { destruct pieces as [|q pieces]; cbn [app] in Eps; injection Eps as -> <-; [intros ->; by destruct Hne; rewrite <- Et|].
      apply Forall_cons in Hall as [Hq _]. intros ->. by rewrite zlen_nil in Hq. }
    destruct (pieces_appended ps w1 p Ht1 Hpne ltac:(lia)) as (w' & -> & Ht' & Hu'). exists w'. split; [done|]. rewrite Et in Ht'. split; [done|].
    apply (f_equal length) in Eps. rewrite length_app in Eps. cbn [length] in Eps. rewrite Hu', Hu, app_nil_r, Hn. lia.
  - destruct (pieces_appended (pieces ++ [rest]) w l Ht Hl ltac:(by rewrite Et)) as (w' & -> & Ht' & Hu'). exists w'. split; [done|]. rewrite Et in Ht'.
    split; [done|]. rewrite (text_owns _ _ Ht Hl), Hu', length_app. cbn [length]. lia.
Qed.
End Printing.
